(* ===== verification/_CoqProject ===== *)
-Q . S2P
Prelude.v
State.v
Lock.v
SpinLock.v
Strings.v
Console.v
Printf.v
Kalloc.v
Vm.v
VmSpec.v
VmOps.v
VmCopy.v
Pipe.v
Bio.v
BufSpec.v
Log.v
Crash.v
Inode.v
Devs.v
Kbd.v
Fs.v
Txn.v
Blocks.v
DemoFs.v
FsData.v
Dinode.v
FsFile.v
Icache.v
Dirs.v
Paths.v
Durable.v
File.v
FileWrite.v
Proc.v
Exec.v
Uaccess.v
Uargs.v
Sysfile.v
Syscall.v
User.v
Umalloc.v
Utils.v
Grep.v
Sh.v
ShRun.v
Redirect.v
Mkfs.v
MkfsBoot.v
Hw.v
Apic.v
Ide.v
Bootmain.v
Mp.v
Gates.v
Smp.v
Progs.v
Usertests.v
Machine.v
