(* ===== verification/Prelude.v ===== *)
(** * A verification of the xv6 teaching kernel

    The program is a modified xv6: a Unix-like kernel for the x86 in C, with the
    programs that run on it.  The kernel is translated into functions over one
    record of its global variables ([kernel], in State), in a monad [M] whose
    outcomes are a result, a panic, a fault (undefined behaviour), and a context
    switch with the rest of the computation.  Names are those of the C sources.

    ** The parts, bottom up

    - Prelude: machine integers, the monad, its weakest preconditions [wp], and
      what holds across context switches ([rg], [sg]); bytes and lists.
    - State: the structures of the headers, the record of globals.
    - Lock: [acquire] and [release] as seen by one process, [sched], [sleep],
      [wakeup] (proc.c), sleep-locks (sleeplock.c).  SpinLock: spinlock.c at the
      grain of single memory accesses on any number of processors, and the proof
      that it implements the locks the other files use.
    - Strings: string.c and ulib.c.  Console: output (console.c).  Printf: the
      user library's printf.c and the copy of it in ticks.c.
    - Kalloc: kalloc.c.  Vm, VmSpec, VmOps, VmCopy: the operations of vm.c, the
      meaning of a page table, and the proofs about them.
    - Pipe: pipe.c.
    - Bio, BufSpec: bio.c and memide.c, and what the cache promises.  Log, Crash:
      log.c, and recovery after a crash at any write.
    - Inode, Devs, Kbd, Fs: fs.c, console input, the drivers behind the device
      switch, kbd.c.  Txn, Blocks, FsData, Dinode, FsFile, Icache, Dirs, Paths,
      Durable: the proofs about fs.c, from transactions over blocks, files, inodes
      and directories to path names and what survives a crash.  DemoFs: a small
      disk for the examples.
    - File, Proc, Exec, Uaccess, Sysfile, Syscall: file.c, proc.c, exec.c,
      syscall.c, sysfile.c, sysproc.c, trap.c, uart.c and main.c.  FileWrite and
      Uargs: the proofs about [filewrite] and about the arguments of system calls.
    - User: the system calls as an interface ([Sys.Os]) that user programs are
      written against, printf.c and ulib.c.  Umalloc: umalloc.c.  Utils, Grep: the
      commands of the user.  Sh, ShRun: the parser of sh.c and the carrying out of
      commands.  Redirect: the kernel as an instance of the interface.
    - Mkfs, MkfsBoot: mkfs.c, and the kernel mounting the image it makes.
    - Hw: port and memory-mapped input and output (x86.h) over any hardware.  Apic:
      lapic.c, ioapic.c, picirq.c, kshutdown.c.  Ide: ide.c.  Bootmain:
      bootmain.c.  Mp: mp.c.  Gates: the descriptor tables ([seginit], [tvinit]).
      Smp: [startothers], [mycpu].
    - Progs, Usertests: the test programs.  Machine: the interface of system calls
      carried out by [trap] of the whole kernel, and the tests run on it.

    ** How state and operations correspond

    A pointer into a table of the kernel is the index of the slot; a null pointer
    is [None].  A page is named by its kernel address and holds 1024 words.  Data
    that a function stores through a pointer it was given is part of its result;
    data it reads through one is an argument.  C integers are [Z], brought to
    their width by [u32], [s32] and the like where the code stores or compares
    them.  A loop is a [Fixpoint] over what it consumes, or over fuel that the
    theorems show to be enough; loops that wait for other processes take the
    class [WaitBound], of which every theorem holds for every value, since a
    round is consumed only by going to sleep.  Symbols set by the linker and the
    contents of devices are parameters.  Where a theorem relies on a device or on
    the system calls, what it relies on is a class of laws ([AtaLaws], [Streams]
    and the like), with an instance that keeps them.

    ** What the theorems show

    - Locks: mutual exclusion of spin-locks for any number of processors and any
      interleaving, and that they refine the one-process view; mutual exclusion
      of sleep-locks; no wakeup is lost.
    - Memory: the free list is a stack of distinct pages; page tables map what
      they should, growing and shrinking a process gives back every page, [fork]'s
      copy equals the original and shares nothing with it; system calls take
      nothing from outside the process, whatever it passes.
    - Disk: the cache is coherent and evicts the least recently used block; a
      transaction is atomic under a crash at any point, recovery included, and
      durable once [end_op] returns.  The IDE driver serves requests in order
      with the effect of the memory disk the rest is modelled over.
    - Files: the block allocator, the contents of files under [readi], [writei]
      and [filewrite], directories, path names, reference counts of the inode
      cache.  The image mkfs makes is a well-formed file system to the kernel.
    - Start-up: the boot loader puts the kernel in memory, the processors are
      found and started, and user code can enter the kernel only by a system call.
    - Pipes, console output, the string functions and printf.
    - Programs: malloc and free, wc, grep's matcher, the shell's parser (its
      trees are well formed, and printing and parsing are inverse) and the
      processes a command line starts; cat on the kernel copies one file to
      another.  [Machine.Run.suite_passes] computes that tests of usertests.c pass
      on the kernel, from the trap down to the disk.

    ** Bounds

    Transactions of up to [TXMAX] = 27 blocks are covered, more than the ten a
    system call reserves.  [writei_contents] and what follows assume a file
    system with one bitmap block (4096 blocks; mkfs makes 2000).  Loops of user
    programs that go on until the input ends take [LoopBound]; the theorems ask
    for a bound above the length of the input.  Loops that poll a device take
    [PollBound]; the laws of the device say how often it is polled.  The parser of
    the shell and [iappend] of mkfs take fuel from the length of their input.

    ** Not modelled

    Assembly (entry, trap entry, context switch, the start of the other
    processors), and [mpenter], which only they run.  The reading of mkfs's
    arguments.  Of usertests.c, the tests that work on addresses and on the machine
    below the system calls.  The headers that only declare. *)

From stdpp Require Export base option list gmap strings.
From Stdlib Require Export ZArith Lia Ascii.

#[export] Set Default Goal Selector "!".
Global Open Scope Z_scope.

(** ** Machine integers

    C integers are kept as [Z]; a value is brought back to its width where the
    code stores or compares it.  [uN] is the conversion to an N-bit unsigned
    type, [sN] the two's complement reading of the low N bits. *)

Definition u8 (z : Z) : Z := z mod 2 ^ 8.
Definition u16 (z : Z) : Z := z mod 2 ^ 16.
Definition u32 (z : Z) : Z := z mod 2 ^ 32.
Definition s8 (z : Z) : Z := (z + 2 ^ 7) mod 2 ^ 8 - 2 ^ 7.
Definition s16 (z : Z) : Z := (z + 2 ^ 15) mod 2 ^ 16 - 2 ^ 15.
Definition s32 (z : Z) : Z := (z + 2 ^ 31) mod 2 ^ 32 - 2 ^ 31.

Lemma u32_range z : 0 ≤ u32 z < 2 ^ 32.
Proof. apply Z.mod_pos_bound. lia. Qed.

Lemma u32_small z : 0 ≤ z < 2 ^ 32 → u32 z = z.
Proof. apply Z.mod_small. Qed.

Lemma s32_small z : - 2 ^ 31 ≤ z < 2 ^ 31 → s32 z = z.
Proof. intros. unfold s32. rewrite Z.mod_small; lia. Qed.

Lemma s32_range z : - 2 ^ 31 ≤ s32 z < 2 ^ 31.
Proof. unfold s32. pose proof (Z.mod_pos_bound (z + 2 ^ 31) (2 ^ 32)). lia. Qed.

Lemma u8_range z : 0 ≤ u8 z < 256.
Proof. apply Z.mod_pos_bound. lia. Qed.

Lemma u8_small z : 0 ≤ z < 256 → u8 z = z.
Proof. apply Z.mod_small. Qed.

Lemma u8_s8 z : u8 (s8 z) = u8 z.
Proof.
  unfold u8, s8. rewrite Zminus_mod, Zmod_mod, <- Zminus_mod. f_equal. lia.
Qed.

(** Characters of the source as bytes; strings without their final NUL. *)
Definition ch (a : Ascii.ascii) : Z := Z.of_N (Ascii.N_of_ascii a).
Arguments ch _%_char_scope.
Definition str (s : string) : list Z := map ch (String.list_ascii_of_string s).

(** ** Outcomes of kernel code

    [Ok]: the function returned.  [Panic]: it called [panic] and the machine
    stopped.  [Fault]: C undefined behaviour (a null or out-of-range access).
    [Swtch s r]: the running process gave up the CPU in [sched]; [s] is the
    state the scheduler finds and [r] what the process does when the scheduler
    switches back to it, in whatever state the other processes left behind.
    [NoFuel]: a loop bound of the model was reached. *)

Inductive outcome (S A : Type) : Type :=
| Ok (a : A) (s : S)
| Panic (msg : string)
| Fault (why : string)
| Swtch (s : S) (r : S → outcome S A)
| NoFuel.
Arguments Ok {S A} a s.
Arguments Panic {S A} msg.
Arguments Fault {S A} why.
Arguments Swtch {S A} s r.
Arguments NoFuel {S A}.

Definition M (S A : Type) : Type := S → outcome S A.

Fixpoint obind {S A B} (k : A → S → outcome S B) (o : outcome S A) : outcome S B :=
  match o with
  | Ok a s => k a s
  | Panic msg => Panic msg
  | Fault why => Fault why
  | Swtch s r => Swtch s (λ s', obind k (r s'))
  | NoFuel => NoFuel
  end.

#[export] Instance M_ret S : MRet (M S) := λ A a s, Ok a s.
#[export] Instance M_bind S : MBind (M S) := λ A B k m s, obind k (m s).

(** How many times a process may be woken to find its condition still false
    before the model gives up.  Every theorem holds for every bound; a bound is
    consumed only by going to sleep. *)
Class WaitBound := wait_bound : nat.

Definition panic {S A} (msg : string) : M S A := λ _, Panic msg.
Definition fault {S A} (why : string) : M S A := λ _, Fault why.
Definition nofuel {S A} : M S A := λ _, NoFuel.
Definition swtch {S} : M S unit := λ s, Swtch s (λ s', Ok tt s').
(** [for(;;);] *)
Definition hang {S A} : M S A := nofuel.
Definition gets {S A} (f : S → A) : M S A := λ s, Ok (f s) s.
Definition modify {S} (f : S → S) : M S unit := λ s, Ok tt (f s).
Definition when {S} (b : bool) (m : M S unit) : M S unit := if b then m else mret tt.
(** Dereference of a pointer that may be null, or of an array slot. *)
Definition deref {S A} (o : option A) : M S A :=
  match o with Some a => mret a | None => fault "null or out of range" end.

(** [forM l f]: the C loop that runs [f] on each element of [l] in order. *)
Fixpoint forM {S A} (l : list A) (f : A → M S unit) : M S unit :=
  match l with
  | [] => mret tt
  | a :: l' => f a ;; forM l' f
  end.

Lemma bind_ok {S A B} (m : M S A) (k : A → M S B) s a s' :
  m s = Ok a s' → (m ≫= k) s = k a s'.
Proof. intros H. unfold mbind, M_bind. by rewrite H. Qed.

Lemma bind_inv {S A B} (m : M S A) (k : A → M S B) s b s' :
  (m ≫= k) s = Ok b s' → ∃ a s1, m s = Ok a s1 ∧ k a s1 = Ok b s'.
Proof. unfold mbind, M_bind. destruct (m s) eqn:E; try discriminate. eauto. Qed.

(** ** Weakest preconditions

    [wp m Q s]: run from [s], [m] returns (no panic, no fault, no sleep) and
    its result and final state satisfy [Q]. *)

Definition wp {S A} (m : M S A) (Q : A → S → Prop) (s : S) : Prop :=
  match m s with Ok a s' => Q a s' | _ => False end.

Section Wp.
Context {S : Type}.
Implicit Types s : S.

Lemma wp_ret {A} (a : A) (Q : A → S → Prop) s : Q a s → wp (mret a) Q s.
Proof. done. Qed.

Lemma wp_bind {A B} (m : M S A) (k : A → M S B) Q s :
  wp m (λ a s', wp (k a) Q s') s → wp (m ≫= k) Q s.
Proof. unfold wp, mbind, M_bind. by destruct (m s). Qed.

Lemma wp_bind_inv {A B} (m : M S A) (k : A → M S B) Q s :
  wp (m ≫= k) Q s → wp m (λ a s', wp (k a) Q s') s.
Proof. unfold wp, mbind, M_bind. by destruct (m s). Qed.

Lemma wp_assoc {A B C} (m : M S A) (f : A → M S B) (g : B → M S C) Q s :
  wp ((m ≫= f) ≫= g) Q s → wp (m ≫= λ a, f a ≫= g) Q s.
Proof. unfold wp, mbind, M_bind. destruct (m s); simpl; try done. Qed.

Lemma wp_mono {A} (m : M S A) (P Q : A → S → Prop) s :
  wp m P s → (∀ a s', P a s' → Q a s') → wp m Q s.
Proof. unfold wp. intros H HQ. destruct (m s); auto. Qed.

Lemma wp_gets {A} (f : S → A) (Q : A → S → Prop) s : Q (f s) s → wp (gets f) Q s.
Proof. done. Qed.

Lemma wp_modify (f : S → S) (Q : unit → S → Prop) s : Q tt (f s) → wp (modify f) Q s.
Proof. done. Qed.

Lemma wp_deref {A} (o : option A) a (Q : A → S → Prop) s :
  o = Some a → Q a s → wp (deref o) Q s.
Proof. by intros ->. Qed.

Lemma wp_ok {A} (m : M S A) (Q : A → S → Prop) s :
  wp m Q s ↔ ∃ a s', m s = Ok a s' ∧ Q a s'.
Proof.
  unfold wp. split.
  - destruct (m s); [eauto|done..].
  - intros (a & s' & -> & H). done.
Qed.

Lemma wp_use {A} (m : M S A) (Q : A → S → Prop) s a s' :
  wp m Q s → m s = Ok a s' → Q a s'.
Proof. unfold wp. intros H E. by rewrite E in H. Qed.

(** The final state of a run. *)
Definition run {A} (m : M S A) (s : S) : S :=
  match m s with Ok _ s' => s' | _ => s end.
Lemma wp_run {A} (m : M S A) (Q : A → S → Prop) s : wp m Q s → ∃ a, Q a (run m s).
Proof. intros (a & s' & E & HQ)%wp_ok. exists a. unfold run. by rewrite E. Qed.
End Wp.

(** [panics m msg s]: run from [s], [m] stops the machine with [msg]. *)
Definition panics {S A} (m : M S A) (msg : string) (s : S) : Prop := m s = Panic msg.

Lemma panics_bind {S A B} (m : M S A) (k : A → M S B) msg s :
  wp m (λ a s', panics (k a) msg s') s → panics (m ≫= k) msg s.
Proof. unfold wp, panics, mbind, M_bind. by destruct (m s). Qed.

(** [blocks m P s]: run from [s], [m] gives up the CPU before returning, in a
    state satisfying [P]. *)

Definition blocks {S A} (m : M S A) (P : S → Prop) (s : S) : Prop :=
  match m s with Swtch s' _ => P s' | _ => False end.

Section Blocks.
Context {S : Type}.

Lemma blocks_bind_l {A B} (m : M S A) (k : A → M S B) P s :
  blocks m P s → blocks (m ≫= k) P s.
Proof. unfold blocks, mbind, M_bind. by destruct (m s). Qed.

Lemma blocks_bind_r {A B} (m : M S A) (k : A → M S B) P s :
  wp m (λ a s', blocks (k a) P s') s → blocks (m ≫= k) P s.
Proof. unfold wp, blocks, mbind, M_bind. by destruct (m s). Qed.

Lemma blocks_mono {A} (m : M S A) (P P' : S → Prop) s :
  blocks m P s → (∀ s', P s' → P' s') → blocks m P' s.
Proof. unfold blocks. destruct (m s); auto. Qed.
End Blocks.

(** ** Rely-guarantee judgement across context switches

    [rg R G Q o]: the computation does not panic or fault; whenever it gives up
    the CPU it does so in a state satisfying [G], and provided it is resumed in
    a state satisfying [R] it goes on so; if it returns, [Q] holds.  Used with
    [R] an invariant that the other processes keep. *)

Fixpoint rg {S A} (R G : S → Prop) (Q : A → S → Prop) (o : outcome S A) : Prop :=
  match o with
  | Ok a s => Q a s
  | Panic _ | Fault _ => False
  | Swtch s r => G s ∧ ∀ s', R s' → rg R G Q (r s')
  | NoFuel => True
  end.

Section Rg.
Context {S : Type} (R G : S → Prop).

Lemma rg_mono {A} (P Q : A → S → Prop) (o : outcome S A) :
  rg R G P o → (∀ a s, P a s → Q a s) → rg R G Q o.
Proof.
  intros H HPQ. induction o as [a s|msg|why|s r IH|]; simpl in *; auto.
  destruct H as [HG Hr]. split; auto.
Qed.

Lemma rg_bind {A B} (m : M S A) (k : A → M S B) (Q : B → S → Prop) s :
  rg R G (λ a s', rg R G Q (k a s')) (m s) → rg R G Q ((m ≫= k) s).
Proof.
  unfold mbind, M_bind. intros H.
  induction (m s) as [a s'|msg|why|s' r IH|]; simpl in *; auto.
  destruct H as [HG Hr]. split; auto.
Qed.

Lemma wp_rg {A} (m : M S A) (Q : A → S → Prop) s : wp m Q s → rg R G Q (m s).
Proof. unfold wp. destruct (m s); simpl; naive_solver. Qed.
End Rg.

(** ** Contributions of the segments of a run

    A run is cut by its switches into segments; other processes run in between.
    [D e x c] says what a segment from [e] to [x] contributes; [sg R D k e acc o]
    says that every segment of [o], the first of which was entered in [e], makes
    a contribution, and that if the run returns, [k] holds of the result, the
    current state, the entry state of the last segment and the contributions of
    the segments before it. *)

Fixpoint sg {S A C} (R : S → Prop) (D : S → S → list C → Prop)
    (k : A → S → S → list C → Prop) (e : S) (acc : list C) (o : outcome S A) : Prop :=
  match o with
  | Ok a s => k a s e acc
  | Panic _ | Fault _ => False
  | Swtch s r => ∃ c, D e s c ∧ ∀ s', R s' → sg R D k s' (acc ++ c) (r s')
  | NoFuel => True
  end.

Section Segments.
Context {S C : Type} (R : S → Prop) (D : S → S → list C → Prop).

Lemma sg_mono {A} (k k' : A → S → S → list C → Prop) e acc o :
  sg R D k e acc o → (∀ a s e acc, k a s e acc → k' a s e acc) → sg R D k' e acc o.
Proof.
  intros H Hk. revert e acc H. induction o as [a s|msg|why|s r IH|]; simpl; intros e acc H; auto.
  destruct H as (c & HD & Hr). exists c. split; auto.
Qed.

Lemma sg_bind {A B} (m : M S A) (f : A → M S B) k e acc s :
  sg R D (λ a s' e' acc', sg R D k e' acc' (f a s')) e acc (m s) → sg R D k e acc ((m ≫= f) s).
Proof.
  unfold mbind, M_bind. generalize (m s). intros o. revert e acc.
  induction o as [a s'|msg|why|s' r IH|]; simpl; intros e acc H; auto.
  destruct H as (c & HD & Hr). exists c. split; auto.
Qed.

Lemma wp_sg {A} (m : M S A) (k : A → S → S → list C → Prop) e acc s :
  wp m (λ a s', k a s' e acc) s → sg R D k e acc (m s).
Proof. unfold wp. destruct (m s); simpl; naive_solver. Qed.
End Segments.

(** ** Little-endian byte access

    Disk blocks and user memory are byte lists; the code reads and writes
    16- and 32-bit fields through pointer casts on a little-endian machine. *)

Fixpoint le_get (bs : list Z) : Z :=
  match bs with
  | [] => 0
  | b :: bs' => b + 2 ^ 8 * le_get bs'
  end.

Fixpoint le_put (n : nat) (z : Z) : list Z :=
  match n with
  | O => []
  | Datatypes.S n' => z mod 2 ^ 8 :: le_put n' (z / 2 ^ 8)
  end.

Definition is_byte (z : Z) : Prop := 0 ≤ z < 256.
Definition bytes (bs : list Z) : Prop := Forall is_byte bs.

(** Overwrite [length xs] cells of [l] from index [i] (a memmove into an array
    at an in-range offset). *)
Definition splice {A} (i : nat) (xs l : list A) : list A :=
  take i l ++ xs ++ drop (i + length xs) l.
Definition slice {A} (i n : nat) (l : list A) : list A := take n (drop i l).

Section Bytes.
Lemma length_le_put n z : length (le_put n z) = n.
Proof. revert z. induction n; intros; simpl; auto. Qed.

Lemma le_get_put n z : 0 ≤ z < 2 ^ (8 * Z.of_nat n) → le_get (le_put n z) = z.
Proof.
  revert z. induction n as [|n IH]; intros z Hz; [simpl in *; lia|].
  cbn [le_put le_get]. rewrite IH.
  - pose proof (Z.div_mod z (2 ^ 8)). lia.
  - replace (8 * Z.of_nat (S n)) with (8 + 8 * Z.of_nat n) in Hz by lia.
    rewrite Z.pow_add_r in Hz by lia.
    split; [apply Z.div_pos; lia|]. apply Z.div_lt_upper_bound; lia.
Qed.

Lemma le_put_get bs : bytes bs → le_put (length bs) (le_get bs) = bs.
Proof.
  induction 1 as [|b bs Hb _ IH]; [done|]. unfold is_byte in Hb.
  cbn [le_put le_get length]. f_equal.
  - rewrite Z.mul_comm, Z.mod_add by lia. rewrite Z.mod_small; lia.
  - rewrite Z.mul_comm, Z.div_add by lia. rewrite Z.div_small by lia.
    by rewrite Z.add_0_l.
Qed.

Lemma le_put_bytes n z : bytes (le_put n z).
Proof.
  revert z. induction n; intros; constructor; [|apply IHn].
  unfold is_byte. pose proof (Z.mod_pos_bound z (2 ^ 8)). lia.
Qed.

Lemma le_get_range bs : bytes bs → 0 ≤ le_get bs < 2 ^ (8 * Z.of_nat (length bs)).
Proof.
  induction 1 as [|b bs Hb _ IH]; [simpl; lia|]. unfold is_byte in Hb.
  cbn [le_get length].
  replace (8 * Z.of_nat (S (length bs))) with (8 + 8 * Z.of_nat (length bs)) by lia.
  rewrite Z.pow_add_r by lia. lia.
Qed.
End Bytes.

Section Splice.
Context {A : Type}.
Implicit Types l xs : list A.

Lemma length_splice i xs l :
  (i + length xs ≤ length l)%nat → length (splice i xs l) = length l.
Proof. intros. unfold splice. rewrite !length_app, length_take, length_drop. lia. Qed.

Lemma length_slice i n l : (i + n ≤ length l)%nat → length (slice i n l) = n.
Proof. intros. unfold slice. rewrite length_take, length_drop. lia. Qed.

Lemma slice_splice_eq i xs l :
  (i + length xs ≤ length l)%nat → slice i (length xs) (splice i xs l) = xs.
Proof.
  intros. unfold slice, splice.
  rewrite drop_app_length' by (rewrite length_take; lia).
  by rewrite take_app_length.
Qed.

Lemma lookup_splice_lt i xs l j :
  (j < i)%nat → (i ≤ length l)%nat → splice i xs l !! j = l !! j.
Proof.
  intros. unfold splice. rewrite lookup_app_l by (rewrite length_take; lia).
  by rewrite lookup_take_lt.
Qed.

Lemma lookup_splice_ge i xs l j :
  (i + length xs ≤ j)%nat → (i ≤ length l)%nat → splice i xs l !! j = l !! j.
Proof.
  intros. unfold splice.
  rewrite lookup_app_r by (rewrite length_take; lia).
  rewrite lookup_app_r by (rewrite length_take; lia).
  rewrite lookup_drop. f_equal. rewrite length_take. lia.
Qed.

Lemma lookup_splice_in i xs l j :
  (i ≤ j < i + length xs)%nat → (i ≤ length l)%nat →
  splice i xs l !! j = xs !! (j - i)%nat.
Proof.
  intros. unfold splice.
  rewrite lookup_app_r by (rewrite length_take; lia).
  rewrite length_take, lookup_app_l by lia. f_equal. lia.
Qed.

Lemma slice_splice_ne i xs l j n :
  (i + length xs ≤ length l)%nat → (j + n ≤ i ∨ i + length xs ≤ j)%nat →
  slice j n (splice i xs l) = slice j n l.
Proof.
  intros Hl Hd. apply list_eq. intros k. unfold slice.
  destruct (decide (k < n)%nat).
  - rewrite !lookup_take_lt, !lookup_drop by done.
    destruct Hd; [apply lookup_splice_lt | apply lookup_splice_ge]; lia.
  - rewrite !lookup_take_ge by lia. done.
Qed.

Lemma splice_nil i l : splice i [] l = l.
Proof. unfold splice. simpl. by rewrite Nat.add_0_r, take_drop. Qed.

Lemma splice_cons i x xs l :
  (i + S (length xs) ≤ length l)%nat → splice i (x :: xs) l = splice (i + 1) xs (<[i := x]> l).
Proof.
  intros Hl. apply list_eq. intros j. destruct (decide (j < i)%nat).
  { rewrite !lookup_splice_lt by (rewrite ?length_insert; lia). by rewrite list_lookup_insert_ne by lia. }
  destruct (decide (j = i)) as [->|].
  { rewrite lookup_splice_in by (simpl; lia). rewrite lookup_splice_lt by (rewrite ?length_insert; lia).
    by rewrite list_lookup_insert_eq, Nat.sub_diag by lia. }
  destruct (decide (j < i + S (length xs))%nat).
  - rewrite !lookup_splice_in by (rewrite ?length_insert; simpl; lia).
    by replace (j - i)%nat with (S (j - (i + 1))) by lia.
  - rewrite !lookup_splice_ge by (rewrite ?length_insert; simpl; lia). by rewrite list_lookup_insert_ne by lia.
Qed.

Lemma splice_app i xs ys l :
  (i ≤ length l)%nat → splice i (xs ++ ys) l = splice (i + length xs) ys (splice i xs l).
Proof.
  intros Ho. assert (length (take i l) = i) as Ht by (rewrite length_take; lia). unfold splice.
  rewrite (take_app (take i l)), Ht, (take_ge (take i l)) by lia. replace (i + length xs - i)%nat with (length xs) by lia.
  rewrite take_app_length, <- !(assoc_L (++)), (drop_app (take i l)), Ht, (drop_ge (take i l)) by lia.
  rewrite drop_app, (drop_ge xs), drop_drop by lia. rewrite !(assoc_L (++)), length_app, !app_nil_r. f_equal. f_equal. lia.
Qed.

Lemma splice_slice_id i n l :
  (i + n ≤ length l)%nat → splice i (slice i n l) l = l.
Proof.
  intros. unfold splice. rewrite length_slice by done.
  unfold slice. rewrite <- (take_drop i l) at 4. f_equal.
  rewrite <- (take_drop n (drop i l)) at 2. by rewrite drop_drop.
Qed.
End Splice.

(** Masking off the low bits rounds down. *)
Lemma land_lnot_ones a n : 0 ≤ n → Z.land a (Z.lnot (2 ^ n - 1)) = a / 2 ^ n * 2 ^ n.
Proof.
  intros Hn. replace (2 ^ n - 1) with (Z.ones n) by (rewrite Z.ones_equiv; lia).
  change (Z.land a (Z.lnot (Z.ones n))) with (Z.ldiff a (Z.ones n)) || rewrite <- Z.ldiff_land.
  rewrite Z.ldiff_ones_r, Z.shiftl_mul_pow2, Z.shiftr_div_pow2 by done. done.
Qed.

(** 16- and 32-bit fields of a byte array. *)
Definition get16 (off : nat) (d : list Z) : Z := le_get (slice off 2 d).
Definition put16 (off : nat) (v : Z) (d : list Z) : list Z := splice off (le_put 2 v) d.
Definition get32 (off : nat) (d : list Z) : Z := le_get (slice off 4 d).
Definition put32 (off : nat) (v : Z) (d : list Z) : list Z := splice off (le_put 4 v) d.

Section Fields.
Lemma length_put32 off v d : (off + 4 ≤ length d)%nat → length (put32 off v d) = length d.
Proof. intros. apply length_splice. rewrite length_le_put. lia. Qed.
Lemma length_put16 off v d : (off + 2 ≤ length d)%nat → length (put16 off v d) = length d.
Proof. intros. apply length_splice. rewrite length_le_put. lia. Qed.

Lemma get32_put32_eq off v d :
  (off + 4 ≤ length d)%nat → 0 ≤ v < 2 ^ 32 → get32 off (put32 off v d) = v.
Proof.
  intros Hl Hv. unfold get32, put32. pose proof (length_le_put 4 v) as E.
  pose proof (slice_splice_eq off (le_put 4 v) d) as H. rewrite E in H.
  rewrite H by lia. by apply le_get_put.
Qed.
Lemma get32_put32_ne off off' v d :
  (off + 4 ≤ length d)%nat → (off' + 4 ≤ off ∨ off + 4 ≤ off')%nat →
  get32 off' (put32 off v d) = get32 off' d.
Proof.
  intros Hl Hd. unfold get32, put32. rewrite slice_splice_ne; [done| |];
    rewrite length_le_put; lia.
Qed.
Lemma get32_range off d : bytes d → 0 ≤ get32 off d < 2 ^ 32.
Proof.
  intros Hb. unfold get32.
  assert (bytes (slice off 4 d)) as Hs by (by apply Forall_take, Forall_drop).
  pose proof (le_get_range _ Hs) as H.
  assert (length (slice off 4 d) ≤ 4)%nat by (unfold slice; rewrite length_take; lia).
  split; [lia|]. eapply Z.lt_le_trans; [apply H|]. apply Z.pow_le_mono_r; lia.
Qed.
End Fields.

Lemma map_alter_insert {V} (f : V → V) (k : Z) (m : gmap Z V) v :
  m !! k = Some v → alter f k m = <[k := f v]> m.
Proof.
  intros Hk. apply map_eq. intros k'. destruct (decide (k = k')) as [<-|Hne].
  - by rewrite lookup_alter_eq, lookup_insert_eq, Hk.
  - by rewrite lookup_alter_ne, lookup_insert_ne.
Qed.

Lemma filter_notin `{EqDecision A} (x : A) (l : list A) : x ∉ l → filter (λ y, y ≠ x) l = l.
Proof.
  induction l as [|y l IH]; [done|]. intros [Hy Hl]%not_elem_of_cons.
  rewrite filter_cons_True by done. by rewrite IH.
Qed.

Section Tables.
Context {A : Type}.

Lemma list_alter_insert (f : A → A) (i : nat) (l : list A) x :
  l !! i = Some x → alter f i l = <[i := f x]> l.
Proof.
  intros H. apply list_eq. intros j. destruct (decide (i = j)) as [->|Hne].
  - rewrite list_lookup_alter_eq, H, list_lookup_insert_eq; [done|].
    by eapply lookup_lt_Some.
  - by rewrite list_lookup_alter_ne, list_lookup_insert_ne.
Qed.
End Tables.

Lemma elem_of_reverse_seq i k : i ∈ rev (seq 0 k) ↔ (i < k)%nat.
Proof. rewrite <- (Permutation_rev (seq 0 k)), elem_of_seq. lia. Qed.

Section Loops.
Context {S A : Type}.

Lemma wp_forM_app (l1 l2 : list A) (f : A → M S unit) (Q : unit → S → Prop) s :
  wp (forM l1 f) (λ _ s1, wp (forM l2 f) Q s1) s → wp (forM (l1 ++ l2) f) Q s.
Proof.
  revert s. induction l1 as [|x l1 IH]; intros s Hw; [done|]. simpl in *.
  apply wp_bind. unfold wp in Hw at 1. unfold mbind, M_bind in Hw.
  unfold wp at 1. destruct (f x s) as [[] s1| | | |]; simpl in Hw; try done.
  by apply IH.
Qed.
End Loops.

Section SeqLoops.
Context {S : Type}.

Lemma wp_forM_seq (I : nat → S → Prop) (f : nat → M S unit) n s :
  I O s →
  (∀ k s, (k < n)%nat → I k s → wp (f k) (λ _ s', I (Datatypes.S k) s') s) →
  wp (forM (seq 0 n) f) (λ _ s', I n s') s.
Proof.
  intros H0 Hf. induction n as [|n IH]; [done|].
  replace (Datatypes.S n) with (n + 1)%nat at 1 by lia. rewrite seq_app.
  apply wp_forM_app. eapply wp_mono; [apply IH; intros; apply Hf; auto; lia|].
  intros [] s' HI. simpl. apply wp_bind. eapply wp_mono; [by apply Hf; [lia|]|].
  intros [] s'' HI'. by apply wp_ret.
Qed.
End SeqLoops.

(** ** Automation *)

Create HintDb xv6.

(** Reflect the boolean comparisons of the code into hypotheses. *)
(** Evaluate the comparisons of the goal that arithmetic decides. *)
Ltac ztest :=
  rewrite ?Z.geb_leb, ?Z.gtb_ltb;
  repeat match goal with
  | |- context [(?a <? ?b)%Z] =>
      first [rewrite (proj2 (Z.ltb_lt a b)) by lia | rewrite (proj2 (Z.ltb_ge a b)) by lia]
  | |- context [(?a <=? ?b)%Z] =>
      first [rewrite (proj2 (Z.leb_le a b)) by lia | rewrite (proj2 (Z.leb_gt a b)) by lia]
  | |- context [(?a =? ?b)%Z] =>
      first [rewrite (proj2 (Z.eqb_eq a b)) by lia | rewrite (proj2 (Z.eqb_neq a b)) by lia]
  end.

Ltac zbool :=
  repeat match goal with
  | H : context [(?a <? ?b)%Z] |- _ => destruct (Z.ltb_spec a b)
  | H : context [(?a <=? ?b)%Z] |- _ => destruct (Z.leb_spec a b)
  | H : context [(?a =? ?b)%Z] |- _ => destruct (Z.eqb_spec a b)
  | |- context [(?a <? ?b)%Z] => destruct (Z.ltb_spec a b)
  | |- context [(?a <=? ?b)%Z] => destruct (Z.leb_spec a b)
  | |- context [(?a =? ?b)%Z] => destruct (Z.eqb_spec a b)
  end.

(** Invert one step of a computation known to return. *)
Ltac minv :=
  repeat match goal with
  | H : (_ ≫= _) _ = Ok _ _ |- _ =>
      let a := fresh "a" in let s := fresh "s" in let E := fresh "E" in
      apply bind_inv in H as (a & s & E & H)
  | H : mret _ _ = Ok _ _ |- _ => injection H; clear H; intros; subst
  | H : gets _ _ = Ok _ _ |- _ => injection H; clear H; intros; subst
  | H : modify _ _ = Ok _ _ |- _ => injection H; clear H; intros; subst
  | H : Ok _ _ = Ok _ _ |- _ => injection H; clear H; intros; subst
  | H : panic _ _ = Ok _ _ |- _ => discriminate H
  | H : fault _ _ = Ok _ _ |- _ => discriminate H
  | H : nofuel _ = Ok _ _ |- _ => discriminate H
  end.

(** Run the next operation of a [wp] goal by the given specification. *)
Ltac wp_step lem := apply wp_bind; eapply wp_mono; [eapply lem; eauto | cbn beta].

(** ** Filters *)

Lemma filter_ext_in {A} (P Q : A → Prop) `{!∀ x, Decision (P x)} `{!∀ x, Decision (Q x)} (l : list A) :
  (∀ x, x ∈ l → P x ↔ Q x) → filter P l = filter Q l.
Proof.
  induction l as [|x l IH]; intros Hx; [done|]. rewrite !filter_cons.
  rewrite (IH (λ y Hy, Hx y (list_elem_of_further _ _ _ Hy))). pose proof (Hx x (list_elem_of_here _ _)).
  repeat case_decide; [done|tauto..|done].
Qed.

Lemma length_filter_remove {A} `{EqDecision A} (P : A → Prop) `{!∀ x, Decision (P x)} (l : list A) b :
  NoDup l → b ∈ l → P b → length (filter P l) = S (length (filter (λ x, P x ∧ x ≠ b) l)).
Proof.
  induction 1 as [|x l Hx Hn IH]; intros Hb HP; [by apply not_elem_of_nil in Hb|].
  rewrite !filter_cons. apply elem_of_cons in Hb as [<-|Hb].
  - rewrite decide_True, decide_False by naive_solver. simpl. do 2 f_equal. apply filter_ext_in.
    intros y Hy. split; [intros; split; [done|by intros ->]|by intros []].
  - assert (x ≠ b) by (by intros ->). destruct (decide (P x)).
    + rewrite decide_True by done. simpl. by rewrite IH.
    + rewrite decide_False by naive_solver. by apply IH.
Qed.
