(* ===== verification/State.v ===== *)
(** * State: the data of the kernel

    The structures of the kernel headers ([param.h], [proc.h], [file.h],
    [fs.h], [buf.h], [sleeplock.h], [x86.h]) as records and inductive types,
    and one record, [kernel], with the kernel's global variables.  All kernel
    components are operations of the monad [K] over that record.

    Pointers into a table are the index of the slot; a null pointer is [None].
    A page of physical memory is named by its kernel virtual address. *)

From S2P Require Import Prelude.

(** ** Constants ([param.h], [fs.h], [buf.h], [stat.h], [file.h], [memlayout.h]) *)

Definition NPROC : nat := 64.
Definition KSTACKSIZE : Z := 4096.
Definition NOFILE : nat := 16.
Definition NFILE : nat := 100.
Definition NINODE : nat := 50.
Definition NDEV : Z := 10.
Definition ROOTDEV : Z := 1.
Definition ROOTINO : Z := 1.
Definition MAXARG : Z := 32.
Definition MAXOPBLOCKS : Z := 10.
Definition LOGSIZE : Z := MAXOPBLOCKS * 3.
Definition NBUF : nat := 30.
Definition FSSIZE : Z := 2000.
Definition BSIZE : Z := 512.
Definition NDIRECT : Z := 12.
Definition NINDIRECT : Z := BSIZE / 4.
Definition MAXFILE : Z := NDIRECT + NINDIRECT.
Definition DIRSIZ : nat := 14.
Definition PIPESIZE : Z := 512.
Definition PGSIZE : Z := 4096.
Definition KERNBASE : Z := 0x80000000.
Definition EXTMEM : Z := 0x100000.
Definition PHYSTOP : Z := 0xE000000.
Definition DEVSPACE : Z := 0xFE000000.
Definition KERNLINK : Z := KERNBASE + EXTMEM.
Definition B_VALID : Z := 0x2.
Definition B_DIRTY : Z := 0x4.
Definition T_DIR : Z := 1.
Definition T_FILE : Z := 2.
Definition T_DEV : Z := 3.
Definition INPUT_BUF : Z := 128.

(** ** Locks and sleep channels *)

(** The sleep-locks of the kernel, by the object that embeds them. *)
Inductive slk : Type :=
| SBuf (i : nat)     (* bcache.buf[i].lock *)
| SInode (i : nat)   (* icache.inode[i].lock *)
| SFlock (i : nat).  (* icache.inode[i].flock *)

(** The spin-locks of the kernel. *)
Inductive lockid : Type :=
| Lptable | Lbcache | Licache | Lftable | Llog | Lkmem | Lcons | Ltime | Lide
| Lpipe (p : Z)
| Lslk (l : slk).

(** What a process can sleep on: the addresses the code passes to [sleep]. *)
Inductive chan : Type :=
| ChLog | ChTicks | ChInput
| ChProc (i : nat)
| ChBuf (i : nat)
| ChSlk (l : slk)
| ChPipeR (p : Z)    (* &p->nread *)
| ChPipeW (p : Z).   (* &p->nwrite *)

#[export] Instance slk_eq_dec : EqDecision slk.
Proof. solve_decision. Defined.
#[export] Instance lockid_eq_dec : EqDecision lockid.
Proof. solve_decision. Defined.
#[export] Instance chan_eq_dec : EqDecision chan.
Proof. solve_decision. Defined.

Record sleeplock := mkSleeplock { sl_locked : bool; sl_pid : Z }.

(** ** Processes ([types.h], [proc.h], [x86.h]) *)

Inductive procstate := UNUSED | EMBRYO | SLEEPING | RUNNABLE | RUNNING | ZOMBIE.
#[export] Instance procstate_eq_dec : EqDecision procstate.
Proof. solve_decision. Defined.

Record trapframe := mkTrapframe {
  tf_edi : Z; tf_esi : Z; tf_ebp : Z; tf_oesp : Z;
  tf_ebx : Z; tf_edx : Z; tf_ecx : Z; tf_eax : Z;
  tf_gs : Z; tf_fs : Z; tf_es : Z; tf_ds : Z; tf_trapno : Z;
  tf_err : Z; tf_eip : Z; tf_cs : Z; tf_eflags : Z;
  tf_esp : Z; tf_ss : Z }.

Record context := mkContext {
  cx_edi : Z; cx_esi : Z; cx_ebx : Z; cx_ebp : Z; cx_eip : Z }.

(** [kstack] and [pgdir] are page addresses, 0 when null.  The trap frame and
    the saved context, which live on the kernel stack, are held by value. *)
Record proc := mkProc {
  p_sz : Z;
  p_pgdir : Z;
  p_kstack : Z;
  p_state : procstate;
  p_pid : Z;
  p_parent : option nat;
  p_tf : trapframe;
  p_context : context;
  p_chan : option chan;
  p_killed : bool;
  p_ofile : list (option nat);
  p_cwd : option nat;
  p_name : list Z;
  p_ticksAtStart : Z;
  p_ticksScheduled : Z;
  p_priority : Z }.

(** ** The file system ([buf.h], [fs.h], [file.h], log.c) *)

Record buf := mkBuf {
  b_flags : Z;
  b_dev : Z;
  b_blockno : Z;
  b_lock : sleeplock;
  b_refcnt : Z;
  b_prev : nat;
  b_next : nat;
  b_qnext : option nat;
  b_data : list Z }.

Record superblock := mkSuperblock {
  sb_size : Z; sb_nblocks : Z; sb_ninodes : Z; sb_nlog : Z;
  sb_logstart : Z; sb_inodestart : Z; sb_bmapstart : Z }.

(** [lh.block] is the C array of [LOGSIZE] ints. *)
Record log := mkLog {
  l_start : Z; l_size : Z; l_outstanding : Z; l_committing : bool; l_dev : Z;
  lh_n : Z; lh_block : list Z }.

Record inode := mkInode {
  i_dev : Z; i_inum : Z; i_ref : Z;
  i_flock : sleeplock; i_lock : sleeplock; i_valid : bool;
  i_type : Z; i_major : Z; i_minor : Z; i_nlink : Z; i_size : Z;
  i_addrs : list Z }.

Inductive fdtype := FD_NONE | FD_PIPE | FD_INODE.
#[export] Instance fdtype_eq_dec : EqDecision fdtype.
Proof. solve_decision. Defined.

Record file := mkFile {
  f_type : fdtype; f_ref : Z; f_readable : bool; f_writable : bool;
  f_pipe : Z; f_ip : option nat; f_off : Z }.

Record pipe := mkPipe {
  pi_data : list Z; pi_nread : Z; pi_nwrite : Z;
  pi_readopen : bool; pi_writeopen : bool }.

(** The device switch holds function pointers: the drivers the kernel installs. *)
Inductive devread := consoleread_fn | zeroread_fn | nullread_fn | ticksread_fn | helloread_fn.
Inductive devwrite := consolewrite_fn | nullwrite_fn | hellowrite_fn.
Record devsw_entry := mkDevsw { dv_read : option devread; dv_write : option devwrite }.

(** ** Console (console.c) *)

(** The CGA adapter: its cursor register and the cells of the 25 rows of 80
    characters at 0xb8000. *)
Record cga := mkCga { cga_pos : Z; cga_crt : list Z }.
(** The input line buffer. *)
Record input := mkInput { in_buf : list Z; in_r : Z; in_w : Z; in_e : Z }.

(** ** Kernel globals *)

Record kernel := mkKernel {
  k_held : list lockid;            (* spin-locks held by this CPU, innermost first *)
  k_proc : option nat;             (* mycpu()->proc *)
  k_ptable : list proc;            (* ptable.proc *)
  k_initproc : option nat;
  k_nextpid : Z;
  k_ticks : Z;
  k_first : bool;                  (* forkret's static [first] *)
  k_freelist : Z;                  (* kmem.freelist, 0 when empty *)
  k_use_lock : bool;               (* kmem.use_lock *)
  k_mem : gmap Z (list Z);         (* page address -> its 1024 32-bit words *)
  k_cr3 : Z;                       (* loaded page directory (physical) *)
  k_esp0 : Z;                      (* mycpu()->ts.esp0, the kernel stack the CPU traps to *)
  k_kpgdir : Z;
  k_bcache : list buf;             (* bcache.buf, then bcache.head at index NBUF *)
  k_disk : gmap Z (list Z);        (* block number -> BSIZE bytes *)
  k_disksize : Z;                  (* disksize of memide.c, in blocks *)
  k_wtrace : list (Z * list Z);    (* blocks written to the disk so far, last first *)
  k_log : log;
  k_sb : superblock;
  k_icache : list inode;
  k_ftable : list file;
  k_pipes : gmap Z pipe;           (* page address -> struct pipe stored there *)
  k_devsw : list devsw_entry;
  k_input : input;
  k_conslocking : bool;
  k_panicked : bool;
  k_uart : bool;                   (* uart.c: is there a uart? *)
  k_output : list Z;               (* bytes sent to the serial port, last first *)
  k_cga : cga }.

Abbreviation K := (M kernel).

(** ** Field updates *)

(** [setter e t v]: the record term [t] with its field [e] replaced by [v]. *)
Ltac setter e t v :=
  let t' := eval red in t in
  match eval pattern e in t' with ?P _ => let r := eval cbv beta in (P v) in exact r end.

Definition eta_trapframe (tf : trapframe) : trapframe :=
  mkTrapframe (tf_edi tf) (tf_esi tf) (tf_ebp tf) (tf_oesp tf) (tf_ebx tf) (tf_edx tf)
    (tf_ecx tf) (tf_eax tf) (tf_gs tf) (tf_fs tf) (tf_es tf) (tf_ds tf) (tf_trapno tf)
    (tf_err tf) (tf_eip tf) (tf_cs tf) (tf_eflags tf) (tf_esp tf) (tf_ss tf).
Definition set_tf_edi (v : Z) (tf : trapframe) : trapframe := ltac:(setter (tf_edi tf) (eta_trapframe tf) v).
Definition set_tf_esi (v : Z) (tf : trapframe) : trapframe := ltac:(setter (tf_esi tf) (eta_trapframe tf) v).
Definition set_tf_ebp (v : Z) (tf : trapframe) : trapframe := ltac:(setter (tf_ebp tf) (eta_trapframe tf) v).
Definition set_tf_oesp (v : Z) (tf : trapframe) : trapframe := ltac:(setter (tf_oesp tf) (eta_trapframe tf) v).
Definition set_tf_ebx (v : Z) (tf : trapframe) : trapframe := ltac:(setter (tf_ebx tf) (eta_trapframe tf) v).
Definition set_tf_edx (v : Z) (tf : trapframe) : trapframe := ltac:(setter (tf_edx tf) (eta_trapframe tf) v).
Definition set_tf_ecx (v : Z) (tf : trapframe) : trapframe := ltac:(setter (tf_ecx tf) (eta_trapframe tf) v).
Definition set_tf_eax (v : Z) (tf : trapframe) : trapframe := ltac:(setter (tf_eax tf) (eta_trapframe tf) v).
Definition set_tf_gs (v : Z) (tf : trapframe) : trapframe := ltac:(setter (tf_gs tf) (eta_trapframe tf) v).
Definition set_tf_fs (v : Z) (tf : trapframe) : trapframe := ltac:(setter (tf_fs tf) (eta_trapframe tf) v).
Definition set_tf_es (v : Z) (tf : trapframe) : trapframe := ltac:(setter (tf_es tf) (eta_trapframe tf) v).
Definition set_tf_ds (v : Z) (tf : trapframe) : trapframe := ltac:(setter (tf_ds tf) (eta_trapframe tf) v).
Definition set_tf_trapno (v : Z) (tf : trapframe) : trapframe := ltac:(setter (tf_trapno tf) (eta_trapframe tf) v).
Definition set_tf_err (v : Z) (tf : trapframe) : trapframe := ltac:(setter (tf_err tf) (eta_trapframe tf) v).
Definition set_tf_eip (v : Z) (tf : trapframe) : trapframe := ltac:(setter (tf_eip tf) (eta_trapframe tf) v).
Definition set_tf_cs (v : Z) (tf : trapframe) : trapframe := ltac:(setter (tf_cs tf) (eta_trapframe tf) v).
Definition set_tf_eflags (v : Z) (tf : trapframe) : trapframe := ltac:(setter (tf_eflags tf) (eta_trapframe tf) v).
Definition set_tf_esp (v : Z) (tf : trapframe) : trapframe := ltac:(setter (tf_esp tf) (eta_trapframe tf) v).
Definition set_tf_ss (v : Z) (tf : trapframe) : trapframe := ltac:(setter (tf_ss tf) (eta_trapframe tf) v).

Definition eta_proc (p : proc) : proc :=
  mkProc (p_sz p) (p_pgdir p) (p_kstack p) (p_state p) (p_pid p) (p_parent p) (p_tf p)
    (p_context p) (p_chan p) (p_killed p) (p_ofile p) (p_cwd p) (p_name p) (p_ticksAtStart
    p) (p_ticksScheduled p) (p_priority p).
Definition set_p_sz (v : Z) (p : proc) : proc := ltac:(setter (p_sz p) (eta_proc p) v).
Definition set_p_pgdir (v : Z) (p : proc) : proc := ltac:(setter (p_pgdir p) (eta_proc p) v).
Definition set_p_kstack (v : Z) (p : proc) : proc := ltac:(setter (p_kstack p) (eta_proc p) v).
Definition set_p_state (v : procstate) (p : proc) : proc := ltac:(setter (p_state p) (eta_proc p) v).
Definition set_p_pid (v : Z) (p : proc) : proc := ltac:(setter (p_pid p) (eta_proc p) v).
Definition set_p_parent (v : option nat) (p : proc) : proc := ltac:(setter (p_parent p) (eta_proc p) v).
Definition set_p_tf (v : trapframe) (p : proc) : proc := ltac:(setter (p_tf p) (eta_proc p) v).
Definition set_p_context (v : context) (p : proc) : proc := ltac:(setter (p_context p) (eta_proc p) v).
Definition set_p_chan (v : option chan) (p : proc) : proc := ltac:(setter (p_chan p) (eta_proc p) v).
Definition set_p_killed (v : bool) (p : proc) : proc := ltac:(setter (p_killed p) (eta_proc p) v).
Definition set_p_ofile (v : list (option nat)) (p : proc) : proc := ltac:(setter (p_ofile p) (eta_proc p) v).
Definition set_p_cwd (v : option nat) (p : proc) : proc := ltac:(setter (p_cwd p) (eta_proc p) v).
Definition set_p_name (v : list Z) (p : proc) : proc := ltac:(setter (p_name p) (eta_proc p) v).
Definition set_p_ticksAtStart (v : Z) (p : proc) : proc := ltac:(setter (p_ticksAtStart p) (eta_proc p) v).
Definition set_p_ticksScheduled (v : Z) (p : proc) : proc := ltac:(setter (p_ticksScheduled p) (eta_proc p) v).
Definition set_p_priority (v : Z) (p : proc) : proc := ltac:(setter (p_priority p) (eta_proc p) v).

Definition eta_buf (b : buf) : buf :=
  mkBuf (b_flags b) (b_dev b) (b_blockno b) (b_lock b) (b_refcnt b) (b_prev b) (b_next b)
    (b_qnext b) (b_data b).
Definition set_b_flags (v : Z) (b : buf) : buf := ltac:(setter (b_flags b) (eta_buf b) v).
Definition set_b_dev (v : Z) (b : buf) : buf := ltac:(setter (b_dev b) (eta_buf b) v).
Definition set_b_blockno (v : Z) (b : buf) : buf := ltac:(setter (b_blockno b) (eta_buf b) v).
Definition set_b_lock (v : sleeplock) (b : buf) : buf := ltac:(setter (b_lock b) (eta_buf b) v).
Definition set_b_refcnt (v : Z) (b : buf) : buf := ltac:(setter (b_refcnt b) (eta_buf b) v).
Definition set_b_prev (v : nat) (b : buf) : buf := ltac:(setter (b_prev b) (eta_buf b) v).
Definition set_b_next (v : nat) (b : buf) : buf := ltac:(setter (b_next b) (eta_buf b) v).
Definition set_b_qnext (v : option nat) (b : buf) : buf := ltac:(setter (b_qnext b) (eta_buf b) v).
Definition set_b_data (v : list Z) (b : buf) : buf := ltac:(setter (b_data b) (eta_buf b) v).

Definition eta_log (l : log) : log :=
  mkLog (l_start l) (l_size l) (l_outstanding l) (l_committing l) (l_dev l) (lh_n l)
    (lh_block l).
Definition set_l_start (v : Z) (l : log) : log := ltac:(setter (l_start l) (eta_log l) v).
Definition set_l_size (v : Z) (l : log) : log := ltac:(setter (l_size l) (eta_log l) v).
Definition set_l_outstanding (v : Z) (l : log) : log := ltac:(setter (l_outstanding l) (eta_log l) v).
Definition set_l_committing (v : bool) (l : log) : log := ltac:(setter (l_committing l) (eta_log l) v).
Definition set_l_dev (v : Z) (l : log) : log := ltac:(setter (l_dev l) (eta_log l) v).
Definition set_lh_n (v : Z) (l : log) : log := ltac:(setter (lh_n l) (eta_log l) v).
Definition set_lh_block (v : list Z) (l : log) : log := ltac:(setter (lh_block l) (eta_log l) v).

Definition eta_inode (ip : inode) : inode :=
  mkInode (i_dev ip) (i_inum ip) (i_ref ip) (i_flock ip) (i_lock ip) (i_valid ip) (i_type
    ip) (i_major ip) (i_minor ip) (i_nlink ip) (i_size ip) (i_addrs ip).
Definition set_i_dev (v : Z) (ip : inode) : inode := ltac:(setter (i_dev ip) (eta_inode ip) v).
Definition set_i_inum (v : Z) (ip : inode) : inode := ltac:(setter (i_inum ip) (eta_inode ip) v).
Definition set_i_ref (v : Z) (ip : inode) : inode := ltac:(setter (i_ref ip) (eta_inode ip) v).
Definition set_i_flock (v : sleeplock) (ip : inode) : inode := ltac:(setter (i_flock ip) (eta_inode ip) v).
Definition set_i_lock (v : sleeplock) (ip : inode) : inode := ltac:(setter (i_lock ip) (eta_inode ip) v).
Definition set_i_valid (v : bool) (ip : inode) : inode := ltac:(setter (i_valid ip) (eta_inode ip) v).
Definition set_i_type (v : Z) (ip : inode) : inode := ltac:(setter (i_type ip) (eta_inode ip) v).
Definition set_i_major (v : Z) (ip : inode) : inode := ltac:(setter (i_major ip) (eta_inode ip) v).
Definition set_i_minor (v : Z) (ip : inode) : inode := ltac:(setter (i_minor ip) (eta_inode ip) v).
Definition set_i_nlink (v : Z) (ip : inode) : inode := ltac:(setter (i_nlink ip) (eta_inode ip) v).
Definition set_i_size (v : Z) (ip : inode) : inode := ltac:(setter (i_size ip) (eta_inode ip) v).
Definition set_i_addrs (v : list Z) (ip : inode) : inode := ltac:(setter (i_addrs ip) (eta_inode ip) v).

Definition eta_file (f : file) : file :=
  mkFile (f_type f) (f_ref f) (f_readable f) (f_writable f) (f_pipe f) (f_ip f) (f_off f).
Definition set_f_type (v : fdtype) (f : file) : file := ltac:(setter (f_type f) (eta_file f) v).
Definition set_f_ref (v : Z) (f : file) : file := ltac:(setter (f_ref f) (eta_file f) v).
Definition set_f_readable (v : bool) (f : file) : file := ltac:(setter (f_readable f) (eta_file f) v).
Definition set_f_writable (v : bool) (f : file) : file := ltac:(setter (f_writable f) (eta_file f) v).
Definition set_f_pipe (v : Z) (f : file) : file := ltac:(setter (f_pipe f) (eta_file f) v).
Definition set_f_ip (v : option nat) (f : file) : file := ltac:(setter (f_ip f) (eta_file f) v).
Definition set_f_off (v : Z) (f : file) : file := ltac:(setter (f_off f) (eta_file f) v).

Definition eta_pipe (pi : pipe) : pipe :=
  mkPipe (pi_data pi) (pi_nread pi) (pi_nwrite pi) (pi_readopen pi) (pi_writeopen pi).
Definition set_pi_data (v : list Z) (pi : pipe) : pipe := ltac:(setter (pi_data pi) (eta_pipe pi) v).
Definition set_pi_nread (v : Z) (pi : pipe) : pipe := ltac:(setter (pi_nread pi) (eta_pipe pi) v).
Definition set_pi_nwrite (v : Z) (pi : pipe) : pipe := ltac:(setter (pi_nwrite pi) (eta_pipe pi) v).
Definition set_pi_readopen (v : bool) (pi : pipe) : pipe := ltac:(setter (pi_readopen pi) (eta_pipe pi) v).
Definition set_pi_writeopen (v : bool) (pi : pipe) : pipe := ltac:(setter (pi_writeopen pi) (eta_pipe pi) v).

Definition eta_input (inp : input) : input :=
  mkInput (in_buf inp) (in_r inp) (in_w inp) (in_e inp).
Definition set_in_buf (v : list Z) (inp : input) : input := ltac:(setter (in_buf inp) (eta_input inp) v).
Definition set_in_r (v : Z) (inp : input) : input := ltac:(setter (in_r inp) (eta_input inp) v).
Definition set_in_w (v : Z) (inp : input) : input := ltac:(setter (in_w inp) (eta_input inp) v).
Definition set_in_e (v : Z) (inp : input) : input := ltac:(setter (in_e inp) (eta_input inp) v).

Definition eta_kernel (s : kernel) : kernel :=
  mkKernel (k_held s) (k_proc s) (k_ptable s) (k_initproc s) (k_nextpid s) (k_ticks s)
    (k_first s) (k_freelist s) (k_use_lock s) (k_mem s) (k_cr3 s) (k_esp0 s) (k_kpgdir s) (k_bcache s)
    (k_disk s) (k_disksize s) (k_wtrace s) (k_log s) (k_sb s) (k_icache s) (k_ftable s) (k_pipes s)
    (k_devsw s) (k_input s) (k_conslocking s) (k_panicked s) (k_uart s) (k_output s) (k_cga s).
Definition set_k_held (v : list lockid) (s : kernel) : kernel := ltac:(setter (k_held s) (eta_kernel s) v).
Definition set_k_proc (v : option nat) (s : kernel) : kernel := ltac:(setter (k_proc s) (eta_kernel s) v).
Definition set_k_ptable (v : list proc) (s : kernel) : kernel := ltac:(setter (k_ptable s) (eta_kernel s) v).
Definition set_k_initproc (v : option nat) (s : kernel) : kernel := ltac:(setter (k_initproc s) (eta_kernel s) v).
Definition set_k_nextpid (v : Z) (s : kernel) : kernel := ltac:(setter (k_nextpid s) (eta_kernel s) v).
Definition set_k_ticks (v : Z) (s : kernel) : kernel := ltac:(setter (k_ticks s) (eta_kernel s) v).
Definition set_k_first (v : bool) (s : kernel) : kernel := ltac:(setter (k_first s) (eta_kernel s) v).
Definition set_k_freelist (v : Z) (s : kernel) : kernel := ltac:(setter (k_freelist s) (eta_kernel s) v).
Definition set_k_use_lock (v : bool) (s : kernel) : kernel := ltac:(setter (k_use_lock s) (eta_kernel s) v).
Definition set_k_mem (v : gmap Z (list Z)) (s : kernel) : kernel := ltac:(setter (k_mem s) (eta_kernel s) v).
Definition set_k_cr3 (v : Z) (s : kernel) : kernel := ltac:(setter (k_cr3 s) (eta_kernel s) v).
Definition set_k_esp0 (v : Z) (s : kernel) : kernel := ltac:(setter (k_esp0 s) (eta_kernel s) v).
Definition set_k_kpgdir (v : Z) (s : kernel) : kernel := ltac:(setter (k_kpgdir s) (eta_kernel s) v).
Definition set_k_bcache (v : list buf) (s : kernel) : kernel := ltac:(setter (k_bcache s) (eta_kernel s) v).
Definition set_k_disk (v : gmap Z (list Z)) (s : kernel) : kernel := ltac:(setter (k_disk s) (eta_kernel s) v).
Definition set_k_disksize (v : Z) (s : kernel) : kernel := ltac:(setter (k_disksize s) (eta_kernel s) v).
Definition set_k_wtrace (v : list (Z * list Z)) (s : kernel) : kernel := ltac:(setter (k_wtrace s) (eta_kernel s) v).
Definition set_k_log (v : log) (s : kernel) : kernel := ltac:(setter (k_log s) (eta_kernel s) v).
Definition set_k_sb (v : superblock) (s : kernel) : kernel := ltac:(setter (k_sb s) (eta_kernel s) v).
Definition set_k_icache (v : list inode) (s : kernel) : kernel := ltac:(setter (k_icache s) (eta_kernel s) v).
Definition set_k_ftable (v : list file) (s : kernel) : kernel := ltac:(setter (k_ftable s) (eta_kernel s) v).
Definition set_k_pipes (v : gmap Z pipe) (s : kernel) : kernel := ltac:(setter (k_pipes s) (eta_kernel s) v).
Definition set_k_devsw (v : list devsw_entry) (s : kernel) : kernel := ltac:(setter (k_devsw s) (eta_kernel s) v).
Definition set_k_input (v : input) (s : kernel) : kernel := ltac:(setter (k_input s) (eta_kernel s) v).
Definition set_k_conslocking (v : bool) (s : kernel) : kernel := ltac:(setter (k_conslocking s) (eta_kernel s) v).
Definition set_k_panicked (v : bool) (s : kernel) : kernel := ltac:(setter (k_panicked s) (eta_kernel s) v).
Definition set_k_uart (v : bool) (s : kernel) : kernel := ltac:(setter (k_uart s) (eta_kernel s) v).
Definition set_k_output (v : list Z) (s : kernel) : kernel := ltac:(setter (k_output s) (eta_kernel s) v).
Definition set_k_cga (v : cga) (s : kernel) : kernel := ltac:(setter (k_cga s) (eta_kernel s) v).

(** ** Zero-initialised state (the BSS image at boot) *)

Definition tf0 : trapframe := mkTrapframe 0 0 0 0 0 0 0 0 0 0 0 0 0 0 0 0 0 0 0.
Definition cx0 : context := mkContext 0 0 0 0 0.
Definition slk0 : sleeplock := mkSleeplock false 0.
Definition proc0 : proc :=
  mkProc 0 0 0 UNUSED 0 None tf0 cx0 None false (replicate NOFILE None) None
    (replicate 16 0) 0 0 0.
Definition buf0 : buf := mkBuf 0 0 0 slk0 0 0 0 None (replicate (Z.to_nat BSIZE) 0).
Definition log0 : log := mkLog 0 0 0 false 0 0 (replicate (Z.to_nat LOGSIZE) 0).
Definition inode0 : inode := mkInode 0 0 0 slk0 slk0 false 0 0 0 0 0 (replicate 13 0).
Definition file0 : file := mkFile FD_NONE 0 false false 0 None 0.
Definition sb0 : superblock := mkSuperblock 0 0 0 0 0 0 0.
Definition kernel0 : kernel :=
  mkKernel [] None (replicate NPROC proc0) None 1 0 true 0 false ∅ 0 0 0
    (replicate (S NBUF) buf0) ∅ 0 [] log0 sb0 (replicate NINODE inode0)
    (replicate NFILE file0) ∅ (replicate (Z.to_nat NDEV) (mkDevsw None None))
    (mkInput (replicate (Z.to_nat INPUT_BUF) 0) 0 0 0) false false false []
    (mkCga 0 (replicate 2000 0)).

(** ** Access to table slots *)

(** [ptr->field] and [ptr->field = v] for a slot of a kernel table. *)
Definition get_proc (i : nat) : K proc := s ← gets k_ptable; deref (s !! i).
Definition upd_proc (i : nat) (f : proc → proc) : K unit :=
  modify (λ s, set_k_ptable (alter f i (k_ptable s)) s).
Definition get_buf (i : nat) : K buf := s ← gets k_bcache; deref (s !! i).
Definition upd_buf (i : nat) (f : buf → buf) : K unit :=
  modify (λ s, set_k_bcache (alter f i (k_bcache s)) s).
Definition get_inode (i : nat) : K inode := s ← gets k_icache; deref (s !! i).
Definition upd_inode (i : nat) (f : inode → inode) : K unit :=
  modify (λ s, set_k_icache (alter f i (k_icache s)) s).
Definition get_file (i : nat) : K file := s ← gets k_ftable; deref (s !! i).
Definition upd_file (i : nat) (f : file → file) : K unit :=
  modify (λ s, set_k_ftable (alter f i (k_ftable s)) s).
Definition upd_log (f : log → log) : K unit := modify (λ s, set_k_log (f (k_log s)) s).

Section Access.
Lemma wp_get_proc i p (Q : proc → kernel → Prop) s :
  k_ptable s !! i = Some p → Q p s → wp (get_proc i) Q s.
Proof. intros H HQ. unfold get_proc. apply wp_bind, wp_gets. by eapply wp_deref. Qed.

Lemma wp_get_buf i b (Q : buf → kernel → Prop) s :
  k_bcache s !! i = Some b → Q b s → wp (get_buf i) Q s.
Proof. intros H HQ. unfold get_buf. apply wp_bind, wp_gets. by eapply wp_deref. Qed.

Lemma wp_get_inode i ip (Q : inode → kernel → Prop) s :
  k_icache s !! i = Some ip → Q ip s → wp (get_inode i) Q s.
Proof. intros H HQ. unfold get_inode. apply wp_bind, wp_gets. by eapply wp_deref. Qed.

Lemma wp_get_file i f (Q : file → kernel → Prop) s :
  k_ftable s !! i = Some f → Q f s → wp (get_file i) Q s.
Proof. intros H HQ. unfold get_file. apply wp_bind, wp_gets. by eapply wp_deref. Qed.
End Access.
