(* ===== verification/Lock.v ===== *)
(** * Lock: spin-locks as the kernel sees them, sleep and wakeup, sleep-locks

    The kernel components use spin-locks through the three operations of this
    file: the list [k_held] of the locks the running CPU holds, innermost
    first.  [SpinLock.v] models spinlock.c itself and proves that on one CPU it
    implements these operations.  [sched], [sleep] and [wakeup] are proc.c's;
    [acquiresleep], [releasesleep] and [holdingsleep] are sleeplock.c's. *)

From S2P Require Import Prelude State.

Definition acquire (l : lockid) : K unit :=
  held ← gets k_held;
  if bool_decide (l ∈ held) then panic "acquire"
  else modify (set_k_held (l :: held)).

Definition release (l : lockid) : K unit :=
  held ← gets k_held;
  if bool_decide (l ∈ held)
  then modify (set_k_held (filter (λ l', l' ≠ l) held))
  else panic "release".

Definition holding (l : lockid) : K bool :=
  held ← gets k_held; mret (bool_decide (l ∈ held)).

(** ** The running process *)

Definition myproc : K (option nat) := gets k_proc.
(** [myproc()->...]: the code dereferences the result without a test. *)
Definition curproc : K nat := p ← myproc; deref p.
Definition mypid : K Z := i ← curproc; p ← get_proc i; mret (p_pid p).

(** ** Sleep and wakeup (proc.c) *)

(** Interrupts are off exactly while a spin-lock is held ([pushcli]). *)
Definition sched : K unit :=
  i ← curproc;
  p ← get_proc i;
  h ← holding Lptable;
  if negb h then panic "sched ptable.lock" else
  held ← gets k_held;
  if negb (Nat.eqb (length held) 1) then panic "sched locks" else
  if bool_decide (p_state p = RUNNING) then panic "sched running" else
  if bool_decide (held = []) then panic "sched interruptible" else
  upd_proc i (λ p, set_p_ticksScheduled (s32 (p_ticksScheduled p + 1)) p) ;;
  swtch.

Definition sleep (c : chan) (lk : lockid) : K unit :=
  p ← myproc;
  match p with
  | None => panic "sleep"
  | Some i =>
      when (negb (bool_decide (lk = Lptable))) (acquire Lptable ;; release lk) ;;
      upd_proc i (λ p, set_p_state SLEEPING (set_p_chan (Some c) p)) ;;
      sched ;;
      upd_proc i (set_p_chan None) ;;
      when (negb (bool_decide (lk = Lptable))) (release Lptable ;; acquire lk)
  end.

(** One iteration of [wakeup1]'s loop body. *)
Definition wake (c : chan) (p : proc) : proc :=
  if bool_decide (p_state p = SLEEPING) && bool_decide (p_chan p = Some c)
  then set_p_state RUNNABLE p else p.

Definition wakeup1 (c : chan) : K unit :=
  modify (λ s, set_k_ptable (wake c <$> k_ptable s) s).

Definition wakeup (c : chan) : K unit :=
  acquire Lptable ;; wakeup1 c ;; release Lptable.

(** ** Sleep-locks (sleeplock.c) *)

Definition get_slk (l : slk) : K sleeplock :=
  match l with
  | SBuf i => b ← get_buf i; mret (b_lock b)
  | SInode i => ip ← get_inode i; mret (i_lock ip)
  | SFlock i => ip ← get_inode i; mret (i_flock ip)
  end.

Definition set_slk (l : slk) (v : sleeplock) : K unit :=
  match l with
  | SBuf i => upd_buf i (set_b_lock v)
  | SInode i => upd_inode i (set_i_lock v)
  | SFlock i => upd_inode i (set_i_flock v)
  end.

Definition initsleeplock (l : slk) : K unit := set_slk l (mkSleeplock false 0).

(** [while(lk->locked) sleep(lk, &lk->lk)] *)
Fixpoint acquiresleep_wait (n : nat) (l : slk) : K unit :=
  v ← get_slk l;
  if sl_locked v
  then match n with
       | O => nofuel
       | S n' => sleep (ChSlk l) (Lslk l) ;; acquiresleep_wait n' l
       end
  else mret tt.

Section SleepLock.
Context `{WaitBound}.

Definition acquiresleep (l : slk) : K unit :=
  acquire (Lslk l) ;;
  acquiresleep_wait wait_bound l ;;
  pid ← mypid;
  set_slk l (mkSleeplock true pid) ;;
  release (Lslk l).
End SleepLock.

Definition releasesleep (l : slk) : K unit :=
  acquire (Lslk l) ;;
  set_slk l (mkSleeplock false 0) ;;
  wakeup (ChSlk l) ;;
  release (Lslk l).

Definition holdingsleep (l : slk) : K bool :=
  acquire (Lslk l) ;;
  v ← get_slk l;
  pid ← (if sl_locked v then mypid else mret 0);
  release (Lslk l) ;;
  mret (sl_locked v && Z.eqb (sl_pid v) pid).

(** ** Pure views of the state *)

Definition slk_at (l : slk) (s : kernel) : option sleeplock :=
  match l with
  | SBuf i => b_lock <$> k_bcache s !! i
  | SInode i => i_lock <$> k_icache s !! i
  | SFlock i => i_flock <$> k_icache s !! i
  end.

Definition put_slk (l : slk) (v : sleeplock) (s : kernel) : kernel :=
  match l with
  | SBuf i => set_k_bcache (alter (set_b_lock v) i (k_bcache s)) s
  | SInode i => set_k_icache (alter (set_i_lock v) i (k_icache s)) s
  | SFlock i => set_k_icache (alter (set_i_flock v) i (k_icache s)) s
  end.

(** [running s i p]: process slot [i], holding [p], runs on this CPU. *)
Definition running (s : kernel) (i : nat) (p : proc) : Prop :=
  k_proc s = Some i ∧ k_ptable s !! i = Some p.

Definition do_wakeup (c : chan) (s : kernel) : kernel :=
  set_k_ptable (wake c <$> k_ptable s) s.

Section LockSpecs.
Implicit Types (s : kernel) (l : lockid).

Lemma filter_head l h : l ∉ h → filter (λ l', l' ≠ l) (l :: h) = h.
Proof.
  intros Hl. rewrite filter_cons_False by (intros n; by apply n).
  induction h as [|x h IH]; [done|]. apply not_elem_of_cons in Hl as [Hx Hh].
  rewrite filter_cons_True by done. by rewrite IH.
Qed.

Lemma wp_acquire l (Q : unit → kernel → Prop) s :
  l ∉ k_held s → Q tt (set_k_held (l :: k_held s) s) → wp (acquire l) Q s.
Proof.
  intros Hl HQ. unfold acquire. apply wp_bind, wp_gets.
  by rewrite bool_decide_false.
Qed.

Lemma wp_release l h (Q : unit → kernel → Prop) s :
  k_held s = l :: h → l ∉ h → Q tt (set_k_held h s) → wp (release l) Q s.
Proof.
  intros Hs Hl HQ. unfold release. apply wp_bind, wp_gets.
  rewrite bool_decide_true by (rewrite Hs; constructor).
  apply wp_modify. by rewrite Hs, filter_head.
Qed.

Lemma acquire_held_panics l s : l ∈ k_held s → acquire l s = Panic "acquire".
Proof. intros. unfold acquire, gets, mbind, M_bind. simpl. by rewrite bool_decide_true. Qed.

Lemma release_unheld_panics l s : l ∉ k_held s → release l s = Panic "release".
Proof. intros. unfold release, gets, mbind, M_bind. simpl. by rewrite bool_decide_false. Qed.

Lemma wp_curproc i p (Q : nat → kernel → Prop) s :
  running s i p → Q i s → wp curproc Q s.
Proof. intros [H _] HQ. unfold curproc. apply wp_bind, wp_gets. by eapply wp_deref. Qed.

Lemma wp_mypid i p (Q : Z → kernel → Prop) s :
  running s i p → Q (p_pid p) s → wp mypid Q s.
Proof.
  intros Hr HQ. unfold mypid. apply wp_bind. eapply wp_curproc; [done|].
  apply wp_bind. destruct Hr. eapply wp_get_proc; [done|]. by apply wp_ret.
Qed.

Lemma wp_wakeup c (Q : unit → kernel → Prop) s :
  Lptable ∉ k_held s → Q tt (do_wakeup c s) → wp (wakeup c) Q s.
Proof.
  intros Hl HQ. unfold wakeup. apply wp_bind, wp_acquire; [done|].
  apply wp_bind, wp_modify. eapply wp_release; [reflexivity|done|]. by destruct s.
Qed.

Lemma wp_get_slk k v (Q : sleeplock → kernel → Prop) s :
  slk_at k s = Some v → Q v s → wp (get_slk k) Q s.
Proof.
  intros Hk HQ. destruct k as [i|i|i]; simpl in *;
    apply fmap_Some in Hk as (x & Hx & ->); apply wp_bind.
  - by eapply wp_get_buf.
  - by eapply wp_get_inode.
  - by eapply wp_get_inode.
Qed.

Lemma wp_set_slk k v (Q : unit → kernel → Prop) s :
  Q tt (put_slk k v s) → wp (set_slk k v) Q s.
Proof. by destruct k. Qed.

Lemma slk_at_held k h s : slk_at k (set_k_held h s) = slk_at k s.
Proof. by destruct k. Qed.
Lemma slk_at_ptable k t s : slk_at k (set_k_ptable t s) = slk_at k s.
Proof. by destruct k. Qed.
Lemma put_slk_held k v h s : put_slk k v (set_k_held h s) = set_k_held h (put_slk k v s).
Proof. by destruct k. Qed.
Lemma put_slk_held' k v s : k_held (put_slk k v s) = k_held s.
Proof. by destruct k. Qed.
Lemma put_slk_ptable k v s : k_ptable (put_slk k v s) = k_ptable s.
Proof. by destruct k. Qed.
Lemma put_slk_proc k v s : k_proc (put_slk k v s) = k_proc s.
Proof. by destruct k. Qed.

Lemma slk_at_put k v s w : slk_at k s = Some w → slk_at k (put_slk k v s) = Some v.
Proof.
  destruct k as [i|i|i]; simpl; intros (x & Hx & _)%fmap_Some;
    rewrite list_lookup_alter_eq, Hx; done.
Qed.

Lemma slk_at_put_ne k k' v s : k ≠ k' → slk_at k' (put_slk k v s) = slk_at k' s.
Proof.
  intros Hne. destruct k as [i|i|i], k' as [j|j|j]; simpl; try done.
  - rewrite list_lookup_alter_ne by congruence. done.
  - rewrite list_lookup_alter_ne by congruence. done.
  - destruct (decide (i = j)) as [->|]; [|by rewrite list_lookup_alter_ne].
    rewrite list_lookup_alter_eq. by destruct (k_icache s !! j).
  - destruct (decide (i = j)) as [->|]; [|by rewrite list_lookup_alter_ne].
    rewrite list_lookup_alter_eq. by destruct (k_icache s !! j).
  - rewrite list_lookup_alter_ne by congruence. done.
Qed.

Lemma running_put_slk k v s i p : running s i p → running (put_slk k v s) i p.
Proof. unfold running. by rewrite put_slk_proc, put_slk_ptable. Qed.

(** A process that is not asleep is untouched by a wakeup. *)
Lemma running_wakeup c s i p :
  running s i p → p_state p ≠ SLEEPING → running (do_wakeup c s) i p.
Proof.
  intros [H1 H2] Hs. split; [done|]. simpl. rewrite list_lookup_fmap, H2. simpl.
  unfold wake. by rewrite (bool_decide_false (p_state p = SLEEPING)).
Qed.

(** The state in which process [i] has gone to sleep on [c] from [s]. *)
Definition asleep (c : chan) (s : kernel) (i : nat) (p : proc) (s' : kernel) : Prop :=
  s' = set_k_held [Lptable] (set_k_ptable
         (<[i := set_p_ticksScheduled (s32 (p_ticksScheduled p + 1))
                   (set_p_state SLEEPING (set_p_chan (Some c) p))]> (k_ptable s)) s).

Lemma sched_blocks i p s :
  running s i p → k_held s = [Lptable] → p_state p ≠ RUNNING →
  blocks sched (λ s', s' = set_k_ptable
    (<[i := set_p_ticksScheduled (s32 (p_ticksScheduled p + 1)) p]> (k_ptable s)) s) s.
Proof.
  intros Hr Hh Hp. unfold sched. apply blocks_bind_r. eapply wp_curproc; [done|].
  apply blocks_bind_r. eapply wp_get_proc; [apply Hr|].
  apply blocks_bind_r. unfold holding. apply wp_bind, wp_gets, wp_ret.
  rewrite bool_decide_true by (rewrite Hh; constructor). simpl.
  apply blocks_bind_r, wp_gets. rewrite Hh. simpl. rewrite bool_decide_false by done.
  apply blocks_bind_r, wp_modify. unfold blocks, swtch. f_equal.
  by rewrite (list_alter_insert _ _ _ p) by apply Hr.
Qed.

(** [sleep] releases the caller's lock and switches away with the process
    marked SLEEPING on its channel, atomically with respect to [wakeup]. *)
Lemma sleep_blocks c l i p s :
  running s i p → l ≠ Lptable → k_held s = [l] →
  blocks (sleep c l) (asleep c s i p) s.
Proof.
  intros [Hp Ht] Hl Hh. unfold sleep. apply blocks_bind_r, wp_gets. rewrite Hp.
  apply blocks_bind_r. rewrite bool_decide_false by done. simpl.
  apply wp_bind, wp_acquire; [rewrite Hh; set_solver|].
  rewrite Hh. unfold release. apply wp_bind, wp_gets. simpl.
  rewrite bool_decide_true by set_solver. apply wp_modify.
  rewrite filter_cons_True by done. rewrite filter_cons_False by naive_solver.
  rewrite filter_nil.
  apply blocks_bind_r, wp_modify, blocks_bind_l. simpl.
  rewrite (list_alter_insert _ _ _ _ Ht). eapply blocks_mono.
  - apply (sched_blocks i (set_p_state SLEEPING (set_p_chan (Some c) p))); [|done|done].
    split; [done|]. simpl. apply list_lookup_insert_eq. by eapply lookup_lt_Some.
  - simpl. intros s' ->. unfold asleep. rewrite list_insert_insert_eq. by destruct s.
Qed.

Section Acquiring.
Context `{WaitBound}.

Lemma wp_acquiresleep k i p v (Q : unit → kernel → Prop) s :
  running s i p → Lslk k ∉ k_held s →
  slk_at k s = Some v → sl_locked v = false →
  Q tt (put_slk k (mkSleeplock true (p_pid p)) s) →
  wp (acquiresleep k) Q s.
Proof.
  intros Hr Hl Hk Hv HQ. unfold acquiresleep.
  apply wp_bind, wp_acquire; [done|]. apply wp_bind.
  set (s1 := set_k_held _ s).
  assert (wp (acquiresleep_wait wait_bound k) (λ _ s', s' = s1) s1) as Hw.
  { assert (slk_at k s1 = Some v) by (subst s1; by rewrite slk_at_held).
    destruct wait_bound; simpl; apply wp_bind; apply (wp_get_slk k v); try done;
      by rewrite Hv. }
  eapply wp_mono; [exact Hw|]. intros _ s' ->.
  apply wp_bind. eapply (wp_mypid i p); [exact Hr|].
  apply wp_bind, wp_set_slk. subst s1. rewrite put_slk_held.
  eapply wp_release; [reflexivity|done|]. simpl.
  by destruct s, k.
Qed.

(** If the sleep-lock is taken, the process goes to sleep on it, having
    released the protecting spin-lock: only [ptable.lock], which the
    scheduler takes over, is held across the switch. *)
Lemma acquiresleep_blocks k i p v s :
  running s i p → k_held s = [] →
  slk_at k s = Some v → sl_locked v = true → (0 < wait_bound)%nat →
  blocks (acquiresleep k) (asleep (ChSlk k) s i p) s.
Proof.
  intros Hr Hh Hk Hv Hn. unfold acquiresleep.
  apply blocks_bind_r, wp_acquire; [rewrite Hh; apply not_elem_of_nil|].
  rewrite Hh. apply blocks_bind_l.
  destruct wait_bound as [|n]; [lia|]. simpl. apply blocks_bind_r.
  apply (wp_get_slk k v); [by rewrite slk_at_held|]. rewrite Hv.
  apply blocks_bind_l. eapply blocks_mono.
  - eapply sleep_blocks; [exact Hr|done|reflexivity].
  - intros s' ->. unfold asleep. by destruct s.
Qed.
End Acquiring.

Lemma wp_releasesleep k v (Q : unit → kernel → Prop) s :
  Lslk k ∉ k_held s → Lptable ∉ k_held s → slk_at k s = Some v →
  Q tt (do_wakeup (ChSlk k) (put_slk k (mkSleeplock false 0) s)) →
  wp (releasesleep k) Q s.
Proof.
  intros Hl Hpt Hk HQ. unfold releasesleep.
  apply wp_bind, wp_acquire; [done|]. apply wp_bind, wp_set_slk. rewrite put_slk_held.
  apply wp_bind, wp_wakeup; [simpl; set_solver|].
  eapply wp_release; [reflexivity|done|]. by destruct s, k.
Qed.

Lemma wp_holdingsleep k i p v (Q : bool → kernel → Prop) s :
  running s i p → Lslk k ∉ k_held s → slk_at k s = Some v →
  Q (sl_locked v && (sl_pid v =? p_pid p)) s → wp (holdingsleep k) Q s.
Proof.
  intros Hr Hl Hk HQ. unfold holdingsleep.
  apply wp_bind, wp_acquire; [done|]. apply wp_bind.
  eapply wp_get_slk; [by rewrite slk_at_held|]. apply wp_bind.
  assert (∀ pid, Q (sl_locked v && (sl_pid v =? pid)) s →
    wp (release (Lslk k) ;; mret (sl_locked v && (sl_pid v =? pid))) Q
      (set_k_held (Lslk k :: k_held s) s)) as Hrel.
  { intros pid HQ'. apply wp_bind. eapply wp_release; [reflexivity|done|]. by destruct s. }
  destruct (sl_locked v) eqn:Ev.
  - eapply (wp_mypid i p); [exact Hr|]. by apply Hrel.
  - apply wp_ret. by apply Hrel.
Qed.
End LockSpecs.

(** ** Across a switch *)

(** How the scheduler resumes process [i]: RUNNING, on this CPU, with
    [ptable.lock] held for it.  Nothing else is said of the state: other
    processes have run. *)
Definition resumed (i : nat) (pid : Z) (s : kernel) : Prop :=
  k_proc s = Some i ∧ k_held s = [Lptable] ∧
  ∃ p, k_ptable s !! i = Some p ∧ p_state p = RUNNING ∧ p_pid p = pid.

(** How a process that sleeps on [c] leaves the CPU. *)
Definition sleeping (i : nat) (c : chan) (s : kernel) : Prop :=
  k_held s = [Lptable] ∧
  ∃ p, k_ptable s !! i = Some p ∧ p_state p = SLEEPING ∧ p_chan p = Some c.

(** The state after [sleep] has tidied up and taken its lock back. *)
Definition awake (i : nat) (l : lockid) (s : kernel) : kernel :=
  set_k_held [l] (set_k_ptable (alter (set_p_chan None) i (k_ptable s)) s).

Section Switching.
Implicit Types (s : kernel) (R : kernel → Prop).

Lemma sched_swtch i p s :
  running s i p → k_held s = [Lptable] → p_state p ≠ RUNNING →
  sched s = Swtch (set_k_ptable
    (<[i := set_p_ticksScheduled (s32 (p_ticksScheduled p + 1)) p]> (k_ptable s)) s) (Ok tt).
Proof.
  intros [Hp Ht] Hh Hs. unfold sched, curproc, myproc, holding, get_proc, upd_proc, gets, deref,
    modify, swtch, mbind, M_bind. simpl. rewrite Hp. simpl. rewrite Ht. simpl. rewrite Hh. simpl.
  rewrite Hh. simpl. rewrite bool_decide_false by done. by rewrite (list_alter_insert _ _ _ p).
Qed.

Lemma rg_sched R (G : kernel → Prop) i p s (Q : unit → kernel → Prop) :
  running s i p → k_held s = [Lptable] → p_state p ≠ RUNNING →
  G (set_k_ptable (<[i := set_p_ticksScheduled (s32 (p_ticksScheduled p + 1)) p]> (k_ptable s)) s) →
  (∀ s', R s' → Q tt s') → rg R G Q (sched s).
Proof.
  intros Hr Hh Hp HG HQ. unfold sched. apply rg_bind, wp_rg. eapply wp_curproc; [done|].
  apply rg_bind, wp_rg. eapply wp_get_proc; [apply Hr|].
  apply rg_bind, wp_rg. unfold holding. apply wp_bind, wp_gets, wp_ret.
  rewrite bool_decide_true by (rewrite Hh; constructor). simpl.
  apply rg_bind, wp_rg, wp_gets. rewrite Hh. simpl. rewrite bool_decide_false by done.
  apply rg_bind, wp_rg, wp_modify. simpl. split; [|done].
  by rewrite (list_alter_insert _ _ _ p) by apply Hr.
Qed.

(** [sleep]: away with the lock released and the process marked SLEEPING in
    one step; back with the lock held again. *)
Lemma rg_sleep R c l i p s (Q : unit → kernel → Prop) :
  running s i p → l ≠ Lptable → k_held s = [l] →
  (∀ s', R s' → k_held s' = [Lptable] ∧ Q tt (awake i l s')) →
  rg R (sleeping i c) Q (sleep c l s).
Proof.
  intros [Hp Ht] Hl Hh HR. unfold sleep. apply rg_bind, wp_rg, wp_gets. rewrite Hp.
  rewrite bool_decide_false by done. simpl.
  apply rg_bind, wp_rg, wp_bind, wp_acquire; [rewrite Hh; set_solver|].
  rewrite Hh. unfold release. apply wp_bind, wp_gets. simpl.
  rewrite bool_decide_true by set_solver. apply wp_modify.
  rewrite filter_cons_True by done. rewrite filter_cons_False by naive_solver. rewrite filter_nil.
  apply rg_bind, wp_rg, wp_modify. simpl. rewrite (list_alter_insert _ _ _ _ Ht).
  set (p1 := set_p_state SLEEPING (set_p_chan (Some c) p)).
  apply rg_bind. apply (rg_sched _ _ i p1).
  - split; [done|]. simpl. apply list_lookup_insert_eq. by eapply lookup_lt_Some.
  - done.
  - done.
  - split; [done|]. simpl. eexists. split; [apply list_lookup_insert_eq|done].
    rewrite length_insert. by eapply lookup_lt_Some.
  - intros s' [Hh' HQ]%HR. apply rg_bind, wp_rg, wp_modify, wp_rg, wp_bind.
    eapply wp_release; [exact Hh'|apply not_elem_of_nil|].
    apply wp_acquire; [apply not_elem_of_nil|]. by destruct s'.
Qed.

(** The same, for the contributions of segments. *)
Lemma sg_sleep {C} R (D : kernel → kernel → list C → Prop) k e acc c l i p s d :
  running s i p → l ≠ Lptable → k_held s = [l] →
  (∀ s1, asleep c s i p s1 → D e s1 d) →
  (∀ s', R s' → k_held s' = [Lptable] ∧ k tt (awake i l s') s' (acc ++ d)) →
  sg R D k e acc (sleep c l s).
Proof.
  intros [Hp Ht] Hl Hh HD HR. unfold sleep. apply sg_bind, wp_sg, wp_gets. rewrite Hp.
  rewrite bool_decide_false by done. simpl.
  apply sg_bind, wp_sg, wp_bind, wp_acquire; [rewrite Hh; set_solver|].
  rewrite Hh. unfold release. apply wp_bind, wp_gets. simpl.
  rewrite bool_decide_true by set_solver. apply wp_modify.
  rewrite filter_cons_True by done. rewrite filter_cons_False by naive_solver. rewrite filter_nil.
  apply sg_bind, wp_sg, wp_modify. simpl. rewrite (list_alter_insert _ _ _ _ Ht).
  set (p1 := set_p_state SLEEPING (set_p_chan (Some c) p)).
  apply sg_bind. rewrite (sched_swtch i p1); simpl.
  - exists d. split.
    + apply HD. unfold asleep. rewrite list_insert_insert_eq. by destruct s.
    + intros s' [Hh' HQ]%HR. apply sg_bind, wp_sg, wp_modify, wp_sg, wp_bind.
      eapply wp_release; [exact Hh'|apply not_elem_of_nil|].
      apply wp_acquire; [apply not_elem_of_nil|]. by destruct s'.
  - split; [done|]. simpl. apply list_lookup_insert_eq. by eapply lookup_lt_Some.
  - done.
  - done.
Qed.

(** [acquiresleep] under arbitrary interference while it sleeps: it returns
    only having found the lock free and taken it for its process. *)
Lemma rg_acquiresleep_wait R n k i pid s (Q : unit → kernel → Prop) :
  (∀ s', R s' → resumed i pid s' ∧ ∃ v, slk_at k s' = Some v) →
  (∃ p, running s i p) → k_held s = [Lslk k] → (∃ v, slk_at k s = Some v) →
  (∀ s' v, k_held s' = [Lslk k] → slk_at k s' = Some v → sl_locked v = false →
     (s' = s ∨ ∃ p, running s' i p ∧ p_pid p = pid) → Q tt s') →
  rg R (sleeping i (ChSlk k)) Q (acquiresleep_wait n k s).
Proof.
  intros HR. revert s. induction n as [|n IH]; intros s [p Hp] Hh [v Hv] HQ; simpl;
    apply rg_bind, wp_rg, (wp_get_slk k v); try done;
    (destruct (sl_locked v) eqn:Ev; [|apply wp_rg, wp_ret, (HQ s v); auto]); [done|].
  apply rg_bind. eapply rg_sleep; [done|done|done|].
  intros s' (( Hp' & Hh' & p' & Ht' & Hs' & Hpid) & v' & Hv')%HR. split; [done|].
  assert (running (awake i (Lslk k) s') i (set_p_chan None p')) as Hrun.
  { split; [done|]. simpl. by rewrite list_lookup_alter_eq, Ht'. }
  assert (slk_at k (awake i (Lslk k) s') = Some v') as Hk' by (destruct k; exact Hv').
  apply IH; [by eexists|done|by exists v'|].
  intros s2 v2 H2 Hv2 Hl2 Hx. apply (HQ s2 v2); auto. right.
  destruct Hx as [-> |Hx]; [by exists (set_p_chan None p')|done].
Qed.
End Switching.

(** Sleep-locks are exclusive under every interleaving.  Whatever the other
    processes do while it sleeps, [acquiresleep] neither panics nor faults, gives
    the CPU up only marked SLEEPING on the lock's channel with no spin-lock but
    [ptable.lock] held, and returns only from a state in which the lock was free,
    having marked it as held by its own process and released the spin-lock. *)
Theorem acquiresleep_exclusive `{WaitBound} (k : slk) (i : nat) (p : proc) (s : kernel) :
  running s i p → k_held s = [] → slk_at k s ≠ None →
  rg (λ s', resumed i (p_pid p) s' ∧ slk_at k s' ≠ None)
     (sleeping i (ChSlk k))
     (λ _ s', ∃ s1 v, slk_at k s1 = Some v ∧ sl_locked v = false ∧
        s' = set_k_held [] (put_slk k (mkSleeplock true (p_pid p)) s1))
     (acquiresleep k s).
Proof.
  intros Hr Hh Hk. unfold acquiresleep.
  apply rg_bind, wp_rg, wp_acquire; [rewrite Hh; apply not_elem_of_nil|]. rewrite Hh.
  apply rg_bind. apply (rg_acquiresleep_wait _ _ _ _ (p_pid p)).
  - intros s' [Hs' Hn]. split; [done|]. by destruct (slk_at k s'); eauto.
  - by exists p.
  - done.
  - rewrite slk_at_held. destruct (slk_at k s); eauto. done.
  - intros s' v H1 H2 H3 H4.
    assert (∃ q, running s' i q ∧ p_pid q = p_pid p) as (q & Hq & Hpid).
    { destruct H4 as [-> |?]; [by exists p|done]. }
    apply wp_rg, wp_bind, (wp_mypid i q); [done|]. rewrite Hpid.
    apply wp_bind, wp_set_slk. eapply wp_release; [by destruct k|apply not_elem_of_nil|].
    by exists s', v.
Qed.

(** A one-process machine with two buffers, the second of them locked. *)
Definition demo_locks : kernel :=
  set_k_proc (Some 0%nat) (set_k_ptable [set_p_state RUNNING (set_p_pid 5 proc0)]
    (set_k_bcache [buf0; set_b_lock (mkSleeplock true 9) buf0] kernel0)).

Lemma acquiresleep_exclusive_witness :
  slk_at (SBuf 1) demo_locks = Some (mkSleeplock true 9) ∧
  rg (λ s', resumed 0 5 s' ∧ slk_at (SBuf 1) s' ≠ None) (sleeping 0 (ChSlk (SBuf 1)))
     (λ _ s', ∃ s1 v, slk_at (SBuf 1) s1 = Some v ∧ sl_locked v = false ∧
        s' = set_k_held [] (put_slk (SBuf 1) (mkSleeplock true 5) s1))
     (acquiresleep (H := 3%nat) (SBuf 1) demo_locks).
Proof.
  split; [reflexivity|].
  apply (acquiresleep_exclusive (H := 3%nat) (SBuf 1) 0 (set_p_state RUNNING (set_p_pid 5 proc0)));
    [split; reflexivity|reflexivity|discriminate].
Defined.


