(* ===== verification/SpinLock.v ===== *)
(** * SpinLock: spin-locks on several CPUs (spinlock.c)

    A machine with any number of CPUs, each at some point inside [acquire] or
    [release] or running other code, and the locks in shared memory.  Every
    access to shared memory is one step, and the steps of the CPUs interleave
    arbitrarily.  The theorems: mutual exclusion, interrupts off while a lock is
    held, which panics can happen, and that on one CPU the two functions do what
    [Lock.acquire] and [Lock.release] say. *)

From S2P Require Import Prelude State Lock.

(** ** State *)

(** The part of [struct cpu] that spinlock.c uses, the interrupt flag of
    EFLAGS, and a ghost list of the locks held, innermost first. *)
Inductive caller := InAcquire | InRelease.
Inductive pc :=
  | Run                              (* outside spinlock.c *)
  | HoldLocked (l : lockid) (k : caller)  (* [holding]: about to read locked *)
  | HoldCpu (l : lockid) (k : caller)     (* [holding]: about to read cpu *)
  | Spin (l : lockid)                (* about to xchg *)
  | SetCpu (l : lockid)              (* xchg returned 0 *)
  | ClearCpu (l : lockid)            (* [release]: about to clear cpu *)
  | Unlock (l : lockid)              (* about to store 0 in locked *)
  | PopCli.                          (* about to call the final popcli *)

Record cpu := mkCpu {
  c_pc : pc; c_ncli : Z; c_intena : bool; c_if : bool; c_held : list lockid }.
Record spinlock := mkSpin { sp_locked : Z; sp_cpu : option nat }.
Record machine := mkMachine { m_cpus : list cpu; m_locks : lockid → spinlock }.

Definition initlock : spinlock := mkSpin 0 None.

(** A step ends in a new machine or in a panic. *)
Inductive result := Next (m : machine) | Die (msg : string).

Definition set_pc (k : pc) (c : cpu) : cpu := mkCpu k (c_ncli c) (c_intena c) (c_if c) (c_held c).
Definition set_held (h : list lockid) (c : cpu) : cpu :=
  mkCpu (c_pc c) (c_ncli c) (c_intena c) (c_if c) h.

(** ** pushcli and popcli *)

Definition pushcli (c : cpu) : cpu :=
  mkCpu (c_pc c) (c_ncli c + 1) (if c_ncli c =? 0 then c_if c else c_intena c) false (c_held c).

Definition popcli (c : cpu) : cpu + string :=
  if c_if c then inr "popcli - interruptible" else
  let n := c_ncli c - 1 in
  if n <? 0 then inr "popcli" else
  inl (mkCpu (c_pc c) n (c_intena c) ((n =? 0) && c_intena c) (c_held c)).

(** ** The steps *)

Definition upd_lock (l : lockid) (v : spinlock) (f : lockid → spinlock) : lockid → spinlock :=
  λ l', if bool_decide (l' = l) then v else f l'.

Definition put_cpu (i : nat) (c : cpu) (m : machine) : machine :=
  mkMachine (<[i := c]> (m_cpus m)) (m_locks m).
Definition put_lock (l : lockid) (v : spinlock) (m : machine) : machine :=
  mkMachine (m_cpus m) (upd_lock l v (m_locks m)).

(** [popcli] at the end of [holding], with the result [r] acted on: [acquire]
    panics if the lock is held, [release] if it is not. *)
Definition holding_return (i : nat) (c : cpu) (l : lockid) (k : caller) (r : bool) (m : machine)
  : result :=
  match popcli c with
  | inr msg => Die msg
  | inl c' =>
      match k, r with
      | InAcquire, true => Die "acquire"
      | InAcquire, false => Next (put_cpu i (set_pc (Spin l) c') m)
      | InRelease, false => Die "release"
      | InRelease, true => Next (put_cpu i (set_pc (ClearCpu l) c') m)
      end
  end.

(** The next step of CPU [i] inside spinlock.c; [None] in other code. *)
Definition step_of (i : nat) (c : cpu) (m : machine) : option result :=
  match c_pc c with
  | Run => None
  | HoldLocked l k =>
      if sp_locked (m_locks m l) =? 0 then Some (holding_return i c l k false m)
      else Some (Next (put_cpu i (set_pc (HoldCpu l k) c) m))
  | HoldCpu l k =>
      Some (holding_return i c l k (bool_decide (sp_cpu (m_locks m l) = Some i)) m)
  | Spin l =>
      let old := sp_locked (m_locks m l) in
      let m' := put_lock l (mkSpin 1 (sp_cpu (m_locks m l))) m in
      Some (Next (if old =? 0 then put_cpu i (set_pc (SetCpu l) c) m' else m'))
  | SetCpu l =>
      Some (Next (put_cpu i (set_held (l :: c_held c) (set_pc Run c))
        (put_lock l (mkSpin (sp_locked (m_locks m l)) (Some i)) m)))
  | ClearCpu l =>
      Some (Next (put_cpu i (set_held (filter (λ l', l' ≠ l) (c_held c)) (set_pc (Unlock l) c))
        (put_lock l (mkSpin (sp_locked (m_locks m l)) None) m)))
  | Unlock l =>
      Some (Next (put_cpu i (set_pc PopCli c) (put_lock l (mkSpin 0 (sp_cpu (m_locks m l))) m)))
  | PopCli =>
      match popcli c with
      | inr msg => Some (Die msg)
      | inl c' => Some (Next (put_cpu i (set_pc Run c') m))
      end
  end.
Definition step (i : nat) (m : machine) : option result :=
  c ← m_cpus m !! i; step_of i c m.

(** Calls from other code: [acquire] starts with two [pushcli] (its own and that
    of [holding]), [release] with that of [holding]. *)
Definition call_acquire (i : nat) (l : lockid) (m : machine) : option machine :=
  c ← m_cpus m !! i;
  match c_pc c with
  | Run => Some (put_cpu i (set_pc (HoldLocked l InAcquire) (pushcli (pushcli c))) m)
  | _ => None
  end.
Definition call_release (i : nat) (l : lockid) (m : machine) : option machine :=
  c ← m_cpus m !! i;
  match c_pc c with
  | Run => Some (put_cpu i (set_pc (HoldLocked l InRelease) (pushcli c)) m)
  | _ => None
  end.

(** Interrupt handlers and other code change the interrupt flag only when no
    [pushcli] is outstanding ([cli]/[sti] in trap.c and proc.c). *)
Definition set_if (i : nat) (b : bool) (m : machine) : option machine :=
  c ← m_cpus m !! i;
  if c_ncli c =? 0
  then Some (put_cpu i (mkCpu (c_pc c) (c_ncli c) (c_intena c) b (c_held c)) m) else None.

Inductive moves (m : machine) : result → Prop :=
  | MStep i r : step i m = Some r → moves m r
  | MAcquire i l m' : call_acquire i l m = Some m' → moves m (Next m')
  | MRelease i l m' : call_release i l m = Some m' → moves m (Next m')
  | MIf i b m' : set_if i b m = Some m' → moves m (Next m').

(** Power-on: every CPU outside spinlock.c, every lock as [initlock] leaves it. *)
Definition init (n : nat) : machine :=
  mkMachine (replicate n (mkCpu Run 0 false false [])) (λ _, initlock).

Inductive reachable (n : nat) : machine → Prop :=
  | RInit : reachable n (init n)
  | RMove m m' : reachable n m → moves m (Next m') → reachable n m'.

(** ** The invariant *)

(** Nested [pushcli]s that do not belong to a held lock. *)
Definition extra (k : pc) : Z :=
  match k with
  | Run | ClearCpu _ => 0
  | HoldLocked _ InAcquire | HoldCpu _ InAcquire => 2
  | _ => 1
  end.

Definition owns (l : lockid) (c : cpu) : Prop :=
  l ∈ c_held c ∨ c_pc c = SetCpu l ∨ c_pc c = Unlock l.

Definition pc_ok (c : cpu) : Prop :=
  match c_pc c with
  | Spin l | SetCpu l | Unlock l => l ∉ c_held c
  | ClearCpu l => l ∈ c_held c
  | _ => True
  end.

Record cpu_ok (c : cpu) : Prop := {
  ck_ncli : c_ncli c = Z.of_nat (length (c_held c)) + extra (c_pc c);
  ck_if : 0 < c_ncli c → c_if c = false;
  ck_nodup : NoDup (c_held c);
  ck_pc : pc_ok c }.

Definition owner (m : machine) (l : lockid) (i : nat) (c : cpu) : Prop :=
  m_cpus m !! i = Some c ∧ owns l c ∧
  ∀ j c', m_cpus m !! j = Some c' → owns l c' → j = i.

Definition lock_ok (m : machine) (l : lockid) : Prop :=
  (m_locks m l = mkSpin 0 None ∧ ∀ i c, m_cpus m !! i = Some c → ¬ owns l c) ∨
  (∃ i c, owner m l i c ∧
     m_locks m l = mkSpin 1 (if decide (l ∈ c_held c) then Some i else None)).

Record inv (m : machine) : Prop := {
  inv_cpu : ∀ i c, m_cpus m !! i = Some c → cpu_ok c;
  inv_lock : ∀ l, lock_ok m l }.

Lemma length_remove {A} `{EqDecision A} (x : A) (l : list A) :
  NoDup l → x ∈ l → length l = S (length (filter (λ y, y ≠ x) l)).
Proof.
  induction l as [|y l IH]; intros Hnd Hx; [by apply elem_of_nil in Hx|].
  apply NoDup_cons in Hnd as [Hy Hnd]. destruct (decide (y = x)) as [->|Hne].
  - rewrite filter_cons_False by naive_solver. simpl. f_equal.
    assert (filter (λ y, y ≠ x) l = l) as ->; [|done].
    clear IH Hnd Hx. induction l as [|z l IH]; [done|]. apply not_elem_of_cons in Hy as [Hz Hy].
    rewrite filter_cons_True by done. by rewrite IH.
  - rewrite filter_cons_True by done. simpl. f_equal. apply IH; [done|].
    apply elem_of_cons in Hx as [->|?]; done.
Qed.

Section Invariant.
Implicit Types (m : machine) (c : cpu) (l : lockid).

Lemma upd_lock_eq l v f : upd_lock l v f l = v.
Proof. unfold upd_lock. by rewrite bool_decide_true. Qed.
Lemma upd_lock_ne l l' v f : l' ≠ l → upd_lock l v f l' = f l'.
Proof. intros. unfold upd_lock. by rewrite bool_decide_false. Qed.

Lemma put_cpu_eq i c c' m : m_cpus m !! i = Some c → m_cpus (put_cpu i c' m) !! i = Some c'.
Proof. intros H. apply list_lookup_insert_eq. by eapply lookup_lt_Some. Qed.
Lemma put_cpu_inv i c' m j x :
  m_cpus (put_cpu i c' m) !! j = Some x → j = i ∧ x = c' ∨ j ≠ i ∧ m_cpus m !! j = Some x.
Proof.
  simpl. intros H. destruct (decide (i = j)) as [->|Hne].
  - left. split; [done|]. apply lookup_lt_Some in H as Hl. rewrite length_insert in Hl.
    rewrite list_lookup_insert_eq in H by done. congruence.
  - right. by rewrite list_lookup_insert_ne in H by done.
Qed.
Lemma put_cpu_ne i j c' m : j ≠ i → m_cpus (put_cpu i c' m) !! j = m_cpus m !! j.
Proof. intros. simpl. by rewrite list_lookup_insert_ne by done. Qed.

(** A step of CPU [i] that leaves its claim on [l], and [l], alone. *)
Lemma lock_ok_put i c c' m m' l :
  m_cpus m !! i = Some c → m_cpus m' = m_cpus (put_cpu i c' m) → m_locks m' l = m_locks m l →
  (owns l c' ↔ owns l c) → (l ∈ c_held c' ↔ l ∈ c_held c) → lock_ok m l → lock_ok m' l.
Proof.
  intros Hc Em El Ho Hh [[H1 H2]|(j & d & (H1 & H2 & H3) & H4)].
  - left. split; [by rewrite El|]. intros j d Hd. rewrite Em in Hd.
    apply put_cpu_inv in Hd as [[-> ->]|[_ Hd]]; [|by eapply H2]. rewrite Ho. by eapply H2.
  - right. destruct (decide (j = i)) as [->|Hne].
    + assert (d = c) as -> by congruence. exists i, c'. split; [split; [|split]|].
      * rewrite Em. by eapply put_cpu_eq.
      * by apply Ho.
      * intros k e He. rewrite Em in He. apply put_cpu_inv in He as [[-> ->]|[_ He]]; [done|]. by apply H3.
      * rewrite El, H4. by rewrite (decide_ext _ _ _ _ Hh).
    + exists j, d. split; [split; [|split]|by rewrite El].
      * rewrite Em, put_cpu_ne; done.
      * done.
      * intros k e He Hk. rewrite Em in He. apply put_cpu_inv in He as [[-> ->]|[_ He]]; [|by eapply H3].
        by apply (H3 i c), Ho.
Qed.

(** CPU [i] takes, keeps or gives up lock [l]. *)
Lemma lock_ok_owned i c c' m m' l :
  m_cpus m !! i = Some c → m_cpus m' = m_cpus (put_cpu i c' m) →
  (∀ j d, j ≠ i → m_cpus m !! j = Some d → ¬ owns l d) → owns l c' →
  m_locks m' l = mkSpin 1 (if decide (l ∈ c_held c') then Some i else None) → lock_ok m' l.
Proof.
  intros Hc Em Ho Hc' El. right. exists i, c'. split; [split; [|split]|done].
  - rewrite Em. by eapply put_cpu_eq.
  - done.
  - intros j d Hd Hod. rewrite Em in Hd. apply put_cpu_inv in Hd as [[-> _]|[Hne Hd]]; [done|].
    exfalso. by eapply Ho.
Qed.

Lemma lock_ok_others m l i c :
  lock_ok m l → m_cpus m !! i = Some c → owns l c ∨ sp_locked (m_locks m l) = 0 →
  ∀ j d, j ≠ i → m_cpus m !! j = Some d → ¬ owns l d.
Proof.
  intros [[H1 H2]|(k & e & (H1 & H2 & H3) & H4)] Hc Ho j d Hj Hd; [by eapply H2|].
  rewrite H4 in Ho. destruct Ho as [Ho|Ho]; [|done]. intros Hod. apply Hj.
  rewrite (H3 j d), (H3 i c); done.
Qed.

Lemma owned_lock m l i c :
  lock_ok m l → m_cpus m !! i = Some c → owns l c →
  m_locks m l = mkSpin 1 (if decide (l ∈ c_held c) then Some i else None).
Proof.
  intros [[H1 H2]|(k & e & (H1 & H2 & H3) & H4)] Hc Ho; [by apply (H2 i c) in Ho|].
  assert (i = k) as -> by (by eapply H3). assert (e = c) as -> by congruence. done.
Qed.

Lemma free_not_owned m l i c :
  lock_ok m l → sp_locked (m_locks m l) = 0 → m_cpus m !! i = Some c → ¬ owns l c.
Proof.
  intros Hl H0 Hc Ho. rewrite (owned_lock m l i c Hl Hc Ho) in H0. done.
Qed.

(** A step that only moves CPU [i], owning what it owned before. *)
Lemma inv_move i c c' m m' :
  inv m → m_cpus m !! i = Some c → m_cpus m' = m_cpus (put_cpu i c' m) →
  (∀ l, m_locks m' l = m_locks m l) → c_held c' = c_held c → cpu_ok c' →
  (∀ l, c_pc c' ≠ SetCpu l ∧ c_pc c' ≠ Unlock l ∧ c_pc c ≠ SetCpu l ∧ c_pc c ≠ Unlock l) → inv m'.
Proof.
  intros [Ic Il] Hc Em El Eh Hok Hpc. split.
  - intros j d Hd. rewrite Em in Hd. apply put_cpu_inv in Hd as [[-> ->]|[_ Hd]]; eauto.
  - intros l. destruct (Hpc l) as (P1 & P2 & P3 & P4).
    apply (lock_ok_put i c c' m m' l); try done; [|by rewrite Eh].
    unfold owns. rewrite Eh. tauto.
Qed.

(** A step on lock [l] that changes the claim of CPU [i] on [l] only. *)
Lemma inv_lock_step i c c' m m' l :
  inv m → m_cpus m !! i = Some c → m_cpus m' = m_cpus (put_cpu i c' m) →
  (∀ l', l' ≠ l → m_locks m' l' = m_locks m l') → cpu_ok c' →
  (∀ l', l' ≠ l → (owns l' c' ↔ owns l' c) ∧ (l' ∈ c_held c' ↔ l' ∈ c_held c)) →
  lock_ok m' l → inv m'.
Proof.
  intros [Ic Il] Hc Em El Hok Ho Hl. split.
  - intros j d Hd. rewrite Em in Hd. apply put_cpu_inv in Hd as [[-> ->]|[_ Hd]]; eauto.
  - intros l'. destruct (decide (l' = l)) as [->|Hne]; [done|].
    destruct (Ho l' Hne). apply (lock_ok_put i c c' m m' l'); auto.
Qed.

Lemma popcli_ok c c' : popcli c = inl c' → 0 < c_ncli c ∧ c_if c = false ∧
  c_pc c' = c_pc c ∧ c_held c' = c_held c ∧ c_ncli c' = c_ncli c - 1 ∧ (0 < c_ncli c' → c_if c' = false).
Proof.
  unfold popcli. destruct (c_if c) eqn:Ei; [done|]. destruct (Z.ltb_spec (c_ncli c - 1) 0); [done|].
  intros [= <-]. simpl. repeat split; try done; [lia|]. intros Hn.
  by rewrite (proj2 (Z.eqb_neq _ _)) by lia.
Qed.

(** Under the invariant, [popcli] inside spinlock.c does not panic. *)
Lemma popcli_total c : cpu_ok c → 0 < extra (c_pc c) → ∃ c', popcli c = inl c'.
Proof.
  intros [H1 H2 _ _] He. unfold popcli. rewrite H2 by lia.
  destruct (Z.ltb_spec (c_ncli c - 1) 0); [lia|]. by eexists.
Qed.

Lemma inv_init n : inv (init n).
Proof.
  assert (∀ i c, m_cpus (init n) !! i = Some c → c = mkCpu Run 0 false false []) as Hi.
  { intros i c Hc. by apply lookup_replicate in Hc as [-> _]. }
  split.
  - intros i c ->%Hi. split; try done. apply NoDup_nil_2.
  - intros l. left. split; [done|]. intros i c ->%Hi [H|[H|H]]; by try apply elem_of_nil in H.
Qed.

Lemma inv_call_acquire i l m m' : inv m → call_acquire i l m = Some m' → inv m'.
Proof.
  unfold call_acquire. intros Hi H. destruct (m_cpus m !! i) as [c|] eqn:Hc; [|done]. simpl in H.
  destruct (c_pc c) eqn:Ep; try done. simplify_eq. pose proof (inv_cpu _ Hi i c Hc) as [A1 A2 A3 A4].
  rewrite Ep in A1. simpl in A1. eapply inv_move; try done; [|by rewrite Ep].
  split; try done. simpl. lia.
Qed.
Lemma inv_call_release i l m m' : inv m → call_release i l m = Some m' → inv m'.
Proof.
  unfold call_release. intros Hi H. destruct (m_cpus m !! i) as [c|] eqn:Hc; [|done]. simpl in H.
  destruct (c_pc c) eqn:Ep; try done. simplify_eq. pose proof (inv_cpu _ Hi i c Hc) as [A1 A2 A3 A4].
  rewrite Ep in A1. simpl in A1. eapply inv_move; try done; [|by rewrite Ep].
  split; try done. simpl. lia.
Qed.
Lemma inv_set_if i b m m' : inv m → set_if i b m = Some m' → inv m'.
Proof.
  unfold set_if. intros Hi H. destruct (m_cpus m !! i) as [c|] eqn:Hc; [|done]. simpl in H.
  destruct (Z.eqb_spec (c_ncli c) 0) as [E|]; [|done]. simplify_eq.
  pose proof (inv_cpu _ Hi i c Hc) as [A1 A2 A3 A4].
  split.
  - intros j d Hd. apply put_cpu_inv in Hd as [[-> ->]|[_ Hd]]; [|by apply Hi in Hd].
    split; try done. simpl. lia.
  - intros l. by eapply (lock_ok_put i c); [done|reflexivity|done|..|apply Hi].
Qed.

(** What [holding] answers: whether this CPU holds the lock. *)
Definition caller_of (k : pc) : option (lockid * caller) :=
  match k with HoldLocked l k | HoldCpu l k => Some (l, k) | _ => None end.

Lemma inv_holding_return i c l k r m :
  inv m → m_cpus m !! i = Some c → caller_of (c_pc c) = Some (l, k) →
  (r = true ↔ l ∈ c_held c) →
  match holding_return i c l k r m with
  | Next m' => inv m'
  | Die msg => k = InAcquire ∧ l ∈ c_held c ∧ msg = "acquire" ∨
               k = InRelease ∧ (l ∉ c_held c) ∧ msg = "release"
  end.
Proof.
  intros Hi Hc Hk Hr. pose proof (inv_cpu _ Hi i c Hc) as Hok.
  assert (0 < extra (c_pc c) ∧ extra (c_pc c) = match k with InAcquire => 2 | InRelease => 1 end) as [He He'].
  { destruct (c_pc c); simplify_eq/=; destruct k; done. }
  destruct (popcli_total c Hok He) as [c' Hp]. unfold holding_return. rewrite Hp.
  destruct (popcli_ok c c' Hp) as (_ & _ & P1 & P2 & P3 & P4).
  assert (∀ k', extra k' = extra (c_pc c) - 1 → pc_ok (set_pc k' c) →
    (∀ l', k' ≠ SetCpu l' ∧ k' ≠ Unlock l') → inv (put_cpu i (set_pc k' c') m)) as Hmove.
  { intros k' H1 H2 H3. eapply inv_move; [done|done|reflexivity|done|done| |].
    - destruct Hok as [A1 A2 A3 A4]. split; simpl; rewrite ?P2, ?P3; [lia|intros; apply P4; lia|done|].
      unfold pc_ok in *. simpl in *. by rewrite P2.
    - intros l'. destruct (H3 l'). simpl. repeat split; try done;
        intros E; rewrite E in Hk; done. }
  destruct k, r.
  - left. split; [done|]. split; [by apply Hr|done].
  - apply Hmove; [simpl; lia| |done]. unfold pc_ok. simpl. intros Hin. by apply Hr in Hin.
  - apply Hmove; [simpl; lia| |done]. unfold pc_ok. simpl. by apply Hr.
  - right. split; [done|]. split; [|done]. intros Hin. by apply Hr in Hin.
Qed.

Lemma held_answer i c l m :
  inv m → m_cpus m !! i = Some c →
  (sp_locked (m_locks m l) = 0 → l ∉ c_held c) ∧ (sp_cpu (m_locks m l) = Some i ↔ l ∈ c_held c).
Proof.
  intros Hi Hc. pose proof (inv_lock _ Hi l) as Hl. split.
  - intros H0 Hin. eapply free_not_owned; [done|done|done|by left].
  - split.
    + intros E. destruct Hl as [[H1 _]|(j & d & (H1 & H2 & H3) & H4)]; [by rewrite H1 in E|].
      rewrite H4 in E. simpl in E. case_decide as Hd; [|done]. simplify_eq. by simplify_eq.
    + intros Hin. rewrite (owned_lock m l i c Hl Hc) by (by left). simpl. by rewrite decide_True.
Qed.

(** Which panics a step can end in. *)
Definition may_die (i : nat) (m : machine) (msg : string) : Prop :=
  ∃ c l, m_cpus m !! i = Some c ∧
    (caller_of (c_pc c) = Some (l, InAcquire) ∧ l ∈ c_held c ∧ msg = "acquire" ∨
     caller_of (c_pc c) = Some (l, InRelease) ∧ (l ∉ c_held c) ∧ msg = "release").

Lemma inv_hold_step i c l k r m :
  inv m → m_cpus m !! i = Some c → caller_of (c_pc c) = Some (l, k) →
  (r = true ↔ l ∈ c_held c) →
  match holding_return i c l k r m with Next m' => inv m' | Die msg => may_die i m msg end.
Proof.
  intros Hi Hc Hk Hr. pose proof (inv_holding_return i c l k r m Hi Hc Hk Hr) as H.
  destruct (holding_return i c l k r m); [done|]. exists c, l. split; [done|].
  destruct H as [(-> & ? & ->)|(-> & ? & ->)]; auto.
Qed.

Lemma inv_spin i c l m :
  inv m → m_cpus m !! i = Some c → c_pc c = Spin l →
  let m' := put_lock l (mkSpin 1 (sp_cpu (m_locks m l))) m in
  inv (if sp_locked (m_locks m l) =? 0 then put_cpu i (set_pc (SetCpu l) c) m' else m').
Proof.
  intros Hi Hc Ep m'. pose proof (inv_cpu _ Hi i c Hc) as [A1 A2 A3 A4].
  rewrite Ep in A1. unfold pc_ok in A4. rewrite Ep in A4. simpl in A1.
  pose proof (inv_lock _ Hi l) as Hl. destruct (Z.eqb_spec (sp_locked (m_locks m l)) 0) as [E0|E0].
  - eapply (inv_lock_step i c (set_pc (SetCpu l) c) m _ l); [done|done|reflexivity| | | |].
    + intros l' Hne. simpl. by apply upd_lock_ne.
    + split; done.
    + intros l' Hne. split; [|done]. unfold owns. simpl. rewrite Ep. naive_solver.
    + eapply (lock_ok_owned i c (set_pc (SetCpu l) c) m); [done|reflexivity| | |].
      * eapply lock_ok_others; [done|done|by right].
      * right. by left.
      * simpl. rewrite upd_lock_eq, decide_False by done.
        destruct Hl as [[-> _]|(j & d & _ & Hj)]; [done|by rewrite Hj in E0].
  - assert (∀ l', m_locks m' l' = m_locks m l') as El.
    { intros l'. simpl. unfold upd_lock. case_bool_decide as E; [|done]. subst l'.
      destruct Hl as [[H1 _]|(j & d & _ & ->)]; [by rewrite H1 in E0|done]. }
    split; [apply Hi|]. intros l'. unfold lock_ok. rewrite El. apply Hi.
Qed.

Lemma inv_setcpu i c l m :
  inv m → m_cpus m !! i = Some c → c_pc c = SetCpu l →
  inv (put_cpu i (set_held (l :: c_held c) (set_pc Run c))
        (put_lock l (mkSpin (sp_locked (m_locks m l)) (Some i)) m)).
Proof.
  intros Hi Hc Ep. pose proof (inv_cpu _ Hi i c Hc) as [A1 A2 A3 A4].
  rewrite Ep in A1. unfold pc_ok in A4. rewrite Ep in A4. simpl in A1.
  pose proof (inv_lock _ Hi l) as Hl. assert (owns l c) as Ho by (right; by left).
  eapply (inv_lock_step i c _ m _ l); [done|done|reflexivity| | | |].
  - intros l' Hne. simpl. by apply upd_lock_ne.
  - split; simpl; [lia|done| |done]. by apply NoDup_cons.
  - intros l' Hne. unfold owns. simpl. rewrite Ep. set_solver.
  - eapply (lock_ok_owned i c); [done|reflexivity| | |].
    + eapply lock_ok_others; [done|done|by left].
    + left. simpl. set_solver.
    + simpl. rewrite upd_lock_eq, decide_True by set_solver.
      by rewrite (owned_lock m l i c Hl Hc Ho).
Qed.

Lemma inv_clearcpu i c l m :
  inv m → m_cpus m !! i = Some c → c_pc c = ClearCpu l →
  inv (put_cpu i (set_held (filter (λ l', l' ≠ l) (c_held c)) (set_pc (Unlock l) c))
        (put_lock l (mkSpin (sp_locked (m_locks m l)) None) m)).
Proof.
  intros Hi Hc Ep. pose proof (inv_cpu _ Hi i c Hc) as [A1 A2 A3 A4].
  rewrite Ep in A1. unfold pc_ok in A4. rewrite Ep in A4. simpl in A1.
  pose proof (inv_lock _ Hi l) as Hl. assert (owns l c) as Ho by (by left).
  assert (l ∉ filter (λ l', l' ≠ l) (c_held c)) as Hni.
  { intros [H _]%list_elem_of_filter. done. }
  eapply (inv_lock_step i c _ m _ l); [done|done|reflexivity| | | |].
  - intros l' Hne. simpl. by apply upd_lock_ne.
  - split; simpl; [|done|by apply NoDup_filter|done].
    rewrite A1. rewrite (length_remove l) by done. lia.
  - intros l' Hne. unfold owns. simpl. rewrite Ep, list_elem_of_filter. naive_solver.
  - eapply (lock_ok_owned i c); [done|reflexivity| | |].
    + eapply lock_ok_others; [done|done|by left].
    + right. by right.
    + simpl. rewrite upd_lock_eq, decide_False by done. by rewrite (owned_lock m l i c Hl Hc Ho).
Qed.

Lemma inv_unlock i c l m :
  inv m → m_cpus m !! i = Some c → c_pc c = Unlock l →
  inv (put_cpu i (set_pc PopCli c) (put_lock l (mkSpin 0 (sp_cpu (m_locks m l))) m)).
Proof.
  intros Hi Hc Ep. pose proof (inv_cpu _ Hi i c Hc) as [A1 A2 A3 A4].
  rewrite Ep in A1. unfold pc_ok in A4. rewrite Ep in A4. simpl in A1.
  pose proof (inv_lock _ Hi l) as Hl. assert (owns l c) as Ho by (right; by right).
  eapply (inv_lock_step i c _ m _ l); [done|done|reflexivity| | | |].
  - intros l' Hne. simpl. by apply upd_lock_ne.
  - split; done.
  - intros l' Hne. split; [|done]. unfold owns. simpl. rewrite Ep. naive_solver.
  - left. split.
    + simpl. rewrite upd_lock_eq, (owned_lock m l i c Hl Hc Ho). simpl. by rewrite decide_False.
    + intros j d Hd. apply put_cpu_inv in Hd as [[-> ->]|[Hne Hd]].
      * intros [H|[H|H]]; done.
      * eapply lock_ok_others; [exact Hl|exact Hc|by left|done|done].
Qed.

Lemma inv_step i m r :
  inv m → step i m = Some r → match r with Next m' => inv m' | Die msg => may_die i m msg end.
Proof.
  unfold step. intros Hi H. destruct (m_cpus m !! i) as [c|] eqn:Hc; [|done]. simpl in H.
  unfold step_of in H. destruct (c_pc c) as [|l k|l k|l|l|l|l|] eqn:Ep; simplify_eq.
  - destruct (held_answer i c l m Hi Hc) as [H0 _].
    destruct (Z.eqb_spec (sp_locked (m_locks m l)) 0) as [E0|E0]; simplify_eq.
    + apply inv_hold_step; [done|done|by rewrite Ep|]. split; [done|]. by intros ?%H0.
    + pose proof (inv_cpu _ Hi i c Hc) as [A1 A2 A3 A4]. rewrite Ep in A1.
      eapply inv_move; [done|done|reflexivity|done|done|by split|by rewrite Ep].
  - apply inv_hold_step; [done|done|by rewrite Ep|]. rewrite bool_decide_eq_true.
    by apply held_answer.
  - by apply inv_spin.
  - by apply inv_setcpu.
  - by apply inv_clearcpu.
  - by apply inv_unlock.
  - pose proof (inv_cpu _ Hi i c Hc) as Hok.
    destruct (popcli_total c Hok) as [c' Hp]; [by rewrite Ep|]. rewrite Hp in H. simplify_eq.
    destruct (popcli_ok c c' Hp) as (_ & _ & P1 & P2 & P3 & P4). destruct Hok as [A1 A2 A3 A4].
    rewrite Ep in A1. simpl in A1.
    eapply inv_move; [done|done|reflexivity|done|done| |by rewrite Ep].
    split; simpl; rewrite ?P2, ?P3; [lia|intros; apply P4; lia|done|done].
Qed.

Lemma inv_reachable n m : reachable n m → inv m.
Proof.
  induction 1 as [|m m' _ IH Hm]; [apply inv_init|].
  inversion Hm as [i r H|i l m2 H|i l m2 H|i b m2 H]; subst.
  - by apply inv_step in H.
  - by eapply inv_call_acquire.
  - by eapply inv_call_release.
  - by eapply inv_set_if.
Qed.
End Invariant.

(** ** Uninterleaved calls, and the view the rest of the kernel has of them *)

(** CPU [i] runs on until it leaves spinlock.c. *)
Fixpoint exec (fuel i : nat) (m : machine) : option result :=
  match step i m with
  | None => Some (Next m)
  | Some (Die msg) => Some (Die msg)
  | Some (Next m') => match fuel with O => None | S f => exec f i m' end
  end.
(** Neither call takes more than six steps if the lock is free. *)
Definition acquire_run (i : nat) (l : lockid) (m : machine) : option result :=
  m' ← call_acquire i l m; exec 6 i m'.
Definition release_run (i : nat) (l : lockid) (m : machine) : option result :=
  m' ← call_release i l m; exec 6 i m'.

Section Sequential.
Implicit Types (m : machine) (c : cpu) (l : lockid).

Lemma put_put_cpu i c c' m : put_cpu i c' (put_cpu i c m) = put_cpu i c' m.
Proof. unfold put_cpu. simpl. by rewrite list_insert_insert_eq. Qed.

Lemma step_cur i c m : m_cpus m !! i = Some c → step i m = step_of i c m.
Proof. intros H. unfold step. by rewrite H. Qed.

Lemma exec_next f i c m m' r :
  m_cpus m !! i = Some c → step_of i c m = Some (Next m') → exec f i m' = r → exec (S f) i m = r.
Proof. intros Hc Hs <-. simpl. by rewrite (step_cur i c), Hs. Qed.
Lemma exec_die f i c m msg :
  m_cpus m !! i = Some c → step_of i c m = Some (Die msg) → exec f i m = Some (Die msg).
Proof. intros Hc Hs. destruct f; simpl; by rewrite (step_cur i c), Hs. Qed.
Lemma exec_run f i c m :
  m_cpus m !! i = Some c → c_pc c = Run → exec f i m = Some (Next m).
Proof.
  intros Hc Hp. assert (step i m = None) as E.
  { rewrite (step_cur i c) by done. unfold step_of. by rewrite Hp. }
  destruct f; simpl; by rewrite E.
Qed.

#[local] Arguments exec : simpl never.

(** The effect of [acquire] and of [release] on their CPU. *)
Definition locked_cpu (l : lockid) (c : cpu) : cpu :=
  mkCpu Run (c_ncli c + 1) (if c_ncli c =? 0 then c_if c else c_intena c) false (l :: c_held c).
Definition unlocked_cpu (l : lockid) (c : cpu) : cpu :=
  mkCpu Run (c_ncli c - 1) (c_intena c) ((c_ncli c - 1 =? 0) && c_intena c)
    (filter (λ l', l' ≠ l) (c_held c)).

Lemma acquire_free i c l m :
  inv m → m_cpus m !! i = Some c → c_pc c = Run → sp_locked (m_locks m l) = 0 →
  ∃ m', acquire_run i l m = Some (Next m') ∧ m_cpus m' = <[i := locked_cpu l c]> (m_cpus m) ∧
        m_locks m' l = mkSpin 1 (Some i) ∧ ∀ l', l' ≠ l → m_locks m' l' = m_locks m l'.
Proof.
  intros Hi Hc Hp H0. pose proof (inv_cpu _ Hi i c Hc) as [A1 _ _ _]. rewrite Hp in A1. simpl in A1.
  unfold acquire_run, call_acquire. rewrite Hc. simpl. rewrite Hp. simpl.
  eexists. split; [|split; [|split]].
  - eapply exec_next; [by eapply put_cpu_eq| |].
    { unfold step_of. simpl. rewrite H0. simpl. unfold holding_return, popcli. simpl. ztest. reflexivity. }
    rewrite put_put_cpu. eapply exec_next; [by eapply put_cpu_eq| |].
    { unfold step_of. simpl. rewrite H0. simpl. reflexivity. }
    eapply exec_next; [eapply put_cpu_eq, put_cpu_eq, Hc|unfold step_of; simpl; reflexivity|].
    eapply exec_run; [do 3 eapply put_cpu_eq; exact Hc|reflexivity].
  - simpl. rewrite !list_insert_insert_eq. unfold locked_cpu, set_held, set_pc. simpl.
    f_equal. f_equal; lia || by ztest.
  - simpl. by rewrite !upd_lock_eq.
  - intros l' Hne. simpl. by rewrite !upd_lock_ne.
Qed.

Lemma acquire_held i c l m :
  inv m → m_cpus m !! i = Some c → c_pc c = Run → l ∈ c_held c →
  acquire_run i l m = Some (Die "acquire").
Proof.
  intros Hi Hc Hp Hin. pose proof (inv_cpu _ Hi i c Hc) as [A1 _ _ _]. rewrite Hp in A1. simpl in A1.
  unfold acquire_run, call_acquire. rewrite Hc. simpl. rewrite Hp. simpl.
  pose proof (owned_lock m l i c (inv_lock _ Hi l) Hc (or_introl Hin)) as El.
  rewrite decide_True in El by done.
  eapply exec_next; [by eapply put_cpu_eq|unfold step_of; simpl; rewrite El; reflexivity|].
  rewrite put_put_cpu. eapply exec_die; [by eapply put_cpu_eq|].
  unfold step_of. simpl. rewrite El. simpl. rewrite bool_decide_true by done.
  unfold holding_return, popcli. simpl. by ztest.
Qed.

Lemma release_held i c l m :
  inv m → m_cpus m !! i = Some c → c_pc c = Run → l ∈ c_held c →
  ∃ m', release_run i l m = Some (Next m') ∧ m_cpus m' = <[i := unlocked_cpu l c]> (m_cpus m) ∧
        m_locks m' l = mkSpin 0 None ∧ ∀ l', l' ≠ l → m_locks m' l' = m_locks m l'.
Proof.
  intros Hi Hc Hp Hin. pose proof (inv_cpu _ Hi i c Hc) as [A1 A2 _ _]. rewrite Hp in A1. simpl in A1.
  assert (0 < length (c_held c))%nat as Hlen by (destruct (c_held c); [by apply elem_of_nil in Hin|simpl; lia]).
  pose proof (owned_lock m l i c (inv_lock _ Hi l) Hc (or_introl Hin)) as El.
  rewrite decide_True in El by done.
  unfold release_run, call_release. rewrite Hc. simpl. rewrite Hp. simpl.
  eexists. split; [|split; [|split]].
  - eapply exec_next; [by eapply put_cpu_eq|unfold step_of; simpl; rewrite El; reflexivity|].
    rewrite put_put_cpu. eapply exec_next; [by eapply put_cpu_eq| |].
    { unfold step_of. simpl. rewrite El. simpl. rewrite bool_decide_true by done.
      unfold holding_return, popcli. simpl. ztest. simpl. reflexivity. }
    rewrite put_put_cpu. eapply exec_next; [by eapply put_cpu_eq|unfold step_of; simpl; reflexivity|].
    eapply exec_next; [eapply put_cpu_eq, put_cpu_eq, Hc|unfold step_of; simpl; reflexivity|].
    eapply exec_next; [do 3 eapply put_cpu_eq; exact Hc| |].
    { unfold step_of. simpl. unfold popcli. simpl. ztest. reflexivity. }
    eapply exec_run; [do 4 eapply put_cpu_eq; exact Hc|reflexivity].
  - simpl. rewrite !list_insert_insert_eq. unfold unlocked_cpu, set_held, set_pc. simpl.
    f_equal. f_equal; try lia.
    by replace (c_ncli c + 1 - 1 - 1) with (c_ncli c - 1) by lia.
  - simpl. rewrite !upd_lock_eq. by rewrite El.
  - intros l' Hne. simpl. by rewrite !upd_lock_ne.
Qed.

Lemma release_free i c l m :
  inv m → m_cpus m !! i = Some c → c_pc c = Run → l ∉ c_held c →
  release_run i l m = Some (Die "release").
Proof.
  intros Hi Hc Hp Hin. pose proof (inv_cpu _ Hi i c Hc) as [A1 _ _ _]. rewrite Hp in A1. simpl in A1.
  destruct (held_answer i c l m Hi Hc) as [_ Ha].
  unfold release_run, call_release. rewrite Hc. simpl. rewrite Hp. simpl.
  destruct (Z.eqb_spec (sp_locked (m_locks m l)) 0) as [E|E].
  - eapply exec_die; [by eapply put_cpu_eq|]. unfold step_of. simpl. rewrite E. simpl.
    unfold holding_return, popcli. simpl. by ztest.
  - eapply exec_next; [by eapply put_cpu_eq|unfold step_of; simpl; by ztest|].
    rewrite put_put_cpu. eapply exec_die; [by eapply put_cpu_eq|].
    unfold step_of. simpl. rewrite bool_decide_false by (by rewrite Ha).
    unfold holding_return, popcli. simpl. by ztest.
Qed.
End Sequential.

(** ** Theorems *)

(** C9. Mutual exclusion.  In every reachable state of a machine with any number
    of CPUs, a lock is held by at most one CPU; the lock word and the owner field
    then say so; and that CPU runs with interrupts off, its [pushcli] depth at
    least the number of locks it holds. *)
Theorem spin_mutual_exclusion (n : nat) (m : machine) (l : lockid) (i : nat) (c : cpu) :
  reachable n m → m_cpus m !! i = Some c → l ∈ c_held c →
  (∀ j c', m_cpus m !! j = Some c' → l ∈ c_held c' → j = i) ∧
  m_locks m l = mkSpin 1 (Some i) ∧ c_if c = false ∧ Z.of_nat (length (c_held c)) ≤ c_ncli c.
Proof.
  intros Hr%inv_reachable Hc Hin. pose proof (inv_lock _ Hr l) as Hl.
  pose proof (inv_cpu _ Hr i c Hc) as [A1 A2 _ _].
  assert (0 ≤ extra (c_pc c)) by (destruct (c_pc c) as [|? []|? []|?|?|?|?|]; done).
  assert (0 < length (c_held c))%nat by (destruct (c_held c); [by apply elem_of_nil in Hin|simpl; lia]).
  split; [|split; [|split; [apply A2; lia|lia]]].
  - intros j c' Hc' Hin'. destruct (decide (j = i)); [done|]. exfalso.
    eapply (lock_ok_others m l i c); eauto; [left; by left|by left].
  - rewrite (owned_lock m l i c Hl Hc) by (by left). by rewrite decide_True.
Qed.

Lemma spin_mutual_exclusion_witness :
  ∃ m c, reachable 2 m ∧ m_cpus m !! 1%nat = Some c ∧ Lkmem ∈ c_held c ∧
    m_locks m Lkmem = mkSpin 1 (Some 1%nat).
Proof.
  set (m1 := put_cpu 1 (mkCpu (HoldLocked Lkmem InAcquire) 2 false false []) (init 2)).
  set (m2 := put_cpu 1 (mkCpu (Spin Lkmem) 1 false false []) m1).
  set (m3 := put_cpu 1 (mkCpu (SetCpu Lkmem) 1 false false []) (put_lock Lkmem (mkSpin 1 None) m2)).
  set (m4 := put_cpu 1 (mkCpu Run 1 false false [Lkmem]) (put_lock Lkmem (mkSpin 1 (Some 1%nat)) m3)).
  assert (reachable 2 m4) as Hr.
  { apply (RMove 2 m3); [|by apply (MStep m3 1)]. apply (RMove 2 m2); [|by apply (MStep m2 1)].
    apply (RMove 2 m1); [|by apply (MStep m1 1)]. apply (RMove 2 (init 2)); [constructor|].
    by apply (MAcquire (init 2) 1 Lkmem). }
  exists m4, (mkCpu Run 1 false false [Lkmem]).
  destruct (spin_mutual_exclusion 2 m4 Lkmem 1 (mkCpu Run 1 false false [Lkmem]) Hr)
    as (_ & E & _); [reflexivity|constructor|]. split; [exact Hr|split; [reflexivity|split; [constructor|exact E]]].
Defined.

(** The only panics.  From no reachable state does spinlock.c panic in
    [popcli]; [acquire] panics only in a CPU that already holds the lock, and
    [release] only in one that does not. *)
Theorem spin_panics (n : nat) (m : machine) (i : nat) (msg : string) :
  reachable n m → step i m = Some (Die msg) →
  ∃ c l, m_cpus m !! i = Some c ∧
    (caller_of (c_pc c) = Some (l, InAcquire) ∧ l ∈ c_held c ∧ msg = "acquire" ∨
     caller_of (c_pc c) = Some (l, InRelease) ∧ (l ∉ c_held c) ∧ msg = "release").
Proof. intros Hr%inv_reachable Hs. by apply (inv_step i m (Die msg)) in Hs. Qed.

Lemma spin_panics_witness :
  ∃ m, reachable 1 m ∧ step 0 m = Some (Die "release") ∧
    ∃ c l, m_cpus m !! 0%nat = Some c ∧ caller_of (c_pc c) = Some (l, InRelease).
Proof.
  set (m1 := put_cpu 0 (mkCpu (HoldLocked Ltime InRelease) 1 false false []) (init 1)).
  assert (reachable 1 m1) as Hr.
  { apply (RMove 1 (init 1)); [constructor|]. by apply (MRelease (init 1) 0 Ltime). }
  destruct (spin_panics 1 m1 0 "release" Hr eq_refl) as (c & l & Hc & [(_ & _ & E)|(E & _)]);
    [discriminate E|]. exists m1. split; [exact Hr|]. split; [reflexivity|]. exists c, l. auto.
Defined.

(** C10. On one CPU spinlock.c implements the operations of [Lock].  Let CPU [i]
    hold the locks [k_held s].  A call of [acquire], run without interleaving,
    panics if [Lock.acquire] does, and otherwise, if no other CPU has the lock,
    ends with the CPU holding what [Lock.acquire] says; likewise for [release].
    Interrupts come back on when the last lock is released if they were on before
    the first. *)
Theorem spin_refines (n : nat) (m : machine) (i : nat) (c : cpu) (l : lockid) (s : kernel) :
  reachable n m → m_cpus m !! i = Some c → c_pc c = Run → k_held s = c_held c →
  (match acquire l s with
   | Ok _ s' => sp_locked (m_locks m l) = 0 → ∃ m', acquire_run i l m = Some (Next m') ∧
       m_cpus m' !! i = Some (locked_cpu l c) ∧ c_held (locked_cpu l c) = k_held s'
   | Panic msg => acquire_run i l m = Some (Die msg)
   | _ => False
   end) ∧
  (match release l s with
   | Ok _ s' => ∃ m', release_run i l m = Some (Next m') ∧
       m_cpus m' !! i = Some (unlocked_cpu l c) ∧ c_held (unlocked_cpu l c) = k_held s'
   | Panic msg => release_run i l m = Some (Die msg)
   | _ => False
   end) ∧
  (c_held c = [] → c_if (unlocked_cpu l (locked_cpu l c)) = c_if c).
Proof.
  intros Hr%inv_reachable Hc Hp Hh. pose proof (lookup_lt_Some _ _ _ Hc) as Hlt.
  pose proof (inv_cpu _ Hr i c Hc) as [A1 _ _ _]. rewrite Hp in A1. simpl in A1.
  unfold acquire, release, gets, mbind, M_bind. simpl. rewrite Hh.
  split; [|split].
  - case_bool_decide as Hin; simpl; [by apply (acquire_held i c)|]. intros H0.
    destruct (acquire_free i c l m Hr Hc Hp H0) as (m' & H1 & H2 & _). exists m'.
    split; [done|]. rewrite H2. split; [by apply list_lookup_insert_eq|done].
  - case_bool_decide as Hin; simpl; [|by apply (release_free i c)].
    destruct (release_held i c l m Hr Hc Hp Hin) as (m' & H1 & H2 & _). exists m'.
    split; [done|]. rewrite H2. split; [by apply list_lookup_insert_eq|done].
  - intros Hn. rewrite Hn in A1. simpl in A1. rewrite A1. simpl. by destruct (c_if c).
Qed.

Lemma spin_refines_witness :
  ∃ m', acquire_run 0 Lkmem (init 2) = Some (Next m') ∧
    m_cpus m' !! 0%nat = Some (locked_cpu Lkmem (mkCpu Run 0 false false [])).
Proof.
  destruct (spin_refines 2 (init 2) 0 (mkCpu Run 0 false false []) Lkmem kernel0 (RInit 2)
    eq_refl eq_refl eq_refl) as (H & _ & _).
  destruct (H eq_refl) as (m' & H1 & H2 & _). exists m'. auto.
Defined.
