(* ===== verification/Strings.v ===== *)
(** * Strings: string.c and the string functions of ulib.c

    [memset] and [memmove], whose result depends on addresses (alignment, the
    overlap of source and destination), run on a flat memory: a list of bytes
    indexed by address.  For the string functions a [char *] that is only read
    is the list of bytes from it to the end of its object, and one that is
    written is the object's bytes, returned updated.  An access outside the
    memory or the object is undefined behaviour: a fault, or [None]. *)

From S2P Require Import Prelude.

(** ** Memory (string.c, x86.h) *)

Abbreviation Mem := (M (list Z)).
Definition ld (a : nat) : Mem Z := m ← gets id; deref (m !! a).
Definition st8 (a : nat) (v : Z) : Mem unit :=
  m ← gets id; if Nat.ltb a (length m) then modify (<[a := u8 v]>) else fault "store out of range".

(** The [rep stosb] and [rep stosl] instructions. *)
Fixpoint stosb (addr : nat) (data : Z) (cnt : nat) : Mem unit :=
  match cnt with O => mret tt | S cnt' => st8 addr data ;; stosb (addr + 1) data cnt' end.
Fixpoint stosl (addr : nat) (data : Z) (cnt : nat) : Mem unit :=
  match cnt with
  | O => mret tt
  | S cnt' =>
      st8 addr data ;; st8 (addr + 1) (Z.shiftr data 8) ;; st8 (addr + 2) (Z.shiftr data 16) ;;
      st8 (addr + 3) (Z.shiftr data 24) ;; stosl (addr + 4) data cnt'
  end.

Definition memset (dst : nat) (c : Z) (n : nat) : Mem nat :=
  (if Nat.eqb (dst mod 4) 0 && Nat.eqb (n mod 4) 0 then
     let c := Z.land c 0xFF in
     stosl dst (Z.lor (Z.lor (Z.lor (s32 (Z.shiftl c 24)) (Z.shiftl c 16)) (Z.shiftl c 8)) c) (n / 4)
   else stosb dst c n) ;;
  mret dst.

Fixpoint memcmp (s1 s2 n : nat) : Mem Z :=
  match n with
  | O => mret 0
  | S n' =>
      a ← ld s1; b ← ld s2;
      if negb (a =? b) then mret (a - b) else memcmp (s1 + 1) (s2 + 1) n'
  end.

(** The two loops of [memmove]: from the end downwards, and upwards. *)
Fixpoint move_down (d s n : nat) : Mem unit :=
  match n with
  | O => mret tt
  | S n' => v ← ld (s - 1); st8 (d - 1) v ;; move_down (d - 1) (s - 1) n'
  end.
Fixpoint move_up (d s n : nat) : Mem unit :=
  match n with
  | O => mret tt
  | S n' => v ← ld s; st8 d v ;; move_up (d + 1) (s + 1) n'
  end.
Definition memmove (dst src n : nat) : Mem nat :=
  (if Nat.ltb src dst && Nat.ltb dst (src + n) then move_down (dst + n) (src + n) n
   else move_up dst src n) ;;
  mret dst.
Definition memcpy (dst src n : nat) : Mem nat := memmove dst src n.

(** ** Strings (string.c) *)

Fixpoint strncmp (p q : list Z) (n : nat) {struct n} : option Z :=
  match n with
  | O => Some 0
  | S n' =>
      match p with
      | [] => None
      | a :: p' =>
          if a =? 0 then match q with [] => None | b :: _ => Some (a - b) end else
          match q with
          | [] => None
          | b :: q' => if a =? b then strncmp p' q' n' else Some (a - b)
          end
      end
  end.

(** The second loop of [strncpy]. *)
Fixpoint zero_fill (s : list Z) (n : nat) {struct n} : option (list Z) :=
  match n with
  | O => Some s
  | S n' => match s with [] => None | _ :: s' => r ← zero_fill s' n'; Some (0 :: r) end
  end.
Fixpoint strncpy (s t : list Z) (n : nat) {struct n} : option (list Z) :=
  match n with
  | O => Some s
  | S n' =>
      match s, t with
      | _ :: s', c :: t' =>
          r ← (if c =? 0 then zero_fill s' n' else strncpy s' t' n'); Some (c :: r)
      | _, _ => None
      end
  end.

(** The loop of [safestrcpy] after [--n], then the final NUL. *)
Fixpoint safestrcpy_loop (s t : list Z) (n : nat) {struct n} : option (list Z) :=
  match s with
  | [] => None
  | _ :: s' =>
      match n with
      | O => Some (0 :: s')
      | S n' =>
          match t with
          | [] => None
          | c :: t' =>
              if c =? 0 then match s' with [] => None | _ :: s'' => Some (c :: 0 :: s'') end
              else r ← safestrcpy_loop s' t' n'; Some (c :: r)
          end
      end
  end.
Definition safestrcpy (s t : list Z) (n : Z) : option (list Z) :=
  if n <=? 0 then Some s else safestrcpy_loop s t (Z.to_nat (n - 1)).

Fixpoint strlen (s : list Z) : option Z :=
  match s with
  | [] => None
  | c :: s' => if c =? 0 then Some 0 else n ← strlen s'; Some (n + 1)
  end.

(** ** User library (ulib.c) *)

Fixpoint strcpy (s t : list Z) : option (list Z) :=
  match s, t with
  | _ :: s', c :: t' => if c =? 0 then Some (0 :: s') else r ← strcpy s' t'; Some (c :: r)
  | _, _ => None
  end.

Fixpoint strcmp (p q : list Z) : option Z :=
  match p, q with
  | a :: p', b :: q' => if negb (a =? 0) && (a =? b) then strcmp p' q' else Some (a - b)
  | _, _ => None
  end.

(** The result is the suffix that starts with [c], [None] inside when null. *)
Fixpoint strchr (s : list Z) (c : Z) : option (option (list Z)) :=
  match s with
  | [] => None
  | a :: s' => if a =? 0 then Some None else if a =? c then Some (Some s) else strchr s' c
  end.

Fixpoint atoi_loop (s : list Z) (n : Z) : option Z :=
  match s with
  | [] => None
  | a :: s' =>
      if (ch "0" <=? s8 a) && (s8 a <=? ch "9") then atoi_loop s' (s32 (n * 10 + s8 a - ch "0")) else Some n
  end.
Definition atoi (s : list Z) : option Z := atoi_loop s 0.

Definition ulib_strlen (s : list Z) : option Z := u32 <$> strlen s.
Definition ulib_memset (dst : nat) (c : Z) (n : nat) : Mem nat := stosb dst c n ;; mret dst.
Definition ulib_memmove (dst src : nat) (n : Z) : Mem nat := move_up dst src (Z.to_nat n) ;; mret dst.

(** ** Copies and fills *)

Section Memory.
Implicit Types m : list Z.

Lemma wp_ld a v m (Q : Z → list Z → Prop) : m !! a = Some v → Q v m → wp (ld a) Q m.
Proof. intros E HQ. unfold ld. apply wp_bind, wp_gets. by eapply wp_deref. Qed.
Lemma wp_st8 a v m (Q : unit → list Z → Prop) :
  (a < length m)%nat → Q tt (<[a := u8 v]> m) → wp (st8 a v) Q m.
Proof.
  intros Ha HQ. unfold st8. apply wp_bind, wp_gets. unfold id.
  rewrite (proj2 (Nat.ltb_lt _ _) Ha). by apply wp_modify.
Qed.

Lemma u8_byte m a v : bytes m → m !! a = Some v → u8 v = v.
Proof. intros Hb Ha. apply u8_small. by eapply Forall_lookup_1 in Hb. Qed.

(** [m'] is [m] after the [n] bytes at [s] were copied to [d]. *)
Definition moved (d s n : nat) m m' : Prop :=
  length m' = length m ∧ bytes m' ∧
  ∀ x, m' !! x = if decide (d ≤ x < d + n)%nat then m !! (s + (x - d))%nat else m !! x.

Lemma move_up_spec n d s m (Q : unit → list Z → Prop) :
  bytes m → ¬ (s < d < s + n)%nat → (d + n ≤ length m)%nat → (s + n ≤ length m)%nat →
  (∀ m', moved d s n m m' → Q tt m') → wp (move_up d s n) Q m.
Proof.
  revert d s m. induction n as [|n IH]; intros d s m Hb Hov Hd Hs HQ; simpl.
  - apply wp_ret, HQ. split; [done|]. split; [done|]. intros x. by rewrite decide_False by lia.
  - destruct (lookup_lt_is_Some_2 m s ltac:(lia)) as [v Hv].
    apply wp_bind. eapply wp_ld; [exact Hv|]. apply wp_bind, wp_st8; [lia|].
    rewrite (u8_byte _ _ _ Hb Hv). apply IH; rewrite ?length_insert; [|lia..|].
    { apply Forall_insert; [done|]. by eapply Forall_lookup_1 in Hv. }
    intros m' (Hl & Hb' & Hx). apply HQ. rewrite length_insert in Hl. split; [done|]. split; [done|].
    intros x. rewrite Hx. destruct (decide (x = d)) as [->|Hne].
    + rewrite decide_False, decide_True by lia. rewrite list_lookup_insert_eq by lia.
      by replace (s + (d - d))%nat with s by lia.
    + repeat case_decide; try lia; [|by rewrite list_lookup_insert_ne by lia].
      rewrite list_lookup_insert_ne by lia. f_equal. lia.
Qed.

Lemma move_down_spec n d s m (Q : unit → list Z → Prop) :
  bytes m → (s < d)%nat → (d + n ≤ length m)%nat →
  (∀ m', moved d s n m m' → Q tt m') → wp (move_down (d + n) (s + n) n) Q m.
Proof.
  revert m. induction n as [|n IH]; intros m Hb Hov Hd HQ; simpl.
  - apply wp_ret, HQ. split; [done|]. split; [done|]. intros x. by rewrite decide_False by lia.
  - replace (s + S n - 1)%nat with (s + n)%nat by lia. replace (d + S n - 1)%nat with (d + n)%nat by lia.
    destruct (lookup_lt_is_Some_2 m (s + n) ltac:(lia)) as [v Hv].
    apply wp_bind. eapply wp_ld; [exact Hv|]. apply wp_bind, wp_st8; [lia|].
    rewrite (u8_byte _ _ _ Hb Hv). apply IH; rewrite ?length_insert; [|lia..|].
    { apply Forall_insert; [done|]. by eapply Forall_lookup_1 in Hv. }
    intros m' (Hl & Hb' & Hx). apply HQ. rewrite length_insert in Hl. split; [done|]. split; [done|].
    intros x. rewrite Hx. destruct (decide (x = d + n)%nat) as [->|Hne].
    + rewrite decide_False, decide_True by lia. rewrite list_lookup_insert_eq by lia.
      by replace (s + (d + n - d))%nat with (s + n)%nat by lia.
    + repeat case_decide; try lia; by rewrite list_lookup_insert_ne by lia.
Qed.

Lemma moved_splice d s n m m' :
  (d + n ≤ length m)%nat → (s + n ≤ length m)%nat → moved d s n m m' →
  m' = splice d (slice s n m) m.
Proof.
  intros Hd Hs (Hl & _ & Hx). pose proof (length_slice s n m Hs) as Hn.
  apply list_eq. intros x. rewrite Hx. case_decide.
  - rewrite lookup_splice_in by lia. unfold slice. rewrite lookup_take_lt, lookup_drop by lia. done.
  - destruct (decide (x < d)%nat); [by rewrite lookup_splice_lt by lia|by rewrite lookup_splice_ge by lia].
Qed.

Lemma stosb_spec n a c m (Q : unit → list Z → Prop) :
  (a + n ≤ length m)%nat → Q tt (splice a (replicate n (u8 c)) m) → wp (stosb a c n) Q m.
Proof.
  revert a m Q. induction n as [|n IH]; intros a m Q Ha HQ; simpl.
  - apply wp_ret. change (replicate 0 (u8 c)) with (@nil Z) in HQ. by rewrite splice_nil in HQ.
  - apply wp_bind, wp_st8; [lia|]. apply IH; [rewrite length_insert; lia|].
    rewrite replicate_S, splice_cons in HQ by (rewrite length_replicate; lia). exact HQ.
Qed.

Lemma stosl_spec n a w b m (Q : unit → list Z → Prop) :
  u8 w = b → u8 (Z.shiftr w 8) = b → u8 (Z.shiftr w 16) = b → u8 (Z.shiftr w 24) = b →
  (a + 4 * n ≤ length m)%nat → Q tt (splice a (replicate (4 * n) b) m) → wp (stosl a w n) Q m.
Proof.
  intros E0 E1 E2 E3. revert a m Q. induction n as [|n IH]; intros a m Q Ha HQ.
  - apply wp_ret. change (replicate (4 * 0) b) with (@nil Z) in HQ. by rewrite splice_nil in HQ.
  - replace (4 * S n)%nat with (S (S (S (S (4 * n))))) in HQ by lia.
    rewrite !replicate_S, !splice_cons in HQ by (rewrite ?length_insert; cbn [length]; rewrite ?length_replicate; lia).
    cbn [stosl]. do 4 (apply wp_bind, wp_st8; [rewrite ?length_insert; lia|]).
    rewrite E0, E1, E2, E3. apply IH; [rewrite !length_insert; lia|].
    replace (a + 1 + 1 + 1 + 1)%nat with (a + 4)%nat in HQ by lia.
    replace (a + 1 + 1 + 1)%nat with (a + 3)%nat in HQ by lia.
    by replace (a + 1 + 1)%nat with (a + 2)%nat in HQ by lia.
Qed.

(** The word [memset] stores with [rep stosl] has the byte in all four places. *)
Lemma memset_word c :
  let b := Z.land c 0xFF in
  let w := Z.lor (Z.lor (Z.lor (s32 (Z.shiftl b 24)) (Z.shiftl b 16)) (Z.shiftl b 8)) b in
  u8 w = u8 c ∧ u8 (Z.shiftr w 8) = u8 c ∧ u8 (Z.shiftr w 16) = u8 c ∧ u8 (Z.shiftr w 24) = u8 c.
Proof.
  cbv zeta. change 0xFF with (Z.ones 8). rewrite Z.land_ones by lia.
  change (c mod 2 ^ 8) with (u8 c). pose proof (u8_range c) as Hr. revert Hr. generalize (u8 c). clear c. intros b Hb.
  set (w b := Z.lor (Z.lor (Z.lor (s32 (Z.shiftl b 24)) (Z.shiftl b 16)) (Z.shiftl b 8)) b).
  assert (forallb (λ k, let b := Z.of_nat k in (u8 (w b) =? b) && (u8 (Z.shiftr (w b) 8) =? b) &&
    (u8 (Z.shiftr (w b) 16) =? b) && (u8 (Z.shiftr (w b) 24) =? b)) (seq 0 256) = true) as Hall
    by (vm_compute; reflexivity).
  rewrite forallb_forall in Hall. specialize (Hall (Z.to_nat b)). cbv zeta in Hall.
  rewrite Z2Nat.id, !andb_true_iff, !Z.eqb_eq in Hall by lia.
  destruct Hall as [[[? ?] ?] ?]; [apply in_seq; lia|]. done.
Qed.

Lemma memset_spec dst c n m :
  (dst + n ≤ length m)%nat →
  wp (memset dst c n) (λ r m', r = dst ∧ m' = splice dst (replicate n (u8 c)) m) m.
Proof.
  intros Hd. unfold memset. destruct (Nat.eqb_spec (n mod 4) 0) as [En|En].
  2: { rewrite andb_false_r. apply wp_bind, stosb_spec; [done|]. by apply wp_ret. }
  destruct (Nat.eqb_spec (dst mod 4) 0) as [Ed|Ed]; cbn [andb].
  2: { apply wp_bind, stosb_spec; [done|]. by apply wp_ret. }
  pose proof (Nat.div_mod n 4 ltac:(lia)) as E. rewrite En, Nat.add_0_r in E.
  destruct (memset_word c) as (E0 & E1 & E2 & E3).
  apply wp_bind. eapply stosl_spec; [exact E0|exact E1|exact E2|exact E3|lia|]. rewrite <- E. by apply wp_ret.
Qed.
End Memory.

(** [memmove] copies the [n] source bytes as they were before the call to
    the destination and changes nothing else, also when the two ranges overlap;
    [memset] fills exactly [n] cells, in its word loop and in its byte loop.
    The [memmove] of the user library, which only copies upwards, agrees unless
    the destination starts inside the source. *)
Theorem memmove_overlap (m : list Z) (dst src n : nat) (c : Z) :
  bytes m → (dst + n ≤ length m)%nat → (src + n ≤ length m)%nat →
  wp (memmove dst src n) (λ r m', r = dst ∧ m' = splice dst (slice src n m) m) m ∧
  wp (memset dst c n) (λ r m', r = dst ∧ m' = splice dst (replicate n (u8 c)) m) m ∧
  (¬ (src < dst < src + n)%nat →
   wp (ulib_memmove dst src (Z.of_nat n)) (λ r m', r = dst ∧ m' = splice dst (slice src n m) m) m).
Proof.
  intros Hb Hd Hs. split_and!; [|by apply memset_spec|].
  - unfold memmove. apply wp_bind. destruct (Nat.ltb_spec src dst); cbn [andb].
    + destruct (Nat.ltb_spec dst (src + n)).
      * apply move_down_spec; [done..|]. intros m' Hm. apply wp_ret. split; [done|]. by apply moved_splice.
      * apply move_up_spec; [done|lia|done|done|]. intros m' Hm. apply wp_ret. split; [done|]. by apply moved_splice.
    + apply move_up_spec; [done|lia|done|done|]. intros m' Hm. apply wp_ret. split; [done|]. by apply moved_splice.
  - intros Hov. unfold ulib_memmove. rewrite Nat2Z.id. apply wp_bind, move_up_spec; [done..|].
    intros m' Hm. apply wp_ret. split; [done|]. by apply moved_splice.
Qed.

Lemma memmove_overlap_witness :
  wp (memmove 2 0 4) (λ r m', r = 2%nat ∧ m' = [1; 2; 1; 2; 3; 4; 7; 8]) [1; 2; 3; 4; 5; 6; 7; 8].
Proof.
  eapply wp_mono; [apply (memmove_overlap [1; 2; 3; 4; 5; 6; 7; 8] 2 0 4 0)|];
    [by repeat constructor|simpl; lia|simpl; lia|]. intros r m' [-> ->]. split; reflexivity.
Defined.

(** ** C strings *)

(** The characters before the first NUL. *)
Fixpoint upto0 (s : list Z) : list Z :=
  match s with [] => [] | c :: s' => if c =? 0 then [] else c :: upto0 s' end.
(** The name in a [char[n]] field: NUL-terminated unless it fills the field. *)
Definition field (n : nat) (s : list Z) : list Z := upto0 (take n s).
(** [t] points to the string [w]. *)
Definition cstr (w t : list Z) : Prop := ∃ r, t = w ++ 0 :: r ∧ Forall (λ c, c ≠ 0) w.
(** A pointer [strncmp] can follow for [n] characters. *)
Definition readable (n : nat) (s : list Z) : Prop := (n ≤ length s)%nat ∨ 0 ∈ s.

Section Cstr.
Implicit Types s t w p q : list Z.

Lemma cstr_readable n w t : cstr w t → readable n t.
Proof. intros (r & -> & _). right. apply elem_of_app. right. left. Qed.
Lemma cstr_cons c w t : c ≠ 0 → cstr w t → cstr (c :: w) (c :: t).
Proof. intros Hc (r & -> & Hw). exists r. split; [done|]. by constructor. Qed.
Lemma cstr_inv w t : cstr w t → match w with
  | [] => ∃ t', t = 0 :: t' | c :: w' => ∃ t', t = c :: t' ∧ c ≠ 0 ∧ cstr w' t' end.
Proof.
  intros (r & -> & Hw). destruct w as [|c w]; [by exists r|]. inversion Hw; subst.
  exists (w ++ 0 :: r). split; [done|]. split; [done|]. by exists r.
Qed.
Lemma upto0_nonzero w : Forall (λ c, c ≠ 0) w → upto0 w = w.
Proof. induction 1 as [|c w Hc _ IH]; [done|]. simpl. rewrite (proj2 (Z.eqb_neq _ _) Hc). by rewrite IH. Qed.
Lemma upto0_app w s : Forall (λ c, c ≠ 0) w → upto0 (w ++ s) = w ++ upto0 s.
Proof. induction 1 as [|c w Hc _ IH]; [done|]. simpl. rewrite (proj2 (Z.eqb_neq _ _) Hc). by rewrite IH. Qed.
Lemma field_cstr n w t : cstr w t → field n t = take n w.
Proof.
  revert w t. induction n as [|n IH]; intros w t H; [done|]. apply cstr_inv in H. unfold field in *. destruct w as [|c w].
  - destruct H as (t' & ->). done.
  - destruct H as (t' & -> & Hc & H). simpl. rewrite (proj2 (Z.eqb_neq _ _) Hc). by rewrite (IH w).
Qed.

Lemma strncmp_spec n p q :
  readable n p → readable n q → ∃ r, strncmp p q n = Some r ∧ (r = 0 ↔ field n p = field n q).
Proof.
  revert p q. induction n as [|n IH]; intros p q Hp Hq; [exists 0; split; [done|]; by split|].
  assert (∀ s, readable (S n) s → ∃ c s', s = c :: s' ∧ (c ≠ 0 → readable n s')) as Hread.
  { intros [|c s'] [H|H]; simpl in H; [lia|by apply not_elem_of_nil in H|..]; exists c, s'; (split; [done|]);
      intros Hc; [left; lia|right]. by apply elem_of_cons in H as [?|?]. }
  destruct (Hread p Hp) as (a & p' & -> & Hp'). destruct (Hread q Hq) as (b & q' & -> & Hq').
  unfold field in *. simpl. destruct (Z.eqb_spec a 0) as [->|Ha].
  - exists (0 - b). split; [done|]. destruct (Z.eqb_spec b 0) as [->|Hb]; [done|]. split; [lia|done].
  - destruct (Z.eqb_spec a b) as [<-|Hne].
    + rewrite (proj2 (Z.eqb_neq _ _) Ha). destruct (IH p' q') as (r & -> & Hr); [auto..|].
      exists r. split; [done|]. rewrite Hr. split; [by intros ->|by intros [= ->]].
    + exists (a - b). split; [done|]. split; [lia|]. destruct (Z.eqb_spec b 0); [done|]. by intros [= ? _].
Qed.

Lemma zero_fill_spec n s : (n ≤ length s)%nat → zero_fill s n = Some (replicate n 0 ++ drop n s).
Proof.
  revert s. induction n as [|n IH]; intros s Hn; [done|]. destruct s as [|x s]; simpl in Hn; [lia|].
  simpl. by rewrite IH by lia.
Qed.
Lemma strncpy_spec n s w t :
  cstr w t → (n ≤ length s)%nat → strncpy s t n = Some (take n (w ++ replicate n 0) ++ drop n s).
Proof.
  revert s w t. induction n as [|n IH]; intros s w t Ht Hn; [by rewrite take_0|].
  destruct s as [|x s]; simpl in Hn; [lia|]. apply cstr_inv in Ht. destruct w as [|c w].
  - destruct Ht as (t' & ->). simpl. rewrite zero_fill_spec by lia. simpl.
    by rewrite take_ge by (rewrite length_replicate; lia).
  - destruct Ht as (t' & -> & Hc & Ht). simpl. rewrite (proj2 (Z.eqb_neq _ _) Hc).
    rewrite (IH s w t') by (done || lia). simpl. do 2 f_equal.
    change (0 :: replicate n 0) with (replicate (S n) 0). rewrite replicate_S_end, app_assoc.
    rewrite (take_app_le (w ++ replicate n 0)); [done|]. rewrite length_app, length_replicate. lia.
Qed.

Lemma strncpy_field n s t :
  readable n t → (n ≤ length s)%nat → strncpy s t n = Some (take n (field n t ++ replicate n 0) ++ drop n s).
Proof.
  revert s t. induction n as [|n IH]; intros s t Ht Hn; [by rewrite take_0|].
  destruct s as [|x s]; simpl in Hn; [lia|].
  destruct t as [|c t]; [destruct Ht as [Ht|Ht]; [simpl in Ht; lia|by apply not_elem_of_nil in Ht]|].
  unfold field. simpl. destruct (Z.eqb_spec c 0) as [->|Hc].
  - rewrite zero_fill_spec by lia. simpl. by rewrite take_ge by (rewrite length_replicate; lia).
  - assert (readable n t) as Ht'.
    { destruct Ht as [Ht|Ht]; [left; simpl in Ht; lia|right]. by apply elem_of_cons in Ht as [?|?]. }
    rewrite (IH s t) by (done || lia). unfold field. simpl. do 2 f_equal.
    change (0 :: replicate n 0) with (replicate (S n) 0). rewrite replicate_S_end, app_assoc.
    rewrite (take_app_le (upto0 (take n t) ++ replicate n 0)); [done|]. rewrite length_app, length_replicate. lia.
Qed.

Lemma field_strncpy n w s : Forall (λ c, c ≠ 0) w →
  field n (take n (w ++ replicate n 0) ++ s) = take n w.
Proof.
  intros Hw. unfold field. rewrite take_app_length' by (rewrite length_take, length_app, length_replicate; lia).
  rewrite take_app. rewrite upto0_app by (by apply Forall_take).
  rewrite take_replicate. destruct (_ `min` _)%nat; simpl; by rewrite app_nil_r.
Qed.

Lemma safestrcpy_spec n s w t :
  cstr w t → (n < length s)%nat → ∃ r, safestrcpy_loop s t n = Some r ∧
    length r = length s ∧ cstr (take n w) r ∧ drop (S n) r = drop (S n) s.
Proof.
  revert s w t. induction n as [|n IH]; intros s w t Ht Hn; (destruct s as [|x s]; simpl in Hn; [lia|]).
  { exists (0 :: s). split; [done|]. split; [done|]. split; [|done]. exists s. split; [done|constructor]. }
  apply cstr_inv in Ht. destruct w as [|c w].
  - destruct Ht as (t' & ->). destruct s as [|y s]; simpl in Hn; [lia|]. exists (0 :: 0 :: s).
    split; [done|]. split; [done|]. split; [|done]. by exists (0 :: s).
  - destruct Ht as (t' & -> & Hc & Ht).
    destruct (IH s w t' Ht ltac:(lia)) as (r & E & Hl & Hcs & Hdr).
    exists (c :: r). simpl. rewrite (proj2 (Z.eqb_neq _ _) Hc), E. simpl.
    split; [done|]. split; [lia|]. split; [|done]. by apply cstr_cons.
Qed.

Lemma strlen_spec w t : cstr w t → strlen t = Some (Z.of_nat (length w)).
Proof.
  revert t. induction w as [|c w IH]; intros t Ht; apply cstr_inv in Ht.
  - destruct Ht as (t' & ->). done.
  - destruct Ht as (t' & -> & Hc & Ht). simpl. rewrite (proj2 (Z.eqb_neq _ _) Hc), (IH t' Ht). simpl. f_equal. lia.
Qed.
End Cstr.

(** A name stored in a field of [n] characters with [strncpy] is found
    again by [strncmp] with the same [n]: the comparison gives 0 exactly for the
    strings with the same first [n] characters, and for no other; the copy
    touches only the field.  [safestrcpy] stores the first [n - 1] characters,
    always terminated. *)
Theorem name_roundtrip (s t u w v : list Z) (n : nat) :
  cstr w t → cstr v u → (n ≤ length s)%nat → (0 < n)%nat →
  (∃ f r, strncpy s t n = Some f ∧ length f = length s ∧ drop n f = drop n s ∧
     strncmp u f n = Some r ∧ (r = 0 ↔ take n v = take n w)) ∧
  ∃ f, safestrcpy s t (Z.of_nat n) = Some f ∧ length f = length s ∧ drop n f = drop n s ∧
     cstr (take (n - 1) w) f ∧ strlen f = Some (Z.min (Z.of_nat n - 1) (Z.of_nat (length w))).
Proof.
  intros Ht Hu Hn Hp. split.
  - assert (Forall (λ c, c ≠ 0) w) as Hw by (by destruct Ht as (? & _ & ?)).
    assert (length (take n (w ++ replicate n 0)) = n) as Hl by (rewrite length_take, length_app, length_replicate; lia).
    destruct (strncmp_spec n u (take n (w ++ replicate n 0) ++ drop n s)) as (r & E & Hr).
    + by eapply cstr_readable.
    + left. rewrite length_app, Hl. lia.
    + eexists _, r. split; [by apply strncpy_spec|]. split; [rewrite length_app, length_drop, Hl; lia|].
      split; [by rewrite drop_app_length'|]. split; [done|].
      by rewrite Hr, field_strncpy, (field_cstr _ v) by done.
  - destruct (safestrcpy_spec (n - 1) s w t Ht ltac:(lia)) as (f & E & Hl & Hc & Hd). exists f.
    unfold safestrcpy. rewrite (proj2 (Z.leb_gt _ _)) by lia.
    replace (Z.to_nat (Z.of_nat n - 1)) with (n - 1)%nat by lia. replace (S (n - 1)) with n in Hd by lia.
    split_and!; [done..|]. rewrite (strlen_spec _ _ Hc), length_take. f_equal. lia.
Qed.

Lemma name_roundtrip_witness :
  ∃ f, strncpy [9; 9; 9; 9] [97; 98; 99; 100; 0] 3 = Some f ∧ strncmp [97; 98; 99; 101; 0] f 3 = Some 0.
Proof.
  destruct (name_roundtrip [9; 9; 9; 9] [97; 98; 99; 100; 0] [97; 98; 99; 101; 0] [97; 98; 99; 100] [97; 98; 99; 101] 3)
    as [(f & r & E1 & _ & _ & E2 & Hr) _].
  - exists []. split; [done|]. repeat constructor; lia.
  - exists []. split; [done|]. repeat constructor; lia.
  - simpl; lia.
  - lia.
  - exists f. split; [exact E1|]. rewrite E2. f_equal. by apply Hr.
Defined.
