(* ===== verification/Console.v ===== *)
(** * Console: console output (the first half of console.c, uartputc of uart.c)

    Characters go to the serial port and to the CGA screen.  [cprintf] is shown
    to terminate without panicking, to print numbers as canonical numerals and
    to leave everything but the two output devices untouched. *)

From S2P Require Import Prelude State Lock.

Definition BACKSPACE : Z := 0x100.
Definition NL : Z := 10.

(** The wait for the transmitter gives up after 128 polls; the byte is sent either way. *)
Definition uartputc (c : Z) : K unit :=
  u ← gets k_uart;
  when u (modify (λ s, set_k_output (u8 c :: k_output s) s)).

(** A store to the cell [i] of the CGA memory. *)
Definition crt_store (i v : Z) (crt : list Z) : K (list Z) :=
  if (0 <=? i) && (i <? Z.of_nat (length crt)) then mret (<[Z.to_nat i := v]> crt)
  else fault "crt".

(** [cgaputc] once the cursor has moved to [pos]. *)
Definition cga_finish (pos : Z) (crt : list Z) : K unit :=
  if (pos <? 0) || (pos >? 25 * 80) then panic "pos under/overflow" else
  let '(pos, crt) :=
    if pos / 80 >=? 24 then
      let crt := splice 0 (slice 80 (23 * 80) crt) crt in
      let pos := pos - 80 in
      (pos, splice (Z.to_nat pos) (replicate (Z.to_nat (24 * 80 - pos)) 0) crt)
    else (pos, crt) in
  crt ← crt_store pos (Z.lor 32 0x0700) crt;
  modify (set_k_cga (mkCga (u16 pos) crt)).

Definition cgaputc (c : Z) : K unit :=
  g ← gets k_cga;
  let pos := cga_pos g in
  if c =? NL then cga_finish (pos + (80 - pos mod 80)) (cga_crt g)
  else if c =? BACKSPACE then cga_finish (if pos >? 0 then pos - 1 else pos) (cga_crt g)
  else crt ← crt_store pos (Z.lor (Z.land c 0xff) 0x0700) (cga_crt g); cga_finish (pos + 1) crt.

Definition consputc (c : Z) : K unit :=
  p ← gets k_panicked;
  if (p : bool) then hang else
  (if c =? BACKSPACE then uartputc 8 ;; uartputc 32 ;; uartputc 8 else uartputc c) ;;
  cgaputc c.

(** [digits] of [printint] and the cells of its [buf[16]]. *)
Definition digits : list Z := str "0123456789abcdef".

(** The do-while loop of [printint]: the digits of [x], least significant first.
    At most 32 digits are needed for a 32-bit number in any base from 2 on. *)
Fixpoint digit_loop (fuel : nat) (base x : Z) : list Z :=
  match fuel with
  | O => []
  | S fuel' =>
      default 0 (digits !! Z.to_nat (x mod base)) ::
      (if x / base =? 0 then [] else digit_loop fuel' base (x / base))
  end.

(** The contents of [buf] when the last loop of [printint] starts. *)
Definition printint_buf (xx base : Z) (sign : bool) : list Z :=
  let neg := sign && (xx <? 0) in
  let x := if neg then u32 (- xx) else u32 xx in
  digit_loop 32 base x ++ (if neg then [ch "-"] else []).

Definition printint (xx base : Z) (sign : bool) : K unit :=
  let buf := printint_buf xx base sign in
  if Nat.ltb 16 (length buf) then fault "printint: buf" else
  forM (rev buf) consputc.

(** An argument of [cprintf]: a 32-bit word, or a string pointer ([None] is null). *)
Inductive carg := CInt (w : Z) | CStr (s : option (list Z)).

(** The loop of [cprintf] on the rest of the format. *)
Fixpoint cprintf_loop (fmt : list Z) (argp : list carg) : K unit :=
  match fmt with
  | [] => mret tt
  | c :: fmt =>
      if negb (c =? ch "%") then consputc c ;; cprintf_loop fmt argp else
      match fmt with
      | [] => mret tt
      | c :: fmt =>
          if c =? ch "d" then
            match argp with
            | CInt w :: argp => printint (s32 w) 10 true ;; cprintf_loop fmt argp
            | _ => fault "cprintf: argument"
            end
          else if (c =? ch "x") || (c =? ch "p") then
            match argp with
            | CInt w :: argp => printint (s32 w) 16 false ;; cprintf_loop fmt argp
            | _ => fault "cprintf: argument"
            end
          else if c =? ch "s" then
            match argp with
            | CStr s :: argp =>
                forM (default (str "(null)") s) (λ c, consputc (s8 c)) ;; cprintf_loop fmt argp
            | _ => fault "cprintf: argument"
            end
          else if c =? ch "%" then consputc (ch "%") ;; cprintf_loop fmt argp
          else consputc (ch "%") ;; consputc c ;; cprintf_loop fmt argp
      end
  end.

Definition cprintf (fmt : list Z) (args : list carg) : K unit :=
  locking ← gets k_conslocking;
  when locking (acquire Lcons) ;;
  cprintf_loop fmt args ;;
  when locking (release Lcons).

(** ** The screen *)

(** The cursor stays on the first 24 rows. *)
Definition cga_ok (g : cga) : Prop :=
  0 ≤ cga_pos g < 24 * 80 ∧ length (cga_crt g) = Z.to_nat (25 * 80).

Definition cons_ok (s : kernel) : Prop := k_panicked s = false ∧ cga_ok (k_cga s).

Lemma wp_crt_store i v crt (Q : list Z → kernel → Prop) s :
  0 ≤ i < Z.of_nat (length crt) → Q (<[Z.to_nat i := v]> crt) s → wp (crt_store i v crt) Q s.
Proof. intros Hi HQ. unfold crt_store. ztest. by apply wp_ret. Qed.

(** The part of [cgaputc] after the cursor has moved. *)
Lemma wp_cga_finish pos crt (Q : unit → kernel → Prop) s :
  0 ≤ pos ≤ 24 * 80 → length crt = Z.to_nat (25 * 80) →
  (∀ g, cga_ok g → Q tt (set_k_cga g s)) →
  wp (cga_finish pos crt) Q s.
Proof.
  intros Hp Hl HQ. pose proof (Z.div_mod pos 80 ltac:(lia)).
  pose proof (Z.mod_pos_bound pos 80 ltac:(lia)).
  assert (∀ p l, 0 ≤ p < 24 * 80 → length l = Z.to_nat (25 * 80) →
    wp (crt ← crt_store p (Z.lor 32 0x0700) l; modify (set_k_cga (mkCga (u16 p) crt))) Q s) as Hf.
  { intros p l Hp' Hl'. apply wp_bind, wp_crt_store; [lia|]. apply wp_modify, HQ.
    unfold cga_ok. simpl. rewrite length_insert. unfold u16. by rewrite Z.mod_small by lia. }
  unfold cga_finish. rewrite Z.geb_leb.
  destruct (Z.leb_spec 24 (pos / 80)); ztest; apply Hf; try done; [lia| |lia].
  assert (length (slice 80 (23 * 80) crt) = (23 * 80)%nat) as E by (apply length_slice; lia).
  rewrite !length_splice; [done|rewrite E; lia|].
  rewrite length_replicate, length_splice by (rewrite E; lia). lia.
Qed.

Lemma wp_cgaputc c (Q : unit → kernel → Prop) s :
  cga_ok (k_cga s) → (∀ g, cga_ok g → Q tt (set_k_cga g s)) → wp (cgaputc c) Q s.
Proof.
  intros [Hp Hl] HQ. unfold cgaputc. apply wp_bind, wp_gets.
  pose proof (Z.div_mod (cga_pos (k_cga s)) 80 ltac:(lia)).
  pose proof (Z.mod_pos_bound (cga_pos (k_cga s)) 80 ltac:(lia)).
  destruct (c =? NL); [|destruct (c =? BACKSPACE)].
  - apply wp_cga_finish; [lia|done|done].
  - rewrite Z.gtb_ltb. apply wp_cga_finish; [|done|done].
    destruct (Z.ltb_spec 0 (cga_pos (k_cga s))); lia.
  - apply wp_bind, wp_crt_store; [lia|].
    apply wp_cga_finish; [lia|by rewrite length_insert|done].
Qed.

(** What a character given to [consputc] sends to the serial port. *)
Definition serial (c : Z) : list Z := if c =? BACKSPACE then [8; 32; 8] else [u8 c].
(** The state after the characters [cs] have been printed; [g] is the screen. *)
Definition printed (cs : list Z) (g : cga) (s : kernel) : kernel :=
  set_k_cga g (set_k_output
    (if k_uart s then rev (concat (map serial cs)) ++ k_output s else k_output s) s).

Lemma printed_nil s : printed [] (k_cga s) s = s.
Proof. unfold printed. destruct s; simpl. by destruct k_uart. Qed.
Lemma printed_app cs cs' g g' s :
  printed cs' g' (printed cs g s) = printed (cs ++ cs') g' s.
Proof.
  unfold printed. destruct s; simpl. destruct k_uart; [|done].
  by rewrite map_app, concat_app, rev_app_distr, (assoc_L (++)).
Qed.
Lemma printed_ok cs g s : cons_ok s → cga_ok g → cons_ok (printed cs g s).
Proof. by intros [] ?. Qed.

Lemma wp_uartputc c (Q : unit → kernel → Prop) s :
  Q tt (set_k_output (if k_uart s then u8 c :: k_output s else k_output s) s) → wp (uartputc c) Q s.
Proof.
  intros HQ. unfold uartputc. apply wp_bind, wp_gets. destruct (k_uart s) eqn:E; simpl.
  - by apply wp_modify.
  - apply wp_ret. by destruct s.
Qed.

Lemma wp_consputc c (Q : unit → kernel → Prop) s :
  cons_ok s → (∀ g, cga_ok g → Q tt (printed [c] g s)) → wp (consputc c) Q s.
Proof.
  intros [Hp Hg] HQ. unfold consputc. apply wp_bind, wp_gets. rewrite Hp. apply wp_bind.
  unfold printed, serial in HQ. simpl in HQ.
  destruct (c =? BACKSPACE).
  - apply wp_bind, wp_uartputc, wp_bind, wp_uartputc, wp_uartputc. apply wp_cgaputc; [done|].
    intros g Hg'. specialize (HQ g Hg'). destruct s; simpl in *. by destruct k_uart.
  - apply wp_uartputc, wp_cgaputc; [done|]. intros g Hg'. specialize (HQ g Hg').
    destruct s; simpl in *. by destruct k_uart.
Qed.

Lemma wp_emit {A} (f : A → Z) (l : list A) (Q : unit → kernel → Prop) s :
  cons_ok s → (∀ g, cga_ok g → Q tt (printed (map f l) g s)) →
  wp (forM l (λ x, consputc (f x))) Q s.
Proof.
  revert s. induction l as [|x l IH]; intros s Hs HQ; simpl.
  - apply wp_ret. rewrite <- (printed_nil s). apply HQ, Hs.
  - apply wp_bind, wp_consputc; [done|]. intros g Hg.
    apply IH; [by apply printed_ok|]. intros g' Hg'. rewrite printed_app. by apply HQ.
Qed.

(** ** Numerals *)

Definition digit (d : Z) : Z := default 0 (digits !! Z.to_nat d).
(** The number a list of digits denotes, least significant digit first. *)
Definition value (base : Z) (ds : list Z) : Z := foldr (λ d a, d + base * a) 0 ds.

(** [txt] is the numeral of [z] without superfluous zeros. *)
Definition numeral (base z : Z) (txt : list Z) : Prop :=
  ∃ ds, txt = (if z <? 0 then [ch "-"] else []) ++ map digit ds ∧
    Forall (λ d, 0 ≤ d < base) ds ∧ value base (rev ds) = Z.abs z ∧
    (ds = [0] ∨ ∃ d ds', ds = d :: ds' ∧ d ≠ 0).

Lemma digit_loop_spec fuel base x :
  2 ≤ base → 0 ≤ x < base ^ Z.of_nat fuel → (0 < fuel)%nat →
  ∃ ds, digit_loop fuel base x = map digit ds ∧ Forall (λ d, 0 ≤ d < base) ds ∧
    value base ds = x ∧ (ds = [0] ∨ ∃ d ds', ds = ds' ++ [d] ∧ d ≠ 0) ∧
    ∀ k, (0 < k)%nat → x < base ^ Z.of_nat k → (length ds ≤ k)%nat.
Proof.
  intros Hb. revert x. induction fuel as [|fuel IH]; intros x Hx Hf; [lia|]. cbn [digit_loop].
  pose proof (Z.div_mod x base ltac:(lia)). pose proof (Z.mod_pos_bound x base ltac:(lia)).
  destruct (Z.eqb_spec (x / base) 0) as [E|E].
  - exists [x mod base]. split_and!; [done|by apply Forall_singleton|simpl; lia| |simpl; lia].
    destruct (decide (x mod base = 0)) as [E0|E0]; [left; by rewrite E0|right; by exists (x mod base), []].
  - assert (0 ≤ x / base) by (apply Z.div_pos; lia).
    assert (0 < fuel)%nat.
    { destruct fuel; [|lia]. change (Z.of_nat 1) with 1 in Hx. rewrite Z.pow_1_r in Hx.
      rewrite Z.div_small in E; lia. }
    destruct (IH (x / base)) as (ds & E1 & E2 & E3 & E4 & E5); [|done|].
    { split; [done|]. rewrite Nat2Z.inj_succ, Z.pow_succ_r in Hx by lia.
      apply Z.div_lt_upper_bound; lia. }
    exists (x mod base :: ds). split_and!.
    + simpl. by rewrite E1.
    + by constructor.
    + simpl. fold (value base ds). rewrite E3. lia.
    + right. destruct E4 as [->|(d & ds' & -> & Hd)]; [simpl in E3; lia|].
      by exists d, (x mod base :: ds').
    + intros k Hk Hxk. destruct k as [|k]; [lia|].
      rewrite Nat2Z.inj_succ, Z.pow_succ_r in Hxk by lia.
      destruct k as [|k]; [simpl in Hxk; rewrite Z.div_small in E; lia|].
      simpl. apply le_n_S, E5; [lia|]. apply Z.div_lt_upper_bound; lia.
Qed.

Lemma numeral_loop base z x (neg : bool) :
  2 ≤ base ≤ 16 → neg = (z <? 0) → x = Z.abs z → 0 ≤ x < 2 ^ 32 →
  numeral base z (rev (digit_loop 32 base x ++ if neg then [ch "-"] else [])) ∧
  ∀ k, (0 < k)%nat → x < base ^ Z.of_nat k →
    (length (digit_loop 32 base x ++ if neg then [ch "-"] else []) ≤ k + 1)%nat.
Proof.
  intros Hb -> -> Hx.
  assert (2 ^ 32 ≤ base ^ Z.of_nat 32) by (apply Z.pow_le_mono_l; lia).
  destruct (digit_loop_spec 32 base (Z.abs z)) as (ds & E1 & E2 & E3 & E4 & E5); [lia|lia|lia|].
  rewrite E1. split.
  - exists (rev ds). rewrite rev_app_distr, map_rev, rev_involutive. split_and!.
    + by destruct (z <? 0).
    + by apply Forall_rev.
    + done.
    + destruct E4 as [->|(d & ds' & -> & Hd)]; [by left|right].
      rewrite rev_app_distr. by exists d, (rev ds').
  - intros k Hk Hz. specialize (E5 k Hk Hz). rewrite length_app, length_map.
    destruct (z <? 0); simpl; lia.
Qed.

(** The buffer of [printint] for the two ways [cprintf] calls it. *)
Lemma printint_buf_dec w :
  numeral 10 (s32 w) (rev (printint_buf (s32 w) 10 true)) ∧
  (length (printint_buf (s32 w) 10 true) ≤ 16)%nat.
Proof.
  pose proof (s32_range w). unfold printint_buf. simpl andb.
  destruct (numeral_loop 10 (s32 w) (Z.abs (s32 w)) (s32 w <? 0)) as [E1 E2]; [lia|done|done|lia|].
  replace (if s32 w <? 0 then u32 (- s32 w) else u32 (s32 w)) with (Z.abs (s32 w))
    by (destruct (Z.ltb_spec (s32 w) 0); rewrite u32_small; lia).
  split; [done|]. specialize (E2 10%nat). lia.
Qed.

Lemma u32_s32 z : u32 (s32 z) = u32 z.
Proof. unfold u32, s32. rewrite Zminus_mod, Zmod_mod, <- Zminus_mod. f_equal. lia. Qed.

Lemma printint_buf_hex w :
  numeral 16 (u32 w) (rev (printint_buf (s32 w) 16 false)) ∧
  (length (printint_buf (s32 w) 16 false) ≤ 16)%nat.
Proof.
  pose proof (u32_range w). unfold printint_buf. simpl andb. rewrite u32_s32.
  destruct (numeral_loop 16 (u32 w) (u32 w) false) as [E1 E2]; [lia| |lia|lia|].
  { symmetry. apply Z.ltb_ge. lia. }
  split; [done|]. specialize (E2 8%nat). lia.
Qed.

Lemma wp_printint xx base sign (Q : unit → kernel → Prop) s :
  cons_ok s → (length (printint_buf xx base sign) ≤ 16)%nat →
  (∀ g, cga_ok g → Q tt (printed (rev (printint_buf xx base sign)) g s)) →
  wp (printint xx base sign) Q s.
Proof.
  intros Hs Hl HQ. unfold printint. destruct (Nat.ltb_spec 16 (length (printint_buf xx base sign))); [lia|].
  apply (wp_emit id); [done|]. by rewrite map_id.
Qed.

(** ** What [cprintf] prints *)

(** [renders fmt args cs]: the characters the format stands for. *)
Inductive renders : list Z → list carg → list Z → Prop :=
| renders_end args : renders [] args []
| renders_char c fmt args cs : c ≠ ch "%" → renders fmt args cs → renders (c :: fmt) args (c :: cs)
| renders_lone args : renders [ch "%"] args []
| renders_d w fmt args txt cs : numeral 10 (s32 w) txt → renders fmt args cs →
    renders (ch "%" :: ch "d" :: fmt) (CInt w :: args) (txt ++ cs)
| renders_x c w fmt args txt cs : c = ch "x" ∨ c = ch "p" → numeral 16 (u32 w) txt →
    renders fmt args cs → renders (ch "%" :: c :: fmt) (CInt w :: args) (txt ++ cs)
| renders_s p fmt args cs : renders fmt args cs →
    renders (ch "%" :: ch "s" :: fmt) (CStr p :: args) (map s8 (default (str "(null)") p) ++ cs)
| renders_percent fmt args cs : renders fmt args cs →
    renders (ch "%" :: ch "%" :: fmt) args (ch "%" :: cs)
| renders_other c fmt args cs : c ∉ [ch "d"; ch "x"; ch "p"; ch "s"; ch "%"] →
    renders fmt args cs → renders (ch "%" :: c :: fmt) args (ch "%" :: c :: cs).

(** The arguments match the conversions of the format. *)
Fixpoint args_ok (fmt : list Z) (args : list carg) : bool :=
  match fmt with
  | [] => true
  | c :: fmt =>
      if negb (c =? ch "%") then args_ok fmt args else
      match fmt with
      | [] => true
      | c :: fmt =>
          if (c =? ch "d") || (c =? ch "x") || (c =? ch "p") then
            match args with CInt _ :: args => args_ok fmt args | _ => false end
          else if c =? ch "s" then
            match args with CStr _ :: args => args_ok fmt args | _ => false end
          else args_ok fmt args
      end
  end.

Definition prints (fmt : list Z) (args : list carg) (s s' : kernel) : Prop :=
  ∃ cs g, renders fmt args cs ∧ cga_ok g ∧ s' = printed cs g s.

(** One conversion [hd] prints [cs], the loop goes on with the rest. *)
Lemma wp_conversion (hd : K unit) cs fmt fmt' args args' s :
  (∀ Q : unit → kernel → Prop, (∀ g, cga_ok g → Q tt (printed cs g s)) → wp hd Q s) →
  cons_ok s →
  (∀ s1, cons_ok s1 → wp (cprintf_loop fmt' args') (λ _, prints fmt' args' s1) s1) →
  (∀ cs', renders fmt' args' cs' → renders fmt args (cs ++ cs')) →
  wp (hd ;; cprintf_loop fmt' args') (λ _, prints fmt args s) s.
Proof.
  intros Hhd Hs Hrest Hr. apply wp_bind, Hhd. intros g Hg.
  eapply wp_mono; [apply Hrest; by apply printed_ok|].
  intros [] s' (cs' & g' & Hcs & Hg' & ->). exists (cs ++ cs'), g'.
  split_and!; [by apply Hr|done|apply printed_app].
Qed.

Lemma wp_cprintf_loop n fmt args s :
  (length fmt ≤ n)%nat → args_ok fmt args = true → cons_ok s →
  wp (cprintf_loop fmt args) (λ _, prints fmt args s) s.
Proof.
  revert fmt args s. induction n as [|n IH]; intros fmt args s Hn Ha Hs;
    (destruct fmt as [|c fmt]; [apply wp_ret; exists [], (k_cga s);
       rewrite printed_nil; split_and!; [constructor|apply Hs|done]|]); simpl in Hn; [lia|].
  cbn [cprintf_loop args_ok] in *. destruct (Z.eqb_spec c (ch "%")) as [->|Hc]; simpl negb in *; cycle 1.
  { apply (wp_conversion (consputc c) [c]); [intros; by apply wp_consputc|done|intros; apply IH; by try lia|].
    intros cs' Hr. by constructor. }
  destruct fmt as [|c fmt]; [apply wp_ret; exists [], (k_cga s); rewrite printed_nil;
    split_and!; [apply renders_lone|apply Hs|done]|].
  simpl in Hn. destruct (Z.eqb_spec c (ch "d")) as [->|Hd].
  { simpl in Ha. destruct args as [|[w|] args]; [done| |done].
    destruct (printint_buf_dec w). eapply wp_conversion; [intros; by apply wp_printint|done|
      intros; apply IH; by try lia|]. intros cs' Hr. by constructor. }
  destruct ((c =? ch "x") || (c =? ch "p")) eqn:Ex.
  { rewrite <- orb_assoc, Ex, orb_true_r in Ha. destruct args as [|[w|] args]; [done| |done].
    destruct (printint_buf_hex w). eapply wp_conversion; [intros; by apply wp_printint|done|
      intros; apply IH; by try lia|]. intros cs' Hr. constructor; [|done|done].
    apply orb_true_iff in Ex as [Ex|Ex]; apply Z.eqb_eq in Ex; auto. }
  rewrite <- orb_assoc, Ex in Ha. simpl orb in Ha. destruct (Z.eqb_spec c (ch "s")) as [->|Hs'].
  { destruct args as [|[|p] args]; [done|done|].
    eapply wp_conversion; [intros; by apply (wp_emit s8)|done|intros; apply IH; by try lia|].
    intros cs' Hr. by constructor. }
  apply orb_false_iff in Ex as [Ex Ep]. apply Z.eqb_neq in Ex, Ep.
  destruct (Z.eqb_spec c (ch "%")) as [->|Hp].
  - eapply (wp_conversion (consputc (ch "%")) [ch "%"]);
      [intros; by apply wp_consputc|done|intros; apply IH; by try lia|]. intros cs' Hr. by constructor.
  - apply (wp_assoc (consputc (ch "%")) (λ _, consputc c)).
    apply (wp_conversion (consputc (ch "%") ;; consputc c) [ch "%"; c]);
      [|done|intros; apply IH; by try lia|].
    + intros Q HQ. apply wp_bind, wp_consputc; [done|]. intros g Hg.
      apply wp_consputc; [by apply printed_ok|]. intros g' Hg'. rewrite printed_app. by apply HQ.
    + intros cs' Hr. constructor; [|done]. repeat (apply not_elem_of_cons; split; [assumption|]). apply not_elem_of_nil.
Qed.

Lemma wp_cprintf fmt args s :
  args_ok fmt args = true → cons_ok s → Lcons ∉ k_held s →
  wp (cprintf fmt args) (λ _, prints fmt args s) s.
Proof.
  intros Ha Hs Hl. unfold cprintf. apply wp_bind, wp_gets. apply wp_bind.
  destruct (k_conslocking s); simpl.
  - apply wp_acquire; [done|]. apply wp_bind.
    eapply wp_mono; [by apply (wp_cprintf_loop (length fmt))|].
    intros [] s' (cs & g & Hr & Hg & ->). eapply wp_release; [reflexivity|done|].
    exists cs, g. split_and!; [done|done|]. unfold printed. by destruct s.
  - apply wp_ret, wp_bind. eapply wp_mono; [by apply (wp_cprintf_loop (length fmt))|].
    intros [] s' H. by apply wp_ret.
Qed.

(** [cprintf], given arguments that match its format, returns without
    panicking: it prints to the serial port the characters the format stands
    for, numbers as canonical numerals and null strings as "(null)", keeps the
    cursor on the screen, and changes nothing else; the console lock is free
    again. *)
Theorem cprintf_prints fmt args s :
  args_ok fmt args = true → cons_ok s → Lcons ∉ k_held s →
  wp (cprintf fmt args) (λ _ s', prints fmt args s s' ∧ cons_ok s') s.
Proof.
  intros Ha Hs Hl. eapply wp_mono; [by apply wp_cprintf|].
  intros [] s' (cs & g & Hr & Hg & ->). split; [by exists cs, g|by apply printed_ok].
Qed.

Lemma cprintf_prints_witness :
  wp (cprintf (str "pid %d at %x") [CInt (2 ^ 32 - 7); CInt 255])
     (λ _ s', (prints (str "pid %d at %x") [CInt (2 ^ 32 - 7); CInt 255] kernel0 s') ∧ cons_ok s') kernel0.
Proof.
  apply (cprintf_prints (str "pid %d at %x") [CInt (2 ^ 32 - 7); CInt 255] kernel0);
    [reflexivity|split; [reflexivity|split; [split; [apply Z.leb_le|apply Z.ltb_lt]; reflexivity|reflexivity]]|].
  apply not_elem_of_nil.
Defined.
