(* ===== verification/Printf.v ===== *)
(** * Printf: formatted output of the user library (printf.c) and of the tick
    device (ticks.c)

    [s_printf] writes through a [putFunction_t]; here an operation of a monad
    over the output.  An output buffer is its bytes, a pointer into it an
    offset.  [uint] and [int] arguments that the code compares with each other
    are converted to unsigned first, as C does. *)

From S2P Require Import Prelude State Console Strings.

(** A [putFunction_t] for a fixed [fd]: offset of [outbuffer], [length],
    [index], [c]. *)
Definition putFunction_t (S : Type) : Type := Z → Z → Z → Z → M S unit.

Definition s_sputc : putFunction_t (list Z) := λ outbuffer length index c,
  if u32 index <? u32 length then st8 (Z.to_nat (outbuffer + u32 index)) c else mret tt.

(** ** Numbers *)

Definition udigits : list Z := str "0123456789ABCDEF".
Definition udigit (d : Z) : Z := default 0 (udigits !! Z.to_nat d).

(** The digit loop with [room] cells left before the last one. *)
Fixpoint rev_digits (room : nat) (x base : Z) : list Z :=
  match room with
  | O => []
  | S room' => if x =? 0 then [] else udigit (x mod base) :: rev_digits room' (x / base) base
  end.
(** What [outbuf] holds on return, for a buffer of [length] cells. *)
Definition s_getReverseDigits (length_ : nat) (xx base : Z) (sgn : bool) : list Z :=
  let neg := sgn && (xx <? 0) in
  let x := if neg then u32 (- xx) else u32 xx in
  let out := rev_digits (length_ - 1) x base in
  let out := if (0 =? xx) && Nat.ltb (length out + 1) length_ then out ++ [udigit 0] else out in
  if neg && Nat.ltb (length out) length_ then out ++ [ch "-"] else out.

(** ticks.c tests the argument [x], which the loop does not change, instead of
    the quotient [a]. *)
Fixpoint rev_digits_ticks (room : nat) (x a base : Z) : list Z :=
  match room with
  | O => []
  | S room' => if x =? 0 then [] else udigit (a mod base) :: rev_digits_ticks room' x (a / base) base
  end.
Definition s_getReverse (length_ : nat) (x base : Z) (sgn : bool) : list Z :=
  let n := sgn && (x <? 0) in
  let a := if n then u32 (- x) else u32 x in
  let out := rev_digits_ticks (length_ - 1) x a base in
  let out := if (0 =? x) && Nat.ltb (length out + 1) length_ then out ++ [udigit 0] else out in
  if n && Nat.ltb (length out) length_ then out ++ [ch "-"] else out.

Section Print.
Context {S : Type} (putcFunction : putFunction_t S).
(** [s_getReverseDigits] in printf.c, [s_getReverse] in ticks.c. *)
Context (getReverse : nat → Z → Z → bool → list Z).

(** The loop of [s_printint] over the characters still to put. *)
Fixpoint printint_loop (cs : list Z) (outbuf len j : Z) : M S unit :=
  match cs with
  | [] => mret tt
  | c :: cs' =>
      if j <? u32 len then putcFunction outbuf len j c ;; printint_loop cs' outbuf len (j + 1)
      else mret tt
  end.
Definition s_printint (outbuf len xx base : Z) (sgn : bool) : M S Z :=
  let localBuffer := getReverse 16%nat xx base sgn in
  printint_loop (rev localBuffer) outbuf len 0 ;;
  mret (Z.of_nat (length localBuffer)).

(** The loop of the ['s'] case. *)
Fixpoint puts_loop (s : list Z) (outbuffer len outindex : Z) : M S Z :=
  match s with
  | [] => mret outindex
  | c :: s' => putcFunction outbuffer len outindex c ;; puts_loop s' outbuffer len (u32 (outindex + 1))
  end.

(** The loop of [s_printf] on the rest of the format; [state] is [state == '%']. *)
Fixpoint s_printf_loop (fmt : list Z) (state : bool) (outbuffer len outindex : Z) (ap : list carg) : M S Z :=
  match fmt with
  | [] => mret outindex
  | c :: fmt' =>
      if negb (outindex <? u32 len) then mret outindex else
      let c := Z.land c 0xff in
      if negb state then
        if c =? ch "%" then s_printf_loop fmt' true outbuffer len outindex ap
        else putcFunction outbuffer len outindex c ;;
             s_printf_loop fmt' false outbuffer len (u32 (outindex + 1)) ap
      else if c =? ch "d" then
        match ap with
        | CInt w :: ap' =>
            k ← s_printint (outbuffer + outindex) (len - outindex) (s32 w) 10 true;
            s_printf_loop fmt' false outbuffer len (u32 (outindex + k)) ap'
        | _ => fault "s_printf: argument"
        end
      else if (c =? ch "x") || (c =? ch "p") then
        match ap with
        | CInt w :: ap' =>
            k ← s_printint (outbuffer + outindex) (len - outindex) (s32 w) 16 false;
            s_printf_loop fmt' false outbuffer len (u32 (outindex + k)) ap'
        | _ => fault "s_printf: argument"
        end
      else if c =? ch "s" then
        match ap with
        | CStr s :: ap' =>
            o ← puts_loop (default (str "(null)") s) outbuffer len outindex;
            s_printf_loop fmt' false outbuffer len o ap'
        | _ => fault "s_printf: argument"
        end
      else if c =? ch "c" then
        match ap with
        | CInt w :: ap' =>
            putcFunction outbuffer len outindex w ;;
            s_printf_loop fmt' false outbuffer len (u32 (outindex + 1)) ap'
        | _ => fault "s_printf: argument"
        end
      else if c =? ch "%" then
        putcFunction outbuffer len outindex c ;;
        s_printf_loop fmt' false outbuffer len (u32 (outindex + 1)) ap
      else
        putcFunction outbuffer len outindex (ch "%") ;;
        putcFunction outbuffer len (u32 (outindex + 1)) c ;;
        s_printf_loop fmt' false outbuffer len (u32 (outindex + 2)) ap
  end.

Definition s_min (a b : Z) : Z := if a <? b then a else b.
Definition s_printf (n : Z) (fmt : list Z) (ap : list carg) : M S Z :=
  let length := s32 (n - 1) in
  outindex ← s_printf_loop fmt false 0 length 0 ap;
  mret (s32 (s_min (u32 length) outindex)).
End Print.

(** [snprintf] of printf.c, and the copy of it in ticks.c. *)
Definition snprintf_with (getReverse : nat → Z → Z → bool → list Z) (n : Z) (fmt : list Z) (ap : list carg) : Mem Z :=
  count ← s_printf s_sputc getReverse n fmt ap;
  when (u32 count <? u32 n) (st8 (Z.to_nat (u32 count)) 0) ;;
  mret (s32 count).
Definition snprintf : Z → list Z → list carg → Mem Z := snprintf_with s_getReverseDigits.
Definition ticks_snprintf : Z → list Z → list carg → Mem Z := snprintf_with s_getReverse.

(** ** The tick device (ticks.c) *)

(** [s_cnputs]: the bytes stored at [outbuffer] and the result.  [string] is
    without its final NUL. *)
Definition cnputs_bytes (n : Z) (string : list Z) : list Z :=
  let out := take (Z.to_nat n) string in
  out ++ (if Z.of_nat (length out) <? n then [0] else []).
Definition ticks_cnputs (n : Z) (string : list Z) : list Z * Z :=
  (cnputs_bytes n string, Z.of_nat (length (take (Z.to_nat n) string)) + 1).

(** [ticksread] at time [ticks]: the bytes stored at [dst] and the result. *)
Definition bufferSize : Z := 512.
Definition ticks_text (ticks : Z) : option (list Z) :=
  match ticks_snprintf bufferSize (str "%d") [CInt (s32 ticks)] (replicate (Z.to_nat bufferSize) 0) with
  | Ok _ buf => Some (upto0 buf)
  | _ => None
  end.

(** ** What is printed *)

(** The text of a format with its arguments, [None] if they do not match. *)
Fixpoint render (getReverse : nat → Z → Z → bool → list Z) (fmt : list Z) (state : bool) (ap : list carg) : option (list Z) :=
  let num w base sgn := map u8 (rev (getReverse 16%nat (s32 w) base sgn)) in
  match fmt with
  | [] => Some []
  | c :: fmt' =>
      let c := u8 c in
      if negb state then
        if c =? ch "%" then render getReverse fmt' true ap else cons c <$> render getReverse fmt' false ap
      else if c =? ch "d" then
        match ap with CInt w :: ap' => app (num w 10 true) <$> render getReverse fmt' false ap' | _ => None end
      else if (c =? ch "x") || (c =? ch "p") then
        match ap with CInt w :: ap' => app (num w 16 false) <$> render getReverse fmt' false ap' | _ => None end
      else if c =? ch "s" then
        match ap with
        | CStr s :: ap' => app (map u8 (default (str "(null)") s)) <$> render getReverse fmt' false ap'
        | _ => None
        end
      else if c =? ch "c" then
        match ap with CInt w :: ap' => cons (u8 w) <$> render getReverse fmt' false ap' | _ => None end
      else if c =? ch "%" then cons c <$> render getReverse fmt' false ap
      else app [ch "%"; c] <$> render getReverse fmt' false ap
  end.

Section Sprintf.
Context (getReverse : nat → Z → Z → bool → list Z).
(** The first [L] cells of the buffer [buf] receive the text. *)
Context (buf : list Z) (L : nat).
Hypothesis HL : (L ≤ length buf)%nat.
Hypothesis HL31 : Z.of_nat L < 2 ^ 31.

(** The buffer after the text [out]. *)
Definition sofar (out : list Z) : list Z := splice 0 (take L out) buf.

Lemma sofar_full out xs : (L ≤ length out)%nat → sofar (out ++ xs) = sofar out.
Proof. intros H. unfold sofar. by rewrite take_app_le by done. Qed.

Lemma sofar_snoc out c : (length out < L)%nat → <[length out := c]> (sofar out) = sofar (out ++ [c]).
Proof.
  intros H. unfold sofar. rewrite !take_ge by (rewrite ?length_app; simpl; lia).
  rewrite splice_app by (simpl; lia). simpl. rewrite splice_cons, splice_nil; [done|].
  rewrite length_splice; simpl; lia.
Qed.

Lemma length_sofar out : length (sofar out) = length buf.
Proof. unfold sofar. apply length_splice. rewrite length_take. lia. Qed.

(** Putting a character at [outbuffer + index] when that is the end of the text. *)
Lemma wp_s_sputc off len index c out (Q : unit → list Z → Prop) :
  0 ≤ off → 0 ≤ index → off + index = Z.of_nat (length out) → Z.of_nat (length out) < 2 ^ 32 →
  (u32 len = Z.of_nat L - off ∨ Z.of_nat L ≤ off + index ∧ u32 len ≤ index) →
  Q tt (sofar (out ++ [u8 c])) → wp (s_sputc off len index c) Q (sofar out).
Proof.
  intros Ho Hi E Hr Hlen HQ. unfold s_sputc. rewrite (u32_small index) by lia.
  destruct (Z.ltb_spec index (u32 len)).
  - apply wp_st8; [rewrite length_sofar; lia|].
    replace (Z.to_nat (off + index)) with (length out) by lia. by rewrite sofar_snoc by lia.
  - apply wp_ret. by rewrite sofar_full in HQ by lia.
Qed.

Lemma wp_printint_loop cs off len j out (Q : unit → list Z → Prop) :
  0 ≤ j → 0 ≤ off → off + j = Z.of_nat (length out) → Z.of_nat (length out + length cs) < 2 ^ 32 →
  u32 len = Z.of_nat L - off →
  Q tt (sofar (out ++ map u8 cs)) → wp (printint_loop s_sputc cs off len j) Q (sofar out).
Proof.
  revert j out. induction cs as [|c cs IH]; intros j out Hj Ho E Hr El HQ; simpl in *.
  - apply wp_ret. by rewrite app_nil_r in HQ.
  - rewrite El. destruct (Z.ltb_spec j (Z.of_nat L - off)).
    + apply wp_bind. eapply wp_s_sputc; [done|done|done|lia|by left|].
      apply IH; [lia|done|rewrite length_app; simpl; lia|rewrite length_app; simpl; lia|done|].
      by rewrite <- app_assoc.
    + apply wp_ret. by rewrite sofar_full in HQ by lia.
Qed.

Lemma wp_puts_loop s out (Q : Z → list Z → Prop) :
  Z.of_nat (length out + length s) < 2 ^ 32 →
  Q (Z.of_nat (length out + length s)) (sofar (out ++ map u8 s)) →
  wp (puts_loop s_sputc s 0 (Z.of_nat L) (Z.of_nat (length out))) Q (sofar out).
Proof.
  revert out. induction s as [|c s IH]; intros out Hr HQ; simpl in *.
  - apply wp_ret. by rewrite app_nil_r, Nat.add_0_r in HQ.
  - apply wp_bind. eapply wp_s_sputc; [lia|lia|lia|lia|left; rewrite u32_small; lia|].
    rewrite u32_small by lia. replace (Z.of_nat (length out) + 1) with (Z.of_nat (length (out ++ [u8 c])))
      by (rewrite length_app; simpl; lia).
    apply IH; rewrite length_app; simpl; [lia|]. rewrite <- app_assoc.
    by replace (length out + 1 + length s)%nat with (length out + S (length s))%nat by lia.
Qed.

(** The printed text and the final index, which may run past the end. *)
Definition printed_text (out txt : list Z) (o : Z) (b : list Z) : Prop :=
  b = sofar (out ++ txt) ∧ Z.min (Z.of_nat L) o = Z.min (Z.of_nat L) (Z.of_nat (length (out ++ txt))) ∧ 0 ≤ o < 2 ^ 32.

(** The rest of the format prints the rest of the text. *)
Definition goes_on (fmt out txt : list Z) : Prop :=
  ∀ xs txt' ap', txt = xs ++ txt' → render getReverse fmt false ap' = Some txt' →
    wp (s_printf_loop s_sputc getReverse fmt false 0 (Z.of_nat L) (Z.of_nat (length (out ++ xs))) ap')
       (printed_text out txt) (sofar (out ++ xs)).

Lemma put_on fmt out txt d txt' ap' :
  goes_on fmt out txt → Z.of_nat (length out + length txt) < 2 ^ 32 →
  txt = u8 d :: txt' → render getReverse fmt false ap' = Some txt' →
  wp (s_sputc 0 (Z.of_nat L) (Z.of_nat (length out)) d ;;
      s_printf_loop s_sputc getReverse fmt false 0 (Z.of_nat L) (u32 (Z.of_nat (length out) + 1)) ap')
     (printed_text out txt) (sofar out).
Proof.
  intros Hnext Hr -> E. simpl in Hr. apply wp_bind. eapply wp_s_sputc; [lia|lia|lia|lia|left; rewrite u32_small; lia|].
  rewrite u32_small by lia. replace (Z.of_nat (length out) + 1) with (Z.of_nat (length (out ++ [u8 d])))
    by (rewrite length_app; simpl; lia). by eapply Hnext.
Qed.

Lemma num_on fmt out txt w base sgn txt' ap' :
  goes_on fmt out txt → Z.of_nat (length out + length txt) < 2 ^ 32 → (length out < L)%nat →
  txt = map u8 (rev (getReverse 16%nat w base sgn)) ++ txt' → render getReverse fmt false ap' = Some txt' →
  wp (k ← s_printint s_sputc getReverse (0 + Z.of_nat (length out)) (Z.of_nat L - Z.of_nat (length out)) w base sgn;
      s_printf_loop s_sputc getReverse fmt false 0 (Z.of_nat L) (u32 (Z.of_nat (length out) + k)) ap')
     (printed_text out txt) (sofar out).
Proof.
  intros Hnext Hr Hlt -> E. rewrite length_app, length_map, length_rev in Hr.
  apply wp_bind. unfold s_printint. apply wp_bind, wp_printint_loop;
    [lia|lia|lia|rewrite length_rev; lia|rewrite u32_small; lia|]. apply wp_ret.
  rewrite u32_small by lia. replace (Z.of_nat (length out) + Z.of_nat (length (getReverse 16%nat w base sgn)))
    with (Z.of_nat (length (out ++ map u8 (rev (getReverse 16%nat w base sgn)))))
    by (rewrite length_app, length_map, length_rev; lia).
  by eapply Hnext.
Qed.

Lemma str_on fmt out txt s txt' ap' :
  goes_on fmt out txt → Z.of_nat (length out + length txt) < 2 ^ 32 →
  txt = map u8 s ++ txt' → render getReverse fmt false ap' = Some txt' →
  wp (o ← puts_loop s_sputc s 0 (Z.of_nat L) (Z.of_nat (length out));
      s_printf_loop s_sputc getReverse fmt false 0 (Z.of_nat L) o ap') (printed_text out txt) (sofar out).
Proof.
  intros Hnext Hr -> E. rewrite length_app, length_map in Hr. apply wp_bind, wp_puts_loop; [lia|].
  replace (length out + length s)%nat with (length (out ++ map u8 s)) by (rewrite length_app, length_map; lia).
  by eapply Hnext.
Qed.

Lemma wp_s_printf_loop fmt state ap out txt :
  render getReverse fmt state ap = Some txt → Z.of_nat (length out + length txt) < 2 ^ 32 →
  wp (s_printf_loop s_sputc getReverse fmt state 0 (Z.of_nat L) (Z.of_nat (length out)) ap)
     (printed_text out txt) (sofar out).
Proof.
  revert state ap out txt. induction fmt as [|c fmt IH]; intros state ap out txt E Hr.
  { injection E as <-. apply wp_ret. unfold printed_text. rewrite app_nil_r. split; [done|]. simpl in Hr. lia. }
  assert (goes_on fmt out txt) as Hnext.
  { intros xs txt' ap' -> E'. eapply wp_mono; [apply (IH false ap' (out ++ xs) txt' E')|].
    - rewrite length_app in *. lia.
    - intros o b. unfold printed_text. by rewrite <- app_assoc. }
  cbn [s_printf_loop]. rewrite (u32_small (Z.of_nat L)) by lia.
  destruct (Z.ltb_spec (Z.of_nat (length out)) (Z.of_nat L)) as [Hlt|Hge]; cbn [negb].
  2: { apply wp_ret. unfold printed_text. rewrite sofar_full by lia. rewrite length_app. split; [done|]. lia. }
  change 0xff with (Z.ones 8). rewrite Z.land_ones by lia. change (c mod 2 ^ 8) with (u8 c).
  assert (u8 (u8 c) = u8 c) as Hcc by apply u8_small, u8_range.
  assert (length out < L)%nat by lia.
  cbn [render] in E. cbv zeta in E |- *. destruct state; cbn [negb] in *.
  2: { destruct (u8 c =? ch "%"); [by apply IH|]. apply fmap_Some in E as (txt' & E & ->).
       eapply put_on; [done|done|by rewrite Hcc|done]. }
  destruct (u8 c =? ch "d"). { destruct ap as [|[w|] ap]; [done| |done]. apply fmap_Some in E as (txt' & E & ->). by eapply num_on. }
  destruct ((u8 c =? ch "x") || (u8 c =? ch "p")).
  { destruct ap as [|[w|] ap]; [done| |done]. apply fmap_Some in E as (txt' & E & ->). by eapply num_on. }
  destruct (u8 c =? ch "s"). { destruct ap as [|[|s] ap]; [done|done|]. apply fmap_Some in E as (txt' & E & ->). by eapply str_on. }
  destruct (u8 c =? ch "c"). { destruct ap as [|[w|] ap]; [done| |done]. apply fmap_Some in E as (txt' & E & ->). by eapply put_on. }
  destruct (u8 c =? ch "%"). { apply fmap_Some in E as (txt' & E & ->). eapply put_on; [done|done|by rewrite Hcc|done]. }
  apply fmap_Some in E as (txt' & E & ->). rewrite length_app in Hr. simpl in Hr.
  assert (∀ x xs, length (out ++ x :: xs) = S (length out + length xs)) as Hsn by (intros; rewrite length_app; simpl; lia).
  apply wp_bind. eapply wp_s_sputc; [lia|lia|lia|lia|left; rewrite u32_small; lia|].
  apply wp_bind. eapply wp_s_sputc; [lia|apply u32_range|rewrite u32_small, Hsn; simpl; lia|rewrite Hsn; simpl; lia|
    left; rewrite u32_small; lia|].
  rewrite <- app_assoc, u32_small by lia. simpl app. rewrite Hcc.
  replace (Z.of_nat (length out) + 2) with (Z.of_nat (length (out ++ [ch "%"; u8 c]))) by (rewrite Hsn; simpl; lia).
  by apply (Hnext [ch "%"; u8 c] txt').
Qed.
End Sprintf.

(** The whole of [snprintf] on a buffer with room for [n] bytes. *)
Lemma wp_snprintf getReverse n fmt ap buf txt :
  1 ≤ n < 2 ^ 31 → n ≤ Z.of_nat (length buf) → render getReverse fmt false ap = Some txt →
  Z.of_nat (length txt) < 2 ^ 32 →
  wp (snprintf_with getReverse n fmt ap) (λ r b, r = Z.min (n - 1) (Z.of_nat (length txt)) ∧
    b = splice 0 (take (Z.to_nat (n - 1)) txt ++ [0]) buf) buf.
Proof.
  intros Hn Hbuf E Hr. unfold snprintf_with, s_printf. rewrite s32_small by lia.
  assert (buf = sofar buf (Z.to_nat (n - 1)) []) as Hb by (unfold sofar; by rewrite take_nil, splice_nil).
  do 2 apply wp_bind.
  pose proof (wp_s_printf_loop getReverse buf (Z.to_nat (n - 1)) ltac:(lia) ltac:(lia) fmt false ap [] txt E ltac:(simpl; lia)) as H.
  rewrite <- Hb, Z2Nat.id in H by lia. eapply wp_mono; [exact H|].
  intros o b (-> & Ho & Hor). rewrite Z2Nat.id in Ho by lia. rewrite (u32_small (n - 1)) by lia. simpl app in *.
  assert (s_min (n - 1) o = Z.min (n - 1) (Z.of_nat (length txt))) as ->.
  { rewrite <- Ho. unfold s_min. destruct (Z.ltb_spec (n - 1) o); lia. }
  set (r := Z.min (n - 1) _). assert (0 ≤ r < n) as Hrr by lia. rewrite (s32_small r) by lia. apply wp_ret.
  rewrite !u32_small by lia. rewrite (proj2 (Z.ltb_lt _ _)) by lia.
  assert (length (take (Z.to_nat (n - 1)) txt) = Z.to_nat r) as Hlen by (rewrite length_take; lia).
  apply wp_bind, wp_st8; [rewrite length_sofar; lia|]. apply wp_ret. split; [rewrite s32_small; lia|].
  unfold sofar. rewrite splice_app by (simpl; lia). rewrite Hlen. simpl Nat.add.
  rewrite splice_cons, splice_nil by (rewrite length_splice; simpl; lia). done.
Qed.

(** ** Numbers *)

(** [txt] is the numeral of [z], without superfluous zeros. *)
Definition unumeral (base z : Z) (txt : list Z) : Prop :=
  ∃ ds, txt = (if z <? 0 then [ch "-"] else []) ++ map udigit ds ∧
    Forall (λ d, 0 ≤ d < base) ds ∧ value base (rev ds) = Z.abs z ∧
    (ds = [0] ∨ ∃ d ds', ds = d :: ds' ∧ d ≠ 0).

Lemma rev_digits_spec room x base :
  2 ≤ base → 0 ≤ x < base ^ Z.of_nat room →
  ∃ ds, rev_digits room x base = map udigit ds ∧ Forall (λ d, 0 ≤ d < base) ds ∧ value base ds = x ∧
    (x ≠ 0 → ∃ d ds', ds = ds' ++ [d] ∧ d ≠ 0).
Proof.
  intros Hb. revert x. induction room as [|room IH]; intros x Hx.
  { simpl in Hx. exists []. split; [done|]. split; [constructor|]. split; [simpl; lia|]. lia. }
  simpl. destruct (Z.eqb_spec x 0) as [->|Hne]; [by exists []|].
  pose proof (Z.div_mod x base ltac:(lia)). pose proof (Z.mod_pos_bound x base ltac:(lia)).
  assert (0 ≤ x / base) by (apply Z.div_pos; lia).
  destruct (IH (x / base)) as (ds & E & Hd & Hv & Hl).
  { rewrite Nat2Z.inj_succ, Z.pow_succ_r in Hx by lia. split; [done|]. apply Z.div_lt_upper_bound; lia. }
  exists (x mod base :: ds). rewrite E. split; [done|]. split; [by constructor|].
  simpl. fold (value base ds). rewrite Hv. split; [lia|]. intros _. destruct (decide (x / base = 0)) as [E0|E0].
  - rewrite E0 in *. assert (ds = []) as ->; [|exists (x mod base), []; split; [done|lia]].
    destruct room; [destruct ds; done|]. simpl in E. by destruct ds.
  - destruct (Hl E0) as (d & ds' & -> & Hdn). by exists d, (x mod base :: ds').
Qed.

Lemma length_rev_digits room x base : (length (rev_digits room x base) ≤ room)%nat.
Proof.
  revert x. induction room as [|room IH]; intros x; simpl; [lia|].
  destruct (x =? 0); simpl; [lia|]. specialize (IH (x / base)). lia.
Qed.

Lemma getReverseDigits_numeral w base (sgn : bool) :
  base = 10 ∨ base = 16 → unumeral base (if sgn then s32 w else u32 w) (rev (s_getReverseDigits 16 (s32 w) base sgn)).
Proof.
  intros Hbase. unfold s_getReverseDigits. pose proof (s32_range w) as Hs. pose proof (u32_range w) as Hu.
  set (neg := sgn && (s32 w <? 0)). set (x := if neg then u32 (- s32 w) else u32 (s32 w)).
  set (z := if sgn then s32 w else u32 w).
  assert (u32 (s32 w) = u32 w) as Euw.
  { unfold u32, s32. rewrite Zminus_mod, Zmod_mod, <- Zminus_mod. f_equal. lia. }
  assert (x = Z.abs z ∧ neg = (z <? 0) ∧ (z = 0 ↔ s32 w = 0)) as (Ex & En & Ez).
  { unfold x, neg, z. destruct sgn; cbn [andb].
    - destruct (Z.ltb_spec (s32 w) 0); rewrite u32_small; lia.
    - rewrite Euw. destruct (Z.ltb_spec (u32 w) 0); [lia|]. split; [lia|]. split; [done|].
      rewrite <- Euw. unfold u32. split; [|by intros ->]. intros [k Hk]%Z.mod_divide; lia. }
  assert (0 ≤ x < base ^ Z.of_nat (16 - 1)) as Hx.
  { assert (2 ^ 32 ≤ base ^ Z.of_nat (16 - 1)) by (destruct Hbase as [->| ->]; vm_compute; discriminate).
    unfold x. pose proof (u32_range (- s32 w)). pose proof (u32_range (s32 w)). destruct neg; lia. }
  pose proof (length_rev_digits (16 - 1) x base) as Hlen.
  destruct (rev_digits_spec (16 - 1) x base ltac:(lia) Hx) as (ds & E & Hd & Hv & Hl).
  rewrite E in *. destruct (Z.eqb_spec 0 (s32 w)) as [E0|E0]; cbn [andb].
  - assert (z = 0) as Hz by lia. rewrite Hz in *. rewrite En. simpl in Ex |- *. rewrite Ex in E. simpl in E.
    destruct ds; [|done]. simpl. exists [0]. split; [done|]. split; [constructor; [lia|constructor]|]. split; [simpl; lia|]. by left.
  - exists (rev ds). rewrite rev_involutive, map_rev, <- En. split; [|split; [by apply Forall_rev|split; [lia|]]].
    + destruct neg; cbn [andb]; [|done]. rewrite (proj2 (Nat.ltb_lt _ _)) by lia. by rewrite rev_app_distr.
    + right. destruct Hl as (d & ds' & -> & Hdn); [lia|]. rewrite rev_app_distr. by exists d, (rev ds').
Qed.

(** C26. Given a buffer of at least [n >= 1] bytes, [snprintf] stores the first
    [n - 1] characters of the formatted text and a NUL, touches nothing else and
    returns the number of characters stored.  [%d] prints the argument as a
    signed decimal numeral, [%x] and [%p] as an unsigned hexadecimal one.  With
    [n = 0] the length wraps to 2^32 - 1 and [snprintf] writes past the buffer. *)
Theorem snprintf_truncates (buf fmt txt : list Z) (ap : list carg) (n : Z) :
  1 ≤ n < 2 ^ 31 → n ≤ Z.of_nat (length buf) →
  render s_getReverseDigits fmt false ap = Some txt → Z.of_nat (length txt) < 2 ^ 32 →
  wp (snprintf n fmt ap) (λ r b, r = Z.min (n - 1) (Z.of_nat (length txt)) ∧
    b = splice 0 (take (Z.to_nat (n - 1)) txt ++ [0]) buf) buf ∧
  (∀ w, unumeral 10 (s32 w) (rev (s_getReverseDigits 16 (s32 w) 10 true)) ∧
        unumeral 16 (u32 w) (rev (s_getReverseDigits 16 (s32 w) 16 false))) ∧
  snprintf 0 [ch "a"] [] [] = Fault "store out of range".
Proof.
  intros Hn Hb E Hr. split_and!; [by apply wp_snprintf| |reflexivity].
  intros w. split; [apply (getReverseDigits_numeral w 10 true)|apply (getReverseDigits_numeral w 16 false)]; auto.
Qed.

Lemma snprintf_truncates_witness :
  wp (snprintf 6 (str "n=%d!") [CInt (-1234)]) (λ r b, r = 5 ∧ b = str "n=-12" ++ [0; 7; 7]) (replicate 8 7).
Proof.
  eapply wp_mono; [apply (snprintf_truncates (replicate 8 7) (str "n=%d!") (str "n=-1234!") [CInt (-1234)] 6)|];
    [lia|simpl; lia|vm_compute; reflexivity|simpl; lia|].
  intros r b [-> ->]. split; vm_compute; reflexivity.
Defined.
