(* ===== verification/Kalloc.v ===== *)
(** * Kalloc: the physical page allocator (kalloc.c, V2P/P2V of memlayout.h)

    Free pages form a linked list through their own first words.  The list is
    shown to implement a stack of distinct pages. *)

From S2P Require Import Prelude State Lock.

(** [end], the first address after the kernel image, is set by the linker. *)
Class KernEnd := kend : Z.

Definition PGROUNDUP (sz : Z) : Z := Z.land (u32 (sz + (PGSIZE - 1))) (Z.lnot (PGSIZE - 1)).
Definition PGROUNDDOWN (a : Z) : Z := Z.land a (Z.lnot (PGSIZE - 1)).

Definition V2P (a : Z) : K Z :=
  if a <? KERNBASE then panic "V2P on address < KERNBASE" else mret (a - KERNBASE).
Definition P2V (a : Z) : K Z :=
  if a >? KERNBASE then panic "P2V on address > KERNBASE" else mret (u32 (a + KERNBASE)).

(** Words of a page of memory, by kernel virtual address of the page.  Reading a
    page that was never written is a fault. *)
Definition PGWORDS : nat := 1024.
Definition get_word (pg : Z) (i : nat) : K Z :=
  mem ← gets k_mem; ws ← deref (mem !! pg); deref (ws !! i).
Definition set_word (pg : Z) (i : nat) (v : Z) : K unit :=
  mem ← gets k_mem;
  ws ← deref (mem !! pg);
  modify (set_k_mem (<[pg := <[i := v]> ws]> mem)).
(** [memset(pg, b, PGSIZE)] *)
Definition fill_page (pg b : Z) : K unit :=
  modify (λ s, set_k_mem (<[pg := replicate PGWORDS (le_get (replicate 4 b))]> (k_mem s)) s).

Section Ops.
Context `{KernEnd}.

(** The test at the top of [kfree]. *)
Definition kfree_bad (v : Z) : K bool :=
  if negb (v mod PGSIZE =? 0) then mret true else
  if v <? kend then mret true else
  p ← V2P v; mret (p >=? PHYSTOP).

Definition kfree (v : Z) : K unit :=
  bad ← kfree_bad v;
  if (bad : bool) then panic "kfree" else
  fill_page v 1 ;;
  use ← gets k_use_lock;
  when use (acquire Lkmem) ;;
  next ← gets k_freelist;
  set_word v 0 next ;;
  modify (set_k_freelist v) ;;
  use ← gets k_use_lock;
  when use (release Lkmem).

Definition kalloc : K Z :=
  use ← gets k_use_lock;
  when use (acquire Lkmem) ;;
  r ← gets k_freelist;
  when (negb (r =? 0)) (next ← get_word r 0; modify (set_k_freelist next)) ;;
  use ← gets k_use_lock;
  when use (release Lkmem) ;;
  mret r.

(** The loop runs while [p + PGSIZE <= vend]. *)
Definition freerange (vstart vend : Z) : K unit :=
  if vend <? vstart then panic "freerange" else
  let p := PGROUNDUP vstart in
  forM (seq 0 (Z.to_nat ((vend - p) / PGSIZE))) (λ k, kfree (p + Z.of_nat k * PGSIZE)).

Definition kinit1 (vstart vend : Z) : K unit :=
  modify (set_k_use_lock false) ;; freerange vstart vend.
Definition kinit2 (vstart vend : Z) : K unit :=
  freerange vstart vend ;; modify (set_k_use_lock true).
End Ops.

(** ** The free list as a stack of pages *)

Fixpoint chain (mem : gmap Z (list Z)) (p : Z) (l : list Z) : Prop :=
  match l with
  | [] => p = 0
  | a :: l' => p = a ∧ ∃ ws, mem !! a = Some ws ∧ length ws = PGWORDS ∧
               ∃ next, ws !! 0%nat = Some next ∧ chain mem next l'
  end.

Section Specs.
Context `{KernEnd}.
Implicit Types (s : kernel) (l : list Z).

(** A page the allocator may hand out. *)
Definition page_ok (v : Z) : Prop :=
  v mod PGSIZE = 0 ∧ kend ≤ v ∧ KERNBASE ≤ v < KERNBASE + PHYSTOP.

Record kmem_ok (s : kernel) (l : list Z) : Prop := {
  km_chain : chain (k_mem s) (k_freelist s) l;
  km_nodup : NoDup l;
  km_pages : Forall page_ok l;
  km_lock : Lkmem ∉ k_held s }.

Lemma page_nonzero v : page_ok v → v ≠ 0.
Proof. unfold page_ok, KERNBASE. lia. Qed.

Lemma chain_other mem p l a ws : a ∉ l → chain mem p l → chain (<[a := ws]> mem) p l.
Proof.
  revert p. induction l as [|b l IH]; intros p Ha; [done|].
  apply not_elem_of_cons in Ha as [Hne Ha]. intros (-> & ws' & H1 & H2 & n & H3 & H4).
  split; [done|]. exists ws'. rewrite lookup_insert_ne by done. eauto 10.
Qed.

Definition junk : Z := le_get (replicate 4 1).

(** The page [v] pushed on the list. *)
Definition push_page (v : Z) (s : kernel) : kernel :=
  set_k_freelist v (set_k_mem
    (<[v := k_freelist s :: replicate (PGWORDS - 1) junk]> (k_mem s)) s).

(** The stores of [kfree] to the page and to the list head. *)
Lemma wp_push v (k : K unit) (Q : unit → kernel → Prop) s :
  k_mem s !! v = Some (replicate PGWORDS junk) →
  wp k Q (push_page v s) →
  wp (next ← gets k_freelist; set_word v 0 next ;; modify (set_k_freelist v) ;; k) Q s.
Proof.
  intros Hm Hk. apply wp_bind, wp_gets, wp_bind. unfold set_word. apply wp_bind, wp_gets, wp_bind.
  eapply wp_deref; [exact Hm|]. apply wp_modify, wp_bind, wp_modify.
  unfold push_page in Hk. by destruct s.
Qed.

Lemma wp_kfree v (Q : unit → kernel → Prop) s :
  page_ok v → Lkmem ∉ k_held s → Q tt (push_page v s) → wp (kfree v) Q s.
Proof.
  intros (H1 & H2 & H3) Hl HQ. unfold kfree, kfree_bad. rewrite H1. simpl. ztest.
  unfold V2P. ztest. apply wp_bind, wp_bind, wp_ret, wp_ret. ztest.
  apply wp_bind, wp_modify, wp_bind, wp_gets. simpl.
  destruct (k_use_lock s) eqn:Eu; simpl; apply wp_bind.
  - apply wp_acquire; [done|]. apply wp_push; [apply lookup_insert_eq|].
    apply wp_bind, wp_gets. simpl. rewrite Eu. simpl. eapply wp_release; [reflexivity|done|].
    unfold push_page in *. simpl in *. rewrite insert_insert_eq. destruct s; exact HQ.
  - apply wp_ret, wp_push; [apply lookup_insert_eq|]. apply wp_bind, wp_gets. simpl. rewrite Eu.
    apply wp_ret. unfold push_page in *. simpl in *. rewrite insert_insert_eq. destruct s; exact HQ.
Qed.

Lemma wp_kalloc l (Q : Z → kernel → Prop) s :
  kmem_ok s l →
  (match l with
   | [] => Q 0 s
   | a :: l' => ∀ next, chain (k_mem s) next l' → Q a (set_k_freelist next s)
   end) → wp kalloc Q s.
Proof.
  intros [Hc Hnd Hp Hl] HQ. unfold kalloc. apply wp_bind, wp_gets.
  assert (∀ s' (k : K Z), k_mem s' = k_mem s → k_freelist s' = k_freelist s →
    match l with
    | [] => wp k Q s'
    | a :: l' => ∀ next, chain (k_mem s) next l' → wp k Q (set_k_freelist next s')
    end →
    wp (when (negb (k_freelist s =? 0)) (next ← get_word (k_freelist s) 0; modify (set_k_freelist next)) ;;
        k) Q s') as Hbody.
  { intros s' k Hm Hf Hk. apply wp_bind. destruct l as [|a l]; simpl in Hc.
    - rewrite Hc. by apply wp_ret.
    - destruct Hc as (-> & ws & E1 & E2 & next & E3 & E4).
      apply Forall_cons in Hp as [Hpa _]. apply page_nonzero in Hpa. ztest. simpl.
      apply wp_bind. unfold get_word. apply wp_bind, wp_gets, wp_bind. rewrite Hm.
      eapply wp_deref; [exact E1|]. eapply wp_deref; [exact E3|]. apply wp_modify. by apply Hk. }
  destruct (k_use_lock s) eqn:Eu; simpl when at 1; apply wp_bind.
  - apply wp_acquire; [done|]. apply wp_bind, wp_gets. apply Hbody; [done|done|].
    destruct l as [|a l]; [|intros next Hn]; apply wp_bind, wp_gets; simpl; rewrite Eu; apply wp_bind;
      (eapply wp_release; [reflexivity|done|]); apply wp_ret; simpl in Hc.
    + rewrite Hc. by destruct s.
    + destruct Hc as [-> _]. specialize (HQ next Hn). by destruct s.
  - apply wp_ret, wp_bind, wp_gets. apply Hbody; [done|done|].
    destruct l as [|a l]; [|intros next Hn]; apply wp_bind, wp_gets; simpl; rewrite Eu;
      apply wp_bind, wp_ret, wp_ret; simpl in Hc.
    + by rewrite Hc.
    + destruct Hc as [-> _]. by apply HQ.
Qed.

Lemma kmem_push v s l :
  kmem_ok s l → page_ok v → v ∉ l → kmem_ok (push_page v s) (v :: l).
Proof.
  intros [Hc Hnd Hp Hl] Hv Hni. split; [| | |done].
  - simpl. split; [done|]. eexists. split; [apply lookup_insert_eq|]. split; [done|].
    eexists. split; [done|]. by apply chain_other.
  - by apply NoDup_cons.
  - by apply Forall_cons.
Qed.

Lemma kmem_pop next s a l :
  kmem_ok s (a :: l) → chain (k_mem s) next l → kmem_ok (set_k_freelist next s) l.
Proof.
  intros [Hc Hnd Hp Hl] Hn. apply NoDup_cons in Hnd as [_ Hnd]. apply Forall_cons in Hp as [_ Hp].
  by split.
Qed.

(** *** The initial free list *)

Definition pages (vstart vend : Z) : list Z :=
  (λ k, PGROUNDUP vstart + Z.of_nat k * PGSIZE) <$>
  seq 0 (Z.to_nat ((vend - PGROUNDUP vstart) / PGSIZE)).

Lemma PGROUNDUP_spec sz :
  0 ≤ sz → sz + 4095 < 2 ^ 32 →
  PGROUNDUP sz mod PGSIZE = 0 ∧ sz ≤ PGROUNDUP sz < sz + PGSIZE.
Proof.
  intros H1 H2. unfold PGROUNDUP, PGSIZE. replace (sz + (4096 - 1)) with (sz + 4095) by lia.
  rewrite u32_small by lia.
  change (4096 - 1) with (2 ^ 12 - 1). rewrite land_lnot_ones by lia. change (2 ^ 12) with 4096.
  split; [apply Z.mod_mul; lia|].
  pose proof (Z.div_mod (sz + 4095) 4096 ltac:(lia)).
  pose proof (Z.mod_pos_bound (sz + 4095) 4096 ltac:(lia)). lia.
Qed.

(** The whole page frames between the two addresses, each once. *)
Lemma pages_spec vstart vend v :
  0 ≤ vstart → vstart + 4095 < 2 ^ 32 →
  v ∈ pages vstart vend ↔ v mod PGSIZE = 0 ∧ vstart ≤ v ∧ v + PGSIZE ≤ vend.
Proof.
  intros H1 H2. destruct (PGROUNDUP_spec vstart H1 H2) as [Ha [Hb Hc]]. unfold pages.
  rewrite list_elem_of_fmap. set (p := PGROUNDUP vstart) in *. unfold PGSIZE in *. split.
  - intros (k & -> & Hk%elem_of_seq). pose proof (Z.mul_div_le (vend - p) 4096 ltac:(lia)).
    split; [rewrite Z.mod_add by lia; done|]. nia.
  - intros (E1 & E2 & E3). exists (Z.to_nat ((v - p) / 4096)).
    pose proof (Z.div_mod v 4096 ltac:(lia)). pose proof (Z.div_mod p 4096 ltac:(lia)).
    assert (v - p = 4096 * (v / 4096 - p / 4096)) as Hd by lia.
    assert (0 ≤ v / 4096 - p / 4096) by nia.
    replace ((v - p) / 4096) with (v / 4096 - p / 4096)
      by (rewrite Hd, Z.mul_comm, Z.div_mul; lia).
    split; [lia|]. apply elem_of_seq.
    assert (v / 4096 - p / 4096 + 1 ≤ (vend - p) / 4096) by (apply Z.div_le_lower_bound; lia). lia.
Qed.

Lemma pages_nodup vstart vend : NoDup (pages vstart vend).
Proof. apply NoDup_fmap_2; [|apply NoDup_seq]. intros x y E. unfold PGSIZE in E. lia. Qed.

Lemma wp_freerange vstart vend l (Q : unit → kernel → Prop) s :
  vstart ≤ vend → kmem_ok s l → Forall page_ok (pages vstart vend) →
  (∀ v, v ∈ pages vstart vend → v ∉ l) →
  (∀ s', kmem_ok s' (reverse (pages vstart vend) ++ l) → k_use_lock s' = k_use_lock s →
     (∀ a, a ∉ pages vstart vend → k_mem s' !! a = k_mem s !! a) → Q tt s') →
  wp (freerange vstart vend) Q s.
Proof.
  intros Hle Hk Hp Hd HQ. unfold freerange. ztest.
  set (f := λ k, PGROUNDUP vstart + Z.of_nat k * PGSIZE).
  set (n := Z.to_nat ((vend - PGROUNDUP vstart) / PGSIZE)).
  apply (wp_mono _ (λ _ s', kmem_ok s' (reverse (f <$> seq 0 n) ++ l) ∧ k_use_lock s' = k_use_lock s ∧
    ∀ a, a ∉ (f <$> seq 0 n) → k_mem s' !! a = k_mem s !! a));
    [|intros [] s' (A1 & A2 & A3); by apply HQ].
  apply (wp_forM_seq (λ k s', kmem_ok s' (reverse (f <$> seq 0 k) ++ l) ∧ k_use_lock s' = k_use_lock s ∧
    ∀ a, a ∉ (f <$> seq 0 k) → k_mem s' !! a = k_mem s !! a)); [done|].
  intros k s' Hkn (A1 & A2 & A3).
  assert (f k ∈ pages vstart vend) as Hin
    by (unfold pages; apply list_elem_of_fmap; exists k; split; [done|]; apply elem_of_seq; lia).
  assert (f k ∉ f <$> seq 0 k) as Hni.
  { intros (j & E & Hj%elem_of_seq)%list_elem_of_fmap. unfold f, PGSIZE in E. lia. }
  assert (page_ok (f k)) as Hpk by (by rewrite Forall_forall in Hp; apply Hp).
  apply wp_kfree; [done|apply A1|]. rewrite seq_S, fmap_app, reverse_app. simpl. split; [|split].
  - apply kmem_push; [done|done|]. rewrite elem_of_app, elem_of_reverse. intros [?|?]; [done|].
    by eapply Hd.
  - done.
  - intros a Ha. rewrite elem_of_app in Ha. simpl. rewrite lookup_insert_ne; [apply A3; tauto|].
    intros <-. apply Ha. right. constructor.
Qed.
End Specs.

(** ** Theorems *)

(** The free list implements a stack of distinct pages.  [kfree] of a page
    that is not on the list pushes it, filled with junk but for the link; it
    panics on an address that is not a page above the kernel and below
    [PHYSTOP].  [kalloc] pops the page last freed, or returns 0 and changes
    nothing if the stack is empty.  Neither touches any other page, and the lock
    is free again afterwards. *)
Theorem kmem_stack `{KernEnd} (s : kernel) (l : list Z) :
  kmem_ok s l → KERNBASE ≤ kend →
  (∀ v, ¬ page_ok v → kfree v s = Panic "kfree" ∨ v < KERNBASE) ∧
  (∀ v, page_ok v → v ∉ l → wp (kfree v) (λ _ s', kmem_ok s' (v :: l) ∧
     k_held s' = k_held s ∧ ∀ a, a ≠ v → k_mem s' !! a = k_mem s !! a) s) ∧
  wp kalloc (λ r s', k_held s' = k_held s ∧ k_mem s' = k_mem s ∧
     match l with [] => r = 0 ∧ s' = s | a :: l' => r = a ∧ kmem_ok s' l' end) s.
Proof.
  intros Hk Hend. split; [|split].
  - intros v Hv. destruct (Z.ltb_spec v KERNBASE) as [|Hb]; [by right|]. left.
    unfold kfree, kfree_bad, V2P, mbind, M_bind. unfold page_ok in Hv.
    destruct (Z.eqb_spec (v mod PGSIZE) 0); simpl; [|done].
    destruct (Z.ltb_spec v kend); [done|]. rewrite (proj2 (Z.ltb_ge _ _)) by lia. simpl.
    rewrite Z.geb_leb, (proj2 (Z.leb_le _ _)) by lia. done.
  - intros v Hv Hni. apply wp_kfree; [done|apply Hk|]. split; [by apply kmem_push|].
    split; [done|]. intros a Ha. simpl. by rewrite lookup_insert_ne.
  - eapply wp_kalloc; [done|]. destruct l as [|a l]; [done|]. intros next Hn.
    split; [done|]. split; [done|]. split; [done|]. by eapply kmem_pop.
Qed.

(** A machine that has freed two pages above a kernel ending at 0x80200000. *)
Definition demo_end : Z := 0x80200000.
Definition demo_kmem : kernel :=
  push_page 0x80300000 (push_page 0x80400000 kernel0).

Lemma demo_kmem_ok : kmem_ok (H := demo_end) demo_kmem [0x80300000; 0x80400000].
Proof.
  apply kmem_push; [apply kmem_push| |set_solver by lia].
  - split; simpl; [done|apply NoDup_nil_2|done|set_solver].
  - repeat split; done.
  - set_solver.
  - repeat split; done.
Qed.

Lemma kmem_stack_witness :
  wp (kalloc) (λ r s', r = 0x80300000 ∧ kmem_ok (H := demo_end) s' [0x80400000]) demo_kmem.
Proof.
  destruct (kmem_stack (H := demo_end) demo_kmem [0x80300000; 0x80400000] demo_kmem_ok)
    as (_ & _ & Hw); [discriminate|].
  eapply wp_mono; [exact Hw|]. intros r s' (_ & _ & E & Hk). split; [exact E|exact Hk].
Defined.

(** Boot hands every page frame to the allocator exactly once.  [kinit1] on an
    empty free list returns with the list holding, without repetition, precisely
    the page-aligned frames that lie wholly between the two addresses. *)
Theorem kinit_pages `{KernEnd} (vstart vend : Z) (s : kernel) :
  k_freelist s = 0 → Lkmem ∉ k_held s → kend ≤ vstart ≤ vend → KERNBASE ≤ vstart →
  vend ≤ KERNBASE + PHYSTOP →
  wp (kinit1 vstart vend) (λ _ s', ∃ l, kmem_ok s' l ∧ k_use_lock s' = false ∧
     ∀ v, v ∈ l ↔ v mod PGSIZE = 0 ∧ vstart ≤ v ∧ v + PGSIZE ≤ vend) s.
Proof.
  intros H1 H2 H3 H4 H5. unfold KERNBASE, PHYSTOP in *.
  assert (∀ v, v ∈ pages vstart vend ↔ v mod PGSIZE = 0 ∧ vstart ≤ v ∧ v + PGSIZE ≤ vend) as Hv
    by (intros v; apply pages_spec; lia).
  unfold kinit1. apply wp_bind, wp_modify. apply (wp_freerange _ _ []); [lia| | | |].
  - split; simpl; [done|apply NoDup_nil_2|done|done].
  - apply Forall_forall. intros v (E1 & E2 & E3)%Hv. unfold page_ok, KERNBASE, PHYSTOP, PGSIZE in *.
    repeat split; [done|lia..].
  - intros v _ Hin. by apply elem_of_nil in Hin.
  - intros s' Hk Hu _. rewrite app_nil_r in Hk. exists (reverse (pages vstart vend)).
    split; [done|]. split; [done|]. intros v. rewrite elem_of_reverse. apply Hv.
Qed.

Lemma kinit_pages_witness :
  wp (kinit1 (H := demo_end) 0x80200010 0x80204000) (λ _ s', ∃ l, kmem_ok (H := demo_end) s' l ∧
    0x80201000 ∈ l) kernel0.
Proof.
  eapply wp_mono.
  - apply (kinit_pages (H := demo_end) 0x80200010 0x80204000 kernel0);
      [reflexivity|set_solver|split; discriminate|discriminate|discriminate].
  - intros u s' (l & Hk & _ & Hv). exists l. split; [exact Hk|]. apply Hv.
    split; [reflexivity|]. split; discriminate.
Defined.
