(* ===== verification/Vm.v ===== *)
(** * Vm: page tables and user memory (vm.c)

    The operations of vm.c on the two-level page tables, which live in the same
    page memory that kalloc hands out.  [loaduvm], which reads a file, is in
    Exec.  The specifications are in VmSpec. *)

From S2P Require Import Prelude State Lock Console Kalloc.

(** [data], the start of the kernel's data section, is set by the linker. *)
Class KernData := kdata : Z.

Definition PTE_P : Z := 0x001.
Definition PTE_W : Z := 0x002.
Definition PTE_U : Z := 0x004.
Definition NPDENTRIES : nat := 1024.
Definition PDX (va : Z) : Z := Z.land (Z.shiftr (u32 va) 22) 0x3FF.
Definition PTX (va : Z) : Z := Z.land (Z.shiftr (u32 va) 12) 0x3FF.
Definition PGADDR (d t o : Z) : Z := u32 (Z.lor (Z.lor (Z.shiftl d 22) (Z.shiftl t 12)) o).
Definition PTE_ADDR (pte : Z) : Z := Z.land pte (u32 (Z.lnot 0xFFF)).
Definition PTE_FLAGS (pte : Z) : Z := Z.land pte 0xFFF.
Definition present (pte : Z) : bool := negb (Z.land pte PTE_P =? 0).
#[global] Arguments PDX : simpl never.
#[global] Arguments PTX : simpl never.
#[global] Arguments PTE_ADDR : simpl never.
#[global] Arguments PTE_FLAGS : simpl never.
#[global] Arguments present : simpl never.

(** A [pte_t *]: the page table page and the index in it. *)
Abbreviation ptep := (Z * nat)%type.

(** The bytes of a page and back. *)
Definition page_bytes (ws : list Z) : list Z := flat_map (le_put 4) ws.
Fixpoint bytes_words (n : nat) (bs : list Z) : list Z :=
  match n with
  | O => []
  | S n' => le_get (take 4 bs) :: bytes_words n' (drop 4 bs)
  end.
(** [memmove(pg + off, bs, length bs)] within a page. *)
Definition write_page (pg off : Z) (bs : list Z) : K unit :=
  mem ← gets k_mem;
  ws ← deref (mem !! pg);
  if off + Z.of_nat (length bs) <=? PGSIZE
  then modify (set_k_mem (<[pg := bytes_words PGWORDS
         (splice (Z.to_nat off) bs (page_bytes ws))]> mem))
  else fault "memmove past the page".
(** [memmove(dst, src, PGSIZE)] *)
Definition copy_page (dst src : Z) : K unit :=
  mem ← gets k_mem;
  ws ← deref (mem !! src);
  modify (set_k_mem (<[dst := ws]> mem)).

Section Ops.
Context `{KernEnd} `{KernData}.

Definition walkpgdir (pgdir va : Z) (alloc : bool) : K (option ptep) :=
  pde ← get_word pgdir (Z.to_nat (PDX va));
  if present pde then
    pgtab ← P2V (PTE_ADDR pde);
    mret (Some (pgtab, Z.to_nat (PTX va)))
  else
    if negb alloc then mret None else
    pgtab ← kalloc;
    if pgtab =? 0 then mret None else
    fill_page pgtab 0 ;;
    pa ← V2P pgtab;
    set_word pgdir (Z.to_nat (PDX va)) (Z.lor (Z.lor (Z.lor pa PTE_P) PTE_W) PTE_U) ;;
    mret (Some (pgtab, Z.to_nat (PTX va))).

Definition get_pte (p : ptep) : K Z := get_word p.1 p.2.
Definition set_pte (p : ptep) (v : Z) : K unit := set_word p.1 p.2 v.

(** The [for(;;)] of [mappages]; false when it returned -1. *)
Fixpoint mappages_loop (fuel : nat) (pgdir a last pa perm : Z) : K bool :=
  match fuel with
  | O => nofuel
  | S fuel' =>
      r ← walkpgdir pgdir a true;
      match r with
      | None => mret false
      | Some p =>
          pte ← get_pte p;
          if present pte then panic "remap" else
          set_pte p (Z.lor (Z.lor pa perm) PTE_P) ;;
          if a =? last then mret true
          else mappages_loop fuel' pgdir (u32 (a + PGSIZE)) last (u32 (pa + PGSIZE)) perm
      end
  end.

Definition mappages (pgdir va size pa perm : Z) : K Z :=
  let a := PGROUNDDOWN va in
  let last := PGROUNDDOWN (u32 (va + size - 1)) in
  ok ← mappages_loop (S (Z.to_nat (u32 (last - a) / PGSIZE))) pgdir a last pa perm;
  mret (if (ok : bool) then 0 else -1).

(** The body of the loop of [deallocuvm], and the address it leaves in [a]. *)
Definition dealloc_step (pgdir a : Z) : K Z :=
  r ← walkpgdir pgdir a false;
  match r with
  | None => mret (u32 (PGADDR (PDX a + 1) 0 0 - PGSIZE))
  | Some p =>
      pte ← get_pte p;
      when (present pte)
        (let pa := PTE_ADDR pte in
         if pa =? 0 then panic "kfree" else
         v ← P2V pa; kfree v ;; set_pte p 0) ;;
      mret a
  end.

Fixpoint deallocuvm_loop (fuel : nat) (pgdir a oldsz : Z) : K unit :=
  if a <? oldsz then
    match fuel with
    | O => nofuel
    | S fuel' => a' ← dealloc_step pgdir a; deallocuvm_loop fuel' pgdir (u32 (a' + PGSIZE)) oldsz
    end
  else mret tt.

Definition deallocuvm (pgdir oldsz newsz : Z) : K Z :=
  if newsz >=? oldsz then mret oldsz else
  let a := PGROUNDUP newsz in
  deallocuvm_loop (Z.to_nat ((oldsz - a + PGSIZE - 1) / PGSIZE)) pgdir a oldsz ;;
  mret newsz.

Definition freevm (pgdir : Z) : K unit :=
  if pgdir =? 0 then panic "freevm: no pgdir" else
  deallocuvm pgdir KERNBASE 0 ;;
  forM (seq 0 NPDENTRIES) (λ i,
    pde ← get_word pgdir i;
    when (present pde) (v ← P2V (PTE_ADDR pde); kfree v)) ;;
  kfree pgdir.

(** The rows of [kmap]: virtual start, physical start, physical end, permission. *)
Definition kmap : list (Z * Z * Z * Z) :=
  [(KERNBASE, 0, EXTMEM, PTE_W);
   (KERNLINK, KERNLINK - KERNBASE, kdata - KERNBASE, 0);
   (kdata, kdata - KERNBASE, PHYSTOP, PTE_W);
   (DEVSPACE, DEVSPACE, 0, PTE_W)].

(** The loop of [setupkvm] over the rest of the table. *)
Fixpoint setupkvm_loop (pgdir : Z) (rows : list (Z * Z * Z * Z)) : K Z :=
  match rows with
  | [] => mret pgdir
  | (virt, phys_start, phys_end, perm) :: rows =>
      r ← mappages pgdir virt (u32 (phys_end - phys_start)) phys_start perm;
      if r <? 0 then freevm pgdir ;; mret 0 else setupkvm_loop pgdir rows
  end.

Definition setupkvm : K Z :=
  pgdir ← kalloc;
  if pgdir =? 0 then mret 0 else
  fill_page pgdir 0 ;;
  top ← P2V PHYSTOP;
  if top >? DEVSPACE then panic "PHYSTOP too high" else
  setupkvm_loop pgdir kmap.

Definition switchkvm : K unit :=
  d ← gets k_kpgdir; pa ← V2P d; modify (set_k_cr3 pa).

Definition kvmalloc : K unit :=
  d ← setupkvm; modify (set_k_kpgdir d) ;; switchkvm.

(** The descriptor of the task state segment, always the same, is not kept. *)
Definition switchuvm (pp : option nat) : K unit :=
  match pp with
  | None => panic "switchuvm: no process"
  | Some i =>
      p ← get_proc i;
      if p_kstack p =? 0 then panic "switchuvm: no kstack" else
      if p_pgdir p =? 0 then panic "switchuvm: no pgdir" else
      modify (set_k_esp0 (u32 (p_kstack p + KSTACKSIZE))) ;;
      pa ← V2P (p_pgdir p); modify (set_k_cr3 pa)
  end.

Definition inituvm (pgdir : Z) (init : list Z) : K unit :=
  if Z.of_nat (length init) >=? PGSIZE then panic "inituvm: more than a page" else
  mem ← kalloc;
  if mem =? 0 then fault "memset of a null page" else
  fill_page mem 0 ;;
  pa ← V2P mem;
  mappages pgdir 0 PGSIZE pa (Z.lor PTE_W PTE_U) ;;
  write_page mem 0 init.

(** The loop of [allocuvm]; false when it returned 0. *)
Fixpoint allocuvm_loop (fuel : nat) (pgdir a oldsz newsz : Z) : K bool :=
  if a <? newsz then
    match fuel with
    | O => nofuel
    | S fuel' =>
        mem ← kalloc;
        if mem =? 0 then
          cprintf (str "allocuvm out of memory" ++ [NL]) [] ;;
          deallocuvm pgdir newsz oldsz ;;
          mret false
        else
        fill_page mem 0 ;;
        pa ← V2P mem;
        r ← mappages pgdir a PGSIZE pa (Z.lor PTE_W PTE_U);
        if r <? 0 then
          cprintf (str "allocuvm out of memory (2)" ++ [NL]) [] ;;
          deallocuvm pgdir newsz oldsz ;;
          kfree mem ;;
          mret false
        else allocuvm_loop fuel' pgdir (u32 (a + PGSIZE)) oldsz newsz
    end
  else mret true.

Definition allocuvm (pgdir oldsz newsz : Z) : K Z :=
  if newsz >=? KERNBASE then mret 0 else
  if newsz <? oldsz then mret oldsz else
  let a := PGROUNDUP oldsz in
  ok ← allocuvm_loop (Z.to_nat ((newsz - a + PGSIZE - 1) / PGSIZE)) pgdir a oldsz newsz;
  mret (if (ok : bool) then newsz else 0).

Definition clearpteu (pgdir uva : Z) : K unit :=
  r ← walkpgdir pgdir uva false;
  match r with
  | None => panic "clearpteu"
  | Some p => pte ← get_pte p; set_pte p (Z.land pte (u32 (Z.lnot PTE_U)))
  end.

(** The loop of [copyuvm]; false on [goto bad]. *)
Fixpoint copyuvm_loop (fuel : nat) (pgdir d i sz : Z) : K bool :=
  if i <? sz then
    match fuel with
    | O => nofuel
    | S fuel' =>
        r ← walkpgdir pgdir i false;
        match r with
        | None => panic "copyuvm: pte should exist"
        | Some p =>
            pte ← get_pte p;
            if negb (present pte) then panic "copyuvm: page not present" else
            mem ← kalloc;
            if mem =? 0 then mret false else
            src ← P2V (PTE_ADDR pte);
            copy_page mem src ;;
            pa ← V2P mem;
            r ← mappages d i PGSIZE pa (PTE_FLAGS pte);
            if r <? 0 then kfree mem ;; mret false
            else copyuvm_loop fuel' pgdir d (u32 (i + PGSIZE)) sz
        end
    end
  else mret true.

Definition copyuvm (pgdir sz : Z) : K Z :=
  d ← setupkvm;
  if d =? 0 then mret 0 else
  ok ← copyuvm_loop (Z.to_nat ((sz + PGSIZE - 1) / PGSIZE)) pgdir d 0 sz;
  if (ok : bool) then mret d else freevm d ;; mret 0.

(** [*pte] is read without a test for a null [pte]. *)
Definition uva2ka (pgdir uva : Z) : K Z :=
  r ← walkpgdir pgdir uva false;
  p ← deref r;
  pte ← get_pte p;
  if Z.land pte PTE_P =? 0 then mret 0 else
  if Z.land pte PTE_U =? 0 then mret 0 else
  P2V (PTE_ADDR pte).

(** The loop of [copyout]: [buf] is what is left to copy. *)
Fixpoint copyout_loop (fuel : nat) (pgdir va : Z) (buf : list Z) : K Z :=
  match buf with
  | [] => mret 0
  | _ :: _ =>
      match fuel with
      | O => nofuel
      | S fuel' =>
          let va0 := PGROUNDDOWN va in
          pa0 ← uva2ka pgdir va0;
          if pa0 =? 0 then mret (-1) else
          let n := Z.min (PGSIZE - (va - va0)) (Z.of_nat (length buf)) in
          write_page pa0 (va - va0) (take (Z.to_nat n) buf) ;;
          copyout_loop fuel' pgdir (u32 (va0 + PGSIZE)) (drop (Z.to_nat n) buf)
      end
  end.

Definition copyout (pgdir va : Z) (p : list Z) : K Z := copyout_loop (length p) pgdir va p.
End Ops.
