(* ===== verification/VmSpec.v ===== *)
(** * VmSpec: what the operations of vm.c do to an address space

    An address space is described by its page directory, the page table pages,
    the page table entries by virtual page number, the pages a function of vm.c
    holds in its hands, and the free list.  Every page has at most one of these
    roles; the operations of vm.c move pages between the roles, never lose or
    duplicate one, and never touch a page outside them. *)

From S2P Require Import Prelude State Lock Console Kalloc Vm.

(** ** Addresses and entries *)

Section Bits.
Lemma PDX_spec va : 0 ≤ va < 2 ^ 32 → PDX va = va / PGSIZE / 1024 ∧ 0 ≤ PDX va < 1024.
Proof.
  intros Hva. unfold PDX. rewrite u32_small by done.
  change 0x3FF with (Z.ones 10). rewrite Z.land_ones, Z.shiftr_div_pow2 by lia.
  rewrite Z.div_div by (unfold PGSIZE; lia). change (PGSIZE * 1024) with (2 ^ 22).
  assert (0 ≤ va / 2 ^ 22 < 2 ^ 10)
    by (split; [apply Z.div_pos; lia|apply Z.div_lt_upper_bound; lia]).
  rewrite Z.mod_small by done. lia.
Qed.

Lemma PTX_spec va : 0 ≤ va < 2 ^ 32 → PTX va = (va / PGSIZE) mod 1024 ∧ 0 ≤ PTX va < 1024.
Proof.
  intros Hva. unfold PTX. rewrite u32_small by done.
  change 0x3FF with (Z.ones 10). rewrite Z.land_ones, Z.shiftr_div_pow2 by lia.
  split; [done|]. apply Z.mod_pos_bound. lia.
Qed.

Lemma PTE_ADDR_spec e : 0 ≤ e < 2 ^ 32 → PTE_ADDR e = e / PGSIZE * PGSIZE.
Proof.
  intros He. unfold PTE_ADDR.
  change (u32 (Z.lnot 0xFFF)) with (Z.land (Z.ones 32) (Z.lnot (2 ^ 12 - 1))).
  rewrite Z.land_assoc, (Z.land_ones e 32), Z.mod_small by lia. by apply land_lnot_ones.
Qed.

Lemma lor_disjoint pa x : pa mod PGSIZE = 0 → 0 ≤ x < PGSIZE → Z.lor pa x = pa + x.
Proof.
  intros Hpa Hx. rewrite <- Z.add_lor_land.
  assert (Z.land pa x = 0) as ->; [|lia].
  replace pa with (Z.ldiff pa (Z.ones 12)).
  - rewrite <- (Z.mod_small x PGSIZE) by done. change PGSIZE with (2 ^ 12).
    rewrite <- Z.land_ones by lia. rewrite (Z.land_comm x), Z.land_assoc, Z.land_ldiff. apply Z.land_0_l.
  - rewrite Z.ldiff_ones_r, Z.shiftl_mul_pow2, Z.shiftr_div_pow2 by lia.
    change (2 ^ 12) with PGSIZE. pose proof (Z.div_mod pa PGSIZE ltac:(unfold PGSIZE; lia)). lia.
Qed.

Lemma lor_one x : Z.lor x 1 = x + 1 - x mod 2.
Proof.
  pose proof (Z.add_lor_land x 1). change 1 with (Z.ones 1) in H at 2.
  rewrite Z.land_ones in H by lia. change (2 ^ 1) with 2 in H. lia.
Qed.

Lemma present_odd e : present e = negb (e mod 2 =? 0).
Proof. unfold present, PTE_P. change 1 with (Z.ones 1). by rewrite Z.land_ones by lia. Qed.

Lemma present_0 : present 0 = false.
Proof. done. Qed.

(** The entry [pa | perm | PTE_P] of [mappages]. *)
Definition mkpte (pa perm : Z) : Z := Z.lor (Z.lor pa perm) PTE_P.

Lemma mkpte_spec pa perm :
  pa mod PGSIZE = 0 → 0 ≤ pa < 2 ^ 32 → 0 ≤ perm < PGSIZE →
  0 ≤ mkpte pa perm < 2 ^ 32 ∧ PTE_ADDR (mkpte pa perm) = pa ∧ present (mkpte pa perm) = true ∧
  PTE_FLAGS (mkpte pa perm) = Z.lor perm PTE_P.
Proof.
  intros Hpa Hr Hp. unfold mkpte, PTE_P. rewrite <- Z.lor_assoc.
  assert (0 ≤ Z.lor perm 1 < PGSIZE) as Hx.
  { rewrite lor_one. pose proof (Z.div_mod perm 2 ltac:(lia)).
    pose proof (Z.mod_pos_bound perm 2 ltac:(lia)). unfold PGSIZE in *. lia. }
  rewrite lor_disjoint by done.
  pose proof (Z.div_mod pa PGSIZE ltac:(unfold PGSIZE; lia)) as Hd. rewrite Hpa in Hd.
  assert ((pa + Z.lor perm 1) / PGSIZE = pa / PGSIZE) as Hq.
  { replace (pa + Z.lor perm 1) with (Z.lor perm 1 + pa / PGSIZE * PGSIZE) by lia.
    rewrite Z.div_add by done. by rewrite (Z.div_small (Z.lor perm 1)). }
  assert (0 ≤ pa + Z.lor perm 1 < 2 ^ 32) as He.
  { assert (pa / PGSIZE < 2 ^ 20) by (apply Z.div_lt_upper_bound; unfold PGSIZE; lia).
    unfold PGSIZE in *. lia. }
  split_and!; [lia..| | |].
  - rewrite PTE_ADDR_spec, Hq by done. lia.
  - rewrite present_odd. replace (pa + Z.lor perm 1) with (1 + (pa / 2 + Z.lor perm 1 / 2) * 2).
    + by rewrite Z.mod_add by lia.
    + assert (pa mod 2 = 0) as E2.
      { rewrite Hd. rewrite Z.add_0_r. change PGSIZE with (2048 * 2).
        by rewrite (Z.mul_comm (2048 * 2)), Z.mul_assoc, Z.mod_mul by lia. }
      assert (Z.lor perm 1 mod 2 = 1) as E1.
      { rewrite lor_one. replace (perm + 1 - perm mod 2) with (1 + (perm / 2) * 2)
          by (pose proof (Z.div_mod perm 2 ltac:(lia)); lia). by rewrite Z.mod_add by lia. }
      pose proof (Z.div_mod pa 2 ltac:(lia)). pose proof (Z.div_mod (Z.lor perm 1) 2 ltac:(lia)). lia.
  - unfold PTE_FLAGS. change 0xFFF with (Z.ones 12). rewrite Z.land_ones by lia.
    change (2 ^ 12) with PGSIZE. rewrite Z.add_comm, <- Zplus_mod_idemp_r, Hpa, Z.add_0_r.
    by rewrite Z.mod_small.
Qed.
End Bits.

(** ** Address spaces *)

(** [v_map] gives the page table entry by virtual page number. *)
Record vsp := mkVsp {
  v_dir : Z;
  v_tab : gmap Z Z;
  v_map : Z → Z;
  v_hand : list Z;
  v_free : list Z }.

(** Virtual pages below [UPAGES] belong to the user part. *)
Definition UPAGES : Z := KERNBASE / PGSIZE.
Definition VPAGES : Z := 2 ^ 20.
(** The kernel address of the frame an entry points to. *)
Definition frame (pte : Z) : Z := PTE_ADDR pte + KERNBASE.

Inductive role := RDir | RTab (i : Z) | RFrame (v : Z) | RHand.

Definition plays (A : vsp) (pg : Z) (r : role) : Prop :=
  match r with
  | RDir => pg = v_dir A
  | RTab i => v_tab A !! i = Some pg
  | RFrame v => 0 ≤ v < UPAGES ∧ present (v_map A v) = true ∧ pg = frame (v_map A v)
  | RHand => pg ∈ v_hand A
  end.

Definition owned (A : vsp) (pg : Z) : Prop := (∃ r, plays A pg r) ∨ pg ∈ v_free A.

Definition is_page (mem : gmap Z (list Z)) (pg : Z) (ws : list Z) : Prop :=
  mem !! pg = Some ws ∧ length ws = PGWORDS.

(** The page table page [pt] holds the entries of the directory slot [i]. *)
Definition tab_ok (mem : gmap Z (list Z)) (m : Z → Z) (i pt : Z) : Prop :=
  ∃ ws, is_page mem pt ws ∧ ∀ j, 0 ≤ j < 1024 → ws !! Z.to_nat j = Some (m (i * 1024 + j)).

Definition pde_ok (mem : gmap Z (list Z)) (A : vsp) (i e : Z) : Prop :=
  match v_tab A !! i with
  | Some pt => present e = true ∧ PTE_ADDR e = pt - KERNBASE ∧ tab_ok mem (v_map A) i pt
  | None => present e = false ∧ ∀ j, 0 ≤ j < 1024 → v_map A (i * 1024 + j) = 0
  end.

Definition dir_ok (mem : gmap Z (list Z)) (A : vsp) : Prop :=
  ∃ ws, is_page mem (v_dir A) ws ∧
    ∀ i, 0 ≤ i < 1024 → ∃ e, ws !! Z.to_nat i = Some e ∧ pde_ok mem A i e.

Section Inv.
Context `{KernEnd}.

Record vok (s : kernel) (A : vsp) : Prop := {
  v_words : dir_ok (k_mem s) A;
  v_slots : ∀ i pt, v_tab A !! i = Some pt → 0 ≤ i < 1024;
  v_role : ∀ pg r r', plays A pg r → plays A pg r' → r = r';
  v_hands : NoDup (v_hand A);
  v_own : ∀ pg r, plays A pg r → page_ok pg ∧ (pg ∉ v_free A) ∧ ∃ ws, is_page (k_mem s) pg ws;
  v_kmem : kmem_ok s (v_free A) }.

(** Only memory, the free list and the console output differ. *)
Definition vm_rest (s s' : kernel) : Prop :=
  s' = set_k_mem (k_mem s') (set_k_freelist (k_freelist s')
         (set_k_output (k_output s') (set_k_cga (k_cga s') s))) ∧
  (cons_ok s → cons_ok s').

(** How one address space becomes another: no page is lost or gained, and a
    page that is neither a directory or table page of the space nor free before
    or after keeps its contents. *)
Record vstep (s s' : kernel) (A A' : vsp) : Prop := {
  vs_rest : vm_rest s s';
  vs_owned : ∀ pg, owned A pg ↔ owned A' pg;
  vs_mem : ∀ pg, pg ≠ v_dir A → (∀ i, v_tab A !! i ≠ Some pg) → pg ∉ v_free A → pg ∉ v_free A' →
    k_mem s' !! pg = k_mem s !! pg }.

Lemma vm_rest_refl s : vm_rest s s.
Proof. split; [by destruct s|done]. Qed.

Lemma vm_rest_trans s1 s2 s3 : vm_rest s1 s2 → vm_rest s2 s3 → vm_rest s1 s3.
Proof.
  intros [H1 H1'] [H2 H2']. split; [|auto]. rewrite H2. rewrite H1 at 1. by destruct s1.
Qed.

Lemma vstep_refl s A : vstep s s A A.
Proof. split; [apply vm_rest_refl|done|done]. Qed.

(** Steps compose when the pages free in between were free at one end. *)
Lemma vstep_trans s1 s2 s3 A1 A2 A3 :
  vstep s1 s2 A1 A2 → vstep s2 s3 A2 A3 → v_dir A2 = v_dir A1 →
  (∀ i pt, v_tab A2 !! i = Some pt → v_tab A1 !! i = Some pt ∨ pt ∈ v_free A1) →
  v_free A2 ⊆ v_free A1 ∨ v_free A2 ⊆ v_free A3 → vstep s1 s3 A1 A3.
Proof.
  intros [R1 O1 M1] [R2 O2 M2] Hd Ht Hf. split.
  - by eapply vm_rest_trans.
  - intros pg. by rewrite O1.
  - intros pg Hpd Hpt Hp1 Hp3. assert (pg ∉ v_free A2) by (destruct Hf; set_solver).
    rewrite M2; [by apply M1|by rewrite Hd| |done|done].
    intros i Hi. apply Ht in Hi as [Hi|Hi]; [by eapply Hpt|done].
Qed.

(** ** Moving pages between roles *)

Definition upd (m : Z → Z) (v e : Z) : Z → Z := λ v', if v' =? v then e else m v'.
Definition set_map (m : Z → Z) (A : vsp) : vsp := mkVsp (v_dir A) (v_tab A) m (v_hand A) (v_free A).
Definition set_hand (h : list Z) (A : vsp) : vsp := mkVsp (v_dir A) (v_tab A) (v_map A) h (v_free A).
Definition set_free (l : list Z) (A : vsp) : vsp := mkVsp (v_dir A) (v_tab A) (v_map A) (v_hand A) l.
Definition set_tab (T : gmap Z Z) (A : vsp) : vsp := mkVsp (v_dir A) T (v_map A) (v_hand A) (v_free A).
Definition drop_hand (pg : Z) (A : vsp) : vsp := set_hand (filter (λ x, x ≠ pg) (v_hand A)) A.

Lemma upd_eq m v e : upd m v e v = e.
Proof. unfold upd. by rewrite Z.eqb_refl. Qed.
Lemma upd_ne m v e v' : v' ≠ v → upd m v e v' = m v'.
Proof. intros. unfold upd. by ztest. Qed.

(** Directory and tables do not see a store to any other page. *)
Lemma dir_ok_other mem A pg ws :
  dir_ok mem A → pg ≠ v_dir A → (∀ i, v_tab A !! i ≠ Some pg) → dir_ok (<[pg := ws]> mem) A.
Proof.
  intros (dws & [Hd Hl] & Hi) Hne Ht. exists dws. split; [split; [by rewrite lookup_insert_ne|done]|].
  intros i Hir. destruct (Hi i Hir) as (e & He & Hp). exists e. split; [done|]. unfold pde_ok in *.
  destruct (v_tab A !! i) as [pt|] eqn:Ei; [|done]. destruct Hp as (H1 & H2 & ws' & [H3 H4] & H5).
  split_and!; [done|done|]. exists ws'. split; [|done]. split; [|done].
  rewrite lookup_insert_ne; [done|]. intros ->. by apply (Ht i).
Qed.

Lemma is_page_insert mem pg pg' ws : length ws = PGWORDS →
  (∃ ws, is_page mem pg' ws) → ∃ ws', is_page (<[pg := ws]> mem) pg' ws'.
Proof.
  intros Hl [ws' [H1 H2]]. destruct (decide (pg = pg')) as [<-|Hne].
  - exists ws. split; [apply lookup_insert_eq|done].
  - exists ws'. split; [by rewrite lookup_insert_ne|done].
Qed.

(** A store to a page in the hands or to a user frame. *)
Lemma vok_store s A pg ws r :
  vok s A → plays A pg r → (match r with RFrame _ | RHand => True | _ => False end) →
  length ws = PGWORDS → vok (set_k_mem (<[pg := ws]> (k_mem s)) s) A.
Proof.
  intros [Hw Hs Hr Hh Ho Hk] Hpg Hrole Hl. split; try done.
  - simpl. apply dir_ok_other; [done| |].
    + intros ->. pose proof (Hr _ _ RDir Hpg eq_refl) as ->. done.
    + intros i Hi. pose proof (Hr _ _ (RTab i) Hpg Hi) as ->. done.
  - intros pg' r' Hp'. destruct (Ho pg' r' Hp') as (H1 & H2 & H3). split_and!; [done|done|].
    simpl. by apply is_page_insert.
  - destruct Hk. split; try done. apply chain_other; [|done]. by apply (Ho pg r).
Qed.

(** [kalloc] takes the first free page into the hands. *)
Lemma vok_take s A a l next :
  vok s A → v_free A = a :: l → chain (k_mem s) next l →
  vok (set_k_freelist next s) (set_hand (a :: v_hand A) (set_free l A)).
Proof.
  intros [Hw Hs Hr Hh Ho [Hc Hnd Hp Hlk]] E Hn. rewrite E in *.
  assert (∀ r, ¬ plays A a r) as Ha.
  { intros r Hpl. destruct (Ho a r Hpl) as (_ & Hf & _). apply Hf. left. }
  assert (∀ pg r, plays (set_hand (a :: v_hand A) (set_free l A)) pg r →
    (pg = a ∧ r = RHand) ∨ (pg ≠ a ∧ plays A pg r)) as Hcase.
  { intros pg r Hpl. destruct (decide (pg = a)) as [->|Hne].
    - left. split; [done|]. destruct r as [| | |]; [by destruct (Ha RDir)|
        by destruct (Ha (RTab i))|by destruct (Ha (RFrame v))|done].
    - right. split; [done|]. destruct r; try done. simpl in *. set_solver. }
  apply NoDup_cons in Hnd as [Hnin Hnd]. apply Forall_cons in Hp as [Hpa Hp]. split; try done.
  - intros pg r r' [[-> ->]|[? ?]]%Hcase [[? ->]|[? ?]]%Hcase; try done. by eapply Hr.
  - simpl. constructor; [|done]. intros Hin. by apply (Ha RHand).
  - intros pg r [[-> ->]|[? Hpl]]%Hcase.
    + split_and!; [done|done|]. simpl in Hc. destruct Hc as (_ & ws & H1 & H2 & _). by exists ws.
    + destruct (Ho pg r Hpl) as (H1 & H2 & H3). split_and!; [done| |done]. simpl. set_solver.
Qed.

(** [kfree] puts a page from the hands on the free list. *)
Lemma vok_give s A pg :
  vok s A → pg ∈ v_hand A →
  vok (push_page pg s) (set_free (pg :: v_free A) (drop_hand pg A)).
Proof.
  intros HV Hin. pose proof HV as [Hw Hs Hr Hh Ho Hk].
  assert (∀ pg' r, plays (set_free (pg :: v_free A) (drop_hand pg A)) pg' r → pg' ≠ pg ∧ plays A pg' r) as Hcase.
  { intros pg' r Hpl. assert (plays A pg' r) as Hpl'.
    { destruct r; try done. simpl in *. by apply list_elem_of_filter in Hpl as [_ ?]. }
    split; [|done]. intros ->. assert (r = RHand) as -> by (by eapply Hr).
    simpl in Hpl. apply list_elem_of_filter in Hpl as [Hne _]. done. }
  destruct (Ho pg RHand Hin) as (Hpok & Hfree & _).
  assert (length (k_freelist s :: replicate (PGWORDS - 1) junk) = PGWORDS) as Hlen by reflexivity.
  pose proof (vok_store s A pg _ RHand HV Hin I Hlen) as [Hw' _ _ _ Ho' _].
  split; try done.
  - intros pg' r r' [_ H1]%Hcase [_ H2]%Hcase. by eapply Hr.
  - simpl. by apply NoDup_filter.
  - intros pg' r [Hne Hpl]%Hcase. destruct (Ho' pg' r Hpl) as (H1 & H2 & H3). split_and!; [done| |done].
    simpl. by apply not_elem_of_cons.
  - by apply kmem_push.
Qed.

(** The store of an entry through a [pte_t *]. *)
Definition poke (pg : Z) (j : nat) (e : Z) (s : kernel) : kernel :=
  set_k_mem (alter (λ ws, <[j := e]> ws) pg (k_mem s)) s.

Lemma wp_get_word pg j ws e (Q : Z → kernel → Prop) s :
  k_mem s !! pg = Some ws → ws !! j = Some e → Q e s → wp (get_word pg j) Q s.
Proof.
  intros H1 H2 HQ. unfold get_word. apply wp_bind, wp_gets, wp_bind.
  eapply wp_deref; [exact H1|]. by eapply wp_deref.
Qed.

Lemma wp_poke pg j ws e (Q : unit → kernel → Prop) s :
  k_mem s !! pg = Some ws → Q tt (poke pg j e s) → wp (set_word pg j e) Q s.
Proof.
  intros H1 HQ. unfold set_word. apply wp_bind, wp_gets, wp_bind.
  eapply wp_deref; [exact H1|]. apply wp_modify. unfold poke in HQ.
  by erewrite map_alter_insert in HQ by exact H1.
Qed.

Lemma poke_insert pg j e s ws :
  k_mem s !! pg = Some ws → poke pg j e s = set_k_mem (<[pg := <[j := e]> ws]> (k_mem s)) s.
Proof. intros H1. unfold poke. by erewrite map_alter_insert by exact H1. Qed.

(** Storing [e] in the slot [j] of the table of directory entry [i]. *)
Lemma dir_ok_poke s A i j pt e :
  vok s A → v_tab A !! i = Some pt → 0 ≤ j < 1024 →
  dir_ok (k_mem (poke pt (Z.to_nat j) e s)) (set_map (upd (v_map A) (i * 1024 + j) e) A).
Proof.
  intros [(dws & [Hd Hdl] & Hi) Hs Hr _ Ho _] Ht Hj. exists dws.
  assert (pt ≠ v_dir A) as Hne.
  { intros Hpt. by pose proof (Hr pt RDir (RTab i) Hpt Ht). }
  destruct (Ho pt (RTab i) Ht) as (_ & _ & wst & Hm & Hlt).
  rewrite (poke_insert _ _ _ _ _ Hm). simpl. split; [split; [by rewrite lookup_insert_ne|done]|].
  intros i' Hi'. destruct (Hi i' Hi') as (e' & He' & Hp). exists e'. split; [done|].
  unfold pde_ok in *. simpl in *. destruct (v_tab A !! i') as [pt'|] eqn:Et'.
  - destruct Hp as (H1 & H2 & ws & [H3 H4] & H5). split_and!; [done|done|].
    destruct (decide (i' = i)) as [->|Hii].
    + assert (pt' = pt) as -> by congruence. assert (wst = ws) as -> by congruence.
      exists (<[Z.to_nat j := e]> ws). split; [split; [apply lookup_insert_eq|by rewrite length_insert]|].
      intros j' Hj'. destruct (decide (j' = j)) as [->|Hjj].
      * rewrite upd_eq. apply list_lookup_insert_eq. unfold PGWORDS in H4. lia.
      * rewrite upd_ne by lia. rewrite list_lookup_insert_ne by lia. by apply H5.
    + assert (pt' ≠ pt) by (intros ->; pose proof (Hr pt (RTab i) (RTab i') Ht Et'); congruence).
      exists ws. split; [split; [by rewrite lookup_insert_ne|done]|].
      intros j' Hj'. rewrite upd_ne; [by apply H5|lia].
  - destruct Hp as [H1 H2]. split; [done|]. intros j' Hj'.
    assert (i' ≠ i) by congruence. rewrite upd_ne; [by apply H2|lia].
Qed.

Lemma vok_poke s A i j pt e h :
  vok s A → v_tab A !! i = Some pt → 0 ≤ j < 1024 →
  let A' := set_hand h (set_map (upd (v_map A) (i * 1024 + j) e) A) in
  (∀ pg r r', plays A' pg r → plays A' pg r' → r = r') →
  (∀ pg r, plays A' pg r → ∃ r0, plays A pg r0) → NoDup h →
  vok (poke pt (Z.to_nat j) e s) A'.
Proof.
  intros HV Ht Hj A' Hrole Hsub Hnd. pose proof (dir_ok_poke _ _ _ _ _ e HV Ht Hj) as Hdir.
  destruct HV as [_ Hs Hr _ Ho Hk]. destruct (Ho pt (RTab i) Ht) as (_ & Hfree & wst & Hm & Hlt).
  assert (length (<[Z.to_nat j := e]> wst) = PGWORDS) as Hlen by (by rewrite length_insert).
  split; [exact Hdir|done|done|done| |]; rewrite (poke_insert _ _ _ _ _ Hm); simpl.
  - intros pg r Hpl. destruct (Hsub pg r Hpl) as [r0 Hpl0].
    destruct (Ho pg r0 Hpl0) as (H1 & H2 & H3). split_and!; [done|done|by apply is_page_insert].
  - destruct Hk. split; try done. by apply chain_other.
Qed.

(** An entry of the kernel part owns nothing. *)
Lemma vok_poke_kernel s A i j pt e :
  vok s A → v_tab A !! i = Some pt → 0 ≤ j < 1024 → UPAGES ≤ i * 1024 + j →
  vok (poke pt (Z.to_nat j) e s) (set_map (upd (v_map A) (i * 1024 + j) e) A).
Proof.
  intros HV Ht Hj Hu.
  assert (∀ pg r, plays (set_map (upd (v_map A) (i * 1024 + j) e) A) pg r → plays A pg r) as Hsame.
  { intros pg [| |v|] Hpl; try done. simpl in *. rewrite upd_ne in Hpl by lia. done. }
  apply (vok_poke s A i j pt e (v_hand A)); [done|done|done| | |by destruct HV].
  - intros pg r r' H1%Hsame H2%Hsame. by eapply (v_role s A HV).
  - intros pg r Hpl%Hsame. by exists r.
Qed.

(** A page in the hands becomes the frame of a user page that had none. *)
Lemma vok_poke_map s A i j pt e :
  vok s A → v_tab A !! i = Some pt → 0 ≤ j < 1024 → 0 ≤ i * 1024 + j < UPAGES →
  present (v_map A (i * 1024 + j)) = false → present e = true → frame e ∈ v_hand A →
  vok (poke pt (Z.to_nat j) e s)
      (drop_hand (frame e) (set_map (upd (v_map A) (i * 1024 + j) e) A)).
Proof.
  intros HV Ht Hj Hu Hno Hpe Hin. set (v0 := i * 1024 + j) in *.
  assert (∀ pg r, plays (drop_hand (frame e) (set_map (upd (v_map A) v0 e) A)) pg r →
    (pg = frame e ∧ r = RFrame v0) ∨ (pg ≠ frame e ∧ plays A pg r)) as Hcase.
  { intros pg r Hpl. assert (plays A pg r ∨ (pg = frame e ∧ r = RFrame v0)) as Hor.
    { destruct r as [| |v|]; [by left..| |left].
      - simpl in *. destruct (decide (v = v0)) as [->|Hne]; [rewrite upd_eq in Hpl|rewrite upd_ne in Hpl by done].
        + right. by destruct Hpl as (_ & _ & ->).
        + by left.
      - simpl in *. by apply list_elem_of_filter in Hpl as [_ ?]. }
    destruct Hor as [Hpl0|]; [|by left]. right. split; [|done]. intros ->.
    assert (r = RHand) as -> by (by eapply (v_role s A HV)). simpl in Hpl.
    apply list_elem_of_filter in Hpl as [Hne _]. done. }
  apply (vok_poke s A i j pt e); [done|done|done| | |].
  - intros pg r r' [[-> ->]|[? ?]]%Hcase [[? ->]|[? ?]]%Hcase; try done. by eapply (v_role s A HV).
  - intros pg r [[-> ->]|[? ?]]%Hcase; [by exists RHand|by exists r].
  - apply NoDup_filter, HV.
Qed.

(** Clearing the entry of a user page takes its frame into the hands. *)
Lemma vok_poke_unmap s A i j pt :
  vok s A → v_tab A !! i = Some pt → 0 ≤ j < 1024 → 0 ≤ i * 1024 + j < UPAGES →
  present (v_map A (i * 1024 + j)) = true →
  vok (poke pt (Z.to_nat j) 0 s)
      (set_hand (frame (v_map A (i * 1024 + j)) :: v_hand A)
         (set_map (upd (v_map A) (i * 1024 + j) 0) A)).
Proof.
  intros HV Ht Hj Hu Hp. set (v0 := i * 1024 + j) in *. set (f := frame (v_map A v0)).
  assert (plays A f (RFrame v0)) as Hf by done.
  assert (∀ pg r, plays (set_hand (f :: v_hand A) (set_map (upd (v_map A) v0 0) A)) pg r →
    (pg = f ∧ r = RHand) ∨ (pg ≠ f ∧ plays A pg r)) as Hcase.
  { intros pg r Hpl. destruct (decide (pg = f)) as [->|Hne].
    - left. split; [done|]. destruct r as [|i'|v|]; [..|done].
      + by pose proof (v_role s A HV f _ RDir Hf Hpl).
      + by pose proof (v_role s A HV f _ (RTab i') Hf Hpl).
      + simpl in Hpl. destruct (decide (v = v0)) as [->|Hv]; [by rewrite upd_eq in Hpl; destruct Hpl as (_ & ? & _)|].
        rewrite upd_ne in Hpl by done. pose proof (v_role s A HV f _ (RFrame v) Hf Hpl). congruence.
    - right. split; [done|]. destruct r as [| |v|]; [done|done| |].
      + simpl in *. destruct (decide (v = v0)) as [->|Hv]; [by rewrite upd_eq in Hpl; destruct Hpl as (_ & ? & _)|].
        by rewrite upd_ne in Hpl by done.
      + simpl in *. by apply elem_of_cons in Hpl as [|]. }
  apply (vok_poke s A i j pt 0); [done|done|done| | |].
  - intros pg r r' [[-> ->]|[? ?]]%Hcase [[? ->]|[? ?]]%Hcase; try done. by eapply (v_role s A HV).
  - intros pg r [[-> ->]|[? ?]]%Hcase; [by exists (RFrame v0)|by exists r].
  - constructor; [|apply HV]. intros Hin. by pose proof (v_role s A HV f _ RHand Hf Hin).
Qed.

(** ** walkpgdir *)

(** A zeroed page in the hands becomes the table of an empty directory slot. *)
Lemma vok_add_table s A i pt e :
  vok s A → pt ∈ v_hand A → k_mem s !! pt = Some (replicate PGWORDS 0) →
  0 ≤ i < 1024 → v_tab A !! i = None → present e = true → PTE_ADDR e = pt - KERNBASE →
  vok (poke (v_dir A) (Z.to_nat i) e s) (set_tab (<[i := pt]> (v_tab A)) (drop_hand pt A)).
Proof.
  intros HV Hin Hz Hi Hno Hpe Hae. pose proof HV as [(dws & [Hd Hdl] & Hw) Hs Hr Hh Ho Hk].
  set (A' := set_tab (<[i := pt]> (v_tab A)) (drop_hand pt A)).
  assert (∀ pg r, plays A' pg r → (pg = pt ∧ r = RTab i) ∨ (pg ≠ pt ∧ plays A pg r)) as Hcase.
  { intros pg r Hpl. assert (plays A pg r ∨ (pg = pt ∧ r = RTab i)) as Hor.
    { destruct r as [|i'|v|]; [by left| |by left|left].
      - simpl in Hpl. apply lookup_insert_Some in Hpl as [[-> ->]|[_ ?]]; [by right|by left].
      - simpl in *. by apply list_elem_of_filter in Hpl as [_ ?]. }
    destruct Hor as [Hpl0|]; [|by left]. right. split; [|done]. intros ->.
    assert (r = RHand) as -> by (by eapply Hr). simpl in Hpl.
    apply list_elem_of_filter in Hpl as [Hne _]. done. }
  assert (pt ≠ v_dir A) as Hptd by (intros E; by pose proof (Hr pt RHand RDir Hin E)).
  assert (length (<[Z.to_nat i := e]> dws) = PGWORDS) as Hlen by (by rewrite length_insert).
  split.
  - rewrite (poke_insert _ _ _ _ _ Hd). exists (<[Z.to_nat i := e]> dws). simpl.
    split; [split; [apply lookup_insert_eq|done]|]. intros i' Hi'.
    destruct (Hw i' Hi') as (e' & He' & Hp'). unfold pde_ok in *. simpl.
    destruct (decide (i' = i)) as [->|Hne].
    + exists e. split; [apply list_lookup_insert_eq; unfold PGWORDS in Hdl; lia|].
      rewrite lookup_insert_eq. split_and!; [done|done|]. exists (replicate PGWORDS 0).
      split; [split; [by rewrite lookup_insert_ne|done]|].
      intros j Hj. rewrite Hno in Hp'. destruct Hp' as [_ Hp']. rewrite Hp' by done.
      apply lookup_replicate_2. unfold PGWORDS. lia.
    + exists e'. rewrite list_lookup_insert_ne by lia. split; [done|].
      rewrite lookup_insert_ne by done. destruct (v_tab A !! i') as [pt'|] eqn:Et; [|done].
      destruct Hp' as (H1 & H2 & ws & [H3 H4] & H5). split_and!; [done|done|].
      exists ws. split; [split; [|done]|done]. rewrite lookup_insert_ne; [done|].
      intros E. by pose proof (Hr pt' RDir (RTab i') (eq_sym E) Et).
  - intros i' pt'. simpl. intros [[<- <-]|[_ ?]]%lookup_insert_Some; [done|by eapply Hs].
  - intros pg r r' [[-> ->]|[? ?]]%Hcase [[? ->]|[? ?]]%Hcase; try done. by eapply Hr.
  - simpl. by apply NoDup_filter.
  - rewrite (poke_insert _ _ _ _ _ Hd). intros pg r Hpl.
    assert (∃ r0, plays A pg r0) as [r0 Hpl0]
      by (apply Hcase in Hpl as [[-> ->]|[? ?]]; [by exists RHand|by exists r]).
    destruct (Ho pg r0 Hpl0) as (H1 & H2 & H3). split_and!; [done|done|by apply is_page_insert].
  - rewrite (poke_insert _ _ _ _ _ Hd). destruct Hk. split; try done.
    apply chain_other; [|done]. by apply (Ho (v_dir A) RDir).
Qed.

Lemma wp_P2V a pt (Q : Z → kernel → Prop) s :
  a = pt - KERNBASE → page_ok pt → Q pt s → wp (P2V a) Q s.
Proof.
  intros -> (H1 & H2 & H3) HQ. unfold P2V. unfold KERNBASE, PHYSTOP in *. ztest.
  apply wp_ret. rewrite u32_small by lia. by replace (pt - _ + _) with pt by lia.
Qed.
Lemma wp_V2P pt (Q : Z → kernel → Prop) s : page_ok pt → Q (pt - KERNBASE) s → wp (V2P pt) Q s.
Proof. intros (H1 & H2 & H3) HQ. unfold V2P. ztest. by apply wp_ret. Qed.

(** The virtual page number split into directory and table index. *)
Lemma vpn_split va : 0 ≤ va < 2 ^ 32 →
  PDX va * 1024 + PTX va = va / PGSIZE ∧ 0 ≤ PDX va < 1024 ∧ 0 ≤ PTX va < 1024.
Proof.
  intros Hva. destruct (PDX_spec va Hva) as [E1 ?], (PTX_spec va Hva) as [E2 ?].
  split_and!; try lia. rewrite E1, E2. pose proof (Z.div_mod (va / PGSIZE) 1024 ltac:(lia)). lia.
Qed.

Lemma wp_walk s A va (Q : option ptep → kernel → Prop) :
  vok s A → 0 ≤ va < 2 ^ 32 →
  Q (pt ← v_tab A !! PDX va; Some (pt, Z.to_nat (PTX va))) s → wp (walkpgdir (v_dir A) va false) Q s.
Proof.
  intros HV Hva HQ. destruct (vpn_split va Hva) as (_ & Hi & _).
  destruct (v_words s A HV) as (ws & [Hd _] & Hw). destruct (Hw _ Hi) as (e & He & Hp).
  unfold walkpgdir. apply wp_bind. eapply wp_get_word; [exact Hd|exact He|].
  unfold pde_ok in Hp. destruct (v_tab A !! PDX va) as [pt|] eqn:Et; simpl in HQ.
  - destruct Hp as (-> & Ha & _). apply wp_bind. eapply wp_P2V; [exact Ha| |by apply wp_ret].
    by apply (v_own s A HV pt (RTab (PDX va))).
  - destruct Hp as (-> & _). by apply wp_ret.
Qed.

(** The entry behind the pointer [walkpgdir] returns. *)
Lemma wp_get_pte s A va pt (Q : Z → kernel → Prop) :
  vok s A → 0 ≤ va < 2 ^ 32 → v_tab A !! PDX va = Some pt →
  Q (v_map A (va / PGSIZE)) s → wp (get_pte (pt, Z.to_nat (PTX va))) Q s.
Proof.
  intros HV Hva Ht HQ. destruct (vpn_split va Hva) as (Hv & Hi & Hj).
  destruct (v_words s A HV) as (ws & _ & Hw). destruct (Hw _ Hi) as (e & He & Hp).
  unfold pde_ok in Hp. rewrite Ht in Hp. destruct Hp as (_ & _ & ws' & [Hm _] & Hws).
  eapply wp_get_word; [exact Hm|by apply Hws|]. by rewrite Hv.
Qed.

(** What [kalloc] does to the address space it works for. *)
Lemma wp_kalloc_vok s A (Q : Z → kernel → Prop) :
  vok s A → (v_free A = [] → Q 0 s) →
  (∀ a l s', v_free A = a :: l → a ≠ 0 → k_mem s' = k_mem s → vm_rest s s' →
     vok s' (set_hand (a :: v_hand A) (set_free l A)) → Q a s') →
  wp kalloc Q s.
Proof.
  intros HV H0 H1. eapply wp_kalloc; [apply HV|]. destruct (v_free A) as [|a l] eqn:E; [by apply H0|].
  intros next Hn. apply (H1 a l); [done| |done|split; [by destruct s|done]|by eapply vok_take].
  pose proof (km_pages _ _ (v_kmem s A HV)) as Hp. rewrite E in Hp.
  apply Forall_cons in Hp as [Hp _]. by apply page_nonzero in Hp.
Qed.

(** [A'] has the tables of [A] and new ones from its free list, from which at
    most [n] pages have gone. *)
Record grows (n : nat) (A A' : vsp) : Prop := {
  gr_dir : v_dir A' = v_dir A;
  gr_old : ∀ i pt, v_tab A !! i = Some pt → v_tab A' !! i = Some pt;
  gr_new : ∀ i pt, v_tab A' !! i = Some pt → v_tab A !! i = Some pt ∨ pt ∈ v_free A;
  gr_free : v_free A' ⊆ v_free A;
  gr_len : (length (v_free A) ≤ length (v_free A') + n)%nat }.

Lemma grows_refl n A : grows n A A.
Proof. split; auto with lia. Qed.
Lemma grows_trans n m A1 A2 A3 : grows n A1 A2 → grows m A2 A3 → grows (n + m) A1 A3.
Proof.
  intros [D1 O1 N1 F1 L1] [D2 O2 N2 F2 L2]. split; [congruence|auto| |set_solver|lia].
  intros i pt [Hi|Hi]%N2; [by apply N1|right; by apply F1].
Qed.
Lemma grows_step n s1 s2 s3 A1 A2 A3 :
  grows n A1 A2 → vstep s1 s2 A1 A2 → vstep s2 s3 A2 A3 → vstep s1 s3 A1 A3.
Proof. intros [D1 O1 N1 F1 L1] H1 H2. by eapply vstep_trans; [exact H1|exact H2|..|left]. Qed.

(** The table page [walkpgdir] allocates. *)
Lemma wp_new_table s A i (Q : option ptep → kernel → Prop) j :
  vok s A → 0 ≤ i < 1024 → v_tab A !! i = None →
  (v_free A = [] → Q None s) →
  (∀ s' pt l, v_free A = pt :: l →
     let A' := set_free l (set_tab (<[i := pt]> (v_tab A)) A) in
     vok s' A' → vstep s s' A A' → Q (Some (pt, j)) s') →
  wp (pgtab ← kalloc;
      if pgtab =? 0 then mret None else
      fill_page pgtab 0 ;;
      pa ← V2P pgtab;
      set_word (v_dir A) (Z.to_nat i) (Z.lor (Z.lor (Z.lor pa PTE_P) PTE_W) PTE_U) ;;
      mret (Some (pgtab, j))) Q s.
Proof.
  intros HV Hi Hno H0 H1. apply wp_bind. eapply wp_kalloc_vok; [exact HV|intros; ztest; by apply wp_ret, H0|].
  intros a l s1 E Ha Hm Hrest HV1. ztest. set (A1 := set_hand _ _) in HV1.
  assert (a ∈ v_hand A1) as Hin by left.
  destruct (v_own _ _ HV1 a RHand Hin) as (Hok & Hnf & _).
  unfold fill_page. apply wp_bind, wp_modify, wp_bind, wp_V2P; [done|]. apply wp_bind.
  pose proof (vok_store s1 A1 a (replicate PGWORDS 0) RHand HV1 Hin I eq_refl) as HV2.
  set (s2 := set_k_mem _ s1) in HV2. change (set_k_mem _ s1) with s2.
  destruct (v_words _ _ HV2) as (dws & [Hd _] & _).
  eapply wp_poke; [exact Hd|]. apply wp_ret.
  replace (Z.lor (Z.lor (Z.lor (a - KERNBASE) PTE_P) PTE_W) PTE_U) with (mkpte (a - KERNBASE) 6)
    by (unfold mkpte, PTE_P, PTE_W, PTE_U; by rewrite <- !Z.lor_assoc).
  destruct Hok as (Hal & Hke & Hrg).
  destruct (mkpte_spec (a - KERNBASE) 6) as (_ & Hadr & Hpr & _).
  { rewrite Zminus_mod, Hal. done. }
  { unfold KERNBASE, PHYSTOP in *. lia. } { unfold PGSIZE. lia. }
  pose proof (vok_add_table s2 A1 i a _ HV2 Hin (lookup_insert_eq _ _ _) Hi Hno Hpr Hadr) as HV3.
  assert (drop_hand a A1 = set_free l A) as EA.
  { unfold drop_hand, A1. simpl. unfold set_hand, set_free. simpl. f_equal.
    rewrite filter_cons_False by (intros []; done). apply filter_notin. intros Hx.
    destruct (v_own _ _ HV a RHand Hx) as (_ & Hnf' & _). apply Hnf'. rewrite E. left. }
  rewrite EA in HV3. apply (H1 _ a l E HV3).
  assert (a ∈ v_free A) as Haf by (rewrite E; left).
  rewrite (poke_insert _ _ _ _ _ Hd). split.
  - split; [|by destruct Hrest]. destruct Hrest as [Hrest _]. unfold s2. rewrite Hrest. by destruct s.
  - intros pg. unfold owned. rewrite E. split.
    + intros [[r Hpl]|Hf]; [left|].
      * exists r. destruct r as [|i'|v|]; [done| |done|done]. simpl in *.
        rewrite lookup_insert_ne; [done|]. intros ->. congruence.
      * apply elem_of_cons in Hf as [->|Hf]; [left; exists (RTab i); apply lookup_insert_eq|by right].
    + intros [[r Hpl]|Hf]; [|right; by right]. destruct r as [|i'|v|].
      * left. by exists RDir.
      * simpl in Hpl. apply lookup_insert_Some in Hpl as [[_ ->]|[_ ?]]; [right; left|left; by exists (RTab i')].
      * left. by exists (RFrame v).
      * left. by exists RHand.
  - intros pg Hpd _ Hpf _. unfold s2. simpl. rewrite lookup_insert_ne by done.
    rewrite lookup_insert_ne by (intros <-; done). by rewrite Hm.
Qed.

Lemma wp_walk_alloc s A va (Q : option ptep → kernel → Prop) :
  vok s A → 0 ≤ va < 2 ^ 32 →
  (v_free A = [] → Q None s) →
  (∀ s' A' pt, vok s' A' → vstep s s' A A' → grows 1 A A' → v_map A' = v_map A →
     v_hand A' = v_hand A → v_tab A' !! PDX va = Some pt → Q (Some (pt, Z.to_nat (PTX va))) s') →
  wp (walkpgdir (v_dir A) va true) Q s.
Proof.
  intros HV Hva H0 H1. destruct (vpn_split va Hva) as (_ & Hi & _).
  destruct (v_words s A HV) as (ws & [Hd _] & Hw). destruct (Hw _ Hi) as (e & He & Hp).
  unfold walkpgdir. apply wp_bind. eapply wp_get_word; [exact Hd|exact He|].
  unfold pde_ok in Hp. destruct (v_tab A !! PDX va) as [pt|] eqn:Et.
  - destruct Hp as (-> & Ha & _). apply wp_bind. eapply wp_P2V; [exact Ha| |].
    { by apply (v_own s A HV pt (RTab (PDX va))). }
    apply wp_ret. by apply (H1 s A pt HV (vstep_refl s A) (grows_refl 1 A)).
  - destruct Hp as (-> & _). simpl negb. apply wp_new_table; [done|done|done|done|].
    intros s' pt l E A' HV' Hst. apply (H1 s' A'); [done|done| |done|done|apply lookup_insert_eq].
    clear H1 H0. split.
    + reflexivity.
    + intros i pt' Hi'. change (<[PDX va := pt]> (v_tab A) !! i = Some pt').
      rewrite lookup_insert_ne; [exact Hi'|]. congruence.
    + intros i pt'. change (v_tab A') with (<[PDX va := pt]> (v_tab A)).
      intros [[_ <-]|[_ ?]]%lookup_insert_Some; [right; rewrite E; left|by left].
    + rewrite E. intros x Hx. right. exact Hx.
    + rewrite E. apply Nat.eq_le_incl. symmetry. apply Nat.add_comm.
Qed.
End Inv.
