(* ===== verification/VmOps.v ===== *)
(** * VmOps: the theorems about vm.c

    [mappages], [setupkvm], [allocuvm], [deallocuvm], [freevm], [copyuvm] and
    [copyout] as steps between address spaces in the sense of VmSpec. *)

From S2P Require Import Prelude State Lock Console Kalloc Vm VmSpec.

(** The sizes of the address space as numbers. *)
Ltac vsize :=
  change UPAGES with 524288 in *; change VPAGES with 1048576 in *;
  change PGSIZE with 4096 in *; change KERNBASE with 2147483648 in *.

Section Ops.
Context {KE : KernEnd} {KD : KernData}.

(** The kernel image is linked above [KERNBASE]. *)
Hypothesis Hend : KERNBASE < kend.

Definition zero_page : list Z := replicate PGWORDS 0.

(** ** Entries *)

Lemma PGROUNDDOWN_spec a : PGROUNDDOWN a = a / PGSIZE * PGSIZE.
Proof. unfold PGROUNDDOWN. change (PGSIZE - 1) with (2 ^ 12 - 1). by apply land_lnot_ones. Qed.

Lemma vstep_poke s A A' i j e pt :
  vok s A → v_tab A !! i = Some pt →
  (∀ pg, (∃ r, plays A pg r) ↔ (∃ r, plays A' pg r)) → v_free A' = v_free A →
  vstep s (poke pt j e s) A A'.
Proof.
  intros HV Ht Hpl Hf. split.
  - split; [by destruct s|done].
  - intros pg. unfold owned. by rewrite Hpl, Hf.
  - intros pg _ Hnt _ _. unfold poke. simpl. rewrite lookup_alter_ne; [done|].
    intros ->. by apply (Hnt i).
Qed.

(** One new entry: the table it needs, the test for a remap, the store. *)
Lemma wp_map_one s A va e (Q : option unit → kernel → Prop) :
  vok s A → 0 ≤ va < 2 ^ 32 → present (v_map A (va / PGSIZE)) = false →
  (v_free A = [] → Q None s) →
  (∀ s1 A1 pt, vok s1 A1 → vstep s s1 A A1 → grows 1 A A1 → v_map A1 = v_map A →
     v_hand A1 = v_hand A → v_tab A1 !! PDX va = Some pt →
     Q (Some tt) (poke pt (Z.to_nat (PTX va)) e s1)) →
  wp (r ← walkpgdir (v_dir A) va true;
      match r with
      | None => mret None
      | Some p =>
          pte ← get_pte p;
          if present pte then panic "remap" else set_pte p e ;; mret (Some tt)
      end) Q s.
Proof.
  intros HV Hva Hno H0 H1. apply wp_bind. eapply wp_walk_alloc; [exact HV|done|intros E; by apply wp_ret, H0|].
  intros s1 A1 pt HV1 Hst Hg Hm Hh Ht. apply wp_bind. eapply wp_get_pte; [exact HV1|done|exact Ht|].
  rewrite Hm, Hno. apply wp_bind.
  destruct (v_own _ _ HV1 pt (RTab _) Ht) as (_ & _ & ws & Hws & _).
  eapply wp_poke; [exact Hws|]. apply wp_ret. by apply (H1 s1 A1 pt).
Qed.

(** The loop of [mappages] in terms of [wp_map_one]. *)
Lemma mappages_loop_S fuel d a last pa perm (Q : bool → kernel → Prop) s :
  wp (r ← walkpgdir d a true;
      match r with
      | None => mret None
      | Some p =>
          pte ← get_pte p;
          if present pte then panic "remap" else set_pte p (mkpte pa perm) ;; mret (Some tt)
      end)
     (λ r s', match r with
              | None => Q false s'
              | Some _ => if a =? last then Q true s'
                          else wp (mappages_loop fuel d (u32 (a + PGSIZE)) last (u32 (pa + PGSIZE)) perm) Q s'
              end) s →
  wp (mappages_loop (S fuel) d a last pa perm) Q s.
Proof.
  cbn [mappages_loop]. intros Hw%wp_bind_inv. apply wp_bind. eapply wp_mono; [exact Hw|].
  intros [p|] s1 Hp; [|exact Hp]. apply wp_bind_inv in Hp. apply wp_bind. eapply wp_mono; [exact Hp|].
  intros pte s2. cbn beta. destruct (present pte); intros Hr; [exact Hr|]. apply wp_bind_inv in Hr. apply wp_bind.
  eapply wp_mono; [exact Hr|]. intros [] s3 Hs. cbn beta in Hs. unfold wp in Hs at 1. simpl in Hs.
  by destruct (a =? last); [apply wp_ret|].
Qed.

(** ** A user page *)

(** The pages of the address space with a frame [pg] from the hands mapped. *)
Lemma plays_map A v e :
  0 ≤ v < UPAGES → present (v_map A v) = false → present e = true → frame e ∈ v_hand A →
  ∀ pg, (∃ r, plays A pg r) ↔
        (∃ r, plays (drop_hand (frame e) (set_map (upd (v_map A) v e) A)) pg r).
Proof.
  intros Hv Hno Hpe Hin pg. split.
  - intros [[|i|w|] Hr].
    + by exists RDir.
    + by exists (RTab i).
    + exists (RFrame w). simpl in *. rewrite upd_ne; [done|]. intros ->. destruct Hr as (_ & ? & _). congruence.
    + destruct (decide (pg = frame e)) as [->|Hne].
      * exists (RFrame v). simpl. by rewrite upd_eq.
      * exists RHand. simpl in *. by apply list_elem_of_filter.
  - intros [[|i|w|] Hr].
    + by exists RDir.
    + by exists (RTab i).
    + simpl in Hr. destruct (decide (w = v)) as [->|Hne].
      * rewrite upd_eq in Hr. destruct Hr as (_ & _ & ->). by exists RHand.
      * rewrite upd_ne in Hr by done. by exists (RFrame w).
    + exists RHand. simpl in *. by apply list_elem_of_filter in Hr as [_ ?].
Qed.

Lemma frame_mkpte pg perm :
  page_ok pg → 0 ≤ perm < PGSIZE →
  frame (mkpte (pg - KERNBASE) perm) = pg ∧ present (mkpte (pg - KERNBASE) perm) = true ∧
  PTE_FLAGS (mkpte (pg - KERNBASE) perm) = Z.lor perm PTE_P.
Proof.
  intros (Hal & Hke & Hr) Hp. unfold frame.
  destruct (mkpte_spec (pg - KERNBASE) perm) as (_ & -> & -> & ->); [|unfold KERNBASE, PHYSTOP in *; lia|done|].
  { rewrite Zminus_mod, Hal. done. }
  split_and!; [lia|done|done].
Qed.

Lemma wp_map_user s A va pg perm (Q : Z → kernel → Prop) :
  vok s A → va mod PGSIZE = 0 → 0 ≤ va < KERNBASE → 0 ≤ perm < PGSIZE → pg ∈ v_hand A →
  present (v_map A (va / PGSIZE)) = false →
  (v_free A = [] → Q (-1) s) →
  (∀ s' A', vok s' A' → vstep s s' A A' → grows 1 A A' →
     (∀ w, v_map A' w = upd (v_map A) (va / PGSIZE) (mkpte (pg - KERNBASE) perm) w) →
     v_hand A' = filter (λ x, x ≠ pg) (v_hand A) → Q 0 s') →
  wp (mappages (v_dir A) va PGSIZE (pg - KERNBASE) perm) Q s.
Proof.
  intros HV Hal Hva Hp Hin Hno H0 H1. destruct (v_own _ _ HV pg RHand Hin) as (Hok & _ & _).
  destruct (frame_mkpte pg perm Hok Hp) as (Hf & Hpe & _).
  assert (va / PGSIZE * PGSIZE = va) as Ediv by (pose proof (Z.div_mod va PGSIZE ltac:(done)); lia).
  assert (0 ≤ va < 2 ^ 32) as Hva' by (unfold KERNBASE in Hva; lia).
  assert (PGROUNDDOWN (u32 (va + PGSIZE - 1)) = va) as Elast.
  { rewrite u32_small by (unfold PGSIZE, KERNBASE in *; lia). rewrite PGROUNDDOWN_spec.
    replace (va + PGSIZE - 1) with (PGSIZE - 1 + va / PGSIZE * PGSIZE) by lia.
    rewrite Z.div_add by done. rewrite Z.div_small by (unfold PGSIZE; lia). lia. }
  unfold mappages. rewrite Elast, PGROUNDDOWN_spec, Ediv, Z.sub_diag. change (Z.to_nat (u32 0 / PGSIZE)) with O.
  apply wp_bind, mappages_loop_S. eapply wp_map_one; [exact HV|done|done|intros E; by apply wp_ret, H0|].
  intros s1 A1 pt HV1 Hst Hg Hm Hh Ht. rewrite Z.eqb_refl. apply wp_ret.
  destruct (vpn_split va Hva') as (Hv & Hi & Hj). rewrite <- Hm, <- Hv in *.
  assert (0 ≤ PDX va * 1024 + PTX va < UPAGES) as Hu.
  { rewrite Hv. unfold UPAGES. split; [apply Z.div_pos; unfold PGSIZE; lia|].
    apply Z.div_lt_upper_bound; [done|]. change (PGSIZE * (KERNBASE / PGSIZE)) with KERNBASE. lia. }
  rewrite <- Hf in Hin. rewrite <- Hh in Hin.
  pose proof (vok_poke_map s1 A1 _ _ pt _ HV1 Ht Hj Hu Hno Hpe Hin) as HV2.
  pose proof (plays_map A1 _ _ Hu Hno Hpe Hin) as Hpl.
  pose proof (vstep_poke s1 A1 _ _ (Z.to_nat (PTX va)) (mkpte (pg - KERNBASE) perm) pt HV1 Ht Hpl eq_refl) as Hst2.
  eapply (H1 _ _ HV2).
  - by eapply grows_step.
  - destruct Hg. by split.
  - intros w. simpl. done.
  - simpl. by rewrite Hf, Hh.
Qed.

(** ** The kernel part *)

(** Entries for [n] pages from page [v] on, pointing to [pa] and following. *)
Definition range_map (m : Z → Z) (v n pa perm : Z) : Z → Z :=
  λ w, if (v <=? w) && (w <? v + n) then mkpte (pa + (w - v) * PGSIZE) perm else m w.

(** The address space after mapping kernel pages, possibly only some of them. *)
Definition kmapped (s : kernel) (A : vsp) (s' : kernel) (A' : vsp) : Prop :=
  vok s' A' ∧ vstep s s' A A' ∧ (∃ k, grows k A A') ∧ v_hand A' = v_hand A ∧
  ∀ w, w < UPAGES → v_map A' w = v_map A w.

Lemma kmapped_trans s1 s2 s3 A1 A2 A3 :
  kmapped s1 A1 s2 A2 → kmapped s2 A2 s3 A3 → kmapped s1 A1 s3 A3.
Proof.
  intros (V1 & S1 & [k1 G1] & H1 & M1) (V2 & S2 & [k2 G2] & H2 & M2). split_and!.
  - done.
  - by eapply grows_step.
  - exists (k1 + k2)%nat. by eapply grows_trans.
  - congruence.
  - intros w Hw. by rewrite M2, M1.
Qed.

Lemma kmapped_poke s A s1 A1 v e pt :
  kmapped s A s1 A1 → UPAGES ≤ v < VPAGES → v_tab A1 !! (v / 1024) = Some pt →
  kmapped s A (poke pt (Z.to_nat (v mod 1024)) e s1) (set_map (upd (v_map A1) v e) A1).
Proof.
  intros (HV & Hst & [k Hg] & Hh & Hm) Hv Ht. vsize.
  pose proof (Z.div_mod v 1024 ltac:(lia)) as Hd. pose proof (Z.mod_pos_bound v 1024 ltac:(lia)) as Hb.
  pose proof (vok_poke_kernel s1 A1 (v / 1024) (v mod 1024) pt e HV Ht Hb) as HV'.
  replace (v / 1024 * 1024 + v mod 1024) with v in HV' by lia.
  specialize (HV' ltac:(vsize; lia)).
  assert (∀ pg, (∃ r, plays A1 pg r) ↔ ∃ r, plays (set_map (upd (v_map A1) v e) A1) pg r) as Hpl.
  { intros pg. assert (∀ r, plays A1 pg r ↔ plays (set_map (upd (v_map A1) v e) A1) pg r) as Hr.
    { intros [| |w|]; simpl; [done|done| |done]. split; intros (Hw & Hp & Hpg);
        rewrite upd_ne in * by (vsize; lia); done. }
    split; intros [r Hpl]; exists r; by apply Hr. }
  split_and!; [done| | |done|].
  - eapply grows_step; [done|done|]. by eapply vstep_poke.
  - exists k. destruct Hg. by split.
  - intros w Hw. simpl. rewrite upd_ne by (vsize; lia). by apply Hm.
Qed.

Lemma page_index v : 0 ≤ v < VPAGES →
  v * PGSIZE / PGSIZE = v ∧ PDX (v * PGSIZE) = v / 1024 ∧ PTX (v * PGSIZE) = v mod 1024 ∧
  0 ≤ v * PGSIZE < 2 ^ 32.
Proof.
  intros Hv. unfold VPAGES in Hv. assert (v * PGSIZE / PGSIZE = v) as E by (by apply Z.div_mul).
  assert (0 ≤ v * PGSIZE < 2 ^ 32) as Hr by (unfold PGSIZE; lia).
  destruct (PDX_spec _ Hr) as [-> _], (PTX_spec _ Hr) as [-> _]. by rewrite E.
Qed.

Lemma wp_map_kernel (n : nat) s A v pa perm :
  vok s A → UPAGES ≤ v → v + Z.of_nat n < VPAGES → 0 ≤ pa → pa + Z.of_nat n * PGSIZE < 2 ^ 32 →
  (∀ w, v ≤ w ≤ v + Z.of_nat n → present (v_map A w) = false) →
  wp (mappages_loop (S n) (v_dir A) (v * PGSIZE) ((v + Z.of_nat n) * PGSIZE) pa perm)
     (λ ok s', ∃ A', kmapped s A s' A' ∧
        (ok = true → ∀ w, v_map A' w = range_map (v_map A) v (Z.of_nat n + 1) pa perm w)) s.
Proof.
  revert s A v pa. induction n as [|n IH]; intros s A v pa HV Hu Hvn Hpa Hpan Hno.
  all: assert (0 ≤ v < VPAGES) as Hv
    by (vsize; lia).
  all: destruct (page_index v Hv) as (E1 & E2 & E3 & Hr).
  all: apply mappages_loop_S, wp_map_one; [done|done|rewrite E1; apply Hno; lia| |].
  1,3: intros _; exists A; split; [|done]; split_and!; [done|apply vstep_refl|exists O; apply grows_refl|done|done].
  all: intros s1 A1 pt HV1 Hst Hg Hm Hh Ht; rewrite E2 in Ht; rewrite E3.
  all: assert (kmapped s A s1 A1) as Hk
    by (split_and!; [done|done|by exists 1%nat|done|intros; by rewrite Hm]).
  all: pose proof (kmapped_poke _ _ _ _ v (mkpte pa perm) pt Hk ltac:(lia) Ht) as Hk2.
  - rewrite Z.add_0_r, Z.eqb_refl. eexists. split; [exact Hk2|]. intros _ w. simpl. unfold upd, range_map.
    rewrite Hm. destruct (Z.eqb_spec w v) as [->|Hne]; ztest; [simpl; f_equal; lia|].
    destruct (Z.leb_spec v w); [ztest; done|done].
  - rewrite Nat2Z.inj_succ in *. rewrite (proj2 (Z.eqb_neq _ _)) by (vsize; lia).
    replace (v * PGSIZE + PGSIZE) with ((v + 1) * PGSIZE) by lia.
    destruct (page_index (v + 1)) as (_ & _ & _ & Hr1); [lia|]. rewrite !u32_small by (unfold PGSIZE in *; lia).
    replace (v + Z.succ (Z.of_nat n)) with (v + 1 + Z.of_nat n) by lia.
    eapply wp_mono.
    { replace (v_dir A) with (v_dir (set_map (upd (v_map A1) v (mkpte pa perm)) A1)) by apply Hg.
      apply IH; [by destruct Hk2|lia|lia|vsize; lia|vsize; lia|].
      intros w Hw. simpl. rewrite upd_ne by lia. rewrite Hm. apply Hno. lia. }
    intros ok s' (A' & Hk' & Hok). exists A'. split; [by eapply kmapped_trans|].
    intros Ht' w. rewrite (Hok Ht'). unfold range_map. simpl. unfold upd. rewrite Hm.
    destruct (Z.eqb_spec w v) as [->|Hne]; ztest; [simpl; f_equal; lia|].
    destruct (Z.leb_spec v w); destruct (Z.ltb_spec w (v + 1 + (Z.of_nat n + 1))); ztest;
      simpl; try done. f_equal. lia.
Qed.

Lemma wp_mappages_kernel (n : nat) s A v pa perm :
  vok s A → UPAGES ≤ v → v + Z.of_nat n < VPAGES → 0 ≤ pa → pa + Z.of_nat n * PGSIZE < 2 ^ 32 →
  (∀ w, v ≤ w ≤ v + Z.of_nat n → present (v_map A w) = false) →
  wp (mappages (v_dir A) (v * PGSIZE) ((Z.of_nat n + 1) * PGSIZE) pa perm)
     (λ r s', ∃ A', kmapped s A s' A' ∧
        (r = -1 ∨ r = 0 ∧ ∀ w, v_map A' w = range_map (v_map A) v (Z.of_nat n + 1) pa perm w)) s.
Proof.
  intros HV Hu Hvn Hpa Hpan Hno. unfold mappages.
  assert (PGROUNDDOWN (v * PGSIZE) = v * PGSIZE) as ->
    by (rewrite PGROUNDDOWN_spec; by rewrite Z.div_mul).
  assert (PGROUNDDOWN (u32 (v * PGSIZE + (Z.of_nat n + 1) * PGSIZE - 1)) = (v + Z.of_nat n) * PGSIZE) as ->.
  { rewrite u32_small by (vsize; lia). rewrite PGROUNDDOWN_spec. f_equal. vsize.
    symmetry. apply (Z.div_unique _ _ _ 4095); lia. }
  replace (S (Z.to_nat (u32 ((v + Z.of_nat n) * PGSIZE - v * PGSIZE) / PGSIZE))) with (S n).
  2:{ replace ((v + Z.of_nat n) * PGSIZE - v * PGSIZE) with (Z.of_nat n * PGSIZE) by lia.
      rewrite u32_small by (vsize; lia). rewrite Z.div_mul by done. lia. }
  apply wp_bind. eapply wp_mono; [by apply wp_map_kernel|].
  intros ok s' (A' & Hk & Hok). apply wp_ret. exists A'. split; [done|].
  destruct ok; [right|by left]. split; [done|]. by apply Hok.
Qed.

(** ** Unmapping *)

(** Frames have gone from the user part to the free list; nothing else changed. *)
Definition shrunk (s : kernel) (A : vsp) (s' : kernel) (A' : vsp) : Prop :=
  vok s' A' ∧ vstep s s' A A' ∧ v_dir A' = v_dir A ∧ v_tab A' = v_tab A ∧
  v_hand A' = v_hand A ∧ v_free A ⊆ v_free A'.

Lemma shrunk_refl s A : vok s A → shrunk s A s A.
Proof. intros. split_and!; try done. apply vstep_refl. Qed.
Lemma shrunk_trans s1 s2 s3 A1 A2 A3 :
  shrunk s1 A1 s2 A2 → shrunk s2 A2 s3 A3 → shrunk s1 A1 s3 A3.
Proof.
  intros (V1 & S1 & D1 & T1 & H1 & F1) (V2 & S2 & D2 & T2 & H2 & F2).
  split_and!; [done| |congruence|congruence|congruence|by transitivity (v_free A2)].
  eapply vstep_trans; [exact S1|exact S2|done| |by right]. rewrite T1. auto.
Qed.

(** The entries of the pages from [a] to [b] with the present ones cleared. *)
Definition unmap (m : Z → Z) (a b : Z) : Z → Z :=
  λ w, if (a <=? w) && (w <? b) && present (m w) then 0 else m w.

Lemma frame_nonzero e : page_ok (frame e) → PTE_ADDR e ≠ 0.
Proof. unfold page_ok, frame. intros (_ & ? & _). lia. Qed.

Lemma push_poke pt j f s :
  pt ≠ f → poke pt j 0 (push_page f s) = push_page f (poke pt j 0 s).
Proof.
  intros Hne. unfold poke, push_page. simpl. rewrite alter_insert_ne by done. by destruct s.
Qed.

Lemma wp_dealloc_step s A v (Q : Z → kernel → Prop) :
  vok s A → 0 ≤ v < UPAGES →
  (v_tab A !! (v / 1024) = None → Q (u32 (PGADDR (v / 1024 + 1) 0 0 - PGSIZE)) s) →
  (∀ s' A', shrunk s A s' A' → (∀ w, v_map A' w = unmap (v_map A) v (v + 1) w) →
     Q (v * PGSIZE) s') →
  wp (dealloc_step (v_dir A) (v * PGSIZE)) Q s.
Proof.
  intros HV Hv H0 H1. destruct (page_index v) as (E1 & E2 & E3 & Hr); [vsize; lia|].
  unfold dealloc_step. apply wp_bind. eapply wp_walk; [exact HV|done|]. rewrite E2.
  destruct (v_tab A !! (v / 1024)) as [pt|] eqn:Et; simpl; [|by apply wp_ret, H0].
  apply wp_bind. eapply wp_get_pte; [exact HV|done|by rewrite E2|]. rewrite E1. apply wp_bind.
  assert (∀ w, unmap (v_map A) v (v + 1) w = if present (v_map A v) then upd (v_map A) v 0 w else v_map A w) as Hun.
  { intros w. unfold unmap, upd. destruct (Z.eqb_spec w v) as [->|Hne]; [ztest; simpl; by destruct present|].
    destruct (Z.leb_spec v w), (Z.ltb_spec w (v + 1)); try lia; simpl; by destruct present. }
  destruct (present (v_map A v)) eqn:Ep; simpl when; cycle 1.
  { apply wp_ret, wp_ret. apply (H1 s A); [by apply shrunk_refl|]. intros w. by rewrite Hun. }
  assert (plays A (frame (v_map A v)) (RFrame v)) as Hpl by done.
  destruct (v_own _ _ HV _ _ Hpl) as (Hok & Hnf & _).
  rewrite (proj2 (Z.eqb_neq _ _)) by (by apply frame_nonzero).
  apply wp_bind. eapply wp_P2V; [|exact Hok|]; [unfold frame; lia|].
  apply wp_bind. apply wp_kfree; [done|apply (v_kmem _ _ HV)|].
  destruct (v_own _ _ HV pt (RTab (v / 1024)) Et) as (_ & _ & ws & Hws & _).
  assert (pt ≠ frame (v_map A v)) as Hne.
  { intros E. rewrite E in Et. by pose proof (v_role _ _ HV _ _ (RTab (v / 1024)) Hpl Et). }
  eapply wp_poke; [simpl; rewrite lookup_insert_ne by done; exact Hws|].
  rewrite push_poke by done. apply wp_ret.
  pose proof (Z.div_mod v 1024 ltac:(lia)) as Hd. pose proof (Z.mod_pos_bound v 1024 ltac:(lia)) as Hb.
  rewrite E3. pose proof (vok_poke_unmap s A (v / 1024) (v mod 1024) pt HV Et Hb) as HV1.
  replace (v / 1024 * 1024 + v mod 1024) with v in HV1 by lia. specialize (HV1 Hv Ep).
  set (A1 := set_hand _ _) in HV1. assert (frame (v_map A v) ∈ v_hand A1) as Hin by left.
  pose proof (vok_give _ A1 _ HV1 Hin) as HV2.
  assert (v_hand (drop_hand (frame (v_map A v)) A1) = v_hand A) as Hhand.
  { simpl. rewrite filter_cons_False by (intros []; done). apply filter_notin. intros Hx.
    by pose proof (v_role _ _ HV _ _ RHand Hpl Hx). }
  eapply (H1 _ (set_free _ (drop_hand _ A1))); [|intros w; rewrite Hun; reflexivity].
  split_and!; [exact HV2| |done|done|done|intros x Hx; by right]. split.
  - split; [by destruct s|done].
  - intros pg. unfold owned. split.
    + intros [[r Hr']|Hf]; [|right; by right]. destruct (decide (pg = frame (v_map A v))) as [->|Hpg]; [right; left|left].
      exists r. destruct r as [| |w|]; [done|done| |].
      * simpl in *. rewrite upd_ne; [done|]. intros ->. by destruct Hr' as (_ & _ & ->).
      * simpl. by apply list_elem_of_filter; split; [|right].
    + intros [[r Hr']|Hf].
      * left. destruct r as [|i|w|]; [by exists RDir|by exists (RTab i)| |].
        -- exists (RFrame w). simpl in *. unfold upd in Hr'. destruct (w =? v); [|done].
           by destruct Hr' as (_ & ? & _).
        -- exists RHand. change (pg ∈ v_hand (drop_hand (frame (v_map A v)) A1)) in Hr'. rewrite Hhand in Hr'. exact Hr'.
      * apply elem_of_cons in Hf as [->|Hf]; [left; by exists (RFrame v)|by right].
  - intros pg Hpd Hpt Hpf Hpf'. simpl in *. apply not_elem_of_cons in Hpf' as [Hpf' _].
    rewrite lookup_insert_ne by done. rewrite lookup_alter_ne; [done|]. intros ->. by apply (Hpt (v / 1024)).
Qed.

(** Entries of a directory slot without a table are zero. *)
Lemma no_table s A w :
  vok s A → 0 ≤ w < VPAGES → v_tab A !! (w / 1024) = None → v_map A w = 0.
Proof.
  intros HV Hw Ht. destruct (v_words s A HV) as (ws & _ & Hi).
  destruct (Hi (w / 1024)) as (e & _ & Hp).
  { vsize. split; [apply Z.div_pos; lia|apply Z.div_lt_upper_bound; lia]. }
  unfold pde_ok in Hp. rewrite Ht in Hp. destruct Hp as [_ Hp].
  rewrite (Z.div_mod w 1024) by lia. rewrite Z.mul_comm. apply Hp, Z.mod_pos_bound. lia.
Qed.

Definition npages (sz : Z) : Z := (sz + PGSIZE - 1) / PGSIZE.

Lemma npages_lt v sz : v * PGSIZE < sz ↔ v < npages sz.
Proof.
  unfold npages, PGSIZE. pose proof (Z.div_mod (sz + 4096 - 1) 4096 ltac:(lia)).
  pose proof (Z.mod_pos_bound (sz + 4096 - 1) 4096 ltac:(lia)). lia.
Qed.

Lemma npages_kern sz : sz ≤ KERNBASE → npages sz ≤ UPAGES.
Proof. intros Hs. pose proof (npages_lt UPAGES sz). vsize. lia. Qed.

Lemma next_slot v : 0 ≤ v < UPAGES →
  u32 (u32 (PGADDR (v / 1024 + 1) 0 0 - PGSIZE) + PGSIZE) = (v / 1024 + 1) * 1024 * PGSIZE.
Proof.
  intros Hv. vsize. assert (0 ≤ v / 1024 < 512)
    by (split; [apply Z.div_pos; lia|apply Z.div_lt_upper_bound; lia]).
  unfold PGADDR. rewrite Z.shiftl_0_l, !Z.lor_0_r, Z.shiftl_mul_pow2 by lia.
  change (2 ^ 22) with 4194304. rewrite (u32_small ((v / 1024 + 1) * 4194304)) by lia.
  rewrite (u32_small (_ - 4096)) by lia. rewrite u32_small; lia.
Qed.

Lemma wp_dealloc_loop fuel s A v oldsz :
  vok s A → 0 ≤ v → oldsz ≤ KERNBASE → npages oldsz - v ≤ Z.of_nat fuel →
  wp (deallocuvm_loop fuel (v_dir A) (v * PGSIZE) oldsz)
     (λ _ s', ∃ A', shrunk s A s' A' ∧
        ∀ w, v_map A' w = unmap (v_map A) v (npages oldsz) w) s.
Proof.
  revert s A v. induction fuel as [|fuel IH]; intros s A v HV Hv Ho Hf; cbn [deallocuvm_loop];
    pose proof (npages_lt v oldsz) as Hlt; destruct (Z.ltb_spec (v * PGSIZE) oldsz) as [Hlo|Hlo].
  1: lia.
  1,3: apply wp_ret; exists A; split; [by apply shrunk_refl|]; intros w; unfold unmap;
    destruct (Z.leb_spec v w), (Z.ltb_spec w (npages oldsz)); try done; lia.
  pose proof (npages_kern oldsz Ho). apply wp_bind. apply wp_dealloc_step; [done|lia| |].
  - intros Ht. rewrite next_slot by lia.
    pose proof (Z.div_mod v 1024 ltac:(lia)) as Hd. pose proof (Z.mod_pos_bound v 1024 ltac:(lia)) as Hb.
    eapply wp_mono; [apply IH; [done|lia|done|lia]|].
    intros [] s' (A' & Hs & Hm). exists A'. split; [done|]. intros w. rewrite Hm. unfold unmap.
    destruct (Z.leb_spec v w) as [Hvw|Hvw]; [|by destruct (Z.leb_spec ((v / 1024 + 1) * 1024) w); [lia|]].
    destruct (Z.leb_spec ((v / 1024 + 1) * 1024) w) as [Hw|Hw]; [done|]. simpl.
    rewrite (no_table s A w HV), present_0, andb_false_r; [done|vsize; lia|].
    replace (w / 1024) with (v / 1024); [done|]. apply (Z.div_unique _ _ _ (w - v / 1024 * 1024)); lia.
  - intros s1 A1 Hs1 Hm1. rewrite u32_small by (vsize; lia).
    replace (v * PGSIZE + PGSIZE) with ((v + 1) * PGSIZE) by lia.
    pose proof Hs1 as (HV1 & _ & Hd1 & _). rewrite <- Hd1.
    eapply wp_mono; [apply IH; [done|lia|done|lia]|].
    intros [] s' (A' & Hs & Hm). exists A'. split; [by eapply shrunk_trans|]. intros w.
    rewrite Hm. unfold unmap. rewrite !Hm1. unfold unmap.
    destruct (Z.leb_spec v w), (Z.ltb_spec w (v + 1)), (Z.leb_spec (v + 1) w),
      (Z.ltb_spec w (npages oldsz)); try lia; simpl; try done;
      destruct (present (v_map A w)) eqn:E; try done.
Qed.

Lemma PGROUNDUP_npages sz : 0 ≤ sz ≤ KERNBASE → PGROUNDUP sz = npages sz * PGSIZE.
Proof.
  intros Hs. unfold PGROUNDUP. rewrite u32_small by (vsize; lia).
  change (PGSIZE - 1) with (2 ^ 12 - 1). rewrite land_lnot_ones by lia.
  unfold npages. f_equal. f_equal. vsize. lia.
Qed.

Lemma wp_deallocuvm s A oldsz newsz (Q : Z → kernel → Prop) :
  vok s A → 0 ≤ newsz → oldsz ≤ KERNBASE →
  (∀ s' A', shrunk s A s' A' →
     (∀ w, v_map A' w = unmap (v_map A) (npages newsz) (npages oldsz) w) →
     Q (Z.min oldsz newsz) s') →
  wp (deallocuvm (v_dir A) oldsz newsz) Q s.
Proof.
  intros HV Hn Ho HQ. unfold deallocuvm. rewrite Z.geb_leb. destruct (Z.leb_spec oldsz newsz) as [Hle|Hlt].
  - apply wp_ret. rewrite <- (Z.min_l oldsz newsz) at 1 by lia.
    apply (HQ s A); [by apply shrunk_refl|]. intros w. unfold unmap.
    assert (npages oldsz ≤ npages newsz) by (apply Z.div_le_mono; vsize; lia).
    destruct (Z.leb_spec (npages newsz) w), (Z.ltb_spec w (npages oldsz)); try done. lia.
  - rewrite PGROUNDUP_npages by lia. apply wp_bind.
    eapply wp_mono; [apply wp_dealloc_loop; [done| |done|]|].
    + apply Z.div_pos; vsize; lia.
    + set (q := (oldsz - npages newsz * PGSIZE + PGSIZE - 1) / PGSIZE).
      assert (npages oldsz - npages newsz = q) as ->.
      { unfold q. replace (oldsz - npages newsz * PGSIZE + PGSIZE - 1)
          with (oldsz + PGSIZE - 1 + - npages newsz * PGSIZE) by lia.
        rewrite Z.div_add by done. unfold npages. lia. }
      lia.
    + intros [] s' (A' & Hs & Hm). apply wp_ret. rewrite <- (Z.min_r oldsz newsz) by lia. by apply (HQ s' A').
Qed.

(** ** freevm *)

(** Pages [l] are free, all others are as in [s]. *)
Definition freed (s s' : kernel) (l : list Z) : Prop :=
  kmem_ok s' l ∧ vm_rest s s' ∧ ∀ pg, pg ∉ l → k_mem s' !! pg = k_mem s !! pg.

Lemma freed_push s s1 l pg : freed s s1 l → page_ok pg → pg ∉ l → freed s (push_page pg s1) (pg :: l).
Proof.
  intros (Hk & Hr & Hm) Hp Hn. split_and!; [by apply kmem_push| |].
  - eapply vm_rest_trans; [exact Hr|]. split; [by destruct s1|done].
  - intros pg' [Hne Hl]%not_elem_of_cons. simpl. rewrite lookup_insert_ne by done. by apply Hm.
Qed.

(** The loop of [freevm] over the first [k] directory entries. *)
Definition free_inv (s : kernel) (A : vsp) (k : nat) (s' : kernel) : Prop :=
  ∃ l, freed s s' l ∧ ∀ pg, pg ∈ l ↔ pg ∈ v_free A ∨ ∃ i, 0 ≤ i < Z.of_nat k ∧ v_tab A !! i = Some pg.

Lemma wp_free_tables s A :
  vok s A →
  wp (forM (seq 0 NPDENTRIES) (λ i,
        pde ← get_word (v_dir A) i;
        when (present pde) (v ← P2V (PTE_ADDR pde); kfree v)))
     (λ _, free_inv s A NPDENTRIES) s.
Proof.
  intros HV. apply (wp_forM_seq (free_inv s A)).
  { exists (v_free A). split; [split_and!; [apply HV|apply vm_rest_refl|done]|].
    intros pg. split; [by left|]. intros [|(i & Hi & _)]; [done|lia]. }
  intros k s1 Hk (l & Hfr & Hl). pose proof Hfr as (Hkm & Hr & Hm).
  destruct (v_words s A HV) as (ws & [Hd _] & Hw). destruct (Hw (Z.of_nat k)) as (e & He & Hp).
  { change NPDENTRIES with 1024%nat in Hk. lia. }
  rewrite Nat2Z.id in He.
  assert (v_dir A ∉ l) as Hdl.
  { intros [Hf|(i & _ & Hi)]%Hl; [by apply (v_own s A HV _ RDir eq_refl)|].
    by pose proof (v_role s A HV (v_dir A) RDir (RTab i) eq_refl Hi). }
  apply wp_bind. eapply wp_get_word; [rewrite Hm by done; exact Hd|exact He|].
  unfold pde_ok in Hp. destruct (v_tab A !! Z.of_nat k) as [pt|] eqn:Et.
  - destruct Hp as (-> & Ha & _). simpl when. destruct (v_own s A HV pt (RTab _) Et) as (Hok & Hnf & _).
    apply wp_bind. eapply wp_P2V; [exact Ha|done|]. apply wp_kfree; [done|apply Hkm|].
    assert (pt ∉ l) as Hptl.
    { intros [|(i & Hi & Hi')]%Hl; [done|].
      pose proof (v_role s A HV pt (RTab _) (RTab i) Et Hi'). assert (Z.of_nat k = i) by congruence. lia. }
    exists (pt :: l). split; [by apply freed_push|]. intros pg. rewrite elem_of_cons, Hl.
    split; [intros [->|[|(i & Hi & Hi')]]|intros [|(i & Hi & Hi')]].
    + right. exists (Z.of_nat k). split; [lia|done].
    + by left.
    + right. exists i. split; [lia|done].
    + by right; left.
    + destruct (decide (i = Z.of_nat k)) as [->|]; [left; congruence|]. right. right. exists i. split; [lia|done].
  - destruct Hp as (-> & _). apply wp_ret. exists l. split; [done|]. intros pg. rewrite Hl.
    split; (intros [|(i & Hi & Hi')]; [by left|]); [right; exists i; split; [lia|done]|].
    destruct (decide (i = Z.of_nat k)) as [->|]; [congruence|]. right. exists i. split; [lia|done].
Qed.

Lemma wp_freevm s A (Q : unit → kernel → Prop) :
  vok s A →
  (∀ s' l, freed s s' l → (∀ pg, pg ∈ l ↔ owned A pg ∧ pg ∉ v_hand A) → Q tt s') →
  wp (freevm (v_dir A)) Q s.
Proof.
  intros HV HQ. destruct (v_own s A HV _ RDir eq_refl) as (Hok & _ & _).
  unfold freevm. rewrite (proj2 (Z.eqb_neq _ _)) by (by apply page_nonzero).
  apply wp_bind. apply wp_deallocuvm; [done|lia|lia|]. intros s1 A1 Hs1 Hm1.
  pose proof Hs1 as (HV1 & [Hr1 Ho1 Hmem1] & Hd1 & Ht1 & Hh1 & Hf1). rewrite <- Hd1 in *.
  apply wp_bind. eapply wp_mono; [by apply wp_free_tables|]. intros [] s2 (l & Hfr & Hl).
  pose proof Hfr as (Hkm & Hr & Hm). apply wp_kfree; [done|apply Hkm|].
  assert (v_dir A1 ∉ l) as Hdl.
  { intros [Hf|(i & _ & Hi)]%Hl; [by apply (v_own s1 A1 HV1 _ RDir eq_refl)|].
    by pose proof (v_role s1 A1 HV1 (v_dir A1) RDir (RTab i) eq_refl Hi). }
  assert (∀ v, 0 ≤ v < UPAGES → present (v_map A1 v) = false) as Hnone.
  { intros v Hv. rewrite Hm1. unfold unmap. change (npages 0) with 0. change (npages KERNBASE) with UPAGES. ztest.
    simpl. destruct (present (v_map A v)) eqn:E; [apply present_0|done]. }
  assert (∀ pg, pg ∈ v_dir A1 :: l ↔ owned A pg ∧ pg ∉ v_hand A) as Hall.
  { intros pg. rewrite Ho1, <- Hh1, elem_of_cons, Hl. split.
    - intros [->|[Hf|(i & Hi & Hi')]].
      + split; [left; by exists RDir|]. intros Hin. by pose proof (v_role s1 A1 HV1 _ RDir RHand eq_refl Hin).
      + split; [by right|]. intros Hin. by apply (v_own s1 A1 HV1 pg RHand Hin).
      + split; [left; by exists (RTab i)|]. intros Hin. by pose proof (v_role s1 A1 HV1 _ (RTab i) RHand Hi' Hin).
    - intros [[[r Hpl]|Hf] Hnh]; [|by right; left]. destruct r as [|i|v|].
      + by left.
      + right. right. exists i. split; [|done]. change NPDENTRIES with 1024%nat. by apply (v_slots s1 A1 HV1) in Hpl.
      + destruct Hpl as (Hv & Hp & _). by rewrite Hnone in Hp.
      + done. }
  destruct (freed_push s1 s2 l (v_dir A1) Hfr Hok Hdl) as (Hk3 & Hr3 & Hm3).
  eapply (HQ _ (v_dir A1 :: l)); [|done]. split_and!; [done|by eapply vm_rest_trans|].
  intros pg Hpg. rewrite Hm3 by done. pose proof Hpg as [Hpd Hpl]%not_elem_of_cons.
  apply Hmem1; [done| | |].
  - intros i Hi. apply Hpl, Hl. right. exists i. rewrite Ht1. change NPDENTRIES with 1024%nat.
    split; [|done]. by eapply (v_slots s A HV).
  - intros Hf. apply Hpl, Hl. left. by apply Hf1.
  - intros Hf. apply Hpl, Hl. by left.
Qed.

(** ** setupkvm *)

(** A row of [kmap]: first page, number of pages less one, physical start and
    end, permission. *)
Record krow := mkKrow { kr_v : Z; kr_n : nat; kr_pa : Z; kr_end : Z; kr_perm : Z }.
Definition krow_c (r : krow) : Z * Z * Z * Z := (kr_v r * PGSIZE, kr_pa r, kr_end r, kr_perm r).
Definition krow_map (m : Z → Z) (r : krow) : Z → Z :=
  range_map m (kr_v r) (Z.of_nat (kr_n r) + 1) (kr_pa r) (kr_perm r).

(** The rows cover increasing, disjoint ranges from page [lb] on. *)
Fixpoint krows_ok (lb : Z) (rows : list krow) : Prop :=
  match rows with
  | [] => True
  | r :: rows =>
      lb ≤ kr_v r ∧ kr_v r + Z.of_nat (kr_n r) < VPAGES ∧ 0 ≤ kr_pa r ∧
      kr_pa r + Z.of_nat (kr_n r) * PGSIZE < 2 ^ 32 ∧
      u32 (kr_end r - kr_pa r) = (Z.of_nat (kr_n r) + 1) * PGSIZE ∧
      krows_ok (kr_v r + Z.of_nat (kr_n r) + 1) rows
  end.

Lemma freed_kmapped s A s1 A1 s' l :
  kmapped s A s1 A1 → freed s1 s' l → (∀ pg, pg ∈ l ↔ owned A1 pg) →
  freed s s' l ∧ ∀ pg, pg ∈ l ↔ owned A pg.
Proof.
  intros (_ & [Hr Ho Hm] & _) (Hk & Hr' & Hm') Hl.
  assert (∀ pg, pg ∈ l ↔ owned A pg) as Hl' by (intros pg; by rewrite Hl, Ho).
  split; [|done]. split_and!; [done|by eapply vm_rest_trans|].
  intros pg Hpg. rewrite Hm' by done. apply Hm.
  - intros ->. apply Hpg, Hl'. left. by exists RDir.
  - intros i Hi. apply Hpg, Hl'. left. by exists (RTab i).
  - intros Hf. apply Hpg, Hl'. by right.
  - intros Hf. apply Hpg, Hl. by right.
Qed.

Lemma wp_setup_loop rows s A lb :
  krows_ok lb rows → vok s A → UPAGES ≤ lb → v_hand A = [] →
  (∀ w, lb ≤ w → present (v_map A w) = false) →
  wp (setupkvm_loop (v_dir A) (map krow_c rows))
     (λ r s', (r = 0 ∧ ∃ l, freed s s' l ∧ ∀ pg, pg ∈ l ↔ owned A pg) ∨
              (r = v_dir A ∧ ∃ A', kmapped s A s' A' ∧
                 ∀ w, v_map A' w = foldl krow_map (v_map A) rows w)) s.
Proof.
  revert s A lb. induction rows as [|r rows IH]; intros s A lb Hrows HV Hlb Hh Hno.
  { apply wp_ret. right. split; [done|]. exists A. split; [|done].
    split_and!; [done|apply vstep_refl|exists O; apply grows_refl|done|done]. }
  destruct Hrows as (H1 & H2 & H3 & H4 & H5 & H6). simpl. apply wp_bind. rewrite H5.
  eapply wp_mono; [apply wp_mappages_kernel; [done|lia|done|done|done|]|].
  { intros w Hw. apply Hno. lia. }
  intros res s1 (A1 & Hk & Hres). pose proof Hk as (HV1 & _ & [k Hg] & Hh1 & _).
  pose proof (gr_dir _ _ _ Hg) as Hd. rewrite <- Hd. destruct Hres as [->|[-> Hm]].
  - change (-1 <? 0) with true. cbv iota. apply wp_bind, wp_freevm; [done|]. intros s' l Hfr Hl.
    apply wp_ret. left. split; [done|]. exists l.
    eapply freed_kmapped; [exact Hk|done|]. intros pg. rewrite Hl, Hh1, Hh. split; [by intros [? _]|].
    intros Ho. split; [done|]. apply not_elem_of_nil.
  - change (0 <? 0) with false. cbv iota.
    eapply wp_mono; [eapply (IH s1 A1 _ H6 HV1); [lia|congruence|]|].
    { intros w Hw. rewrite Hm. unfold range_map. ztest. rewrite andb_false_r. apply Hno. lia. }
    intros r' s' [[-> (l & Hfr & Hl)]|[-> (A' & Hk' & Hm')]].
    + left. split; [done|]. exists l. by eapply freed_kmapped.
    + right. split; [done|]. exists A'. split; [by eapply kmapped_trans|].
      intros w. rewrite Hm'. clear -Hm. revert Hm. generalize (v_map A1) as m1.
      assert (∀ m1 m2, (∀ w, m1 w = m2 w) → foldl krow_map m1 rows w = foldl krow_map m2 rows w) as Hext.
      { induction rows as [|r' rows IH]; intros m1 m2 Hm; [done|]. simpl. apply IH. intros w'.
        unfold krow_map, range_map. by rewrite Hm. }
      intros m1 Hm. by apply Hext.
Qed.

(** What the linker script promises about [data]. *)
Definition data_ok : Prop := kdata mod PGSIZE = 0 ∧ KERNLINK < kdata < KERNBASE + PHYSTOP.

Definition krows : list krow :=
  let kd := kdata / PGSIZE in
  [mkKrow UPAGES (Z.to_nat 255) 0 EXTMEM PTE_W;
   mkKrow (KERNLINK / PGSIZE) (Z.to_nat (kd - KERNLINK / PGSIZE - 1)) (KERNLINK - KERNBASE) (kdata - KERNBASE) 0;
   mkKrow kd (Z.to_nat ((KERNBASE + PHYSTOP) / PGSIZE - kd - 1)) (kdata - KERNBASE) PHYSTOP PTE_W;
   mkKrow (DEVSPACE / PGSIZE) (Z.to_nat 8191) DEVSPACE 0 PTE_W].

Lemma krows_spec : data_ok → kmap = map krow_c krows ∧ krows_ok UPAGES krows.
Proof.
  intros [Hal Hr]. assert (kdata / PGSIZE * PGSIZE = kdata) as E
    by (pose proof (Z.div_mod kdata PGSIZE ltac:(done)); lia).
  set (kd := kdata / PGSIZE) in *. unfold KERNLINK, KERNBASE, PHYSTOP, EXTMEM, PGSIZE in Hr, E.
  split.
  - unfold kmap, krows, krow_c. cbn [map kr_v kr_pa kr_end kr_perm]. fold kd.
    change PGSIZE with 4096. rewrite E. reflexivity.
  - unfold krows, krows_ok. cbn [kr_v kr_n kr_pa kr_end]. fold kd.
    change UPAGES with 524288. change (KERNLINK / PGSIZE) with 524544. change VPAGES with 1048576.
    change ((KERNBASE + PHYSTOP) / PGSIZE) with 581632. change (DEVSPACE / PGSIZE) with 1040384.
    change KERNLINK with 2148532224. change KERNBASE with 2147483648. change PHYSTOP with 234881024.
    change EXTMEM with 1048576. change DEVSPACE with 4261412864. change PGSIZE with 4096.
    rewrite !Z2Nat.id by lia. repeat split; try lia; try (rewrite u32_small; lia).
Qed.

(** The kernel's part of every address space. *)
Definition kernel_map : Z → Z := foldl krow_map (λ _, 0) krows.

Lemma range_map_in m v n pa perm w :
  v ≤ w < v + n → range_map m v n pa perm w = mkpte (pa + (w - v) * PGSIZE) perm.
Proof. intros. unfold range_map. by ztest. Qed.
Lemma range_map_out m v n pa perm w : ¬ (v ≤ w < v + n) → range_map m v n pa perm w = m w.
Proof.
  intros Hn. unfold range_map. destruct (Z.leb_spec v w), (Z.ltb_spec w (v + n)); try done. lia.
Qed.

(** How the kernel part translates a virtual page. *)
Lemma kernel_map_spec w : data_ok →
  kernel_map w =
    if (UPAGES <=? w) && (w <? UPAGES + PHYSTOP / PGSIZE) then
      mkpte ((w - UPAGES) * PGSIZE)
        (if (KERNLINK / PGSIZE <=? w) && (w <? kdata / PGSIZE) then 0 else PTE_W)
    else if (DEVSPACE / PGSIZE <=? w) && (w <? VPAGES) then mkpte (w * PGSIZE) PTE_W
    else 0.
Proof.
  intros [Hal Hr]. assert (kdata / PGSIZE * PGSIZE = kdata) as E
    by (pose proof (Z.div_mod kdata PGSIZE ltac:(done)); lia).
  unfold kernel_map, krows, krow_map. cbn [foldl kr_v kr_n kr_pa kr_perm].
  set (kd := kdata / PGSIZE) in *. unfold KERNLINK, KERNBASE, PHYSTOP, EXTMEM, PGSIZE in Hr, E.
  change UPAGES with 524288. change (KERNLINK / PGSIZE) with 524544. change VPAGES with 1048576.
  change ((KERNBASE + PHYSTOP) / PGSIZE) with 581632. change (DEVSPACE / PGSIZE) with 1040384.
  change (PHYSTOP / PGSIZE) with 57344.
  change (KERNLINK - KERNBASE) with 1048576. change (kdata - KERNBASE) with (kdata - 2147483648).
  change DEVSPACE with 4261412864. change PGSIZE with 4096. rewrite !Z2Nat.id by lia.
  destruct (decide (1040384 ≤ w < 1048576)) as [H4|H4].
  { rewrite range_map_in by lia. ztest. simpl. f_equal; change PGSIZE with 4096; lia. }
  rewrite range_map_out by lia.
  destruct (decide (kd ≤ w < 581632)) as [H3|H3].
  { rewrite range_map_in by lia. ztest. rewrite andb_false_r. simpl. f_equal; change PGSIZE with 4096; lia. }
  rewrite range_map_out by lia.
  destruct (decide (524544 ≤ w < kd)) as [H2|H2].
  { rewrite range_map_in by lia. ztest. simpl. f_equal; change PGSIZE with 4096; lia. }
  rewrite range_map_out by lia.
  destruct (decide (524288 ≤ w < 524544)) as [H1|H1].
  { rewrite range_map_in by lia. ztest. simpl. f_equal; change PGSIZE with 4096; lia. }
  rewrite range_map_out by lia.
  destruct (Z.leb_spec 524288 w), (Z.ltb_spec w (524288 + 57344)), (Z.leb_spec 1040384 w),
    (Z.ltb_spec w 1048576); try lia; done.
Qed.

Lemma kernel_map_user w : data_ok → w < UPAGES → kernel_map w = 0.
Proof.
  intros Hd Hw. rewrite kernel_map_spec by done.
  change UPAGES with 524288 in *. change (DEVSPACE / PGSIZE) with 1040384.
  destruct (Z.leb_spec 524288 w), (Z.leb_spec 1040384 w); try lia; done.
Qed.

(** A zeroed page is the directory of an empty address space. *)
Lemma vok_fresh s a l :
  k_mem s !! a = Some zero_page → page_ok a → a ∉ l → kmem_ok s l →
  vok s (mkVsp a ∅ (λ _, 0) [] l).
Proof.
  intros Hm Ha Hl Hk. set (A := mkVsp a ∅ (λ _, 0) [] l).
  assert (∀ pg r, plays A pg r → pg = a ∧ r = RDir) as Hpl.
  { intros pg [|i|v|]; simpl; [done|by rewrite lookup_empty|by intros (_ & ? & _)|by intros ?%not_elem_of_nil]. }
  assert (is_page (k_mem s) a zero_page) as Hpg by (split; [done|reflexivity]).
  split.
  - exists zero_page. split; [done|]. intros i Hi. exists 0.
    split; [apply lookup_replicate_2; unfold PGWORDS; lia|done].
  - intros i pt. simpl. by rewrite lookup_empty.
  - intros pg r r' [_ ->]%Hpl [_ ->]%Hpl. done.
  - constructor.
  - intros pg r [-> ->]%Hpl. split_and!; [done|done|by exists zero_page].
  - done.
Qed.

Lemma wp_setupkvm s l (Q : Z → kernel → Prop) :
  kmem_ok s l → data_ok →
  (∀ s' l', freed s s' l' → (∀ pg, pg ∈ l' ↔ pg ∈ l) → Q 0 s') →
  (∀ s' A, vok s' A → v_hand A = [] → (∀ w, v_map A w = kernel_map w) →
     (∀ pg, owned A pg ↔ pg ∈ l) → vm_rest s s' →
     (∀ pg, pg ∉ l → k_mem s' !! pg = k_mem s !! pg) → Q (v_dir A) s') →
  wp setupkvm Q s.
Proof.
  intros Hk Hdata H0 H1. unfold setupkvm. apply wp_bind. eapply wp_kalloc; [exact Hk|].
  destruct l as [|a l].
  { change (0 =? 0) with true. cbv iota. apply wp_ret. apply (H0 s []); [|done].
    split_and!; [done|apply vm_rest_refl|done]. }
  intros next Hn. pose proof Hk as [Hc Hnd Hp Hlk].
  apply NoDup_cons in Hnd as [Hal Hnd]. apply Forall_cons in Hp as [Hpa Hp].
  rewrite (proj2 (Z.eqb_neq _ _)) by (by apply page_nonzero). unfold fill_page.
  apply wp_bind, wp_modify, wp_bind, wp_ret. change (u32 (PHYSTOP + KERNBASE) >? DEVSPACE) with false. cbv iota.
  set (s1 := set_k_mem _ _). set (A := mkVsp a ∅ (λ _, 0) [] l).
  assert (vok s1 A) as HV.
  { apply vok_fresh; [apply lookup_insert_eq|done|done|].
    split; [|done|done|done]. simpl. by apply chain_other. }
  assert (vm_rest s s1) as Hrest by (split; [by destruct s|done]).
  destruct (krows_spec Hdata) as [-> Hrows].
  eapply wp_mono; [by apply (wp_setup_loop krows s1 A UPAGES)|].
  assert (∀ pg, owned A pg ↔ pg ∈ a :: l) as Hown.
  { intros pg. unfold owned. rewrite elem_of_cons. split.
    - intros [[[|i|v|] Hr]|Hf]; [by left|by simpl in Hr; rewrite lookup_empty in Hr|by destruct Hr as (_ & ? & _)|
        by apply not_elem_of_nil in Hr|by right].
    - intros [->|Hf]; [left; by exists RDir|by right]. }
  assert (∀ pg, pg ∉ a :: l → k_mem s1 !! pg = k_mem s !! pg) as Hm1.
  { intros pg [Hne _]%not_elem_of_cons. simpl. by rewrite lookup_insert_ne. }
  intros r s' [[-> (l' & (Hk' & Hr' & Hm') & Hl')]|[-> (A' & (HV' & [Hr' Ho' Hm'] & [k Hg] & Hh' & _) & Hmap)]].
  - apply (H0 s' l'); [|intros pg; by rewrite Hl']. split_and!; [done|by eapply vm_rest_trans|].
    intros pg Hpg. rewrite Hm' by done. apply Hm1. by rewrite <- Hown, <- Hl'.
  - change a with (v_dir A). rewrite <- (gr_dir _ _ _ Hg).
    apply (H1 s' A'); [done|done|done|intros pg; by rewrite <- Ho'|by eapply vm_rest_trans|].
    intros pg Hpg. rewrite Hm'; [by apply Hm1| | | |].
    + intros ->. apply Hpg. left.
    + intros i. simpl. by rewrite lookup_empty.
    + intros Hf. apply Hpg. by right.
    + intros Hf. apply Hpg, Hown, Ho'. by right.
Qed.

(** ** A new user page *)

(** [kalloc] has returned the page [a], which is then filled with [ws]. *)
Lemma vok_fetch s A a l s1 ws :
  vok s A → v_free A = a :: l → k_mem s1 = k_mem s → vm_rest s s1 →
  vok s1 (set_hand (a :: v_hand A) (set_free l A)) → length ws = PGWORDS →
  let s2 := set_k_mem (<[a := ws]> (k_mem s1)) s1 in
  let A2 := set_hand (a :: v_hand A) (set_free l A) in
  vok s2 A2 ∧ vstep s s2 A A2 ∧ grows 1 A A2 ∧ filter (λ x, x ≠ a) (v_hand A2) = v_hand A.
Proof.
  intros HV E Hm Hr HV1 Hl s2 A2. assert (a ∈ v_hand A2) as Hin by left.
  split_and!; [by eapply (vok_store _ _ _ _ RHand)|split|split|].
  - eapply vm_rest_trans; [exact Hr|]. split; [by destruct s1|done].
  - intros pg. unfold owned. rewrite E, elem_of_cons. split.
    + intros [[r Hpl]|[->|Hf]]; [left|left; exists RHand; left|by right].
      destruct r as [|i|v|]; [by exists RDir|by exists (RTab i)|by exists (RFrame v)|exists RHand; by right].
    + intros [[r Hpl]|Hf]; [|by right; right].
      destruct r as [|i|v|]; [left; by exists RDir|left; by exists (RTab i)|left; by exists (RFrame v)|].
      apply elem_of_cons in Hpl as [->|Hpl]; [by right; left|left; by exists RHand].
  - intros pg _ _ Hf _. rewrite E in Hf. apply not_elem_of_cons in Hf as [Hne _].
    simpl. rewrite lookup_insert_ne by done. by rewrite Hm.
  - done.
  - done.
  - auto.
  - rewrite E. intros x Hx. by right.
  - rewrite E. simpl. lia.
  - simpl. rewrite filter_cons_False by (intros []; done). apply filter_notin. intros Hx.
    destruct (v_own _ _ HV a RHand Hx) as (_ & Hnf & _). apply Hnf. rewrite E. left.
Qed.

(** Pages that play a user role before and after a step keep their contents. *)
Lemma vstep_keeps s s' A A' pg r r' :
  vok s A → vok s' A' → vstep s s' A A' → plays A pg r → plays A' pg r' →
  (match r with RFrame _ | RHand => True | _ => False end) →
  k_mem s' !! pg = k_mem s !! pg.
Proof.
  intros HV HV' Hst Hpl Hpl' Hr. apply (vs_mem _ _ _ _ Hst).
  - intros ->. by pose proof (v_role _ _ HV _ _ RDir Hpl eq_refl) as ->.
  - intros i Hi. by pose proof (v_role _ _ HV _ _ (RTab i) Hpl Hi) as ->.
  - by apply (v_own _ _ HV pg r).
  - by apply (v_own _ _ HV' pg r').
Qed.

Lemma wp_new_user_page s A a l s1 ws v perm (Q : Z → kernel → Prop) :
  vok s A → v_free A = a :: l → k_mem s1 = k_mem s → vm_rest s s1 →
  vok s1 (set_hand (a :: v_hand A) (set_free l A)) → length ws = PGWORDS →
  0 ≤ v < UPAGES → 0 ≤ perm < PGSIZE → present (v_map A v) = false →
  let s2 := set_k_mem (<[a := ws]> (k_mem s1)) s1 in
  (l = [] → Q (-1) s2) →
  (∀ s' A', vok s' A' → vstep s s' A A' → grows 2 A A' → v_hand A' = v_hand A →
     (∀ w, v_map A' w = upd (v_map A) v (mkpte (a - KERNBASE) perm) w) →
     k_mem s' !! a = Some ws → Q 0 s') →
  wp (mappages (v_dir A) (v * PGSIZE) PGSIZE (a - KERNBASE) perm) Q s2.
Proof.
  intros HV E Hm Hr HV1 Hl Hv Hp Hno s2 H0 H1.
  destruct (vok_fetch s A a l s1 ws HV E Hm Hr HV1 Hl) as (HV2 & Hst2 & Hg2 & Hh2).
  set (A2 := set_hand (a :: v_hand A) (set_free l A)) in *.
  destruct (page_index v) as (E1 & _ & _ & Hr1); [vsize; lia|].
  assert (a ∈ v_hand A2) as Hin by left.
  apply (wp_map_user s2 A2 (v * PGSIZE) a perm).
  - done.
  - by apply Z.mod_mul.
  - vsize; lia.
  - done.
  - done.
  - by rewrite E1.
  - done.
  - intros s' A' HV' Hst' Hg' Hm' Hh'. rewrite E1 in Hm'. apply (H1 s' A'); [done| | | |done|].
    + by eapply grows_step.
    + by eapply (grows_trans 1 1).
    + congruence.
    + destruct (frame_mkpte a perm) as (Hf & Hpe & _); [by apply (v_own _ _ HV2 a RHand)|done|].
      assert (plays A' a (RFrame v)) as Hpl by (simpl; rewrite Hm', upd_eq; done).
      rewrite (vstep_keeps s2 s' A2 A' a RHand _ HV2 HV' Hst' Hin Hpl I). apply lookup_insert_eq.
Qed.

(** ** allocuvm *)

(** User page [w] of [A'] is a zeroed page, writable by the user, that was free in [A]. *)
Definition new_page (A : vsp) (s' : kernel) (A' : vsp) (w : Z) : Prop :=
  present (v_map A' w) = true ∧ PTE_FLAGS (v_map A' w) = Z.lor (Z.lor PTE_W PTE_U) PTE_P ∧
  frame (v_map A' w) ∈ v_free A ∧ k_mem s' !! frame (v_map A' w) = Some zero_page.

Lemma new_page_keeps A s1 A1 s2 A2 w :
  0 ≤ w < UPAGES → vok s1 A1 → vok s2 A2 → vstep s1 s2 A1 A2 → v_map A2 w = v_map A1 w →
  new_page A s1 A1 w → new_page A s2 A2 w.
Proof.
  intros Hw HV1 HV2 Hst Hm (H1 & H2 & H3 & H4). unfold new_page. rewrite Hm. split_and!; [done..|].
  assert (plays A1 (frame (v_map A1 w)) (RFrame w)) as Hpl by done.
  assert (plays A2 (frame (v_map A1 w)) (RFrame w)) as Hpl2 by (simpl; rewrite Hm; done).
  by rewrite (vstep_keeps s1 s2 A1 A2 _ _ _ HV1 HV2 Hst Hpl Hpl2 I).
Qed.

Lemma vm_rest_held s s' : vm_rest s s' → k_held s' = k_held s.
Proof. intros [-> _]. by destruct s. Qed.

Lemma wp_cprintf_vok (msg : list Z) s A (Q : unit → kernel → Prop) :
  args_ok msg [] = true → cons_ok s → Lcons ∉ k_held s → vok s A →
  (∀ s', vok s' A → vstep s s' A A → Q tt s') → wp (cprintf msg []) Q s.
Proof.
  intros Ha Hc Hl HV HQ. eapply wp_mono; [by apply wp_cprintf|].
  intros [] s' (cs & g & _ & Hg & ->). apply HQ.
  - destruct HV as [? ? ? ? ? []]. by split.
  - split; [split; [by destruct s|intros; by apply printed_ok]|done|done].
Qed.

(** Giving a page back from the hands. *)
Lemma vstep_give s A pg :
  vok s A → pg ∈ v_hand A →
  vstep s (push_page pg s) A (set_free (pg :: v_free A) (drop_hand pg A)).
Proof.
  intros HV Hin. split.
  - split; [by destruct s|done].
  - intros pg'. unfold owned. simpl v_free. rewrite elem_of_cons. split.
    + intros [[r Hpl]|Hf]; [|by right; right]. destruct (decide (pg' = pg)) as [->|Hne]; [by right; left|].
      left. exists r. destruct r; try done. simpl in *. by apply list_elem_of_filter.
    + intros [[r Hpl]|[->|Hf]]; [left|left; by exists RHand|by right].
      exists r. destruct r; try done. simpl in *. by apply list_elem_of_filter in Hpl as [_ ?].
  - intros pg' _ _ _ Hf. apply not_elem_of_cons in Hf as [Hne _]. simpl. by rewrite lookup_insert_ne.
Qed.

(** The two outcomes of the loop of [allocuvm] started on page [v]. *)
Definition alloc_ok (s : kernel) (A : vsp) (v n : Z) (s' : kernel) (A' : vsp) : Prop :=
  vok s' A' ∧ vstep s s' A A' ∧ (∃ k, grows k A A') ∧ v_hand A' = v_hand A ∧
  (∀ w, ¬ (v ≤ w < n) → v_map A' w = v_map A w) ∧ ∀ w, v ≤ w < n → new_page A s' A' w.
Definition alloc_failed (s : kernel) (A : vsp) (o n : Z) (s' : kernel) (A' : vsp) : Prop :=
  vok s' A' ∧ vstep s s' A A' ∧ v_dir A' = v_dir A ∧ v_hand A' = v_hand A ∧
  ∀ w, v_map A' w = unmap (v_map A) o n w.

(** The common end of the failing paths: the pages mapped so far go back. *)
Lemma wp_alloc_undo s A (msg : list Z) oldsz newsz (Q : unit → kernel → Prop) :
  vok s A → args_ok msg [] = true → cons_ok s → Lcons ∉ k_held s → 0 ≤ oldsz → newsz ≤ KERNBASE →
  (∀ s' A', shrunk s A s' A' →
     (∀ w, v_map A' w = unmap (v_map A) (npages oldsz) (npages newsz) w) → Q tt s') →
  wp (cprintf msg [] ;; deallocuvm (v_dir A) newsz oldsz ;; mret tt) Q s.
Proof.
  intros HV Ha Hc Hl Ho Hn HQ. apply wp_bind. eapply wp_cprintf_vok; [done..|].
  intros s1 HV1 Hst1. apply wp_bind. apply wp_deallocuvm; [done|done|done|].
  intros s' A' Hs Hm. apply wp_ret, (HQ s' A'); [|done].
  eapply shrunk_trans; [|exact Hs]. by split_and!.
Qed.

Lemma alloc_undo_app {B} (msg : list Z) d oldsz newsz (k : K B) (Q : B → kernel → Prop) s :
  wp (cprintf msg [] ;; deallocuvm d newsz oldsz ;; mret tt) (λ _ s', wp k Q s') s →
  wp (cprintf msg [] ;; deallocuvm d newsz oldsz ;; k) Q s.
Proof.
  intros Hw%wp_bind_inv. apply wp_bind. eapply wp_mono; [exact Hw|]. cbn beta. intros [] s1 H1%wp_bind_inv.
  apply wp_bind. eapply wp_mono; [exact H1|]. cbn beta. intros r s2 H2. exact H2.
Qed.

Lemma alloc_ok_step s A s1 A1 v n s' A' e :
  0 ≤ v < n → n ≤ UPAGES →
  vok s1 A1 → vstep s s1 A A1 → grows 2 A A1 → v_hand A1 = v_hand A →
  (∀ w, v_map A1 w = upd (v_map A) v e w) → new_page A s1 A1 v →
  alloc_ok s1 A1 (v + 1) n s' A' → alloc_ok s A v n s' A'.
Proof.
  intros Hv Hn HV1 Hst1 Hg1 Hh1 Hm1 Hnew (HV' & Hst' & [k Hg'] & Hh' & Hout & Hin). split_and!.
  - done.
  - by eapply grows_step.
  - exists (2 + k)%nat. by eapply grows_trans.
  - congruence.
  - intros w Hw. rewrite Hout by lia. rewrite Hm1, upd_ne by lia. done.
  - intros w Hw. destruct (decide (w = v)) as [->|Hne].
    + eapply (new_page_keeps A s1 A1 s' A'); [lia|done|done|done|by rewrite Hout by lia|done].
    + destruct (Hin w) as (H1 & H2 & H3 & H4); [lia|]. split_and!; [done|done| |done].
      by apply (gr_free _ _ _ Hg1).
Qed.

Lemma alloc_failed_step s A s1 A1 v o n s' A' e k :
  o ≤ v < n → v_map A v = 0 →
  vstep s s1 A A1 → grows k A A1 → v_hand A1 = v_hand A →
  (∀ w, v_map A1 w = upd (v_map A) v e w) → present e = true →
  alloc_failed s1 A1 o n s' A' → alloc_failed s A o n s' A'.
Proof.
  intros Hv H0 Hst1 Hg1 Hh1 Hm1 Hpe (HV' & Hst' & Hd' & Hh' & Hm'). split_and!.
  - done.
  - by eapply grows_step.
  - rewrite Hd'. apply Hg1.
  - congruence.
  - intros w. rewrite Hm'. unfold unmap. rewrite Hm1. unfold upd.
    destruct (Z.eqb_spec w v) as [->|Hne]; [|done]. rewrite Hpe, H0. ztest. done.
Qed.

(** The path on which [mappages] found no memory for a table: the page [a],
    already allocated, goes back too. *)
Lemma wp_alloc_undo_page s A a l s1 oldsz newsz (Q : bool → kernel → Prop) :
  vok s A → v_free A = a :: l → k_mem s1 = k_mem s → vm_rest s s1 →
  vok s1 (set_hand (a :: v_hand A) (set_free l A)) →
  cons_ok s → Lcons ∉ k_held s → 0 ≤ oldsz → newsz ≤ KERNBASE →
  let s2 := set_k_mem (<[a := zero_page]> (k_mem s1)) s1 in
  (∀ s' A', alloc_failed s A (npages oldsz) (npages newsz) s' A' → Q false s') →
  wp (cprintf (str "allocuvm out of memory (2)" ++ [NL]) [] ;;
      deallocuvm (v_dir A) newsz oldsz ;; kfree a ;; mret false) Q s2.
Proof.
  intros HV E Hm Hr HV1 Hc Hl Ho Hn s2 HQ.
  destruct (vok_fetch s A a l s1 zero_page HV E Hm Hr HV1 eq_refl) as (HV2 & Hst2 & Hg2 & Hh2).
  set (A2 := set_hand (a :: v_hand A) (set_free l A)) in *. change (v_dir A) with (v_dir A2).
  apply alloc_undo_app. eapply wp_alloc_undo; [exact HV2|reflexivity| | |done|done|].
  - by apply (vs_rest _ _ _ _ Hst2).
  - unfold s2. by rewrite (vm_rest_held _ _ (vs_rest _ _ _ _ Hst2)).
  - intros s3 A3 (HV3 & Hst3 & Hd3 & Ht3 & Hh3 & Hf3) Hm3.
    assert (a ∈ v_hand A3) as Hin by (rewrite Hh3; left).
    apply wp_bind, wp_kfree; [by apply (v_own _ _ HV3 a RHand)|apply (v_kmem _ _ HV3)|].
    apply wp_ret. apply (HQ _ (set_free (a :: v_free A3) (drop_hand a A3))). split_and!.
    + by apply vok_give.
    + eapply grows_step; [exact Hg2|exact Hst2|].
      eapply vstep_trans; [exact Hst3|by apply vstep_give|done|rewrite Ht3; auto|].
      right. intros x Hx. by right.
    + done.
    + simpl. rewrite Hh3. exact Hh2.
    + exact Hm3.
Qed.

Lemma wp_allocuvm_loop fuel s A v oldsz newsz :
  vok s A → cons_ok s → Lcons ∉ k_held s → 0 ≤ oldsz → newsz ≤ KERNBASE → 0 ≤ v →
  npages oldsz ≤ v → npages newsz - v ≤ Z.of_nat fuel →
  (∀ w, v ≤ w < npages newsz → v_map A w = 0) →
  wp (allocuvm_loop fuel (v_dir A) (v * PGSIZE) oldsz newsz)
     (λ ok s', ∃ A', if ok then alloc_ok s A v (npages newsz) s' A'
        else alloc_failed s A (npages oldsz) (npages newsz) s' A' ∧
             Z.of_nat (length (v_free A)) < 2 * (npages newsz - v)) s.
Proof.
  revert s A v. induction fuel as [|fuel IH]; intros s A v HV Hc Hl Ho Hn Hv Hov Hf Hz;
    cbn [allocuvm_loop]; pose proof (npages_lt v newsz) as Hlt;
    destruct (Z.ltb_spec (v * PGSIZE) newsz) as [Hlo|Hlo].
  1: lia.
  1,3: apply wp_ret; exists A; split_and!; [done|apply vstep_refl|exists O; apply grows_refl|done|done|lia].
  pose proof (npages_kern newsz Hn). apply wp_bind. eapply wp_kalloc_vok; [exact HV| |].
  - intros E. change (0 =? 0) with true. cbv iota. apply alloc_undo_app.
    eapply wp_alloc_undo; [exact HV|reflexivity|done|done|done|done|].
    intros s' A' (HV' & Hst' & Hd' & _ & Hh' & _) Hm'. apply wp_ret. exists A'.
    split; [by split_and!|]. rewrite E. simpl. lia.
  - intros a l s1 E Ha Hm Hr HV1. rewrite (proj2 (Z.eqb_neq a 0)) by done.
    unfold fill_page. apply wp_bind, wp_modify, wp_bind.
    assert (page_ok a) as Hok by (by apply (v_own _ _ HV1 a RHand ltac:(left))).
    apply wp_V2P; [done|]. apply wp_bind.
    change (replicate PGWORDS (le_get (replicate 4 0))) with zero_page.
    eapply (wp_new_user_page s A a l s1 zero_page v);
      [done|done|done|done|done|reflexivity|lia|by unfold PTE_W, PTE_U, PGSIZE|by rewrite Hz by lia| |].
    + intros ->. change (-1 <? 0) with true. cbv iota.
      eapply wp_alloc_undo_page; [done..|]. intros s' A' Hfail. exists A'. split; [done|].
      rewrite E. simpl. lia.
    + intros s2 A2 HV2 Hst2 Hg2 Hh2 Hm2 Hw2. change (0 <? 0) with false. cbv iota.
      rewrite u32_small by (vsize; lia). replace (v * PGSIZE + PGSIZE) with ((v + 1) * PGSIZE) by lia.
      rewrite <- (gr_dir _ _ _ Hg2). pose proof (vs_rest _ _ _ _ Hst2) as Hr2.
      destruct (frame_mkpte a (Z.lor PTE_W PTE_U)) as (Hfr & Hpe & Hfl); [done|by unfold PTE_W, PTE_U, PGSIZE|].
      eapply wp_mono; [apply IH; [done|by apply Hr2|by rewrite (vm_rest_held _ _ Hr2)|done|done|lia|lia|lia|]|].
      { intros w Hw. rewrite Hm2, upd_ne by lia. apply Hz. lia. }
      intros [] s' (A' & HA'); exists A'.
      * eapply alloc_ok_step; [| |exact HV2|exact Hst2|exact Hg2|exact Hh2|exact Hm2| |exact HA']; [lia|lia|].
        unfold new_page. rewrite Hm2, upd_eq, Hfr, E. split_and!; [done|done|left|done].
      * destruct HA' as [HA' Hlen]. split.
        -- eapply alloc_failed_step; [| |exact Hst2|exact Hg2|exact Hh2|exact Hm2|exact Hpe|exact HA']; [lia|].
           apply Hz. lia.
        -- pose proof (gr_len _ _ _ Hg2). lia.
Qed.
End Ops.
