(* ===== verification/VmCopy.v ===== *)
(** * VmCopy: duplicating address spaces and writing user memory

    [copyuvm] and [copyout], which work on two address spaces or on the bytes
    of one, and the theorems about vm.c. *)

From S2P Require Import Prelude State Lock Console Kalloc Vm VmSpec VmOps.

Section Copy.
Context {KE : KernEnd} {KD : KernData}.
Hypothesis Hend : KERNBASE < kend.
Hypothesis Hdata : data_ok.

(** ** A second address space *)

(** An address space none of whose pages changed, with another free list. *)
Lemma vok_bystander s s' B l :
  vok s B → (∀ pg r, plays B pg r → k_mem s' !! pg = k_mem s !! pg ∧ pg ∉ l) → kmem_ok s' l →
  vok s' (set_free l B).
Proof.
  intros [(ws & [Hd Hdl] & Hw) Hs Hr Hh Ho _] Hsame Hk. split; try done.
  - exists ws. split; [split; [|done]|].
    { simpl. by rewrite (proj1 (Hsame (v_dir B) RDir eq_refl)). }
    intros i Hi. destruct (Hw i Hi) as (e & He & Hp). exists e. split; [done|].
    unfold pde_ok in *. simpl. destruct (v_tab B !! i) as [pt|] eqn:Et; [|done].
    destruct Hp as (H1 & H2 & ws' & [H3 H4] & H5). split_and!; [done|done|].
    exists ws'. split; [split; [|done]|done]. by rewrite (proj1 (Hsame pt (RTab i) Et)).
  - intros pg r Hpl. destruct (Ho pg r Hpl) as (H1 & _ & w & H3 & H4). destruct (Hsame pg r Hpl) as [E Hn].
    split_and!; [done|done|]. exists w. split; [by rewrite E|done].
Qed.

(** [A] and [B] share the free list and nothing else. *)
Definition apart (A B : vsp) : Prop :=
  v_free B = v_free A ∧ ∀ pg r, plays B pg r → ¬ owned A pg.

Lemma apart_step s s' A A' B :
  vok s B → apart A B → vok s' A' → vstep s s' A A' →
  vok s' (set_free (v_free A') B) ∧ apart A' (set_free (v_free A') B) ∧
  ∀ pg r, plays B pg r → k_mem s' !! pg = k_mem s !! pg.
Proof.
  intros HB [Hf Hn] HV' [Hr Ho Hm].
  assert (∀ pg r, plays B pg r → k_mem s' !! pg = k_mem s !! pg) as Hsame.
  { intros pg r Hpl. pose proof (Hn pg r Hpl) as Hno. apply Hm.
    - intros ->. apply Hno. left. by exists RDir.
    - intros i Hi. apply Hno. left. by exists (RTab i).
    - intros Hin. apply Hno. by right.
    - intros Hin. apply Hno, Ho. by right. }
  split_and!; [|split; [done|]|done].
  - eapply vok_bystander; [exact HB| |apply (v_kmem _ _ HV')].
    intros pg r Hpl. split; [by eapply Hsame|]. intros Hin. apply (Hn pg r Hpl), Ho. by right.
  - intros pg r Hpl Hown. apply (Hn pg r); [by destruct r|by apply Ho].
Qed.

(** ** copyuvm *)

(** Page [w] of [A'] has the flags and the contents that page [w] of [B] had. *)
Definition copied (s : kernel) (B : vsp) (s' : kernel) (A' : vsp) (w : Z) : Prop :=
  present (v_map A' w) = true ∧ PTE_FLAGS (v_map A' w) = PTE_FLAGS (v_map B w) ∧
  k_mem s' !! frame (v_map A' w) = k_mem s !! frame (v_map B w).

Definition copy_post (s : kernel) (A B : vsp) (v n : Z) (ok : bool) (s' : kernel) : Prop :=
  ∃ A', vok s' A' ∧ vstep s s' A A' ∧ (∃ k, grows k A A') ∧ v_hand A' = v_hand A ∧
    (ok = true → (∀ w, ¬ (v ≤ w < n) → v_map A' w = v_map A w) ∧
       ∀ w, v ≤ w < n → copied s B s' A' w).

Lemma flags_range e : 0 ≤ PTE_FLAGS e < PGSIZE.
Proof.
  unfold PTE_FLAGS. change 0xFFF with (Z.ones 12). rewrite Z.land_ones by lia.
  by apply Z.mod_pos_bound.
Qed.

Lemma flags_present e : present e = true → Z.lor (PTE_FLAGS e) PTE_P = PTE_FLAGS e.
Proof.
  intros Hp. unfold PTE_P. rewrite lor_one. rewrite present_odd in Hp.
  apply negb_true_iff, Z.eqb_neq in Hp. unfold PTE_FLAGS. change 0xFFF with (Z.ones 12).
  rewrite Z.land_ones by lia. change (2 ^ 12) with (2 * 2048).
  assert ((e mod (2 * 2048)) mod 2 = e mod 2) as ->.
  { symmetry. rewrite (Z.mod_mod_divide e (2 * 2048) 2); [done|]. by exists 2048. }
  pose proof (Z.mod_pos_bound e 2 ltac:(lia)). lia.
Qed.

Lemma present_table s B v :
  vok s B → 0 ≤ v < VPAGES → present (v_map B v) = true → ∃ pt, v_tab B !! (v / 1024) = Some pt.
Proof.
  intros HB Hv Hp. destruct (v_tab B !! (v / 1024)) as [pt|] eqn:E; [by exists pt|].
  rewrite (no_table s B v HB Hv E) in Hp. done.
Qed.

(** One more page after the first has been copied. *)
Lemma copy_post_step s A B s1 A1 v n a e ok s' :
  0 ≤ v < n → n ≤ UPAGES → vok s B → apart A B →
  (∀ w, v ≤ w < n → present (v_map B w) = true) →
  vok s1 A1 → vstep s s1 A A1 → (∃ k, grows k A A1) → v_hand A1 = v_hand A →
  (∀ w, v_map A1 w = upd (v_map A) v e w) → frame e = a → copied s B s1 A1 v →
  copy_post s1 A1 (set_free (v_free A1) B) (v + 1) n ok s' → copy_post s A B v n ok s'.
Proof.
  intros Hv Hn HB Hap Hp HV1 Hst1 [k1 Hg1] Hh1 Hm1 Hfe Hc1 (A' & HV' & Hst' & [k2 Hg'] & Hh' & Hok).
  exists A'. split_and!.
  - done.
  - by eapply grows_step.
  - exists (k1 + k2)%nat. by eapply grows_trans.
  - congruence.
  - intros Ht. destruct (Hok Ht) as [Hout Hin]. split.
    + intros w Hw. rewrite Hout by lia. rewrite Hm1, upd_ne by lia. done.
    + intros w Hw. destruct (decide (w = v)) as [->|Hne].
      * destruct Hc1 as (H1 & H2 & H3). unfold copied. rewrite Hout by lia. split_and!; [done|done|].
        rewrite <- H3. assert (plays A1 (frame (v_map A1 v)) (RFrame v)) as Hpl by (split; [lia|done]).
        apply (vstep_keeps s1 s' A1 A' _ (RFrame v) (RFrame v) HV1 HV' Hst' Hpl); [|done].
        simpl. rewrite Hout by lia. split; [lia|done].
      * destruct (Hin w) as (H1 & H2 & H3); [lia|]. split_and!; [done|done|]. rewrite H3.
        destruct (apart_step s s1 A A1 B HB Hap HV1 Hst1) as (_ & _ & Hsame).
        apply (Hsame _ (RFrame w)). split; [lia|]. split; [apply Hp; lia|done].
Qed.

Lemma wp_copy_loop fuel s A B v sz :
  vok s A → vok s B → apart A B → sz ≤ KERNBASE → 0 ≤ v → npages sz - v ≤ Z.of_nat fuel →
  (∀ w, v ≤ w < npages sz → present (v_map B w) = true ∧ v_map A w = 0) →
  wp (copyuvm_loop fuel (v_dir B) (v_dir A) (v * PGSIZE) sz) (copy_post s A B v (npages sz)) s.
Proof.
  revert s A B v. induction fuel as [|fuel IH]; intros s A B v HV HB Hap Hsz Hv Hf Hp;
    cbn [copyuvm_loop]; pose proof (npages_lt v sz) as Hlt;
    destruct (Z.ltb_spec (v * PGSIZE) sz) as [Hlo|Hlo].
  1: lia.
  1,3: apply wp_ret; exists A; split_and!;
    [done|apply vstep_refl|exists O; apply grows_refl|done|intros _; split; [done|lia]].
  pose proof (npages_kern sz Hsz). destruct (page_index v) as (E1 & E2 & E3 & Hr1); [vsize; lia|].
  destruct (Hp v) as [Hpv Hz]; [lia|]. destruct (present_table s B v HB) as [pt Ht]; [vsize; lia|done|].
  apply wp_bind. eapply wp_walk; [exact HB|done|]. rewrite E2, Ht. simpl.
  apply wp_bind. eapply wp_get_pte; [exact HB|done|by rewrite E2|]. rewrite E1, Hpv. simpl negb.
  assert (plays B (frame (v_map B v)) (RFrame v)) as Hpl by (split; [lia|done]).
  destruct (v_own _ _ HB _ _ Hpl) as (Hok & _ & ws & Hws & Hwl).
  apply wp_bind. eapply wp_kalloc_vok; [exact HV| |].
  { intros E. change (0 =? 0) with true. cbv iota. apply wp_ret. exists A.
    split_and!; [done|apply vstep_refl|exists O; apply grows_refl|done|done]. }
  intros a l s1 E Ha Hm Hr HV1. rewrite (proj2 (Z.eqb_neq a 0)) by done.
  assert (page_ok a) as Hoka by (by apply (v_own _ _ HV1 a RHand ltac:(left))).
  apply wp_bind. eapply wp_P2V; [|exact Hok|]; [unfold frame; lia|].
  unfold copy_page. apply wp_bind, wp_bind, wp_gets, wp_bind. rewrite Hm. eapply wp_deref; [exact Hws|].
  apply wp_modify, wp_bind, wp_V2P; [done|]. rewrite <- Hm. apply wp_bind.
  pose proof (flags_range (v_map B v)) as Hfl.
  eapply (wp_new_user_page s A a l s1 ws v); [done|done|done|done|done|done|lia|done|by rewrite Hz| |].
  - intros ->. change (-1 <? 0) with true. cbv iota.
    destruct (vok_fetch s A a [] s1 ws HV E Hm Hr HV1 Hwl) as (HV2 & Hst2 & Hg2 & Hh2).
    set (A2 := set_hand (a :: v_hand A) (set_free [] A)) in *. assert (a ∈ v_hand A2) as Hin by left.
    apply wp_bind, wp_kfree; [done|apply (v_kmem _ _ HV2)|]. apply wp_ret.
    exists (set_free (a :: v_free A2) (drop_hand a A2)). split_and!; [by apply vok_give| | |exact Hh2|done].
    + eapply grows_step; [exact Hg2|exact Hst2|by apply vstep_give].
    + exists O. destruct Hg2 as [Hg1 Hg3 Hg4 _ _]. split; [done|done|done|rewrite E; done|rewrite E; simpl; lia].
  - intros s2 A2 HV2 Hst2 Hg2 Hh2 Hm2 Hw2. change (0 <? 0) with false. cbv iota.
    rewrite u32_small by (vsize; lia). replace (v * PGSIZE + PGSIZE) with ((v + 1) * PGSIZE) by lia.
    rewrite <- (gr_dir _ _ _ Hg2). destruct (apart_step s s2 A A2 B HB Hap HV2 Hst2) as (HB2 & Hap2 & _).
    destruct (frame_mkpte a (PTE_FLAGS (v_map B v)) Hoka Hfl) as (Hfr & Hpe & Hfl').
    change (v_dir B) with (v_dir (set_free (v_free A2) B)).
    eapply wp_mono; [apply IH; [done|done|done|done|lia|lia|]|].
    { intros w Hw. destruct (Hp w) as [Hpw Hzw]; [lia|]. split; [done|]. by rewrite Hm2, upd_ne by lia. }
    intros ok s' Hpost. eapply copy_post_step; [| |exact HB|exact Hap| |exact HV2|exact Hst2|by exists 2%nat|
      exact Hh2|exact Hm2|exact Hfr| |exact Hpost]; [lia|lia|intros w Hw; by apply Hp|].
    unfold copied. rewrite Hm2, upd_eq, Hfr, Hpe, Hfl', flags_present, Hw2, Hws by done. done.
Qed.

(** The outcome of [copyuvm]: all memory back, or an address space of fresh
    pages with the contents and flags of the original. *)
Definition clone_failed (s : kernel) (B : vsp) (s' : kernel) : Prop :=
  ∃ l, (∀ pg, pg ∈ l ↔ pg ∈ v_free B) ∧ vok s' (set_free l B).
Definition clone_ok (s : kernel) (B : vsp) (n : Z) (s' : kernel) (A : vsp) : Prop :=
  vok s' A ∧ v_hand A = [] ∧ vok s' (set_free (v_free A) B) ∧
  (∀ pg, owned A pg ↔ pg ∈ v_free B) ∧
  (∀ w, 0 ≤ w < n → copied s B s' A w) ∧ ∀ w, ¬ (0 ≤ w < n) → v_map A w = kernel_map w.

Lemma bystander_freed s s' B l :
  vok s B → freed s s' l → (∀ pg, pg ∈ l ↔ pg ∈ v_free B) → vok s' (set_free l B).
Proof.
  intros HB (Hk & _ & Hm) Hl. eapply vok_bystander; [exact HB| |done]. intros pg r Hpl.
  assert (pg ∉ l) as Hn by (rewrite Hl; by apply (v_own _ _ HB pg r)). split; [by apply Hm|done].
Qed.

Lemma wp_copyuvm s B sz :
  vok s B → 0 ≤ sz ≤ KERNBASE → (∀ w, 0 ≤ w < npages sz → present (v_map B w) = true) →
  wp (copyuvm (v_dir B) sz)
     (λ r s', vm_rest s s' ∧ (∀ pg, pg ∉ v_free B → k_mem s' !! pg = k_mem s !! pg) ∧
        (r = 0 ∧ clone_failed s B s' ∨
         ∃ A, r = v_dir A ∧ clone_ok s B (npages sz) s' A)) s.
Proof.
  intros HB Hsz Hp. unfold copyuvm. apply wp_bind.
  eapply wp_setupkvm; [exact Hend|apply (v_kmem _ _ HB)|exact Hdata| |].
  { intros s' l Hfr Hl. change (0 =? 0) with true. cbv iota. apply wp_ret.
    pose proof Hfr as (_ & Hr & Hm). split_and!; [done|intros pg Hpg; apply Hm; by rewrite Hl|].
    left. split; [done|]. exists l. split; [done|]. by eapply bystander_freed. }
  intros s1 A HV Hh Hmap Hown Hr Hm.
  destruct (v_own _ _ HV _ RDir eq_refl) as (Hok & _ & _).
  rewrite (proj2 (Z.eqb_neq _ _)) by (by apply page_nonzero). apply wp_bind.
  assert (∀ pg r, plays B pg r → pg ∉ v_free B) as Hbf by (intros pg r Hpl; by apply (v_own _ _ HB pg r)).
  set (B1 := set_free (v_free A) B).
  assert (vok s1 B1) as HB1.
  { eapply vok_bystander; [exact HB| |apply (v_kmem _ _ HV)]. intros pg r Hpl. split; [by eapply Hm, Hbf|].
    intros Hin. apply (Hbf pg r Hpl), Hown. by right. }
  assert (apart A B1) as Hap.
  { split; [done|]. intros pg r Hpl Ho. apply (Hbf pg r); [by destruct r|]. by apply Hown. }
  pose proof (npages_kern sz ltac:(lia)) as Hnk. change (v_dir B) with (v_dir B1).
  eapply wp_mono; [apply (wp_copy_loop _ s1 A B1 0 sz); [done|done|done|lia|lia| |]|].
  { rewrite Z.sub_0_r. unfold npages. lia. }
  { intros w Hw. split; [by apply Hp|]. rewrite Hmap. apply kernel_map_user; [done|lia]. }
  intros ok s2 (A2 & HV2 & Hst2 & [k Hg2] & Hh2 & Hcopy).
  assert (∀ pg, owned A2 pg ↔ pg ∈ v_free B) as Hown2 by (intros pg; by rewrite <- (vs_owned _ _ _ _ Hst2), Hown).
  assert (vm_rest s s2) as Hr2 by (eapply vm_rest_trans; [exact Hr|apply Hst2]).
  assert (∀ pg, pg ∉ v_free B → k_mem s2 !! pg = k_mem s !! pg) as Hm2.
  { intros pg Hpg. rewrite <- Hm by done. apply (vs_mem _ _ _ _ Hst2).
    - intros ->. apply Hpg, Hown. left. by exists RDir.
    - intros i Hi. apply Hpg, Hown. left. by exists (RTab i).
    - intros Hin. apply Hpg, Hown. by right.
    - intros Hin. apply Hpg, Hown2. by right. }
  destruct ok.
  - apply wp_ret. split_and!; [done|done|]. right. exists A2. split; [symmetry; apply Hg2|].
    destruct (Hcopy eq_refl) as [Hout Hin].
    destruct (apart_step s1 s2 A A2 B1 HB1 Hap HV2 Hst2) as (HB2 & _ & _).
    split_and!; [done|congruence|exact HB2|done| |].
    + intros w Hw. destruct (Hin w Hw) as (H1 & H2 & H3). split_and!; [done|done|]. rewrite H3. apply Hm.
      apply (Hbf _ (RFrame w)). split_and!; [lia|lia|by apply Hp|done].
    + intros w Hw. by rewrite Hout.
  - rewrite <- (gr_dir _ _ _ Hg2). apply wp_bind. apply wp_freevm; [done|done|].
    intros s3 l (Hk3 & Hr3 & Hm3) Hl. apply wp_ret.
    assert (∀ pg, pg ∈ l ↔ pg ∈ v_free B) as Hl'.
    { intros pg. rewrite Hl, Hown2, Hh2, Hh. split; [by intros [? _]|]. intros. split; [done|apply not_elem_of_nil]. }
    assert (∀ pg, pg ∉ v_free B → k_mem s3 !! pg = k_mem s !! pg) as Hm3'.
    { intros pg Hpg. rewrite Hm3 by (by rewrite Hl'). by apply Hm2. }
    split_and!; [by eapply vm_rest_trans|done|]. left. split; [done|]. exists l. split; [done|].
    eapply bystander_freed; [exact HB| |done]. split_and!; [done|by eapply vm_rest_trans|].
    intros pg Hpg. apply Hm3'. by rewrite <- Hl'.
Qed.

(** ** User memory byte by byte *)

Lemma length_page_bytes ws : length (page_bytes ws) = (4 * length ws)%nat.
Proof. induction ws as [|w ws IH]; [done|]. simpl in *. lia. Qed.

Lemma page_bytes_bytes ws : bytes (page_bytes ws).
Proof. induction ws as [|w ws IH]; [constructor|]. apply Forall_app. split; [apply le_put_bytes|done]. Qed.

Lemma length_bytes_words n bs : length (bytes_words n bs) = n.
Proof. revert bs. induction n; intros; simpl; auto. Qed.

Lemma page_bytes_words n bs :
  length bs = (4 * n)%nat → bytes bs → page_bytes (bytes_words n bs) = bs.
Proof.
  revert bs. induction n as [|n IH]; intros bs Hl Hb; [by destruct bs|]. cbn [bytes_words].
  change (page_bytes (le_get (take 4 bs) :: bytes_words n (drop 4 bs)))
    with (le_put 4 (le_get (take 4 bs)) ++ page_bytes (bytes_words n (drop 4 bs))).
  rewrite IH; [|rewrite length_drop; lia|by apply Forall_drop].
  assert (length (take 4 bs) = 4%nat) as E by (rewrite length_take; lia).
  rewrite <- E at 1. rewrite le_put_get by (by apply Forall_take). apply take_drop.
Qed.

Definition user_ok (e : Z) : bool := present e && negb (Z.land e PTE_U =? 0).

Lemma k_mem_set m s : k_mem (set_k_mem m s) = m.
Proof. done. Qed.

(** The byte at user address [va]. *)
Definition ubyte (s : kernel) (m : Z → Z) (va : Z) : option Z :=
  let e := m (va / PGSIZE) in
  if user_ok e then ws ← k_mem s !! frame e; page_bytes ws !! Z.to_nat (va mod PGSIZE) else None.

Lemma wp_uva2ka s A w (Q : Z → kernel → Prop) :
  vok s A → 0 ≤ w < UPAGES → is_Some (v_tab A !! (w / 1024)) →
  Q (if user_ok (v_map A w) then frame (v_map A w) else 0) s →
  wp (uva2ka (v_dir A) (w * PGSIZE)) Q s.
Proof.
  intros HV Hw [pt Ht] HQ. destruct (page_index w) as (E1 & E2 & E3 & Hr); [vsize; lia|].
  unfold uva2ka. apply wp_bind. eapply wp_walk; [exact HV|done|]. rewrite E2, Ht.
  apply wp_bind. eapply wp_deref; [reflexivity|]. apply wp_bind.
  eapply wp_get_pte; [exact HV|done|by rewrite E2|]. rewrite E1.
  unfold user_ok in HQ. unfold present in HQ at 1. destruct (Z.land (v_map A w) PTE_P =? 0) eqn:Ep; [by apply wp_ret|].
  simpl in HQ. destruct (Z.land (v_map A w) PTE_U =? 0); [by apply wp_ret|]. simpl in HQ.
  eapply wp_P2V; [|  |exact HQ]; [unfold frame; lia|].
  apply (v_own _ _ HV _ (RFrame w)). split_and!; [lia|lia| |done]. unfold present. by rewrite Ep.
Qed.

Lemma ubyte_write s A w off chunk ws :
  vok s A → 0 ≤ w < UPAGES → user_ok (v_map A w) = true → k_mem s !! frame (v_map A w) = Some ws →
  length ws = PGWORDS → 0 ≤ off → off + Z.of_nat (length chunk) ≤ PGSIZE → bytes chunk →
  let s' := set_k_mem (<[frame (v_map A w) :=
              bytes_words PGWORDS (splice (Z.to_nat off) chunk (page_bytes ws))]> (k_mem s)) s in
  vok s' A ∧ ∀ a, 0 ≤ a < KERNBASE →
    ubyte s' (v_map A) a =
      if (w * PGSIZE + off <=? a) && (a <? w * PGSIZE + off + Z.of_nat (length chunk))
      then chunk !! Z.to_nat (a - (w * PGSIZE + off)) else ubyte s (v_map A) a.
Proof.
  intros HV Hw Hu Hws Hl Ho Hlen Hb s'. pose proof Hu as Hu'. apply andb_true_iff in Hu' as [Hp _].
  assert (plays A (frame (v_map A w)) (RFrame w)) as Hpl by done.
  split; [by eapply (vok_store _ _ _ _ (RFrame w)); [| | |apply length_bytes_words]|].
  assert (length (page_bytes ws) = Z.to_nat PGSIZE) as Hpb
    by (rewrite length_page_bytes, Hl; reflexivity).
  assert (page_bytes (bytes_words PGWORDS (splice (Z.to_nat off) chunk (page_bytes ws))) =
          splice (Z.to_nat off) chunk (page_bytes ws)) as Hround.
  { apply page_bytes_words.
    - rewrite length_splice by (rewrite Hpb; vsize; lia). by rewrite Hpb.
    - unfold splice. apply Forall_app; split; [apply Forall_take, page_bytes_bytes|].
      apply Forall_app; split; [done|apply Forall_drop, page_bytes_bytes]. }
  intros a Ha. pose proof (Z.div_mod a PGSIZE ltac:(done)) as Hd.
  pose proof (Z.mod_pos_bound a PGSIZE ltac:(done)) as Hmb. unfold ubyte.
  destruct (decide (a / PGSIZE = w)) as [Ew|Ew].
  - rewrite Ew, Hu. unfold s'. rewrite k_mem_set, lookup_insert_eq, Hws. cbn [mbind option_bind].
    rewrite Hround.
    destruct (Z.leb_spec (w * PGSIZE + off) a); [|simpl; apply lookup_splice_lt; vsize; lia].
    destruct (Z.ltb_spec a (w * PGSIZE + off + Z.of_nat (length chunk))); simpl.
    + rewrite lookup_splice_in by (vsize; lia). f_equal. vsize. lia.
    + apply lookup_splice_ge; vsize; lia.
  - assert ((w * PGSIZE + off <=? a) && (a <? w * PGSIZE + off + Z.of_nat (length chunk)) = false) as ->.
    { destruct (Z.leb_spec (w * PGSIZE + off) a), (Z.ltb_spec a (w * PGSIZE + off + Z.of_nat (length chunk)));
        try done. exfalso. apply Ew. symmetry. vsize. apply (Z.div_unique _ _ _ (a - w * 4096)); lia. }
    destruct (user_ok (v_map A (a / PGSIZE))) eqn:Ea; [|done]. unfold s'. rewrite k_mem_set, lookup_insert_ne; [done|].
    intros Hfr. apply Ew. apply andb_true_iff in Ea as [Ea _].
    assert (plays A (frame (v_map A w)) (RFrame (a / PGSIZE))) as Hpl2.
    { rewrite Hfr. split_and!; [apply Z.div_pos; vsize; lia| |done|done].
      apply Z.div_lt_upper_bound; vsize; lia. }
    pose proof (v_role _ _ HV _ _ _ Hpl Hpl2). congruence.
Qed.

Definition copyout_post (s : kernel) (A : vsp) (va : Z) (buf : list Z) (r : Z) (s' : kernel) : Prop :=
  vok s' A ∧ s' = set_k_mem (k_mem s') s ∧
  (r = 0 ∧ (∀ a, 0 ≤ a < KERNBASE → ubyte s' (v_map A) a =
      if (va <=? a) && (a <? va + Z.of_nat (length buf)) then buf !! Z.to_nat (a - va)
      else ubyte s (v_map A) a) ∨
   r = -1 ∧ ∃ a, va ≤ a < va + Z.of_nat (length buf) ∧ user_ok (v_map A (a / PGSIZE)) = false).

Lemma copyout_step s A va n buf s1 r s' :
  0 ≤ va → (0 < n ≤ length buf)%nat → s1 = set_k_mem (k_mem s1) s →
  (∀ a, 0 ≤ a < KERNBASE → ubyte s1 (v_map A) a =
      if (va <=? a) && (a <? va + Z.of_nat n) then take n buf !! Z.to_nat (a - va)
      else ubyte s (v_map A) a) →
  copyout_post s1 A (va + Z.of_nat n) (drop n buf) r s' → copyout_post s A va buf r s'.
Proof.
  intros Hva Hn Hs1 Hub (HV' & Hs' & Hr). split_and!; [done|rewrite Hs'; rewrite Hs1; by destruct s|].
  assert (length (drop n buf) = (length buf - n)%nat) as Hld by apply length_drop.
  destruct Hr as [[-> Hok]|[-> (a & Ha & Hno)]]; [left|right]; (split; [done|]).
  - intros a Ha. rewrite Hok by done. rewrite Hub by done.
    destruct (Z.leb_spec (va + Z.of_nat n) a), (Z.ltb_spec a (va + Z.of_nat n + Z.of_nat (length (drop n buf))));
      try lia; simpl.
    + ztest. simpl. rewrite lookup_drop. f_equal. lia.
    + ztest. simpl. done.
    + destruct (Z.leb_spec va a); simpl; [|done]. ztest. simpl. apply lookup_take_lt. lia.
  - exists a. split; [lia|done].
Qed.

Lemma wp_copyout_loop fuel s A va buf :
  vok s A → 0 ≤ va → va + Z.of_nat (length buf) ≤ KERNBASE → (length buf ≤ fuel)%nat → bytes buf →
  (∀ a, va ≤ a < va + Z.of_nat (length buf) → is_Some (v_tab A !! (a / PGSIZE / 1024))) →
  wp (copyout_loop fuel (v_dir A) va buf) (copyout_post s A va buf) s.
Proof.
  revert s va buf. induction fuel as [|fuel IH]; intros s va buf HV Hva Hk Hf Hb Ht.
  all: destruct buf as [|b buf']; cbn [copyout_loop].
  1,3: apply wp_ret; split_and!; [done|by destruct s|left; split; [done|]; intros a Ha;
    cbn [length]; rewrite Z.add_0_r; destruct (Z.leb_spec va a), (Z.ltb_spec a va); try done; lia].
  1: simpl in Hf; lia.
  set (buf := b :: buf') in *. assert (0 < length buf)%nat as Hpos by (simpl; lia).
  pose proof (Z.div_mod va PGSIZE ltac:(done)) as Hd. pose proof (Z.mod_pos_bound va PGSIZE ltac:(done)) as Hmb.
  set (w := va / PGSIZE) in *.
  assert (0 ≤ w < UPAGES) as Hw by (vsize; lia).
  rewrite PGROUNDDOWN_spec. fold w. apply wp_bind. apply wp_uva2ka; [done|done|apply Ht; lia|].
  destruct (user_ok (v_map A w)) eqn:Hu; cycle 1.
  { change (0 =? 0) with true. cbv iota. apply wp_ret. split_and!; [done|by destruct s|right].
    split; [done|]. exists va. split; [lia|done]. }
  pose proof Hu as Hu'. apply andb_true_iff in Hu' as [Hp _].
  assert (plays A (frame (v_map A w)) (RFrame w)) as Hpl by done.
  destruct (v_own _ _ HV _ _ Hpl) as (Hok & _ & ws & Hws & Hwl).
  rewrite (proj2 (Z.eqb_neq _ _)) by (by apply page_nonzero).
  set (n := Z.to_nat (Z.min (PGSIZE - (va - w * PGSIZE)) (Z.of_nat (length buf)))).
  assert (0 < n ≤ length buf)%nat as Hn by (unfold n; vsize; lia).
  assert (length (take n buf) = n) as Hln by (rewrite length_take; lia).
  assert (va - w * PGSIZE + Z.of_nat n ≤ PGSIZE) as Hoff by (unfold n; vsize; lia).
  unfold write_page. apply wp_bind, wp_bind, wp_gets, wp_bind. eapply wp_deref; [exact Hws|].
  rewrite Hln. ztest. apply wp_modify.
  destruct (ubyte_write s A w (va - w * PGSIZE) (take n buf) ws) as [HV1 Hub];
    [done|done|done|done|done|vsize; lia|by rewrite Hln|by apply Forall_take|].
  rewrite Hln in Hub. replace (w * PGSIZE + (va - w * PGSIZE)) with va in Hub by lia.
  destruct (Nat.eq_dec n (length buf)) as [En|En].
  { rewrite En in *. rewrite drop_all. destruct fuel; cbn [copyout_loop]; apply wp_ret;
      (split_and!; [done|by destruct s|left; split; [done|]]; intros a Ha; rewrite Hub by done; by rewrite take_ge by lia). }
  assert (va + Z.of_nat n = w * PGSIZE + PGSIZE) as Enext by (unfold n in *; vsize; lia).
  rewrite u32_small by (vsize; lia). rewrite <- Enext.
  eapply wp_mono.
  { apply IH; [done|lia|rewrite length_drop; lia|rewrite length_drop; lia|by apply Forall_drop|].
    intros a Ha. rewrite length_drop in Ha. apply Ht. lia. }
  intros r s' Hpost. eapply (copyout_step s A va n); [done|done| |exact Hub|exact Hpost]. by destruct s.
Qed.
End Copy.

(** ** The theorems *)

(** Where [setupkvm] maps the virtual address [va]. *)
Definition kernel_mapped `{KernData} (m : Z → Z) (va : Z) : Prop :=
  let e := m (va / PGSIZE) in
  (0 ≤ va < KERNBASE → e = 0) ∧
  (KERNBASE ≤ va < KERNBASE + PHYSTOP →
     present e = true ∧ PTE_ADDR e + va mod PGSIZE = va - KERNBASE ∧
     PTE_FLAGS e = if (KERNLINK <=? va) && (va <? kdata) then PTE_P else Z.lor PTE_W PTE_P) ∧
  (DEVSPACE ≤ va < 2 ^ 32 →
     present e = true ∧ PTE_ADDR e + va mod PGSIZE = va ∧ PTE_FLAGS e = Z.lor PTE_W PTE_P).

Lemma kernel_map_mapped `{KernData} m va :
  data_ok → (∀ w, m w = kernel_map w) → kernel_mapped m va.
Proof.
  intros Hd Hm. unfold kernel_mapped. rewrite Hm.
  pose proof (Z.div_mod va PGSIZE ltac:(done)) as Hdm. pose proof (Z.mod_pos_bound va PGSIZE ltac:(done)) as Hmb.
  split_and!.
  - intros Hva. apply kernel_map_user; [done|]. apply Z.div_lt_upper_bound; [done|]. vsize. lia.
  - intros Hva. rewrite kernel_map_spec by done.
    change (PHYSTOP / PGSIZE) with 57344. change (KERNLINK / PGSIZE) with 524544.
    change (UPAGES) with 524288. destruct Hd as [Hda _].
    assert (kdata = kdata / PGSIZE * PGSIZE) as Ekd by (pose proof (Z.div_mod kdata PGSIZE ltac:(done)); lia).
    change KERNBASE with 2147483648 in *. change PHYSTOP with 234881024 in *. change KERNLINK with 2148532224.
    set (w := va / PGSIZE) in *. set (kd := kdata / PGSIZE) in *. change PGSIZE with 4096 in *.
    rewrite (proj2 (Z.leb_le 524288 w)), (proj2 (Z.ltb_lt w (524288 + 57344))) by lia. simpl andb.
    assert ((524544 <=? w) && (w <? kd) = (2148532224 <=? va) && (va <? kdata)) as ->.
    { f_equal; apply eq_bool_prop_intro; rewrite !Is_true_true, ?Z.leb_le, ?Z.ltb_lt; lia. }
    destruct (mkpte_spec ((w - 524288) * 4096) (if (2148532224 <=? va) && (va <? kdata) then 0 else PTE_W))
      as (_ & E1 & E2 & E3).
    { change PGSIZE with 4096. by apply Z.mod_mul. } { lia. } { by destruct (_ && _). }
    rewrite E1, E2, E3. split_and!; [done|lia|by destruct (_ && _)].
  - intros Hva. rewrite kernel_map_spec by done.
    change (PHYSTOP / PGSIZE) with 57344. change (UPAGES) with 524288.
    change (DEVSPACE / PGSIZE) with 1040384. change VPAGES with 1048576. change DEVSPACE with 4261412864 in *.
    set (w := va / PGSIZE) in *. change PGSIZE with 4096 in *.
    rewrite (proj2 (Z.ltb_ge w (524288 + 57344))), andb_false_r by lia.
    rewrite (proj2 (Z.leb_le 1040384 w)), (proj2 (Z.ltb_lt w 1048576)) by lia. simpl andb.
    destruct (mkpte_spec (w * 4096) PTE_W) as (_ & E1 & E2 & E3).
    { change PGSIZE with 4096. by apply Z.mod_mul. } { lia. } { done. }
    rewrite E1, E2, E3. split_and!; [done|lia|done].
Qed.


Lemma wp_allocuvm `{KernEnd} (s : kernel) (A : vsp) (oldsz newsz : Z) :
  KERNBASE < kend → vok s A → cons_ok s → Lcons ∉ k_held s → 0 ≤ oldsz ≤ newsz → newsz < KERNBASE →
  (∀ w, npages oldsz ≤ w < npages newsz → v_map A w = 0) →
  wp (allocuvm (v_dir A) oldsz newsz) (λ r s', ∃ A', vok s' A' ∧ vstep s s' A A' ∧
    v_dir A' = v_dir A ∧ v_hand A' = v_hand A ∧
    (r = newsz ∧ (∀ w, npages oldsz ≤ w < npages newsz → new_page A s' A' w) ∧
       (∀ w, ¬ (npages oldsz ≤ w < npages newsz) → v_map A' w = v_map A w) ∨
     r = 0 ∧ (∀ w, v_map A' w = v_map A w) ∧
       Z.of_nat (length (v_free A)) < 2 * (npages newsz - npages oldsz))) s.
Proof.
  intros Hend HV Hc Hl Ho Hn Hz. unfold allocuvm. ztest.
  rewrite PGROUNDUP_npages by lia. apply wp_bind.
  eapply wp_mono; [apply (wp_allocuvm_loop Hend); [done|done|done|lia|lia| |lia| |done]|].
  - apply Z.div_pos; vsize; lia.
  - replace (newsz - npages oldsz * PGSIZE + PGSIZE - 1) with (newsz + PGSIZE - 1 + - npages oldsz * PGSIZE) by lia.
    rewrite Z.div_add by done. fold (npages newsz). lia.
  - intros [] s' (A' & HA'); apply wp_ret; exists A'.
    + destruct HA' as (HV' & Hst & [k Hg] & Hh & Hout & Hin).
      split_and!; [done|done|apply Hg|done|]. left. done.
    + destruct HA' as [(HV' & Hst & Hd & Hh & Hm) Hlen]. split_and!; [done|done|done|done|]. right.
      split_and!; [done| |done]. intros w. rewrite Hm. unfold unmap.
      destruct (Z.leb_spec (npages oldsz) w), (Z.ltb_spec w (npages newsz)); try done.
      simpl. rewrite Hz by lia. done.
Qed.



(** C29. [copyuvm], given a size up to which every page is mapped, either fails
    with all memory back on the free list, or returns an address space made of
    pages that were free, whose user pages have the flags and contents of the
    original's and whose other entries are the kernel's; the original is
    untouched. *)
Theorem copyuvm_clones `{KernEnd} `{KernData} (s : kernel) (B : vsp) (sz : Z) :
  KERNBASE < kend → data_ok → vok s B → 0 ≤ sz ≤ KERNBASE →
  (∀ w, 0 ≤ w < npages sz → present (v_map B w) = true) →
  wp (copyuvm (v_dir B) sz)
     (λ r s', vm_rest s s' ∧ (∀ pg, pg ∉ v_free B → k_mem s' !! pg = k_mem s !! pg) ∧
        (r = 0 ∧ clone_failed s B s' ∨
         ∃ A, r = v_dir A ∧ clone_ok s B (npages sz) s' A)) s.
Proof. intros Hend Hdata HB Hsz Hp. by apply (wp_copyuvm Hend Hdata). Qed.


(** ** A machine with one address space *)

#[local] Instance demo_kend : KernEnd := 0x80200000.
#[local] Instance demo_kdata : KernData := 0x80180000.

(** Three free pages and a zeroed directory page. *)
Definition demo_vm : kernel :=
  set_k_mem (<[0x80600000 := zero_page]> (k_mem (push_page 0x80500000 demo_kmem)))
    (push_page 0x80500000 demo_kmem).
Definition demo_space : vsp :=
  mkVsp 0x80600000 ∅ (λ _, 0) [] [0x80500000; 0x80300000; 0x80400000].

Lemma demo_data_ok : data_ok.
Proof. split; [reflexivity|split; reflexivity]. Qed.

Lemma demo_free_ok : kmem_ok demo_vm [0x80500000; 0x80300000; 0x80400000].
Proof.
  destruct (kmem_push 0x80500000 demo_kmem _ demo_kmem_ok) as [H1 H2 H3 H4].
  - by repeat split.
  - repeat (apply not_elem_of_cons; split; [done|]). apply not_elem_of_nil.
  - split; [|exact H2|exact H3|exact H4]. apply chain_other; [|exact H1].
    repeat (apply not_elem_of_cons; split; [done|]). apply not_elem_of_nil.
Qed.

Lemma demo_vok : vok demo_vm demo_space.
Proof.
  apply vok_fresh; [apply lookup_insert_eq|by repeat split| |exact demo_free_ok].
  repeat (apply not_elem_of_cons; split; [done|]). apply not_elem_of_nil.
Qed.

Lemma demo_cons : cons_ok demo_vm ∧ Lcons ∉ k_held demo_vm.
Proof.
  split; [split; [reflexivity|split; [split; [apply Z.leb_le|apply Z.ltb_lt]; reflexivity|reflexivity]]|].
  apply not_elem_of_nil.
Qed.
#[global] Opaque demo_vm.




(** A process with one page of memory. *)
Definition demo_user : kernel := run (allocuvm 0x80600000 0 4096) demo_vm.

Lemma demo_user_ok : ∃ B, vok demo_user B ∧ v_dir B = 0x80600000 ∧ new_page demo_space demo_user B 0.
Proof.
  assert (wp (allocuvm (v_dir demo_space) 0 4096) (λ _ s', ∃ B, vok s' B ∧ v_dir B = 0x80600000 ∧
    new_page demo_space s' B 0) demo_vm) as Hw.
  { eapply wp_mono; [apply (wp_allocuvm demo_vm demo_space 0 4096); [reflexivity|exact demo_vok|
      apply demo_cons|apply demo_cons|split; discriminate|reflexivity|reflexivity]|].
    intros r s' (A' & HV & _ & Hd & _ & [(-> & Hn & _)|(_ & _ & Hlt)]); [|discriminate Hlt].
    exists A'. split; [exact HV|]. split; [exact Hd|]. apply Hn. split; [discriminate|reflexivity]. }
  apply wp_run in Hw as [_ Hw]. exact Hw.
Qed.
#[global] Opaque demo_user.

Lemma demo_user_table B : vok demo_user B → new_page demo_space demo_user B 0 → is_Some (v_tab B !! 0).
Proof.
  intros HV (Hp & _). destruct (present_table demo_user B 0 HV) as [pt Hpt]; [by vsize|done|]. by exists pt.
Qed.

Lemma copyuvm_clones_witness :
  ∃ B, vok demo_user B ∧ v_dir B = 0x80600000 ∧
    wp (copyuvm 0x80600000 4096) (λ r s', r = 0 ∧ clone_failed demo_user B s' ∨
         ∃ A, r = v_dir A ∧ clone_ok demo_user B 1 s' A) demo_user.
Proof.
  destruct demo_user_ok as (B & HV & Hd & Hn). exists B. split; [exact HV|]. split; [exact Hd|].
  rewrite <- Hd. eapply wp_mono; [apply (copyuvm_clones demo_user B 4096);
    [reflexivity|exact demo_data_ok|exact HV|split; discriminate|]|].
  - intros w Hw. change (npages 4096) with 1 in Hw. assert (w = 0) as -> by lia. apply Hn.
  - intros r s' (_ & _ & H). exact H.
Defined.

