(* ===== verification/Pipe.v ===== *)
(** * Pipe: pipes (pipe.c)

    [pipewrite], [piperead] and [pipeclose]; [pipealloc] is in [File], with the
    file table it fills.  A pipe is a ring of 512 bytes with two 32-bit counters
    that wrap around.  It is shown to be a queue: whatever the interleaving of
    readers and writers and however often the counters wrap, the bytes read are
    the bytes written, in order. *)

From S2P Require Import Prelude State Lock Kalloc.

Definition get_pipe (p : Z) : K pipe := ps ← gets k_pipes; deref (ps !! p).
Definition upd_pipe (p : Z) (f : pipe → pipe) : K unit :=
  pi ← get_pipe p; modify (λ s, set_k_pipes (<[p := f pi]> (k_pipes s)) s).
Definition killed : K bool := i ← curproc; p ← get_proc i; mret (p_killed p).

(** [p->data[p->nwrite++ % PIPESIZE] = b] *)
Definition pipe_put (b : Z) (pi : pipe) : pipe :=
  mkPipe (<[Z.to_nat (pi_nwrite pi mod PIPESIZE) := b]> (pi_data pi)) (pi_nread pi)
    (u32 (pi_nwrite pi + 1)) (pi_readopen pi) (pi_writeopen pi).
(** [p->data[p->nread++ % PIPESIZE]] *)
Definition pipe_get (pi : pipe) : option Z := pi_data pi !! Z.to_nat (pi_nread pi mod PIPESIZE).
Definition pipe_next (pi : pipe) : pipe :=
  mkPipe (pi_data pi) (u32 (pi_nread pi + 1)) (pi_nwrite pi) (pi_readopen pi) (pi_writeopen pi).
Definition pipe_full (pi : pipe) : bool := pi_nwrite pi =? u32 (pi_nread pi + PIPESIZE).
Definition pipe_empty (pi : pipe) : bool := pi_nread pi =? pi_nwrite pi.

Section Ops.
Context `{WaitBound} `{KernEnd}.

(** The [while] loop of [pipewrite]; [false] if it returned -1. *)
Fixpoint pipewrite_wait (fuel : nat) (p : Z) : K bool :=
  pi ← get_pipe p;
  if pipe_full pi
  then k ← (if negb (pi_readopen pi) then mret true else killed);
       if (k : bool) then release (Lpipe p) ;; mret false
       else match fuel with
            | O => nofuel
            | S f => wakeup (ChPipeR p) ;; sleep (ChPipeW p) (Lpipe p) ;; pipewrite_wait f p
            end
  else mret true.

Fixpoint pipewrite_loop (p : Z) (addr : list Z) (n : Z) : K Z :=
  match addr with
  | [] => wakeup (ChPipeR p) ;; release (Lpipe p) ;; mret n
  | b :: addr' =>
      ok ← pipewrite_wait wait_bound p;
      if (ok : bool) then upd_pipe p (pipe_put b) ;; pipewrite_loop p addr' n
      else mret (-1)
  end.

(** [addr]: the [n] bytes at the user's address. *)
Definition pipewrite (p : Z) (addr : list Z) : K Z :=
  acquire (Lpipe p) ;; pipewrite_loop p addr (Z.of_nat (length addr)).

(** The [while] loop of [piperead]. *)
Fixpoint piperead_wait (fuel : nat) (p : Z) : K bool :=
  pi ← get_pipe p;
  if pipe_empty pi && pi_writeopen pi
  then k ← killed;
       if (k : bool) then release (Lpipe p) ;; mret false
       else match fuel with
            | O => nofuel
            | S f => sleep (ChPipeR p) (Lpipe p) ;; piperead_wait f p
            end
  else mret true.

Fixpoint piperead_copy (n : nat) (p : Z) : K (list Z) :=
  match n with
  | O => mret []
  | S n' =>
      pi ← get_pipe p;
      if pipe_empty pi then mret [] else
      b ← deref (pipe_get pi);
      upd_pipe p pipe_next ;;
      bs ← piperead_copy n' p;
      mret (b :: bs)
  end.

(** The result is -1 or the bytes stored at the user's address. *)
Definition piperead (p : Z) (n : nat) : K (option (list Z)) :=
  acquire (Lpipe p) ;;
  ok ← piperead_wait wait_bound p;
  if negb ok then mret None else
  bs ← piperead_copy n p;
  wakeup (ChPipeW p) ;;
  release (Lpipe p) ;;
  mret (Some bs).

Definition pipeclose (p : Z) (writable : bool) : K unit :=
  acquire (Lpipe p) ;;
  (if writable
   then upd_pipe p (λ pi, mkPipe (pi_data pi) (pi_nread pi) (pi_nwrite pi) (pi_readopen pi) false) ;;
        wakeup (ChPipeR p)
   else upd_pipe p (λ pi, mkPipe (pi_data pi) (pi_nread pi) (pi_nwrite pi) false (pi_writeopen pi)) ;;
        wakeup (ChPipeW p)) ;;
  pi ← get_pipe p;
  if negb (pi_readopen pi) && negb (pi_writeopen pi)
  then release (Lpipe p) ;; modify (λ s, set_k_pipes (delete p (k_pipes s)) s) ;; kfree p
  else release (Lpipe p).
End Ops.

(** ** A pipe as a queue *)

Definition pcount (pi : pipe) : Z := u32 (pi_nwrite pi - pi_nread pi).

Record pipe_ok (pi : pipe) : Prop := {
  po_len : length (pi_data pi) = Z.to_nat PIPESIZE;
  po_r : 0 ≤ pi_nread pi < 2 ^ 32;
  po_w : 0 ≤ pi_nwrite pi < 2 ^ 32;
  po_count : pcount pi ≤ PIPESIZE }.

(** The bytes in the pipe, oldest first. *)
Definition queue (pi : pipe) : list Z :=
  (λ k, nth (Z.to_nat ((pi_nread pi + Z.of_nat k) mod PIPESIZE)) (pi_data pi) 0) <$>
  seq 0 (Z.to_nat (pcount pi)).

Section Queue.
Implicit Types pi : pipe.

Lemma u32_mod_pipe x : u32 x mod PIPESIZE = x mod PIPESIZE.
Proof.
  unfold u32, PIPESIZE. apply Z.mod_mod_divide. exists (2 ^ 23). reflexivity.
Qed.

Lemma pipe_full_count pi : pipe_ok pi → pipe_full pi = (pcount pi =? PIPESIZE).
Proof.
  intros [_ Hr Hw Hc]. unfold pipe_full, pcount in *. unfold PIPESIZE in *.
  apply Bool.eq_iff_eq_true. rewrite !Z.eqb_eq. unfold u32 in *.
  pose proof (Z.mod_pos_bound (pi_nread pi + 512) (2 ^ 32) ltac:(lia)).
  split; intros E.
  - rewrite E, Zminus_mod_idemp_l. replace (pi_nread pi + 512 - pi_nread pi) with 512 by lia. done.
  - rewrite <- E, Zplus_mod_idemp_r.
    replace (pi_nread pi + (pi_nwrite pi - pi_nread pi)) with (pi_nwrite pi) by lia.
    by rewrite Z.mod_small.
Qed.

Lemma pipe_empty_count pi : pipe_ok pi → pipe_empty pi = (pcount pi =? 0).
Proof.
  intros [_ Hr Hw Hc]. unfold pipe_empty, pcount, u32 in *.
  apply Bool.eq_iff_eq_true. rewrite !Z.eqb_eq. split; intros E.
  - rewrite E, Z.sub_diag. done.
  - destruct (Z.ltb_spec (pi_nwrite pi) (pi_nread pi)).
    + rewrite <- (Z.mod_add _ 1), Z.mod_small in E by lia. lia.
    + rewrite Z.mod_small in E by lia. lia.
Qed.

Lemma pcount_put b pi : pipe_ok pi → pipe_full pi = false → pcount (pipe_put b pi) = pcount pi + 1.
Proof.
  intros Hok Hf. rewrite pipe_full_count, Z.eqb_neq in Hf by done. destruct Hok as [_ Hr Hw Hc].
  unfold pcount, u32 in *. simpl. unfold u32, PIPESIZE in *. rewrite Zminus_mod_idemp_l.
  replace (pi_nwrite pi + 1 - pi_nread pi) with (pi_nwrite pi - pi_nread pi + 1) by lia.
  rewrite <- Zplus_mod_idemp_l. apply Z.mod_small.
  pose proof (Z.mod_pos_bound (pi_nwrite pi - pi_nread pi) (2 ^ 32) ltac:(lia)). lia.
Qed.

Lemma pcount_next pi : pipe_ok pi → pipe_empty pi = false → pcount (pipe_next pi) = pcount pi - 1.
Proof.
  intros Hok Hf. rewrite pipe_empty_count, Z.eqb_neq in Hf by done. destruct Hok as [_ Hr Hw Hc].
  unfold pcount, u32 in *. simpl. unfold u32, PIPESIZE in *. rewrite Zminus_mod_idemp_r.
  replace (pi_nwrite pi - (pi_nread pi + 1)) with (pi_nwrite pi - pi_nread pi - 1) by lia.
  rewrite <- Zminus_mod_idemp_l. apply Z.mod_small.
  pose proof (Z.mod_pos_bound (pi_nwrite pi - pi_nread pi) (2 ^ 32) ltac:(lia)). lia.
Qed.

Lemma pcount_range pi : 0 ≤ pcount pi.
Proof. unfold pcount, u32. apply Z.mod_pos_bound. lia. Qed.

Lemma pipe_put_ok b pi : pipe_ok pi → pipe_full pi = false → pipe_ok (pipe_put b pi).
Proof.
  intros Hok Hf. pose proof (pcount_put b pi Hok Hf) as Hp.
  rewrite pipe_full_count, Z.eqb_neq in Hf by done. destruct Hok as [H1 Hr Hw Hc].
  split; [by rewrite <- H1; apply length_insert|done|apply u32_range|lia].
Qed.
Lemma pipe_next_ok pi : pipe_ok pi → pipe_empty pi = false → pipe_ok (pipe_next pi).
Proof.
  intros Hok Hf. pose proof (pcount_next pi Hok Hf) as Hp. destruct Hok as [H1 Hr Hw Hc].
  split; [done|apply u32_range|done|lia].
Qed.

Lemma ring_write_slot pi :
  (pi_nwrite pi) mod PIPESIZE = (pi_nread pi + pcount pi) mod PIPESIZE.
Proof.
  unfold pcount. rewrite <- Zplus_mod_idemp_r, u32_mod_pipe, Zplus_mod_idemp_r. f_equal. lia.
Qed.

(** Different ages, different slots. *)
Lemma ring_slot_ne r k c :
  0 ≤ k < c → c < PIPESIZE → (r + k) mod PIPESIZE ≠ (r + c) mod PIPESIZE.
Proof.
  unfold PIPESIZE. intros Hk Hc E.
  assert ((r + c - (r + k)) mod 512 = 0) as E'.
  { rewrite Zminus_mod, E, Z.sub_diag. done. }
  replace (r + c - (r + k)) with (c - k) in E' by lia. rewrite Z.mod_small in E' by lia. lia.
Qed.

Lemma queue_put b pi :
  pipe_ok pi → pipe_full pi = false → queue (pipe_put b pi) = queue pi ++ [b].
Proof.
  intros Hok Hf. unfold queue. rewrite pcount_put by done. pose proof (pcount_range pi) as H0.
  replace (Z.to_nat (pcount pi + 1)) with (S (Z.to_nat (pcount pi))) by lia.
  rewrite seq_S, fmap_app. rewrite pipe_full_count, Z.eqb_neq in Hf by done.
  pose proof (po_count _ Hok) as Hc. pose proof (po_len _ Hok) as Hl. simpl.
  assert (∀ x, (Z.to_nat (x mod PIPESIZE) < length (pi_data pi))%nat) as Hb.
  { intros x. rewrite Hl. pose proof (Z.mod_pos_bound x PIPESIZE). unfold PIPESIZE in *. lia. }
  f_equal.
  - apply list_fmap_ext. intros i k Hk. apply lookup_seq in Hk as [-> Hk]. simpl.
    rewrite !nth_lookup, list_lookup_insert_ne; [done|].
    rewrite ring_write_slot. pose proof (ring_slot_ne (pi_nread pi) (Z.of_nat i) (pcount pi)) as Hn.
    pose proof (Z.mod_pos_bound (pi_nread pi + pcount pi) PIPESIZE ltac:(done)).
    pose proof (Z.mod_pos_bound (pi_nread pi + Z.of_nat i) PIPESIZE ltac:(done)). lia.
  - rewrite Z2Nat.id by done. rewrite ring_write_slot, nth_lookup, list_lookup_insert_eq by apply Hb.
    done.
Qed.

Lemma queue_get pi :
  pipe_ok pi → pipe_empty pi = false →
  ∃ b, pipe_get pi = Some b ∧ queue pi = b :: queue (pipe_next pi).
Proof.
  intros Hok Hf. pose proof (pcount_next pi Hok Hf) as Hn.
  rewrite pipe_empty_count, Z.eqb_neq in Hf by done. pose proof (pcount_range pi) as H0.
  pose proof (po_len _ Hok) as Hl. unfold pipe_get.
  destruct (lookup_lt_is_Some_2 (pi_data pi) (Z.to_nat (pi_nread pi mod PIPESIZE))) as [b Hb].
  { rewrite Hl. pose proof (Z.mod_pos_bound (pi_nread pi) PIPESIZE). unfold PIPESIZE in *. lia. }
  exists b. split; [done|]. unfold queue. rewrite Hn.
  replace (Z.to_nat (pcount pi)) with (S (Z.to_nat (pcount pi - 1))) by lia.
  rewrite <- cons_seq, <- fmap_S_seq, fmap_cons. f_equal.
  - rewrite Z.add_0_r, nth_lookup, Hb. done.
  - rewrite <- list_fmap_compose. apply list_fmap_ext. intros i k _. simpl. f_equal.
    rewrite <- (Zplus_mod_idemp_l (u32 _)), u32_mod_pipe, Zplus_mod_idemp_l. f_equal. f_equal. lia.
Qed.

Lemma queue_empty pi : pipe_ok pi → pipe_empty pi = true → queue pi = [].
Proof.
  intros Hok He. rewrite pipe_empty_count, Z.eqb_eq in He by done. unfold queue. by rewrite He.
Qed.
Lemma length_queue pi : Z.of_nat (length (queue pi)) = pcount pi.
Proof. unfold queue. rewrite length_fmap, length_seq. pose proof (pcount_range pi). lia. Qed.
End Queue.

(** ** Writers and readers under every interleaving *)

Definition has_pipe (p : Z) (s : kernel) (pi : pipe) : Prop :=
  k_pipes s !! p = Some pi ∧ pipe_ok pi.
(** A segment from [e] to [x] put [c] in the pipe, or took it out. *)
Definition appended (p : Z) (e x : kernel) (c : list Z) : Prop :=
  ∃ pe px, has_pipe p e pe ∧ has_pipe p x px ∧ queue px = queue pe ++ c.
Definition taken (p : Z) (e x : kernel) (c : list Z) : Prop :=
  ∃ pe px, has_pipe p e pe ∧ has_pipe p x px ∧ queue pe = c ++ queue px.

(** How the process finds the world when it is resumed: the pipe still exists.
    Anything may have happened to its contents. *)
Definition pipe_env (p : Z) (i : nat) (pid : Z) (s : kernel) : Prop :=
  resumed i pid s ∧ ∃ pi, has_pipe p s pi.

(** In the middle of a segment, with the pipe locked. *)
Definition busy (p : Z) (i : nat) (pid : Z) (s : kernel) : Prop :=
  k_held s = [Lpipe p] ∧ ∃ q, running s i q ∧ p_pid q = pid ∧ p_state q ≠ SLEEPING.

Section Interleaved.
Context `{WaitBound}.
Context (p : Z) (i : nat) (pid : Z).
Implicit Types s : kernel.

Lemma wp_killed q (Q : bool → kernel → Prop) s :
  running s i q → Q (p_killed q) s → wp killed Q s.
Proof.
  intros Hr HQ. unfold killed. apply wp_bind, (wp_curproc i q); [done|].
  apply wp_bind. eapply wp_get_proc; [apply Hr|]. by apply wp_ret.
Qed.

Lemma wp_get_pipe pi (Q : pipe → kernel → Prop) s :
  k_pipes s !! p = Some pi → Q pi s → wp (get_pipe p) Q s.
Proof. intros Hp HQ. unfold get_pipe. by apply wp_bind, wp_gets, (wp_deref _ pi). Qed.

Lemma wp_upd_pipe f pi (Q : unit → kernel → Prop) s :
  k_pipes s !! p = Some pi → Q tt (set_k_pipes (<[p := f pi]> (k_pipes s)) s) →
  wp (upd_pipe p f) Q s.
Proof. intros Hp HQ. unfold upd_pipe. by apply wp_bind, (wp_get_pipe pi), wp_modify. Qed.

Lemma busy_upd f s :
  busy p i pid s → busy p i pid (set_k_pipes f s).
Proof. done. Qed.

Lemma awake_busy s' : resumed i pid s' → busy p i pid (awake i (Lpipe p) s').
Proof.
  intros (Hp & Hh & q & Hq & Hs & Hpid). split; [done|]. exists (set_p_chan None q).
  split; [|split; [done|simpl; by rewrite Hs]]. split; [done|]. simpl. by rewrite list_lookup_alter_eq, Hq.
Qed.

Lemma awake_pipe s' pi : has_pipe p s' pi → has_pipe p (awake i (Lpipe p) s') pi.
Proof. done. Qed.

Lemma busy_wakeup c s : busy p i pid s → busy p i pid (do_wakeup c s).
Proof.
  intros (Hh & q & Hr & Hpid & Hs). split; [done|]. exists q. split; [|done].
  by apply running_wakeup.
Qed.

Definition R := pipe_env p i pid.

Lemma sg_pipewrite_wait fuel k e acc d s :
  busy p i pid s → appended p e s d →
  (∀ (b : bool) s' e' acc' d', acc' ++ d' = acc ++ d → appended p e' s' d' →
     (if b then busy p i pid s' ∧ ∃ pi, has_pipe p s' pi ∧ pipe_full pi = false
      else k_held s' = []) → k b s' e' acc') →
  sg R (appended p) k e acc (pipewrite_wait fuel p s).
Proof.
  revert e acc d s. induction fuel as [|fuel IH]; intros e acc d s Hb Hd Hk; simpl;
    destruct Hd as (pe & pi & He & Hpi & Eq); apply sg_bind, wp_sg, (wp_get_pipe pi); try apply Hpi;
    (destruct (pipe_full pi) eqn:Ef;
      [|apply wp_sg, wp_ret, (Hk true s e acc d); [done|by exists pe, pi|by split; [|exists pi]]]);
    apply sg_bind, wp_sg; destruct Hb as (Hh & q & Hr & Hpid & Hs);
    (destruct (pi_readopen pi) eqn:Ero; [apply (wp_killed q); [done|]; destruct (p_killed q) eqn:Ekl
       |apply wp_ret]); cbv iota.
  1,3,4,6: apply wp_sg, wp_bind; (eapply wp_release; [exact Hh|apply not_elem_of_nil|]);
    apply wp_ret, (Hk false _ e acc d); [done|by exists pe, pi|done].
  { done. }
  apply sg_bind, wp_sg, wp_wakeup; [rewrite Hh; set_solver|].
  apply sg_bind. eapply (sg_sleep _ _ _ _ _ _ _ i q _ d).
  - by apply running_wakeup.
  - done.
  - exact Hh.
  - intros s1 ->. by exists pe, pi.
  - intros s' (Hres & pi' & Hpi'). split; [apply Hres|].
    eapply IH; [by apply awake_busy|exists pi', pi'; rewrite app_nil_r; done|].
    intros b s2 e2 acc2 d2 Ea Hd2 Hif. apply (Hk b s2 e2 acc2 d2); [|done|done].
    by rewrite Ea, app_nil_r.
Qed.

(** The end of a run: all contributions together, and the lock released. *)
Definition wrote_all (n : Z) (src : list Z) (a : Z) (s e : kernel) (acc : list Z) : Prop :=
  ∃ d, appended p e s d ∧ k_held s = [] ∧
    (a = n ∧ acc ++ d = src ∨ a = -1 ∧ ∃ rest, rest ≠ [] ∧ src = (acc ++ d) ++ rest).

Lemma sg_pipewrite_loop src n k e acc d s :
  busy p i pid s → appended p e s d →
  (∀ a s' e' acc', wrote_all n ((acc ++ d) ++ src) a s' e' acc' → k a s' e' acc') →
  sg R (appended p) k e acc (pipewrite_loop p src n s).
Proof.
  revert e acc d s k. induction src as [|b src IH]; intros e acc d s k Hb Hd Hk; simpl.
  - apply wp_sg, wp_bind, wp_wakeup; [rewrite (proj1 Hb); set_solver|]. apply wp_bind.
    eapply wp_release; [exact (proj1 Hb)|apply not_elem_of_nil|]. apply wp_ret, Hk.
    exists d. split; [done|]. split; [done|]. left. by rewrite app_nil_r.
  - apply sg_bind. eapply sg_pipewrite_wait; [done..|].
    intros [] s1 e1 acc1 d1 Ea Hd1 Hif; cbv iota.
    + destruct Hif as (Hb1 & pi & Hpi & Hf). destruct Hd1 as (pe & pi1 & He & Hpi1 & Eq).
      assert (pi1 = pi) as -> by (destruct Hpi, Hpi1; congruence).
      apply sg_bind, wp_sg, (wp_upd_pipe _ pi); [apply Hpi|].
      apply (IH e1 acc1 (d1 ++ [b])); [done| |].
      * exists pe, (pipe_put b pi). split; [done|]. split.
        { split; [apply lookup_insert_eq|]. apply pipe_put_ok; [apply Hpi|done]. }
        rewrite queue_put by (done || apply Hpi). by rewrite Eq, app_assoc.
      * intros a s' e' acc' Hw. apply Hk. rewrite <- Ea.
        replace ((acc1 ++ d1) ++ b :: src) with ((acc1 ++ d1 ++ [b]) ++ src)
          by (by rewrite <- !app_assoc). done.
    + apply wp_sg, wp_ret, Hk. exists d1. split; [done|]. split; [done|]. right.
      split; [done|]. exists (b :: src). split; [done|]. by rewrite Ea.
Qed.

(** [piperead]'s loop only waits: segments that end in it take nothing. *)
Lemma sg_piperead_wait fuel (k : bool → kernel → kernel → list Z → Prop) e s :
  busy p i pid s → taken p e s [] →
  (∀ (b : bool) s' e', taken p e' s' [] →
     (if b then busy p i pid s' ∧ ∃ pi, has_pipe p s' pi ∧ (pipe_empty pi = false ∨ pi_writeopen pi = false)
      else k_held s' = []) → k b s' e' []) →
  sg R (taken p) k e [] (piperead_wait fuel p s).
Proof.
  revert e s. induction fuel as [|fuel IH]; intros e s Hb Hd Hk; simpl;
    destruct Hd as (pe & pi & He & Hpi & Eq); apply sg_bind, wp_sg, (wp_get_pipe pi); try apply Hpi;
    (destruct (pipe_empty pi && pi_writeopen pi) eqn:Ef;
      [|apply wp_sg, wp_ret, (Hk true s e); [by exists pe, pi|split; [done|exists pi; split; [done|]];
         apply andb_false_iff in Ef; tauto]]);
    apply sg_bind, wp_sg; destruct Hb as (Hh & q & Hr & Hpid & Hs);
    apply (wp_killed q); try done; (destruct (p_killed q) eqn:Ekl;
      [apply wp_sg, wp_bind; (eapply wp_release; [exact Hh|apply not_elem_of_nil|]);
       apply wp_ret, (Hk false _ e); [by exists pe, pi|done]|]); [done|].
  apply sg_bind. eapply (sg_sleep _ _ _ _ _ _ _ i q _ []); [done|done|exact Hh| |].
  - intros s1 ->. by exists pe, pi.
  - intros s' (Hres & pi' & Hpi'). split; [apply Hres|]. simpl.
    apply IH; [by apply awake_busy|by exists pi', pi'|done].
Qed.

Lemma wp_piperead_copy n pi (Q : list Z → kernel → Prop) s :
  has_pipe p s pi →
  (∀ bs pi', queue pi = bs ++ queue pi' → pipe_ok pi' → length bs = Nat.min n (length (queue pi)) →
     pi_writeopen pi' = pi_writeopen pi → Q bs (set_k_pipes (<[p := pi']> (k_pipes s)) s)) →
  wp (piperead_copy n p) Q s.
Proof.
  revert pi Q s. induction n as [|n IH]; intros pi Q s [Hp Hok] HQ; simpl.
  - apply wp_ret. specialize (HQ [] pi eq_refl Hok eq_refl eq_refl).
    rewrite insert_id in HQ by done. by destruct s.
  - apply wp_bind, (wp_get_pipe pi); [done|]. destruct (pipe_empty pi) eqn:Ee.
    + apply wp_ret. rewrite (queue_empty pi Hok Ee) in HQ. specialize (HQ [] pi).
      rewrite (queue_empty pi Hok Ee), insert_id in HQ by done.
      specialize (HQ eq_refl Hok eq_refl eq_refl). by destruct s.
    + destruct (queue_get pi Hok Ee) as (b & Hb & Eq). apply wp_bind. eapply wp_deref; [exact Hb|].
      apply wp_bind, (wp_upd_pipe _ pi); [done|]. apply wp_bind.
      apply (IH (pipe_next pi)).
      { split; [apply lookup_insert_eq|by apply pipe_next_ok]. }
      intros bs pi' Eq' Hok' Hl Hwo. apply wp_ret. specialize (HQ (b :: bs) pi').
      simpl. rewrite insert_insert_eq. specialize (HQ ltac:(by rewrite Eq, Eq') Hok').
      rewrite Eq in HQ. simpl in HQ. rewrite Hl in HQ. specialize (HQ eq_refl Hwo). by destruct s.
Qed.

End Interleaved.

(** ** Theorems *)

(** C15. A writer's bytes enter the pipe in order under every interleaving.
    Between the segments of a [pipewrite] other processes may do anything that
    leaves the pipe in place.  The call never panics or overruns the ring; each
    segment appends to the queue the next bytes of the buffer and nothing else;
    if the call returns the byte count, all of the buffer has been appended, and
    if it returns -1, a proper prefix; the lock is free when it returns. *)
Theorem pipewrite_appends `{WaitBound} (p : Z) (i : nat) (q : proc) (s : kernel) (pi : pipe)
    (addr : list Z) :
  running s i q → p_state q = RUNNING → k_held s = [] → has_pipe p s pi →
  sg (pipe_env p i (p_pid q)) (appended p)
     (λ a s' e acc, ∃ d, appended p e s' d ∧ k_held s' = [] ∧
        (a = Z.of_nat (length addr) ∧ acc ++ d = addr ∨
         a = -1 ∧ ∃ rest, rest ≠ [] ∧ addr = (acc ++ d) ++ rest))
     s [] (pipewrite p addr s).
Proof.
  intros Hr Hs Hh Hp. unfold pipewrite.
  apply sg_bind, wp_sg, wp_acquire; [rewrite Hh; apply not_elem_of_nil|]. rewrite Hh.
  apply (sg_pipewrite_loop p i (p_pid q) addr _ _ s [] []).
  - split; [done|]. exists q. split; [done|]. split; [done|]. by rewrite Hs.
  - exists pi, pi. rewrite app_nil_r. done.
  - intros a s' e' acc' Hw. exact Hw.
Qed.

(** C16. A reader takes the oldest bytes under every interleaving.  While it waits,
    [piperead] takes nothing; the segment in which it returns removes from the
    front of the queue exactly the bytes it returns -- as many as were asked for
    or were there -- and it returns an empty result only if the queue is empty
    and the write end is closed, or no bytes were asked for; it returns -1 only
    having taken nothing. *)
Theorem piperead_takes `{WaitBound} (p : Z) (i : nat) (q : proc) (s : kernel) (pi : pipe) (n : nat) :
  running s i q → p_state q = RUNNING → k_held s = [] → has_pipe p s pi →
  sg (pipe_env p i (p_pid q)) (taken p)
     (λ a s' e acc, acc = [] ∧ k_held s' = [] ∧
        match a with
        | None => taken p e s' []
        | Some bs => taken p e s' bs ∧
            (length bs = n ∨ ∃ px, has_pipe p s' px ∧ queue px = [] ∧
                                   (bs = [] → pi_writeopen px = false))
        end)
     s [] (piperead p n s).
Proof.
  intros Hr Hs Hh Hp. unfold piperead.
  apply sg_bind, wp_sg, wp_acquire; [rewrite Hh; apply not_elem_of_nil|]. rewrite Hh.
  apply sg_bind. apply (sg_piperead_wait p i (p_pid q)).
  - split; [done|]. exists q. split; [done|]. split; [done|]. by rewrite Hs.
  - by exists pi, pi.
  - intros [] s1 e1 Ht Hif; cbv iota; simpl; [|done].
    destruct Hif as ((Hh1 & _) & pi1 & Hp1 & Hor).
    destruct Ht as (pe & pi2 & He & Hp2 & Eq). simpl in Eq.
    assert (pi2 = pi1) as -> by (destruct Hp1, Hp2; congruence).
    apply wp_sg, wp_bind, (wp_piperead_copy p n pi1); [done|].
    intros bs pi' Eq' Hok' Hl Hwo. apply wp_bind, wp_wakeup; [simpl; rewrite Hh1; set_solver|].
    apply wp_bind. eapply wp_release; [exact Hh1|apply not_elem_of_nil|]. apply wp_ret.
    split; [done|]. split; [done|].
    assert (∀ s', k_pipes s' = <[p := pi']> (k_pipes s1) → has_pipe p s' pi') as Hhas
      by (intros s' E; split; [rewrite E; apply lookup_insert_eq|done]).
    split; [exists pe, pi'; split; [done|]; split; [by apply Hhas|by rewrite Eq]|].
    assert (length (queue pi1) = length bs + length (queue pi'))%nat as Hsum
      by (rewrite Eq'; apply length_app).
    destruct (decide (n ≤ length (queue pi1))%nat); [left; lia|]. right. exists pi'.
    split; [by apply Hhas|]. split; [apply nil_length_inv; lia|]. intros ->. rewrite Hwo.
    destruct Hor as [Hne|?]; [|done]. exfalso. destruct Hp1 as [_ Hok1].
    destruct (queue_get pi1 Hok1 Hne) as (b & _ & Eb). rewrite Eb in Hsum, Hl. simpl in *. lia.
Qed.

(** A pipe that has carried 2^32 - 3 bytes and holds two. *)
Definition demo_pipe : pipe :=
  mkPipe (replicate 512 65) (2 ^ 32 - 3) (2 ^ 32 - 1) true true.
Definition demo_pipes : kernel :=
  set_k_proc (Some 0%nat) (set_k_ptable [set_p_state RUNNING (set_p_pid 5 proc0)]
    (set_k_pipes {[ 0x80300000 := demo_pipe ]} kernel0)).

Lemma demo_pipe_has : has_pipe 0x80300000 demo_pipes demo_pipe.
Proof. split; [reflexivity|]. split; [reflexivity|done|done|done]. Qed.

Lemma pipewrite_appends_witness :
  sg (pipe_env 0x80300000 0 5) (appended 0x80300000)
     (λ a s' e acc, ∃ d, appended 0x80300000 e s' d ∧ k_held s' = [] ∧
        (a = 3 ∧ acc ++ d = [10; 20; 30] ∨
         a = -1 ∧ ∃ rest, rest ≠ [] ∧ [10; 20; 30] = (acc ++ d) ++ rest))
     demo_pipes [] (pipewrite (H := 2%nat) 0x80300000 [10; 20; 30] demo_pipes).
Proof.
  apply (pipewrite_appends (H := 2%nat) 0x80300000 0 (set_p_state RUNNING (set_p_pid 5 proc0))
    demo_pipes demo_pipe [10; 20; 30]); [split; reflexivity|reflexivity|reflexivity|exact demo_pipe_has].
Defined.

Lemma piperead_takes_witness :
  sg (pipe_env 0x80300000 0 5) (taken 0x80300000)
     (λ a s' e acc, match a with None => True | Some bs => taken 0x80300000 e s' bs end)
     demo_pipes [] (piperead (H := 2%nat) 0x80300000 4 demo_pipes).
Proof.
  eapply sg_mono.
  - apply (piperead_takes (H := 2%nat) 0x80300000 0 (set_p_state RUNNING (set_p_pid 5 proc0))
      demo_pipes demo_pipe 4); [split; reflexivity|reflexivity|reflexivity|exact demo_pipe_has].
  - intros [bs|] s' e acc (_ & _ & Ht); [exact (proj1 Ht)|exact I].
Defined.
