(* ===== verification/Bio.v ===== *)
(** * Bio: the buffer cache (bio.c) over the in-memory disk (memide.c)

    Buffers live in the array [k_bcache]; index [HEAD] is [bcache.head].  The
    doubly linked list through [prev]/[next] is modelled as the code builds it,
    by pointer updates.  The first part holds the operations; then the list
    invariant [lru] and what each operation does to the recency order; then the
    specifications of [bread], [bwrite] and [brelse] that the log uses. *)

From S2P Require Import Prelude State Lock.

Definition HEAD : nat := NBUF.

(** ** memide.c *)

Definition ideinit (img : gmap Z (list Z)) (imgsize : Z) : K unit :=
  modify (λ s, set_k_disk img (set_k_disksize (imgsize / BSIZE) s)).

Definition iderw (bi : nat) : K unit :=
  h ← holdingsleep (SBuf bi);
  if negb h then panic "iderw: buf not locked" else
  b ← get_buf bi;
  if Z.land (b_flags b) (Z.lor B_VALID B_DIRTY) =? B_VALID
  then panic "iderw: nothing to do" else
  if negb (b_dev b =? 1) then panic "iderw: request not for disk 1" else
  dsz ← gets k_disksize;
  if dsz <=? b_blockno b then panic "iderw: block out of range" else
  (if negb (Z.land (b_flags b) B_DIRTY =? 0)
   then upd_buf bi (λ b, set_b_flags (Z.land (b_flags b) (Z.lnot B_DIRTY)) b) ;;
        modify (λ s, set_k_disk (<[b_blockno b := b_data b]> (k_disk s))
                       (set_k_wtrace ((b_blockno b, b_data b) :: k_wtrace s) s))
   else d ← gets k_disk;
        data ← deref (d !! b_blockno b);
        upd_buf bi (set_b_data data)) ;;
  upd_buf bi (λ b, set_b_flags (Z.lor (b_flags b) B_VALID) b).

(** ** bio.c *)

(** The body of [binit]'s loop. *)
Definition binit_body (b : nat) : K unit :=
  hd ← get_buf HEAD;
  upd_buf b (set_b_next (b_next hd)) ;;
  upd_buf b (set_b_prev HEAD) ;;
  initsleeplock (SBuf b) ;;
  upd_buf (b_next hd) (set_b_prev b) ;;
  upd_buf HEAD (set_b_next b).

Definition binit : K unit :=
  upd_buf HEAD (set_b_prev HEAD) ;;
  upd_buf HEAD (set_b_next HEAD) ;;
  forM (seq 0 NBUF) binit_body.

(** Is the block already cached?  Follows [next] from [bi]. *)
Fixpoint bget_find (n : nat) (dev blockno : Z) (bi : nat) : K (option nat) :=
  if Nat.eqb bi HEAD then mret None else
  match n with
  | O => nofuel
  | S n' =>
      b ← get_buf bi;
      if (b_dev b =? dev) && (b_blockno b =? blockno) then mret (Some bi)
      else bget_find n' dev blockno (b_next b)
  end.

(** Not cached: the least recently used free and clean buffer, following [prev]. *)
Fixpoint bget_recycle (n : nat) (bi : nat) : K (option nat) :=
  if Nat.eqb bi HEAD then mret None else
  match n with
  | O => nofuel
  | S n' =>
      b ← get_buf bi;
      if (b_refcnt b =? 0) && (Z.land (b_flags b) B_DIRTY =? 0) then mret (Some bi)
      else bget_recycle n' (b_prev b)
  end.

Section Operations.
Context `{WaitBound}.

(** The list has [NBUF] elements, so [NBUF] steps reach its end. *)
Definition bget (dev blockno : Z) : K nat :=
  acquire Lbcache ;;
  hd ← get_buf HEAD;
  hit ← bget_find NBUF dev blockno (b_next hd);
  match hit with
  | Some bi =>
      upd_buf bi (λ b, set_b_refcnt (u32 (b_refcnt b + 1)) b) ;;
      release Lbcache ;;
      acquiresleep (SBuf bi) ;;
      mret bi
  | None =>
      hd ← get_buf HEAD;
      free ← bget_recycle NBUF (b_prev hd);
      match free with
      | Some bi =>
          upd_buf bi (λ b, set_b_refcnt 1 (set_b_flags 0
                             (set_b_blockno blockno (set_b_dev dev b)))) ;;
          release Lbcache ;;
          acquiresleep (SBuf bi) ;;
          mret bi
      | None => panic "bget: no buffers"
      end
  end.

Definition bread (dev blockno : Z) : K nat :=
  bi ← bget dev blockno;
  b ← get_buf bi;
  when (Z.land (b_flags b) B_VALID =? 0) (iderw bi) ;;
  mret bi.

Definition bwrite (bi : nat) : K unit :=
  h ← holdingsleep (SBuf bi);
  if negb h then panic "bwrite" else
  upd_buf bi (λ b, set_b_flags (Z.lor (b_flags b) B_DIRTY) b) ;;
  iderw bi.

Definition brelse (bi : nat) : K unit :=
  h ← holdingsleep (SBuf bi);
  if negb h then panic "brelse" else
  releasesleep (SBuf bi) ;;
  acquire Lbcache ;;
  upd_buf bi (λ b, set_b_refcnt (u32 (b_refcnt b - 1)) b) ;;
  b ← get_buf bi;
  when (b_refcnt b =? 0) (
    upd_buf (b_next b) (set_b_prev (b_prev b)) ;;
    b ← get_buf bi;
    upd_buf (b_prev b) (set_b_next (b_next b)) ;;
    hd ← get_buf HEAD;
    upd_buf bi (set_b_next (b_next hd)) ;;
    upd_buf bi (set_b_prev HEAD) ;;
    hd ← get_buf HEAD;
    upd_buf (b_next hd) (set_b_prev bi) ;;
    upd_buf HEAD (set_b_next bi)) ;;
  release Lbcache.

(** [memmove(b->data, ...)]: the code writes into the buffer it holds. *)
Definition set_data (bi : nat) (data : list Z) : K unit := upd_buf bi (set_b_data data).
Definition get_data (bi : nat) : K (list Z) := b ← get_buf bi; mret (b_data b).
End Operations.

(** ** The recency list

    [edges bc c]: every two consecutive nodes of [c] are linked both ways. *)

Definition nxt (bc : list buf) (i : nat) : option nat := b_next <$> bc !! i.
Definition prv (bc : list buf) (i : nat) : option nat := b_prev <$> bc !! i.

Fixpoint edges (bc : list buf) (c : list nat) : Prop :=
  match c with
  | a :: ((b :: _) as t) => nxt bc a = Some b ∧ prv bc b = Some a ∧ edges bc t
  | _ => True
  end.

(** [lru bc l]: the buffers are linked in the order [l], most recent first. *)
Record lru (bc : list buf) (l : list nat) : Prop := {
  lru_edges : edges bc (HEAD :: l ++ [HEAD]);
  lru_perm : Permutation l (seq 0 NBUF);
  lru_len : length bc = S NBUF }.

Definition setp (i v : nat) (bc : list buf) : list buf := alter (set_b_prev v) i bc.
Definition setn (i v : nat) (bc : list buf) : list buf := alter (set_b_next v) i bc.

Section Links.
Implicit Types (bc : list buf) (c l : list nat).

Lemma nxt_setp i v bc j : nxt (setp i v bc) j = nxt bc j.
Proof.
  unfold nxt, setp. destruct (decide (i = j)) as [->|];
    [rewrite list_lookup_alter_eq | by rewrite list_lookup_alter_ne].
  by destruct (bc !! j).
Qed.
Lemma prv_setn i v bc j : prv (setn i v bc) j = prv bc j.
Proof.
  unfold prv, setn. destruct (decide (i = j)) as [->|];
    [rewrite list_lookup_alter_eq | by rewrite list_lookup_alter_ne].
  by destruct (bc !! j).
Qed.
Lemma prv_setp_ne i v bc j : i ≠ j → prv (setp i v bc) j = prv bc j.
Proof. intros. unfold prv, setp. by rewrite list_lookup_alter_ne. Qed.
Lemma nxt_setn_ne i v bc j : i ≠ j → nxt (setn i v bc) j = nxt bc j.
Proof. intros. unfold nxt, setn. by rewrite list_lookup_alter_ne. Qed.
Lemma prv_setp_eq i v bc : (i < length bc)%nat → prv (setp i v bc) i = Some v.
Proof.
  intros [b Hb]%lookup_lt_is_Some_2. unfold prv, setp.
  by rewrite list_lookup_alter_eq, Hb.
Qed.
Lemma nxt_setn_eq i v bc : (i < length bc)%nat → nxt (setn i v bc) i = Some v.
Proof.
  intros [b Hb]%lookup_lt_is_Some_2. unfold nxt, setn.
  by rewrite list_lookup_alter_eq, Hb.
Qed.
Lemma length_setp i v bc : length (setp i v bc) = length bc.
Proof. apply length_alter. Qed.
Lemma length_setn i v bc : length (setn i v bc) = length bc.
Proof. apply length_alter. Qed.

Lemma edges_cons bc a c :
  edges bc (a :: c) ↔
  match head c with
  | None => True
  | Some b => nxt bc a = Some b ∧ prv bc b = Some a ∧ edges bc c
  end.
Proof. by destruct c. Qed.

Lemma edges_app bc c1 a b c2 :
  edges bc (c1 ++ a :: b :: c2) ↔
  edges bc (c1 ++ [a]) ∧ nxt bc a = Some b ∧ prv bc b = Some a ∧ edges bc (b :: c2).
Proof.
  induction c1 as [|x c1 IH]; [simpl; tauto|].
  destruct c1 as [|y c1]; simpl in *; tauto.
Qed.

(** [edges] reads [next] of all nodes but the last and [prev] of all but the
    first. *)
Lemma edges_ext bc bc' c :
  (∀ i, i ∈ removelast c → nxt bc' i = nxt bc i) →
  (∀ i, i ∈ tail c → prv bc' i = prv bc i) →
  edges bc c → edges bc' c.
Proof.
  induction c as [|a c IH]; [done|]. destruct c as [|b c]; [done|].
  intros Hn Hp (H1 & H2 & H3). split; [|split].
  - rewrite Hn by (simpl; set_solver). done.
  - rewrite Hp by (simpl; set_solver). done.
  - apply IH; [| |done].
    + intros i Hi. apply Hn. simpl in *. set_solver.
    + intros i Hi. apply Hp. simpl in *. destruct c; set_solver.
Qed.

Lemma removelast_snoc c a : removelast (c ++ [a]) = c.
Proof. by rewrite removelast_app, app_nil_r. Qed.

Lemma snoc_cases c a : ∃ c' p, a :: c = c' ++ [p].
Proof.
  revert a. induction c as [|b c IH]; intros a; [by exists [], a|].
  destruct (IH b) as (c' & p & E). exists (a :: c'), p. by rewrite E.
Qed.

(** Taking node [b] out: [b->next->prev = b->prev; b->prev->next = b->next]. *)
Lemma edges_unlink bc l1 b l2 p q :
  edges bc (HEAD :: (l1 ++ b :: l2) ++ [HEAD]) →
  NoDup (HEAD :: l1 ++ b :: l2) → (∀ i, i ∈ HEAD :: l1 ++ l2 → (i < length bc)%nat) →
  prv bc b = Some p → nxt bc b = Some q →
  edges (setn p q (setp q p bc)) (HEAD :: (l1 ++ l2) ++ [HEAD]).
Proof.
  intros He Hnd Hlt Hp Hq.
  destruct (snoc_cases l1 HEAD) as (c1 & p' & E1).
  assert (∃ q' c2, l2 ++ [HEAD] = q' :: c2) as (q' & c2 & E2)
    by (destruct l2; simpl; eauto).
  assert (edges bc (c1 ++ p' :: b :: q' :: c2)) as He'.
  { rewrite <- E2. change (p' :: b :: l2 ++ [HEAD]) with ([p'] ++ b :: l2 ++ [HEAD]).
    rewrite (app_assoc c1), <- E1. simpl. simpl in He.
    by rewrite <- app_assoc in He. }
  apply edges_app in He' as (Hc1 & Hpb & Hbp & Hc2). simplify_eq.
  apply (edges_app _ []) in Hc2 as (_ & Hbq & Hqb & Hc2). simplify_eq.
  assert (p ∈ HEAD :: l1) as Hpin by (rewrite E1; set_solver).
  assert (q ∈ l2 ++ [HEAD]) as Hqin by (rewrite E2; set_solver).
  assert (NoDup (c1 ++ [p])) as Hnd1
    by (rewrite <- E1; rewrite app_comm_cons in Hnd; by apply NoDup_app in Hnd as (?&_&_)).
  assert (NoDup (q :: c2)) as Hnd2.
  { rewrite <- E2. apply NoDup_cons in Hnd as [Hh Hnd].
    apply NoDup_app in Hnd as (_ & _ & Hnd). apply NoDup_cons in Hnd as [_ Hnd].
    apply NoDup_app. split; [done|]. split; [|apply NoDup_singleton]. set_solver. }
  replace (HEAD :: (l1 ++ l2) ++ [HEAD]) with (c1 ++ p :: q :: c2)
    by (rewrite <- E2, <- (app_assoc l1), (app_comm_cons l1), E1, <- app_assoc; done).
  apply edges_app. split; [|split; [|split]].
  - eapply edges_ext, Hc1.
    + intros i Hi. rewrite removelast_snoc in Hi. rewrite nxt_setn_ne, nxt_setp; [done|].
      intros ->. apply NoDup_app in Hnd1 as (_ & Hd & _). apply (Hd i Hi). set_solver.
    + intros i Hi. rewrite <- E1 in Hi. simpl in Hi.
      rewrite prv_setn, prv_setp_ne; [done|]. intros ->.
      apply NoDup_cons in Hnd as [Hh Hnd]. apply NoDup_app in Hnd as (_ & Hd & _).
      specialize (Hd i Hi). set_solver.
  - apply nxt_setn_eq. rewrite length_setp. apply Hlt. set_solver.
  - rewrite prv_setn. apply prv_setp_eq, Hlt. set_solver.
  - eapply edges_ext, Hc2.
    + intros i Hi. rewrite <- E2, removelast_snoc in Hi.
      rewrite nxt_setn_ne, nxt_setp; [done|]. intros ->.
      rewrite app_comm_cons in Hnd. apply NoDup_app in Hnd as (_ & Hd & _).
      specialize (Hd i Hpin). set_solver.
    + intros i Hi. simpl in Hi. rewrite prv_setn, prv_setp_ne; [done|]. intros ->.
      by apply NoDup_cons in Hnd2 as [? _].
Qed.

(** Putting node [b] at the front of the list. *)
Lemma edges_push bc b l q :
  edges bc (HEAD :: l ++ [HEAD]) → NoDup (HEAD :: b :: l) →
  (∀ i, i ∈ HEAD :: b :: l → (i < length bc)%nat) → nxt bc HEAD = Some q →
  edges (setn HEAD b (setp q b (setp b HEAD (setn b q bc)))) (HEAD :: (b :: l) ++ [HEAD]).
Proof.
  intros He Hnd Hlt Hq.
  assert (∃ c2, l ++ [HEAD] = q :: c2) as (c2 & E2).
  { destruct l; simpl in *; destruct He as [He _]; simplify_eq; eauto. }
  simpl. rewrite E2 in He. rewrite E2. destruct He as (_ & _ & He).
  assert (q ∈ l ++ [HEAD]) as Hqin by (rewrite E2; set_solver).
  assert (NoDup (q :: c2)) as Hnd2.
  { rewrite <- E2. apply NoDup_cons in Hnd as [Hh Hnd]. apply NoDup_cons in Hnd as [_ Hnd].
    apply NoDup_app. split; [done|]. split; [|apply NoDup_singleton]. set_solver. }
  assert (b ≠ HEAD ∧ (b ∉ l) ∧ (HEAD ∉ l)) as (Hb1 & Hb2 & Hb3).
  { apply NoDup_cons in Hnd as [Hh Hnd]. apply NoDup_cons in Hnd as [? _]. set_solver. }
  split; [|split; [|split; [|split]]].
  - apply nxt_setn_eq. rewrite !length_setp, length_setn. apply Hlt. set_solver.
  - rewrite prv_setn. destruct (decide (q = b)) as [->|]; [set_solver|].
    rewrite prv_setp_ne by done. apply prv_setp_eq. rewrite length_setn. apply Hlt. set_solver.
  - rewrite nxt_setn_ne by done. rewrite !nxt_setp. apply nxt_setn_eq, Hlt. set_solver.
  - rewrite prv_setn. apply prv_setp_eq. rewrite length_setp, length_setn.
    apply Hlt. set_solver.
  - eapply edges_ext, He.
    + intros i Hi. rewrite <- E2, removelast_snoc in Hi.
      rewrite nxt_setn_ne, !nxt_setp, nxt_setn_ne; [done|set_solver..].
    + intros i Hi. simpl in Hi. apply NoDup_cons in Hnd2 as [Hnq _].
      rewrite prv_setn, prv_setp_ne, prv_setp_ne, prv_setn; [done| |set_solver].
      intros ->. assert (i ∈ l ++ [HEAD]) by (rewrite E2; set_solver). set_solver.
Qed.
End Links.

(** ** What the scans find *)

Definition hit (bc : list buf) (dev blockno : Z) (i : nat) : bool :=
  match bc !! i with
  | Some b => (b_dev b =? dev) && (b_blockno b =? blockno)
  | None => false
  end.

Definition idle (bc : list buf) (i : nat) : bool :=
  match bc !! i with
  | Some b => (b_refcnt b =? 0) && (Z.land (b_flags b) B_DIRTY =? 0)
  | None => false
  end.

Section Scans.
Implicit Types (s : kernel) (c l : list nat).

Lemma lru_lt bc l i : lru bc l → i ∈ l → (i < NBUF)%nat.
Proof. intros [_ Hp _] Hi. rewrite Hp in Hi. apply elem_of_seq in Hi. lia. Qed.

Lemma lru_in bc l i : lru bc l → (i < NBUF)%nat → i ∈ l.
Proof. intros [_ Hp _] Hi. rewrite Hp. apply elem_of_seq. lia. Qed.

Lemma lru_nodup bc l : lru bc l → NoDup (HEAD :: l).
Proof.
  intros Hl. apply NoDup_cons. split.
  - intros Hi. apply (lru_lt _ _ _ Hl) in Hi. unfold HEAD in Hi. lia.
  - destruct Hl as [_ Hp _]. rewrite Hp. apply NoDup_seq.
Qed.

Lemma bget_find_scan n dev blockno c s :
  edges (k_bcache s) (c ++ [HEAD]) → (∀ i, i ∈ c → (i < NBUF)%nat) →
  length (k_bcache s) = S NBUF → (length c ≤ n)%nat →
  bget_find n dev blockno (hd HEAD c) s = Ok (List.find (hit (k_bcache s) dev blockno) c) s.
Proof.
  intros He Hlt Hlen. revert n.
  induction c as [|a c IH]; intros n Hn; [by destruct n|].
  destruct n as [|n]; [simpl in Hn; lia|]. simpl.
  assert (a < NBUF)%nat as Ha by (apply Hlt; set_solver).
  destruct (Nat.eqb_spec a HEAD) as [->|_]; [unfold HEAD in Ha; lia|].
  destruct (lookup_lt_is_Some_2 (k_bcache s) a ltac:(lia)) as [b Hb].
  unfold get_buf, gets, mbind, M_bind, hit. simpl. rewrite Hb. simpl.
  destruct ((b_dev b =? dev) && (b_blockno b =? blockno)); [done|].
  assert (b_next b = hd HEAD c) as ->.
  { simpl in He. destruct c as [|a' c]; simpl in *; destruct He as (He & _);
      unfold nxt in He; rewrite Hb in He; by simplify_eq/=. }
  apply IH; [|set_solver|simpl in Hn; lia].
  simpl in He. destruct c; simpl in *; tauto.
Qed.

Lemma bget_recycle_scan n c s :
  edges (k_bcache s) (HEAD :: c) → (∀ i, i ∈ c → (i < NBUF)%nat) →
  length (k_bcache s) = S NBUF → (length c ≤ n)%nat →
  bget_recycle n (List.last c HEAD) s = Ok (List.find (idle (k_bcache s)) (rev c)) s.
Proof.
  intros He Hlt Hlen. revert n.
  induction c as [|a c IH] using rev_ind; intros n Hn; [by destruct n|].
  destruct n as [|n]; [rewrite length_app in Hn; simpl in Hn; lia|].
  rewrite List.last_last. rewrite rev_unit. simpl.
  assert (a < NBUF)%nat as Ha by (apply Hlt; set_solver).
  destruct (Nat.eqb_spec a HEAD) as [->|_]; [unfold HEAD in Ha; lia|].
  destruct (lookup_lt_is_Some_2 (k_bcache s) a ltac:(lia)) as [b Hb].
  unfold get_buf, gets, mbind, M_bind, idle. simpl. rewrite Hb. simpl.
  destruct ((b_refcnt b =? 0) && (Z.land (b_flags b) B_DIRTY =? 0)); [done|].
  assert (b_prev b = List.last c HEAD ∧ edges (k_bcache s) (HEAD :: c)) as [-> He'].
  { destruct (snoc_cases c HEAD) as (c' & p & E).
    rewrite app_comm_cons, E in He. rewrite <- app_assoc in He. simpl in He.
    apply edges_app in He as (He & _ & Hp & _). rewrite <- E in He.
    unfold prv in Hp. rewrite Hb in Hp. simplify_eq/=. split; [|done].
    destruct c as [|x c]; [destruct c' as [|? []]; by simplify_eq/=|].
    change (List.last (x :: c) HEAD) with (List.last (HEAD :: x :: c) HEAD).
    by rewrite E, List.last_last. }
  apply IH; [done|set_solver|]. rewrite length_app in Hn. simpl in Hn. lia.
Qed.
End Scans.
#[global] Arguments bget_find : simpl never.
#[global] Arguments bget_recycle : simpl never.

(** ** Initialisation *)

(** A buffer without its links. *)
Definition core (b : buf) : buf := set_b_prev 0 (set_b_next 0 b).

Section Cores.
Implicit Types (bc : list buf).

Lemma core_alter (f : buf → buf) i bc :
  (∀ b, core (f b) = core b) → core <$> alter f i bc = core <$> bc.
Proof.
  intros Hf. apply list_eq. intros j. rewrite !list_lookup_fmap.
  destruct (decide (i = j)) as [->|];
    [rewrite list_lookup_alter_eq | by rewrite list_lookup_alter_ne].
  destruct (bc !! j); simpl; by rewrite ?Hf.
Qed.
Lemma core_setp i v bc : core <$> setp i v bc = core <$> bc.
Proof. by apply core_alter. Qed.
Lemma core_setn i v bc : core <$> setn i v bc = core <$> bc.
Proof. by apply core_alter. Qed.

Lemma core_fields b b' :
  core b = core b' →
  b_flags b = b_flags b' ∧ b_dev b = b_dev b' ∧ b_blockno b = b_blockno b' ∧
  b_lock b = b_lock b' ∧ b_refcnt b = b_refcnt b' ∧ b_data b = b_data b'.
Proof.
  intros E. repeat split;
    [apply (f_equal b_flags) in E | apply (f_equal b_dev) in E | apply (f_equal b_blockno) in E
    |apply (f_equal b_lock) in E | apply (f_equal b_refcnt) in E | apply (f_equal b_data) in E];
    exact E.
Qed.

Lemma cores_lookup bc bc' i b :
  core <$> bc' = core <$> bc → bc' !! i = Some b →
  ∃ b0, bc !! i = Some b0 ∧ core b0 = core b.
Proof.
  intros E Hb. assert ((core <$> bc') !! i = Some (core b)) as H.
  { by rewrite list_lookup_fmap, Hb. }
  rewrite E, list_lookup_fmap in H. apply fmap_Some in H as (b0 & H1 & H2). eauto.
Qed.

(** [initsleeplock] on a free lock. *)
Lemma core_unlock i bc :
  Forall (λ b, b_lock b = slk0) bc → core <$> alter (set_b_lock slk0) i bc = core <$> bc.
Proof.
  intros Hf. apply list_eq. intros j. rewrite !list_lookup_fmap.
  destruct (decide (i = j)) as [->|]; [|by rewrite list_lookup_alter_ne].
  rewrite list_lookup_alter_eq. destruct (bc !! j) as [b|] eqn:Hb; [|done]. simpl. f_equal.
  rewrite Forall_lookup in Hf. specialize (Hf j b Hb). destruct b; simpl in *; by subst.
Qed.

Lemma core_locks bc bc' :
  core <$> bc' = core <$> bc → Forall (λ b, b_lock b = slk0) bc →
  Forall (λ b, b_lock b = slk0) bc'.
Proof.
  rewrite !Forall_lookup. intros E Hf j b Hb.
  destruct (cores_lookup _ _ _ _ E Hb) as (b0 & H0 & E0%core_fields).
  specialize (Hf j b0 H0). intuition congruence.
Qed.
End Cores.

Section Init.
Implicit Types (s : kernel).

Lemma nxt_ext (f : buf → buf) i bc j :
  (∀ b, b_next (f b) = b_next b) → nxt (alter f i bc) j = nxt bc j.
Proof.
  intros Hf. unfold nxt. destruct (decide (i = j)) as [->|];
    [rewrite list_lookup_alter_eq | by rewrite list_lookup_alter_ne].
  destruct (bc !! j); simpl; by rewrite ?Hf.
Qed.
Lemma prv_ext (f : buf → buf) i bc j :
  (∀ b, b_prev (f b) = b_prev b) → prv (alter f i bc) j = prv bc j.
Proof.
  intros Hf. unfold prv. destruct (decide (i = j)) as [->|];
    [rewrite list_lookup_alter_eq | by rewrite list_lookup_alter_ne].
  destruct (bc !! j); simpl; by rewrite ?Hf.
Qed.

(** Changing anything but the links keeps the list. *)
Lemma lru_alter (f : buf → buf) i bc l :
  (∀ b, b_next (f b) = b_next b) → (∀ b, b_prev (f b) = b_prev b) →
  lru bc l → lru (alter f i bc) l.
Proof.
  intros Hn Hp [He Hl Hlen]. split; [|done|by rewrite length_alter].
  eapply edges_ext, He; intros; [by apply nxt_ext | by apply prv_ext].
Qed.

Lemma lru_insert b i bc l b0 :
  bc !! i = Some b0 → b_next b = b_next b0 → b_prev b = b_prev b0 →
  lru bc l → lru (<[i := b]> bc) l.
Proof.
  intros Hi Hn Hp [He Hl Hlen]. split; [|done|by rewrite length_insert].
  assert (i < length bc)%nat by (by eapply lookup_lt_Some).
  eapply edges_ext, He; intros j _; unfold nxt, prv;
    (destruct (decide (i = j)) as [->|];
      [rewrite list_lookup_insert_eq, Hi by done; simpl; congruence
      |by rewrite list_lookup_insert_ne]).
Qed.

Lemma wp_binit_body b q (Q : unit → kernel → Prop) s :
  nxt (k_bcache s) HEAD = Some q →
  Q tt (set_k_bcache (setn HEAD b (setp q b (alter (set_b_lock slk0) b
          (setp b HEAD (setn b q (k_bcache s)))))) s) →
  wp (binit_body b) Q s.
Proof.
  intros Hq HQ. unfold nxt in Hq. apply fmap_Some in Hq as (h & Hh & ->).
  unfold binit_body. apply wp_bind. eapply wp_get_buf; [done|].
  do 4 (apply wp_bind, wp_modify). apply wp_modify. by destruct s.
Qed.

Lemma binit_loop k bc s :
  (k ≤ NBUF)%nat → k_bcache s = bc → length bc = S NBUF →
  edges bc [HEAD; HEAD] → Forall (λ b, b_lock b = slk0) bc →
  wp (forM (seq 0 k) binit_body)
     (λ _ s', ∃ bc', s' = set_k_bcache bc' s ∧ length bc' = S NBUF ∧
        edges bc' (HEAD :: rev (seq 0 k) ++ [HEAD]) ∧ core <$> bc' = core <$> bc) s.
Proof.
  intros Hk Hbc Hlen He Hul. induction k as [|k IH].
  { simpl. apply wp_ret. exists bc. subst. split; [by destruct s|done]. }
  replace (S k) with (k + 1)%nat by lia. rewrite seq_app.
  apply wp_forM_app. eapply wp_mono; [apply IH; lia|].
  intros _ s1 (bc1 & -> & Hl1 & He1 & Hc1). simpl. apply wp_bind.
  assert (∃ q, nxt bc1 HEAD = Some q) as [q Hq].
  { destruct (rev (seq 0 k)); simpl in He1; destruct He1; eauto. }
  eapply wp_binit_body; [exact Hq|]. simpl. apply wp_ret.
  eexists. split; [by destruct s|].
  split; [unfold setn, setp; by rewrite !length_alter|].
  set (A := setp k HEAD (setn k q bc1)).
  assert (core <$> A = core <$> bc) as HcA by (unfold A; by rewrite core_setp, core_setn).
  split; [|rewrite core_setn, core_setp, core_unlock; [done|by eapply core_locks]].
  rewrite rev_app_distr. simpl rev.
  assert (edges (setn HEAD k (setp q k (setp k HEAD (setn k q bc1))))
    (HEAD :: (k :: rev (seq 0 k)) ++ [HEAD])) as Hp.
  { apply edges_push; [done| | |done].
    - apply NoDup_cons. split.
      + rewrite elem_of_cons, elem_of_reverse_seq. unfold HEAD. lia.
      + apply NoDup_cons. split; [rewrite elem_of_reverse_seq; lia|].
        rewrite <- (Permutation_rev (seq 0 k)). apply NoDup_seq.
    - intros i. rewrite !elem_of_cons, elem_of_reverse_seq. unfold HEAD. lia. }
  fold A in Hp. assert (length (alter (set_b_lock slk0) k A) = length A) by apply length_alter.
  refine (edges_ext _ _ _ _ _ Hp); intros j _.
  - destruct (decide (HEAD = j)) as [<-|].
    + rewrite !nxt_setn_eq; [done|subst A; rewrite ?length_setp, ?length_setn, ?length_alter;
        rewrite ?length_setp, ?length_setn; unfold HEAD; lia..].
    + rewrite !nxt_setn_ne, !nxt_setp by done. by apply nxt_ext.
  - rewrite !prv_setn. destruct (decide (q = j)) as [<-|].
    + destruct (decide (q < length A)%nat).
      * rewrite !prv_setp_eq by lia. done.
      * unfold prv, setp. rewrite !lookup_ge_None_2 by (rewrite !length_alter; lia). done.
    + rewrite !prv_setp_ne by done. by apply prv_ext.
Qed.

Lemma wp_binit (Q : unit → kernel → Prop) s :
  length (k_bcache s) = S NBUF → Forall (λ b, b_lock b = slk0) (k_bcache s) →
  (∀ bc', lru bc' (rev (seq 0 NBUF)) → core <$> bc' = core <$> k_bcache s →
     Q tt (set_k_bcache bc' s)) →
  wp binit Q s.
Proof.
  intros Hlen Hul HQ. unfold binit. apply wp_bind, wp_modify. apply wp_bind, wp_modify.
  set (bc1 := setn HEAD HEAD (setp HEAD HEAD (k_bcache s))).
  assert (core <$> bc1 = core <$> k_bcache s) as Hc1 by (unfold bc1; by rewrite core_setn, core_setp).
  eapply wp_mono.
  { apply (binit_loop NBUF bc1); [done|by destruct s| | |by eapply core_locks].
    - unfold bc1. by rewrite length_setn, length_setp.
    - unfold bc1. simpl. rewrite nxt_setn_eq, prv_setn, prv_setp_eq
        by (rewrite ?length_setp; unfold HEAD; lia). done. }
  intros [] s' (bc' & -> & Hl & He & Hc). rewrite Hc1 in Hc.
  assert (lru bc' (rev (seq 0 NBUF))) as Hlru.
  { split; [done|by rewrite <- Permutation_rev|done]. }
  specialize (HQ bc' Hlru Hc). destruct s; exact HQ.
Qed.
End Init.

(** ** Cache coherence

    Device 1 is the only disk.  A buffer nobody references is unlocked and, if
    valid and clean, holds what the disk holds; no two buffers cache the same
    block. *)

Definition flags_ok (f : Z) : Prop := f = 0 ∨ f = B_VALID ∨ f = Z.lor B_VALID B_DIRTY.

Record buf_ok (s : kernel) (b : buf) : Prop := {
  bo_flags : flags_ok (b_flags b);
  bo_ref : 0 ≤ b_refcnt b;
  bo_len : length (b_data b) = Z.to_nat BSIZE;
  bo_dev : b_dev b = 1 → 0 ≤ b_blockno b < k_disksize s;
  bo_free : b_refcnt b = 0 → sl_locked (b_lock b) = false;
  bo_zero : b_dev b ≠ 1 → b_flags b = 0;
  bo_clean : b_refcnt b = 0 → b_flags b = B_VALID →
             k_disk s !! b_blockno b = Some (b_data b) }.

Definition same_block (b b' : buf) : Prop :=
  b_dev b = 1 ∧ b_dev b' = 1 ∧ b_blockno b = b_blockno b'.

Record bio_ok (s : kernel) : Prop := {
  bk_lru : ∃ l, lru (k_bcache s) l;
  bk_buf : ∀ i b, (i < NBUF)%nat → k_bcache s !! i = Some b → buf_ok s b;
  bk_uniq : ∀ i j b b', (i < NBUF)%nat → (j < NBUF)%nat →
            k_bcache s !! i = Some b → k_bcache s !! j = Some b' →
            same_block b b' → i = j;
  bk_disk : ∀ n, 0 ≤ n < k_disksize s →
            ∃ d, k_disk s !! n = Some d ∧ length d = Z.to_nat BSIZE }.

(** The logical content of a block: the cached copy if there is a valid one. *)
Definition caches (n : Z) (b : buf) : bool :=
  (b_dev b =? 1) && (b_blockno b =? n) && negb (b_flags b =? 0).

Definition lblk (s : kernel) (n : Z) : list Z :=
  match List.find (caches n) (take NBUF (k_bcache s)) with
  | Some b => b_data b
  | None => default [] (k_disk s !! n)
  end.

Section Coherence.
Implicit Types (s : kernel) (b : buf).

Lemma caches_true n b : caches n b = true ↔ b_dev b = 1 ∧ b_blockno b = n ∧ b_flags b ≠ 0.
Proof.
  unfold caches. rewrite !andb_true_iff, !Z.eqb_eq, negb_true_iff, Z.eqb_neq. tauto.
Qed.

Lemma lblk_cached s n i b :
  bio_ok s → (i < NBUF)%nat → k_bcache s !! i = Some b → caches n b = true →
  lblk s n = b_data b.
Proof.
  intros Hok Hi Hb Hc. unfold lblk.
  destruct (List.find (caches n) (take NBUF (k_bcache s))) as [b'|] eqn:E.
  - apply find_some in E as [Hin Hc']. apply list_elem_of_In, list_elem_of_lookup in Hin as [j Hj].
    apply lookup_take_Some in Hj as [Hj Hlt].
    apply caches_true in Hc as (?&?&?). apply caches_true in Hc' as (?&?&?).
    assert (i = j) by (eapply bk_uniq; eauto; split; [done|split; congruence]). congruence.
  - eapply find_none in E; [rewrite Hc in E; done|].
    apply list_elem_of_In, list_elem_of_lookup. exists i. apply lookup_take_Some. done.
Qed.

Lemma lblk_uncached s n :
  (∀ i b, (i < NBUF)%nat → k_bcache s !! i = Some b → caches n b = false) →
  lblk s n = default [] (k_disk s !! n).
Proof.
  intros H. unfold lblk.
  destruct (List.find _ _) as [b|] eqn:E; [|done]. exfalso.
  apply find_some in E as [Hin Hc]. apply list_elem_of_In, list_elem_of_lookup in Hin as [j Hj].
  apply lookup_take_Some in Hj as [Hj Hlt]. rewrite (H j b) in Hc; done.
Qed.

(** Replacing buffer [i] changes the logical content of the blocks the old
    and the new buffer cache, and of no other. *)
Lemma lblk_insert_other s i b b' n :
  (i < NBUF)%nat → k_bcache s !! i = Some b → caches n b = false → caches n b' = false →
  lblk (set_k_bcache (<[i := b']> (k_bcache s)) s) n = lblk s n.
Proof.
  intros Hi Hb Hc Hc'. unfold lblk. simpl. rewrite take_insert_lt by done.
  assert (∀ l j, l !! j = Some b →
    List.find (caches n) (<[j := b']> l) = List.find (caches n) l) as Hf.
  { induction l as [|x l IH]; intros [|j]; simpl; intros Hl; simplify_eq; [by rewrite Hc, Hc'|].
    by rewrite IH. }
  rewrite Hf; [done|]. by apply lookup_take_Some.
Qed.

Lemma lblk_same_fields s s' n :
  k_bcache s' = k_bcache s → k_disk s' = k_disk s → lblk s' n = lblk s n.
Proof. unfold lblk. by intros -> ->. Qed.

Lemma hit_spec s dev n i b :
  k_bcache s !! i = Some b →
  hit (k_bcache s) dev n i = true ↔ b_dev b = dev ∧ b_blockno b = n.
Proof. intros Hb. unfold hit. rewrite Hb, andb_true_iff, !Z.eqb_eq. done. Qed.
End Coherence.

Definition put_buf (i : nat) (b : buf) (s : kernel) : kernel :=
  set_k_bcache (<[i := b]> (k_bcache s)) s.

(** [bread 1 n] neither sleeps nor panics: the block is cached and unlocked, or
    it is not cached and some buffer is idle. *)
Definition avail (s : kernel) (n : Z) : Prop :=
  (∃ i b, (i < NBUF)%nat ∧ k_bcache s !! i = Some b ∧ b_dev b = 1 ∧ b_blockno b = n ∧
          sl_locked (b_lock b) = false ∧ b_refcnt b + 1 < 2 ^ 32) ∨
  ((∀ i b, (i < NBUF)%nat → k_bcache s !! i = Some b → ¬ (b_dev b = 1 ∧ b_blockno b = n)) ∧
   ∃ i, (i < NBUF)%nat ∧ idle (k_bcache s) i = true).

(** [loaded s pid n bi b b']: [bread] turned buffer [bi] from [b] into [b'],
    locked by [pid] and holding block [n]. *)
Record loaded (s : kernel) (pid n : Z) (bi : nat) (b b' : buf) : Prop := {
  ld_lt : (bi < NBUF)%nat;
  ld_old : k_bcache s !! bi = Some b;
  ld_dev : b_dev b' = 1;
  ld_blk : b_blockno b' = n;
  ld_next : b_next b' = b_next b;
  ld_prev : b_prev b' = b_prev b;
  ld_lock : b_lock b' = mkSleeplock true pid;
  ld_data : b_data b' = lblk s n;
  ld_case :
    (b_dev b = 1 ∧ b_blockno b = n ∧ sl_locked (b_lock b) = false ∧
     b_refcnt b' = b_refcnt b + 1 ∧
     b_flags b' = if b_flags b =? 0 then B_VALID else b_flags b) ∨
    ((∀ i b, (i < NBUF)%nat → k_bcache s !! i = Some b → ¬ (b_dev b = 1 ∧ b_blockno b = n)) ∧
     b_refcnt b = 0 ∧ b_flags b ≠ Z.lor B_VALID B_DIRTY ∧
     b_refcnt b' = 1 ∧ b_flags b' = B_VALID) }.

Section PutBuf.
Implicit Types (s : kernel) (b : buf).

Lemma put_buf_lookup_eq i b s b0 :
  k_bcache s !! i = Some b0 → k_bcache (put_buf i b s) !! i = Some b.
Proof. intros H. simpl. apply list_lookup_insert_eq. by eapply lookup_lt_Some. Qed.
Lemma put_buf_lookup_ne i j b s :
  i ≠ j → k_bcache (put_buf i b s) !! j = k_bcache s !! j.
Proof. intros. simpl. by apply list_lookup_insert_ne. Qed.
Lemma put_put_buf i b b' s : put_buf i b' (put_buf i b s) = put_buf i b' s.
Proof. unfold put_buf. simpl. by rewrite list_insert_insert_eq. Qed.

Lemma upd_buf_put i (f : buf → buf) b s :
  k_bcache s !! i = Some b → upd_buf i f s = Ok tt (put_buf i (f b) s).
Proof. intros H. unfold upd_buf, modify, put_buf. by rewrite (list_alter_insert _ _ _ b). Qed.

Lemma wp_upd_buf i (f : buf → buf) b (Q : unit → kernel → Prop) s :
  k_bcache s !! i = Some b → Q tt (put_buf i (f b) s) → wp (upd_buf i f) Q s.
Proof. intros H HQ. unfold wp. by rewrite (upd_buf_put _ _ b). Qed.

Lemma put_slk_buf i v b s :
  k_bcache s !! i = Some b → put_slk (SBuf i) v s = put_buf i (set_b_lock v b) s.
Proof. intros H. unfold put_slk, put_buf. by rewrite (list_alter_insert _ _ _ b). Qed.

Lemma bio_ok_put i b b' s :
  bio_ok s → (i < NBUF)%nat → k_bcache s !! i = Some b →
  b_next b' = b_next b → b_prev b' = b_prev b → buf_ok s b' →
  (∀ j c, j ≠ i → (j < NBUF)%nat → k_bcache s !! j = Some c → ¬ same_block b' c) →
  bio_ok (put_buf i b' s).
Proof.
  intros Hok Hi Hb Hn Hp Hb' Hu. destruct Hok as [[l Hl] Hbufs Huniq Hdisk]. split.
  - exists l. by eapply lru_insert.
  - intros j c Hj Hc. destruct (decide (i = j)) as [<-|].
    + rewrite (put_buf_lookup_eq _ _ _ b) in Hc by done. simplify_eq.
      destruct Hb'. by split.
    + rewrite put_buf_lookup_ne in Hc by done. destruct (Hbufs j c Hj Hc). by split.
  - intros j k c c' Hj Hk Hc Hc' Hs.
    destruct (decide (i = j)) as [<-|], (decide (i = k)) as [<-|]; [done|..].
    + rewrite (put_buf_lookup_eq _ _ _ b) in Hc by done.
      rewrite put_buf_lookup_ne in Hc' by done. simplify_eq. by destruct (Hu k c').
    + rewrite (put_buf_lookup_eq _ _ _ b) in Hc' by done.
      rewrite put_buf_lookup_ne in Hc by done. simplify_eq.
      destruct (Hu j c); [done..|]. destruct Hs as (?&?&?). by split.
    + rewrite put_buf_lookup_ne in Hc by done. rewrite put_buf_lookup_ne in Hc' by done. eauto.
  - done.
Qed.
End PutBuf.

Section BreadSpec.
Context `{WaitBound}.
Implicit Types (s : kernel) (b : buf).

(** Locking a buffer nobody holds. *)
Lemma wp_lock_buf bi b i p (Q : unit → kernel → Prop) s :
  running s i p → k_held s = [] → k_bcache s !! bi = Some b →
  sl_locked (b_lock b) = false →
  Q tt (put_buf bi (set_b_lock (mkSleeplock true (p_pid p)) b) s) →
  wp (acquiresleep (SBuf bi)) Q s.
Proof.
  intros Hr Hh Hb Hl HQ. eapply (wp_acquiresleep _ i p (b_lock b)); [done| | |done|].
  - rewrite Hh. apply not_elem_of_nil.
  - simpl. by rewrite Hb.
  - by rewrite (put_slk_buf _ _ b).
Qed.

Lemma wp_holding_buf bi b i p (Q : bool → kernel → Prop) s :
  running s i p → k_held s = [] → k_bcache s !! bi = Some b →
  b_lock b = mkSleeplock true (p_pid p) → Q true s →
  wp (holdingsleep (SBuf bi)) Q s.
Proof.
  intros Hr Hh Hb Hl HQ. eapply (wp_holdingsleep _ i p (b_lock b)); [done| | |].
  - rewrite Hh. apply not_elem_of_nil.
  - simpl. by rewrite Hb.
  - rewrite Hl. simpl. by rewrite Z.eqb_refl.
Qed.

(** iderw on an invalid buffer reads the disk. *)
Lemma wp_iderw_read bi b d i p (Q : unit → kernel → Prop) s :
  running s i p → k_held s = [] → k_bcache s !! bi = Some b →
  b_lock b = mkSleeplock true (p_pid p) → b_flags b = 0 → b_dev b = 1 →
  b_blockno b < k_disksize s → k_disk s !! b_blockno b = Some d →
  Q tt (put_buf bi (set_b_flags B_VALID (set_b_data d b)) s) →
  wp (iderw bi) Q s.
Proof.
  intros Hr Hh Hb Hl Hf Hd Hn Hdisk HQ. unfold iderw.
  apply wp_bind. eapply wp_holding_buf; [done..|]. simpl.
  apply wp_bind. eapply wp_get_buf; [done|]. rewrite Hf, Hd. simpl.
  apply wp_bind, wp_gets. rewrite (proj2 (Z.leb_gt _ _)) by lia.
  apply wp_bind, wp_bind, wp_gets. apply wp_bind. eapply wp_deref; [done|].
  eapply wp_upd_buf; [done|].
  eapply wp_upd_buf; [by eapply put_buf_lookup_eq|]. rewrite put_put_buf. simpl.
  rewrite Hf. exact HQ.
Qed.

(** iderw on a dirty buffer writes the disk. *)
Lemma wp_iderw_write bi b i p (Q : unit → kernel → Prop) s :
  running s i p → k_held s = [] → k_bcache s !! bi = Some b →
  b_lock b = mkSleeplock true (p_pid p) → b_flags b = Z.lor B_VALID B_DIRTY → b_dev b = 1 →
  b_blockno b < k_disksize s →
  Q tt (put_buf bi (set_b_flags B_VALID b)
         (set_k_disk (<[b_blockno b := b_data b]> (k_disk s))
           (set_k_wtrace ((b_blockno b, b_data b) :: k_wtrace s) s))) →
  wp (iderw bi) Q s.
Proof.
  intros Hr Hh Hb Hl Hf Hd Hn HQ. unfold iderw.
  apply wp_bind. eapply wp_holding_buf; [done..|]. simpl.
  apply wp_bind. eapply wp_get_buf; [done|]. rewrite Hf, Hd. simpl.
  apply wp_bind, wp_gets. rewrite (proj2 (Z.leb_gt _ _)) by lia.
  apply wp_bind, wp_bind. eapply wp_upd_buf; [done|].
  apply wp_modify.
  eapply (wp_upd_buf _ _ (set_b_flags B_VALID b)).
  - simpl. rewrite Hf. apply list_lookup_insert_eq. by eapply lookup_lt_Some.
  - unfold put_buf in *. simpl in *. rewrite list_insert_insert_eq. destruct s; exact HQ.
Qed.

Lemma find_hit s n i b :
  bio_ok s → (i < NBUF)%nat → k_bcache s !! i = Some b → b_dev b = 1 → b_blockno b = n →
  ∀ l, i ∈ l → (∀ j, j ∈ l → (j < NBUF)%nat) →
  List.find (hit (k_bcache s) 1 n) l = Some i.
Proof.
  intros Hok Hi Hb Hd Hn l. induction l as [|j l IH]; [set_solver|]. intros Hin Hlt.
  simpl. destruct (hit (k_bcache s) 1 n j) eqn:E.
  - assert (j < NBUF)%nat as Hj by (apply Hlt; set_solver).
    destruct (k_bcache s !! j) as [c|] eqn:Ec; [|unfold hit in E; by rewrite Ec in E].
    apply (hit_spec s 1 n j c Ec) in E as [??].
    f_equal. eapply (bk_uniq s Hok j i); eauto. split; [done|]. split; congruence.
  - apply IH; [|set_solver]. apply elem_of_cons in Hin as [->|]; [|done].
    by rewrite (proj2 (hit_spec s 1 n j b Hb)) in E.
Qed.

Lemma find_idle bc l i :
  i ∈ l → idle bc i = true → ∃ j, List.find (idle bc) l = Some j ∧ j ∈ l ∧ idle bc j = true.
Proof.
  intros Hi Hid. destruct (List.find (idle bc) l) as [j|] eqn:E.
  - apply find_some in E as [? ?]. exists j. by rewrite list_elem_of_In.
  - eapply find_none in E; [|by apply list_elem_of_In]. congruence.
Qed.
End BreadSpec.

Section Bget.
Context `{WaitBound}.
Implicit Types (s : kernel) (b : buf).

(** Both scans of [bget], and what it does with the buffer it picks. *)
(** The ends of the list, as [bget] starts from them. *)
Lemma lru_ends bc l :
  lru bc l → ∃ h, bc !! HEAD = Some h ∧ b_next h = hd HEAD l ∧ b_prev h = List.last l HEAD.
Proof.
  intros [He _ Hlen]. destruct (lookup_lt_is_Some_2 bc HEAD) as [h Hhd]; [unfold HEAD; lia|].
  exists h. split; [done|]. split.
  - destruct l; simpl in He; destruct He as (He & _); unfold nxt in He;
      rewrite Hhd in He; by simplify_eq/=.
  - destruct (snoc_cases l HEAD) as (c & q & E).
    rewrite app_comm_cons, E in He. rewrite <- app_assoc in He. simpl in He.
    apply edges_app in He as (_ & _ & He & _). unfold prv in He. rewrite Hhd in He.
    simplify_eq/=. destruct l as [|x l]; [destruct c as [|? []]; by simplify_eq/=|].
    change (List.last (x :: l) HEAD) with (List.last (HEAD :: x :: l) HEAD).
    by rewrite E, List.last_last.
Qed.

(** What [bget] does once its two scans have found their buffers. *)
Definition bget_act (dev n : Z) (h fr : option nat) : K nat :=
  match h, fr with
  | Some bi, _ =>
      upd_buf bi (λ b, set_b_refcnt (u32 (b_refcnt b + 1)) b) ;;
      release Lbcache ;; acquiresleep (SBuf bi) ;; mret bi
  | None, Some bi =>
      upd_buf bi (λ b, set_b_refcnt 1 (set_b_flags 0 (set_b_blockno n (set_b_dev dev b)))) ;;
      release Lbcache ;; acquiresleep (SBuf bi) ;; mret bi
  | None, None => panic "bget: no buffers"
  end.

(** The scans find the first hit from the recently used end, and the first idle
    buffer from the other. *)
Lemma bget_scan s l dev n :
  lru (k_bcache s) l → k_held s = [] →
  bget dev n s = bget_act dev n (List.find (hit (k_bcache s) dev n) l)
                   (List.find (idle (k_bcache s)) (rev l)) (set_k_held [Lbcache] s).
Proof.
  intros Hl Hh. pose proof (λ i, lru_lt _ _ i Hl) as Hlt.
  assert (length l = NBUF) as Hll by (destruct Hl as [_ Hp _]; by rewrite Hp, length_seq).
  destruct (lru_ends _ _ Hl) as (h & Hhd & Hnx & Hpv). set (s1 := set_k_held [Lbcache] s).
  assert (acquire Lbcache s = Ok tt s1) as Ha
    by (unfold acquire, gets, mbind, M_bind; simpl; by rewrite Hh).
  assert (get_buf HEAD s1 = Ok h s1) as Hg
    by (unfold get_buf, gets, deref, mbind, M_bind; simpl; by rewrite Hhd).
  unfold bget. erewrite bind_ok by exact Ha. erewrite bind_ok by exact Hg. rewrite Hnx.
  erewrite bind_ok.
  2:{ apply (bget_find_scan NBUF dev n l s1); [|done|apply Hl|lia].
      destruct Hl as [He _ _]. simpl in He. destruct l; simpl in *; tauto. }
  change (k_bcache s1) with (k_bcache s). destruct (List.find (hit _ dev n) l); [done|].
  erewrite bind_ok by exact Hg. rewrite Hpv. erewrite bind_ok.
  2:{ apply (bget_recycle_scan NBUF l s1); [|done|apply Hl|lia].
      destruct Hl as [He _ _]. destruct (snoc_cases l HEAD) as (c & q & E).
      rewrite app_comm_cons, E, <- app_assoc in He. simpl in He.
      apply edges_app in He as (He & _). by rewrite E. }
  change (k_bcache s1) with (k_bcache s). by destruct (List.find (idle _) (rev l)).
Qed.

Lemma wp_bget_pick s l dev n i p bi b (f : buf → buf) (Q : nat → kernel → Prop) :
  lru (k_bcache s) l → running s i p → k_held s = [] →
  (List.find (hit (k_bcache s) dev n) l = Some bi ∧
   f = (λ b, set_b_refcnt (u32 (b_refcnt b + 1)) b) ∨
   List.find (hit (k_bcache s) dev n) l = None ∧
   List.find (idle (k_bcache s)) (rev l) = Some bi ∧
   f = (λ b, set_b_refcnt 1 (set_b_flags 0 (set_b_blockno n (set_b_dev dev b))))) →
  k_bcache s !! bi = Some b → sl_locked (b_lock b) = false →
  b_lock (f b) = b_lock b →
  Q bi (put_buf bi (set_b_lock (mkSleeplock true (p_pid p)) (f b)) s) →
  wp (bget dev n) Q s.
Proof.
  intros Hl Hr Hh Hf Hb Hlk Hfl HQ. unfold wp. rewrite (bget_scan s l) by done.
  set (s1 := set_k_held [Lbcache] s).
  assert (wp (upd_buf bi f ;; release Lbcache ;; acquiresleep (SBuf bi) ;; mret bi) Q s1) as Htail.
  { apply wp_bind. eapply wp_upd_buf; [exact Hb|].
    apply wp_bind. eapply wp_release; [reflexivity|apply not_elem_of_nil|].
    apply wp_bind. eapply (wp_lock_buf _ (f b) i p).
    - exact Hr.
    - done.
    - simpl. apply list_lookup_insert_eq. by eapply lookup_lt_Some.
    - by rewrite Hfl.
    - apply wp_ret. unfold put_buf in *. simpl. rewrite list_insert_insert_eq.
      destruct s; simpl in *; subst. exact HQ. }
  destruct Hf as [[-> Ef]|(-> & -> & Ef)]; simpl; rewrite <- Ef; exact Htail.
Qed.

Lemma flags_valid0 f : flags_ok f → (Z.land f B_VALID =? 0) = (f =? 0).
Proof. by intros [-> | [-> | ->]]. Qed.
Lemma flags_dirty0 f : flags_ok f → (Z.land f B_DIRTY =? 0) = negb (f =? Z.lor B_VALID B_DIRTY).
Proof. by intros [-> | [-> | ->]]. Qed.

Lemma buf_ok_same s s' b :
  k_disksize s' = k_disksize s → k_disk s' = k_disk s → buf_ok s b → buf_ok s' b.
Proof. intros E1 E2 []. split; rewrite ?E1, ?E2; auto. Qed.
End Bget.

Section Bread.
Context `{WaitBound}.
Implicit Types (s : kernel) (b : buf).

(** The cases of [bget]'s choice, from the availability of the block. *)
Lemma avail_pick s n l :
  bio_ok s → lru (k_bcache s) l → avail s n →
  ∃ bi b, (bi < NBUF)%nat ∧ k_bcache s !! bi = Some b ∧ sl_locked (b_lock b) = false ∧
   ((List.find (hit (k_bcache s) 1 n) l = Some bi ∧ b_dev b = 1 ∧ b_blockno b = n ∧
     b_refcnt b + 1 < 2 ^ 32) ∨
    (List.find (hit (k_bcache s) 1 n) l = None ∧
     List.find (idle (k_bcache s)) (rev l) = Some bi ∧
     (∀ i b, (i < NBUF)%nat → k_bcache s !! i = Some b → ¬ (b_dev b = 1 ∧ b_blockno b = n)) ∧
     b_refcnt b = 0 ∧ b_flags b ≠ Z.lor B_VALID B_DIRTY)).
Proof.
  intros Hok Hl [(i & b & Hi & Hb & Hd & Hn & Hlk & Href)|[Hno (i & Hi & Hid)]].
  - exists i, b. do 3 (split; [done|]). left. split; [|done].
    eapply (find_hit s n i b); [done..|by eapply lru_in|]. intros j Hj. by eapply lru_lt.
  - destruct (find_idle (k_bcache s) (rev l) i) as (j & Hj & Hjl & Hjd); [|done|].
    { rewrite <- Permutation_rev. by eapply lru_in. }
    rewrite <- Permutation_rev in Hjl. pose proof (lru_lt _ _ _ Hl Hjl) as Hlt.
    destruct (k_bcache s !! j) as [b|] eqn:Hb; [|unfold idle in Hjd; by rewrite Hb in Hjd].
    pose proof (bk_buf s Hok j b Hlt Hb) as Hbo.
    unfold idle in Hjd. rewrite Hb, andb_true_iff, Z.eqb_eq in Hjd. destruct Hjd as [Hr Hf].
    rewrite flags_dirty0, negb_true_iff, Z.eqb_neq in Hf by apply Hbo.
    exists j, b. split; [done|]. split; [done|]. split; [by apply Hbo|]. right.
    split; [|done]. destruct (List.find _ l) as [k|] eqn:E; [|done]. exfalso.
    apply find_some in E as [Hk Hh]. apply list_elem_of_In in Hk.
    destruct (k_bcache s !! k) as [c|] eqn:Hc; [|unfold hit in Hh; by rewrite Hc in Hh].
    apply (hit_spec s 1 n k c Hc) in Hh. by eapply (Hno k c); [eapply lru_lt|..].
Qed.

(** What [bread] leaves: buffer [b'] in slot [bi]. *)
Lemma loaded_ok s pid n bi b b' :
  bio_ok s → 0 ≤ n < k_disksize s → loaded s pid n bi b b' →
  bio_ok (put_buf bi b' s) ∧ ∀ m, lblk (put_buf bi b' s) m = lblk s m.
Proof.
  intros Hok Hn [Hlt Hb Hd Hbn Hnx Hpv Hlk Hdat Hcase].
  pose proof (bk_buf s Hok bi b Hlt Hb) as Hbo. pose proof (bo_ref _ _ Hbo) as Href.
  destruct (bk_disk s Hok n Hn) as (d & Hdisk & Hdl).
  assert (b_flags b' ≠ 0) as Hv'.
  { destruct Hcase as [(_&_&_&_&->)|(_&_&_&_&->)]; [|done].
    destruct (Z.eqb_spec (b_flags b) 0); done. }
  assert (∀ j c, j ≠ bi → (j < NBUF)%nat → k_bcache s !! j = Some c → ¬ same_block b' c) as Hu.
  { intros j c Hj Hjl Hc (H1 & H2 & H3). destruct Hcase as [(E1&E2&_)|(Hno&_)].
    - apply Hj. eapply (bk_uniq s Hok j bi); eauto. split; [done|]. split; [done|]. congruence.
    - eapply (Hno j c); [done|done|]. split; [done|]. congruence. }
  assert (bio_ok (put_buf bi b' s)) as Hok'.
  { eapply bio_ok_put; [done|done|done|done|done| |done]. split.
    - destruct Hcase as [(_&_&_&_&->)|(_&_&_&_&->)]; [|unfold flags_ok; tauto].
      destruct (Z.eqb_spec (b_flags b) 0); [unfold flags_ok; tauto|apply Hbo].
    - destruct Hcase as [(_&_&_&->&_)|(_&_&_&->&_)]; lia.
    - rewrite Hdat. unfold lblk. destruct (List.find _ _) as [c|] eqn:E.
      + apply find_some in E as [Hin _]. apply list_elem_of_In, list_elem_of_lookup in Hin as [j Hj].
        apply lookup_take_Some in Hj as [Hj Hjl]. by eapply (bk_buf s Hok).
      + by rewrite Hdisk.
    - by rewrite Hbn.
    - destruct Hcase as [(_&_&_&->&_)|(_&_&_&->&_)]; lia.
    - by rewrite Hd.
    - destruct Hcase as [(_&_&_&->&_)|(_&_&_&->&_)]; lia. }
  split; [done|]. intros m. destruct (decide (m = n)) as [->|Hm].
  - rewrite <- Hdat. eapply lblk_cached; [done|done|by eapply put_buf_lookup_eq|].
    by apply caches_true.
  - assert (caches m b' = false) as Hc'.
    { apply not_true_iff_false. rewrite caches_true. naive_solver. }
    destruct (caches m b) eqn:Hc.
    + (* the evicted buffer was clean *)
      apply caches_true in Hc as (Hbd & Hbb & Hbf).
      destruct Hcase as [(_&E2&_)|(_&Hr0&Hf0&_)]; [congruence|].
      assert (b_flags b = B_VALID) as Hfl
        by (destruct (bo_flags _ _ Hbo) as [?|[?|?]]; done).
      rewrite (lblk_cached s m bi b); [|done|done|done|by apply caches_true].
      rewrite lblk_uncached.
      * simpl. rewrite <- Hbb, (bo_clean _ _ Hbo) by done. done.
      * intros j c Hj Hcj. destruct (decide (bi = j)) as [<-|Hne].
        { rewrite (put_buf_lookup_eq _ _ _ b) in Hcj by done. by simplify_eq. }
        rewrite put_buf_lookup_ne in Hcj by done. apply not_true_iff_false.
        rewrite caches_true. intros (?&?&?). apply Hne.
        eapply (bk_uniq s Hok bi j); eauto. split; [done|]. split; congruence.
    + eapply lblk_insert_other; eauto.
Qed.

Lemma wp_bread n i p (Q : nat → kernel → Prop) s :
  bio_ok s → running s i p → k_held s = [] → 0 ≤ n < k_disksize s → avail s n →
  (∀ bi b b', loaded s (p_pid p) n bi b b' → Q bi (put_buf bi b' s)) →
  wp (bread 1 n) Q s.
Proof.
  intros Hok Hr Hh Hn Hav HQ. destruct (bk_lru s Hok) as [l Hl].
  destruct (bk_disk s Hok n Hn) as (d & Hdisk & Hdl).
  destruct (avail_pick s n l Hok Hl Hav) as (bi & b & Hlt & Hb & Hlk & Hc).
  pose proof (bk_buf s Hok bi b Hlt Hb) as Hbo. pose proof (bo_ref _ _ Hbo) as Href.
  assert (∀ c, b_flags b = 0 ∨ b_dev b ≠ 1 ∨ b_blockno b ≠ n →
    (∀ j e, j ≠ bi → (j < NBUF)%nat → k_bcache s !! j = Some e →
      ¬ (b_dev e = 1 ∧ b_blockno e = n)) →
    c = d → c = lblk s n) as Hdat.
  { intros c Hb0 Hothers ->. rewrite lblk_uncached; [by rewrite Hdisk|].
    intros j e Hj He. apply not_true_iff_false. rewrite caches_true. intros (?&?&?).
    destruct (decide (j = bi)) as [->|]; [naive_solver|]. by eapply Hothers. }
  unfold bread. apply wp_bind. destruct Hc as [(Hf & Hd & Hbn & Hrl)|(Hf & Hid & Hno & Hr0 & Hfl)].
  - eapply (wp_bget_pick s l 1 n i p bi b); [done..|by left|done|done|done|].
    cbv beta. rewrite u32_small by lia. apply wp_bind.
    eapply wp_get_buf; [by eapply put_buf_lookup_eq|].
    simpl. rewrite flags_valid0 by apply Hbo. apply wp_bind.
    destruct (Z.eqb_spec (b_flags b) 0) as [E0|E0]; simpl.
    + eapply (wp_iderw_read _ _ d i p); [exact Hr|done|by eapply put_buf_lookup_eq|done..| | |].
      * simpl. lia.
      * simpl. by rewrite Hbn.
      * rewrite put_put_buf. apply wp_ret. eapply (HQ bi b). split; try done.
        -- simpl. apply (Hdat d); [by left| |done]. intros j e Hj Hjl He [??].
           apply Hj. eapply (bk_uniq s Hok j bi); eauto. split; [done|]. split; congruence.
        -- left. simpl. rewrite E0. done.
    + apply wp_ret, wp_ret. eapply (HQ bi b). split; try done.
      * simpl. symmetry. eapply lblk_cached; eauto. by apply caches_true.
      * left. simpl. destruct (Z.eqb_spec (b_flags b) 0); [done|]. done.
  - eapply (wp_bget_pick s l 1 n i p bi b); [done..|by right|done|done|done|].
    apply wp_bind. eapply wp_get_buf; [by eapply put_buf_lookup_eq|]. simpl.
    apply wp_bind.
    eapply (wp_iderw_read _ _ d i p); [exact Hr|done|by eapply put_buf_lookup_eq|done..| | |].
    + simpl. lia.
    + done.
    + rewrite put_put_buf. apply wp_ret. eapply (HQ bi b). split; try done.
      * simpl. apply (Hdat d); [|naive_solver|done].
        right. destruct (decide (b_dev b = 1)); [|by left]. right. intros E. by apply (Hno bi b).
      * right. done.
Qed.
End Bread.

(** ** bwrite *)

Definition write_disk (n : Z) (d : list Z) (s : kernel) : kernel :=
  set_k_disk (<[n := d]> (k_disk s)) (set_k_wtrace ((n, d) :: k_wtrace s) s).

Section Bwrite.
Context `{WaitBound}.
Implicit Types (s : kernel) (b : buf).

Lemma wp_bwrite bi b i p (Q : unit → kernel → Prop) s :
  running s i p → k_held s = [] → k_bcache s !! bi = Some b →
  b_lock b = mkSleeplock true (p_pid p) → flags_ok (b_flags b) → b_flags b ≠ 0 →
  b_dev b = 1 → b_blockno b < k_disksize s →
  Q tt (put_buf bi (set_b_flags B_VALID b) (write_disk (b_blockno b) (b_data b) s)) →
  wp (bwrite bi) Q s.
Proof.
  intros Hr Hh Hb Hl Hf Hf0 Hd Hn HQ. unfold bwrite.
  apply wp_bind. eapply wp_holding_buf; [done..|]. simpl.
  apply wp_bind. eapply wp_upd_buf; [done|].
  eapply (wp_iderw_write _ _ i p);
    [exact Hr|done|by eapply put_buf_lookup_eq|done| |done|simpl; lia|].
  - simpl. destruct Hf as [?|[-> | ->]]; done.
  - unfold put_buf, write_disk in *. simpl. rewrite list_insert_insert_eq.
    destruct s; exact HQ.
Qed.

Lemma bwrite_ok bi b s :
  bio_ok s → (bi < NBUF)%nat → k_bcache s !! bi = Some b → b_flags b ≠ 0 → b_dev b = 1 →
  let s' := put_buf bi (set_b_flags B_VALID b) (write_disk (b_blockno b) (b_data b) s) in
  bio_ok s' ∧ ∀ m, lblk s' m = lblk s m.
Proof.
  intros Hok Hlt Hb Hf Hd s'. pose proof (bk_buf s Hok bi b Hlt Hb) as Hbo.
  assert (∀ j c, j ≠ bi → (j < NBUF)%nat → k_bcache s !! j = Some c → b_dev c = 1 →
            b_blockno c ≠ b_blockno b) as Hother.
  { intros j c Hj Hjl Hc Hcd Heq. apply Hj. eapply (bk_uniq s Hok j bi); eauto.
    split; [done|]. split; [done|]. congruence. }
  assert (bio_ok s') as Hok'.
  { destruct Hok as [[l Hl] Hbufs Huniq Hdisk]. split.
    - exists l. by eapply (lru_insert (set_b_flags B_VALID b)).
    - intros j c Hj Hc. destruct (decide (bi = j)) as [<-|Hne].
      + subst s'. rewrite (put_buf_lookup_eq _ _ _ b) in Hc by done. simplify_eq.
        destruct Hbo. split; simpl; auto.
        * unfold flags_ok. tauto.
        * done.
        * intros _ _. apply lookup_insert_eq.
      + subst s'. rewrite put_buf_lookup_ne in Hc by done.
        destruct (Hbufs j c Hj Hc) as [B1 B2 B3 B4 B5 B6 B7]. split; simpl; auto.
        intros Hr0 Hv. rewrite lookup_insert_ne; [by apply B7|].
        apply not_eq_sym. eapply Hother; eauto. destruct (decide (b_dev c = 1)); [done|].
        rewrite B6 in Hv by done. done.
    - intros j k c c' Hj Hk Hc Hc' Hs.
      assert (∀ j c, k_bcache s' !! j = Some c →
        ∃ c0, k_bcache s !! j = Some c0 ∧ b_dev c0 = b_dev c ∧ b_blockno c0 = b_blockno c) as Hs'.
      { intros j' c0 Hc0. subst s'. destruct (decide (bi = j')) as [<-|].
        - rewrite (put_buf_lookup_eq _ _ _ b) in Hc0 by done. simplify_eq. eauto.
        - rewrite put_buf_lookup_ne in Hc0 by done. eauto. }
      apply Hs' in Hc as (c1 & Hc & E1 & E2). apply Hs' in Hc' as (c2 & Hc' & E3 & E4).
      eapply (Huniq j k); eauto. unfold same_block in *. rewrite E1, E2, E3, E4. done.
    - intros n Hn. simpl. destruct (decide (b_blockno b = n)) as [<-|].
      + rewrite lookup_insert_eq. eexists. split; [done|]. apply Hbo.
      + rewrite lookup_insert_ne by done. by apply Hdisk. }
  split; [done|]. intros m. destruct (decide (m = b_blockno b)) as [->|Hm].
  - rewrite (lblk_cached s (b_blockno b) bi b); [|done..|by apply caches_true].
    erewrite (lblk_cached s' _ bi); [|done..|by eapply put_buf_lookup_eq|].
    + done.
    + by apply caches_true.
  - assert (caches m b = false ∧ caches m (set_b_flags B_VALID b) = false) as [??].
    { rewrite <- !not_true_iff_false, !caches_true. naive_solver. }
    transitivity (lblk (set_k_bcache (<[bi := set_b_flags B_VALID b]> (k_bcache s)) s) m).
    + unfold lblk. simpl. by rewrite lookup_insert_ne.
    + by eapply lblk_insert_other.
Qed.
End Bwrite.

(** ** brelse *)

Section CoreViews.
Implicit Types (bc : list buf).

Lemma buf_ok_core s b b' : core b = core b' → buf_ok s b → buf_ok s b'.
Proof.
  intros (E1 & E2 & E3 & E4 & E5 & E6)%core_fields []. split;
    rewrite <- ?E1, <- ?E2, <- ?E3, <- ?E4, <- ?E5, <- ?E6; auto.
Qed.

Lemma lblk_core s s' n :
  core <$> k_bcache s' = core <$> k_bcache s → k_disk s' = k_disk s → lblk s' n = lblk s n.
Proof.
  intros E Ed. unfold lblk. rewrite Ed.
  assert (∀ l l' : list buf, core <$> l' = core <$> l →
    (b_data <$> List.find (caches n) l') = (b_data <$> List.find (caches n) l)) as Hf.
  { induction l as [|x l IH]; intros [|y l'] Hl; [done..|].
    assert (core y = core x) as (E1 & E2 & E3 & _ & _ & E6)%core_fields
      by (apply (inj Some), (f_equal head Hl)).
    apply (f_equal tail) in Hl. simpl in Hl |- *.
    assert (caches n y = caches n x) as -> by (unfold caches; congruence).
    destruct (caches n x); simpl; [congruence|]. by apply IH. }
  specialize (Hf (take NBUF (k_bcache s)) (take NBUF (k_bcache s'))).
  rewrite !fmap_take, E in Hf. specialize (Hf eq_refl).
  destruct (List.find _ (take _ (k_bcache s'))), (List.find _ (take _ (k_bcache s)));
    by simplify_eq/=.
Qed.

(** The invariant ignores the links, given that they form a list. *)
Lemma bio_ok_core s s' :
  core <$> k_bcache s' = core <$> k_bcache s → k_disk s' = k_disk s →
  k_disksize s' = k_disksize s → (∃ l, lru (k_bcache s') l) → bio_ok s → bio_ok s'.
Proof.
  intros E Ed Es Hl [_ Hb Hu Hd]. split; [done|..].
  - intros i b Hi Hbi. destruct (cores_lookup _ _ _ _ E Hbi) as (b0 & H0 & E0).
    eapply buf_ok_core; [done|]. eapply (buf_ok_same s); eauto.
  - intros i j b b' Hi Hj Hbi Hbj (S1 & S2 & S3).
    destruct (cores_lookup _ _ _ _ E Hbi) as (b0 & H0 & E0).
    destruct (cores_lookup _ _ _ _ E Hbj) as (b1 & H1 & E1).
    apply core_fields in E0 as (_&?&?&_). apply core_fields in E1 as (_&?&?&_).
    eapply (Hu i j); eauto. unfold same_block. repeat split; congruence.
  - by rewrite Ed, Es.
Qed.
End CoreViews.

(** The list after [b] moves to the front. *)
Definition touch (bi : nat) (l : list nat) : list nat := bi :: filter (λ j, j ≠ bi) l.

Section Brelse.
Context `{WaitBound}.
Implicit Types (s : kernel) (b : buf).

Lemma touch_split l1 bi l2 :
  NoDup (l1 ++ bi :: l2) → touch bi (l1 ++ bi :: l2) = bi :: l1 ++ l2.
Proof.
  intros (H1 & H2 & [H3 H4]%NoDup_cons)%NoDup_app. unfold touch. f_equal.
  rewrite filter_app, filter_cons_False by naive_solver.
  rewrite !filter_notin; [done|done|]. intros Hin. apply (H2 bi Hin). set_solver.
Qed.

(** The four pointer updates on the list as a whole. *)
Lemma lru_touch bc l bi p q q' :
  lru bc l → (bi < NBUF)%nat → prv bc bi = Some p → nxt bc bi = Some q →
  nxt (setn p q (setp q p bc)) HEAD = Some q' →
  lru (setn HEAD bi (setp q' bi (setp bi HEAD (setn bi q' (setn p q (setp q p bc))))))
      (touch bi l) ∧ bi ≠ q ∧ bi ≠ p.
Proof.
  intros Hl Hlt Hp Hq Hq'. pose proof (lru_nodup _ _ Hl) as Hnd.
  pose proof (lru_in _ _ _ Hl Hlt) as Hin. pose proof (λ i, lru_lt _ _ i Hl) as Hlts.
  apply list_elem_of_split in Hin as (l1 & l2 & ->).
  pose proof Hnd as [Hh Hnd']%NoDup_cons.
  rewrite touch_split by done. destruct Hl as [He Hperm Hlen].
  assert (∀ i, i ∈ HEAD :: l1 ++ l2 → (i < length bc)%nat) as Hb.
  { intros i [->|Hi]%elem_of_cons; [rewrite Hlen; unfold HEAD; lia|].
    rewrite Hlen. assert (i < NBUF)%nat by (apply Hlts; set_solver). lia. }
  assert (bi ≠ HEAD) as HbH by (unfold HEAD; lia).
  assert ((bi ∉ l1) ∧ (bi ∉ l2)) as [Hb1 Hb2].
  { apply NoDup_app in Hnd' as (_ & Hd & [??]%NoDup_cons). split; [|done].
    intros Hi. apply (Hd bi Hi). set_solver. }
  assert (bi ≠ q ∧ bi ≠ p) as [Hnq Hnp].
  { destruct (snoc_cases l1 HEAD) as (c1 & p' & E1).
    assert (∃ q' c2, l2 ++ [HEAD] = q' :: c2) as (q0 & c2 & E2)
      by (destruct l2; simpl; eauto).
    rewrite <- app_assoc, app_comm_cons, E1, <- app_assoc in He. simpl in He. rewrite E2 in He.
    apply edges_app in He as (_ & _ & Hbp & Hc2).
    apply (edges_app _ []) in Hc2 as (_ & Hbq & _ & _).
    assert (p = p') as Ep by congruence. assert (q = q0) as Eq by congruence.
    assert (p ∈ HEAD :: l1) by (rewrite E1, Ep; set_solver).
    assert (q ∈ l2 ++ [HEAD]) by (rewrite E2, Eq; set_solver). set_solver. }
  split; [|done]. split.
  - apply edges_push.
    + by apply edges_unlink with (b := bi).
    + apply NoDup_cons. split; [set_solver|]. apply NoDup_cons. split; [set_solver|].
      apply NoDup_app in Hnd' as (N1 & N2 & [_ N3]%NoDup_cons). apply NoDup_app.
      split; [done|]. split; [|done]. intros x Hx1 Hx2. apply (N2 x Hx1). set_solver.
    + intros i Hi. rewrite length_setn, length_setp. rewrite Hlen.
      apply elem_of_cons in Hi as [->|[->|Hi]%elem_of_cons]; [unfold HEAD; lia|lia|].
      assert (i < NBUF)%nat by (apply Hlts; set_solver). lia.
    + done.
  - rewrite <- Hperm. apply Permutation_middle.
  - by rewrite length_setn, !length_setp, !length_setn, length_setp.
Qed.

Lemma wp_brelse bi b i p l (Q : unit → kernel → Prop) s :
  running s i p → k_held s = [] → lru (k_bcache s) l → (bi < NBUF)%nat →
  k_bcache s !! bi = Some b → b_lock b = mkSleeplock true (p_pid p) →
  0 < b_refcnt b < 2 ^ 32 →
  (∀ bc', core <$> bc' =
            core <$> <[bi := set_b_refcnt (b_refcnt b - 1) (set_b_lock slk0 b)]> (k_bcache s) →
          lru bc' (if b_refcnt b =? 1 then touch bi l else l) →
          Q tt (do_wakeup (ChSlk (SBuf bi)) (set_k_bcache bc' s))) →
  wp (brelse bi) Q s.
Proof.
  intros Hr Hh Hl Hlt Hb Hlk Href HQ. unfold brelse.
  apply wp_bind. eapply wp_holding_buf; [done..|]. simpl.
  apply wp_bind. eapply (wp_releasesleep _ (b_lock b)).
  { rewrite Hh. apply not_elem_of_nil. } { rewrite Hh. apply not_elem_of_nil. }
  { simpl. by rewrite Hb. }
  rewrite (put_slk_buf _ _ b) by done.
  apply wp_bind, wp_acquire; [simpl; rewrite Hh; apply not_elem_of_nil|].
  simpl k_held. rewrite Hh.
  set (b1 := set_b_refcnt (b_refcnt b - 1) (set_b_lock slk0 b)).
  set (bc1 := <[bi := b1]> (k_bcache s)).
  set (s1 := set_k_held [Lbcache] (do_wakeup (ChSlk (SBuf bi)) (set_k_bcache bc1 s))).
  assert (bc1 !! bi = Some b1) as Hb1
    by (apply list_lookup_insert_eq; by eapply lookup_lt_Some).
  assert (lru bc1 l) as Hl1 by (by eapply lru_insert).
  apply wp_bind. eapply (wp_upd_buf _ _ (set_b_lock slk0 b)).
  { simpl. apply list_lookup_insert_eq. by eapply lookup_lt_Some. }
  match goal with |- wp _ _ ?st => replace st with s1 end.
  2:{ unfold s1, bc1, b1, put_buf, do_wakeup, slk0. simpl. rewrite list_insert_insert_eq.
      rewrite u32_small by lia. by destruct s. }
  assert (∀ bc2, core <$> bc2 = core <$> bc1 → lru bc2 (if b_refcnt b =? 1 then touch bi l else l) →
    wp (release Lbcache) Q (set_k_bcache bc2 s1)) as Hend.
  { intros bc2 Hc Hl2. eapply wp_release; [reflexivity|apply not_elem_of_nil|].
    specialize (HQ bc2 Hc Hl2). destruct s; simpl in *; subst. exact HQ. }
  apply wp_bind. eapply wp_get_buf; [exact Hb1|]. unfold b1 at 1. simpl b_refcnt.
  apply wp_bind. destruct (Z.eqb_spec (b_refcnt b - 1) 0) as [E|E].
  - rewrite (proj2 (Z.eqb_eq (b_refcnt b) 1)) in Hend by lia. simpl.
    assert (prv bc1 bi = Some (b_prev b1) ∧ nxt bc1 bi = Some (b_next b1)) as [Hp Hn]
      by (unfold prv, nxt; by rewrite Hb1).
    set (p0 := b_prev b1) in *. set (q0 := b_next b1) in *.
    set (bc2 := setn p0 q0 (setp q0 p0 bc1)).
    assert (∃ h, bc2 !! HEAD = Some h) as [h Hhd].
    { apply lookup_lt_is_Some_2. unfold bc2. rewrite length_setn, length_setp.
      destruct Hl1 as [_ _ ->]. unfold HEAD. lia. }
    destruct (lru_touch bc1 l bi p0 q0 (b_next h)) as (Hl2 & Hnq & Hnp);
      [done..|unfold nxt; fold bc2; by rewrite Hhd|]. fold bc2 in Hl2.
    apply wp_bind, wp_modify. apply wp_bind.
    eapply (wp_get_buf _ b1).
    { change (setp q0 p0 bc1 !! bi = Some b1). unfold setp.
      by rewrite list_lookup_alter_ne by congruence. }
    apply wp_bind, wp_modify. apply wp_bind. eapply (wp_get_buf _ h); [exact Hhd|].
    apply wp_bind, wp_modify. apply wp_bind, wp_modify. apply wp_bind.
    eapply (wp_get_buf _ h).
    { simpl. rewrite !list_lookup_alter_ne by (unfold HEAD; lia). exact Hhd. }
    apply wp_bind, wp_modify. apply wp_modify.
    refine (Hend _ _ Hl2). unfold bc2.
    by rewrite core_setn, !core_setp, !core_setn, core_setp.
  - rewrite (proj2 (Z.eqb_neq (b_refcnt b) 1)) in Hend by lia. simpl. apply wp_ret.
    specialize (Hend bc1 eq_refl Hl1). destruct s; exact Hend.
Qed.
End Brelse.
