(* ===== verification/BufSpec.v ===== *)
(** * BufSpec: what the buffer cache promises to the log and the file system

    [st i p H s]: process [i] runs on an otherwise quiet cache and holds exactly
    the buffers [H].  In such a state every buffer operation returns, and its
    effect is stated on the logical block contents [lblk], the set of pinned
    (dirty) blocks and the disk, without mention of the recency list. *)

From S2P Require Import Prelude State Lock Bio.

Definition isdirty (s : kernel) (n : Z) : Prop :=
  ∃ i b, (i < NBUF)%nat ∧ k_bcache s !! i = Some b ∧ b_dev b = 1 ∧ b_blockno b = n ∧
         b_flags b = Z.lor B_VALID B_DIRTY.

(** The buffer in slot [bi] is held by [pid] and caches block [n] with flags [f]
    and content [d]. *)
Definition holds (s : kernel) (pid : Z) (bi : nat) (n f : Z) (d : list Z) : Prop :=
  ∃ b, k_bcache s !! bi = Some b ∧ b_refcnt b = 1 ∧ b_lock b = mkSleeplock true pid ∧
       b_dev b = 1 ∧ b_blockno b = n ∧ b_flags b = f ∧ f ≠ 0 ∧ b_data b = d.

Record st (i : nat) (p : proc) (H : list nat) (s : kernel) : Prop := {
  st_bio : bio_ok s;
  st_run : running s i p;
  st_awake : p_state p ≠ SLEEPING;
  st_nolock : k_held s = [];
  st_lt : ∀ bi, bi ∈ H → (bi < NBUF)%nat;
  st_held : ∀ bi, bi ∈ H → ∃ n f d, holds s (p_pid p) bi n f d;
  st_quiet : ∀ j b, (j < NBUF)%nat → j ∉ H → k_bcache s !! j = Some b → b_refcnt b = 0 }.

(** Only the cache, the disk and sleeping processes changed. *)
Definition bufs_only (s s' : kernel) : Prop :=
  ∃ bc pt d w, s' = set_k_bcache bc (set_k_ptable pt (set_k_disk d (set_k_wtrace w s))) ∧
    ∀ i p, k_ptable s !! i = Some p → p_state p ≠ SLEEPING → pt !! i = Some p.

Section Frame.
Implicit Types s : kernel.

Lemma bufs_only_refl s : bufs_only s s.
Proof. exists (k_bcache s), (k_ptable s), (k_disk s), (k_wtrace s). split; [by destruct s|done]. Qed.

Lemma bufs_only_trans s1 s2 s3 : bufs_only s1 s2 → bufs_only s2 s3 → bufs_only s1 s3.
Proof.
  intros (bc & pt & d & w & -> & H1) (bc' & pt' & d' & w' & -> & H2).
  exists bc', pt', d', w'. split; [by destruct s1|]. intros i p Hp Hs. apply H2; [|done].
  simpl. by apply H1.
Qed.

Lemma bufs_only_put i b s : bufs_only s (put_buf i b s).
Proof.
  exists (<[i := b]> (k_bcache s)), (k_ptable s), (k_disk s), (k_wtrace s).
  split; [by destruct s|done].
Qed.

Lemma bufs_only_log s s' : bufs_only s s' → k_log s' = k_log s.
Proof. by intros (?&?&?&?&->&_). Qed.
Lemma bufs_only_disksize s s' : bufs_only s s' → k_disksize s' = k_disksize s.
Proof. by intros (?&?&?&?&->&_). Qed.

Lemma holds_fun s pid bi n f d n' f' d' :
  holds s pid bi n f d → holds s pid bi n' f' d' → n = n' ∧ f = f' ∧ d = d'.
Proof. intros (b & Hb & H) (b' & Hb' & H'). simplify_eq. intuition congruence. Qed.
End Frame.
#[export] Hint Resolve bufs_only_refl bufs_only_put : xv6.

(** ** Pigeonhole: an idle buffer exists while few are pinned or held *)

Section Pigeon.
Implicit Types s : kernel.

Lemma exists_idle (bc : list buf) (X : list nat) :
  (∀ i, (i < NBUF)%nat → idle bc i = false → i ∈ X) → (length X < NBUF)%nat →
  ∃ i, (i < NBUF)%nat ∧ idle bc i = true.
Proof.
  intros HX Hlen.
  destruct (decide (Forall (λ i, idle bc i = false) (seq 0 NBUF))) as [Ha|Hn].
  - exfalso. assert (NBUF ≤ length X)%nat; [|lia].
    rewrite <- (length_seq NBUF 0). apply submseteq_length, NoDup_submseteq; [apply NoDup_seq|].
    intros i Hi. rewrite Forall_forall in Ha. specialize (Ha i Hi).
    apply elem_of_seq in Hi. apply HX; [lia|done].
  - apply (not_Forall_Exists _) in Hn.
    apply Exists_exists in Hn as (i & Hi & Hid). apply elem_of_seq in Hi. exists i.
    split; [lia|]. by apply not_false_iff_true.
Qed.

(** The slots of the pinned buffers. *)
Definition pinned (s : kernel) (i : nat) : bool :=
  match k_bcache s !! i with
  | Some b => (b_dev b =? 1) && (b_flags b =? Z.lor B_VALID B_DIRTY)
  | None => false
  end.
Definition dirty_slots (s : kernel) : list nat :=
  filter (λ i, pinned s i = true) (seq 0 NBUF).

Lemma pinned_true s i :
  pinned s i = true ↔
  ∃ b, k_bcache s !! i = Some b ∧ b_dev b = 1 ∧ b_flags b = Z.lor B_VALID B_DIRTY.
Proof.
  unfold pinned. destruct (k_bcache s !! i) as [b|].
  - rewrite andb_true_iff, !Z.eqb_eq. naive_solver.
  - naive_solver.
Qed.

Lemma dirty_slots_length s (L : list Z) :
  bio_ok s → (∀ n, isdirty s n → n ∈ L) → (length (dirty_slots s) ≤ length L)%nat.
Proof.
  intros Hok HL.
  set (blk := λ i, match k_bcache s !! i with Some b => b_blockno b | None => 0 end).
  rewrite <- (length_fmap blk). apply submseteq_length, NoDup_submseteq.
  - apply NoDup_fmap_2_strong; [|apply NoDup_filter, NoDup_seq].
    intros x y Hx Hy Hxy. unfold dirty_slots in *.
    apply list_elem_of_filter in Hx as [(b & Hb & Hd & _)%pinned_true Hxs%elem_of_seq].
    apply list_elem_of_filter in Hy as [(c & Hc & Hd' & _)%pinned_true Hys%elem_of_seq].
    unfold blk in Hxy. rewrite Hb, Hc in Hxy.
    eapply (bk_uniq s Hok x y); eauto; [lia|lia|]. by repeat split.
  - intros n (x & -> & Hx)%list_elem_of_fmap. unfold dirty_slots in Hx.
    apply list_elem_of_filter in Hx as [(b & Hb & Hd & Hf)%pinned_true Hxs%elem_of_seq].
    apply HL. unfold blk. rewrite Hb. exists x, b. split; [lia|done].
Qed.

Lemma st_idle i p H s L :
  st i p H s → (∀ n, isdirty s n → n ∈ L) → (length L + length H < NBUF)%nat →
  ∃ j, (j < NBUF)%nat ∧ idle (k_bcache s) j = true.
Proof.
  intros Hs HL Hlen. apply (exists_idle _ (dirty_slots s ++ H)).
  - intros j Hj Hid. apply elem_of_app. destruct (decide (j ∈ H)); [by right|]. left.
    unfold dirty_slots. apply list_elem_of_filter. split; [|apply elem_of_seq; lia].
    apply pinned_true.
    destruct (bk_lru s (st_bio _ _ _ _ Hs)) as [l Hl].
    destruct (lookup_lt_is_Some_2 (k_bcache s) j) as [b Hb]; [destruct Hl; lia|].
    unfold idle in Hid. rewrite Hb in Hid. exists b. split; [done|].
    pose proof (bk_buf s (st_bio _ _ _ _ Hs) j b Hj Hb) as Hbo.
    rewrite (st_quiet _ _ _ _ Hs j b) in Hid by done. simpl in Hid.
    rewrite flags_dirty0, negb_false_iff, Z.eqb_eq in Hid by apply Hbo.
    split; [|done]. destruct (decide (b_dev b = 1)); [done|].
    rewrite (bo_zero _ _ Hbo) in Hid by done. done.
  - rewrite length_app. pose proof (dirty_slots_length s L (st_bio _ _ _ _ Hs) HL). lia.
Qed.
End Pigeon.

(** ** The operations *)

(** [s'] shows the same blocks, the same pins and the same disk as [s]. *)
Record same_view (s s' : kernel) : Prop := {
  sv_only : bufs_only s s';
  sv_lblk : ∀ m, lblk s' m = lblk s m;
  sv_dirty : ∀ m, isdirty s' m ↔ isdirty s m;
  sv_disk : k_disk s' = k_disk s;
  sv_wtrace : k_wtrace s' = k_wtrace s }.

Lemma same_view_refl s : same_view s s.
Proof. split; try done. apply bufs_only_refl. Qed.

Section Ops.
Context `{WaitBound}.
Implicit Types (s : kernel) (b : buf).

Lemma running_only s s' i p :
  bufs_only s s' → running s i p → p_state p ≠ SLEEPING → running s' i p.
Proof.
  intros (bc & pt & d & w & -> & Hpt) [H1 H2] Hs. split; [done|]. by apply Hpt.
Qed.
Lemma nolock_only s s' : bufs_only s s' → k_held s' = k_held s.
Proof. by intros (?&?&?&?&->&_). Qed.

Lemma isdirty_put bi b b' s n :
  bio_ok s → (bi < NBUF)%nat → k_bcache s !! bi = Some b →
  isdirty (put_buf bi b' s) n ↔
    (b_dev b' = 1 ∧ b_blockno b' = n ∧ b_flags b' = Z.lor B_VALID B_DIRTY) ∨
    (∃ j c, j ≠ bi ∧ (j < NBUF)%nat ∧ k_bcache s !! j = Some c ∧ b_dev c = 1 ∧
            b_blockno c = n ∧ b_flags c = Z.lor B_VALID B_DIRTY).
Proof.
  intros Hok Hlt Hb. split.
  - intros (j & c & Hj & Hc & Hr). destruct (decide (j = bi)) as [->|Hne].
    + rewrite (put_buf_lookup_eq _ _ _ b) in Hc by done. simplify_eq. by left.
    + rewrite put_buf_lookup_ne in Hc by done. right. eauto 10.
  - intros [Hr|(j & c & Hne & Hj & Hc & Hr)].
    + exists bi, b'. split; [done|]. split; [by eapply put_buf_lookup_eq|done].
    + exists j, c. split; [done|]. by rewrite put_buf_lookup_ne.
Qed.

(** Replacing one buffer by one with the same pin leaves the pins alone. *)
Lemma isdirty_put_same bi b b' s n :
  bio_ok s → (bi < NBUF)%nat → k_bcache s !! bi = Some b →
  (b_dev b' = 1 ∧ b_blockno b' = n ∧ b_flags b' = Z.lor B_VALID B_DIRTY ↔
   b_dev b = 1 ∧ b_blockno b = n ∧ b_flags b = Z.lor B_VALID B_DIRTY) →
  isdirty (put_buf bi b' s) n ↔ isdirty s n.
Proof.
  intros Hok Hlt Hb Hiff. rewrite (isdirty_put bi b) by done. split.
  - intros [Hr|(j & c & Hne & Hr)]; [|exists j, c; naive_solver].
    exists bi, b. naive_solver.
  - intros (j & c & Hj & Hc & Hr). destruct (decide (j = bi)) as [->|Hne]; [|eauto 10].
    left. simplify_eq. naive_solver.
Qed.

Lemma isdirty_core s s' n :
  core <$> k_bcache s' = core <$> k_bcache s → isdirty s' n ↔ isdirty s n.
Proof.
  intros E. split; intros (j & c & Hj & Hc & Hr).
  - destruct (cores_lookup _ _ _ _ E Hc) as (c0 & Hc0 & E0%core_fields).
    exists j, c0. intuition congruence.
  - destruct (cores_lookup _ _ _ _ (eq_sym E) Hc) as (c0 & Hc0 & E0%core_fields).
    exists j, c0. intuition congruence.
Qed.

Lemma lblk_put_same bi b b' s n :
  bio_ok s → (bi < NBUF)%nat → k_bcache s !! bi = Some b → bio_ok (put_buf bi b' s) →
  b_dev b' = b_dev b → b_blockno b' = b_blockno b → b_flags b' = b_flags b →
  b_data b' = b_data b → lblk (put_buf bi b' s) n = lblk s n.
Proof.
  intros Hok Hlt Hb Hok' E1 E2 E3 E4.
  assert (caches n b' = caches n b) as Ec by (unfold caches; congruence).
  destruct (caches n b) eqn:Hc; [|by eapply lblk_insert_other].
  rewrite (lblk_cached s n bi b), (lblk_cached _ n bi b'); try done.
  by eapply put_buf_lookup_eq.
Qed.

Lemma holds_put_ne bi b s pid j n f d :
  j ≠ bi → holds s pid j n f d → holds (put_buf bi b s) pid j n f d.
Proof. intros Hne (c & Hc & Hr). exists c. by rewrite put_buf_lookup_ne. Qed.

(** A held buffer replaced by another held one. *)
Lemma st_put i p Hd s bi b' :
  st i p Hd s → (bi < NBUF)%nat → bio_ok (put_buf bi b' s) →
  holds (put_buf bi b' s) (p_pid p) bi (b_blockno b') (b_flags b') (b_data b') →
  st i p (bi :: filter (λ j, j ≠ bi) Hd) (put_buf bi b' s).
Proof.
  intros [B R A L T Hh Hq] Hlt Hok Hb'. split; try done.
  - intros j [->|Hj]%elem_of_cons; [done|]. apply T. by apply list_elem_of_filter in Hj as [_ ?].
  - intros j [->|[Hne Hj]%list_elem_of_filter]%elem_of_cons; [eauto|].
    destruct (Hh j Hj) as (n & f & d & Hjh). exists n, f, d. by apply holds_put_ne.
  - intros j c Hj Hn Hc. rewrite not_elem_of_cons in Hn. destruct Hn as [Hne Hn].
    rewrite put_buf_lookup_ne in Hc by done. apply (Hq j); [done| |done].
    intros Hin. apply Hn, list_elem_of_filter. done.
Qed.

Lemma st_avail i p Hd s n L :
  st i p Hd s → (∀ bi f d, bi ∈ Hd → ¬ holds s (p_pid p) bi n f d) →
  (isdirty s n ∨ (∀ m, isdirty s m → m ∈ L) ∧ (length L + length Hd < NBUF)%nat) →
  avail s n.
Proof.
  intros Hs Hnh Hc.
  assert ((∃ j b, (j < NBUF)%nat ∧ k_bcache s !! j = Some b ∧ b_dev b = 1 ∧ b_blockno b = n) →
    avail s n) as Hcached.
  { intros (j & b & Hj & Hb & Hbd & Hbn). left. exists j, b.
    destruct (decide (j ∈ Hd)) as [Hin|Hni].
    - exfalso. destruct (st_held _ _ _ _ Hs j Hin) as (n' & f & d & Hh).
      destruct Hh as (b' & Hb' & E). rewrite Hb in Hb'; injection Hb' as <-. eapply (Hnh j f d Hin). exists b. naive_solver.
    - pose proof (st_quiet _ _ _ _ Hs j b Hj Hni Hb) as Hr0.
      pose proof (bk_buf s (st_bio _ _ _ _ Hs) j b Hj Hb) as Hbo.
      repeat split; try done; [by apply Hbo|lia]. }
  destruct Hc as [(j & b & Hj & Hb & E1 & E2 & _)|[HL Hlen]]; [apply Hcached; by exists j, b|].
  destruct (decide (Exists (λ b, b_dev b = 1 ∧ b_blockno b = n) (take NBUF (k_bcache s))))
    as [He|Hn].
  - apply Exists_exists in He as (b & Hin & Hb). apply list_elem_of_lookup in Hin as [j Hj].
    apply lookup_take_Some in Hj as [Hj Hjl]. apply Hcached. exists j, b. naive_solver.
  - right. split.
    + intros j b Hj Hb Hx. apply Hn. apply Exists_exists. exists b. split; [|done].
      apply list_elem_of_lookup. exists j. by apply lookup_take_Some.
    + by eapply st_idle.
Qed.
End Ops.

Section Specs.
Context `{WaitBound}.
Context (i : nat) (p : proc).
Implicit Types (s : kernel) (b : buf).

(** The pins of blocks other than those of a bound keep a buffer free. *)
Definition room (s : kernel) (Hd : list nat) (n : Z) : Prop :=
  isdirty s n ∨
  ∃ L, (∀ m, isdirty s m → m ∈ L) ∧ (length L + length Hd < NBUF)%nat.

Lemma spec_bread Hd n s (Q : nat → kernel → Prop) :
  st i p Hd s → 0 ≤ n < k_disksize s → room s Hd n →
  (∀ bi f d, bi ∈ Hd → ¬ holds s (p_pid p) bi n f d) →
  (∀ bi s' f, st i p (bi :: Hd) s' → bi ∉ Hd → same_view s s' →
     holds s' (p_pid p) bi n f (lblk s n) →
     (f = Z.lor B_VALID B_DIRTY ↔ isdirty s n) →
     (f = B_VALID → k_disk s !! n = Some (lblk s n)) →
     (∀ j m f d, j ∈ Hd → holds s (p_pid p) j m f d → holds s' (p_pid p) j m f d) →
     Q bi s') →
  wp (bread 1 n) Q s.
Proof.
  intros Hs Hn Hroom Hnh HQ. pose proof Hs as [B R A L T Hh Hq].
  assert (avail s n) as Hav.
  { destruct Hroom as [Hdy|(X & HX & Hlen)]; [by apply (st_avail i p Hd s n []); [..|left]|].
    by apply (st_avail i p Hd s n X); [..|right]. }
  eapply (wp_bread n i p); [done..|]. intros bi b b' Hld.
  destruct (loaded_ok s _ n bi b b' B Hn Hld) as [Hok' Hlb].
  pose proof Hld as [Hlt Hb Hd' Hbn _ _ Hlk Hdat Hcase].
  pose proof (bk_buf s B bi b Hlt Hb) as Hbo.
  assert (bi ∉ Hd) as Hni.
  { intros Hin. destruct (Hh bi Hin) as (m & f & d & (c & Hc & Hc1 & Hc2 & _)).
    rewrite Hb in Hc; injection Hc as <-.
    destruct Hcase as [(_&_&E&_)|(_&E&_)]; [by rewrite Hc2 in E|lia]. }
  pose proof (Hq bi b Hlt Hni Hb) as Hr0.
  assert (b_flags b' ≠ 0 ∧ b_refcnt b' = 1) as [Hf' Hr'].
  { destruct Hcase as [(_&_&_&->&->)|(_&_&_&->&->)]; [|done].
    destruct (Z.eqb_spec (b_flags b) 0); split; done || lia. }
  assert (holds (put_buf bi b' s) (p_pid p) bi n (b_flags b') (lblk s n)) as Hhold.
  { exists b'. rewrite (put_buf_lookup_eq _ _ _ b) by done. done. }
  assert (∀ m, isdirty (put_buf bi b' s) m ↔ isdirty s m) as Hdir.
  { intros m. apply (isdirty_put_same bi b); [done..|].
    destruct Hcase as [(E1&E2&_&_&E3)|(Hno&_&E3&_&E4)].
    - rewrite Hd', Hbn, E1, E2, E3. destruct (Z.eqb_spec (b_flags b) 0) as [E|]; [|done].
      rewrite E. naive_solver.
    - rewrite E4. naive_solver. }
  eapply (HQ bi _ (b_flags b')); [|done| |exact Hhold| | |].
  - pose proof (st_put i p Hd s bi b' Hs Hlt Hok') as Hst.
    rewrite filter_notin in Hst by done. apply Hst. by rewrite Hbn, Hdat.
  - split; try done. apply bufs_only_put.
  - rewrite <- Hdir. split.
    + intros Hf. exists bi, b'. rewrite (put_buf_lookup_eq _ _ _ b) by done. done.
    + intros (j & c & Hj & Hc & E1 & E2 & E3).
      assert (j = bi) as ->.
      { eapply (bk_uniq _ Hok' j bi); [done|done|done|by eapply put_buf_lookup_eq|].
        split; [done|]. split; [done|congruence]. }
      rewrite (put_buf_lookup_eq _ _ _ b) in Hc by done. congruence.
  - intros Hf. destruct (bk_disk s B n Hn) as (d & Hdk & _). rewrite Hdk.
    destruct Hcase as [(E1&E2&_&_&E3)|(Hno&_)].
    + destruct (Z.eqb_spec (b_flags b) 0) as [E0|E0].
      * rewrite lblk_uncached; [by rewrite Hdk|]. intros j c Hj Hc.
        apply not_true_iff_false. rewrite caches_true. intros (C1&C2&C3).
        assert (j = bi) as ->; [|congruence]. eapply (bk_uniq s B j bi); eauto.
        split; [done|]. split; [done|congruence].
      * rewrite (lblk_cached s n bi b); [|done..|by apply caches_true].
        rewrite <- Hdk, <- E2. apply Hbo; congruence.
    + rewrite lblk_uncached; [by rewrite Hdk|]. intros j c Hj Hc.
      apply not_true_iff_false. rewrite caches_true. intros (C1&C2&C3). by apply (Hno j c).
  - intros j m f d Hj. apply holds_put_ne. by intros ->.
Qed.

Lemma st_lblk Hd s bi n f d :
  st i p Hd s → bi ∈ Hd → holds s (p_pid p) bi n f d → lblk s n = d ∧ 0 ≤ n < k_disksize s.
Proof.
  intros [B R A L T Hh Hq] Hin (b & Hb & _ & _ & Hdv & <- & <- & Hf & <-). split.
  - apply (lblk_cached s _ bi b); [done|by apply T|done|]. by apply caches_true.
  - by apply (bk_buf s B bi b (T bi Hin) Hb).
Qed.

Lemma spec_get_data Hd s bi n f d (Q : list Z → kernel → Prop) :
  st i p Hd s → bi ∈ Hd → holds s (p_pid p) bi n f d → Q d s → wp (get_data bi) Q s.
Proof.
  intros Hs Hin (b & Hb & _ & _ & _ & _ & _ & _ & <-) HQ. unfold get_data.
  apply wp_bind. by eapply wp_get_buf; [|apply wp_ret].
Qed.

Lemma not_held_other Hd s bi n f d j m f' d' :
  st i p Hd s → bi ∈ Hd → j ∈ Hd → j ≠ bi → holds s (p_pid p) bi n f d →
  holds s (p_pid p) j m f' d' → m ≠ n.
Proof.
  intros [B R A L T Hh Hq] Hb Hj Hne (b & Hb0 & _ & _ & D1 & N1 & _)
    (c & Hc0 & _ & _ & D2 & N2 & _) ->. apply Hne.
  eapply (bk_uniq s B j bi); eauto. split; [done|]. split; [done|congruence].
Qed.

Lemma spec_set_data Hd s bi n f d d' (Q : unit → kernel → Prop) :
  st i p (bi :: Hd) s → bi ∉ Hd → holds s (p_pid p) bi n f d →
  length d' = Z.to_nat BSIZE →
  (∀ s', st i p (bi :: Hd) s' → bufs_only s s' → k_disk s' = k_disk s →
     k_wtrace s' = k_wtrace s →
     (∀ m, lblk s' m = if decide (m = n) then d' else lblk s m) →
     (∀ m, isdirty s' m ↔ isdirty s m) →
     holds s' (p_pid p) bi n f d' →
     (∀ j m f d, j ∈ Hd → holds s (p_pid p) j m f d → holds s' (p_pid p) j m f d) →
     Q tt s') →
  wp (set_data bi d') Q s.
Proof.
  intros Hs Hni (b & Hb & Hr & Hl & Hdv & Hn & Hf & Hf0 & Hdd) Hlen HQ.
  pose proof Hs as [B R A L T Hh Hq]. assert (bi < NBUF)%nat as Hlt by (apply T; set_solver).
  pose proof (bk_buf s B bi b Hlt Hb) as Hbo.
  set (b' := set_b_data d' b).
  assert (bio_ok (put_buf bi b' s)) as Hok.
  { eapply bio_ok_put; [done|done|done|done|done| |].
    - destruct Hbo. split; try done. simpl. lia.
    - intros j c Hj Hjl Hc Hsb. apply Hj. symmetry. by eapply (bk_uniq s B bi j b c). }
  assert (holds (put_buf bi b' s) (p_pid p) bi n f d') as Hhold.
  { exists b'. rewrite (put_buf_lookup_eq _ _ _ b) by done. done. }
  eapply (wp_upd_buf _ _ b); [done|]. fold b'. apply HQ; try done.
  - pose proof (st_put i p _ s bi b' Hs Hlt Hok) as Hst.
    rewrite filter_cons_False, filter_notin in Hst by (done || by intros []).
    apply Hst. simpl. by rewrite Hn, Hf.
  - apply bufs_only_put.
  - intros m. destruct (decide (m = n)) as [->|Hm].
    + rewrite (lblk_cached _ n bi b'); [done|done|done|by eapply put_buf_lookup_eq|].
      apply caches_true. simpl. split; [done|]. split; congruence.
    + assert (caches m b = false ∧ caches m b' = false) as [??].
      { rewrite <- !not_true_iff_false, !caches_true. simpl. split; intros (?&?&?); congruence. }
      by eapply lblk_insert_other.
  - intros m. by apply (isdirty_put_same bi b).
  - intros j m f' e Hj Hjh. apply holds_put_ne; [by intros ->|exact Hjh].
Qed.

Lemma spec_bwrite Hd s bi n f d (Q : unit → kernel → Prop) :
  st i p (bi :: Hd) s → bi ∉ Hd → holds s (p_pid p) bi n f d →
  (∀ s', st i p (bi :: Hd) s' → bufs_only s s' →
     k_disk s' = <[n := d]> (k_disk s) → k_wtrace s' = (n, d) :: k_wtrace s →
     (∀ m, lblk s' m = lblk s m) →
     (∀ m, isdirty s' m ↔ isdirty s m ∧ m ≠ n) →
     holds s' (p_pid p) bi n B_VALID d →
     (∀ j m f d, j ∈ Hd → holds s (p_pid p) j m f d → holds s' (p_pid p) j m f d) →
     Q tt s') →
  wp (bwrite bi) Q s.
Proof.
  intros Hs Hni (b & Hb & Hr & Hl & Hdv & Hn & Hf & Hf0 & Hdd) HQ.
  pose proof Hs as [B R A L T Hh Hq]. assert (bi < NBUF)%nat as Hlt by (apply T; set_solver).
  pose proof (bk_buf s B bi b Hlt Hb) as Hbo.
  destruct (bwrite_ok bi b s B Hlt Hb) as [Hok Hlb]; [congruence|done|].
  set (b' := set_b_flags B_VALID b) in *. rewrite Hn, Hdd in *.
  set (s1 := write_disk n d s) in *.
  assert (holds (put_buf bi b' s1) (p_pid p) bi n B_VALID d) as Hhold.
  { exists b'. rewrite (put_buf_lookup_eq _ _ _ b) by done. done. }
  assert (st i p (bi :: Hd) (put_buf bi b' s1)) as Hst.
  { split; try done.
    - intros j [->|Hj]%elem_of_cons; [eauto|].
      destruct (Hh j) as (m & f' & e & Hjh); [set_solver|]. exists m, f', e.
      apply holds_put_ne; [by intros ->|done].
    - intros j c Hj Hn' Hc. rewrite put_buf_lookup_ne in Hc by set_solver. by apply (Hq j). }
  eapply (wp_bwrite bi b i p); [done..|apply Hbo|congruence|done| |].
  { apply (bo_dev _ _ Hbo) in Hdv. lia. }
  rewrite Hn, Hdd. apply HQ; try done.
  - exists (<[bi := b']> (k_bcache s)), (k_ptable s), (<[n := d]> (k_disk s)),
      ((n, d) :: k_wtrace s). split; [by destruct s|done].
  - intros m. split.
    + intros (j & c & Hj & Hc & E1 & E2 & E3). destruct (decide (j = bi)) as [->|Hne].
      { rewrite (put_buf_lookup_eq _ _ _ b) in Hc by done. by simplify_eq. }
      rewrite put_buf_lookup_ne in Hc by done. split; [by exists j, c|]. intros ->.
      apply Hne. eapply (bk_uniq s B j bi); eauto. split; [done|]. split; [done|congruence].
    + intros [(j & c & Hj & Hc & E1 & E2 & E3) Hm]. exists j, c.
      split; [done|]. rewrite put_buf_lookup_ne; [done|]. intros ->. congruence.
  - intros j m f' e Hj Hjh. apply holds_put_ne; [by intros ->|exact Hjh].
Qed.

Lemma bufs_only_brelse bc c s : bufs_only s (do_wakeup c (set_k_bcache bc s)).
Proof.
  exists bc, (wake c <$> k_ptable s), (k_disk s), (k_wtrace s). split; [by destruct s|].
  intros j q Hq Hs. simpl. rewrite list_lookup_fmap, Hq. simpl. unfold wake.
  by destruct (p_state q).
Qed.

Lemma spec_brelse Hd s bi n f d (Q : unit → kernel → Prop) :
  st i p (bi :: Hd) s → bi ∉ Hd → holds s (p_pid p) bi n f d →
  (f = B_VALID → k_disk s !! n = Some d) →
  (∀ s', st i p Hd s' → same_view s s' →
     (∀ j m f d, j ∈ Hd → holds s (p_pid p) j m f d → holds s' (p_pid p) j m f d) →
     Q tt s') →
  wp (brelse bi) Q s.
Proof.
  intros Hs Hni (b & Hb & Hr & Hl & Hdv & Hn & Hf & Hf0 & Hdd) Hclean HQ.
  pose proof Hs as [B R A L T Hh Hq]. assert (bi < NBUF)%nat as Hlt by (apply T; set_solver).
  pose proof (bk_buf s B bi b Hlt Hb) as Hbo. destruct (bk_lru s B) as [l Hlru].
  eapply (wp_brelse bi b i p l); [done..|lia|]. intros bc' Hcore Hlru'.
  set (b' := set_b_refcnt (b_refcnt b - 1) (set_b_lock slk0 b)) in *.
  assert (bio_ok (put_buf bi b' s)) as Hok.
  { eapply bio_ok_put; [done|done|done|done|done| |].
    - destruct Hbo. split; try done; simpl; [lia|]. intros _ Hv. rewrite Hn, Hdd. apply Hclean.
      congruence.
    - intros j c Hj Hjl Hc Hsb. apply Hj. symmetry. by eapply (bk_uniq s B bi j b c). }
  set (s' := do_wakeup _ _).
  assert (∀ j c, k_bcache s' !! j = Some c →
    ∃ c0, k_bcache (put_buf bi b' s) !! j = Some c0 ∧ core c0 = core c) as Hlk
    by (intros; by eapply cores_lookup).
  assert (∀ j c, k_bcache (put_buf bi b' s) !! j = Some c →
    ∃ c0, k_bcache s' !! j = Some c0 ∧ core c0 = core c) as Hlk'
    by (intros; by eapply cores_lookup).
  assert (bufs_only s s') as Hbo' by apply bufs_only_brelse.
  assert (∀ j m f d, j ∈ Hd → holds s (p_pid p) j m f d → holds s' (p_pid p) j m f d) as Hkeep.
  { intros j m f' e Hj (c & Hc & E). destruct (Hlk' j c) as (c0 & Hc0 & E0).
    { rewrite put_buf_lookup_ne; [done|]. by intros ->. }
    apply core_fields in E0. exists c0. intuition congruence. }
  apply HQ; [|split|done]; try done.
  - split.
    + eapply (bio_ok_core (put_buf bi b' s)); eauto.
    + by eapply running_only.
    + done.
    + by rewrite (nolock_only _ _ Hbo').
    + intros j Hj. apply T. set_solver.
    + intros j Hj. destruct (Hh j) as (m & f' & e & Hjh); [set_solver|]. eauto.
    + intros j c Hj Hj' Hc. destruct (Hlk j c Hc) as (c0 & Hc0 & E).
      apply core_fields in E as (_&_&_&_&<-&_). destruct (decide (j = bi)) as [->|Hne].
      * rewrite (put_buf_lookup_eq _ _ _ b) in Hc0 by done. simplify_eq. simpl. lia.
      * rewrite put_buf_lookup_ne in Hc0 by done. apply (Hq j); [done|set_solver|done].
  - intros m. transitivity (lblk (put_buf bi b' s) m); [by apply lblk_core|].
    by apply (lblk_put_same bi b).
  - intros m. transitivity (isdirty (put_buf bi b' s) m); [|by apply (isdirty_put_same bi b)].
    by apply isdirty_core.
Qed.
End Specs.

(** Without a pin, a quiet cache shows what the disk holds. *)
Lemma lblk_clean i p s m :
  st i p [] s → ¬ isdirty s m → 0 ≤ m < k_disksize s → k_disk s !! m = Some (lblk s m).
Proof.
  intros Hs Hd Hm. destruct (bk_disk s (st_bio _ _ _ _ Hs) m Hm) as (d & Hdk & _).
  rewrite Hdk. unfold lblk. destruct (List.find _ _) as [b|] eqn:E; [|by rewrite Hdk].
  apply find_some in E as [Hin Hc]. apply caches_true in Hc as (C1 & C2 & C3).
  apply list_elem_of_In, list_elem_of_lookup in Hin as [j Hj].
  apply lookup_take_Some in Hj as [Hj Hjl].
  pose proof (bk_buf s (st_bio _ _ _ _ Hs) j b Hjl Hj) as Hbo.
  rewrite <- Hdk, <- C2. apply Hbo.
  - apply (st_quiet _ _ _ _ Hs j b Hjl); [set_solver|done].
  - destruct (bo_flags _ _ Hbo) as [?|[?|Hf]]; [done|done|].
    exfalso. apply Hd. exists j, b. done.
Qed.

(** ** Boot *)

(** A freshly initialised cache in front of a complete disk. *)
Definition disk_total (D : gmap Z (list Z)) (size : Z) : Prop :=
  ∀ n, 0 ≤ n < size → ∃ d, D !! n = Some d ∧ length d = Z.to_nat BSIZE.

Section Boot.
Implicit Types s : kernel.

Lemma st_boot i p s l :
  lru (k_bcache s) l → core <$> k_bcache s = replicate (S NBUF) (core buf0) →
  disk_total (k_disk s) (k_disksize s) → running s i p → p_state p ≠ SLEEPING →
  k_held s = [] → st i p [] s ∧ ∀ n, ¬ isdirty s n.
Proof.
  intros Hl Hc Hd Hr Hp Hh.
  assert (∀ j b, k_bcache s !! j = Some b → core b = core buf0) as Hb.
  { intros j b Hj. assert ((core <$> k_bcache s) !! j = Some (core b)) as E
      by (by rewrite list_lookup_fmap, Hj).
    rewrite Hc in E. by apply lookup_replicate in E as [-> _]. }
  assert (∀ j b, k_bcache s !! j = Some b → b_flags b = 0 ∧ b_dev b = 0 ∧ b_lock b = slk0 ∧
    b_refcnt b = 0 ∧ b_data b = b_data buf0) as Hf.
  { intros j b Hj. apply Hb, core_fields in Hj as (?&?&?&?&?&?). done. }
  split.
  - split; try done; try (intros j Hj; by apply elem_of_nil in Hj).
    + split; [by exists l| | |done].
      * intros j b Hj Hbj. destruct (Hf j b Hbj) as (E1&E2&E3&E4&E5).
        split; rewrite ?E1, ?E2, ?E3, ?E4, ?E5; try done. by left.
      * intros j k b b' _ _ Hbj _ (E & _). destruct (Hf j b Hbj) as (_&E2&_). congruence.
    + intros j b _ _ Hbj. by apply (Hf j b).
  - intros n (j & b & _ & Hbj & _ & _ & E). destruct (Hf j b Hbj) as (E1&_).
    rewrite E1 in E. done.
Qed.
End Boot.

(** ** A small machine

    Eight blocks on disk, one running process, the cache set up by
    [binit], a log of four blocks at block 2 with one operation outstanding. *)

Definition demo_proc : proc := set_p_state RUNNING (set_p_pid 1 proc0).
(** Block 1 is a superblock with four log blocks from block 2 on. *)
Definition demo_block (n : Z) : list Z :=
  if n =? 1 then put32 16 2 (put32 12 4 (replicate (Z.to_nat BSIZE) 0))
  else replicate (Z.to_nat BSIZE) 0.
Definition demo_disk : gmap Z (list Z) :=
  list_to_map ((λ k, (Z.of_nat k, demo_block (Z.of_nat k))) <$> seq 0 8).
Definition demo_log : log := mkLog 2 4 1 false 1 0 (replicate (Z.to_nat LOGSIZE) 0).
Definition demo_kernel : kernel :=
  set_k_proc (Some 0%nat) (set_k_ptable (<[0%nat := demo_proc]> (k_ptable kernel0))
    (set_k_disk demo_disk (set_k_disksize 8 (set_k_log demo_log kernel0)))).
Definition demo_boot : kernel := run binit demo_kernel.

Lemma demo_disk_lookup n : 0 ≤ n < 8 → demo_disk !! n = Some (demo_block n).
Proof.
  intros Hn. unfold demo_disk. apply elem_of_list_to_map_1.
  - rewrite <- list_fmap_compose. apply NoDup_fmap_2; [intros x y; simpl; lia|apply NoDup_seq].
  - apply list_elem_of_fmap. exists (Z.to_nat n). rewrite Z2Nat.id by lia.
    split; [done|]. apply elem_of_seq. lia.
Qed.

Lemma demo_boot_ok :
  st 0 demo_proc [] demo_boot ∧ (∀ n, ¬ isdirty demo_boot n) ∧
  k_disk demo_boot = demo_disk ∧ k_disksize demo_boot = 8 ∧ k_log demo_boot = demo_log ∧
  k_wtrace demo_boot = [].
Proof.
  assert (wp binit (λ _ s, ∃ bc, s = set_k_bcache bc demo_kernel ∧ lru bc (rev (seq 0 NBUF)) ∧
    core <$> bc = replicate (S NBUF) (core buf0)) demo_kernel) as (_ & bc & E & Hl & Hc)%wp_run.
  { apply wp_binit; [done|by repeat constructor|]. intros bc Hl Hc. exists bc.
    split; [done|]. split; [done|]. by rewrite Hc. }
  unfold demo_boot. rewrite E. clear E.
  destruct (st_boot 0 demo_proc (set_k_bcache bc demo_kernel) (rev (seq 0 NBUF)))
    as [Hs Hd]; [done|done| |done|done|done|done].
  intros n Hn. exists (demo_block n). split; [by apply demo_disk_lookup|].
  unfold demo_block. by destruct (n =? 1).
Qed.
Lemma demo_boot_lru : lru (k_bcache demo_boot) (rev (seq 0 NBUF)).
Proof.
  assert (wp binit (λ _ s, lru (k_bcache s) (rev (seq 0 NBUF))) demo_kernel) as (_ & Hl)%wp_run.
  { apply wp_binit; [done|by repeat constructor|]. done. }
  exact Hl.
Qed.
#[global] Opaque demo_boot demo_disk.

(** ** The cache's contract *)

(** C27. Reading through the cache is coherent.  When block [n] is cached and free,
    or some buffer is idle, [bread] returns a buffer locked by the caller that
    holds the block's logical content -- the cached copy if there is one, the
    disk's otherwise -- and neither the disk, nor the logical content of any
    block, nor the invariant that at most one buffer caches a block, changes. *)
Theorem bread_coherent `{WaitBound} (n : Z) (i : nat) (p : proc) (s : kernel) :
  bio_ok s → running s i p → k_held s = [] → 0 ≤ n < k_disksize s → avail s n →
  wp (bread 1 n) (λ bi s', bio_ok s' ∧ (∀ m, lblk s' m = lblk s m) ∧
    k_disk s' = k_disk s ∧ k_held s' = [] ∧
    ∃ b, k_bcache s' !! bi = Some b ∧ b_lock b = mkSleeplock true (p_pid p) ∧
         b_dev b = 1 ∧ b_blockno b = n ∧ b_data b = lblk s n ∧ b_flags b ≠ 0) s.
Proof.
  intros Hok Hr Hh Hn Hav. apply (wp_bread n i p); [done..|]. intros bi b b' Hld.
  destruct (loaded_ok s _ n bi b b' Hok Hn Hld) as [Hok' Hlb].
  pose proof Hld as [Hlt Hb Hd Hbn _ _ Hlk Hdat Hcase].
  split; [done|]. split; [done|]. split; [done|]. split; [done|].
  exists b'. rewrite (put_buf_lookup_eq _ _ _ b) by done. repeat split; try done.
  destruct Hcase as [(_&_&_&_&->)|(_&_&_&_&->)]; [|done]. by destruct (Z.eqb_spec (b_flags b) 0).
Qed.

Lemma demo_avail n : 0 ≤ n < 8 → avail demo_boot n.
Proof.
  intros Hn. destruct demo_boot_ok as (Hs & Hd & _ & Hsz & _).
  apply (st_avail 0 demo_proc [] demo_boot n []); [exact Hs|set_solver|]. right.
  split; [intros m Hm; by apply Hd in Hm|by apply Nat.ltb_lt].
Qed.

Lemma bread_coherent_witness :
  wp (bread (H := 0%nat) 1 6) (λ bi s', ∃ b, k_bcache s' !! bi = Some b ∧
    b_blockno b = 6 ∧ b_data b = lblk demo_boot 6) demo_boot.
Proof.
  destruct demo_boot_ok as (Hs & _ & _ & Hsz & _).
  eapply wp_mono.
  - apply (bread_coherent (H := 0%nat) 6 0 demo_proc demo_boot (st_bio _ _ _ _ Hs)
      (st_run _ _ _ _ Hs) (st_nolock _ _ _ _ Hs)); [rewrite Hsz; lia|apply demo_avail; lia].
  - intros bi s' (_ & _ & _ & _ & b & H1 & _ & _ & H2 & H3 & _). exists b. auto.
Defined.

(** [bget] implements least-recently-used replacement.  Its two walks along
    the doubly linked list amount to: the buffer that caches the block, if any;
    otherwise the idle buffer (unreferenced and not pinned by the log) that was
    released longest ago; otherwise the panic. *)
Theorem bget_lru `{WaitBound} (s : kernel) (l : list nat) (dev n : Z) :
  lru (k_bcache s) l → k_held s = [] →
  bget dev n s = bget_act dev n (List.find (hit (k_bcache s) dev n) l)
                   (List.find (idle (k_bcache s)) (rev l)) (set_k_held [Lbcache] s).
Proof. intros Hl Hh. by apply bget_scan. Qed.

Lemma bget_lru_witness :
  bget (H := 0%nat) 1 3 demo_boot =
  bget_act (H := 0%nat) 1 3 (List.find (hit (k_bcache demo_boot) 1 3) (rev (seq 0 NBUF)))
    (List.find (idle (k_bcache demo_boot)) (rev (rev (seq 0 NBUF)))) (set_k_held [Lbcache] demo_boot).
Proof.
  apply (bget_lru (H := 0%nat) demo_boot (rev (seq 0 NBUF)) 1 3 demo_boot_lru).
  destruct demo_boot_ok as (Hs & _). exact (st_nolock _ _ _ _ Hs).
Defined.

(** [brelse] keeps the recency list.  Dropping the last reference makes the
    buffer the most recently used one and leaves the order of the others alone;
    dropping another reference leaves the list alone.  The sleep-lock is free
    afterwards and the invariant and all block contents are kept. *)
Theorem brelse_mru (bi : nat) (b : buf) (i : nat) (p : proc) (l : list nat) (s : kernel) :
  bio_ok s → running s i p → k_held s = [] → lru (k_bcache s) l → (bi < NBUF)%nat →
  k_bcache s !! bi = Some b → b_lock b = mkSleeplock true (p_pid p) →
  0 < b_refcnt b < 2 ^ 32 →
  (b_refcnt b = 1 → b_flags b = B_VALID → k_disk s !! b_blockno b = Some (b_data b)) →
  wp (brelse bi) (λ _ s',
    lru (k_bcache s') (if b_refcnt b =? 1 then bi :: filter (λ j, j ≠ bi) l else l) ∧
    bio_ok s' ∧ (∀ m, lblk s' m = lblk s m) ∧ k_disk s' = k_disk s ∧
    ∃ b', k_bcache s' !! bi = Some b' ∧ b_lock b' = slk0 ∧ b_refcnt b' = b_refcnt b - 1) s.
Proof.
  intros Hok Hr Hh Hl Hlt Hb Hlk Href Hcl. pose proof (bk_buf s Hok bi b Hlt Hb) as Hbo.
  eapply (wp_brelse bi b i p l); [done..|]. intros bc' Hcore Hlru.
  set (b' := set_b_refcnt (b_refcnt b - 1) (set_b_lock slk0 b)) in *.
  assert (bio_ok (put_buf bi b' s)) as Hok'.
  { eapply bio_ok_put; [done|done|done|done|done| |].
    - destruct Hbo. split; try done; simpl; [lia|]. intros H0 Hv. apply Hcl; [lia|done].
    - intros j c Hj Hjl Hc Hsb. apply Hj. symmetry. by eapply (bk_uniq s Hok bi j b c). }
  split; [exact Hlru|]. split; [|split; [|split; [done|]]].
  - eapply (bio_ok_core (put_buf bi b' s)); try done. by eexists.
  - intros m. transitivity (lblk (put_buf bi b' s) m); [by apply lblk_core|].
    by apply (lblk_put_same bi b).
  - destruct (cores_lookup _ _ bi b' (eq_sym Hcore)) as (b0 & Hb0 & E%core_fields).
    { apply list_lookup_insert_eq. by eapply lookup_lt_Some. }
    exists b0. split; [done|]. destruct E as (_&_&_&->&->&_). done.
Qed.

Lemma brelse_mru_witness :
  wp (bi ← bread (H := 0%nat) 1 6; brelse bi)
    (λ _ s', ∃ bi, lru (k_bcache s') (bi :: filter (λ j, j ≠ bi) (rev (seq 0 NBUF)))) demo_boot.
Proof.
  destruct demo_boot_ok as (Hs & Hnd & _ & Hsz & _). pose proof demo_boot_lru as Hl.
  assert (avail demo_boot 6) as Hav by (apply demo_avail; lia).
  assert (0 ≤ 6 < k_disksize demo_boot) as Hn by (rewrite Hsz; lia).
  clear Hsz. revert Hs Hnd Hl Hav Hn. generalize demo_boot. intros s Hs Hnd Hl Hav Hn.
  pose proof Hs as [B R A L _ _ Hq]. apply wp_bind, (wp_bread (H := 0%nat) 6 0 demo_proc); [done..|].
  intros bi b b' Hld. destruct (loaded_ok s _ 6 bi b b' B Hn Hld) as [Hok' Hlb].
  pose proof Hld as [Hlt Hb Hd Hbn Hnx Hpv Hlk Hdat Hcase].
  assert (b_refcnt b = 0) as Hr0 by (apply (Hq bi b Hlt); [set_solver|done]).
  assert (b_refcnt b' = 1) as Hr1 by (destruct Hcase as [(_&_&_&->&_)|(_&_&_&->&_)]; lia).
  eapply wp_mono.
  - apply (brelse_mru bi b' 0 demo_proc (rev (seq 0 NBUF)) (put_buf bi b' s)); [done|done|done| |done| |done| |].
    + simpl. by eapply lru_insert.
    + by eapply put_buf_lookup_eq.
    + lia.
    + intros _ Hf. rewrite Hbn, Hdat. change (k_disk (put_buf bi b' s)) with (k_disk s).
      destruct (bk_disk s B 6 Hn) as (d & Hdk & _). rewrite Hdk.
      rewrite <- Hdk. by apply (lblk_clean 0 demo_proc); [|apply Hnd|].
  - intros u s' (Hl' & _). exists bi. rewrite Hr1 in Hl'. exact Hl'.
Defined.
