(* ===== verification/Log.v ===== *)
(** * Log: the write-ahead log (log.c)

    The operations of log.c, one definition per function.  The theorems show
    that [commit] writes the transaction in the order log blocks, header, home
    blocks, cleared header; that recovery from the disk left by a crash at any
    point of that sequence shows either none or all of the transaction; and that
    [begin_op] admits an operation only while the log has room for it. *)

From S2P Require Import Prelude State Lock Bio BufSpec.

(** ** The operations *)

Definition LOGSIZEn : nat := Z.to_nat LOGSIZE.

(** [for (i = 0; i < log.lh.n; i++) body(i)]; the bound is read at each test.
    Every body indexes [lh.block], so [LOGSIZE] iterations are enough. *)
Fixpoint for_lh (fuel i : nat) (body : nat → K unit) : K unit :=
  l ← gets k_log;
  if Z.of_nat i <? lh_n l
  then body i ;; match fuel with O => nofuel | S f => for_lh f (S i) body end
  else mret tt.

(** [log.lh.block[i] = v] *)
Definition set_block (i : nat) (v : Z) : K unit :=
  if (i <? LOGSIZEn)%nat
  then upd_log (λ l, set_lh_block (<[i := v]> (lh_block l)) l)
  else fault "log.lh.block out of range".
(** [log.lh.block[i]] *)
Definition get_block (i : nat) : K Z := l ← gets k_log; deref (lh_block l !! i).

Definition sb_decode (d : list Z) : superblock :=
  mkSuperblock (get32 0 d) (get32 4 d) (get32 8 d) (get32 12 d) (get32 16 d) (get32 20 d)
    (get32 24 d).

Section LogOps.
Context `{WaitBound}.

Definition readsb (dev : Z) : K superblock :=
  bp ← bread (u32 dev) 1;
  d ← get_data bp;
  brelse bp ;;
  mret (sb_decode d).

Definition install_trans : K unit :=
  for_lh LOGSIZEn 0 (λ tail,
    l ← gets k_log;
    lbuf ← bread (u32 (l_dev l)) (u32 (l_start l + Z.of_nat tail + 1));
    b ← get_block tail;
    dbuf ← bread (u32 (l_dev l)) (u32 b);
    d ← get_data lbuf;
    set_data dbuf d ;;
    bwrite dbuf ;;
    brelse lbuf ;;
    brelse dbuf).

Definition read_head : K unit :=
  l ← gets k_log;
  buf ← bread (u32 (l_dev l)) (u32 (l_start l));
  d ← get_data buf;
  upd_log (set_lh_n (s32 (get32 0 d))) ;;
  for_lh LOGSIZEn 0 (λ i,
    d ← get_data buf;
    set_block i (s32 (get32 (4 + 4 * i) d))) ;;
  brelse buf.

Definition write_head : K unit :=
  l ← gets k_log;
  buf ← bread (u32 (l_dev l)) (u32 (l_start l));
  d ← get_data buf;
  set_data buf (put32 0 (u32 (lh_n l)) d) ;;
  for_lh LOGSIZEn 0 (λ i,
    v ← get_block i;
    d ← get_data buf;
    set_data buf (put32 (4 + 4 * i) (u32 v) d)) ;;
  bwrite buf ;;
  brelse buf.

Definition recover_from_log : K unit :=
  read_head ;;
  install_trans ;;
  upd_log (set_lh_n 0) ;;
  write_head.

Definition initlog (dev : Z) : K unit :=
  if 4 + 4 * LOGSIZE >=? BSIZE then panic "initlog: too big logheader" else
  sb ← readsb dev;
  upd_log (λ l, set_l_dev dev (set_l_size (s32 (sb_nlog sb)) (set_l_start (s32 (sb_logstart sb)) l))) ;;
  recover_from_log.

(** The [while(1)] of [begin_op]. *)
Fixpoint begin_op_wait (n : nat) : K unit :=
  l ← gets k_log;
  if l_committing l || (lh_n l + (l_outstanding l + 1) * MAXOPBLOCKS >? LOGSIZE)
  then match n with
       | O => nofuel
       | S n' => sleep ChLog Llog ;; begin_op_wait n'
       end
  else upd_log (λ l, set_l_outstanding (l_outstanding l + 1) l) ;; release Llog.

Definition begin_op : K unit := acquire Llog ;; begin_op_wait wait_bound.

Definition write_log : K unit :=
  for_lh LOGSIZEn 0 (λ tail,
    l ← gets k_log;
    to ← bread (u32 (l_dev l)) (u32 (l_start l + Z.of_nat tail + 1));
    b ← get_block tail;
    from ← bread (u32 (l_dev l)) (u32 b);
    d ← get_data from;
    set_data to d ;;
    bwrite to ;;
    brelse from ;;
    brelse to).

Definition commit : K unit :=
  l ← gets k_log;
  when (lh_n l >? 0)
    (write_log ;;
     write_head ;;
     install_trans ;;
     upd_log (set_lh_n 0) ;;
     write_head).

Definition end_op : K unit :=
  acquire Llog ;;
  upd_log (λ l, set_l_outstanding (l_outstanding l - 1) l) ;;
  l ← gets k_log;
  if l_committing l then panic "log.committing" else
  do_commit ←
    (if l_outstanding l =? 0
     then upd_log (set_l_committing true) ;; mret true
     else wakeup ChLog ;; mret false);
  release Llog ;;
  when do_commit
    (commit ;;
     acquire Llog ;;
     upd_log (set_l_committing false) ;;
     wakeup ChLog ;;
     release Llog).

(** The loop of [log_write] that looks for the block in the transaction. *)
Fixpoint log_scan (fuel i : nat) (blockno : Z) : K nat :=
  l ← gets k_log;
  if Z.of_nat i <? lh_n l
  then v ← get_block i;
       if u32 v =? blockno then mret i
       else match fuel with O => nofuel | S f => log_scan f (S i) blockno end
  else mret i.

Definition log_write (bi : nat) : K unit :=
  l ← gets k_log;
  if (lh_n l >=? LOGSIZE) || (lh_n l >=? l_size l - 1) then panic "too big a transaction" else
  if l_outstanding l <? 1 then panic "log_write outside of trans" else
  acquire Llog ;;
  b ← get_buf bi;
  i ← log_scan LOGSIZEn 0 (b_blockno b);
  set_block i (s32 (b_blockno b)) ;;
  l ← gets k_log;
  when (Z.of_nat i =? lh_n l) (upd_log (set_lh_n (lh_n l + 1))) ;;
  upd_buf bi (λ b, set_b_flags (Z.lor (b_flags b) B_DIRTY) b) ;;
  release Llog.
End LogOps.

(** ** Sequences of disk writes *)

Abbreviation writes := (list (Z * list Z)).

Definition apply_writes (ws : writes) (D : gmap Z (list Z)) : gmap Z (list Z) :=
  foldl (λ D w, <[w.1 := w.2]> D) D ws.
Definition overlay (ws : writes) (f : Z → list Z) : Z → list Z :=
  foldl (λ f w m, if decide (m = w.1) then w.2 else f m) f ws.

(** From [s] to [s'] exactly the writes [ws] reached the disk, in that order. *)
Record wrote (ws : writes) (s s' : kernel) : Prop := {
  wr_only : ∃ lg, bufs_only (set_k_log lg s) s';
  wr_disk : k_disk s' = apply_writes ws (k_disk s);
  wr_trace : k_wtrace s' = reverse ws ++ k_wtrace s;
  wr_lblk : ∀ m, lblk s' m = overlay ws (lblk s) m;
  wr_dirty : ∀ m, isdirty s' m ↔ isdirty s m ∧ m ∉ ws.*1 }.

Section Writes.
Implicit Types (ws : writes) (s : kernel).

Lemma apply_writes_app ws1 ws2 D :
  apply_writes (ws1 ++ ws2) D = apply_writes ws2 (apply_writes ws1 D).
Proof. apply foldl_app. Qed.
Lemma overlay_app ws1 ws2 f : overlay (ws1 ++ ws2) f = overlay ws2 (overlay ws1 f).
Proof. apply foldl_app. Qed.

Lemma overlay_ext ws f g m : f m = g m → overlay ws f m = overlay ws g m.
Proof.
  revert f g. induction ws as [|w ws IH]; intros f g Hfg; simpl; [done|].
  apply IH. by rewrite Hfg.
Qed.

Lemma overlay_notin ws f m : m ∉ ws.*1 → overlay ws f m = f m.
Proof.
  revert f. induction ws as [|w ws IH]; intros f Hm; simpl; [done|].
  rewrite fmap_cons, not_elem_of_cons in Hm. destruct Hm as [Hne Hm].
  rewrite IH by done. by rewrite decide_False.
Qed.

Lemma overlay_id ws f m :
  (∀ w, w ∈ ws → w.1 = m → w.2 = f m) → overlay ws f m = f m.
Proof.
  induction ws as [|w ws IH] using rev_ind; intros Hw; [done|].
  rewrite overlay_app. simpl. case_decide as E.
  - apply Hw; [set_solver|done].
  - apply IH. intros w' Hw'. apply Hw. set_solver.
Qed.

(** A map of writes with distinct targets. *)
Lemma overlay_lookup ws f w :
  NoDup ws.*1 → w ∈ ws → overlay ws f w.1 = w.2.
Proof.
  intros Hnd (l1 & l2 & ->)%list_elem_of_split. rewrite overlay_app. simpl.
  rewrite overlay_notin; [by rewrite decide_True|].
  rewrite fmap_app, fmap_cons in Hnd. apply NoDup_app in Hnd as (_ & _ & Hnd).
  by apply NoDup_cons in Hnd as [? _].
Qed.

Lemma apply_writes_notin ws D m : m ∉ ws.*1 → apply_writes ws D !! m = D !! m.
Proof.
  revert D. induction ws as [|w ws IH]; intros D Hm; simpl; [done|].
  rewrite fmap_cons, not_elem_of_cons in Hm. destruct Hm as [Hne Hm].
  rewrite IH by done. by rewrite lookup_insert_ne.
Qed.

Lemma apply_writes_overlay ws D f m :
  D !! m = Some (f m) → apply_writes ws D !! m = Some (overlay ws f m).
Proof.
  revert D f. induction ws as [|w ws IH]; intros D f Hm; simpl; [done|].
  apply (IH _ (λ m, if decide (m = w.1) then w.2 else f m)).
  case_decide as E; [subst; apply lookup_insert_eq|]. by rewrite lookup_insert_ne.
Qed.

Lemma wrote_nil s s' : same_view s s' → wrote [] s s'.
Proof.
  intros [H1 H2 H3 H4 H5]. split; try done.
  - exists (k_log s). replace (set_k_log (k_log s) s) with s by (by destruct s). done.
  - intros m. rewrite H3. set_solver.
Qed.

Lemma bufs_only_set_log lg s s' :
  bufs_only s s' → bufs_only (set_k_log lg s) (set_k_log lg s').
Proof.
  intros (bc & pt & d & w & -> & Hpt). exists bc, pt, d, w.
  split; [by destruct s|done].
Qed.

Lemma wrote_app ws1 ws2 s1 s2 s3 :
  wrote ws1 s1 s2 → wrote ws2 s2 s3 → wrote (ws1 ++ ws2) s1 s3.
Proof.
  intros [(g1 & A1) A2 A3 A4 A5] [(g2 & B1) B2 B3 B4 B5]. split.
  - exists g2. eapply bufs_only_trans; [|exact B1].
    by apply (bufs_only_set_log g2) in A1.
  - by rewrite apply_writes_app, B2, A2.
  - by rewrite reverse_app, <- app_assoc, B3, A3.
  - intros m. rewrite B4, overlay_app. by apply overlay_ext.
  - intros m. rewrite B5, A5, fmap_app, not_elem_of_app. tauto.
Qed.

Lemma wrote_set_log ws lg s s' : wrote ws s s' → wrote ws s (set_k_log lg s').
Proof.
  intros [(g1 & A1) A2 A3 A4 A5]. split; try done.
  exists lg. by apply (bufs_only_set_log lg) in A1.
Qed.
End Writes.

(** ** Copying one block *)

Section Copy.
Context `{WaitBound}.
Context (i : nat) (p : proc).
Implicit Types s : kernel.

Lemma wp_get_block k b (Q : Z → kernel → Prop) s :
  lh_block (k_log s) !! k = Some b → Q b s → wp (get_block k) Q s.
Proof. intros Hb HQ. unfold get_block. by apply wp_bind, wp_gets, (wp_deref _ b). Qed.

Lemma st_perm Hd Hd' s : Hd ≡ₚ Hd' → st i p Hd s → st i p Hd' s.
Proof. intros E [B R A L T Hh Hq]. split; try done; setoid_rewrite <- E; done. Qed.

Lemma st_set_log lg Hd s : st i p Hd s → st i p Hd (set_k_log lg s).
Proof.
  intros [[B1 B2 B3 B4] R A L T Hh Hq]. split; try done. split; try done.
  intros j b Hj Hb. destruct (B2 j b Hj Hb). by split.
Qed.

Lemma spec_bwrite_wrote Hd s bi n f d (Q : unit → kernel → Prop) :
  st i p (bi :: Hd) s → bi ∉ Hd → holds s (p_pid p) bi n f d →
  (∀ s', st i p (bi :: Hd) s' → wrote [(n, d)] s s' → k_log s' = k_log s →
     holds s' (p_pid p) bi n B_VALID d →
     (∀ j m f d, j ∈ Hd → holds s (p_pid p) j m f d → holds s' (p_pid p) j m f d) →
     Q tt s') →
  wp (bwrite bi) Q s.
Proof.
  intros Hs Hni Hh HQ. destruct (st_lblk i p _ s bi n f d Hs ltac:(set_solver) Hh) as [Hl _].
  eapply (spec_bwrite i p); [done..|]. intros s' Hs' Ho Hd' Ht Hlb Hdy Hh' Hk.
  apply HQ; try done; [|by apply bufs_only_log]. split; try done.
  - exists (k_log s). replace (set_k_log (k_log s) s) with s by (by destruct s). done.
  - intros m. simpl. rewrite Hlb. case_decide; congruence.
  - intros m. rewrite Hdy. simpl. set_solver.
Qed.

(** The second half of both copy loops. *)
Lemma wp_copy src dst s ns fs ds nd fd dd (Q : unit → kernel → Prop) :
  st i p [dst; src] s → dst ≠ src →
  holds s (p_pid p) src ns fs ds → holds s (p_pid p) dst nd fd dd →
  (fs = B_VALID → k_disk s !! ns = Some ds) → length ds = Z.to_nat BSIZE →
  (∀ s', st i p [] s' → wrote [(nd, ds)] s s' → k_log s' = k_log s → Q tt s') →
  wp (d ← get_data src; set_data dst d ;; bwrite dst ;; brelse src ;; brelse dst) Q s.
Proof.
  intros Hs Hne Hsrc Hdst Hcl Hlen HQ.
  assert (dst ∉ [src]) as Hni by set_solver.
  assert (ns ≠ nd) as Hnn by (eapply (not_held_other i p _ s dst); eauto; set_solver).
  apply wp_bind. eapply (spec_get_data i p _ s src); [exact Hs|set_solver|exact Hsrc|].
  apply wp_bind. eapply (spec_set_data i p [src]); [exact Hs|done|exact Hdst|done|].
  intros s1 Hs1 Ho1 Hd1 Ht1 Hl1 Hdy1 Hh1 Hk1.
  apply wp_bind. eapply (spec_bwrite i p [src]); [exact Hs1|done|exact Hh1|].
  intros s2 Hs2 Ho2 Hd2 Ht2 Hl2 Hdy2 Hh2 Hk2.
  assert (holds s2 (p_pid p) src ns fs ds) as Hsrc2 by (apply Hk2, Hk1, Hsrc; set_solver).
  apply wp_bind. eapply (spec_brelse i p [dst] s2 src);
    [eapply st_perm; [|exact Hs2]; apply Permutation_swap|set_solver|exact Hsrc2| |].
  { intros E. rewrite Hd2, Hd1, lookup_insert_ne by done. by apply Hcl. }
  intros s3 Hs3 V3 Hk3.
  eapply (spec_brelse i p [] s3 dst); [exact Hs3|set_solver|apply Hk3, Hh2; set_solver| |].
  { intros _. rewrite (sv_disk _ _ V3), Hd2. apply lookup_insert_eq. }
  intros s4 Hs4 V4 _. destruct V3 as [V3a V3b V3c V3d V3e], V4 as [V4a V4b V4c V4d V4e].
  assert (bufs_only s s4) as Ho by eauto using bufs_only_trans.
  apply HQ; [done| |by apply bufs_only_log]. split.
  - exists (k_log s). replace (set_k_log (k_log s) s) with s by (by destruct s). done.
  - simpl. congruence.
  - change (reverse [(nd, ds)]) with [(nd, ds)]. simpl. congruence.
  - intros m. simpl. by rewrite V4b, V3b, Hl2, Hl1.
  - intros m. rewrite V4c, V3c, Hdy2, Hdy1. set_solver.
Qed.

Lemma lblk_len s n : bio_ok s → 0 ≤ n < k_disksize s → length (lblk s n) = Z.to_nat BSIZE.
Proof.
  intros Hok Hn. unfold lblk. destruct (List.find _ _) as [c|] eqn:E.
  - apply find_some in E as [Hin _]. apply list_elem_of_In, list_elem_of_lookup in Hin as [j Hj].
    apply lookup_take_Some in Hj as [Hj Hjl]. by eapply (bk_buf s Hok).
  - destruct (bk_disk s Hok n Hn) as (d & -> & Hd). done.
Qed.

Lemma room_view s s' Hd n : (∀ m, isdirty s' m ↔ isdirty s m) → room s Hd n → room s' Hd n.
Proof.
  intros E [Hd'|(L & HL & Hlen)]; [left; by rewrite E|]. right. exists L.
  split; [|done]. intros m. rewrite E. apply HL.
Qed.

(** The first half: a log block and the home block [lh.block[t]]. *)
Lemma wp_read2 A B t s (k : nat → nat → K unit) (Q : unit → kernel → Prop) :
  st i p [] s → 0 ≤ A < k_disksize s → 0 ≤ B < k_disksize s → A ≠ B →
  k_disksize s < 2 ^ 31 → lh_block (k_log s) !! t = Some B →
  room s [] A → (∀ j, room s [j] B) →
  (∀ x y s' fA fB, st i p [y; x] s' → y ≠ x → same_view s s' →
     holds s' (p_pid p) x A fA (lblk s A) → holds s' (p_pid p) y B fB (lblk s B) →
     (fA = B_VALID → k_disk s' !! A = Some (lblk s A)) →
     (fB = B_VALID → k_disk s' !! B = Some (lblk s B)) →
     wp (k x y) Q s') →
  wp (x ← bread 1 A; b ← get_block t; y ← bread 1 (u32 b); k x y) Q s.
Proof.
  intros Hs HA HB Hne Hsz Ht RA RB Hk. apply wp_bind.
  eapply (spec_bread i p []); [done..|intros ???; set_solver|].
  intros x s1 fA Hs1 _ V1 Hx Hfx Hcx _. apply wp_bind.
  assert (k_disksize s1 = k_disksize s) as Esz by apply bufs_only_disksize, V1.
  apply (wp_get_block t B); [by rewrite (bufs_only_log _ _ (sv_only _ _ V1))|].
  rewrite u32_small by lia. apply wp_bind.
  eapply (spec_bread i p [x]);
    [done|by rewrite Esz|eapply room_view; [apply V1|done]| |].
  { intros j f d Hj%list_elem_of_singleton Hh. subst j.
    destruct (holds_fun _ _ _ _ _ _ _ _ _ Hx Hh). done. }
  intros y s2 fB Hs2 Hni V2 Hy Hfy Hcy Hk2.
  rewrite (sv_lblk _ _ V1), (sv_disk _ _ V1) in *.
  apply (Hk x y s2 fA fB); [done|set_solver| |apply Hk2; [set_solver|done]|done| |];
    rewrite ?(sv_disk _ _ V2), ?(sv_disk _ _ V1); try done.
  destruct V1 as [V1a V1b V1c V1d V1e], V2 as [V2a V2b V2c V2d V2e].
  split; [by eapply bufs_only_trans| | |congruence..]; intros m; [by rewrite V2b, V1b|].
  by rewrite V2c, V1c.
Qed.
End Copy.

(** ** The header block *)

Definition hdr_encode (n : Z) (bs : list Z) (d : list Z) : list Z :=
  foldl (λ d i, put32 (4 + 4 * i) (u32 (nth i bs 0)) d) (put32 0 (u32 n) d) (seq 0 (length bs)).

Section Header.
Implicit Types (d bs : list Z).

Definition hdr_fields (bs d : list Z) (k : nat) : list Z :=
  foldl (λ d i, put32 (4 + 4 * i) (u32 (nth i bs 0)) d) d (seq 0 k).

Lemma hdr_fields_S bs d k :
  hdr_fields bs d (S k) = put32 (4 + 4 * k) (u32 (nth k bs 0)) (hdr_fields bs d k).
Proof. unfold hdr_fields. by rewrite seq_S, foldl_app. Qed.

Lemma length_hdr_fields bs d k :
  (4 + 4 * k ≤ length d)%nat → length (hdr_fields bs d k) = length d.
Proof.
  induction k as [|k IH]; intros Hk; [done|].
  rewrite hdr_fields_S, length_put32; rewrite IH by lia; [done|lia].
Qed.

Lemma get32_hdr_fields_other bs d k off :
  (4 + 4 * k ≤ length d)%nat → (off + 4 ≤ 4 ∨ 4 + 4 * k ≤ off)%nat →
  get32 off (hdr_fields bs d k) = get32 off d.
Proof.
  induction k as [|k IH]; intros Hk Hoff; [done|].
  rewrite hdr_fields_S, get32_put32_ne; [apply IH; lia| |lia].
  rewrite length_hdr_fields by lia. lia.
Qed.

Lemma get32_hdr_fields bs d k j :
  (4 + 4 * k ≤ length d)%nat → (j < k)%nat →
  get32 (4 + 4 * j) (hdr_fields bs d k) = u32 (nth j bs 0).
Proof.
  induction k as [|k IH]; intros Hk Hj; [lia|].
  rewrite hdr_fields_S. destruct (decide (j = k)) as [->|Hne].
  - apply get32_put32_eq; [rewrite length_hdr_fields by lia; lia|apply u32_range].
  - rewrite get32_put32_ne; [apply IH; lia|rewrite length_hdr_fields by lia; lia|lia].
Qed.

Lemma hdr_encode_fields n bs d :
  hdr_encode n bs d = hdr_fields bs (put32 0 (u32 n) d) (length bs).
Proof. done. Qed.

Lemma length_hdr_encode n bs d :
  (4 + 4 * length bs ≤ length d)%nat → length (hdr_encode n bs d) = length d.
Proof.
  intros H. rewrite hdr_encode_fields, length_hdr_fields;
    rewrite length_put32 by lia; lia.
Qed.

Lemma hdr_decode_n n bs d :
  (4 + 4 * length bs ≤ length d)%nat → get32 0 (hdr_encode n bs d) = u32 n.
Proof.
  intros H. rewrite hdr_encode_fields, get32_hdr_fields_other;
    [|rewrite length_put32 by lia; lia|lia].
  apply get32_put32_eq; [lia|apply u32_range].
Qed.

Lemma hdr_decode_block n bs d j :
  (4 + 4 * length bs ≤ length d)%nat → (j < length bs)%nat →
  get32 (4 + 4 * j) (hdr_encode n bs d) = u32 (nth j bs 0).
Proof.
  intros H Hj. rewrite hdr_encode_fields, get32_hdr_fields; [done| |done].
  rewrite length_put32 by lia. lia.
Qed.
End Header.

(** ** Loops over the header *)

(** The blocks of the transaction. *)
Definition txn (l : log) : list Z := take (Z.to_nat (lh_n l)) (lh_block l).

Section ForLh.
Implicit Types s : kernel.

Lemma wp_for_lh (I : nat → kernel → Prop) fuel n (body : nat → K unit) s :
  (n ≤ fuel)%nat →
  (∀ k s, (k ≤ n)%nat → I k s → lh_n (k_log s) = Z.of_nat n) →
  (∀ k s, (k < n)%nat → I k s → wp (body k) (λ _ s', I (S k) s') s) →
  I O s → wp (for_lh fuel 0 body) (λ _ s', I n s') s.
Proof.
  intros Hf Hn Hb H0. cut (∀ j fuel s, (n ≤ fuel + (n - j))%nat → (j ≤ n)%nat →
    I (n - j)%nat s → wp (for_lh fuel (n - j) body) (λ _ s', I n s') s).
  { intros Hc. specialize (Hc n fuel s). rewrite Nat.sub_diag in Hc. by apply Hc; [lia|lia|]. }
  clear s H0. intros j. induction j as [|j IH]; intros f s Hfj Hj HI.
  - rewrite Nat.sub_0_r in *. destruct f; simpl; apply wp_bind, wp_gets;
      rewrite (Hn n s), Z.ltb_irrefl by done; by apply wp_ret.
  - destruct f as [|f]; [lia|]. simpl. apply wp_bind, wp_gets.
    rewrite (Hn (n - S j)%nat s) by (done || lia).
    rewrite (proj2 (Z.ltb_lt _ _)) by lia. apply wp_bind.
    eapply wp_mono; [apply Hb; [lia|done]|]. intros [] s' HI'. cbv beta in HI'.
    replace (S (n - S j)) with (n - j)%nat in * by lia. apply IH; [lia|lia|done].
Qed.

End ForLh.

(** ** The log in memory *)

(** A block of the disk that the log does not own. *)
Definition home_block (s : kernel) (m : Z) : Prop :=
  0 ≤ m < k_disksize s ∧
  ¬ (l_start (k_log s) ≤ m < l_start (k_log s) + l_size (k_log s)).

Record log_ok (s : kernel) : Prop := {
  lk_dev : l_dev (k_log s) = 1;
  lk_len : length (lh_block (k_log s)) = LOGSIZEn;
  lk_n : 0 ≤ lh_n (k_log s) < Z.of_nat NBUF;
  lk_size : lh_n (k_log s) < l_size (k_log s);
  lk_start : 0 ≤ l_start (k_log s) ∧ l_start (k_log s) + l_size (k_log s) ≤ k_disksize s;
  lk_small : k_disksize s < 2 ^ 31;
  lk_home : ∀ b, b ∈ txn (k_log s) → home_block s b }.

(** Outside [commit] the pinned blocks are those of the transaction. *)
Record txn_ok (s : kernel) : Prop := {
  tx_nodup : NoDup (txn (k_log s));
  tx_dirty : ∀ m, isdirty s m ↔ m ∈ txn (k_log s) }.

Section LogSpecs.
Context `{WaitBound}.
Context (i : nat) (p : proc).
Implicit Types s : kernel.

Definition hdr_block (s : kernel) : list Z :=
  hdr_encode (lh_n (k_log s)) (txn (k_log s)) (lblk s (l_start (k_log s))).

Lemma length_txn s : log_ok s → Z.of_nat (length (txn (k_log s))) = lh_n (k_log s).
Proof.
  intros Hk. unfold txn. rewrite length_take, (lk_len _ Hk).
  destruct (lk_n _ Hk). change LOGSIZEn with NBUF. lia.
Qed.

Lemma nth_txn l k : (k < Z.to_nat (lh_n l))%nat → nth k (txn l) 0 = nth k (lh_block l) 0.
Proof. intros Hk. rewrite !nth_lookup. unfold txn. by rewrite lookup_take_lt. Qed.

Lemma txn_lookup s k b :
  txn (k_log s) !! k = Some b → lh_block (k_log s) !! k = Some b.
Proof. intros Hb. by apply lookup_take_Some in Hb as [? _]. Qed.

(** The header buffer while [write_head] fills it. *)
Record hdr_inv (s : kernel) (bi : nat) (n : Z) (bs : list Z) (k : nat) (s' : kernel) : Prop := {
  hi_st : st i p [bi] s';
  hi_only : bufs_only s s';
  hi_disk : k_disk s' = k_disk s;
  hi_trace : k_wtrace s' = k_wtrace s;
  hi_holds : ∃ f, holds s' (p_pid p) bi (l_start (k_log s)) f
               (hdr_fields bs (put32 0 (u32 n) (lblk s (l_start (k_log s)))) k);
  hi_lblk : ∀ m, m ≠ l_start (k_log s) → lblk s' m = lblk s m;
  hi_dirty : ∀ m, isdirty s' m ↔ isdirty s m }.

Lemma hdr_inv_set s bi n bs k s1 d (Q : unit → kernel → Prop) :
  bufs_only s s1 → k_disk s1 = k_disk s → k_wtrace s1 = k_wtrace s →
  (∀ m, m ≠ l_start (k_log s) → lblk s1 m = lblk s m) →
  (∀ m, isdirty s1 m ↔ isdirty s m) → st i p [bi] s1 →
  (∃ f, holds s1 (p_pid p) bi (l_start (k_log s)) f d) →
  ∀ d', d' = hdr_fields bs (put32 0 (u32 n) (lblk s (l_start (k_log s)))) k →
  length d' = Z.to_nat BSIZE →
  (∀ s', hdr_inv s bi n bs k s' → Q tt s') → wp (set_data bi d') Q s1.
Proof.
  intros H1 H2 H3 H4 H5 H6 [f H7] d' -> Hlen HQ.
  eapply (spec_set_data i p []); [done|set_solver|done|done|].
  intros s' S1 S2 S3 S4 S5 S6 S7 _. apply HQ. split; try congruence.
  - by eapply bufs_only_trans.
  - by exists f.
  - intros m Hm. rewrite S5, decide_False by done. by apply H4.
  - intros m. by rewrite S6.
Qed.

Lemma wp_write_head L s (Q : unit → kernel → Prop) :
  st i p [] s → log_ok s → (∀ m, isdirty s m → m ∈ L) → (length L < NBUF)%nat →
  (∀ s', st i p [] s' → wrote [(l_start (k_log s), hdr_block s)] s s' →
     k_log s' = k_log s → Q tt s') →
  wp write_head Q s.
Proof.
  intros Hs Hk HL Hlen HQ. pose proof (length_txn s Hk) as Htn.
  pose proof Hk as [K1 K2 K3 K4 K5 K6 K7].
  set (B := l_start (k_log s)) in *. set (l := k_log s) in *. set (n := lh_n l) in *.
  assert (length (lblk s B) = Z.to_nat BSIZE) as HlB by (apply lblk_len; [apply Hs|lia]).
  assert (length (put32 0 (u32 n) (lblk s B)) = Z.to_nat BSIZE) as HlP
    by (rewrite length_put32; rewrite HlB; [done|unfold BSIZE; lia]).
  assert (∀ k, (k ≤ length (txn l))%nat →
    length (hdr_fields (txn l) (put32 0 (u32 n) (lblk s B)) k) = Z.to_nat BSIZE) as HlF.
  { intros k Hkk. rewrite length_hdr_fields; rewrite HlP; [done|].
    unfold BSIZE, NBUF in *. lia. }
  unfold write_head. apply wp_bind, wp_gets. fold l. rewrite K1, (u32_small 1) by done.
  rewrite (u32_small (l_start l)) by (fold B; lia). fold B. apply wp_bind.
  eapply (spec_bread i p []); [done|lia| |intros ???; set_solver|].
  { right. exists L. split; [done|]. simpl. lia. }
  intros bi s1 f Hs1 Hni V1 Hh1 _ _ _. apply wp_bind.
  eapply (spec_get_data i p [bi]); [done|set_solver|done|]. apply wp_bind.
  eapply (hdr_inv_set s bi n (txn l) 0); [apply V1|apply V1|apply V1|intros; apply V1|apply V1|
    done|by exists f|done|done|]. clear s1 f Hs1 Hni V1 Hh1. intros s1 I1. apply wp_bind.
  assert (∀ k s', hdr_inv s bi n (txn l) k s' → k_log s' = l) as Hkl
    by (intros k s' Hi; by apply bufs_only_log, Hi).
  eapply wp_mono.
  { apply (wp_for_lh (hdr_inv s bi n (txn l)) _ (length (txn l))); [| | |exact I1].
    - change LOGSIZEn with NBUF. lia.
    - intros k s' _ Hi. rewrite (Hkl k s' Hi). by rewrite Htn.
    - intros k s' Hkk Hi. destruct (lookup_lt_is_Some_2 (txn l) k Hkk) as [b Hb].
      apply wp_bind, (wp_get_block k b).
      { rewrite (Hkl k s' Hi). by apply (txn_lookup s). }
      destruct Hi as [J1 J2 J3 J4 [f J5] J6 J7]. apply wp_bind.
      eapply (spec_get_data i p [bi]); [done|set_solver|done|].
      assert (u32 b = u32 (nth k (txn l) 0)) as Eb by (by rewrite nth_lookup, Hb).
      eapply (hdr_inv_set s bi n (txn l) (S k) s' _ _ J2 J3 J4 J6 J7 J1
        (ex_intro _ f J5)); [| |done].
      + rewrite hdr_fields_S. by rewrite Eb.
      + rewrite Eb, <- hdr_fields_S. apply HlF. lia. }
  intros [] s2 [J1 J2 J3 J4 [f J5] J6 J7]. apply wp_bind.
  eapply (spec_bwrite i p []); [done|set_solver|exact J5|].
  intros s3 S1 S2 S3 S4 S5 S6 S7 _.
  eapply (spec_brelse i p []); [done|set_solver|exact S7| |].
  { intros _. rewrite S3. apply lookup_insert_eq. }
  intros s4 T1 [T2 T3 T4 T5 T6] _.
  assert (bufs_only s s4) as Ho by eauto using bufs_only_trans.
  apply HQ; [done| |by apply bufs_only_log]. split.
  - exists l. replace (set_k_log l s) with s by (by destruct s). done.
  - rewrite T5, S3, J3. done.
  - rewrite T6, S4, J4. done.
  - intros m. simpl. rewrite T3, S5. case_decide as E; [subst m|by apply J6].
    by destruct (st_lblk i p _ s2 bi _ _ _ J1 ltac:(set_solver) J5) as [E _].
  - intros m. rewrite T4, S6, J7. simpl. set_solver.
Qed.

(** The writes of [write_log] and of [install_trans]. *)
Definition log_writes (s : kernel) (k : nat) : writes :=
  (λ j, (l_start (k_log s) + Z.of_nat j + 1, lblk s (nth j (txn (k_log s)) 0))) <$> seq 0 k.
Definition home_writes (s : kernel) (k : nat) : writes :=
  (λ j, (nth j (txn (k_log s)) 0, lblk s (l_start (k_log s) + Z.of_nat j + 1))) <$> seq 0 k.

Lemma log_writes_S s k :
  log_writes s (S k) =
  log_writes s k ++ [(l_start (k_log s) + Z.of_nat k + 1, lblk s (nth k (txn (k_log s)) 0))].
Proof. unfold log_writes. by rewrite seq_S, fmap_app. Qed.
Lemma home_writes_S s k :
  home_writes s (S k) =
  home_writes s k ++ [(nth k (txn (k_log s)) 0, lblk s (l_start (k_log s) + Z.of_nat k + 1))].
Proof. unfold home_writes. by rewrite seq_S, fmap_app. Qed.

Lemma log_writes_fst s k m :
  m ∈ (log_writes s k).*1 ↔ l_start (k_log s) < m ≤ l_start (k_log s) + Z.of_nat k.
Proof.
  unfold log_writes. rewrite <- list_fmap_compose, list_elem_of_fmap. split.
  - intros (j & -> & Hj%elem_of_seq). simpl. lia.
  - intros Hm. exists (Z.to_nat (m - l_start (k_log s) - 1)). simpl.
    split; [lia|]. apply elem_of_seq. lia.
Qed.
Lemma home_writes_fst s k :
  (k ≤ length (txn (k_log s)))%nat → (home_writes s k).*1 = take k (txn (k_log s)).
Proof.
  intros Hk. unfold home_writes. rewrite <- list_fmap_compose. apply list_eq. intros j.
  rewrite list_lookup_fmap. destruct (decide (j < k)%nat).
  - rewrite lookup_seq_lt, lookup_take_lt by done. simpl.
    destruct (lookup_lt_is_Some_2 (txn (k_log s)) j) as [b Hb]; [lia|].
    by rewrite nth_lookup, Hb.
  - rewrite lookup_seq_ge, lookup_take_ge by lia. done.
Qed.

Lemma txn_home s k :
  log_ok s → (k < length (txn (k_log s)))%nat →
  let b := nth k (txn (k_log s)) 0 in
  txn (k_log s) !! k = Some b ∧ lh_block (k_log s) !! k = Some b ∧ b ∈ txn (k_log s) ∧
  0 ≤ b < k_disksize s ∧ ¬ (l_start (k_log s) ≤ b < l_start (k_log s) + l_size (k_log s)).
Proof.
  intros Hk Hlt. destruct (lookup_lt_is_Some_2 _ _ Hlt) as [b Hb].
  rewrite nth_lookup, Hb. simpl. assert (b ∈ txn (k_log s)) as Hin by (by eapply list_elem_of_lookup_2).
  split; [done|]. split; [by apply txn_lookup|]. split; [done|]. by apply Hk.
Qed.

Record copy_inv (ws : writes) (s s' : kernel) : Prop := {
  ci_st : st i p [] s';
  ci_wrote : wrote ws s s';
  ci_log : k_log s' = k_log s }.

Lemma copy_inv_snoc ws w s s1 s2 :
  copy_inv ws s s1 → st i p [] s2 → wrote [w] s1 s2 → k_log s2 = k_log s1 →
  copy_inv (ws ++ [w]) s s2.
Proof. intros [A B C] D E F. split; [done|by eapply wrote_app|congruence]. Qed.

Lemma wrote_disksize ws s s' : wrote ws s s' → k_disksize s' = k_disksize s.
Proof. intros [(lg & Ho%bufs_only_disksize) _ _ _ _]. done. Qed.

Lemma wp_write_log s (Q : unit → kernel → Prop) :
  st i p [] s → log_ok s → txn_ok s →
  (∀ s', copy_inv (log_writes s (length (txn (k_log s)))) s s' → Q tt s') →
  wp write_log Q s.
Proof.
  intros Hs Hk Ht HQ. pose proof (length_txn s Hk) as Htn.
  pose proof Hk as [K1 K2 K3 K4 K5 K6 K7].
  apply (wp_mono _ (λ _, copy_inv (log_writes s (length (txn (k_log s)))) s));
    [|intros [] s'; apply HQ].
  apply (wp_for_lh (λ k, copy_inv (log_writes s k) s)).
  - change LOGSIZEn with NBUF. lia.
  - intros k s' _ Hi. by rewrite (ci_log _ _ _ Hi), Htn.
  - intros k s' Hkk Hi. pose proof Hi as [I1 I2 I3].
    destruct (txn_home s k Hk Hkk) as (B1 & B2 & B3 & B4 & B5).
    pose proof (wrote_disksize _ _ _ I2) as Esz. rewrite log_writes_S.
    set (b := nth k (txn (k_log s)) 0) in *. set (A := l_start (k_log s) + Z.of_nat k + 1).
    assert (∀ m, isdirty s' m ↔ m ∈ txn (k_log s)) as Hdy.
    { intros m. rewrite (wr_dirty _ _ _ I2), (tx_dirty _ Ht), log_writes_fst. split; [tauto|].
      intros Hm. split; [done|]. destruct (K7 m Hm). lia. }
    assert (lblk s' b = lblk s b) as Hlb.
    { rewrite (wr_lblk _ _ _ I2), overlay_notin; [done|]. rewrite log_writes_fst. lia. }
    apply wp_bind, wp_gets. rewrite I3, K1, (u32_small 1) by done.
    rewrite (u32_small (_ + _ + _)) by lia. fold A.
    apply (wp_read2 i p A b); [done|lia|lia|lia|lia|by rewrite I3| | |].
    { right. exists (txn (k_log s)). split; [intros m; by rewrite Hdy|]. simpl. lia. }
    { intros j. left. by rewrite Hdy. }
    intros x y s1 fA fB Hs1 Hne V1 HA HB CA CB. rewrite Hlb in *.
    assert (length (lblk s b) = Z.to_nat BSIZE) by (apply lblk_len; [apply Hs|lia]).
    eapply (wp_copy i p y x); [eapply st_perm; [|exact Hs1]; apply Permutation_swap|done..|].
    intros s2 Hs2 W2 L2. eapply copy_inv_snoc; [exact Hi|done| |].
    + change [(A, lblk s b)] with ([] ++ [(A, lblk s b)]). eapply wrote_app; [|done].
      by apply wrote_nil.
    + rewrite L2. by apply bufs_only_log, V1.
  - split; [done|apply wrote_nil, same_view_refl|done].
Qed.

(** Room for the two buffers of an installation step: few pins, or the home
    blocks themselves are pinned, as after [write_log]. *)
Definition install_room (s : kernel) (L : list Z) : Prop :=
  (∀ m, isdirty s m → m ∈ L) ∧ (length L < NBUF)%nat ∧
  ((length L + 1 < NBUF)%nat ∨
   NoDup (txn (k_log s)) ∧ ∀ m, m ∈ txn (k_log s) → isdirty s m).

Lemma NoDup_take_notin {A} (l : list A) k x : NoDup l → l !! k = Some x → x ∉ take k l.
Proof.
  intros Hnd Hx (j & Hj)%list_elem_of_lookup. apply lookup_take_Some in Hj as [Hj Hlt].
  pose proof (NoDup_lookup _ _ _ _ Hnd Hj Hx). lia.
Qed.

Lemma wp_install_trans L s (Q : unit → kernel → Prop) :
  st i p [] s → log_ok s → install_room s L →
  (∀ s', copy_inv (home_writes s (length (txn (k_log s)))) s s' → Q tt s') →
  wp install_trans Q s.
Proof.
  intros Hs Hk (HL & Hlen & Hroom) HQ. pose proof (length_txn s Hk) as Htn.
  pose proof Hk as [K1 K2 K3 K4 K5 K6 K7].
  apply (wp_mono _ (λ _, copy_inv (home_writes s (length (txn (k_log s)))) s));
    [|intros [] s'; apply HQ].
  apply (wp_for_lh (λ k, copy_inv (home_writes s k) s)).
  - change LOGSIZEn with NBUF. lia.
  - intros k s' _ Hi. by rewrite (ci_log _ _ _ Hi), Htn.
  - intros k s' Hkk Hi. pose proof Hi as [I1 I2 I3].
    destruct (txn_home s k Hk Hkk) as (B1 & B2 & B3 & B4 & B5).
    pose proof (wrote_disksize _ _ _ I2) as Esz.
    pose proof (home_writes_fst s k ltac:(lia)) as Hfst. rewrite home_writes_S.
    set (b := nth k (txn (k_log s)) 0) in *. set (A := l_start (k_log s) + Z.of_nat k + 1).
    assert (∀ m, isdirty s' m → m ∈ L) as HL'.
    { intros m. rewrite (wr_dirty _ _ _ I2). intros [Hm _]. by apply HL. }
    assert (lblk s' A = lblk s A) as HlA.
    { rewrite (wr_lblk _ _ _ I2), overlay_notin; [done|]. rewrite Hfst. intros HA.
      assert (A ∈ txn (k_log s)) as [_ HA']%K7 by (eapply subseteq_take, HA). lia. }
    apply wp_bind, wp_gets. rewrite I3, K1, (u32_small 1) by done.
    rewrite (u32_small (_ + _ + _)) by lia. fold A.
    apply (wp_read2 i p A b); [done|lia|lia|lia|lia|by rewrite I3| | |].
    { right. exists L. split; [done|]. simpl. lia. }
    { intros j. destruct Hroom as [Hr|[Hnd Hr]]; [right; by exists L|]. left.
      rewrite (wr_dirty _ _ _ I2), Hfst. split; [by apply Hr|]. by apply NoDup_take_notin. }
    intros x y s1 fA fB Hs1 Hne V1 HA HB CA CB. rewrite HlA in *.
    assert (length (lblk s A) = Z.to_nat BSIZE) by (apply lblk_len; [apply Hs|lia]).
    eapply (wp_copy i p x y); [exact Hs1|done..|].
    intros s2 Hs2 W2 L2. eapply copy_inv_snoc; [exact Hi|done| |].
    + change [(b, lblk s A)] with ([] ++ [(b, lblk s A)]). eapply wrote_app; [|done].
      by apply wrote_nil.
    + rewrite L2. by apply bufs_only_log, V1.
  - split; [done|apply wrote_nil, same_view_refl|done].
Qed.

Lemma log_ok_wrote ws s s' : log_ok s → wrote ws s s' → k_log s' = k_log s → log_ok s'.
Proof.
  intros Hk Hw El. pose proof (wrote_disksize _ _ _ Hw) as Esz. destruct Hk.
  split; unfold home_block in *; rewrite ?El, ?Esz; done.
Qed.

(** The writes of a commit, in order. *)
Definition commit_writes (s : kernel) : writes :=
  let l := k_log s in
  if lh_n l =? 0 then [] else
  log_writes s (length (txn l)) ++ [(l_start l, hdr_block s)] ++
  ((λ b, (b, lblk s b)) <$> txn l) ++
  [(l_start l, put32 0 0 (hdr_block s))].

Lemma commit_writes_txn s m : m ∈ txn (k_log s) → m ∈ (commit_writes s).*1.
Proof.
  intros Hm. unfold commit_writes. destruct (Z.eqb_spec (lh_n (k_log s)) 0) as [E|E].
  { unfold txn in Hm. rewrite E in Hm. by apply elem_of_nil in Hm. }
  rewrite !fmap_app, !elem_of_app. right. right. left. rewrite <- list_fmap_compose.
  apply list_elem_of_fmap. by exists m.
Qed.

Lemma overlay_log_writes s k j f :
  (j < k)%nat →
  overlay (log_writes s k) f (l_start (k_log s) + Z.of_nat j + 1) =
  lblk s (nth j (txn (k_log s)) 0).
Proof.
  induction k as [|k IH]; intros Hj; [lia|].
  rewrite log_writes_S, overlay_app. simpl. case_decide as E.
  - assert (j = k) as -> by lia. done.
  - apply IH. lia.
Qed.

Lemma home_writes_after s s2 :
  k_log s2 = k_log s →
  (∀ j, (j < length (txn (k_log s)))%nat →
     lblk s2 (l_start (k_log s) + Z.of_nat j + 1) = lblk s (nth j (txn (k_log s)) 0)) →
  home_writes s2 (length (txn (k_log s))) = (λ b, (b, lblk s b)) <$> txn (k_log s).
Proof.
  intros El Hl. unfold home_writes. rewrite El. apply list_eq. intros j.
  rewrite !list_lookup_fmap. destruct (decide (j < length (txn (k_log s)))%nat) as [Hj|Hj].
  - rewrite lookup_seq_lt by done. simpl. rewrite Hl by done.
    destruct (lookup_lt_is_Some_2 _ _ Hj) as [b Hb]. by rewrite nth_lookup, Hb.
  - rewrite lookup_seq_ge, lookup_ge_None_2 by lia. done.
Qed.

Lemma hdr_block_same s s' :
  k_log s' = k_log s → lblk s' (l_start (k_log s)) = lblk s (l_start (k_log s)) →
  hdr_block s' = hdr_block s.
Proof. unfold hdr_block. by intros -> ->. Qed.

Lemma log_ok_clear s : log_ok s → log_ok (set_k_log (set_lh_n 0 (k_log s)) s).
Proof.
  intros [K1 K2 K3 K4 K5 K6 K7]. split; simpl; try done.
  - lia.
  - intros b Hb. by apply elem_of_nil in Hb.
Qed.

(** Clearing the header, the last step of [commit] and of recovery. *)
Lemma wp_clear_log L s (Q : unit → kernel → Prop) :
  st i p [] s → log_ok s → (∀ m, isdirty s m → m ∈ L) → (length L < NBUF)%nat →
  (∀ s', st i p [] s' →
     wrote [(l_start (k_log s), put32 0 0 (lblk s (l_start (k_log s))))] s s' →
     k_log s' = set_lh_n 0 (k_log s) → Q tt s') →
  wp (upd_log (set_lh_n 0) ;; write_head) Q s.
Proof.
  intros Hs Hk HL Hlen HQ. apply wp_bind, wp_modify.
  set (s1 := set_k_log (set_lh_n 0 (k_log s)) s).
  eapply (wp_write_head L s1); [by apply st_set_log|by apply log_ok_clear|done|done|].
  intros s' Hs' [W1 W2 W3 W4 W5] El. apply HQ; [done| |done]. split; try done.
Qed.

Lemma wp_commit s (Q : unit → kernel → Prop) :
  st i p [] s → log_ok s → txn_ok s →
  (∀ s', st i p [] s' → wrote (commit_writes s) s s' →
     k_log s' = set_lh_n 0 (k_log s) → Q tt s') →
  wp commit Q s.
Proof.
  intros Hs Hk Ht HQ. pose proof Hk as [K1 K2 K3 K4 K5 K6 K7].
  pose proof (length_txn s Hk) as Htn. unfold commit, commit_writes in *.
  apply wp_bind, wp_gets. destruct (Z.eqb_spec (lh_n (k_log s)) 0) as [En|En].
  { rewrite En. apply wp_ret. apply HQ; [done|by apply wrote_nil, same_view_refl|].
    rewrite <- En. by destruct (k_log s). }
  rewrite (proj2 (Z.gtb_lt _ _)) by lia. simpl when.
  apply wp_bind, wp_write_log; [done..|]. intros s1 [I1 W1 L1].
  assert (log_ok s1) as Hk1 by (by eapply log_ok_wrote).
  assert (∀ m, isdirty s1 m ↔ m ∈ txn (k_log s)) as Hdy1.
  { intros m. rewrite (wr_dirty _ _ _ W1), (tx_dirty _ Ht), log_writes_fst. split; [tauto|].
    intros Hm. split; [done|]. destruct (K7 m Hm). lia. }
  assert (hdr_block s1 = hdr_block s) as Hh1.
  { apply hdr_block_same; [done|]. rewrite (wr_lblk _ _ _ W1), overlay_notin; [done|].
    rewrite log_writes_fst. lia. }
  apply wp_bind, (wp_write_head (txn (k_log s))); [done|done|intros m; by rewrite Hdy1|lia|].
  rewrite Hh1, L1. intros s2 I2 W2 L2.
  assert (log_ok s2) as Hk2 by (eapply log_ok_wrote; [exact Hk1|exact W2|congruence]).
  assert (home_writes s2 (length (txn (k_log s2))) = (λ b, (b, lblk s b)) <$> txn (k_log s)) as Hhw.
  { rewrite L2. apply home_writes_after; [done|]. intros j Hj.
    rewrite (wr_lblk _ _ _ W2). simpl. rewrite decide_False by lia.
    rewrite (wr_lblk _ _ _ W1). by apply overlay_log_writes. }
  assert (∀ m, isdirty s2 m ↔ m ∈ txn (k_log s)) as Hdy2.
  { intros m. rewrite (wr_dirty _ _ _ W2), Hdy1. split; [tauto|].
    intros Hm. split; [done|]. destruct (K7 m Hm). set_solver by lia. }
  apply wp_bind, (wp_install_trans (txn (k_log s))); [done|done| |].
  { split; [intros m; by rewrite Hdy2|]. split; [lia|]. right. rewrite L2.
    split; [apply Ht|]. intros m. by rewrite Hdy2. }
  rewrite Hhw. intros s3 [I3 W3 L3].
  eapply (wp_clear_log (txn (k_log s)));
    [done|eapply log_ok_wrote; [exact Hk2|done..]| |lia|].
  { intros m. rewrite (wr_dirty _ _ _ W3), Hdy2. tauto. }
  intros s4 I4 W4 L4. rewrite L3, L2 in *. apply HQ; [done| |done].
  eapply wrote_app; [exact W1|]. eapply wrote_app; [exact W2|]. eapply wrote_app; [exact W3|].
  enough (lblk s3 (l_start (k_log s)) = hdr_block s) as <- by done.
  rewrite (wr_lblk _ _ _ W3), overlay_notin, (wr_lblk _ _ _ W2).
  - simpl. by rewrite decide_True.
  - rewrite <- list_fmap_compose. intros (b & E & Hb)%list_elem_of_fmap. simpl in E.
    destruct (K7 b Hb). lia.
Qed.
End LogSpecs.

(** ** Recovery *)

(** The transaction a header block describes. *)
Definition hdr_n (d : list Z) : Z := s32 (get32 0 d).
Definition hdr_blocks (d : list Z) : list Z :=
  (λ i, s32 (get32 (4 + 4 * i) d)) <$> seq 0 (Z.to_nat (hdr_n d)).

Section Recover.
Context `{WaitBound}.
Context (i : nat) (p : proc).
Implicit Types s : kernel.

(** The log as [initlog] sets it up, and a header that names valid blocks. *)
Record bootable (s : kernel) : Prop := {
  bt_dev : l_dev (k_log s) = 1;
  bt_len : length (lh_block (k_log s)) = LOGSIZEn;
  bt_start : 0 ≤ l_start (k_log s) ∧ 0 < l_size (k_log s) ∧
             l_start (k_log s) + l_size (k_log s) ≤ k_disksize s < 2 ^ 31;
  bt_clean : ∀ m, ¬ isdirty s m;
  bt_n : 0 ≤ hdr_n (lblk s (l_start (k_log s))) < Z.of_nat NBUF ∧
         hdr_n (lblk s (l_start (k_log s))) < l_size (k_log s);
  bt_blocks : ∀ b, b ∈ hdr_blocks (lblk s (l_start (k_log s))) → 0 ≤ b < k_disksize s ∧
            ¬ (l_start (k_log s) ≤ b < l_start (k_log s) + l_size (k_log s)) }.

(** The in-memory header while [read_head] fills it. *)
Definition head_log (s : kernel) (k : nat) : log :=
  let d := lblk s (l_start (k_log s)) in
  set_lh_block (take k (hdr_blocks d) ++ drop k (lh_block (k_log s)))
    (set_lh_n (hdr_n d) (k_log s)).

Lemma length_hdr_blocks d : length (hdr_blocks d) = Z.to_nat (hdr_n d).
Proof. unfold hdr_blocks. by rewrite length_fmap, length_seq. Qed.

Lemma insert_take_drop {A} (l l' : list A) k v :
  l !! k = Some v → (k < length l')%nat →
  <[k := v]> (take k l ++ drop k l') = take (S k) l ++ drop (S k) l'.
Proof.
  intros Hv Hk. rewrite (take_S_r _ _ _ Hv).
  destruct (lookup_lt_is_Some_2 _ _ Hk) as [w Hw]. rewrite (drop_S _ _ _ Hw).
  assert (length (take k l) = k) as Hl
    by (rewrite length_take; apply lookup_lt_Some in Hv; lia).
  rewrite insert_app_r_alt by lia. rewrite Hl, Nat.sub_diag. simpl. by rewrite <- app_assoc.
Qed.

Lemma head_log_S s k v :
  hdr_blocks (lblk s (l_start (k_log s))) !! k = Some v →
  (k < length (lh_block (k_log s)))%nat →
  set_lh_block (<[k := v]> (lh_block (head_log s k))) (head_log s k) = head_log s (S k).
Proof.
  intros Hv Hk. unfold head_log. simpl. by rewrite (insert_take_drop _ _ _ v).
Qed.

Lemma txn_head_log s :
  bootable s →
  txn (head_log s (Z.to_nat (hdr_n (lblk s (l_start (k_log s)))))) =
  hdr_blocks (lblk s (l_start (k_log s))).
Proof.
  intros [_ B2 _ _ B5 _]. unfold txn, head_log. simpl.
  rewrite (take_ge (hdr_blocks _)) by (rewrite length_hdr_blocks; lia).
  rewrite take_app_le by (rewrite length_hdr_blocks; lia).
  apply take_ge. rewrite length_hdr_blocks. lia.
Qed.

Lemma wp_read_head s (Q : unit → kernel → Prop) :
  st i p [] s → bootable s →
  (∀ s', st i p [] s' → wrote [] s s' →
     k_log s' = head_log s (Z.to_nat (hdr_n (lblk s (l_start (k_log s))))) → Q tt s') →
  wp read_head Q s.
Proof.
  intros Hs [B1 B2 B3 B4 B5 B6] HQ. set (l := k_log s) in *. set (d := lblk s (l_start l)) in *.
  unfold read_head. apply wp_bind, wp_gets. fold l. rewrite B1, (u32_small 1) by done.
  rewrite u32_small by lia. apply wp_bind.
  eapply (spec_bread i p []); [done|lia| |intros ???; set_solver|].
  { right. exists []. split; [intros m Hm; by apply B4 in Hm|simpl; lia]. }
  intros bi s1 f Hs1 _ V1 Hh1 _ Hc1 _. fold d in Hh1, Hc1. apply wp_bind.
  eapply (spec_get_data i p [bi]); [done|set_solver|done|]. apply wp_bind, wp_modify.
  rewrite (bufs_only_log _ _ (sv_only _ _ V1)). fold l. fold (hdr_n d).
  apply wp_bind. eapply wp_mono.
  { apply (wp_for_lh (λ k s', s' = set_k_log (head_log s k) s1) _ (Z.to_nat (hdr_n d))).
    - change LOGSIZEn with NBUF. lia.
    - intros k s' _ ->. simpl. fold l d. lia.
    - intros k s' Hk ->. apply wp_bind.
      eapply (spec_get_data i p [bi]); [by apply st_set_log|set_solver|exact Hh1|].
      unfold set_block. rewrite (proj2 (Nat.ltb_lt k LOGSIZEn))
        by (change LOGSIZEn with NBUF; lia).
      apply wp_modify. rewrite <- (head_log_S s k (s32 (get32 (4 + 4 * k) d))); [by destruct s1| |].
      + unfold hdr_blocks. rewrite list_lookup_fmap, lookup_seq_lt by (fold l d; lia). done.
      + fold l. rewrite B2. change LOGSIZEn with NBUF. lia.
    - unfold head_log. fold l d. rewrite take_0, drop_0. simpl. by destruct s1, l. }
  intros [] s' ->. set (s2 := set_k_log _ s1).
  eapply (spec_brelse i p [] s2 bi); [by apply st_set_log|set_solver|exact Hh1| |].
  { intros E. simpl. rewrite (sv_disk _ _ V1). by apply Hc1. }
  intros s3 Hs3 V3 _. apply HQ; [done| |].
  - change [] with ([] ++ [] : writes). eapply wrote_app; [|by apply wrote_nil].
    by apply wrote_set_log, wrote_nil.
  - by rewrite (bufs_only_log _ _ (sv_only _ _ V3)).
Qed.

(** The writes of a recovery, as a function of what the disk shows. *)
Definition recover_writes (start : Z) (f : Z → list Z) : writes :=
  imap (λ j b, (b, f (start + Z.of_nat j + 1))) (hdr_blocks (f start)) ++
  [(start, put32 0 0 (f start))].

Lemma home_writes_imap s :
  home_writes s (length (txn (k_log s))) =
  imap (λ j b, (b, lblk s (l_start (k_log s) + Z.of_nat j + 1))) (txn (k_log s)).
Proof.
  unfold home_writes. apply list_eq. intros j. rewrite list_lookup_fmap, list_lookup_imap.
  destruct (decide (j < length (txn (k_log s)))%nat) as [Hj|Hj].
  - rewrite lookup_seq_lt by done. destruct (lookup_lt_is_Some_2 _ _ Hj) as [b Hb].
    simpl. by rewrite nth_lookup, Hb.
  - rewrite lookup_seq_ge, lookup_ge_None_2 by lia. done.
Qed.

Lemma wp_recover s (Q : unit → kernel → Prop) :
  st i p [] s → bootable s →
  (∀ s', st i p [] s' → wrote (recover_writes (l_start (k_log s)) (lblk s)) s s' →
     lh_n (k_log s') = 0 → l_start (k_log s') = l_start (k_log s) ∧ l_size (k_log s') = l_size (k_log s) →
     (∀ m, ¬ isdirty s' m) → Q tt s') →
  wp recover_from_log Q s.
Proof.
  intros Hs Hb HQ. pose proof Hb as [B1 B2 B3 B4 B5 B6].
  unfold recover_from_log. apply wp_bind, wp_read_head; [done..|]. intros s1 I1 W1 L1.
  set (d := lblk s (l_start (k_log s))) in *.
  pose proof (txn_head_log s Hb) as Htx. fold d in Htx. rewrite <- L1 in Htx.
  assert (∀ m, lblk s1 m = lblk s m) as Hl1 by apply W1.
  assert (l_start (k_log s1) = l_start (k_log s) ∧ l_size (k_log s1) = l_size (k_log s) ∧
    l_dev (k_log s1) = 1 ∧ lh_n (k_log s1) = hdr_n d) as (E1 & E2 & E3 & E4) by (by rewrite L1).
  assert (∀ m, ¬ isdirty s1 m) as Hd1 by (intros m; rewrite (wr_dirty _ _ _ W1); naive_solver).
  assert (log_ok s1) as Hk1.
  { pose proof (wrote_disksize _ _ _ W1) as Esz. split; unfold home_block; rewrite ?E1, ?E2, ?E4, ?Esz, ?Htx;
      [done| |lia|lia|lia|lia|done].
    rewrite L1. unfold head_log. simpl. rewrite length_app, length_take, length_drop, B2.
    fold d. rewrite length_hdr_blocks. change LOGSIZEn with NBUF. lia. }
  apply wp_bind, (wp_install_trans i p []); [done|done| |].
  { split; [intros m Hm; by apply Hd1 in Hm|]. simpl. split; [lia|left; change NBUF with 30%nat; lia]. }
  rewrite home_writes_imap, Htx. intros s2 [I2 W2 L2].
  assert (∀ m, ¬ isdirty s2 m) as Hd2 by (intros m; rewrite (wr_dirty _ _ _ W2); naive_solver).
  eapply (wp_clear_log i p []); [done|eapply log_ok_wrote; [exact Hk1|done..]|
    intros m Hm; by apply Hd2 in Hm|simpl; lia|].
  intros s3 I3 W3 L3. rewrite L2, E1 in *. apply HQ; [done| |by rewrite L3|rewrite L3; by split|].
  - unfold recover_writes. fold d.
    change (wrote ([] ++ (imap (λ j b, (b, lblk s (l_start (k_log s) + Z.of_nat j + 1)))
      (hdr_blocks d) ++ [(l_start (k_log s), put32 0 0 d)])) s s3).
    eapply wrote_app; [exact W1|]. eapply wrote_app.
    + erewrite imap_ext; [exact W2|]. intros j b _. cbv beta. by rewrite Hl1.
    + enough (lblk s2 (l_start (k_log s)) = d) as <- by done.
      rewrite (wr_lblk _ _ _ W2), overlay_notin, Hl1; [done|].
      rewrite fmap_imap. intros (j & Hj)%list_elem_of_lookup.
      rewrite list_lookup_imap in Hj. destruct (hdr_blocks d !! j) as [b|] eqn:Eb; [|done].
      injection Hj as Hj. simpl in Hj. destruct (B6 b) as [_ Hn]; [by eapply list_elem_of_lookup_2|]. lia.
  - intros m. rewrite (wr_dirty _ _ _ W3). naive_solver.
Qed.

(** The log as [initlog] finds it in the superblock. *)
Definition sb_log (sb : superblock) (l : log) : log :=
  set_l_dev 1 (set_l_size (s32 (sb_nlog sb)) (set_l_start (s32 (sb_logstart sb)) l)).

Lemma same_view_log s s' lg :
  same_view s s' → same_view (set_k_log lg s) (set_k_log lg s').
Proof. intros [V1 V2 V3 V4 V5]. split; try done. by apply bufs_only_set_log. Qed.

Lemma bootable_view s s' : same_view s s' → bootable s → bootable s'.
Proof.
  intros [V1 V2 V3 V4 V5] [B1 B2 B3 B4 B5 B6].
  pose proof (bufs_only_log _ _ V1) as El. pose proof (bufs_only_disksize _ _ V1) as Ez.
  split; rewrite ?El, ?Ez, ?V2; try done. intros m. rewrite V3. apply B4.
Qed.

Lemma wp_readsb s (Q : superblock → kernel → Prop) :
  st i p [] s → (∀ m, ¬ isdirty s m) → 1 < k_disksize s →
  (∀ s', st i p [] s' → same_view s s' → Q (sb_decode (lblk s 1)) s') →
  wp (readsb 1) Q s.
Proof.
  intros Hs Hd Hz HQ. unfold readsb. rewrite (u32_small 1) by done. apply wp_bind.
  eapply (spec_bread i p []); [done|lia| |intros ???; set_solver|].
  { right. exists []. split; [intros m Hm; by apply Hd in Hm|by apply Nat.ltb_lt]. }
  intros bi s1 f Hs1 _ V1 Hh1 _ Hc1 _. apply wp_bind.
  eapply (spec_get_data i p [bi]); [done|set_solver|done|]. apply wp_bind.
  eapply (spec_brelse i p [] s1 bi); [done|set_solver|exact Hh1|by rewrite (sv_disk _ _ V1)|].
  intros s2 Hs2 V2 _. apply wp_ret, HQ; [done|].
  destruct V1 as [V1a V1b V1c V1d V1e], V2 as [V2a V2b V2c V2d V2e].
  split; [by eapply bufs_only_trans| | |congruence..]; intros m; [by rewrite V2b, V1b|].
  by rewrite V2c, V1c.
Qed.

Lemma wp_initlog s (Q : unit → kernel → Prop) :
  st i p [] s → (∀ m, ¬ isdirty s m) → 1 < k_disksize s →
  let s0 := set_k_log (sb_log (sb_decode (lblk s 1)) (k_log s)) s in
  bootable s0 →
  (∀ s', st i p [] s' → wrote (recover_writes (l_start (k_log s0)) (lblk s)) s s' →
     lh_n (k_log s') = 0 → l_start (k_log s') = l_start (k_log s0) ∧ l_size (k_log s') = l_size (k_log s0) →
     (∀ m, ¬ isdirty s' m) → Q tt s') →
  wp (initlog 1) Q s.
Proof.
  intros Hs Hd Hz s0 Hb HQ. unfold initlog. simpl. apply wp_bind, wp_readsb; [done..|].
  intros s1 Hs1 V1. apply wp_bind, wp_modify. rewrite (bufs_only_log _ _ (sv_only _ _ V1)).
  change (set_l_dev 1 _) with (k_log s0). set (s2 := set_k_log (k_log s0) s1).
  assert (same_view s0 s2) as V2 by (by apply same_view_log).
  apply wp_recover; [by apply st_set_log|by eapply bootable_view|].
  intros s' Hs' Hw Hn Hst Hnd. apply HQ; try done.
  change ((wrote ([] ++ recover_writes (l_start (k_log s0)) (lblk s)) s s')).
  apply (wrote_app _ _ _ s2); [by apply wrote_set_log, wrote_nil|].
  unfold recover_writes in *. change (l_start (k_log s2)) with (l_start (k_log s0)) in Hw.
  change (lblk s2) with (lblk s1) in Hw. rewrite (sv_lblk _ _ V1) in Hw.
  erewrite imap_ext; [exact Hw|]. intros j b _. cbv beta. by rewrite (sv_lblk _ _ V1).
Qed.
End Recover.

(** ** log_write *)

(** The header after [log_write] of block [n]. *)
Definition absorb (n : Z) (l : log) : log :=
  if decide (n ∈ txn l) then l
  else set_lh_n (lh_n l + 1) (set_lh_block (<[Z.to_nat (lh_n l) := n]> (lh_block l)) l).

Section LogWrite.
Context `{WaitBound}.
Context (i : nat) (p : proc).
Implicit Types s : kernel.

(** The slot [log_scan] finds. *)
Lemma wp_log_scan n s (Q : nat → kernel → Prop) :
  log_ok s → 0 ≤ n < 2 ^ 31 →
  (∀ k, (k ≤ length (txn (k_log s)))%nat →
     (txn (k_log s) !! k = Some n ∨ k = length (txn (k_log s)) ∧ n ∉ txn (k_log s)) → Q k s) →
  wp (log_scan LOGSIZEn 0 n) Q s.
Proof.
  intros Hk Hn HQ. pose proof (length_txn s Hk) as Htn. pose proof (lk_n _ Hk) as Hkn.
  cut (∀ fuel j, (length (txn (k_log s)) ≤ fuel + j)%nat → (j ≤ length (txn (k_log s)))%nat →
    n ∉ take j (txn (k_log s)) → wp (log_scan fuel j n) Q s).
  { intros Hc. apply Hc; [change LOGSIZEn with NBUF; lia|lia|]. apply not_elem_of_nil. }
  intros fuel. induction fuel as [|fuel IH]; intros j Hf Hj Hni; simpl;
    apply wp_bind, wp_gets; destruct (Z.ltb_spec (Z.of_nat j) (lh_n (k_log s))) as [Hlt|Hge];
    [lia| | |]; try (apply wp_ret, HQ; [done|]; right; split; [lia|];
      rewrite take_ge in Hni by lia; done).
  destruct (lookup_lt_is_Some_2 (txn (k_log s)) j) as [b Hb]; [lia|].
  assert (b ∈ txn (k_log s)) as Hbi by (by eapply list_elem_of_lookup_2).
  apply (lk_home _ Hk) in Hbi as [Hbr _]. pose proof (lk_small _ Hk).
  apply wp_bind, (wp_get_block j b); [by apply txn_lookup|]. rewrite u32_small by lia.
  destruct (Z.eqb_spec b n) as [->|Hne]; [apply wp_ret, HQ; [done|by left]|].
  apply IH; [lia|lia|]. rewrite (take_S_r _ _ _ Hb). set_solver.
Qed.

Lemma txn_absorb l n :
  0 ≤ lh_n l → (Z.to_nat (lh_n l) < length (lh_block l))%nat →
  txn (absorb n l) = if decide (n ∈ txn l) then txn l else txn l ++ [n].
Proof.
  intros Hn Hl. unfold absorb. case_decide as E; [done|]. unfold txn. simpl.
  replace (Z.to_nat (lh_n l + 1)) with (S (Z.to_nat (lh_n l))) by lia.
  rewrite (take_S_r _ _ n) by (by apply list_lookup_insert_eq).
  by rewrite take_insert_ge by lia.
Qed.

Lemma log_ok_absorb s s' n :
  log_ok s → home_block s n → k_log s' = absorb n (k_log s) → k_disksize s' = k_disksize s →
  lh_n (k_log s) + 1 < l_size (k_log s) → l_size (k_log s) ≤ Z.of_nat NBUF → log_ok s'.
Proof.
  intros Hk Hn El Esz H1 H2. pose proof Hk as [K1 K2 K3 K4 K5 K6 K7].
  assert (txn (k_log s') = if decide (n ∈ txn (k_log s)) then txn (k_log s) else txn (k_log s) ++ [n])
    as Htx.
  { rewrite El. apply txn_absorb; [lia|]. rewrite K2. change LOGSIZEn with NBUF. lia. }
  assert (l_start (k_log s') = l_start (k_log s) ∧ l_size (k_log s') = l_size (k_log s) ∧
    l_dev (k_log s') = l_dev (k_log s) ∧ length (lh_block (k_log s')) = LOGSIZEn ∧
    lh_n (k_log s') ≤ lh_n (k_log s) + 1 ∧ lh_n (k_log s) ≤ lh_n (k_log s'))
    as (E1 & E2 & E3 & E4 & E5 & E6).
  { rewrite El. unfold absorb. case_decide; simpl; rewrite ?length_insert; repeat split; auto; lia. }
  split; unfold home_block in *; rewrite ?E1, ?E2, ?E3, ?Esz; try (done || lia).
  intros b. rewrite Htx. case_decide; [by apply K7|]. intros [Hb| ->%list_elem_of_singleton]%elem_of_app;
    [by apply K7|done].
Qed.

(** The header stores of [log_write], after the scan. *)
Lemma absorb_stores n l k s :
  k_log s = l → log_ok s → (k ≤ length (txn l))%nat →
  (txn l !! k = Some n ∨ k = length (txn l) ∧ n ∉ txn l) →
  let l1 := set_lh_block (<[k := n]> (lh_block l)) l in
  (if Z.of_nat k =? lh_n l1 then set_lh_n (lh_n l1 + 1) l1 else l1) = absorb n l.
Proof.
  intros El Hk Hle Hc l1. pose proof (length_txn s Hk) as Htn. rewrite El in Htn.
  unfold absorb, l1. simpl. destruct Hc as [Hf|[-> Hni]].
  - pose proof (lookup_lt_Some _ _ _ Hf).
    rewrite (proj2 (Z.eqb_neq _ _)) by lia. rewrite decide_True by (by eapply list_elem_of_lookup_2).
    rewrite list_insert_id; [by destruct l|]. rewrite <- El in Hf |- *. by apply txn_lookup.
  - rewrite (proj2 (Z.eqb_eq _ _)) by lia. rewrite decide_False by done.
    by replace (length (txn l)) with (Z.to_nat (lh_n l)) by lia.
Qed.

Lemma wp_log_write s bi b (Q : unit → kernel → Prop) :
  log_ok s → k_held s = [] → k_bcache s !! bi = Some b → 0 ≤ b_blockno b < 2 ^ 31 →
  lh_n (k_log s) < LOGSIZE → lh_n (k_log s) < l_size (k_log s) - 1 →
  1 ≤ l_outstanding (k_log s) →
  Q tt (set_k_log (absorb (b_blockno b) (k_log s))
          (put_buf bi (set_b_flags (Z.lor (b_flags b) B_DIRTY) b) s)) →
  wp (log_write bi) Q s.
Proof.
  intros Hk Hh Hb Hn H1 H2 H3 HQ. pose proof (length_txn s Hk) as Htn.
  unfold log_write. apply wp_bind, wp_gets. ztest. simpl orb. cbv iota.
  apply wp_bind, wp_acquire; [rewrite Hh; apply not_elem_of_nil|]. rewrite Hh.
  apply wp_bind. eapply wp_get_buf; [exact Hb|]. apply wp_bind.
  set (s1 := set_k_held [Llog] s).
  apply (wp_log_scan (b_blockno b) s1); [by destruct Hk; split|done|]. intros k Hle Hcase.
  change (k_log s1) with (k_log s) in *.
  pose proof (absorb_stores (b_blockno b) (k_log s) k s eq_refl Hk Hle Hcase) as Habs.
  apply wp_bind. unfold set_block. rewrite (proj2 (Nat.ltb_lt k LOGSIZEn))
    by (unfold LOGSIZEn; lia).
  apply wp_modify. rewrite s32_small by lia. apply wp_bind, wp_gets. apply wp_bind.
  simpl k_log in *. cbv zeta in Habs.
  match goal with |- wp (when ?c (upd_log ?g)) ?P ?st =>
    cut (wp (when c (upd_log g)) (λ _ s', s' = set_k_log (absorb (b_blockno b) (k_log s)) s1) st) end.
  { intros Hw. eapply wp_mono; [exact Hw|]. intros [] s' ->. apply wp_bind.
    eapply (wp_upd_buf _ _ b); [exact Hb|]. eapply wp_release; [reflexivity|apply not_elem_of_nil|].
    destruct s; simpl in *; subst; exact HQ. }
  rewrite <- Habs. destruct (Z.of_nat k =? _); simpl; [apply wp_modify|apply wp_ret];
    by destruct s.
Qed.

Lemma spec_log_write Hd s bi n f d (Q : unit → kernel → Prop) :
  st i p (bi :: Hd) s → bi ∉ Hd → holds s (p_pid p) bi n f d →
  log_ok s → lh_n (k_log s) < LOGSIZE → lh_n (k_log s) < l_size (k_log s) - 1 →
  1 ≤ l_outstanding (k_log s) →
  (∀ s', st i p (bi :: Hd) s' → k_log s' = absorb n (k_log s) →
     k_disk s' = k_disk s → k_wtrace s' = k_wtrace s → k_disksize s' = k_disksize s →
     (∀ m, lblk s' m = lblk s m) →
     (∀ m, isdirty s' m ↔ isdirty s m ∨ m = n) →
     holds s' (p_pid p) bi n (Z.lor B_VALID B_DIRTY) d →
     (∀ j m f d, j ∈ Hd → holds s (p_pid p) j m f d → holds s' (p_pid p) j m f d) →
     (∃ bc, s' = set_k_log (absorb n (k_log s)) (set_k_bcache bc s)) →
     Q tt s') →
  wp (log_write bi) Q s.
Proof.
  intros Hs Hni Hh Hk H1 H2 H3 HQ.
  destruct (st_lblk i p _ s bi n f d Hs ltac:(set_solver) Hh) as [Hl Hnr].
  destruct Hh as (b & Hb & Hr & Hlk & Hdv & Hn & Hf & Hf0 & Hdd).
  pose proof Hs as [B R A L T Hh Hq]. assert (bi < NBUF)%nat as Hlt by (apply T; set_solver).
  pose proof (bk_buf s B bi b Hlt Hb) as Hbo. pose proof (lk_small _ Hk).
  assert (Z.lor (b_flags b) B_DIRTY = Z.lor B_VALID B_DIRTY) as Ef.
  { destruct (bo_flags _ _ Hbo) as [?|[-> | ->]]; [congruence|done|done]. }
  apply (wp_log_write s bi b); [done|done|done|lia|done..|]. rewrite Ef, Hn.
  set (b' := set_b_flags (Z.lor B_VALID B_DIRTY) b).
  assert (bio_ok (put_buf bi b' s)) as Hok.
  { eapply bio_ok_put; [done|done|done|done|done| |].
    - destruct Hbo. split; try done; simpl; unfold flags_ok; tauto || lia.
    - intros j c Hj Hjl Hc Hsb. apply Hj. symmetry. by eapply (bk_uniq s B bi j b c). }
  assert (holds (put_buf bi b' s) (p_pid p) bi n (Z.lor B_VALID B_DIRTY) d) as Hhold.
  { exists b'. rewrite (put_buf_lookup_eq _ _ _ b) by done. done. }
  apply HQ; try done.
  - apply st_set_log. pose proof (st_put i p _ s bi b' Hs Hlt Hok) as Hst.
    rewrite filter_cons_False, filter_notin in Hst by (done || by intros []).
    apply Hst. simpl. by rewrite Hn, Hdd.
  - intros m. change (lblk (put_buf bi b' s) m = lblk s m).
    destruct (decide (m = n)) as [->|Hm].
    + rewrite Hl, (lblk_cached _ n bi b'); [done|done|done|by eapply put_buf_lookup_eq|].
      by apply caches_true.
    + assert (caches m b = false ∧ caches m b' = false) as [??].
      { rewrite <- !not_true_iff_false, !caches_true. simpl. split; intros (?&?&?); congruence. }
      by eapply lblk_insert_other.
  - intros m. change (isdirty (put_buf bi b' s) m ↔ isdirty s m ∨ m = n).
    rewrite (isdirty_put bi b) by done. split.
    + intros [(_&E&_)|(j & c & _ & Hc)]; [right; simpl in E; congruence|left; by exists j, c].
    + intros [(j & c & Hj & Hc & E1 & E2 & E3)| ->]; [|left; by simpl].
      destruct (decide (j = bi)) as [->|]; [left; simpl; by simplify_eq|right; by exists j, c].
  - intros j m f' e Hj Hjh.
    apply (holds_put_ne bi b' s (p_pid p) j m f' e); [by intros ->|exact Hjh].
  - by exists (<[bi := b']> (k_bcache s)).
Qed.

(** A transactional update of block [n], as file-system code performs it. *)
Definition txn_write (n : Z) (g : list Z → list Z) : K unit :=
  bp ← bread 1 n;
  d ← get_data bp;
  set_data bp (g d) ;;
  log_write bp ;;
  brelse bp.

Lemma spec_txn_write n (g : list Z → list Z) s (Q : unit → kernel → Prop) :
  st i p [] s → log_ok s → txn_ok s → home_block s n →
  lh_n (k_log s) < LOGSIZE → lh_n (k_log s) < l_size (k_log s) - 1 →
  l_size (k_log s) ≤ Z.of_nat NBUF → 1 ≤ l_outstanding (k_log s) →
  (∀ d, length d = Z.to_nat BSIZE → length (g d) = Z.to_nat BSIZE) →
  (∀ s', st i p [] s' → log_ok s' → txn_ok s' → k_log s' = absorb n (k_log s) →
     k_disk s' = k_disk s → k_wtrace s' = k_wtrace s → k_disksize s' = k_disksize s →
     (∀ m, lblk s' m = if decide (m = n) then g (lblk s n) else lblk s m) → Q tt s') →
  wp (txn_write n g) Q s.
Proof.
  intros Hs Hk Ht Hn H1 H2 H3 H4 Hg HQ. pose proof (length_txn s Hk) as Htn.
  pose proof Hk as [_ K2 K3 _ _ _ _].
  unfold txn_write. apply wp_bind.
  eapply (spec_bread i p []); [done|apply Hn| |intros ???; set_solver|].
  { right. exists (txn (k_log s)). split; [apply Ht|]. simpl. lia. }
  intros bi s1 f Hs1 Hni V1 Hh1 _ _ _. pose proof (bufs_only_log _ _ (sv_only _ _ V1)) as L1.
  apply wp_bind. eapply (spec_get_data i p [bi]); [done|set_solver|done|]. apply wp_bind.
  eapply (spec_set_data i p []); [done|set_solver|done|apply Hg, lblk_len; [apply Hs|apply Hn]|].
  intros s2 Hs2 O2 D2 T2 V2 Y2 Hh2 _. pose proof (bufs_only_log _ _ O2) as L2. rewrite L1 in L2.
  assert (k_disksize s2 = k_disksize s) as Z2.
  { rewrite (bufs_only_disksize _ _ O2). apply bufs_only_disksize, V1. }
  assert (log_ok s2) as Hk2.
  { destruct Hk. split; unfold home_block in *; rewrite ?L2, ?Z2; done. }
  apply wp_bind. eapply (spec_log_write []); [done|set_solver|done|done|by rewrite L2..|].
  intros s3 Hs3 L3 D3 T3 Z3 V3 Y3 Hh3 _ _. rewrite L2 in L3.
  eapply (spec_brelse i p []); [done|set_solver|done|done|].
  intros s4 Hs4 V4 _. pose proof (bufs_only_log _ _ (sv_only _ _ V4)) as L4. rewrite L3 in L4.
  assert (k_disksize s4 = k_disksize s) as Z4.
  { rewrite (bufs_only_disksize _ _ (sv_only _ _ V4)). congruence. }
  destruct V4 as [_ V4 Y4 D4 T4], V1 as [_ V1 Y1 D1 T1].
  apply HQ; [done|by apply (log_ok_absorb s s4 n); [..|lia|lia]| |done|congruence|congruence|done|].
  - split; rewrite L4, txn_absorb by (rewrite ?K2; change LOGSIZEn with NBUF; lia).
    + case_decide; [apply Ht|]. apply NoDup_app. split; [apply Ht|].
      split; [intros x Hx ->%list_elem_of_singleton; done|apply NoDup_singleton].
    + intros m. rewrite Y4, Y3, Y2, Y1, (tx_dirty _ Ht). case_decide; set_solver.
  - intros m. by rewrite V4, V3, V2, V1.
Qed.
End LogWrite.

(** ** begin_op and end_op *)

Section Ops.
Context `{WaitBound}.
Implicit Types s : kernel.

(** The test of [begin_op]: a commit is running, or the log could not take one
    more operation of [MAXOPBLOCKS] blocks. *)
Definition must_wait (l : log) : bool :=
  l_committing l || (lh_n l + (l_outstanding l + 1) * MAXOPBLOCKS >? LOGSIZE).

Definition enter (l : log) : log := set_l_outstanding (l_outstanding l + 1) l.

Lemma wp_begin_op s (Q : unit → kernel → Prop) :
  k_held s = [] → must_wait (k_log s) = false →
  Q tt (set_k_log (enter (k_log s)) s) → wp begin_op Q s.
Proof.
  intros Hh Hm HQ. unfold begin_op. apply wp_bind, wp_acquire; [rewrite Hh; apply not_elem_of_nil|].
  rewrite Hh. destruct wait_bound; simpl; apply wp_bind, wp_gets; unfold must_wait in Hm;
    simpl; rewrite Hm; apply wp_bind, wp_modify;
    (eapply wp_release; [reflexivity|apply not_elem_of_nil|]);
    destruct s; simpl in *; subst; exact HQ.
Qed.

Lemma rg_begin_op_wait (R : kernel → Prop) n i pid s (Q : unit → kernel → Prop) :
  (∀ s', R s' → resumed i pid s') → (∃ p, running s i p) → k_held s = [Llog] →
  (∀ s', k_held s' = [Llog] → must_wait (k_log s') = false →
     Q tt (set_k_held [] (set_k_log (enter (k_log s')) s'))) →
  rg R (sleeping i ChLog) Q (begin_op_wait n s).
Proof.
  intros HR Hr Hh HQ. revert s Hr Hh. induction n as [|n IH]; intros s [p Hr] Hh; simpl;
    apply rg_bind, wp_rg, wp_gets; fold (must_wait (k_log s));
    (destruct (must_wait (k_log s)) eqn:Em;
      [|apply wp_rg, wp_bind, wp_modify; eapply wp_release; [exact Hh|apply not_elem_of_nil|];
        specialize (HQ s Hh Em); by destruct s]); [done|].
  apply rg_bind. eapply rg_sleep; [done|done|done|].
  intros s' (Hp & Hh' & p' & Ht & _)%HR. split; [done|]. apply IH; [|done].
  exists (set_p_chan None p'). split; [done|]. simpl. by rewrite list_lookup_alter_eq, Ht.
Qed.

Lemma wp_end_op_more i p s (Q : unit → kernel → Prop) :
  running s i p → k_held s = [] → l_committing (k_log s) = false → l_outstanding (k_log s) ≠ 1 →
  Q tt (do_wakeup ChLog (set_k_log (set_l_outstanding (l_outstanding (k_log s) - 1) (k_log s)) s)) →
  wp end_op Q s.
Proof.
  intros Hr Hh Hc Ho HQ. unfold end_op.
  apply wp_bind, wp_acquire; [rewrite Hh; apply not_elem_of_nil|]. rewrite Hh.
  apply wp_bind, wp_modify. apply wp_bind, wp_gets. simpl. rewrite Hc. ztest.
  apply wp_bind, wp_bind, wp_wakeup; [set_solver|]. apply wp_ret.
  apply wp_bind. eapply wp_release; [reflexivity|apply not_elem_of_nil|].
  apply wp_ret. destruct s; simpl in *; subst; exact HQ.
Qed.
End Ops.

Section EndOp.
Context `{WaitBound}.
Context (i : nat) (p : proc).
Implicit Types s : kernel.

(** The log while the last operation commits, and after. *)
Definition closing (l : log) : log := set_l_committing true (set_l_outstanding 0 l).
Definition closed (l : log) : log := set_l_committing false (set_lh_n 0 (closing l)).

Lemma wp_end_op_last s (Q : unit → kernel → Prop) :
  st i p [] s → log_ok s → txn_ok s → l_committing (k_log s) = false →
  l_outstanding (k_log s) = 1 →
  (∀ s1, st i p [] s1 → wrote (commit_writes s) (set_k_log (closing (k_log s)) s) s1 →
     k_log s1 = set_lh_n 0 (closing (k_log s)) →
     Q tt (do_wakeup ChLog (set_k_log (closed (k_log s)) s1))) →
  wp end_op Q s.
Proof.
  intros Hs Hk Ht Hc Ho HQ. pose proof (st_nolock _ _ _ _ Hs) as Hh. unfold end_op.
  apply wp_bind, wp_acquire; [rewrite Hh; apply not_elem_of_nil|]. rewrite Hh.
  apply wp_bind, wp_modify. apply wp_bind, wp_gets. simpl. rewrite Hc, Ho. simpl.
  apply wp_bind, wp_bind, wp_modify, wp_ret. apply wp_bind.
  eapply wp_release; [reflexivity|apply not_elem_of_nil|]. simpl when. apply wp_bind.
  set (s0 := set_k_log (closing (k_log s)) s).
  match goal with |- wp commit _ ?x => replace x with s0 by (destruct s; simpl in *; by subst) end.
  apply (wp_commit i p); [by apply st_set_log|by destruct Hk; split|by destruct Ht; split|].
  intros s1 Hs1 Hw L1. pose proof (st_nolock _ _ _ _ Hs1) as Hh1.
  apply wp_bind, wp_acquire; [rewrite Hh1; apply not_elem_of_nil|]. rewrite Hh1.
  apply wp_bind, wp_modify. apply wp_bind, wp_wakeup; [set_solver|].
  eapply wp_release; [reflexivity|apply not_elem_of_nil|].
  specialize (HQ s1 Hs1 Hw L1). simpl. rewrite L1. unfold s0. destruct s1; simpl in *; subst. exact HQ.
Qed.
End EndOp.

(** ** A transaction of two blocks on the small machine *)

Definition demo_update : K unit :=
  txn_write (H := 0%nat) 6 (λ _, replicate (Z.to_nat BSIZE) 7) ;;
  txn_write (H := 0%nat) 7 (λ _, replicate (Z.to_nat BSIZE) 9).
Definition demo_txn : kernel := run demo_update demo_boot.

Record demo_open (s0 s : kernel) : Prop := {
  do_st : st 0 demo_proc [] s;
  do_log : log_ok s;
  do_txn : txn_ok s;
  do_klog : k_log s = absorb 7 (absorb 6 demo_log);
  do_disk : k_disk s = k_disk s0;
  do_size : k_disksize s = k_disksize s0;
  do_lblk : ∀ m, lblk s m = if decide (m = 7) then replicate (Z.to_nat BSIZE) 9 else
                            if decide (m = 6) then replicate (Z.to_nat BSIZE) 7 else lblk s0 m }.

Lemma demo_update_ok s :
  st 0 demo_proc [] s → (∀ n, ¬ isdirty s n) → k_disksize s = 8 → k_log s = demo_log →
  wp demo_update (λ _ s', demo_open s s') s.
Proof.
  intros Hs Hd Hsz Hlg.
  assert (log_ok s) as Hk.
  { split; unfold home_block; rewrite ?Hlg, ?Hsz; simpl; try done; try lia.
    intros b Hb%elem_of_nil. done. }
  assert (txn_ok s) as Ht.
  { split; rewrite Hlg; [apply NoDup_nil_2|]. intros m. split; [by intros ?%Hd|].
    intros Hm%elem_of_nil. done. }
  apply wp_bind, (spec_txn_write (H := 0%nat) 0 demo_proc); rewrite ?Hlg; try done.
  { unfold home_block. rewrite Hlg, Hsz. simpl. lia. }
  intros s1 Hs1 Hk1 Ht1 L1 D1 _ Z1 V1.
  apply (spec_txn_write (H := 0%nat) 0 demo_proc); rewrite ?L1; try done.
  { unfold home_block. rewrite L1, Z1, Hsz. simpl. lia. }
  intros s2 Hs2 Hk2 Ht2 L2 D2 _ Z2 V2. split; try done; [congruence|congruence|].
  intros m. by rewrite V2, V1.
Qed.

Lemma demo_txn_ok : demo_open demo_boot demo_txn.
Proof.
  destruct demo_boot_ok as (Hs & Hd & _ & Hsz & Hlg & _).
  pose proof (demo_update_ok demo_boot Hs Hd Hsz Hlg) as Hw. unfold demo_txn.
  generalize dependent demo_boot. intros s _ _ _ _ (_ & Hrun)%wp_run. exact Hrun.
Qed.
#[global] Opaque demo_txn.
