(* ===== verification/Crash.v ===== *)
(** * Crash: transactions are atomic with respect to crashes

    A crash keeps a prefix of the disk writes of [commit].  Whatever the prefix,
    and however often the recovery that follows is itself cut short, the next
    [recover_from_log] to finish leaves on the home blocks either the state
    before the transaction or the whole transaction. *)

From S2P Require Import Prelude State Lock Bio BufSpec Log.

Definition view (D : gmap Z (list Z)) (m : Z) : list Z := default [] (D !! m).

(** A machine that boots on disk [D] of the machine of [s]. *)
Record booted (s : kernel) (D : gmap Z (list Z)) (c : kernel) : Prop := {
  bo_st : ∃ i p, st i p [] c;
  bo_disk : k_disk c = D;
  bo_size : k_disksize c = k_disksize s;
  bo_nodirty : ∀ m, ¬ isdirty c m;
  bo_llen : length (lh_block (k_log c)) = LOGSIZEn }.

(** The log of [s] is the one its superblock, block 1, describes, and no
    transaction touches the superblock. *)
Record sb_match (s : kernel) : Prop := {
  sm_home : home_block s 1;
  sm_txn : 1 ∉ txn (k_log s);
  sm_start : s32 (sb_logstart (sb_decode (view (k_disk s) 1))) = l_start (k_log s);
  sm_size : s32 (sb_nlog (sb_decode (view (k_disk s) 1))) = l_size (k_log s) }.

(** What a crash during the commit of [s] can leave: nothing committed; the
    transaction in the log; the transaction installed. *)
Inductive disk_case (s : kernel) (D : gmap Z (list Z)) : bool → Prop :=
  | Before : hdr_n (view D (l_start (k_log s))) = 0 →
      (∀ m, home_block s m → view D m = view (k_disk s) m) → disk_case s D false
  | Logged : hdr_blocks (view D (l_start (k_log s))) = txn (k_log s) →
      hdr_n (view D (l_start (k_log s))) = lh_n (k_log s) →
      (∀ j b, txn (k_log s) !! j = Some b →
         view D (l_start (k_log s) + Z.of_nat j + 1) = lblk s b) →
      (∀ m, home_block s m → m ∉ txn (k_log s) → view D m = lblk s m) → disk_case s D true
  | Done : hdr_n (view D (l_start (k_log s))) = 0 →
      (∀ m, home_block s m → view D m = lblk s m) → disk_case s D true.

Section Pure.
Implicit Types (s : kernel) (D : gmap Z (list Z)) (ws : writes).

Lemma view_apply ws D m : view (apply_writes ws D) m = overlay ws (view D) m.
Proof.
  revert D. induction ws as [|w ws IH]; intros D; [done|].
  change (view (apply_writes ws (<[w.1 := w.2]> D)) m =
    overlay ws (λ m, if decide (m = w.1) then w.2 else view D m) m).
  rewrite IH. apply overlay_ext. unfold view. case_decide as E.
  - by rewrite E, lookup_insert_eq.
  - by rewrite lookup_insert_ne.
Qed.

Lemma view_clean i p s m :
  st i p [] s → ¬ isdirty s m → 0 ≤ m < k_disksize s → lblk s m = view (k_disk s) m.
Proof. intros Hs Hd Hm. unfold view. by rewrite (lblk_clean i p s m). Qed.

Lemma s32_u32 v : - 2 ^ 31 ≤ v < 2 ^ 31 → s32 (u32 v) = v.
Proof.
  intros Hv. unfold s32, u32. rewrite Zplus_mod_idemp_l, Z.mod_small by lia. lia.
Qed.

Lemma hdr_n_encode n bs d :
  (4 + 4 * length bs ≤ length d)%nat → 0 ≤ n < 2 ^ 31 → hdr_n (hdr_encode n bs d) = n.
Proof. intros Hl Hn. unfold hdr_n. rewrite hdr_decode_n by done. apply s32_u32. lia. Qed.

Lemma hdr_blocks_encode n bs d :
  (4 + 4 * length bs ≤ length d)%nat → n = Z.of_nat (length bs) → n < 2 ^ 31 →
  (∀ b, b ∈ bs → 0 ≤ b < 2 ^ 31) → hdr_blocks (hdr_encode n bs d) = bs.
Proof.
  intros Hl Hn Hn' Hb. unfold hdr_blocks. rewrite hdr_n_encode by (done || lia).
  rewrite Hn, Nat2Z.id. apply list_eq. intros j. rewrite list_lookup_fmap.
  destruct (decide (j < length bs)%nat) as [Hj|Hj].
  - rewrite lookup_seq_lt by done.
    change (Some (s32 (get32 (4 + 4 * j) (hdr_encode (Z.of_nat (length bs)) bs d))) = bs !! j).
    rewrite hdr_decode_block by done.
    destruct (lookup_lt_is_Some_2 _ _ Hj) as [b Hbj]. rewrite nth_lookup, Hbj. simpl.
    rewrite s32_u32; [done|]. assert (b ∈ bs) as Hin by (by eapply list_elem_of_lookup_2).
    apply Hb in Hin. lia.
  - rewrite lookup_seq_ge, lookup_ge_None_2 by lia. done.
Qed.

Lemma hdr_n_clear d : (4 ≤ length d)%nat → hdr_n (put32 0 0 d) = 0.
Proof. intros Hl. unfold hdr_n. rewrite get32_put32_eq by lia. done. Qed.

Lemma hdr_blocks_nil d : hdr_n d = 0 → hdr_blocks d = [].
Proof. intros E. unfold hdr_blocks. by rewrite E. Qed.
End Pure.

Section Commit.
Context (i : nat) (p : proc) (s : kernel).
Context (Hs : st i p [] s) (Hk : log_ok s) (Ht : txn_ok s) (Hsb : sb_match s).
Context (Hclean : hdr_n (lblk s (l_start (k_log s))) = 0).

Local Definition st0 := l_start (k_log s).
Local Definition N := length (txn (k_log s)).

Lemma start_clean : ¬ isdirty s st0 ∧ 0 ≤ st0 < k_disksize s.
Proof.
  destruct Hk as [_ _ K3 K4 K5 _ K7]. unfold st0. split; [|lia].
  rewrite (tx_dirty _ Ht). intros Hin. destruct (K7 _ Hin). lia.
Qed.

Lemma view_start : view (k_disk s) st0 = lblk s st0.
Proof. symmetry. by apply (view_clean i p); [|apply start_clean..]. Qed.

Lemma home_not_log m k : home_block s m → (k ≤ N)%nat → m ∉ (log_writes s k).*1.
Proof.
  intros [H1 H2] Hle. rewrite log_writes_fst. pose proof (length_txn s Hk).
  pose proof (lk_size _ Hk). unfold N in *. lia.
Qed.
Lemma txn_is_home m : m ∈ txn (k_log s) → home_block s m.
Proof. intros Hm. by apply (lk_home _ Hk). Qed.

Lemma home_old_new m : home_block s m → m ∉ txn (k_log s) → view (k_disk s) m = lblk s m.
Proof.
  intros [Hm _] Hn. symmetry. apply (view_clean i p); [done| |done]. by rewrite (tx_dirty _ Ht).
Qed.

Lemma hdr_room : (4 + 4 * N ≤ length (lblk s st0))%nat.
Proof.
  rewrite (lblk_len _ _ (st_bio _ _ _ _ Hs)) by apply start_clean.
  pose proof (length_txn s Hk). pose proof (lk_n _ Hk). unfold N, NBUF, BSIZE in *. lia.
Qed.

Lemma hdr_block_n : hdr_n (hdr_block s) = lh_n (k_log s).
Proof.
  apply hdr_n_encode; [apply hdr_room|]. pose proof (lk_n _ Hk). unfold NBUF in *. lia.
Qed.
Lemma hdr_block_blocks : hdr_blocks (hdr_block s) = txn (k_log s).
Proof.
  apply hdr_blocks_encode; [apply hdr_room|by rewrite (length_txn s Hk)| |].
  - pose proof (lk_n _ Hk). unfold NBUF in *. lia.
  - intros b [Hb _]%txn_is_home. pose proof (lk_small _ Hk). lia.
Qed.
Lemma hdr_block_len : (4 ≤ length (hdr_block s))%nat.
Proof.
  unfold hdr_block. pose proof hdr_room. rewrite length_hdr_encode; unfold N, st0 in *; lia.
Qed.

Local Definition HW : writes := (λ b, (b, lblk s b)) <$> txn (k_log s).

Lemma HW_take_fst j m : m ∈ (take j HW).*1 → m ∈ txn (k_log s).
Proof.
  rewrite fmap_take. unfold HW. rewrite <- list_fmap_compose.
  intros Hm%subseteq_take. apply list_elem_of_fmap in Hm as (b & -> & Hb). done.
Qed.
Lemma HW_in w j : w ∈ take j HW → w.2 = lblk s w.1.
Proof. intros Hw%subseteq_take. by apply list_elem_of_fmap in Hw as (b & -> & _). Qed.

(** Before the header reaches the disk. *)
Lemma prefix_before k :
  (k ≤ N)%nat → disk_case s (apply_writes (log_writes s k) (k_disk s)) false.
Proof.
  intros Hle. apply Before.
  - rewrite view_apply, overlay_notin by (rewrite log_writes_fst; lia).
    fold st0. by rewrite view_start.
  - intros m Hm. rewrite view_apply. by apply overlay_notin, home_not_log.
Qed.

(** After it, with some of the home blocks written. *)
Lemma prefix_logged j :
  disk_case s (apply_writes (log_writes s N ++ [(st0, hdr_block s)] ++ take j HW) (k_disk s)) true.
Proof.
  assert (∀ m, ¬ home_block s m → overlay (log_writes s N ++ [(st0, hdr_block s)] ++ take j HW)
    (view (k_disk s)) m = overlay [(st0, hdr_block s)] (overlay (log_writes s N) (view (k_disk s))) m)
    as Hlog.
  { intros m Hm. rewrite !overlay_app. apply overlay_notin.
    intros Hin%HW_take_fst%txn_is_home. done. }
  assert (¬ home_block s st0) as Hst0.
  { intros [_ H]. pose proof (lk_size _ Hk). pose proof (lk_n _ Hk). unfold st0 in H. lia. }
  apply Logged; rewrite ?view_apply; fold st0; rewrite ?Hlog by done.
  - simpl. rewrite decide_True by done. apply hdr_block_blocks.
  - simpl. rewrite decide_True by done. apply hdr_block_n.
  - intros t b Hb. pose proof (lookup_lt_Some _ _ _ Hb) as Hlt. fold N in Hlt.
    pose proof (lk_size _ Hk). pose proof (length_txn s Hk). fold N in *.
    rewrite view_apply, Hlog by (intros [_ H']; unfold st0 in H'; lia).
    simpl. rewrite decide_False by lia. unfold st0.
    rewrite overlay_log_writes by done. by rewrite nth_lookup, Hb.
  - intros m Hm Hn. rewrite view_apply, !overlay_app, overlay_notin
      by (by intros ?%HW_take_fst).
    simpl. rewrite decide_False by (by intros ->).
    rewrite overlay_notin by (by apply home_not_log). by apply home_old_new.
Qed.

(** At the end. *)
Lemma prefix_done_views :
  let D := apply_writes (log_writes s N ++ [(st0, hdr_block s)] ++ HW ++
    [(st0, put32 0 0 (hdr_block s))]) (k_disk s) in
  hdr_n (view D st0) = 0 ∧ ∀ m, home_block s m → view D m = lblk s m.
Proof.
  intros D. unfold D. split.
  - rewrite view_apply, !overlay_app. simpl. rewrite decide_True by done.
    apply hdr_n_clear, hdr_block_len.
  - intros m Hm. rewrite view_apply, !overlay_app.
    assert (m ≠ st0).
    { intros ->. destruct Hm as [_ H]. pose proof (lk_size _ Hk). pose proof (lk_n _ Hk).
      unfold st0 in H. lia. }
    assert (overlay [(st0, hdr_block s)] (overlay (log_writes s N) (view (k_disk s))) m =
      view (k_disk s) m) as E.
    { simpl. rewrite decide_False by done. by apply overlay_notin, home_not_log. }
    simpl overlay at 1. rewrite decide_False by done.
    destruct (decide (m ∈ txn (k_log s))) as [Hin|Hni].
    + assert ((m, lblk s m) ∈ HW) as Hw by (apply list_elem_of_fmap; by exists m).
      apply (overlay_lookup HW _ (m, lblk s m)); [|done]. unfold HW.
      rewrite <- list_fmap_compose. rewrite (list_fmap_ext _ id), list_fmap_id by done. apply Ht.
    + rewrite overlay_notin.
      * transitivity (view (k_disk s) m); [exact E|by apply home_old_new].
      * intros Hin. apply Hni, (HW_take_fst (length HW)). by rewrite take_ge.
Qed.

Lemma prefix_done :
  disk_case s (apply_writes (log_writes s N ++ [(st0, hdr_block s)] ++ HW ++
    [(st0, put32 0 0 (hdr_block s))]) (k_disk s)) true.
Proof. destruct prefix_done_views. by apply Done. Qed.

Lemma commit_prefix k :
  ∃ cm, disk_case s (apply_writes (take k (commit_writes s)) (k_disk s)) cm ∧
    ((length (commit_writes s) ≤ k)%nat → cm = true).
Proof.
  unfold commit_writes. destruct (Z.eqb_spec (lh_n (k_log s)) 0) as [E|E].
  { exists true. split; [|done]. rewrite take_nil. apply Done.
    - change (hdr_n (view (k_disk s) st0) = 0). by rewrite view_start.
    - intros m Hm. apply home_old_new; [done|]. unfold txn. rewrite E. apply not_elem_of_nil. }
  fold N st0 HW. assert (length (log_writes s N) = N) as Hl1
    by (unfold log_writes; by rewrite length_fmap, length_seq).
  assert (length HW = N) as Hl2 by (unfold HW; by rewrite length_fmap).
  destruct (decide (k ≤ N)%nat) as [H1|H1].
  { exists false. rewrite take_app_le by lia. split.
    - unfold log_writes. rewrite <- fmap_take, take_seq.
      replace (k `min` N)%nat with k by lia. by apply (prefix_before k).
    - rewrite !length_app. simpl. lia. }
  exists true. split; [|done]. rewrite take_app_ge, Hl1 by lia.
  destruct (k - N)%nat as [|j] eqn:Ek; [lia|]. simpl.
  destruct (decide (j ≤ N)%nat) as [H2|H2].
  - rewrite take_app_le by lia. apply prefix_logged.
  - rewrite take_app_ge by lia. rewrite (take_ge [_]) by (simpl; lia). apply prefix_done.
Qed.

(** The transaction is on the home blocks. *)
Lemma commit_home m : home_block s m → view (apply_writes (commit_writes s) (k_disk s)) m = lblk s m.
Proof.
  intros Hm. unfold commit_writes. destruct (Z.eqb_spec (lh_n (k_log s)) 0) as [E|E]; [|by apply prefix_done_views].
  apply home_old_new; [done|]. unfold txn. rewrite E. apply not_elem_of_nil.
Qed.

(** All of it: the header is clear, too. *)
Lemma commit_full :
  disk_case s (apply_writes (commit_writes s) (k_disk s)) true ∧
  hdr_n (view (apply_writes (commit_writes s) (k_disk s)) st0) = 0 ∧
  ∀ m, home_block s m → view (apply_writes (commit_writes s) (k_disk s)) m = lblk s m.
Proof.
  assert (∀ D, hdr_n (view D st0) = 0 ∧ (∀ m, home_block s m → view D m = lblk s m) →
    disk_case s D true ∧ hdr_n (view D st0) = 0 ∧ ∀ m, home_block s m → view D m = lblk s m) as Hd.
  { intros D [H1 H2]. split; [by apply Done|done]. }
  apply Hd. unfold commit_writes. destruct (Z.eqb_spec (lh_n (k_log s)) 0) as [E|E].
  - split; [simpl; by rewrite view_start|].
    intros m Hm. apply home_old_new; [done|]. unfold txn. rewrite E. apply not_elem_of_nil.
  - exact prefix_done_views.
Qed.

(** *** Recovery keeps the case *)

Lemma booted_view D c m :
  booted s D c → 0 ≤ m < k_disksize s → lblk c m = view D m.
Proof.
  intros [(j & q & Hc) <- Esz Hd _] Hm. apply (view_clean j q); [done|done|by rewrite Esz].
Qed.

Lemma log_blocks_valid j : (j < N)%nat → 0 ≤ st0 + Z.of_nat j + 1 < k_disksize s.
Proof.
  intros Hj. pose proof (length_txn s Hk). destruct Hk as [_ _ K3 K4 K5 _ _].
  unfold N, st0 in *. lia.
Qed.

(** No crash loses the superblock. *)
Lemma case_sb D cm : disk_case s D cm → view D 1 = view (k_disk s) 1.
Proof.
  pose proof (sm_home _ Hsb) as H1. pose proof (sm_txn _ Hsb) as H2.
  intros [_ E|_ _ _ E|_ E]; [by apply E|rewrite E by done|rewrite E by done];
    symmetry; by apply home_old_new.
Qed.

(** The log [initlog] finds on the machine that boots. *)
Definition boot_log (c : kernel) : kernel :=
  set_k_log (sb_log (sb_decode (lblk c 1)) (k_log c)) c.

Lemma boot_log_start D cm c :
  disk_case s D cm → booted s D c → l_start (k_log (boot_log c)) = st0 ∧
  l_size (k_log (boot_log c)) = l_size (k_log s).
Proof.
  intros Hd Hb. simpl. rewrite (booted_view D c 1 Hb) by apply Hsb.
  rewrite (case_sb D cm Hd). split; apply Hsb.
Qed.

Lemma booted_bootable D cm c : disk_case s D cm → booted s D c → bootable (boot_log c).
Proof.
  intros Hd Hb. pose proof (booted_view D c st0 Hb (proj2 start_clean)) as Hv.
  destruct (boot_log_start D cm c Hd Hb) as [B7 B8].
  pose proof (length_txn s Hk). destruct Hk as [_ _ K3 K4 K5 K6 K7].
  destruct Hb as [_ _ Esz B4 B6].
  split; rewrite ?B7, ?B8; change (k_disksize (boot_log c)) with (k_disksize c); rewrite ?Esz;
    change (lblk (boot_log c) st0) with (lblk c st0); rewrite ?Hv; try done; [unfold st0; lia| |].
  - destruct Hd as [E _|_ E _ _|E _]; fold st0 in E; rewrite E; lia.
  - destruct Hd as [E _|E _ _ _|E _]; fold st0 in E.
    + rewrite (hdr_blocks_nil _ E). intros b Hb%elem_of_nil. done.
    + rewrite E. intros b Hb. by apply K7.
    + rewrite (hdr_blocks_nil _ E). intros b Hb%elem_of_nil. done.
Qed.

Lemma not_home_start : ¬ home_block s st0.
Proof. intros [_ H]. pose proof (lk_size _ Hk). pose proof (lk_n _ Hk). unfold st0 in H. lia. Qed.

(** Clearing an empty header changes no case. *)
Lemma clear_case k D (f : Z → list Z) :
  hdr_n (view D st0) = 0 → (4 ≤ length (view D st0))%nat →
  (∀ m, home_block s m → view D m = f m) →
  let D' := apply_writes (take k [(st0, put32 0 0 (view D st0))]) D in
  hdr_n (view D' st0) = 0 ∧ ∀ m, home_block s m → view D' m = f m.
Proof.
  intros E Hl Hf D'. unfold D'. destruct k as [|k]; simpl take; [done|]. rewrite take_nil.
  setoid_rewrite view_apply. simpl. split.
  - rewrite decide_True by done. by apply hdr_n_clear.
  - intros m Hm. rewrite decide_False by (intros ->; by apply not_home_start). by apply Hf.
Qed.

(** Installing the logged blocks on [D]. *)
Lemma install_logged j D :
  disk_case s D true → hdr_blocks (view D st0) = txn (k_log s) →
  hdr_n (view D st0) = lh_n (k_log s) →
  (∀ t b, txn (k_log s) !! t = Some b → view D (st0 + Z.of_nat t + 1) = lblk s b) →
  (∀ m, home_block s m → m ∉ txn (k_log s) → view D m = lblk s m) →
  disk_case s (apply_writes (take j HW) D) true.
Proof.
  intros _ E1 E2 E3 E4.
  assert (∀ m, m ∉ txn (k_log s) → view (apply_writes (take j HW) D) m = view D m) as Hv.
  { intros m Hm. rewrite view_apply. apply overlay_notin. by intros ?%HW_take_fst. }
  assert (∀ m, ¬ home_block s m → m ∉ txn (k_log s)) as Hnh by (intros m Hm ?%txn_is_home; done).
  apply Logged; fold st0; rewrite ?Hv by (apply Hnh, not_home_start); try done.
  - intros t b Hb. rewrite Hv; [by apply E3|]. apply Hnh. intros [_ H].
    pose proof (lookup_lt_Some _ _ _ Hb). pose proof (length_txn s Hk). pose proof (lk_size _ Hk).
    unfold st0, N in *. lia.
  - intros m Hm Hn. rewrite Hv by done. by apply E4.
Qed.

Lemma install_all D :
  (4 ≤ length (view D st0))%nat →
  (∀ m, home_block s m → m ∉ txn (k_log s) → view D m = lblk s m) →
  let D' := apply_writes (HW ++ [(st0, put32 0 0 (view D st0))]) D in
  hdr_n (view D' st0) = 0 ∧ ∀ m, home_block s m → view D' m = lblk s m.
Proof.
  intros Hl E4 D'. unfold D'. split; [|intros m Hm]; rewrite view_apply, overlay_app; simpl.
  { rewrite decide_True by done. by apply hdr_n_clear. }
  rewrite decide_False by (intros ->; by apply not_home_start).
  destruct (decide (m ∈ txn (k_log s))) as [Hin|Hni].
  - assert ((m, lblk s m) ∈ HW) as Hw by (apply list_elem_of_fmap; by exists m).
    apply (overlay_lookup HW _ (m, lblk s m)); [|done]. unfold HW.
    rewrite <- list_fmap_compose. rewrite (list_fmap_ext _ id), list_fmap_id by done. apply Ht.
  - rewrite overlay_notin; [by apply E4|]. intros Hin. apply Hni, (HW_take_fst (length HW)).
    by rewrite take_ge.
Qed.

Lemma recover_writes_logged D c :
  booted s D c → hdr_blocks (view D st0) = txn (k_log s) →
  (∀ t b, txn (k_log s) !! t = Some b → view D (st0 + Z.of_nat t + 1) = lblk s b) →
  recover_writes st0 (lblk c) = HW ++ [(st0, put32 0 0 (view D st0))].
Proof.
  intros Hb E1 E3. unfold recover_writes. rewrite (booted_view D c st0 Hb (proj2 start_clean)).
  rewrite E1. f_equal. unfold HW. apply list_eq. intros t.
  rewrite list_lookup_imap, list_lookup_fmap. destruct (txn (k_log s) !! t) as [b|] eqn:Eb; [|done].
  simpl. rewrite (booted_view D c) by (try done; apply log_blocks_valid; by eapply lookup_lt_Some).
  by rewrite (E3 t b).
Qed.

Lemma recover_writes_clean D c :
  booted s D c → hdr_n (view D st0) = 0 →
  recover_writes st0 (lblk c) = [(st0, put32 0 0 (view D st0))].
Proof.
  intros Hb E. unfold recover_writes. rewrite (booted_view D c st0 Hb (proj2 start_clean)).
  by rewrite (hdr_blocks_nil _ E).
Qed.

Definition final (cm : bool) (m : Z) : list Z := if cm then lblk s m else view (k_disk s) m.

Lemma recover_case D cm c :
  disk_case s D cm → booted s D c →
  let ws := recover_writes st0 (lblk c) in
  (∀ k, disk_case s (apply_writes (take k ws) D) cm) ∧
  (∀ m, home_block s m → view (apply_writes ws D) m = final cm m).
Proof.
  intros Hd Hb ws. unfold ws.
  assert (4 ≤ length (view D st0))%nat as Hl.
  { rewrite <- (booted_view D c st0 Hb (proj2 start_clean)). destruct Hb as [(j & q & Hc) _ Esz _ _].
    rewrite (lblk_len c st0); [unfold BSIZE; lia|apply Hc|rewrite Esz; apply start_clean]. }
  destruct Hd as [E1 E2|E1 E2 E3 E4|E1 E2]; fold st0 in *.
  - rewrite (recover_writes_clean D c Hb E1). split.
    + intros k. destruct (clear_case k D _ E1 Hl E2). by apply Before.
    + by destruct (clear_case 1 D _ E1 Hl E2).
  - rewrite (recover_writes_logged D c Hb E1 E3). destruct (install_all D Hl E4) as [F1 F2].
    split; [|done]. intros k. destruct (decide (k ≤ length HW)%nat).
    + rewrite take_app_le by done. apply install_logged; try done. by apply Logged.
    + rewrite take_ge by (rewrite length_app; simpl; lia). by apply Done.
  - rewrite (recover_writes_clean D c Hb E1). split.
    + intros k. destruct (clear_case k D _ E1 Hl E2). by apply Done.
    + by destruct (clear_case 1 D _ E1 Hl E2).
Qed.
End Commit.

(** ** The theorem *)

Section Atomic.
Context `{WaitBound}.
Implicit Types (s c : kernel) (D : gmap Z (list Z)).

(** A recovery that starts on disk [D] and is cut short after some of its
    writes leaves [D']. *)
Definition recovery_crash (s : kernel) (D D' : gmap Z (list Z)) : Prop :=
  ∃ c c' ws k, booted s D c ∧ initlog 1 c = Ok tt c' ∧
    k_wtrace c' = reverse ws ++ k_wtrace c ∧ D' = apply_writes (take k ws) D.

(** No transaction is in progress or half-installed on the disk of [s]. *)
Definition log_clean (s : kernel) : Prop := hdr_n (lblk s (l_start (k_log s))) = 0.

Context (i : nat) (p : proc) (s : kernel).
Context (Hs : st i p [] s) (Hk : log_ok s) (Ht : txn_ok s) (Hsb : sb_match s).

Lemma recover_run D cm c :
  disk_case s D cm → booted s D c →
  ∃ c', initlog 1 c = Ok tt c' ∧
    k_wtrace c' = reverse (recover_writes (l_start (k_log s)) (lblk c)) ++ k_wtrace c ∧
    k_disk c' = apply_writes (recover_writes (l_start (k_log s)) (lblk c)) D ∧
    ∀ m, home_block s m → lblk c' m = final s cm m ∧ view (k_disk c') m = final s cm m.
Proof.
  intros Hd Hb. pose proof Hb as [(j & q & Hst) Hdk Esz Hnd0 _].
  pose proof (booted_bootable i p s Hs Hk Ht Hsb D cm c Hd Hb) as Hboot.
  destruct (boot_log_start i p s Hs Ht Hsb D cm c Hd Hb) as [Els _].
  destruct (recover_case s Hk Ht D cm c Hd Hb) as [_ Hfin].
  assert (1 < k_disksize c) as H1 by (rewrite Esz; destruct (sm_home _ Hsb); lia).
  assert (wp (initlog 1) (λ _ s', st j q [] s' ∧
    wrote (recover_writes (l_start (k_log (boot_log c))) (lblk c)) c s' ∧ ∀ m, ¬ isdirty s' m) c)
    as ([] & c' & Hrun & Hc' & [W1 W2 W3 W4 W5] & Hnd)%wp_ok by (by eapply wp_initlog; eauto).
  rewrite Els, Hdk in *. exists c'. split; [done|]. split; [done|]. split; [done|].
  intros m Hm. assert (view (k_disk c') m = final s cm m) as Hv by (rewrite W2; by apply Hfin).
  split; [|done]. rewrite <- Hv. apply (view_clean j q); [done|by apply Hnd|].
  destruct W1 as [lg W1]. rewrite (bufs_only_disksize _ _ W1). simpl. rewrite Esz. apply Hm.
Qed.

Lemma reverse_app_inj {A} (l1 l2 k : list A) : reverse l1 ++ k = reverse l2 ++ k → l1 = l2.
Proof. intros E%app_inv_tail. by apply (inj reverse). Qed.

Lemma recovery_crash_case D D' cm :
  disk_case s D cm → recovery_crash s D D' → disk_case s D' cm.
Proof.
  intros Hd (c & c' & ws & k & Hb & Hrun & Htr & ->).
  destruct (recover_run D cm c Hd Hb) as (c2 & Hrun2 & Htr2 & _).
  rewrite Hrun in Hrun2. injection Hrun2 as <-.
  rewrite Htr2 in Htr. apply reverse_app_inj in Htr as <-.
  by apply (recover_case s Hk Ht).
Qed.
End Atomic.

(** C1. A transaction is atomic with respect to crashes.  From a quiet state with
    a well-formed log, [commit] returns; cut its disk writes after any number [k]
    of them, let any number of machines boot on the disk and be cut short in their
    recovery in turn, then let one run on: [initlog] returns, and every block
    outside the log holds either what it held on disk before the commit or what
    the transaction had put in the cache -- the same answer for all blocks, and
    the second one if the commit had finished. *)
Theorem commit_crash_atomic `{WaitBound} (i : nat) (p : proc) (s : kernel) :
  st i p [] s → log_ok s → txn_ok s → log_clean s → sb_match s →
  ∃ s' ws, commit s = Ok tt s' ∧ k_wtrace s' = reverse ws ++ k_wtrace s ∧
    ∀ k D c, rtc (recovery_crash s) (apply_writes (take k ws) (k_disk s)) D → booted s D c →
      ∃ c', initlog 1 c = Ok tt c' ∧
        ((∀ m, home_block s m → lblk c' m = view (k_disk s) m ∧ view (k_disk c') m = view (k_disk s) m)
           ∧ (k < length ws)%nat ∨
         (∀ m, home_block s m → lblk c' m = lblk s m ∧ view (k_disk c') m = lblk s m)).
Proof.
  intros Hs Hk Ht Hc Hsb.
  assert (wp commit (λ _ s', wrote (commit_writes s) s s') s) as ([] & s' & Hrun & Hw)%wp_ok
    by (by apply (wp_commit i p)).
  exists s', (commit_writes s). split; [done|]. split; [apply Hw|].
  intros k D c Hcr Hb. destruct (commit_prefix i p s Hs Hk Ht Hc k) as (cm & Hcase & Hend).
  assert (disk_case s D cm) as HD.
  { clear Hb Hend. induction Hcr as [|x y z Hxy _ IH]; [done|].
    by apply IH, (recovery_crash_case i p s Hs Hk Ht Hsb x). }
  destruct (recover_run i p s Hs Hk Ht Hsb D cm c HD Hb) as (c' & Hrun' & _ & _ & Hfin).
  exists c'. split; [done|]. destruct cm; [by right|]. left. split; [done|].
  destruct (decide (k < length (commit_writes s))%nat); [done|].
  assert (false = true) by (apply Hend; lia). done.
Qed.

Lemma demo_clean s s0 :
  demo_open s0 s → lblk s0 2 = replicate (Z.to_nat BSIZE) 0 → log_clean s.
Proof.
  intros [_ _ _ Hl _ _ Hv] H0. unfold log_clean. rewrite Hv, Hl. change (l_start _) with 2.
  rewrite decide_False, decide_False by lia. by rewrite H0.
Qed.

Lemma demo_header : lblk demo_boot 2 = replicate (Z.to_nat BSIZE) 0.
Proof.
  destruct demo_boot_ok as (Hs & Hd & Hdk & Hsz & _).
  rewrite (view_clean 0 demo_proc demo_boot 2 Hs (Hd 2)) by (rewrite Hsz; lia).
  rewrite Hdk. unfold view. by rewrite demo_disk_lookup by lia.
Qed.

Lemma demo_open_sb s s0 :
  demo_open s0 s → view (k_disk s0) 1 = demo_block 1 → k_disksize s0 = 8 → sb_match s.
Proof.
  intros [_ _ _ Hl Hdk Hz _] H1 Hsz. split; unfold home_block; rewrite ?Hdk, ?H1, ?Hz, ?Hsz, Hl.
  - simpl. lia.
  - change (txn _) with [6; 7]. set_solver.
  - reflexivity.
  - reflexivity.
Qed.

Lemma demo_sb : sb_match demo_txn.
Proof.
  destruct demo_boot_ok as (_ & _ & Hdk & Hsz & _).
  apply (demo_open_sb _ demo_boot); [exact demo_txn_ok| |exact Hsz].
  rewrite Hdk. unfold view. rewrite demo_disk_lookup by lia. reflexivity.
Qed.

Lemma commit_crash_atomic_witness :
  txn (k_log demo_txn) = [6; 7] ∧
  ∃ s' ws, commit (H := 0%nat) demo_txn = Ok tt s' ∧ k_wtrace s' = reverse ws ++ k_wtrace demo_txn.
Proof.
  pose proof demo_txn_ok as Hd. split; [rewrite (do_klog _ _ Hd); reflexivity|].
  destruct (commit_crash_atomic (H := 0%nat) 0 demo_proc demo_txn (do_st _ _ Hd) (do_log _ _ Hd)
    (do_txn _ _ Hd) (demo_clean _ _ Hd demo_header) demo_sb) as (s' & ws & Hrun & Htr & _).
  exists s', ws. split; [exact Hrun|exact Htr].
Defined.

(** ** What the log promises to the file system *)

(** C21. [begin_op] reserves log space under every interleaving.  Whatever other
    processes do to the log while it waits, it does not panic, waits only asleep
    on the log's channel with [log.lock] released, and returns only from a state
    in which no commit was running and the log had room for every operation then
    outstanding and for one more, which it has counted. *)
Theorem begin_op_reserves `{WaitBound} (i : nat) (p : proc) (s : kernel) :
  running s i p → k_held s = [] →
  rg (resumed i (p_pid p)) (sleeping i ChLog)
     (λ _ s', k_held s' = [] ∧ l_committing (k_log s') = false ∧
        lh_n (k_log s') + l_outstanding (k_log s') * MAXOPBLOCKS ≤ LOGSIZE ∧
        ∃ s1, s' = set_k_held [] (set_k_log (enter (k_log s1)) s1))
     (begin_op s).
Proof.
  intros Hr Hh. unfold begin_op. apply rg_bind, wp_rg, wp_acquire; [rewrite Hh; apply not_elem_of_nil|].
  rewrite Hh. apply (rg_begin_op_wait _ _ i (p_pid p)); [done|by exists p|done|].
  intros s' _ Hm. unfold must_wait in Hm. apply orb_false_iff in Hm as [Hc Hl].
  rewrite Z.gtb_ltb, Z.ltb_ge in Hl. split; [done|]. split; [done|]. split; [simpl; lia|]. by exists s'.
Qed.

Lemma begin_op_reserves_witness :
  rg (resumed 0 1) (sleeping 0 ChLog)
     (λ _ s', k_held s' = [] ∧ l_committing (k_log s') = false ∧
        lh_n (k_log s') + l_outstanding (k_log s') * MAXOPBLOCKS ≤ LOGSIZE ∧
        ∃ s1, s' = set_k_held [] (set_k_log (enter (k_log s1)) s1))
     (begin_op (H := 4%nat) demo_kernel).
Proof. apply (begin_op_reserves (H := 4%nat) 0 demo_proc demo_kernel); [split|]; reflexivity. Defined.

(** C2. The last [end_op] makes the transaction durable.  It returns; every block
    outside the log is then on disk as the transaction left it in the cache, and
    still reads so; the log is empty, nothing is pinned, and every process that
    slept on the log is RUNNABLE. *)
Theorem end_op_durable `{WaitBound} (i : nat) (p : proc) (s : kernel) :
  st i p [] s → log_ok s → txn_ok s → log_clean s →
  l_committing (k_log s) = false → l_outstanding (k_log s) = 1 →
  wp end_op (λ _ s',
    (∀ m, home_block s m → view (k_disk s') m = lblk s m ∧ lblk s' m = lblk s m) ∧
    k_log s' = closed (k_log s) ∧ hdr_n (view (k_disk s') (l_start (k_log s))) = 0 ∧
    (∀ m, ¬ isdirty s' m) ∧
    ∀ j q, k_ptable s' !! j = Some q → ¬ (p_state q = SLEEPING ∧ p_chan q = Some ChLog)) s.
Proof.
  intros Hs Hk Ht Hcl Hc Ho. apply (wp_end_op_last i p); [done..|]. intros s1 Hs1 Hw L1.
  assert (k_disk s1 = apply_writes (commit_writes s) (k_disk s)) as Hdk by apply Hw.
  assert (disk_case s (k_disk s1) true ∧ hdr_n (view (k_disk s1) (l_start (k_log s))) = 0 ∧
    ∀ m, home_block s m → view (k_disk s1) m = lblk s m) as (_ & Hh & Hv)
    by (rewrite Hdk; by apply (commit_full i p s)).
  assert (∀ m, ¬ isdirty s1 m) as Hnd.
  { intros m. rewrite (wr_dirty _ _ _ Hw). intros [Hd Hni]. apply (tx_dirty _ Ht) in Hd.
    by apply Hni, (commit_writes_txn s). }
  split; [|split; [done|split; [done|split; [done|]]]].
  - intros m Hm. split; [by apply Hv|]. change (lblk s1 m = lblk s m).
    rewrite (view_clean i p s1 m Hs1 (Hnd m)); [by apply Hv|].
    rewrite (wrote_disksize _ _ _ Hw). apply Hm.
  - intros j q Hq [H1 H2]. simpl in Hq. apply list_lookup_fmap_Some in Hq as (q0 & -> & _).
    unfold wake in H1, H2. case_bool_decide as E1; simpl in *; [|congruence].
    case_bool_decide as E2; simpl in *; congruence.
Qed.

Lemma end_op_durable_witness :
  wp (end_op (H := 0%nat)) (λ _ s', view (k_disk s') 6 = replicate (Z.to_nat BSIZE) 7 ∧
    view (k_disk s') 7 = replicate (Z.to_nat BSIZE) 9) demo_txn.
Proof.
  pose proof demo_txn_ok as Hd. destruct demo_boot_ok as (_ & _ & _ & Hsz & _).
  assert (∀ m, m = 6 ∨ m = 7 → home_block demo_txn m) as Hh.
  { intros m Hm. unfold home_block. rewrite (do_klog _ _ Hd), (do_size _ _ Hd), Hsz. simpl. lia. }
  eapply wp_mono.
  - apply (end_op_durable (H := 0%nat) 0 demo_proc demo_txn (do_st _ _ Hd) (do_log _ _ Hd)
      (do_txn _ _ Hd) (demo_clean _ _ Hd demo_header)); rewrite (do_klog _ _ Hd); reflexivity.
  - intros u s' (Hv & _). destruct (Hv 6 (Hh 6 (or_introl eq_refl))) as [-> _].
    destruct (Hv 7 (Hh 7 (or_intror eq_refl))) as [-> _]. rewrite !(do_lblk _ _ Hd).
    split; reflexivity.
Defined.

(** C20. A logged update is invisible to the disk until the commit.  The pattern
    bread / modify / log_write / brelse that every file-system routine uses
    returns; the block then reads as updated and every other block as before;
    nothing is written to disk; the block is pinned and recorded in the
    transaction -- once, however often it is written. *)
Theorem logged_update `{WaitBound} (i : nat) (p : proc) (s : kernel) (n : Z) (g : list Z → list Z) :
  st i p [] s → log_ok s → txn_ok s → home_block s n →
  lh_n (k_log s) < l_size (k_log s) - 1 → l_size (k_log s) ≤ Z.of_nat NBUF →
  1 ≤ l_outstanding (k_log s) →
  (∀ d, length d = Z.to_nat BSIZE → length (g d) = Z.to_nat BSIZE) →
  wp (txn_write n g) (λ _ s', st i p [] s' ∧ log_ok s' ∧ txn_ok s' ∧
    k_disk s' = k_disk s ∧ k_wtrace s' = k_wtrace s ∧
    (∀ m, lblk s' m = if decide (m = n) then g (lblk s n) else lblk s m) ∧
    txn (k_log s') = if decide (n ∈ txn (k_log s)) then txn (k_log s) else txn (k_log s) ++ [n]) s.
Proof.
  intros Hs Hk Ht Hn H1 H2 H3 Hg. pose proof Hk as [_ K2 K3 _ _ _ _].
  assert (lh_n (k_log s) < LOGSIZE) by (unfold NBUF, LOGSIZE, MAXOPBLOCKS in *; lia).
  apply (spec_txn_write i p); [done..|]. intros s' A1 A2 A3 A4 A5 A6 _ A7.
  repeat (split; [done|]). rewrite A4. apply txn_absorb; [lia|].
  rewrite K2. change LOGSIZEn with NBUF. lia.
Qed.

Lemma logged_update_witness :
  wp (txn_write (H := 0%nat) 6 (λ _, replicate (Z.to_nat BSIZE) 1))
    (λ _ s', txn (k_log s') = [6; 7] ∧ k_disk s' = k_disk demo_txn) demo_txn.
Proof.
  pose proof demo_txn_ok as Hd. destruct demo_boot_ok as (_ & _ & _ & Hsz & _).
  eapply wp_mono.
  - apply (logged_update (H := 0%nat) 0 demo_proc demo_txn 6 (λ _, replicate (Z.to_nat BSIZE) 1)
      (do_st _ _ Hd) (do_log _ _ Hd) (do_txn _ _ Hd)).
    + unfold home_block. rewrite (do_klog _ _ Hd), (do_size _ _ Hd), Hsz. simpl. lia.
    + rewrite (do_klog _ _ Hd). reflexivity.
    + rewrite (do_klog _ _ Hd). simpl. discriminate.
    + rewrite (do_klog _ _ Hd). simpl. discriminate.
    + intros d _. reflexivity.
  - intros u s' (_ & _ & _ & Hdk & _ & _ & Hx). split; [|exact Hdk].
    rewrite Hx, (do_klog _ _ Hd). reflexivity.
Defined.


