(* ===== verification/Inode.v ===== *)
(** * Inode: blocks and inodes (the first three layers of fs.c)

    The block allocator, the inode cache and the map from a file's blocks to
    disk blocks.  A [struct inode *] is the index of its slot in [icache.inode];
    the struct's fields that live on disk are read and written at their offsets
    in the 512-byte blocks. *)

From S2P Require Import Prelude State Lock Console Bio BufSpec Log.

(** ** Layout ([fs.h]) *)

Definition BPB : Z := BSIZE * 8.
Definition DINODESIZE : Z := 64.
Definition IPB : Z := BSIZE / DINODESIZE.
Definition IBLOCK (i : Z) (sb : superblock) : Z := u32 (i / IPB + sb_inodestart sb).
Definition BBLOCK (b : Z) (sb : superblock) : Z := u32 (b / BPB + sb_bmapstart sb).

Record dinode := mkDinode {
  di_type : Z; di_major : Z; di_minor : Z; di_nlink : Z; di_size : Z; di_addrs : list Z }.

(** The words of an array of [n] uints at offset [off]. *)
Fixpoint get32s (n off : nat) (d : list Z) : list Z :=
  match n with O => [] | S n' => get32 off d :: get32s n' (off + 4) d end.
Fixpoint put32s (vs : list Z) (off : nat) (d : list Z) : list Z :=
  match vs with [] => d | v :: vs' => put32s vs' (off + 4) (put32 off v d) end.

(** The offset in its block of the disk inode [inum]. *)
Definition dinode_off (inum : Z) : nat := Z.to_nat (inum mod IPB * DINODESIZE).
Definition dinode_get (o : nat) (d : list Z) : dinode :=
  mkDinode (s16 (get16 o d)) (s16 (get16 (o + 2) d)) (s16 (get16 (o + 4) d))
    (s16 (get16 (o + 6) d)) (get32 (o + 8) d) (get32s 13 (o + 12) d).
Definition dinode_put (o : nat) (di : dinode) (d : list Z) : list Z :=
  put32s (di_addrs di) (o + 12) (put32 (o + 8) (di_size di)
    (put16 (o + 6) (u16 (di_nlink di)) (put16 (o + 4) (u16 (di_minor di))
      (put16 (o + 2) (u16 (di_major di)) (put16 o (u16 (di_type di)) d))))).

Definition to_dinode (ip : inode) : dinode :=
  mkDinode (i_type ip) (i_major ip) (i_minor ip) (i_nlink ip) (i_size ip) (i_addrs ip).
Definition from_dinode (di : dinode) (ip : inode) : inode :=
  set_i_addrs (di_addrs di) (set_i_size (di_size di) (set_i_nlink (di_nlink di)
    (set_i_minor (di_minor di) (set_i_major (di_major di) (set_i_type (di_type di) ip))))).

(** ** Blocks *)

(** Bit [bi] of a bitmap block. *)
Definition bit_mask (bi : Z) : Z := Z.shiftl 1 (bi mod 8).
Definition bit_byte (bi : Z) : nat := Z.to_nat (bi / 8).
Definition bit_free (d : list Z) (bi : Z) : bool :=
  Z.land (default 0 (d !! bit_byte bi)) (bit_mask bi) =? 0.
Definition bit_set (bi : Z) (d : list Z) : list Z :=
  alter (λ x, u8 (Z.lor x (bit_mask bi))) (bit_byte bi) d.
Definition bit_clear (bi : Z) (d : list Z) : list Z :=
  alter (λ x, u8 (Z.land x (Z.lnot (bit_mask bi)))) (bit_byte bi) d.

(** The inner loop of [balloc]: the first free bit of the block that maps the
    blocks from [b] on. *)
Fixpoint bit_scan (fuel : nat) (d : list Z) (b bi size : Z) : option Z :=
  match fuel with
  | O => None
  | S fuel' =>
      if b + bi <? size then
        if bit_free d bi then Some bi else bit_scan fuel' d b (bi + 1) size
      else None
  end.

Section Ops.
Context `{WaitBound}.

Definition bzero (dev bno : Z) : K unit :=
  bp ← bread dev bno;
  set_data bp (replicate (Z.to_nat BSIZE) 0) ;;
  log_write bp ;;
  brelse bp.

(** The outer loop of [balloc]. *)
Fixpoint balloc_loop (fuel : nat) (dev b : Z) : K Z :=
  sb ← gets k_sb;
  if b <? sb_size sb then
    bp ← bread dev (BBLOCK b sb);
    d ← get_data bp;
    match bit_scan (Z.to_nat BPB) d b 0 (sb_size sb) with
    | Some bi =>
        set_data bp (bit_set bi d) ;;
        log_write bp ;;
        brelse bp ;;
        bzero dev (b + bi) ;;
        mret (b + bi)
    | None =>
        brelse bp ;;
        match fuel with O => nofuel | S fuel' => balloc_loop fuel' dev (b + BPB) end
    end
  else panic "balloc: out of blocks".

(** A 32-bit size spans at most 2^20 bitmap blocks. *)
Definition balloc (dev : Z) : K Z :=
  sb ← gets k_sb; balloc_loop (Z.to_nat (sb_size sb / BPB + 1)) dev 0.

Definition bfree (dev b : Z) : K unit :=
  sb ← gets k_sb;
  bp ← bread dev (BBLOCK b sb);
  let bi := b mod BPB in
  d ← get_data bp;
  if bit_free d bi then panic "freeing free block" else
  set_data bp (bit_clear bi d) ;;
  log_write bp ;;
  brelse bp.

(** ** Inodes *)

Definition iinit (dev : Z) : K unit :=
  forM (seq 0 NINODE) (λ i, initsleeplock (SInode i)) ;;
  sb ← readsb dev;
  modify (set_k_sb sb) ;;
  cprintf (str "sb: size %d nblocks %d ninodes %d nlog %d logstart %d inodestart %d bmap start %d" ++ [NL])
    [CInt (sb_size sb); CInt (sb_nblocks sb); CInt (sb_ninodes sb); CInt (sb_nlog sb);
     CInt (sb_logstart sb); CInt (sb_inodestart sb); CInt (sb_bmapstart sb)].

(** The loop of [iget]: the slot of the inode, or the first empty slot. *)
Fixpoint iget_scan (l : list inode) (j : nat) (empty : option nat) (dev inum : Z) : nat + option nat :=
  match l with
  | [] => inr empty
  | ip :: l =>
      if (i_ref ip >? 0) && (i_dev ip =? dev) && (i_inum ip =? inum) then inl j
      else iget_scan l (S j)
             (match empty with None => if i_ref ip =? 0 then Some j else None | Some _ => empty end)
             dev inum
  end.

Definition iget (dev inum : Z) : K nat :=
  acquire Licache ;;
  l ← gets k_icache;
  match iget_scan l 0 None dev inum with
  | inl i =>
      upd_inode i (λ ip, set_i_ref (i_ref ip + 1) ip) ;;
      release Licache ;;
      mret i
  | inr None => panic "iget: no inodes"
  | inr (Some i) =>
      upd_inode i (λ ip, set_i_valid false (set_i_ref 1 (set_i_inum inum (set_i_dev dev ip)))) ;;
      release Licache ;;
      mret i
  end.

(** The loop of [ialloc] from [inum] on. *)
Fixpoint ialloc_loop (fuel : nat) (dev inum type : Z) : K nat :=
  sb ← gets k_sb;
  if inum <? sb_ninodes sb then
    bp ← bread dev (IBLOCK inum sb);
    d ← get_data bp;
    let o := dinode_off inum in
    if get16 o d =? 0 then
      set_data bp (put16 o (u16 type) (splice o (replicate (Z.to_nat DINODESIZE) 0) d)) ;;
      log_write bp ;;
      brelse bp ;;
      iget dev inum
    else
      brelse bp ;;
      match fuel with O => nofuel | S fuel' => ialloc_loop fuel' dev (inum + 1) type end
  else panic "ialloc: no inodes".

Definition ialloc (dev type : Z) : K nat :=
  sb ← gets k_sb; ialloc_loop (Z.to_nat (sb_ninodes sb)) dev 1 type.

Definition iupdate (ip : nat) : K unit :=
  v ← get_inode ip;
  sb ← gets k_sb;
  bp ← bread (i_dev v) (IBLOCK (i_inum v) sb);
  d ← get_data bp;
  set_data bp (dinode_put (dinode_off (i_inum v)) (to_dinode v) d) ;;
  log_write bp ;;
  brelse bp.

Definition idup (ip : nat) : K nat :=
  acquire Licache ;;
  upd_inode ip (λ v, set_i_ref (i_ref v + 1) v) ;;
  release Licache ;;
  mret ip.

Definition fsemaphore_lock (ip : nat) : K unit :=
  v ← get_inode ip;
  if i_ref v <? 1 then panic "flock" else acquiresleep (SFlock ip).

Definition fsemaphore_unlock (ip : nat) : K unit :=
  h ← holdingsleep (SFlock ip);
  v ← get_inode ip;
  if negb h || (i_ref v <? 1) then panic "funlock" else releasesleep (SFlock ip).

Definition ilock (ip : nat) : K unit :=
  v ← get_inode ip;
  if i_ref v <? 1 then panic "ilock" else
  acquiresleep (SInode ip) ;;
  v ← get_inode ip;
  when (negb (i_valid v))
    (sb ← gets k_sb;
     bp ← bread (i_dev v) (IBLOCK (i_inum v) sb);
     d ← get_data bp;
     upd_inode ip (from_dinode (dinode_get (dinode_off (i_inum v)) d)) ;;
     brelse bp ;;
     upd_inode ip (set_i_valid true) ;;
     v ← get_inode ip;
     when (i_type v =? 0) (panic "ilock: no type")).

Definition iunlock (ip : nat) : K unit :=
  h ← holdingsleep (SInode ip);
  v ← get_inode ip;
  if negb h || (i_ref v <? 1) then panic "iunlock" else releasesleep (SInode ip).

(** [bp->data] of the indirect block as an array of uints. *)
Definition NIND : nat := Z.to_nat NINDIRECT.

Definition bmap (ip : nat) (bn : Z) : K Z :=
  v ← get_inode ip;
  if bn <? NDIRECT then
    addr ← deref (i_addrs v !! Z.to_nat bn);
    if addr =? 0 then
      addr ← balloc (i_dev v);
      upd_inode ip (λ v, set_i_addrs (<[Z.to_nat bn := addr]> (i_addrs v)) v) ;;
      mret addr
    else mret addr
  else
  let bn := bn - NDIRECT in
  if bn <? NINDIRECT then
    addr ← deref (i_addrs v !! Z.to_nat NDIRECT);
    addr ← (if addr =? 0 then
              addr ← balloc (i_dev v);
              upd_inode ip (λ v, set_i_addrs (<[Z.to_nat NDIRECT := addr]> (i_addrs v)) v) ;;
              mret addr
            else mret addr);
    bp ← bread (i_dev v) addr;
    d ← get_data bp;
    let a := get32 (4 * Z.to_nat bn) d in
    addr ← (if a =? 0 then
              addr ← balloc (i_dev v);
              d ← get_data bp;
              set_data bp (put32 (4 * Z.to_nat bn) addr d) ;;
              log_write bp ;;
              mret addr
            else mret a);
    brelse bp ;;
    mret addr
  else panic "bmap: out of range".

Definition itrunc (ip : nat) : K unit :=
  forM (seq 0 (Z.to_nat NDIRECT)) (λ i,
    v ← get_inode ip;
    addr ← deref (i_addrs v !! i);
    when (negb (addr =? 0))
      (bfree (i_dev v) addr ;;
       upd_inode ip (λ v, set_i_addrs (<[i := 0]> (i_addrs v)) v))) ;;
  v ← get_inode ip;
  addr ← deref (i_addrs v !! Z.to_nat NDIRECT);
  when (negb (addr =? 0))
    (bp ← bread (i_dev v) addr;
     forM (seq 0 NIND) (λ j,
       d ← get_data bp;
       let a := get32 (4 * j) d in
       when (negb (a =? 0)) (bfree (i_dev v) a)) ;;
     brelse bp ;;
     bfree (i_dev v) addr ;;
     upd_inode ip (λ v, set_i_addrs (<[Z.to_nat NDIRECT := 0]> (i_addrs v)) v)) ;;
  upd_inode ip (set_i_size 0) ;;
  iupdate ip.

Definition iput (ip : nat) : K unit :=
  acquiresleep (SInode ip) ;;
  v ← get_inode ip;
  when (i_valid v && (i_nlink v =? 0))
    (acquire Licache ;;
     v ← get_inode ip;
     let r := i_ref v in
     release Licache ;;
     when (r =? 1)
       (itrunc ip ;;
        upd_inode ip (set_i_type 0) ;;
        iupdate ip ;;
        upd_inode ip (set_i_valid false))) ;;
  releasesleep (SInode ip) ;;
  acquire Licache ;;
  upd_inode ip (λ v, set_i_ref (i_ref v - 1) v) ;;
  release Licache.

Definition iunlockput (ip : nat) : K unit := iunlock ip ;; iput ip.
End Ops.

Record stat := mkStat { st_type : Z; st_dev : Z; st_ino : Z; st_nlink : Z; st_size : Z }.
Definition stati (ip : nat) : K stat :=
  v ← get_inode ip;
  mret (mkStat (i_type v) (s32 (i_dev v)) (i_inum v) (i_nlink v) (i_size v)).
