(* ===== verification/Devs.v ===== *)
(** * Devs: console input and the device drivers

    The line discipline of console.c, the keyboard driver (kbd.c, kbd.h), and
    the drivers behind the device switch: console, zero.c, null.c, ticks.c and
    dhello.c.  A driver's [read] returns the bytes it stored at [dst] and its
    result; its [write] gets the [n] bytes at [buf]. *)

From S2P Require Import Prelude State Strings Lock Console Printf Kalloc Pipe Bio Log Inode.

(** ** Call stacks and the process listing (spinlock.c, proc.c) *)

(** A 32-bit load at a kernel address. *)
Definition load32 (a : Z) : K Z :=
  get_word (a / PGSIZE * PGSIZE) (Z.to_nat (a mod PGSIZE / 4)).

(** The first loop of [getcallerpcs], [n] entries left. *)
Fixpoint pcs_loop (n : nat) (ebp : Z) : K (list Z) :=
  match n with
  | O => mret []
  | S n' =>
      if (ebp =? 0) || (ebp <? KERNBASE) || (ebp =? 0xffffffff) then mret [] else
      pc ← load32 (u32 (ebp + 4));
      ebp' ← load32 ebp;
      pcs ← pcs_loop n' ebp';
      mret (pc :: pcs)
  end.
Definition getcallerpcs (v : Z) : K (list Z) :=
  pcs ← pcs_loop 10 (u32 (v - 8));
  mret (pcs ++ replicate (10 - length pcs) 0).

Definition states (st : procstate) : list Z :=
  match st with
  | UNUSED => str "unused" | EMBRYO => str "embryo" | SLEEPING => str "sleep "
  | RUNNABLE => str "runble" | RUNNING => str "run   " | ZOMBIE => str "zombie"
  end.

(** The loop over [pc] in [procdump]. *)
Fixpoint dump_pcs (pc : list Z) : K unit :=
  match pc with
  | [] => mret tt
  | x :: pc' => if x =? 0 then mret tt else cprintf (str " %p") [CInt x] ;; dump_pcs pc'
  end.
Definition procdump : K unit :=
  forM (seq 0 NPROC) (λ i,
    p ← get_proc i;
    if bool_decide (p_state p = UNUSED) then mret tt else
    cprintf (str "%d %s %s") [CInt (p_pid p); CStr (Some (states (p_state p))); CStr (Some (upto0 (p_name p)))] ;;
    when (bool_decide (p_state p = SLEEPING))
      (pc ← getcallerpcs (u32 (cx_ebp (p_context p) + 8)); dump_pcs pc) ;;
    cprintf [NL] []).

(** ** Console input (console.c) *)

(** [C(x)]: control-x. *)
Definition CTRL (x : Ascii.ascii) : Z := ch x - ch "@".
Arguments CTRL _%_char_scope.

Definition upd_input (f : input → input) : K unit := modify (λ s, set_k_input (f (k_input s)) s).
(** [input.buf[i % INPUT_BUF]] *)
Definition in_at (i : Z) (inp : input) : option Z := in_buf inp !! Z.to_nat (u32 i mod INPUT_BUF).
(** [input.e--] *)
Definition in_erase (inp : input) : input := mkInput (in_buf inp) (in_r inp) (in_w inp) (u32 (in_e inp - 1)).
(** [input.buf[input.e++ % INPUT_BUF] = c] *)
Definition in_add (c : Z) (inp : input) : input :=
  mkInput (<[Z.to_nat (in_e inp mod INPUT_BUF) := u8 c]> (in_buf inp)) (in_r inp) (in_w inp) (u32 (in_e inp + 1)).
(** [input.w = input.e] *)
Definition in_commit (inp : input) : input := mkInput (in_buf inp) (in_r inp) (in_e inp) (in_e inp).
(** [input.r++], [input.r--] *)
Definition in_take (inp : input) : input := mkInput (in_buf inp) (u32 (in_r inp + 1)) (in_w inp) (in_e inp).
Definition in_untake (inp : input) : input := mkInput (in_buf inp) (u32 (in_r inp - 1)) (in_w inp) (in_e inp).

(** The kill-line loop; there are at most [input.e - input.w] characters to erase. *)
Fixpoint kill_line (fuel : nat) : K unit :=
  inp ← gets k_input;
  if in_e inp =? in_w inp then mret tt else
  c ← deref (in_at (in_e inp - 1) inp);
  if c =? NL then mret tt else
  upd_input in_erase ;;
  consputc BACKSPACE ;;
  match fuel with O => nofuel | S fuel' => kill_line fuel' end.

(** The body of [consoleintr]'s loop for one character; [true] asks for the
    process listing. *)
Definition consoleintr_char (c : Z) : K bool :=
  if c =? CTRL "P" then mret true
  else if c =? CTRL "U" then
    inp ← gets k_input;
    kill_line (Z.to_nat (u32 (in_e inp - in_w inp))) ;; mret false
  else if (c =? CTRL "H") || (c =? 127) then
    inp ← gets k_input;
    when (negb (in_e inp =? in_w inp)) (upd_input in_erase ;; consputc BACKSPACE) ;; mret false
  else
    inp ← gets k_input;
    when (negb (c =? 0) && (u32 (in_e inp - in_r inp) <? INPUT_BUF))
      (let c := if c =? 13 then NL else c in
       upd_input (in_add c) ;;
       consputc c ;;
       inp ← gets k_input;
       when ((c =? NL) || (c =? CTRL "D") || (in_e inp =? u32 (in_r inp + INPUT_BUF)))
         (upd_input in_commit ;; wakeup ChInput)) ;;
    mret false.

(** [cs]: what [getc] returns before it returns a negative value. *)
Fixpoint consoleintr_loop (cs : list Z) (doprocdump : bool) : K bool :=
  match cs with
  | [] => mret doprocdump
  | c :: cs' => d ← consoleintr_char c; consoleintr_loop cs' (d || doprocdump)
  end.
Definition consoleintr (cs : list Z) : K unit :=
  acquire Lcons ;;
  d ← consoleintr_loop cs false;
  release Lcons ;;
  when d procdump.

Section Console.
Context `{WaitBound}.

(** The inner [while] of [consoleread]; [false] if the process was killed. *)
Fixpoint consoleread_wait (fuel : nat) : K bool :=
  inp ← gets k_input;
  if in_r inp =? in_w inp then
    k ← killed;
    if (k : bool) then mret false
    else match fuel with O => nofuel | S fuel' => sleep ChInput Lcons ;; consoleread_wait fuel' end
  else mret true.

(** The outer loop: the bytes stored and [None] if the process was killed. *)
Fixpoint consoleread_loop (n : nat) (target : Z) : K (list Z * bool) :=
  match n with
  | O => mret ([], true)
  | S n' =>
      ok ← consoleread_wait wait_bound;
      if negb ok then mret ([], false) else
      inp ← gets k_input;
      c ← deref (in_at (in_r inp) inp);
      upd_input in_take ;;
      if c =? CTRL "D" then
        when (Z.of_nat n <? target) (upd_input in_untake) ;; mret ([], true)
      else if c =? NL then mret ([c], true)
      else r ← consoleread_loop n' target; mret (c :: r.1, r.2)
  end.

Definition consoleread (ip : nat) (n : Z) : K (list Z * Z) :=
  iunlock ip ;;
  let target := u32 n in
  acquire Lcons ;;
  r ← consoleread_loop (Z.to_nat n) target;
  release Lcons ;;
  ilock ip ;;
  if negb r.2 then mret (r.1, -1) else mret (r.1, Z.of_nat (length r.1)).

Definition consolewrite (ip : nat) (buf : list Z) (n : Z) : K Z :=
  iunlock ip ;;
  acquire Lcons ;;
  forM buf (λ c, consputc (Z.land c 0xff)) ;;
  release Lcons ;;
  ilock ip ;;
  mret n.
End Console.

(** ** zero.c, null.c, dhello.c, ticks.c *)

(** [s_cnputs] of zero.c and dhello.c. *)
Definition s_cnputs (n : Z) (string : list Z) : list Z * Z :=
  (cnputs_bytes n string, Z.of_nat (length (take (Z.to_nat n) string))).

Definition zeroread (ip : nat) (n : Z) : K (list Z * Z) := mret (s_cnputs n (str "0")).
Definition nullread (ip : nat) (n : Z) : K (list Z * Z) := mret ([], n).
Definition nullwrite (ip : nat) (dst : list Z) (n : Z) : K Z := mret n.
Definition helloread (ip : nat) (n : Z) : K (list Z * Z) := mret (s_cnputs n (str "Hello, World!")).
Definition hellowrite (ip : nat) (buf : list Z) (n : Z) : K Z := mret 0.
Definition ticksread (ip : nat) (n : Z) : K (list Z * Z) :=
  t ← gets k_ticks;
  buf ← deref (ticks_text t);
  mret (ticks_cnputs n buf).

(** ** The device switch (file.h and the drivers' init functions) *)

Definition CONSOLE : nat := 1.
Definition ZERO : nat := 2.
Definition NULLDEV : nat := 3.
Definition TICKS : nat := 4.
Definition HELLO : nat := 7.

Definition set_devsw (major : nat) (f : devsw_entry → devsw_entry) : K unit :=
  modify (λ s, set_k_devsw (alter f major (k_devsw s)) s).
(** [ioapicenable] has no effect on the modelled state. *)
Definition consoleinit : K unit :=
  set_devsw CONSOLE (λ e, mkDevsw (dv_read e) (Some consolewrite_fn)) ;;
  set_devsw CONSOLE (λ e, mkDevsw (Some consoleread_fn) (dv_write e)) ;;
  modify (set_k_conslocking true).
Definition zeroinit : K unit := set_devsw ZERO (λ e, mkDevsw (Some zeroread_fn) (dv_write e)).
Definition nullinit : K unit :=
  set_devsw NULLDEV (λ e, mkDevsw (Some nullread_fn) (dv_write e)) ;;
  set_devsw NULLDEV (λ e, mkDevsw (dv_read e) (Some nullwrite_fn)).
Definition helloinit : K unit :=
  set_devsw HELLO (λ e, mkDevsw (dv_read e) (Some hellowrite_fn)) ;;
  set_devsw HELLO (λ e, mkDevsw (Some helloread_fn) (dv_write e)).
Definition ticksinit : K unit := set_devsw TICKS (λ e, mkDevsw (Some ticksread_fn) (dv_write e)).

(** Calls through the function pointers. *)
Definition dev_read `{WaitBound} (f : devread) (ip : nat) (n : Z) : K (list Z * Z) :=
  match f with
  | consoleread_fn => consoleread ip n | zeroread_fn => zeroread ip n | nullread_fn => nullread ip n
  | ticksread_fn => ticksread ip n | helloread_fn => helloread ip n
  end.
Definition dev_write `{WaitBound} (f : devwrite) (ip : nat) (buf : list Z) (n : Z) : K Z :=
  match f with
  | consolewrite_fn => consolewrite ip buf n | nullwrite_fn => nullwrite ip buf n
  | hellowrite_fn => hellowrite ip buf n
  end.
