(* ===== verification/Kbd.v ===== *)
(** * Kbd: the PC keyboard (kbd.h, kbd.c)

    The translation of scan codes to characters.  The driver's static variable
    [shift] is an argument and a result; a table is a list of 256 cells. *)

From S2P Require Import Prelude State Lock Console Devs.

Definition KBS_DIB : Z := 0x01.
Definition NO : Z := 0.
Definition SHIFT : Z := Z.shiftl 1 0.
Definition CTL : Z := Z.shiftl 1 1.
Definition ALT : Z := Z.shiftl 1 2.
Definition CAPSLOCK : Z := Z.shiftl 1 3.
Definition NUMLOCK : Z := Z.shiftl 1 4.
Definition SCROLLLOCK : Z := Z.shiftl 1 5.
Definition E0ESC : Z := Z.shiftl 1 6.

Definition KEY_HOME : Z := 0xE0.
Definition KEY_END : Z := 0xE1.
Definition KEY_UP : Z := 0xE2.
Definition KEY_DN : Z := 0xE3.
Definition KEY_LF : Z := 0xE4.
Definition KEY_RT : Z := 0xE5.
Definition KEY_PGUP : Z := 0xE6.
Definition KEY_PGDN : Z := 0xE7.
Definition KEY_INS : Z := 0xE8.
Definition KEY_DEL : Z := 0xE9.

(** An initialiser: the first cells in order, then designated cells. *)
Definition table (cells : list Z) (designated : list (nat * Z)) : list Z :=
  foldl (λ t e, <[e.1 := e.2]> t) (cells ++ replicate (256 - length cells) 0) designated.

Definition shiftcode : list Z :=
  table [] [(0x1D%nat, CTL); (0x2A%nat, SHIFT); (0x36%nat, SHIFT); (0x38%nat, ALT); (0x9D%nat, CTL); (0xB8%nat, ALT)].
Definition togglecode : list Z :=
  table [] [(0x3A%nat, CAPSLOCK); (0x45%nat, NUMLOCK); (0x46%nat, SCROLLLOCK)].

Definition keypad (enter div : Z) : list (nat * Z) :=
  [(0x9C%nat, enter); (0xB5%nat, div); (0xC8%nat, KEY_UP); (0xD0%nat, KEY_DN); (0xC9%nat, KEY_PGUP);
   (0xD1%nat, KEY_PGDN); (0xCB%nat, KEY_LF); (0xCD%nat, KEY_RT); (0x97%nat, KEY_HOME); (0xCF%nat, KEY_END);
   (0xD2%nat, KEY_INS); (0xD3%nat, KEY_DEL)].

Definition BS : Z := 8.
Definition TAB : Z := 9.
Definition CR : Z := 13.
Definition ESC : Z := 27.
(** The double quote character. *)
Definition DQ : Z := 34.

(** The rows of the two maps that differ, and the rows they share. *)
Definition keypad_rows : list Z :=
  [NO; ch " "; NO; NO; NO; NO; NO; NO;
   NO; NO; NO; NO; NO; NO; NO; ch "7";
   ch "8"; ch "9"; ch "-"; ch "4"; ch "5"; ch "6"; ch "+"; ch "1";
   ch "2"; ch "3"; ch "0"; ch "."; NO; NO; NO; NO].
Definition normalmap : list Z :=
  table ([NO; ESC] ++ str "1234567890-=" ++ [BS; TAB] ++
         str "qwertyuiop[]" ++ [NL; NO] ++ str "as" ++
         str "dfghjkl;'`" ++ [NO] ++ str "\zxcv" ++
         str "bnm,./" ++ [NO] ++ str "*" ++ keypad_rows)
    (keypad NL (ch "/")).
Definition shiftmap : list Z :=
  table ([NO; ESC] ++ str "!@#$%^&*()_+" ++ [BS; TAB] ++
         str "QWERTYUIOP{}" ++ [NL; NO] ++ str "AS" ++
         str "DFGHJKL:" ++ [DQ] ++ str "~" ++ [NO] ++ str "|ZXCV" ++
         str "BNM<>?" ++ [NO] ++ str "*" ++ keypad_rows)
    (keypad NL (ch "/")).
Definition ctlmap : list Z :=
  table (replicate 16 NO ++
         map (λ c, u8 (c - ch "@")) (str "QWERTYUIOP") ++ [NO; NO; CR; NO] ++ map (λ c, u8 (c - ch "@")) (str "AS") ++
         map (λ c, u8 (c - ch "@")) (str "DFGHJKL") ++ [NO; NO; NO; NO] ++ map (λ c, u8 (c - ch "@")) (str "\ZXCV") ++
         map (λ c, u8 (c - ch "@")) (str "BNM") ++ [NO; NO; u8 (ch "/" - ch "@"); NO; NO])
    (keypad CR (u8 (ch "/" - ch "@"))).

Definition charcode (i : Z) : list Z :=
  default [] ([normalmap; shiftmap; ctlmap; ctlmap] !! Z.to_nat i).

Definition cell (t : list Z) (i : Z) : Z := default 0 (t !! Z.to_nat i).

(** [kbdgetc] when the controller has the byte [data]: the result and the new
    [shift].  Without a byte the result is -1. *)
Definition kbdgetc (shift data : Z) : Z * Z :=
  if data =? 0xE0 then (0, Z.lor shift E0ESC)
  else if negb (Z.land data 0x80 =? 0) then
    let data := if negb (Z.land shift E0ESC =? 0) then data else Z.land data 0x7F in
    (0, Z.land shift (u32 (Z.lnot (Z.lor (cell shiftcode data) E0ESC))))
  else
    let esc := negb (Z.land shift E0ESC =? 0) in
    let data := if esc then Z.lor data 0x80 else data in
    let shift := if esc then Z.land shift (u32 (Z.lnot E0ESC)) else shift in
    let shift := Z.lor shift (cell shiftcode data) in
    let shift := Z.lxor shift (cell togglecode data) in
    let c := cell (charcode (Z.land shift (Z.lor CTL SHIFT))) data in
    let c := if negb (Z.land shift CAPSLOCK =? 0) then
               if (ch "a" <=? c) && (c <=? ch "z") then u32 (c + (ch "A" - ch "a"))
               else if (ch "A" <=? c) && (c <=? ch "Z") then c + (ch "a" - ch "A") else c
             else c in
    (c, shift).

(** The results of [kbdgetc] for the bytes in the controller, until it is empty. *)
Fixpoint kbd_chars (shift : Z) (data : list Z) : list Z * Z :=
  match data with
  | [] => ([], shift)
  | d :: data' => let r := kbdgetc shift d in let rs := kbd_chars r.2 data' in (r.1 :: rs.1, rs.2)
  end.
Definition kbdintr (shift : Z) (data : list Z) : K Z :=
  let r := kbd_chars shift data in consoleintr r.1 ;; mret r.2.
