(* ===== verification/Fs.v ===== *)
(** * Fs: file contents, directories and paths (the rest of fs.c)

    The data a function stores through [dst] is returned beside its result; the
    data it reads through [src] is the list of bytes there.  A path is the list
    of its characters without the final NUL. *)

From S2P Require Import Prelude State Strings Lock Bio Log Inode Devs.

Section Ops.
Context `{WaitBound}.

(** The loop of [readi]: the bytes it stores.  Every round moves at least one
    byte, so [n] rounds are enough. *)
Fixpoint readi_loop (fuel : nat) (ip : nat) (off n tot : Z) : K (list Z) :=
  if tot <? n then
    v ← get_inode ip;
    b ← bmap ip (off / BSIZE);
    bp ← bread (i_dev v) b;
    let m := Z.min (n - tot) (BSIZE - off mod BSIZE) in
    d ← get_data bp;
    let bs := slice (Z.to_nat (off mod BSIZE)) (Z.to_nat m) d in
    brelse bp ;;
    match fuel with
    | O => nofuel
    | S fuel' => r ← readi_loop fuel' ip (off + m) n (tot + m); mret (bs ++ r)
    end
  else mret [].

Definition readi (ip : nat) (off n : Z) : K (list Z * Z) :=
  v ← get_inode ip;
  if i_type v =? T_DEV then
    if (i_major v <? 0) || (i_major v >=? NDEV) then mret ([], -1) else
    sw ← gets k_devsw;
    e ← deref (sw !! Z.to_nat (i_major v));
    match dv_read e with None => mret ([], -1) | Some f => dev_read f ip (s32 n) end
  else
  if (off >? i_size v) || (u32 (off + n) <? off) then mret ([], -1) else
  let n := if u32 (off + n) >? i_size v then i_size v - off else n in
  bs ← readi_loop (Z.to_nat n) ip off n 0;
  mret (bs, s32 n).

(** The loop of [writei]: the final value of [off]. *)
Fixpoint writei_loop (fuel : nat) (ip : nat) (src : list Z) (off n tot : Z) : K Z :=
  if tot <? n then
    v ← get_inode ip;
    b ← bmap ip (off / BSIZE);
    bp ← bread (i_dev v) b;
    let m := Z.min (n - tot) (BSIZE - off mod BSIZE) in
    d ← get_data bp;
    set_data bp (splice (Z.to_nat (off mod BSIZE)) (take (Z.to_nat m) src) d) ;;
    log_write bp ;;
    brelse bp ;;
    match fuel with
    | O => nofuel
    | S fuel' => writei_loop fuel' ip (drop (Z.to_nat m) src) (off + m) n (tot + m)
    end
  else mret off.

Definition writei (ip : nat) (src : list Z) (off n : Z) : K Z :=
  v ← get_inode ip;
  if i_type v =? T_DEV then
    if (i_major v <? 0) || (i_major v >=? NDEV) then mret (-1) else
    sw ← gets k_devsw;
    e ← deref (sw !! Z.to_nat (i_major v));
    match dv_write e with None => mret (-1) | Some f => dev_write f ip src (s32 n) end
  else
  if (off >? i_size v) || (u32 (off + n) <? off) then mret (-1) else
  if u32 (off + n) >? MAXFILE * BSIZE then mret (-1) else
  off ← writei_loop (Z.to_nat n) ip src off n 0;
  v ← get_inode ip;
  when ((n >? 0) && (off >? i_size v))
    (upd_inode ip (set_i_size off) ;; iupdate ip) ;;
  mret (s32 n).

(** ** Directories *)

(** [struct dirent]: a 16-bit inode number and a name of [DIRSIZ] bytes. *)
Definition DIRENTSIZE : Z := 16.
Definition de_inum (de : list Z) : Z := get16 0 de.
Definition de_name (de : list Z) : list Z := drop 2 de.

Definition namecmp (s t : list Z) : K Z := deref (strncmp s t DIRSIZ).

(** The loop of [dirlookup]; the inode and the offset of its entry. *)
Fixpoint dirlookup_loop (fuel : nat) (dp : nat) (name : list Z) (off : Z) : K (option (nat * Z)) :=
  v ← get_inode dp;
  if off <? i_size v then
    r ← readi dp off DIRENTSIZE;
    if negb (r.2 =? DIRENTSIZE) then panic "dirlookup read" else
    let next := match fuel with O => nofuel | S fuel' => dirlookup_loop fuel' dp name (u32 (off + DIRENTSIZE)) end in
    if de_inum r.1 =? 0 then next else
    c ← namecmp name (de_name r.1);
    if c =? 0 then
      ip ← iget (i_dev v) (de_inum r.1);
      mret (Some (ip, off))
    else next
  else mret None.
Definition dirlookup (dp : nat) (name : list Z) : K (option (nat * Z)) :=
  v ← get_inode dp;
  if negb (i_type v =? T_DIR) then panic "dirlookup not DIR" else
  dirlookup_loop (Z.to_nat (i_size v / DIRENTSIZE + 1)) dp name 0.

(** The loop of [dirlink] that looks for an empty entry: the final [off]. *)
Fixpoint dirlink_loop (fuel : nat) (dp : nat) (off : Z) : K Z :=
  v ← get_inode dp;
  if off <? i_size v then
    r ← readi dp off DIRENTSIZE;
    if negb (r.2 =? DIRENTSIZE) then panic "dirlink read" else
    if de_inum r.1 =? 0 then mret off else
    match fuel with O => nofuel | S fuel' => dirlink_loop fuel' dp (off + DIRENTSIZE) end
  else mret off.
Definition dirlink (dp : nat) (name : list Z) (inum : Z) : K Z :=
  o ← dirlookup dp name;
  match o with
  | Some (ip, _) => iput ip ;; mret (-1)
  | None =>
      v ← get_inode dp;
      off ← dirlink_loop (Z.to_nat (i_size v / DIRENTSIZE + 1)) dp 0;
      nm ← deref (strncpy (replicate DIRSIZ 0) name DIRSIZ);
      r ← writei dp (le_put 2 inum ++ nm) off DIRENTSIZE;
      if negb (r =? DIRENTSIZE) then panic "dirlink" else mret 0
  end.
End Ops.

(** ** Paths *)

Definition SLASH : Z := ch "/".
Fixpoint skip_slashes (path : list Z) : list Z :=
  match path with [] => [] | c :: path' => if c =? SLASH then skip_slashes path' else path end.
(** The characters up to the next slash, and the rest. *)
Fixpoint skip_name (path : list Z) : list Z * list Z :=
  match path with
  | [] => ([], [])
  | c :: path' => if c =? SLASH then ([], path) else let r := skip_name path' in (c :: r.1, r.2)
  end.
(** The rest of the path and the new contents of the buffer [name]. *)
Definition skipelem (path name : list Z) : option (list Z * list Z) :=
  let path := skip_slashes path in
  match path with
  | [] => None
  | _ =>
      let r := skip_name path in
      let s := r.1 in
      let name := if Nat.leb DIRSIZ (length s) then splice 0 (take DIRSIZ s) name
                  else splice 0 (s ++ [0]) name in
      Some (skip_slashes r.2, name)
  end.

Section Paths.
Context `{WaitBound}.

(** The loop of [namex]: the inode and the contents of [name].  Every element
    shortens the path. *)
Fixpoint namex_loop (fuel : nat) (ip : nat) (path : list Z) (nameiparent : bool) (name : list Z) : K (option (nat * list Z)) :=
  match skipelem path name with
  | None => if nameiparent then iput ip ;; mret None else mret (Some (ip, name))
  | Some (path, name) =>
      ilock ip ;;
      v ← get_inode ip;
      if negb (i_type v =? T_DIR) then iunlockput ip ;; mret None else
      if nameiparent && bool_decide (path = []) then iunlock ip ;; mret (Some (ip, name)) else
      o ← dirlookup ip name;
      match o with
      | None => iunlockput ip ;; mret None
      | Some (next, _) =>
          iunlockput ip ;;
          match fuel with O => nofuel | S fuel' => namex_loop fuel' next path nameiparent name end
      end
  end.
Definition namex (path : list Z) (nameiparent : bool) (name : list Z) : K (option (nat * list Z)) :=
  ip ← (if bool_decide (head path = Some SLASH) then iget ROOTDEV ROOTINO
        else i ← curproc; p ← get_proc i; cwd ← deref (p_cwd p); idup cwd);
  namex_loop (length path) ip path nameiparent name.

Definition namei (path : list Z) : K (option nat) :=
  o ← namex path false (replicate DIRSIZ 0); mret (fst <$> o).
(** The parent's inode and the last element of the path. *)
Definition nameiparent (path name : list Z) : K (option (nat * list Z)) := namex path true name.
End Paths.
