(* ===== verification/Txn.v ===== *)
(** * Txn: running inside a transaction

    What the log and the buffer cache together promise to the file system: a
    process inside a transaction, on an otherwise quiet cache, reads and updates
    the logical blocks [lblk]; it may hold buffers while it does.  [tx Hd W s]
    says that it holds the buffers [Hd] (slot, block) and that the blocks of the
    transaction are among [W], of which there are few enough that neither the
    log nor the cache can run out. *)

From S2P Require Import Prelude State Lock Bio BufSpec Log.

(** [W] with the block [n]. *)
Definition addw (n : Z) (W : list Z) : list Z := if decide (n ∈ W) then W else n :: W.

(** The transaction may hold this many blocks: one less than the log, and one
    buffer must stay free for each buffer held. *)
Definition TXMAX : Z := 27.

(** Only the buffer cache, the log and sleeping processes changed. *)
Definition tx_only (s s' : kernel) : Prop :=
  ∃ bc pt lg, s' = set_k_log lg (set_k_bcache bc (set_k_ptable pt s)) ∧
    l_start lg = l_start (k_log s) ∧ l_size lg = l_size (k_log s) ∧
    (l_outstanding lg = l_outstanding (k_log s) ∧ l_committing lg = l_committing (k_log s)) ∧
    ∀ i p, k_ptable s !! i = Some p → p_state p ≠ SLEEPING → pt !! i = Some p.

Section Only.
Lemma tx_only_refl s : tx_only s s.
Proof. exists (k_bcache s), (k_ptable s), (k_log s). split; [by destruct s|done]. Qed.
Lemma tx_only_trans s1 s2 s3 : tx_only s1 s2 → tx_only s2 s3 → tx_only s1 s3.
Proof.
  intros (bc & pt & lg & -> & A1 & A2 & [A4 A5] & A3) (bc' & pt' & lg' & -> & B1 & B2 & [B4 B5] & B3).
  exists bc', pt', lg'. split_and!; [by destruct s1|simpl in *; congruence..|].
  intros i p Hp Hs. apply B3; [|done]. simpl. by apply A3.
Qed.
Lemma tx_only_view s s' : same_view s s' → tx_only s s'.
Proof.
  intros [(bc & pt & d & w & -> & Hpt) _ _ Hd Hw]. simpl in *. subst.
  exists bc, pt, (k_log s). split; [by destruct s|done].
Qed.
Lemma tx_only_count s s' : tx_only s s' →
  l_outstanding (k_log s') = l_outstanding (k_log s) ∧ l_committing (k_log s') = l_committing (k_log s).
Proof. by intros (bc & pt & lg & -> & _ & _ & E & _). Qed.
Lemma tx_only_home s s' m : tx_only s s' → home_block s' m ↔ home_block s m.
Proof. intros (bc & pt & lg & -> & E1 & E2 & _). unfold home_block. simpl. by rewrite E1, E2. Qed.
Lemma tx_only_disksize s s' : tx_only s s' → k_disksize s' = k_disksize s.
Proof. by intros (bc & pt & lg & -> & _). Qed.
Lemma tx_only_disk s s' : tx_only s s' → k_disk s' = k_disk s.
Proof. by intros (bc & pt & lg & -> & _). Qed.
Lemma tx_only_sb s s' : tx_only s s' → k_sb s' = k_sb s.
Proof. by intros (bc & pt & lg & -> & _). Qed.
Lemma tx_only_icache s s' : tx_only s s' → k_icache s' = k_icache s.
Proof. by intros (bc & pt & lg & -> & _). Qed.
End Only.

Section Tx.
Context `{WaitBound}.
Context (i : nat) (p : proc).
Implicit Types (s : kernel) (Hd : list (nat * Z)) (W : list Z).

(** A process on an otherwise quiet cache, holding the buffers [Hd], with all
    pinned blocks among [W]. *)
Record quiet Hd W s : Prop := {
  q_st : st i p Hd.*1 s;
  q_nodup : NoDup Hd.*1;
  q_blocks : NoDup Hd.*2;
  q_held : ∀ bi n, (bi, n) ∈ Hd → ∃ f, holds s (p_pid p) bi n f (lblk s n) ∧
    (f = B_VALID → k_disk s !! n = Some (lblk s n));
  q_pins : ∀ m, isdirty s m → m ∈ W;
  q_room : Z.of_nat (length W) ≤ TXMAX;
  q_few : (length Hd ≤ 2)%nat }.

Record tx Hd W s : Prop := {
  tx_quiet : quiet Hd W s;
  tx_log : log_ok s;
  tx_txn : txn_ok s;
  tx_out : 1 ≤ l_outstanding (k_log s);
  tx_sub : txn (k_log s) ⊆ W;
  tx_size : TXMAX < l_size (k_log s) - 1 ∧ l_size (k_log s) ≤ Z.of_nat NBUF }.

Lemma tx_len Hd W s : tx Hd W s → lh_n (k_log s) ≤ TXMAX.
Proof.
  intros [Q L T _ S _]. rewrite <- (length_txn s L). etransitivity; [|apply (q_room _ _ _ Q)].
  apply Nat2Z.inj_le, submseteq_length, NoDup_submseteq; [apply T|done].
Qed.

Lemma tx_only_log s s' : same_view s s' → k_log s' = k_log s.
Proof. intros V. by apply bufs_only_log, V. Qed.

Lemma quiet_bread Hd W n s (Q : nat → kernel → Prop) :
  quiet Hd W s → 0 ≤ n < k_disksize s → n ∉ Hd.*2 → (length Hd ≤ 1)%nat →
  (∀ bi s', quiet ((bi, n) :: Hd) W s' → same_view s s' → Q bi s') →
  wp (bread 1 n) Q s.
Proof.
  intros [S N1 N2 Hh Hp Hr Hf] Hn Hni Hlen HQ.
  eapply (spec_bread i p); [exact S|done| | |].
  - right. exists W. split; [done|]. rewrite length_fmap. unfold TXMAX in Hr.
    change NBUF with 30%nat. lia.
  - intros bi f d (x & -> & Hx)%list_elem_of_fmap Hb. destruct x as [bi m]. simpl in *.
    destruct (Hh bi m Hx) as (f' & Hb' & _). destruct (holds_fun _ _ _ _ _ _ _ _ _ Hb Hb') as [<- _].
    apply Hni, list_elem_of_fmap. by exists (bi, n).
  - intros bi s' f S' Hbi V Hb _ Hclean Hkeep. apply HQ; [|done]. split.
    + exact S'.
    + simpl. by constructor.
    + simpl. by constructor.
    + intros bj m [E|Hin]%elem_of_cons.
      * injection E as -> ->. exists f. rewrite (sv_lblk _ _ V), (sv_disk _ _ V). done.
      * destruct (Hh bj m Hin) as (f' & Hb' & Hc'). exists f'.
        rewrite (sv_lblk _ _ V), (sv_disk _ _ V). split; [|done]. apply Hkeep; [|done].
        apply list_elem_of_fmap. by exists (bj, m).
    + intros m Hm. apply Hp. by apply (sv_dirty _ _ V).
    + done.
    + simpl. lia.
Qed.

Lemma quiet_get_data Hd W bi n s (Q : list Z → kernel → Prop) :
  quiet Hd W s → (bi, n) ∈ Hd → Q (lblk s n) s → wp (get_data bi) Q s.
Proof.
  intros [S N1 N2 Hh Hp Hr Hf] Hin HQ. destruct (Hh bi n Hin) as (f & Hb & _).
  eapply (spec_get_data i p); [exact S| |exact Hb|exact HQ].
  apply list_elem_of_fmap. by exists (bi, n).
Qed.

Lemma quiet_brelse Hd W bi n s (Q : unit → kernel → Prop) :
  quiet ((bi, n) :: Hd) W s → (∀ s', quiet Hd W s' → same_view s s' → Q tt s') → wp (brelse bi) Q s.
Proof.
  intros [S N1 N2 Hh Hp Hr Hf] HQ. destruct (Hh bi n) as (f & Hb & Hc); [left|].
  simpl in *. apply NoDup_cons in N1 as [N1 N1']. apply NoDup_cons in N2 as [N2 N2'].
  eapply (spec_brelse i p); [exact S|exact N1|exact Hb|exact Hc|].
  intros s' S' V Hkeep. apply HQ; [|done]. split; try done.
  - intros bj m Hin. destruct (Hh bj m) as (f' & Hb' & Hc'); [by right|]. exists f'.
    rewrite (sv_lblk _ _ V), (sv_disk _ _ V). split; [|done]. apply Hkeep; [|done].
    apply list_elem_of_fmap. by exists (bj, m).
  - intros m Hm. apply Hp. by apply (sv_dirty _ _ V).
  - lia.
Qed.

(** ** The same inside a transaction *)

Lemma tx_view Hd Hd' W s s' : tx Hd W s → quiet Hd' W s' → same_view s s' → tx Hd' W s'.
Proof.
  intros [Q L T O S Z] Q' V. pose proof (tx_only_log _ _ V) as El.
  pose proof (bufs_only_disksize _ _ (sv_only _ _ V)) as Ed. split; rewrite ?El; try done.
  - destruct L. split; unfold home_block in *; rewrite ?El, ?Ed; done.
  - destruct T as [T1 T2]. split; rewrite El; [done|]. intros m. by rewrite (sv_dirty _ _ V).
Qed.

Lemma tx_bread Hd W n s (Q : nat → kernel → Prop) :
  tx Hd W s → 0 ≤ n < k_disksize s → n ∉ Hd.*2 → (length Hd ≤ 1)%nat →
  (∀ bi s', tx ((bi, n) :: Hd) W s' → tx_only s s' → (∀ m, lblk s' m = lblk s m) → Q bi s') →
  wp (bread 1 n) Q s.
Proof.
  intros T Hn Hni Hl HQ. eapply quiet_bread; [apply T|done|done|done|]. intros bi s' Q' V.
  apply HQ; [exact (tx_view _ _ _ _ _ T Q' V)|by apply tx_only_view|apply V].
Qed.

Lemma tx_get_data Hd W bi n s (Q : list Z → kernel → Prop) :
  tx Hd W s → (bi, n) ∈ Hd → Q (lblk s n) s → wp (get_data bi) Q s.
Proof. intros T. apply (quiet_get_data Hd W), T. Qed.

Lemma tx_brelse Hd W bi n s (Q : unit → kernel → Prop) :
  tx ((bi, n) :: Hd) W s →
  (∀ s', tx Hd W s' → tx_only s s' → (∀ m, lblk s' m = lblk s m) → Q tt s') → wp (brelse bi) Q s.
Proof.
  intros T HQ. eapply quiet_brelse; [apply T|]. intros s' Q' V.
  apply HQ; [exact (tx_view _ _ _ _ _ T Q' V)|by apply tx_only_view|apply V].
Qed.

Lemma elem_addw n W m : m ∈ addw n W ↔ m ∈ W ∨ m = n.
Proof. unfold addw. case_decide; [|rewrite elem_of_cons; tauto]. split; [by left|]. by intros [| ->]. Qed.
Lemma addw_in n W : n ∈ W → addw n W = W.
Proof. intros. unfold addw. by case_decide. Qed.
Lemma length_addw n W : (length (addw n W) ≤ S (length W))%nat.
Proof. unfold addw. case_decide; simpl; lia. Qed.
Lemma length_addw_ge n W : (length W ≤ length (addw n W))%nat.
Proof. unfold addw. case_decide; simpl; lia. Qed.

(** Changing the contents of a held buffer and logging it. *)
Lemma tx_update {A} Hd W bi n d' s (k : K A) (Q : A → kernel → Prop) :
  tx ((bi, n) :: Hd) W s → home_block s n → length d' = Z.to_nat BSIZE →
  Z.of_nat (length (addw n W)) ≤ TXMAX →
  (∀ s', tx ((bi, n) :: Hd) (addw n W) s' → tx_only s s' →
     (∀ m, lblk s' m = if decide (m = n) then d' else lblk s m) → wp k Q s') →
  wp (set_data bi d' ;; log_write bi ;; k) Q s.
Proof.
  intros T Hn Hlen Hw HQ. pose proof (tx_len _ _ _ T) as Htl.
  pose proof T as [[S N1 N2 Hh Hp Hr Hf] L X O Sub Z]. destruct (Hh bi n) as (f & Hb & _); [left|].
  simpl in *. apply NoDup_cons in N1 as [N1 N1']. apply NoDup_cons in N2 as [N2 N2'].
  apply wp_bind. eapply (spec_set_data i p); [exact S|exact N1|exact Hb|done|].
  intros s1 S1 O1 D1 T1 V1 Y1 Hb1 Keep1. pose proof (bufs_only_log _ _ O1) as L1.
  pose proof (bufs_only_disksize _ _ O1) as Z1.
  assert (log_ok s1) as LK1 by (destruct L; split; unfold home_block in *; rewrite ?L1, ?Z1; done).
  unfold TXMAX in *. apply wp_bind.
  eapply (spec_log_write i p); [exact S1|exact N1|exact Hb1|done|rewrite L1; unfold LOGSIZE, MAXOPBLOCKS; lia|
    rewrite L1; lia|by rewrite L1|].
  intros s2 S2 L2 D2 T2 Z2 V2 Y2 Hb2 Keep2 [bc2 E2]. rewrite L1 in L2.
  assert (∀ m, lblk s2 m = if decide (m = n) then d' else lblk s m) as V by (intros m; by rewrite V2, V1).
  assert (log_ok s2) as LK2.
  { apply (log_ok_absorb s s2 n); [done|done|done|congruence|lia|lia]. }
  assert (txn (k_log s2) = if decide (n ∈ txn (k_log s)) then txn (k_log s) else txn (k_log s) ++ [n]) as Et.
  { rewrite L2. apply txn_absorb; [apply (lk_n _ L)|]. rewrite (lk_len _ L). change LOGSIZEn with 30%nat. lia. }
  apply HQ.
  - split; [split|..]; simpl.
    + exact S2.
    + by constructor.
    + by constructor.
    + intros bj m [Ej|Hin]%elem_of_cons.
      * injection Ej as -> ->. exists (Z.lor B_VALID B_DIRTY). rewrite V, decide_True by done. split; [exact Hb2|done].
      * destruct (Hh bj m) as (f' & Hb' & Hc'); [by right|]. exists f'.
        assert (m ≠ n) as Hne by (intros ->; apply N2, list_elem_of_fmap; by exists (bj, n)).
        assert (bj ∈ Hd.*1) as Hj by (apply list_elem_of_fmap; by exists (bj, m)).
        rewrite V, decide_False, D2, D1 by done. split; [|done]. apply Keep2; [done|]. by apply Keep1.
    + intros m Hm. rewrite elem_addw. apply Y2 in Hm as [Hm|Hm]; [left; apply Hp, Y1, Hm|by right].
    + done.
    + done.
    + done.
    + split.
      * rewrite Et. case_decide; [apply X|]. apply NoDup_app. split; [apply X|].
        split; [intros x Hx ->%list_elem_of_singleton; done|apply NoDup_singleton].
      * intros m. rewrite Y2, Y1, (tx_dirty _ X), Et. case_decide as Hin; [|rewrite elem_of_app, list_elem_of_singleton; done].
        split; [intros [| ->]; done|by left].
    + rewrite L2. unfold absorb. by case_decide.
    + intros m. rewrite Et, elem_addw. case_decide; [intros; left; by apply Sub|].
      rewrite elem_of_app, list_elem_of_singleton. intros [|]; [left; by apply Sub|by right].
    + rewrite L2. unfold absorb, TXMAX. case_decide; simpl; lia.
  - destruct O1 as (bc1 & pt1 & d1 & w1 & -> & Hpt). simpl in D1, T1. subst d1 w1.
    exists bc2, pt1, (absorb n (k_log s)). split_and!.
    + rewrite E2. by destruct s.
    + unfold absorb. by case_decide.
    + unfold absorb. by case_decide.
    + unfold absorb. by case_decide.
    + unfold absorb. by case_decide.
    + done.
  - done.
Qed.
End Tx.
