(* ===== verification/Blocks.v ===== *)
(** * Blocks: the block allocator of fs.c

    The free bitmap, and [balloc], [bzero] and [bfree] inside a transaction. *)

From S2P Require Import Prelude State Lock Bio BufSpec Log Txn Inode.

(** ** Bits *)

Section Bits.
Lemma land_bit x k : 0 ≤ k → (Z.land x (Z.shiftl 1 k) =? 0) = negb (Z.testbit x k).
Proof.
  intros Hk. rewrite Z.shiftl_1_l. destruct (Z.testbit x k) eqn:E; simpl.
  - apply Z.eqb_neq. intros H0. assert (Z.testbit (Z.land x (2 ^ k)) k = true) as Ht.
    { by rewrite Z.land_spec, E, Z.pow2_bits_true. }
    by rewrite H0, Z.testbit_0_l in Ht.
  - apply Z.eqb_eq. apply Z.bits_inj'. intros n Hn. rewrite Z.land_spec, Z.testbit_0_l.
    destruct (decide (n = k)) as [->|Hne]; [by rewrite E|]. rewrite Z.pow2_bits_false by done. apply andb_false_r.
Qed.

Lemma testbit_u8 x k : 0 ≤ k < 8 → Z.testbit (u8 x) k = Z.testbit x k.
Proof. intros. unfold u8. apply Z.mod_pow2_bits_low. lia. Qed.

Lemma bit_free_testbit d bi :
  0 ≤ bi → bit_free d bi = negb (Z.testbit (default 0 (d !! bit_byte bi)) (bi mod 8)).
Proof. intros. unfold bit_free, bit_mask. apply land_bit. by apply Z.mod_pos_bound. Qed.

Lemma same_byte a b : 0 ≤ a → 0 ≤ b → bit_byte a = bit_byte b → a mod 8 = b mod 8 → a = b.
Proof.
  unfold bit_byte. intros Ha Hb E1 E2. pose proof (Z.div_pos a 8). pose proof (Z.div_pos b 8).
  pose proof (Z.div_mod a 8). pose proof (Z.div_mod b 8). lia.
Qed.

Lemma bit_free_alter (f : Z → Z) d bi bj :
  0 ≤ bi → 0 ≤ bj → bit_byte bj ≠ bit_byte bi → bit_free (alter f (bit_byte bi) d) bj = bit_free d bj.
Proof. intros. unfold bit_free. by rewrite list_lookup_alter_ne. Qed.

Lemma bit_free_set d bi bj :
  0 ≤ bi < 8 * Z.of_nat (length d) → 0 ≤ bj →
  bit_free (bit_set bi d) bj = bit_free d bj && negb (bj =? bi).
Proof.
  intros Hi Hj. destruct (Nat.eq_dec (bit_byte bj) (bit_byte bi)) as [Eb|Nb]; cycle 1.
  { unfold bit_set. rewrite bit_free_alter by lia. rewrite (proj2 (Z.eqb_neq bj bi)), andb_true_r by (by intros ->).
    done. }
  rewrite !bit_free_testbit by lia. unfold bit_set. rewrite Eb, list_lookup_alter_eq.
  assert (bit_byte bi < length d)%nat as Hlt.
  { unfold bit_byte. pose proof (Z.div_mod bi 8). pose proof (Z.div_pos bi 8).
    pose proof (Z.mod_pos_bound bi 8). lia. }
  destruct (lookup_lt_is_Some_2 d _ Hlt) as [x ->]. simpl.
  pose proof (Z.mod_pos_bound bj 8 ltac:(lia)). pose proof (Z.mod_pos_bound bi 8 ltac:(lia)).
  rewrite testbit_u8, Z.lor_spec, negb_orb by lia. f_equal. unfold bit_mask. rewrite Z.shiftl_1_l. f_equal.
  destruct (Z.eqb_spec bj bi) as [->|Hne]; [apply Z.pow2_bits_true; lia|].
  apply Z.pow2_bits_false. intros E. apply Hne. by apply same_byte; [lia..|].
Qed.

Lemma bit_free_clear d bi bj :
  0 ≤ bi < 8 * Z.of_nat (length d) → 0 ≤ bj →
  bit_free (bit_clear bi d) bj = bit_free d bj || (bj =? bi).
Proof.
  intros Hi Hj. destruct (Nat.eq_dec (bit_byte bj) (bit_byte bi)) as [Eb|Nb]; cycle 1.
  { unfold bit_clear. rewrite bit_free_alter by lia. rewrite (proj2 (Z.eqb_neq bj bi)), orb_false_r by (by intros ->).
    done. }
  rewrite !bit_free_testbit by lia. unfold bit_clear. rewrite Eb, list_lookup_alter_eq.
  assert (bit_byte bi < length d)%nat as Hlt.
  { unfold bit_byte. pose proof (Z.div_mod bi 8). pose proof (Z.div_pos bi 8).
    pose proof (Z.mod_pos_bound bi 8). lia. }
  destruct (lookup_lt_is_Some_2 d _ Hlt) as [x ->]. simpl.
  pose proof (Z.mod_pos_bound bj 8 ltac:(lia)). pose proof (Z.mod_pos_bound bi 8 ltac:(lia)).
  rewrite testbit_u8, Z.land_spec, Z.lnot_spec, negb_andb, negb_involutive by lia. f_equal.
  unfold bit_mask. rewrite Z.shiftl_1_l.
  destruct (Z.eqb_spec bj bi) as [->|Hne]; [apply Z.pow2_bits_true; lia|].
  apply Z.pow2_bits_false. intros E. apply Hne. by apply same_byte; [lia..|].
Qed.

Lemma length_bit_set bi d : length (bit_set bi d) = length d.
Proof. apply length_alter. Qed.
Lemma length_bit_clear bi d : length (bit_clear bi d) = length d.
Proof. apply length_alter. Qed.

Lemma bit_scan_spec fuel d b bi size :
  match bit_scan fuel d b bi size with
  | Some bj => bi ≤ bj < bi + Z.of_nat fuel ∧ b + bj < size ∧ bit_free d bj = true ∧
      ∀ k, bi ≤ k < bj → bit_free d k = false
  | None => ∀ k, bi ≤ k < bi + Z.of_nat fuel → b + k < size → bit_free d k = false
  end.
Proof.
  revert bi. induction fuel as [|fuel IH]; intros bi; cbn [bit_scan]; [lia|].
  destruct (Z.ltb_spec (b + bi) size) as [Hlt|Hge]; [|intros; lia].
  destruct (bit_free d bi) eqn:E; [split_and!; [lia|lia|done|done|lia]|].
  specialize (IH (bi + 1)). destruct (bit_scan fuel d b (bi + 1) size) as [bj|].
  - destruct IH as (H1 & H2 & H3 & H4). split_and!; [lia|lia|done|done|].
    intros k Hk. destruct (decide (k = bi)) as [->|]; [done|apply H4; lia].
  - intros k Hk Hks. destruct (decide (k = bi)) as [->|]; [done|apply IH; lia].
Qed.
End Bits.

(** ** The file system's view of the blocks *)

(** Is block [b] free according to the bitmap? *)
Definition isfree (s : kernel) (b : Z) : bool :=
  bit_free (lblk s (BBLOCK b (k_sb s))) (b mod BPB).

(** [n] is a block of the bitmap, or of the inodes. *)
Definition bmap_blk (s : kernel) (n : Z) : Prop :=
  ∃ b, 0 ≤ b < sb_size (k_sb s) ∧ n = BBLOCK b (k_sb s).
Definition inode_blk (s : kernel) (n : Z) : Prop :=
  ∃ j, 0 ≤ j < sb_ninodes (k_sb s) ∧ n = IBLOCK j (k_sb s).

(** [b] can hold file data. *)
Definition data_blk (s : kernel) (b : Z) : Prop :=
  0 < b < sb_size (k_sb s) ∧ home_block s b ∧ ¬ bmap_blk s b ∧ ¬ inode_blk s b.

Record fs_ok (s : kernel) : Prop := {
  fs_size : 0 < sb_size (k_sb s) ≤ k_disksize s;
  fs_bstart : 0 ≤ sb_bmapstart (k_sb s) ∧ sb_bmapstart (k_sb s) + sb_size (k_sb s) / BPB < 2 ^ 32;
  fs_istart : 0 ≤ sb_inodestart (k_sb s) ∧ sb_inodestart (k_sb s) + sb_ninodes (k_sb s) / IPB < 2 ^ 32;
  fs_bmap : ∀ n, bmap_blk s n → home_block s n;
  fs_inode : ∀ n, inode_blk s n → home_block s n ∧ ¬ bmap_blk s n;
  fs_free : ∀ b, 0 ≤ b < sb_size (k_sb s) → isfree s b = true → data_blk s b }.

Section View.
Lemma BBLOCK_spec s b : fs_ok s → 0 ≤ b < sb_size (k_sb s) →
  BBLOCK b (k_sb s) = b / BPB + sb_bmapstart (k_sb s).
Proof.
  intros F Hb. destruct (fs_bstart s F). unfold BBLOCK. apply u32_small.
  assert (b / BPB ≤ sb_size (k_sb s) / BPB) by (apply Z.div_le_mono; unfold BPB, BSIZE; lia).
  assert (0 ≤ b / BPB) by (apply Z.div_pos; unfold BPB, BSIZE; lia). lia.
Qed.
Lemma IBLOCK_spec s j : fs_ok s → 0 ≤ j < sb_ninodes (k_sb s) →
  IBLOCK j (k_sb s) = j / IPB + sb_inodestart (k_sb s).
Proof.
  intros F Hb. destruct (fs_istart s F). unfold IBLOCK. apply u32_small.
  assert (j / IPB ≤ sb_ninodes (k_sb s) / IPB) by (apply Z.div_le_mono; [done|lia]).
  assert (0 ≤ j / IPB) by (apply Z.div_pos; [lia|done]). lia.
Qed.

Lemma tx_only_bmap_blk s s' n : tx_only s s' → bmap_blk s' n ↔ bmap_blk s n.
Proof. intros O. unfold bmap_blk. by rewrite (tx_only_sb _ _ O). Qed.
Lemma tx_only_inode_blk s s' n : tx_only s s' → inode_blk s' n ↔ inode_blk s n.
Proof. intros O. unfold inode_blk. by rewrite (tx_only_sb _ _ O). Qed.
Lemma tx_only_data_blk s s' n : tx_only s s' → data_blk s' n ↔ data_blk s n.
Proof.
  intros O. unfold data_blk. by rewrite (tx_only_sb _ _ O), (tx_only_home _ _ _ O),
    (tx_only_bmap_blk _ _ _ O), (tx_only_inode_blk _ _ _ O).
Qed.

(** [fs_ok] depends on the blocks only through the bitmap. *)
Lemma fs_ok_only s s' :
  tx_only s s' → fs_ok s →
  (∀ b, 0 ≤ b < sb_size (k_sb s) → isfree s' b = true → isfree s b = true ∨ data_blk s b) → fs_ok s'.
Proof.
  intros O [F1 F2 F3 F4 F5 F6] Hf. pose proof (tx_only_sb _ _ O) as Es. split; rewrite ?Es; try done.
  - by rewrite (tx_only_disksize _ _ O).
  - intros n Hn. rewrite (tx_only_home _ _ _ O). apply F4. by apply (tx_only_bmap_blk _ _ _ O).
  - intros n Hn. rewrite (tx_only_home _ _ _ O), (tx_only_bmap_blk _ _ _ O). apply F5.
    by apply (tx_only_inode_blk _ _ _ O).
  - intros b Hb Hfr. rewrite (tx_only_data_blk _ _ _ O). destruct (Hf b Hb Hfr); [by apply F6|done].
Qed.

(** The bitmap after a change of the bits of one of its blocks. *)
Lemma isfree_upd s s' b (g : list Z → list Z) (h : Z → bool → bool) :
  fs_ok s → tx_only s s' → 0 ≤ b < sb_size (k_sb s) →
  lblk s' (BBLOCK b (k_sb s)) = g (lblk s (BBLOCK b (k_sb s))) →
  (∀ n, bmap_blk s n → n ≠ BBLOCK b (k_sb s) → lblk s' n = lblk s n) →
  (∀ k, 0 ≤ k < BPB → bit_free (g (lblk s (BBLOCK b (k_sb s)))) k =
     if k =? b mod BPB then h b (bit_free (lblk s (BBLOCK b (k_sb s))) k)
     else bit_free (lblk s (BBLOCK b (k_sb s))) k) →
  ∀ x, 0 ≤ x < sb_size (k_sb s) →
    isfree s' x = if x =? b then h b (isfree s x) else isfree s x.
Proof.
  intros F O Hb Hg Ho Hbit x Hx. unfold isfree. rewrite (tx_only_sb _ _ O).
  pose proof (Z.div_mod x BPB ltac:(done)). pose proof (Z.div_mod b BPB ltac:(done)).
  destruct (decide (x / BPB = b / BPB)) as [E|E].
  - assert (BBLOCK x (k_sb s) = BBLOCK b (k_sb s)) as -> by (rewrite !BBLOCK_spec by done; congruence).
    rewrite Hg, Hbit by (by apply Z.mod_pos_bound).
    destruct (Z.eqb_spec x b) as [->|Hne]; [by rewrite Z.eqb_refl|].
    rewrite (proj2 (Z.eqb_neq _ _)); [done|]. intros E'. apply Hne. congruence.
  - rewrite (proj2 (Z.eqb_neq x b)) by (by intros ->). f_equal. apply Ho; [by exists x|].
    rewrite !BBLOCK_spec by done. intros E'. apply E. lia.
Qed.
End View.

(** ** Allocating and freeing *)

Definition zero_block : list Z := replicate (Z.to_nat BSIZE) 0.

Section Alloc.
Context `{WaitBound}.
Context (i : nat) (p : proc).
Implicit Types (s : kernel) (Hd : list (nat * Z)) (W : list Z).
#[local] Abbreviation tx := (tx i p).

Lemma tx_lblk_len Hd W s n : tx Hd W s → 0 ≤ n < k_disksize s → length (lblk s n) = Z.to_nat BSIZE.
Proof. intros T. apply lblk_len. apply T. Qed.

Lemma tx_bzero Hd W n s (Q : unit → kernel → Prop) :
  tx Hd W s → home_block s n → n ∉ Hd.*2 → (length Hd ≤ 1)%nat →
  Z.of_nat (length (addw n W)) ≤ TXMAX →
  (∀ s', tx Hd (addw n W) s' → tx_only s s' →
     (∀ m, lblk s' m = if decide (m = n) then zero_block else lblk s m) → Q tt s') →
  wp (bzero 1 n) Q s.
Proof.
  intros T Hn Hni Hl Hw HQ. unfold bzero. apply wp_bind.
  eapply tx_bread; [exact T|apply Hn|done|done|]. intros bi s1 T1 O1 V1.
  eapply tx_update; [exact T1|by apply (tx_only_home _ _ _ O1)|by rewrite length_replicate|done|].
  intros s2 T2 O2 V2. eapply tx_brelse; [exact T2|]. intros s3 T3 O3 V3. apply HQ; [done| |].
  - eapply tx_only_trans; [|exact O3]. by eapply tx_only_trans.
  - intros m. rewrite V3, V2. case_decide; [done|apply V1].
Qed.

(** Blocks held while another is allocated must be in use and not part of the bitmap. *)
Definition held_ok s Hd : Prop :=
  ∀ n, n ∈ Hd.*2 → ¬ bmap_blk s n ∧ (0 ≤ n < sb_size (k_sb s) → isfree s n = false).

(** The blocks after [b] has been allocated. *)
Definition alloced s b s' : Prop :=
  ∀ m, lblk s' m = if decide (m = b) then zero_block
    else if decide (m = BBLOCK b (k_sb s)) then bit_set (b mod BPB) (lblk s m) else lblk s m.

Lemma BBLOCK_row s t k : fs_ok s → 0 ≤ t → 0 ≤ k < BPB → t * BPB + k < sb_size (k_sb s) →
  BBLOCK (t * BPB + k) (k_sb s) = BBLOCK (t * BPB) (k_sb s) ∧ (t * BPB + k) mod BPB = k.
Proof.
  intros F Ht Hk Hs. rewrite !BBLOCK_spec by (done || unfold BPB, BSIZE in *; lia).
  rewrite Z.div_mul by done. rewrite (Z.add_comm (t * BPB)), Z.div_add, Z.div_small by done.
  rewrite Z.mod_add by done. by rewrite Z.mod_small.
Qed.

(** What [balloc] promises when it returns block [b]. *)
Definition balloc_post s Hd W b s' : Prop :=
  0 ≤ b < sb_size (k_sb s) ∧ isfree s b = true ∧ (∀ y, 0 ≤ y < b → isfree s y = false) ∧
  tx Hd (addw b (addw (BBLOCK b (k_sb s)) W)) s' ∧ tx_only s s' ∧ alloced s b s'.

(** One row of the bitmap: the blocks from [t * BPB] on. *)
Definition row_full s t : Prop :=
  ∀ y, t * BPB ≤ y < (t + 1) * BPB → y < sb_size (k_sb s) → isfree s y = false.

Lemma isfree_row s t y : fs_ok s → 0 ≤ t → t * BPB ≤ y < (t + 1) * BPB → y < sb_size (k_sb s) →
  isfree s y = bit_free (lblk s (BBLOCK (t * BPB) (k_sb s))) (y - t * BPB).
Proof.
  intros F Ht Hy Hs. destruct (BBLOCK_row s t (y - t * BPB) F Ht) as [E1 E2]; [lia|lia|].
  replace (t * BPB + (y - t * BPB)) with y in E1, E2 by lia. unfold isfree. by rewrite E1, E2.
Qed.

(** The bit found in a row is taken: the bitmap block is logged, the block zeroed. *)
Lemma wp_balloc_take Hd W t k s s1 bi (Q : Z → kernel → Prop) :
  tx Hd W s → fs_ok s → held_ok s Hd → (length Hd ≤ 1)%nat → Z.of_nat (length W) + 2 ≤ TXMAX →
  0 ≤ t → 0 ≤ k < BPB → t * BPB + k < sb_size (k_sb s) → isfree s (t * BPB + k) = true →
  tx ((bi, BBLOCK (t * BPB) (k_sb s)) :: Hd) W s1 → tx_only s s1 → (∀ m, lblk s1 m = lblk s m) →
  (∀ s', tx Hd (addw (t * BPB + k) (addw (BBLOCK (t * BPB) (k_sb s)) W)) s' → tx_only s s' →
     alloced s (t * BPB + k) s' → Q (t * BPB + k) s') →
  wp (set_data bi (bit_set k (lblk s (BBLOCK (t * BPB) (k_sb s)))) ;;
      log_write bi ;; brelse bi ;; bzero 1 (t * BPB + k) ;; mret (t * BPB + k)) Q s1.
Proof.
  intros T F Hh Hl HW Ht Hk Hks Hfk T1 O1 V1 HQ.
  destruct (BBLOCK_row s t k F Ht Hk Hks) as [Eb Em]. set (bb := BBLOCK (t * BPB) (k_sb s)) in *.
  set (b := t * BPB + k) in *. assert (0 < BPB) by done.
  assert (home_block s bb) as Hbh by (apply (fs_bmap s F); exists (t * BPB); split; [lia|done]).
  destruct (fs_free s F b ltac:(lia) Hfk) as (Hb0 & Hbhome & Hbnb & Hbni).
  pose proof (length_addw bb W) as Hw1. pose proof (length_addw b (addw bb W)) as Hw2.
  eapply tx_update; [exact T1|by apply (tx_only_home _ _ _ O1)| |lia|].
  { rewrite length_bit_set. apply (tx_lblk_len _ _ _ _ T). apply Hbh. }
  intros s2 T2 O2 V2. apply wp_bind. eapply tx_brelse; [exact T2|]. intros s3 T3 O3 V3.
  pose proof (tx_only_trans _ _ _ (tx_only_trans _ _ _ O1 O2) O3) as O13.
  apply wp_bind. eapply tx_bzero; [exact T3|by apply (tx_only_home _ _ _ O13)| |done|lia|].
  { intros Hin. destruct (Hh _ Hin) as [_ Hnf]. rewrite Hnf in Hfk by lia. done. }
  intros s4 T4 O4 V4. apply wp_ret. apply HQ; [done|by eapply tx_only_trans|].
  intros m. rewrite V4, Eb, Em. case_decide; [done|]. rewrite V3, V2. case_decide as E; [by rewrite E|apply V1].
Qed.

Lemma wp_balloc_row Hd W t s (kn : K Z) (Q : Z → kernel → Prop) :
  tx Hd W s → fs_ok s → held_ok s Hd → (length Hd ≤ 1)%nat → Z.of_nat (length W) + 2 ≤ TXMAX →
  0 ≤ t → t * BPB < sb_size (k_sb s) → (∀ y, 0 ≤ y < t * BPB → isfree s y = false) →
  (∀ b s', balloc_post s Hd W b s' → Q b s') →
  (∀ s', tx Hd W s' → tx_only s s' → (∀ m, lblk s' m = lblk s m) → row_full s t → wp kn Q s') →
  wp (bp ← bread 1 (BBLOCK (t * BPB) (k_sb s));
      d ← get_data bp;
      match bit_scan (Z.to_nat BPB) d (t * BPB) 0 (sb_size (k_sb s)) with
      | Some bi =>
          set_data bp (bit_set bi d) ;; log_write bp ;; brelse bp ;;
          bzero 1 (t * BPB + bi) ;; mret (t * BPB + bi)
      | None => brelse bp ;; kn
      end) Q s.
Proof.
  intros T F Hh Hl HW Ht Hts Hlow HQ Hn. set (bb := BBLOCK (t * BPB) (k_sb s)) in *.
  assert (0 < BPB) as HB by done.
  assert (bmap_blk s bb) as Hbb by (exists (t * BPB); split; [lia|done]).
  apply wp_bind. eapply tx_bread; [exact T|apply (fs_bmap s F); exact Hbb|intros Hin; by destruct (Hh _ Hin)|done|].
  intros bi s1 T1 O1 V1. apply wp_bind. eapply tx_get_data; [exact T1|left|]. rewrite V1.
  pose proof (bit_scan_spec (Z.to_nat BPB) (lblk s bb) (t * BPB) 0 (sb_size (k_sb s))) as Hscan.
  rewrite Z2Nat.id in Hscan by lia. destruct (bit_scan _ _ _ _ _) as [k|].
  - destruct Hscan as (Hk1 & Hk2 & Hk3 & Hk4).
    assert (isfree s (t * BPB + k) = true) as Hfk.
    { rewrite (isfree_row s t) by (done || lia). by replace (t * BPB + k - t * BPB) with k by lia. }
    destruct (BBLOCK_row s t k F Ht ltac:(lia) Hk2) as [Eb _].
    eapply (wp_balloc_take Hd W t k s s1 bi); [done..|lia|done|done|done|done|done|].
    intros s' T' O' A'. apply HQ. split_and!; [lia|lia|done| |by rewrite Eb|done|done].
    intros y Hy. destruct (decide (y < t * BPB)); [apply Hlow; lia|].
    rewrite (isfree_row s t) by (done || lia). apply Hk4. lia.
  - apply wp_bind. eapply tx_brelse; [exact T1|]. intros s2 T2 O2 V2.
    apply Hn; [done|by eapply tx_only_trans|intros m; by rewrite V2, V1|].
    intros y Hy Hys. rewrite (isfree_row s t) by (done || lia). apply Hscan; lia.
Qed.

Lemma wp_balloc_loop fuel Hd W t s x (Q : Z → kernel → Prop) :
  tx Hd W s → fs_ok s → held_ok s Hd → (length Hd ≤ 1)%nat → Z.of_nat (length W) + 2 ≤ TXMAX →
  0 ≤ t → t * BPB ≤ x < sb_size (k_sb s) → isfree s x = true →
  (∀ y, 0 ≤ y < t * BPB → isfree s y = false) → (Z.to_nat (x / BPB - t) ≤ fuel)%nat →
  (∀ b s', balloc_post s Hd W b s' → Q b s') →
  wp (balloc_loop fuel 1 (t * BPB)) Q s.
Proof.
  revert t s. induction fuel as [|fuel IH]; intros t s T F Hh Hl HW Ht Hx Hfx Hlow Hfuel HQ;
    cbn [balloc_loop]; apply wp_bind, wp_gets;
    rewrite (proj2 (Z.ltb_lt (t * BPB) (sb_size (k_sb s)))) by lia;
    (apply (wp_balloc_row Hd W); [done|done|done|done|done|done|lia|done|done|]);
    intros s1 T1 O1 V1 Hfull; pose proof (tx_only_sb _ _ O1) as Esb;
    assert ((t + 1) * BPB ≤ x) as Hx1
      by (destruct (decide ((t + 1) * BPB ≤ x)); [done|]; rewrite Hfull in Hfx by lia; done);
    assert (t + 1 ≤ x / BPB) as Hxt by (apply Z.div_le_lower_bound; unfold BPB, BSIZE in *; lia); [lia|].
  assert (∀ y, isfree s1 y = isfree s y) as Hfr by (intros y; unfold isfree; by rewrite Esb, V1).
  replace (t * BPB + BPB) with ((t + 1) * BPB) by lia.
  apply IH; [done| | |done|done|lia|rewrite Esb; lia|by rewrite Hfr| |lia|].
  - eapply fs_ok_only; [exact O1|done|]. intros b Hb Hb'. left. by rewrite <- Hfr.
  - intros n Hin. rewrite Hfr, (tx_only_bmap_blk _ _ _ O1), Esb. by apply Hh.
  - intros y Hy. rewrite Hfr. destruct (decide (y < t * BPB)); [apply Hlow; lia|]. apply Hfull; lia.
  - intros b s' (Hb & Hfb & Hl' & T' & O' & A'). rewrite Esb in *. apply HQ.
    split_and!; [lia|lia|by rewrite <- Hfr| |done|by eapply tx_only_trans|].
    + intros y Hy. rewrite <- Hfr. by apply Hl'.
    + intros m. rewrite A', Esb, !V1. done.
Qed.

Lemma wp_balloc Hd W s x (Q : Z → kernel → Prop) :
  tx Hd W s → fs_ok s → held_ok s Hd → (length Hd ≤ 1)%nat → Z.of_nat (length W) + 2 ≤ TXMAX →
  0 ≤ x < sb_size (k_sb s) → isfree s x = true →
  (∀ b s', balloc_post s Hd W b s' → Q b s') → wp (balloc 1) Q s.
Proof.
  intros T F Hh Hl HW Hx Hfx HQ. unfold balloc. apply wp_bind, wp_gets.
  apply (wp_balloc_loop _ Hd W 0 s x); [done|done|done|done|done|done|lia|done|lia| |done].
  assert (x / BPB ≤ sb_size (k_sb s) / BPB) by (apply Z.div_le_mono; [done|lia]). lia.
Qed.

(** The bitmap after an allocation. *)
Lemma alloced_free s b s' :
  fs_ok s → tx_only s s' → 0 ≤ b < sb_size (k_sb s) → isfree s b = true → alloced s b s' →
  length (lblk s (BBLOCK b (k_sb s))) = Z.to_nat BSIZE →
  (∀ x, 0 ≤ x < sb_size (k_sb s) → isfree s' x = isfree s x && negb (x =? b)) ∧ fs_ok s'.
Proof.
  intros F O Hb Hfb A Hlen. destruct (fs_free s F b Hb Hfb) as (Hb0 & Hbhome & Hbnb & Hbni).
  assert (BBLOCK b (k_sb s) ≠ b) as Hne by (intros E; apply Hbnb; by exists b).
  assert (∀ x, 0 ≤ x < sb_size (k_sb s) → isfree s' x = isfree s x && negb (x =? b)) as Hfr.
  { intros x Hx. rewrite (isfree_upd s s' b (bit_set (b mod BPB)) (λ _ _, false) F O Hb).
    - destruct (x =? b); [by rewrite andb_false_r|by rewrite andb_true_r].
    - rewrite A, decide_False, decide_True by done. done.
    - intros n Hn Hnb. rewrite A, decide_False, decide_False by (done || by intros ->). done.
    - intros k Hk. rewrite bit_free_set; [|rewrite Hlen|lia].
      + destruct (k =? b mod BPB); [by rewrite andb_false_r|by rewrite andb_true_r].
      + apply Z.mod_pos_bound. done.
    - done. }
  split; [done|]. eapply fs_ok_only; [exact O|done|]. intros x Hx Hfx. left.
  rewrite Hfr in Hfx by done. by apply andb_true_iff in Hfx as [? _].
Qed.

(** With no free block the search ends in the panic. *)
Lemma balloc_loop_full fuel Hd W t s :
  tx Hd W s → fs_ok s → held_ok s Hd → (length Hd ≤ 1)%nat →
  0 ≤ t → (∀ y, 0 ≤ y < sb_size (k_sb s) → isfree s y = false) →
  (Z.to_nat (sb_size (k_sb s) / BPB - t + 1) ≤ fuel)%nat →
  panics (balloc_loop fuel 1 (t * BPB)) "balloc: out of blocks" s.
Proof.
  revert t s. induction fuel as [|fuel IH]; intros t s T F Hh Hl Ht Hnone Hfuel; cbn [balloc_loop];
    apply panics_bind, wp_gets; destruct (Z.ltb_spec (t * BPB) (sb_size (k_sb s))) as [Hlt|Hge]; try done;
    assert (t ≤ sb_size (k_sb s) / BPB) by (apply Z.div_le_lower_bound; unfold BPB, BSIZE in *; lia); [lia|].
  assert (0 < BPB) as HB by done. set (bb := BBLOCK (t * BPB) (k_sb s)).
  assert (bmap_blk s bb) as Hbb by (exists (t * BPB); split; [lia|done]).
  apply panics_bind. eapply tx_bread; [exact T|apply (fs_bmap s F); exact Hbb|intros Hin; by destruct (Hh _ Hin)|done|].
  intros bi s1 T1 O1 V1. apply panics_bind. eapply tx_get_data; [exact T1|left|]. rewrite V1.
  pose proof (bit_scan_spec (Z.to_nat BPB) (lblk s bb) (t * BPB) 0 (sb_size (k_sb s))) as Hscan.
  rewrite Z2Nat.id in Hscan by lia. destruct (bit_scan _ _ _ _ _) as [k|].
  { destruct Hscan as (Hk1 & Hk2 & Hk3 & _). exfalso.
    pose proof (Hnone (t * BPB + k) ltac:(lia)) as Hf. rewrite (isfree_row s t) in Hf by (done || lia).
    replace (t * BPB + k - t * BPB) with k in Hf by lia. fold bb in Hf. congruence. }
  apply panics_bind. eapply tx_brelse; [exact T1|]. intros s2 T2 O2 V2.
  pose proof (tx_only_trans _ _ _ O1 O2) as O. pose proof (tx_only_sb _ _ O) as Esb.
  assert (∀ y, isfree s2 y = isfree s y) as Hfr by (intros y; unfold isfree; by rewrite Esb, V2, V1).
  replace (t * BPB + BPB) with ((t + 1) * BPB) by lia.
  apply IH; [done| | |done|lia| |rewrite Esb; lia].
  - eapply fs_ok_only; [exact O|done|]. intros b Hb Hb'. left. by rewrite <- Hfr.
  - intros n Hin. rewrite Hfr, (tx_only_bmap_blk _ _ _ O), Esb. by apply Hh.
  - intros y Hy. rewrite Hfr. apply Hnone. by rewrite <- Esb.
Qed.

(** ** bfree *)

Lemma wp_bfree Hd W b s (Q : unit → kernel → Prop) :
  tx Hd W s → fs_ok s → (∀ n, n ∈ Hd.*2 → ¬ bmap_blk s n) → (length Hd ≤ 1)%nat →
  data_blk s b → isfree s b = false → Z.of_nat (length (addw (BBLOCK b (k_sb s)) W)) ≤ TXMAX →
  (∀ s', tx Hd (addw (BBLOCK b (k_sb s)) W) s' → tx_only s s' → fs_ok s' →
     (∀ m, m ≠ BBLOCK b (k_sb s) → lblk s' m = lblk s m) →
     (∀ x, 0 ≤ x < sb_size (k_sb s) → isfree s' x = isfree s x || (x =? b)) → Q tt s') →
  wp (bfree 1 b) Q s.
Proof.
  intros T F Hh Hl Hb Hused HW HQ. pose proof Hb as (Hb0 & Hbh & Hnb & _). unfold bfree. apply wp_bind, wp_gets.
  set (bb := BBLOCK b (k_sb s)) in *. assert (bmap_blk s bb) as Hbb by (exists b; split; [lia|done]).
  pose proof (fs_bmap s F bb Hbb) as Hbbh.
  apply wp_bind. eapply tx_bread; [exact T|apply Hbbh|intros Hin; by apply (Hh bb)|done|].
  intros bi s1 T1 O1 V1. apply wp_bind. eapply tx_get_data; [exact T1|left|]. rewrite V1.
  unfold isfree in Hused. fold bb in Hused. rewrite Hused.
  assert (length (lblk s bb) = Z.to_nat BSIZE) as Hlen by (apply (tx_lblk_len _ _ _ _ T), Hbbh).
  eapply tx_update; [exact T1|by apply (tx_only_home _ _ _ O1)|by rewrite length_bit_clear|done|].
  intros s2 T2 O2 V2. eapply tx_brelse; [exact T2|]. intros s3 T3 O3 V3.
  pose proof (tx_only_trans _ _ _ (tx_only_trans _ _ _ O1 O2) O3) as O.
  assert (∀ m, m ≠ bb → lblk s3 m = lblk s m) as Vo by (intros m Hm; by rewrite V3, V2, decide_False, V1).
  assert (∀ x, 0 ≤ x < sb_size (k_sb s) → isfree s3 x = isfree s x || (x =? b)) as Hfr.
  { intros x Hx. rewrite (isfree_upd s s3 b (bit_clear (b mod BPB)) (λ _ _, true) F O ltac:(lia)).
    - destruct (x =? b); [by rewrite orb_true_r|by rewrite orb_false_r].
    - fold bb. rewrite V3, V2, decide_True by done. done.
    - intros n Hn Hnb'. by apply Vo.
    - intros k Hk. fold bb. rewrite bit_free_clear; [|rewrite Hlen|lia].
      + destruct (k =? b mod BPB); [by rewrite orb_true_r|by rewrite orb_false_r].
      + apply Z.mod_pos_bound. done.
    - done. }
  apply HQ; [done|done| |done|done].
  eapply fs_ok_only; [exact O|done|]. intros x Hx Hfx. rewrite Hfr in Hfx by done.
  apply orb_true_iff in Hfx as [?|E]; [by left|right]. by apply Z.eqb_eq in E as ->.
Qed.

Lemma bfree_free Hd W b s :
  tx Hd W s → fs_ok s → (∀ n, n ∈ Hd.*2 → ¬ bmap_blk s n) → (length Hd ≤ 1)%nat →
  0 ≤ b < sb_size (k_sb s) → isfree s b = true → panics (bfree 1 b) "freeing free block" s.
Proof.
  intros T F Hh Hl Hb Hfree. unfold bfree. apply panics_bind, wp_gets.
  set (bb := BBLOCK b (k_sb s)) in *. assert (bmap_blk s bb) as Hbb by (exists b; split; [lia|done]).
  apply panics_bind. eapply tx_bread; [exact T|apply (fs_bmap s F bb Hbb)|intros Hin; by apply (Hh bb)|done|].
  intros bi s1 T1 O1 V1. apply panics_bind. eapply tx_get_data; [exact T1|left|]. rewrite V1.
  unfold isfree in Hfree. fold bb in Hfree. by rewrite Hfree.
Qed.
End Alloc.
