(* ===== verification/DemoFs.v ===== *)
(** * DemoFs: a small file system

    A machine whose disk holds a file system of 40 blocks - log at 2, inodes at
    32, bitmap at 33, data from 34 on - with a root directory and one file of
    600 bytes, both cached and locked by the running process, inside a
    transaction.  It witnesses the hypotheses of the file system's theorems. *)

From S2P Require Import Prelude State Lock Bio BufSpec Log Txn Inode Blocks.

Definition demo_sb : superblock := mkSuperblock 40 6 8 30 2 32 33.
Definition demo_root : dinode := mkDinode T_DIR 0 0 1 48 (34 :: replicate 12 0).
Definition demo_file : dinode := mkDinode T_FILE 0 0 1 600 (35 :: 36 :: replicate 11 0).

(** A directory entry: the inode number and the name padded to 14 bytes. *)
Definition demo_dirent (inum : Z) (name : list Z) : list Z :=
  le_put 2 inum ++ name ++ replicate (DIRSIZ - length name) 0.

Definition demo_fsblock (n : Z) : list Z :=
  if n =? 32 then dinode_put 128 demo_file (dinode_put 64 demo_root zero_block)
  else if n =? 33 then splice 0 [255; 255; 255; 255; 31] zero_block
  else if n =? 34 then
    splice 0 (demo_dirent 1 (str ".") ++ demo_dirent 1 (str "..") ++ demo_dirent 2 (str "f")) zero_block
  else if n =? 35 then replicate (Z.to_nat BSIZE) 65
  else if n =? 36 then replicate (Z.to_nat BSIZE) 66
  else zero_block.

Definition demo_fsdisk : gmap Z (list Z) :=
  list_to_map ((λ k, (Z.of_nat k, demo_fsblock (Z.of_nat k))) <$> seq 0 40).
Definition demo_fslog : log := mkLog 2 30 1 false 1 0 (replicate (Z.to_nat LOGSIZE) 0).
Definition demo_held : sleeplock := mkSleeplock true 1.
Definition demo_inode (inum : Z) (di : dinode) : inode :=
  from_dinode di (mkInode 1 inum 1 slk0 demo_held true 0 0 0 0 0 []).
(** Slot 0 caches the file, slot 1 the root directory. *)
Definition demo_icache : list inode :=
  demo_inode 2 demo_file :: demo_inode 1 demo_root :: replicate 48 inode0.

Definition demo_fskernel : kernel :=
  set_k_proc (Some 0%nat) (set_k_ptable (<[0%nat := demo_proc]> (k_ptable kernel0))
    (set_k_disk demo_fsdisk (set_k_disksize 40 (set_k_log demo_fslog
      (set_k_sb demo_sb (set_k_icache demo_icache kernel0)))))).
(** The value is sealed, so that no tactic runs the boot sequence. *)
Definition demo_fs_aux : seal (run binit demo_fskernel). Proof. by eexists. Qed.
Definition demo_fs : kernel := unseal demo_fs_aux.

Lemma demo_fsdisk_lookup n : 0 ≤ n < 40 → demo_fsdisk !! n = Some (demo_fsblock n).
Proof.
  intros Hn. unfold demo_fsdisk. apply elem_of_list_to_map_1.
  - rewrite <- list_fmap_compose. apply NoDup_fmap_2; [intros x y; simpl; lia|apply NoDup_seq].
  - apply list_elem_of_fmap. exists (Z.to_nat n). rewrite Z2Nat.id by lia.
    split; [done|]. apply elem_of_seq. lia.
Qed.

Lemma demo_fsblock_len n : length (demo_fsblock n) = Z.to_nat BSIZE.
Proof.
  unfold demo_fsblock. repeat (case_match; [vm_compute; reflexivity|]). reflexivity.
Qed.

Lemma demo_fs_boot :
  st 0 demo_proc [] demo_fs ∧ (∀ n, ¬ isdirty demo_fs n) ∧
  k_disk demo_fs = demo_fsdisk ∧ k_disksize demo_fs = 40 ∧ k_log demo_fs = demo_fslog ∧
  k_sb demo_fs = demo_sb ∧ k_icache demo_fs = demo_icache.
Proof.
  assert (wp binit (λ _ s, ∃ bc, s = set_k_bcache bc demo_fskernel ∧ lru bc (rev (seq 0 NBUF)) ∧
    core <$> bc = replicate (S NBUF) (core buf0)) demo_fskernel) as (_ & bc & E & Hl & Hc)%wp_run.
  { apply wp_binit; [done|by repeat constructor|]. intros bc Hl Hc. exists bc.
    split; [done|]. split; [done|]. by rewrite Hc. }
  unfold demo_fs. rewrite (seal_eq demo_fs_aux), E. clear E.
  destruct (st_boot 0 demo_proc (set_k_bcache bc demo_fskernel) (rev (seq 0 NBUF)))
    as [Hs Hd]; [done|done| |done|done|done|done].
  intros n Hn. exists (demo_fsblock n). split; [by apply demo_fsdisk_lookup|apply demo_fsblock_len].
Qed.
#[global] Opaque demo_fs demo_fsdisk.

Lemma demo_fs_lblk n : 0 ≤ n < 40 → lblk demo_fs n = demo_fsblock n.
Proof.
  intros Hn. destruct demo_fs_boot as (Hs & Hd & Ed & Es & _).
  assert (k_disk demo_fs !! n = Some (lblk demo_fs n)) as H1.
  { apply (lblk_clean 0 demo_proc); [exact Hs|apply Hd|rewrite Es; exact Hn]. }
  rewrite Ed, demo_fsdisk_lookup in H1 by exact Hn. injection H1 as H1. by symmetry.
Qed.

Lemma demo_fs_home n : home_block demo_fs n ↔ 0 ≤ n < 40 ∧ ¬ (2 ≤ n < 32).
Proof. destruct demo_fs_boot as (_ & _ & _ & Es & El & _). unfold home_block. rewrite Es, El. simpl. lia. Qed.

Lemma demo_fs_tx : tx 0 demo_proc [] [] demo_fs.
Proof.
  destruct demo_fs_boot as (Hs & Hd & Ed & Es & El & _). split; [split|..].
  - exact Hs.
  - constructor.
  - constructor.
  - intros bi n Hin. by apply not_elem_of_nil in Hin.
  - intros m Hm. by apply Hd in Hm.
  - discriminate.
  - simpl. lia.
  - split; unfold home_block; rewrite ?El, ?Es; simpl; try done; try lia. intros b Hb%elem_of_nil. done.
  - split; rewrite El; [apply NoDup_nil_2|]. intros m. split; [by intros ?%Hd|]. intros Hm%elem_of_nil. done.
  - rewrite El. done.
  - rewrite El. intros m Hm. exact Hm.
  - rewrite El. done.
Qed.

Lemma demo_fs_BBLOCK b : 0 ≤ b < 40 → BBLOCK b demo_sb = 33.
Proof. intros Hb. unfold BBLOCK. rewrite Z.div_small by (unfold BPB, BSIZE; lia). reflexivity. Qed.
Lemma demo_fs_IBLOCK j : 0 ≤ j < 8 → IBLOCK j demo_sb = 32.
Proof. intros Hb. unfold IBLOCK. rewrite Z.div_small by (change IPB with 8; lia). reflexivity. Qed.

(** Blocks 0 to 36 are in use. *)
Lemma demo_fs_isfree b : 0 ≤ b < 40 → isfree demo_fs b = (37 <=? b).
Proof.
  intros Hb. destruct demo_fs_boot as (_ & _ & _ & _ & _ & Esb & _). unfold isfree.
  rewrite Esb, demo_fs_BBLOCK, demo_fs_lblk by lia. rewrite Z.mod_small by (unfold BPB, BSIZE; lia).
  assert (forallb (λ k, Bool.eqb (bit_free (demo_fsblock 33) (Z.of_nat k)) (37 <=? Z.of_nat k)) (seq 0 40) = true) as Hall
    by (vm_compute; reflexivity).
  rewrite forallb_forall in Hall. specialize (Hall (Z.to_nat b)). rewrite Z2Nat.id in Hall by lia.
  apply eqb_prop, Hall. apply in_seq. lia.
Qed.

Lemma demo_fs_data b : 34 ≤ b < 40 → data_blk demo_fs b.
Proof.
  intros Hb. destruct demo_fs_boot as (_ & _ & _ & _ & _ & Esb & _). unfold data_blk, bmap_blk, inode_blk.
  rewrite Esb, demo_fs_home. simpl. split_and!; [lia..| |].
  - intros (x & Hx & E). rewrite demo_fs_BBLOCK in E by lia. lia.
  - intros (x & Hx & E). rewrite demo_fs_IBLOCK in E by lia. lia.
Qed.

Lemma demo_fs_ok : fs_ok demo_fs.
Proof.
  destruct demo_fs_boot as (_ & _ & _ & Es & _ & Esb & _). split; unfold bmap_blk, inode_blk; rewrite ?Esb, ?Es.
  - simpl. lia.
  - done.
  - done.
  - intros n (x & Hx & ->). rewrite demo_fs_BBLOCK by done. apply demo_fs_home. lia.
  - intros n (x & Hx & ->). rewrite demo_fs_IBLOCK by done. split; [apply demo_fs_home; lia|].
    intros (y & Hy & E). rewrite demo_fs_BBLOCK in E by done. lia.
  - intros b Hb Hf. rewrite demo_fs_isfree in Hf by done. apply Z.leb_le in Hf. apply demo_fs_data. simpl in Hb. lia.
Qed.

(** ** The allocator's theorem *)

(** C25. Inside a transaction [balloc] returns the lowest-numbered free block, a
    data block, marked used in the bitmap and zeroed; no other block and no
    other bit changes.  If no block is free it panics.  [bfree] of a data block
    in use undoes the marking and changes nothing else; of a free block it
    panics. *)
Theorem balloc_bfree `{WaitBound} (i : nat) (p : proc) (W : list Z) (s : kernel) :
  tx i p [] W s → fs_ok s → Z.of_nat (length W) + 2 ≤ TXMAX →
  ((∃ x, 0 ≤ x < sb_size (k_sb s) ∧ isfree s x = true) →
   wp (balloc 1) (λ b s', data_blk s b ∧ isfree s b = true ∧ (∀ y, 0 ≤ y < b → isfree s y = false) ∧
     tx i p [] (addw b (addw (BBLOCK b (k_sb s)) W)) s' ∧ fs_ok s' ∧ lblk s' b = zero_block ∧
     (∀ m, m ≠ b → ¬ bmap_blk s m → lblk s' m = lblk s m) ∧
     ∀ x, 0 ≤ x < sb_size (k_sb s) → isfree s' x = isfree s x && negb (x =? b)) s) ∧
  ((∀ x, 0 ≤ x < sb_size (k_sb s) → isfree s x = false) →
   panics (balloc 1) "balloc: out of blocks" s) ∧
  ∀ b, data_blk s b →
    if isfree s b then panics (bfree 1 b) "freeing free block" s
    else wp (bfree 1 b) (λ _ s', fs_ok s' ∧ (∀ m, ¬ bmap_blk s m → lblk s' m = lblk s m) ∧
           ∀ x, 0 ≤ x < sb_size (k_sb s) → isfree s' x = isfree s x || (x =? b)) s.
Proof.
  intros T F HW. assert (∀ n, n ∈ ([] : list (nat * Z)).*2 → ¬ bmap_blk s n) as Hno.
  { intros n Hn. by apply not_elem_of_nil in Hn. }
  split_and!.
  - intros (x & Hx & Hfx). eapply (wp_balloc i p [] W s x); [done|done|intros n Hn; by apply not_elem_of_nil in Hn|
      simpl; lia|done|done|done|].
    intros b s' (Hb & Hfb & Hlow & T' & O' & A'). pose proof (fs_free s F b Hb Hfb) as Hdb.
    destruct (alloced_free s b s' F O' Hb Hfb A') as [Hfr F'].
    { apply (tx_lblk_len i p [] W); [done|]. apply (fs_bmap s F). by exists b. }
    split_and!; try done.
    + by rewrite A', decide_True.
    + intros m Hm Hnb. rewrite A', decide_False, decide_False; [done| |done]. intros ->. apply Hnb. by exists b.
  - intros Hnone. unfold balloc. apply panics_bind, wp_gets.
    apply (balloc_loop_full i p _ [] W 0 s); [done|done|intros n Hn; by apply not_elem_of_nil in Hn|simpl; lia|lia|done|lia].
  - intros b Hb. destruct (isfree s b) eqn:E.
    + apply (bfree_free i p [] W); [done|done|done|simpl; lia|destruct Hb; lia|done].
    + pose proof (length_addw (BBLOCK b (k_sb s)) W).
      apply (wp_bfree i p [] W); [done|done|done|simpl; lia|done|done|lia|].
      intros s' T' O' F' V' Hfr. split_and!; [done| |done]. intros m Hm. apply V'. intros ->. apply Hm.
      exists b. split; [destruct Hb; lia|done].
Qed.

Lemma balloc_bfree_witness :
  wp (balloc (H := 0%nat) 1) (λ b s', b = 37 ∧ lblk s' 37 = zero_block ∧ isfree s' 37 = false) demo_fs.
Proof.
  destruct demo_fs_boot as (_ & _ & _ & _ & _ & Esb & _).
  destruct (balloc_bfree (H := 0%nat) 0 demo_proc [] demo_fs demo_fs_tx demo_fs_ok) as [Hw _]; [discriminate|].
  eapply wp_mono; [apply Hw; exists 37; rewrite Esb; split; [split; [discriminate|reflexivity]|by rewrite demo_fs_isfree]|].
  intros b s' (Hb & Hfb & Hlow & _ & _ & Hz & _ & Hfr). destruct Hb as (Hb & _). rewrite Esb in Hfr. simpl in Hfr.
  assert (b = 37) as ->; [|split; [done|split; [exact Hz|by rewrite Hfr, andb_false_r]]].
  destruct (decide (b < 37)) as [Hlt|Hge].
  - rewrite demo_fs_isfree in Hfb by lia. apply Z.leb_le in Hfb. lia.
  - destruct (decide (b = 37)); [done|]. exfalso. specialize (Hlow 37 ltac:(lia)). by rewrite demo_fs_isfree in Hlow.
Defined.
