(* ===== verification/FsData.v ===== *)
(** * FsData: the blocks and the contents of a file

    What an inode and the blocks it names stand for: the disk block at each
    position of the file, and the file's contents as a list of bytes.  [bmap]
    is shown to return the block of a position, allocating it if there is none,
    and to leave every other block in use alone. *)

From S2P Require Import Prelude State Lock Bio BufSpec Log Inode Txn Blocks.

(** ** Frames *)

(** Only the buffer cache, the log, sleeping processes and the inode cache changed. *)
Definition fs_only (s s' : kernel) : Prop := tx_only (set_k_icache (k_icache s') s) s'.

Section Only.
Implicit Types s : kernel.
Lemma fs_only_tx s s' : tx_only s s' → fs_only s s'.
Proof. intros O. unfold fs_only. rewrite (tx_only_icache _ _ O). by destruct s. Qed.
Lemma fs_only_refl s : fs_only s s.
Proof. apply fs_only_tx, tx_only_refl. Qed.
Lemma fs_only_icache l s : fs_only s (set_k_icache l s).
Proof. unfold fs_only. simpl. apply tx_only_refl. Qed.
Lemma fs_only_trans s1 s2 s3 : fs_only s1 s2 → fs_only s2 s3 → fs_only s1 s3.
Proof.
  intros (bc & pt & lg & E & A1 & A2 & [A4 A5] & A3) (bc' & pt' & lg' & E' & B1 & B2 & [B4 B5] & B3).
  exists bc', pt', lg'. rewrite E in E', B1, B2, B3, B4, B5. simpl in *.
  split_and!; [by rewrite E'; simpl|congruence..|].
  intros i p Hp Hs. apply B3; [|done]. by apply A3.
Qed.
Lemma fs_only_home s s' m : fs_only s s' → home_block s' m ↔ home_block s m.
Proof. intros O. by rewrite (tx_only_home _ _ m O). Qed.
Lemma fs_only_sb s s' : fs_only s s' → k_sb s' = k_sb s.
Proof. intros O. by rewrite (tx_only_sb _ _ O). Qed.
Lemma fs_only_disksize s s' : fs_only s s' → k_disksize s' = k_disksize s.
Proof. intros O. by rewrite (tx_only_disksize _ _ O). Qed.
Lemma fs_only_bmap_blk s s' n : fs_only s s' → bmap_blk s' n ↔ bmap_blk s n.
Proof. intros O. by rewrite (tx_only_bmap_blk _ _ n O). Qed.
Lemma fs_only_inode_blk s s' n : fs_only s s' → inode_blk s' n ↔ inode_blk s n.
Proof. intros O. by rewrite (tx_only_inode_blk _ _ n O). Qed.
Lemma fs_only_data_blk s s' n : fs_only s s' → data_blk s' n ↔ data_blk s n.
Proof. intros O. by rewrite (tx_only_data_blk _ _ n O). Qed.
End Only.

(** ** The blocks of a file *)

(** The positions of block numbers: 0 to 11 direct, 12 the indirect block, 13
    and up the entries of the indirect block. *)
Definition NPOS : nat := 141.
Definition fpos (bn : nat) : nat := if decide (bn < 12)%nat then bn else S bn.
Definition ind (v : inode) : Z := default 0 (i_addrs v !! 12%nat).
Definition blk (s : kernel) (v : inode) (q : nat) : Z :=
  if decide (q ≤ 12)%nat then default 0 (i_addrs v !! q)
  else if ind v =? 0 then 0 else get32 (4 * (q - 13)) (lblk s (ind v)).

(** The nonzero block numbers name distinct data blocks in use. *)
Record blocks_ok (s : kernel) (v : inode) : Prop := {
  kb_dev : i_dev v = 1;
  kb_len : length (i_addrs v) = 13%nat;
  kb_used : ∀ q, (q < NPOS)%nat → blk s v q ≠ 0 → data_blk s (blk s v q) ∧ isfree s (blk s v q) = false;
  kb_inj : ∀ q r, (q < NPOS)%nat → (r < NPOS)%nat → blk s v q ≠ 0 → blk s v q = blk s v r → q = r }.

(** [s'] is [s] after the free block [b] was allocated and zeroed. *)
Record alloc_step (s : kernel) (b : Z) (s' : kernel) : Prop := {
  as_only : tx_only s s';
  as_free : isfree s b = true;
  as_data : data_blk s b;
  as_fs : fs_ok s';
  as_zero : lblk s' b = zero_block;
  as_same : ∀ m, m ≠ b → ¬ bmap_blk s m → lblk s' m = lblk s m;
  as_isfree : ∀ x, 0 ≤ x < sb_size (k_sb s) → isfree s' x = isfree s x && negb (x =? b) }.

Section Blocks.
Implicit Types (s : kernel) (v : inode) (q r : nat).

Lemma fpos_lt bn : (bn < 140)%nat → (fpos bn < NPOS)%nat ∧ fpos bn ≠ 12%nat.
Proof. intros. unfold fpos, NPOS. case_decide; lia. Qed.
Lemma fpos_inj a b : fpos a = fpos b → a = b.
Proof. unfold fpos. repeat case_decide; lia. Qed.

Lemma ind_blk s v : ind v = blk s v 12.
Proof. done. Qed.

(** The blocks depend on the state only through the indirect block. *)
Lemma blk_frame s s' v q : (ind v ≠ 0 → lblk s' (ind v) = lblk s (ind v)) → blk s' v q = blk s v q.
Proof. intros H. unfold blk. case_decide; [done|]. destruct (Z.eqb_spec (ind v) 0); [done|]. by rewrite H. Qed.

Lemma data_in_range s m : data_blk s m → 0 ≤ m < sb_size (k_sb s).
Proof. intros (H & _). lia. Qed.
Lemma used_not_free s m b : isfree s m = false → isfree s b = true → m ≠ b.
Proof. intros H1 H2 ->. by rewrite H1 in H2. Qed.

(** An allocation does not disturb a file... *)
Lemma blk_alloc s b s' v q : alloc_step s b s' → blocks_ok s v → blk s' v q = blk s v q.
Proof.
  intros A B. apply blk_frame. intros Hi. rewrite (ind_blk s v) in Hi |- *.
  destruct (kb_used s v B 12 ltac:(unfold NPOS; lia) Hi) as [Hd Hu].
  apply (as_same _ _ _ A); [|apply Hd]. by apply (used_not_free s); [|apply A].
Qed.
Lemma blocks_alloc s b s' v : alloc_step s b s' → blocks_ok s v → blocks_ok s' v.
Proof.
  intros A B. split; [apply B|apply B| |].
  - intros q Hq. rewrite (blk_alloc s b s') by done. intros Hb. destruct (kb_used s v B q Hq Hb) as [Hd Hu].
    split; [by apply (tx_only_data_blk _ _ _ (as_only _ _ _ A))|].
    rewrite (as_isfree _ _ _ A), Hu by (by apply data_in_range). done.
  - intros q r Hq Hr. rewrite !(blk_alloc s b s') by done. by apply B.
Qed.
(** ... and the new block belongs to no file. *)
Lemma alloc_fresh s b s' v q : alloc_step s b s' → blocks_ok s v → (q < NPOS)%nat → blk s v q ≠ b.
Proof.
  intros A B Hq E. destruct (kb_used s v B q Hq) as [_ Hu].
  - rewrite E. destruct (as_data _ _ _ A) as (? & _). lia.
  - rewrite E, (as_free _ _ _ A) in Hu. done.
Qed.

(** The step may start from any state with the same blocks. *)
Lemma alloc_step_pre s s1 b s' :
  tx_only s s1 → (∀ m, lblk s1 m = lblk s m) → alloc_step s1 b s' → alloc_step s b s'.
Proof.
  intros O V [A1 A2 A3 A4 A5 A6 A7]. pose proof (tx_only_sb _ _ O) as Es.
  assert (∀ x, isfree s1 x = isfree s x) as Hf by (intros x; unfold isfree; by rewrite Es, V).
  split; try done.
  - by eapply tx_only_trans.
  - by rewrite <- Hf.
  - by apply (tx_only_data_blk _ _ _ O).
  - intros m Hm Hb. rewrite A6, V; [done|done|]. by rewrite (tx_only_bmap_blk _ _ _ O).
  - intros x Hx. rewrite A7, Hf by (by rewrite Es). done.
Qed.

(** A new block at a position: the bookkeeping shared by the three cases of [bmap]. *)
Lemma blocks_extend s s' v v' b q :
  blocks_ok s v → i_dev v' = 1 → length (i_addrs v') = 13%nat → (q < NPOS)%nat → blk s v q = 0 →
  (∀ r, (r < NPOS)%nat → blk s' v' r = if decide (r = q) then b else blk s v r) →
  (∀ r, (r < NPOS)%nat → blk s v r ≠ b) → data_blk s' b → isfree s' b = false →
  (∀ m, data_blk s m → isfree s m = false → data_blk s' m ∧ isfree s' m = false) → blocks_ok s' v'.
Proof.
  intros B Hdev Hlen Hq H0 Hb Hne Hd Hu Hmono. split; [done|done| |].
  - intros r Hr. rewrite Hb by done. case_decide as E; [done|]. intros Hr0.
    destruct (kb_used s v B r Hr Hr0). by apply Hmono.
  - intros r t Hr Ht. rewrite !Hb by done. repeat case_decide; subst; try done.
    + intros _ E. exfalso. by apply (Hne t).
    + intros _ E. exfalso. by apply (Hne r).
    + by apply B.
Qed.

(** Setting a direct block, or the indirect block to a block of zeros. *)
Lemma get32_zero o : (o + 4 ≤ 512)%nat → get32 o zero_block = 0.
Proof.
  intros Ho. unfold get32, zero_block, slice. rewrite drop_replicate, take_replicate.
  replace (4 `min` (Z.to_nat BSIZE - o))%nat with 4%nat by (change (Z.to_nat BSIZE) with 512%nat; lia). done.
Qed.

Definition set_addr (q : nat) (b : Z) (v : inode) : inode := set_i_addrs (<[q := b]> (i_addrs v)) v.

Lemma blk_set_addr s v b q r :
  length (i_addrs v) = 13%nat → (q ≤ 12)%nat → blk s v q = 0 → (r < NPOS)%nat →
  (q = 12%nat → lblk s b = zero_block) →
  blk s (set_addr q b v) r = if decide (r = q) then b else blk s v r.
Proof.
  intros Hlen Hq H0 Hr Hz. unfold blk, ind in *. simpl. unfold NPOS in Hr.
  rewrite decide_True in H0 by done. case_decide as Hr12.
  - case_decide as E; [subst; by rewrite list_lookup_insert_eq by lia|by rewrite list_lookup_insert_ne by lia].
  - rewrite (decide_False (P := r = q)) by lia. destruct (decide (q = 12%nat)) as [->|Hne].
    + rewrite H0. simpl. rewrite list_lookup_insert_eq by lia. simpl.
      destruct (b =? 0); [done|]. rewrite Hz by done. apply get32_zero. lia.
    + by rewrite list_lookup_insert_ne by lia.
Qed.

(** Setting an entry of the indirect block. *)
Lemma blk_set_entry s s' v b j r :
  ind v ≠ 0 → (j < 128)%nat → 0 ≤ b < 2 ^ 32 → length (lblk s (ind v)) = 512%nat → (r < NPOS)%nat →
  lblk s' (ind v) = put32 (4 * j) b (lblk s (ind v)) →
  blk s' v r = if decide (r = 13 + j)%nat then b else blk s v r.
Proof.
  intros Hi Hj Hb Hlen Hr E. unfold NPOS in Hr. unfold blk. case_decide; [by rewrite decide_False by lia|].
  rewrite (proj2 (Z.eqb_neq _ _) Hi), E. case_decide as Ej.
  - replace (r - 13)%nat with j by lia. apply get32_put32_eq; [lia|done].
  - apply get32_put32_ne; lia.
Qed.
End Blocks.

(** ** Supplies: free blocks and room in the log *)

Definition nfree (s : kernel) : nat :=
  length (filter (λ x, isfree s x = true) (seqZ 0 (sb_size (k_sb s)))).
(** Blocks that can still be allocated, counting the indirect block as spent. *)
Definition supply (s : kernel) (v : inode) : nat :=
  (nfree s + if decide (ind v = 0%Z) then 0 else 1)%nat.
(** Blocks in the transaction, counting the indirect block. *)
Definition load (W : list Z) (v : inode) : nat :=
  (length W + if decide (ind v ≠ 0%Z ∧ ind v ∈ W) then 0 else 1)%nat.

Section Supply.
Context `{WaitBound}.
Context (i : nat) (p : proc).
Implicit Types (s : kernel) (v : inode) (Hd : list (nat * Z)) (W : list Z).
#[local] Abbreviation tx := (tx i p).

Lemma nfree_alloc s b s' : alloc_step s b s' → nfree s = S (nfree s').
Proof.
  intros A. unfold nfree. rewrite (tx_only_sb _ _ (as_only _ _ _ A)).
  pose proof (data_in_range _ _ (as_data _ _ _ A)) as Hb.
  rewrite (length_filter_remove _ _ b); [|apply NoDup_seqZ|apply elem_of_seqZ; lia|apply A].
  do 2 f_equal. apply filter_ext_in. intros x Hx%elem_of_seqZ.
  rewrite (as_isfree _ _ _ A) by lia. rewrite andb_true_iff, negb_true_iff, Z.eqb_neq. done.
Qed.
Lemma nfree_same s s' : k_sb s' = k_sb s → (∀ x, isfree s' x = isfree s x) → nfree s' = nfree s.
Proof. intros E Hf. unfold nfree. rewrite E. f_equal. apply filter_ext_in. intros x _. by rewrite Hf. Qed.
Lemma nfree_pos s : (0 < nfree s)%nat → ∃ x, 0 ≤ x < sb_size (k_sb s) ∧ isfree s x = true.
Proof.
  unfold nfree. intros Hn. destruct (filter _ _) as [|x l] eqn:E; [simpl in Hn; lia|].
  assert (x ∈ filter (λ x, isfree s x = true) (seqZ 0 (sb_size (k_sb s)))) as Hx by (rewrite E; left).
  apply list_elem_of_filter in Hx as [Hf Hx%elem_of_seqZ]. exists x. split; [lia|done].
Qed.

Lemma wp_alloc Hd W s (Q : Z → kernel → Prop) :
  tx Hd W s → fs_ok s → held_ok s Hd → (length Hd ≤ 1)%nat → (∀ n, bmap_blk s n → n ∈ W) →
  Z.of_nat (length W) + 2 ≤ TXMAX → (0 < nfree s)%nat →
  (∀ b s', alloc_step s b s' → tx Hd (addw b W) s' → Q b s') → wp (balloc 1) Q s.
Proof.
  intros T F Hh Hl Hbm HW Hn HQ. destruct (nfree_pos s Hn) as (x & Hx & Hfx).
  eapply (wp_balloc i p); [exact T|done..|]. intros b s' (Hb & Hfb & _ & T' & O' & A').
  pose proof (fs_free s F b Hb Hfb) as Hdb.
  destruct (alloced_free s b s' F O' Hb Hfb A') as [Hfr F'].
  { apply (tx_lblk_len i p Hd W); [done|]. apply (fs_bmap s F). by exists b. }
  assert (bmap_blk s (BBLOCK b (k_sb s))) as Hbb by (by exists b).
  apply HQ; [|by rewrite (addw_in (BBLOCK _ _)) in T' by auto]. split; try done.
  - by rewrite A', decide_True.
  - intros m Hm Hnb. rewrite A', decide_False, decide_False; [done| |done]. by intros ->.
Qed.

Lemma load_bounds W v : (length W ≤ load W v ≤ length W + 1)%nat.
Proof. unfold load. case_decide; lia. Qed.
Lemma load_addw b W v : (load (addw b W) v ≤ load W v + 1)%nat.
Proof.
  unfold load. pose proof (length_addw b W). destruct (decide (ind v ≠ 0 ∧ ind v ∈ W)) as [[E1 E2]|E].
  - rewrite decide_True; [lia|]. rewrite elem_addw. auto.
  - case_decide; lia.
Qed.
Lemma load_ind W v v' : ind v = ind v' → load W v = load W v'.
Proof. intros E. unfold load. by rewrite E. Qed.

Lemma load_entry b W v : ind v ≠ 0 → (load (addw (ind v) (addw b W)) v ≤ load W v + 1)%nat.
Proof.
  intros Hi. unfold load at 1. rewrite decide_True by (rewrite !elem_addw; auto).
  pose proof (length_addw b W). unfold load. case_decide as E.
  - rewrite (addw_in (ind v)) by (rewrite elem_addw; naive_solver). lia.
  - pose proof (length_addw (ind v) (addw b W)). lia.
Qed.

Lemma tx_icache Hd W l s : tx Hd W s → tx Hd W (set_k_icache l s).
Proof.
  intros [[S N1 N2 Hh Hp Hr Hf] L X O Sub Z]. split; [split|..]; try done.
  - destruct S as [B R A Lk T Hl Hq]. split; try done.
    destruct B as [B1 B2 B3 B4]. split; try done. intros j b Hj Hb. by destruct (B2 j b Hj Hb).
  - by destruct L.
  - by destruct X.
Qed.
Lemma tx_more Hd W W' s : tx Hd W s → W ⊆ W' → Z.of_nat (length W') ≤ TXMAX → tx Hd W' s.
Proof.
  intros [[S N1 N2 Hh Hp Hr Hf] L X O Sub Z] HW Hl. split; [split|..]; try done.
  - intros m Hm. by apply HW, Hp.
  - intros m Hm. by apply HW, Sub.
Qed.
Lemma fs_ok_icache l s : fs_ok s → fs_ok (set_k_icache l s).
Proof. by intros []. Qed.
Lemma fs_ok_same s s' : tx_only s s' → (∀ m, lblk s' m = lblk s m) → fs_ok s → fs_ok s'.
Proof.
  intros O V F. apply (fs_ok_only s s' O F). intros b Hb Hf. left.
  unfold isfree in *. by rewrite (tx_only_sb _ _ O), V in Hf.
Qed.
End Supply.

(** ** bmap *)

Section Bmap.
Context `{WaitBound}.
Context (i : nat) (p : proc) (ip : nat).
Implicit Types (s : kernel) (v : inode) (W : list Z).
#[local] Abbreviation tx := (tx i p).

(** [v] is cached in slot [ip], inside a transaction that may touch the bitmap. *)
Record fctx W s v : Prop := {
  fc_tx : tx [] W s;
  fc_fs : fs_ok s;
  fc_slot : k_icache s !! ip = Some v;
  fc_blocks : blocks_ok s v;
  fc_bmap : ∀ n, bmap_blk s n → n ∈ W }.

(** What changes when a position of the file gets block [b]. *)
Record bmapped W s v (bn : nat) (b : Z) W' s' v' : Prop := {
  bm_ctx : fctx W' s' v';
  bm_only : fs_only s s';
  bm_slots : k_icache s' = <[ip := v']> (k_icache s);
  bm_inode : ∃ a, v' = set_i_addrs a v;
  bm_b : b = blk s' v' (fpos bn);
  bm_nz : b ≠ 0;
  bm_ind : ind v' = ind v ∨ isfree s (ind v') = true;
  bm_other : ∀ r, (r < NPOS)%nat → r ≠ 12%nat → r ≠ fpos bn → blk s' v' r = blk s v r;
  bm_old : blk s v (fpos bn) ≠ 0 → v' = v ∧ ∀ m, lblk s' m = lblk s m;
  bm_new : blk s v (fpos bn) = 0 → isfree s b = true ∧ lblk s' b = zero_block;
  bm_frame : ∀ m, isfree s m = false → data_blk s m → m ≠ ind v → lblk s' m = lblk s m;
  bm_iblk : ∀ m, inode_blk s m → lblk s' m = lblk s m;
  bm_used : ∀ m, data_blk s m → isfree s m = false → isfree s' m = false;
  bm_sub : W ⊆ W';
  bm_load : (load (addw b W') v' ≤ load W v + 1)%nat;
  bm_room : (length W' ≤ load W v + 1)%nat;
  bm_supply : (supply s v ≤ supply s' v' + 1)%nat }.

Lemma fctx_len W s v m : fctx W s v → data_blk s m → length (lblk s m) = 512%nat.
Proof.
  intros C (Hm & _). change 512%nat with (Z.to_nat BSIZE). apply (tx_lblk_len i p [] W); [apply C|].
  pose proof (fs_size s (fc_fs _ _ _ C)). lia.
Qed.
Lemma fctx_u32 W s v m : fctx W s v → data_blk s m → 0 ≤ m < 2 ^ 32.
Proof.
  intros C (Hm & _). pose proof (fs_size s (fc_fs _ _ _ C)). pose proof (lk_small s (tx_log _ _ _ _ _ (fc_tx _ _ _ C))). lia.
Qed.

(** The position is mapped already. *)
Lemma bmapped_old W s v bn s' :
  fctx W s v → (bn < 140)%nat → blk s v (fpos bn) ≠ 0 → tx [] W s' → tx_only s s' →
  (∀ m, lblk s' m = lblk s m) → bmapped W s v bn (blk s v (fpos bn)) W s' v.
Proof.
  intros C Hbn H0 T O V. pose proof (fc_slot _ _ _ C) as Hs. pose proof (fpos_lt bn Hbn) as [Hp _].
  assert (∀ q, blk s' v q = blk s v q) as Hb by (intros q; by apply blk_frame).
  assert (∀ m, isfree s' m = isfree s m) as Hf by (intros m; unfold isfree; by rewrite (tx_only_sb _ _ O), V).
  assert (fctx W s' v) as C'.
  { destruct C as [C1 C2 C3 [B1 B2 B3 B4] C5]. split; [done|by eapply fs_ok_same|by rewrite (tx_only_icache _ _ O)| |].
    - split; [done|done| |].
      + intros q Hq. rewrite Hb, Hf, (tx_only_data_blk _ _ _ O). auto.
      + intros q r Hq Hr. rewrite !Hb. auto.
    - intros n Hn. by apply C5, (tx_only_bmap_blk _ _ _ O). }
  split; try done.
  - by apply fs_only_tx.
  - by rewrite (tx_only_icache _ _ O), list_insert_id.
  - exists (i_addrs v). by destruct v.
  - by left.
  - intros m Hd Hu. by rewrite Hf.
  - apply load_addw.
  - pose proof (load_bounds W v). lia.
  - unfold supply. rewrite (nfree_same s s' (tx_only_sb _ _ O) Hf). lia.
Qed.

(** The state after an allocation, the block entered in the inode. *)
Lemma addr_added W s v b s' q :
  fctx W s v → alloc_step s b s' → tx [] (addw b W) s' → (q ≤ 12)%nat → blk s v q = 0 →
  let v' := set_addr q b v in let s1 := set_k_icache (alter (set_addr q b) ip (k_icache s')) s' in
  fctx (addw b W) s1 v' ∧ fs_only s s1 ∧ k_icache s1 = <[ip := v']> (k_icache s) ∧
  (∀ r, (r < NPOS)%nat → blk s1 v' r = if decide (r = q) then b else blk s v r) ∧ nfree s = S (nfree s1).
Proof.
  intros C A T Hq H0 v' s1. pose proof C as [C1 C2 C3 C4 C5]. pose proof (as_only _ _ _ A) as O.
  assert (∀ r, (r < NPOS)%nat → blk s1 v' r = if decide (r = q) then b else blk s v r) as Hb.
  { intros r Hr. change (blk s1 v' r) with (blk s' v' r). unfold v'. rewrite blk_set_addr; [|apply C4|done| |done|].
    - by rewrite (blk_alloc s b s').
    - by rewrite (blk_alloc s b s').
    - intros _. apply A. }
  assert (k_icache s' = k_icache s) as Ei by apply (tx_only_icache _ _ O).
  assert (k_icache s1 = <[ip := v']> (k_icache s)) as Es.
  { unfold s1. simpl. rewrite Ei. apply list_eq. intros j. destruct (decide (j = ip)) as [->|Hj].
    - rewrite list_lookup_alter_eq, C3, list_lookup_insert_eq by (by eapply lookup_lt_Some). done.
    - by rewrite list_lookup_alter_ne, list_lookup_insert_ne. }
  split_and!; [split|..].
  - by apply tx_icache.
  - apply fs_ok_icache, A.
  - rewrite Es. apply list_lookup_insert_eq. by eapply lookup_lt_Some.
  - apply (blocks_extend s s1 v v' b q); [done|apply C4|..].
    + unfold v'. simpl. rewrite length_insert. apply C4.
    + unfold NPOS. lia.
    + done.
    + done.
    + intros r Hr. by eapply alloc_fresh.
    + apply (tx_only_data_blk _ _ _ O), A.
    + change (isfree s' b = false). rewrite (as_isfree _ _ _ A), Z.eqb_refl, andb_false_r by apply data_in_range, A. done.
    + intros m Hd Hu. split; [by apply (tx_only_data_blk _ _ _ O)|]. change (isfree s' m = false).
      rewrite (as_isfree _ _ _ A), Hu by (by apply data_in_range). done.
  - intros n Hn. rewrite elem_addw. left. by apply C5, (tx_only_bmap_blk _ _ _ O).
  - eapply fs_only_trans; [by apply fs_only_tx|apply fs_only_icache].
  - done.
  - done.
  - change (nfree s1) with (nfree s'). by eapply nfree_alloc.
Qed.

(** A direct block is allocated. *)
Lemma bmapped_direct W s v b s' bn :
  fctx W s v → alloc_step s b s' → tx [] (addw b W) s' → (bn < 12)%nat → blk s v bn = 0 →
  bmapped W s v bn b (addw b W) (set_k_icache (alter (set_addr bn b) ip (k_icache s')) s') (set_addr bn b v).
Proof.
  intros C A T Hbn H0. assert (fpos bn = bn) as Hp by (unfold fpos; by rewrite decide_True).
  destruct (addr_added W s v b s' bn C A T ltac:(lia) H0) as (C' & O & Es & Hb & Hn).
  assert (ind (set_addr bn b v) = ind v) as Ei by (unfold ind; simpl; by rewrite list_lookup_insert_ne by lia).
  assert (b ≠ 0) as Hb0 by (destruct (as_data _ _ _ A); lia).
  split; rewrite ?Hp; try done.
  - by eexists.
  - rewrite Hb by (unfold NPOS; lia). by rewrite decide_True.
  - by left.
  - intros r Hr _ Hne. rewrite Hb by done. by rewrite decide_False.
  - intros _. split; apply A.
  - intros m Hu Hd _. apply (as_same _ _ _ A); [by apply (used_not_free s); [|apply A]|apply Hd].
  - intros m Hm. apply (as_same _ _ _ A); [|by apply (fs_inode s (fc_fs _ _ _ C))].
    intros ->. by apply (as_data _ _ _ A).
  - intros m Hd Hu. change (isfree s' m = false). rewrite (as_isfree _ _ _ A), Hu by (by apply data_in_range). done.
  - intros m Hm. rewrite elem_addw. by left.
  - rewrite (addw_in b) by (rewrite elem_addw; by right). rewrite (load_ind _ _ v) by done. apply load_addw.
  - pose proof (length_addw b W). pose proof (load_bounds W v). lia.
  - unfold supply. rewrite Ei. lia.
Qed.

(** The entry of the indirect block for a position. *)
Definition entry_part (dev addr : Z) (j : nat) : K Z :=
  bp ← bread dev addr;
  d ← get_data bp;
  let a := get32 (4 * j) d in
  addr ← (if a =? 0 then
            addr ← balloc dev;
            d ← get_data bp;
            set_data bp (put32 (4 * j) addr d) ;;
            log_write bp ;;
            mret addr
          else mret a);
  brelse bp ;;
  mret addr.

Lemma bmapped_entry W s v b s' s4 j :
  fctx W s v → (j < 128)%nat → ind v ≠ 0 → blk s v (13 + j) = 0 → alloc_step s b s' → tx_only s' s4 →
  (∀ m, lblk s4 m = if decide (m = ind v) then put32 (4 * j) b (lblk s' (ind v)) else lblk s' m) →
  tx [] (addw (ind v) (addw b W)) s4 →
  bmapped W s v (12 + j) b (addw (ind v) (addw b W)) s4 v.
Proof.
  intros C Hj Hi H0 A O4 V T. pose proof C as [C1 C2 C3 C4 C5].
  assert (fpos (12 + j) = 13 + j)%nat as Hp by (unfold fpos; rewrite decide_False; lia).
  assert (tx_only s s4) as O by (eapply tx_only_trans; [apply A|done]).
  destruct (kb_used s v C4 12 ltac:(unfold NPOS; lia) Hi) as [Hid Hiu]. change (blk s v 12) with (ind v) in Hid, Hiu.
  pose proof (as_data _ _ _ A) as Hbd. assert (b ≠ 0) as Hb0 by (destruct Hbd; lia).
  assert (ind v ≠ b) as Hib by (by apply (used_not_free s); [|apply A]).
  assert (lblk s' (ind v) = lblk s (ind v)) as Ei by (apply (as_same _ _ _ A); [done|apply Hid]).
  assert (∀ m, m ≠ ind v → m ≠ b → ¬ bmap_blk s m → lblk s4 m = lblk s m) as Vo.
  { intros m H1 H2 H3. rewrite V, decide_False by done. by apply (as_same _ _ _ A). }
  assert (∀ x, 0 ≤ x < sb_size (k_sb s) → isfree s4 x = isfree s x && negb (x =? b)) as Hf.
  { intros x Hx. rewrite <- (as_isfree _ _ _ A) by done. unfold isfree. rewrite (tx_only_sb _ _ O4), V, decide_False; [done|].
    intros E. apply (proj1 (proj2 (proj2 Hid))). exists x. split; [done|]. by rewrite <- E, (tx_only_sb _ _ (as_only _ _ _ A)). }
  assert (∀ r, (r < NPOS)%nat → blk s4 v r = if decide (r = 13 + j)%nat then b else blk s v r) as Hb.
  { intros r Hr. apply blk_set_entry; [done|done|by eapply fctx_u32|by eapply fctx_len|done|].
    by rewrite V, decide_True, Ei. }
  assert (∀ m, data_blk s m → isfree s m = false → data_blk s4 m ∧ isfree s4 m = false) as Hmono.
  { intros m Hd Hu. split; [by apply (tx_only_data_blk _ _ _ O)|]. rewrite Hf, Hu by (by apply data_in_range). done. }
  assert (fs_ok s4) as F4.
  { apply (fs_ok_only s s4 O C2). intros x Hx Hfx. rewrite Hf in Hfx by done. left. by apply andb_true_iff in Hfx as [? _]. }
  assert (fctx (addw (ind v) (addw b W)) s4 v) as C'.
  { split; [done|done|by rewrite (tx_only_icache _ _ O)| |].
    - apply (blocks_extend s s4 v v b (13 + j)); [done|apply C4|apply C4|unfold NPOS; lia|done|done| | | |done].
      + intros r Hr. by eapply alloc_fresh.
      + by apply (tx_only_data_blk _ _ _ O).
      + rewrite Hf, Z.eqb_refl, andb_false_r by (by apply data_in_range). done.
    - intros n Hn. rewrite !elem_addw. left. left. by apply C5, (tx_only_bmap_blk _ _ _ O). }
  split; rewrite ?Hp; try done.
  - by apply fs_only_tx.
  - by rewrite (tx_only_icache _ _ O), list_insert_id.
  - exists (i_addrs v). by destruct v.
  - rewrite Hb by (unfold NPOS; lia). by rewrite decide_True.
  - by left.
  - intros r Hr _ Hne. rewrite Hb by done. by rewrite decide_False.
  - intros _. split; [apply A|]. rewrite V, decide_False by done. apply A.
  - intros m Hu Hd Hne. apply Vo; [done| |apply Hd]. by apply (used_not_free s); [|apply A].
  - intros m Hm. apply Vo; [by intros ->; apply Hid|by intros ->; apply Hbd|by apply (fs_inode s C2)].
  - intros m Hd Hu. by apply Hmono.
  - intros m Hm. rewrite !elem_addw. auto.
  - rewrite (addw_in b) by (rewrite !elem_addw; auto). apply load_entry, Hi.
  - etransitivity; [|apply (load_entry b W v Hi)]. apply load_bounds.
  - unfold supply. rewrite (nfree_alloc s b s' A). assert (nfree s4 = nfree s') as ->; [|case_decide; lia].
    unfold nfree. rewrite (tx_only_sb _ _ O4). f_equal. apply filter_ext_in. intros x Hx%elem_of_seqZ.
    rewrite (tx_only_sb _ _ (as_only _ _ _ A)) in Hx. by rewrite Hf, (as_isfree _ _ _ A) by lia.
Qed.

Lemma wp_entry_part W s v j (Q : Z → kernel → Prop) :
  fctx W s v → (j < 128)%nat → ind v ≠ 0 → Z.of_nat (load W v) + 2 ≤ TXMAX → (2 ≤ supply s v)%nat →
  (∀ b W' s', bmapped W s v (12 + j) b W' s' v → Q b s') → wp (entry_part 1 (ind v) j) Q s.
Proof.
  intros C Hj Hi HW Hs HQ. pose proof C as [C1 C2 C3 C4 C5]. pose proof (load_bounds W v) as Hlb.
  assert (fpos (12 + j) = 13 + j)%nat as Hp by (unfold fpos; rewrite decide_False; lia).
  destruct (kb_used s v C4 12 ltac:(unfold NPOS; lia) Hi) as [Hid Hiu]. change (blk s v 12) with (ind v) in Hid, Hiu.
  pose proof (data_in_range _ _ Hid) as Hir. pose proof (fs_size s C2) as Hsz.
  unfold entry_part. apply wp_bind. eapply (tx_bread i p); [exact C1|lia|apply not_elem_of_nil|simpl; lia|].
  intros bi s1 T1 O1 V1. apply wp_bind. eapply (tx_get_data i p); [exact T1|left|]. rewrite V1.
  assert (get32 (4 * j) (lblk s (ind v)) = blk s v (13 + j)) as Ee.
  { unfold blk. rewrite decide_False, (proj2 (Z.eqb_neq _ _) Hi) by lia. by replace (13 + j - 13)%nat with j by lia. }
  rewrite Ee. destruct (Z.eqb_spec (blk s v (13 + j)) 0) as [E0|E0].
  2: { apply wp_bind, wp_ret, wp_bind. eapply (tx_brelse i p); [exact T1|]. intros s2 T2 O2 V2. apply wp_ret.
       rewrite <- Hp. apply (HQ _ W). apply bmapped_old; [done|lia|by rewrite Hp|done|by eapply tx_only_trans|].
       intros m. by rewrite V2, V1. }
  apply wp_bind, wp_bind. eapply (wp_alloc i p); [exact T1|by eapply fs_ok_same| |simpl; lia| |lia| |].
  { intros n Hn. simpl in Hn. apply list_elem_of_singleton in Hn as ->. split.
    - rewrite (tx_only_bmap_blk _ _ _ O1). apply Hid.
    - intros _. unfold isfree. by rewrite (tx_only_sb _ _ O1), V1. }
  { intros n Hn. by apply C5, (tx_only_bmap_blk _ _ _ O1). }
  { assert (nfree s1 = nfree s) as ->; [|unfold supply in Hs; case_decide; [done|lia]].
    apply nfree_same; [by apply tx_only_sb|]. intros x. unfold isfree. by rewrite (tx_only_sb _ _ O1), V1. }
  intros b s2 A T2. pose proof (alloc_step_pre _ _ _ _ O1 V1 A) as A'.
  apply wp_bind. eapply (tx_get_data i p); [exact T2|left|].
  pose proof (as_only _ _ _ A') as O2. pose proof (load_entry b W v Hi) as Hle.
  pose proof (load_bounds (addw (ind v) (addw b W)) v) as Hlb2.
  eapply (tx_update i p); [exact T2| | |lia|].
  { apply (tx_only_home _ _ _ O2), Hid. }
  { assert (length (lblk s2 (ind v)) = 512%nat) as Hl.
    - change 512%nat with (Z.to_nat BSIZE). apply (tx_lblk_len i p _ _ _ _ T2). rewrite (tx_only_disksize _ _ O2). lia.
    - rewrite length_put32 by lia. by rewrite Hl. }
  intros s3 T3 O3 V3. apply wp_ret, wp_bind. eapply (tx_brelse i p); [exact T3|]. intros s4 T4 O4 V4. apply wp_ret.
  apply (HQ b (addw (ind v) (addw b W))). apply (bmapped_entry W s v b s2 s4); try done.
  - by eapply tx_only_trans.
  - intros m. rewrite V4. apply V3.
Qed.

(** Allocating the indirect block first: it costs nothing in load and supply. *)
Lemma ind_added W s v b s' :
  fctx W s v → alloc_step s b s' → tx [] (addw b W) s' → ind v = 0 →
  let v1 := set_addr 12 b v in let s1 := set_k_icache (alter (set_addr 12 b) ip (k_icache s')) s' in
  ind v1 = b ∧ b ≠ 0 ∧ (load (addw b W) v1 ≤ load W v)%nat ∧ supply s1 v1 = supply s v.
Proof.
  intros C A T Hi v1 s1. destruct (addr_added W s v b s' 12 C A T ltac:(lia) Hi) as (_ & _ & _ & Hb & Hn).
  assert (b ≠ 0) as Hb0 by (destruct (as_data _ _ _ A); lia).
  assert (ind v1 = b) as Ei by (rewrite (ind_blk s1 v1); apply Hb; unfold NPOS; lia).
  split; [done|]. split; [done|]. split.
  - unfold load. rewrite Ei, decide_True by (split; [done|]; rewrite elem_addw; by right).
    rewrite decide_False by (by intros [? _]). pose proof (length_addw b W). lia.
  - unfold supply. rewrite Ei, (decide_False (P := b = 0)), (decide_True (P := ind v = 0)) by done. fold s1 in Hn. lia.
Qed.

Lemma bmapped_ind W s v b s' j b2 W' s2 v2 :
  fctx W s v → (j < 128)%nat → alloc_step s b s' → tx [] (addw b W) s' → ind v = 0 →
  bmapped (addw b W) (set_k_icache (alter (set_addr 12 b) ip (k_icache s')) s') (set_addr 12 b v) (12 + j) b2 W' s2 v2 →
  bmapped W s v (12 + j) b2 W' s2 v2.
Proof.
  intros C Hj A T Hi. destruct (ind_added W s v b s' C A T Hi) as (Ei & Hb0 & Hld & Hsu).
  destruct (addr_added W s v b s' 12 C A T ltac:(lia) Hi) as (C1 & O1 & Es1 & Hb & _).
  set (v1 := set_addr 12 b v) in *. set (s1 := set_k_icache _ s') in *.
  intros [D1 D2 D3 D4 D5 D6 Dind D7 D8 D9 D10 D11 D12 D13 D14 D15 D16].
  pose proof (fpos_lt (12 + j) ltac:(lia)) as [Hp Hp12].
  assert (blk s1 v1 (fpos (12 + j)) = 0) as Hz.
  { rewrite Hb, decide_False by done. unfold blk. rewrite Hi. case_decide; [|done].
    exfalso. unfold fpos in *. case_decide; lia. }
  assert (blk s v (fpos (12 + j)) = 0) as Hz' by (by rewrite Hb, decide_False in Hz).
  assert (∀ m, data_blk s m → isfree s m = false → data_blk s1 m ∧ isfree s1 m = false ∧ m ≠ b ∧ lblk s1 m = lblk s m) as Hm.
  { intros m Hd Hu. assert (m ≠ b) as Hne by (by apply (used_not_free s); [|apply A]).
    split; [by apply (fs_only_data_blk _ _ _ O1)|]. split; [|split; [done|apply (as_same _ _ _ A); [done|apply Hd]]].
    change (isfree s' m = false). rewrite (as_isfree _ _ _ A), Hu by (by apply data_in_range). done. }
  split; try done.
  - by eapply fs_only_trans.
  - rewrite D3, Es1. apply list_insert_insert_eq.
  - right. destruct Dind as [->|Hf]; [rewrite Ei; apply A|]. change (isfree s' (ind v2) = true) in Hf.
    assert (0 ≤ ind v2 < sb_size (k_sb s)) as Hr.
    { destruct (decide (ind v2 = 0)) as [->|E0]; [pose proof (fs_size s (fc_fs _ _ _ C)); lia|].
      apply (data_in_range s), (fs_only_data_blk _ _ _ (fs_only_trans _ _ _ O1 D2)).
      apply (kb_used s2 v2 (fc_blocks _ _ _ D1) 12); [unfold NPOS; lia|done]. }
    rewrite (as_isfree _ _ _ A) in Hf by done. by apply andb_true_iff in Hf as [? _].
  - intros r Hr H12 Hne. rewrite D7 by done. rewrite Hb by done. by rewrite decide_False.
  - intros _. destruct (D9 Hz) as [Hf Hz2]. split; [|done]. change (isfree s' b2 = true) in Hf.
    rewrite (as_isfree _ _ _ A) in Hf; [by apply andb_true_iff in Hf as [? _]|].
    apply (data_in_range s), (fs_only_data_blk _ _ _ (fs_only_trans _ _ _ O1 D2)). rewrite D5.
    apply (kb_used s2 v2 (fc_blocks _ _ _ D1)); [done|congruence].
  - intros m Hu Hd Hne. destruct (Hm m Hd Hu) as (? & ? & ? & <-). apply D10; [done|done|]. by rewrite Ei.
  - intros m Him. rewrite D11 by (by apply (fs_only_inode_blk _ _ _ O1)). change (lblk s' m = lblk s m).
    apply (as_same _ _ _ A); [intros ->; by apply (as_data _ _ _ A)|by apply (fs_inode s (fc_fs _ _ _ C))].
  - intros m Hd Hu. destruct (Hm m Hd Hu) as (? & ? & _). by apply D12.
  - intros m Hin. apply D13. rewrite elem_addw. by left.
  - lia.
  - lia.
  - lia.
Qed.

Lemma wp_bmap W s v bn (Q : Z → kernel → Prop) :
  fctx W s v → (bn < 140)%nat → Z.of_nat (load W v) + 2 ≤ TXMAX → (2 ≤ supply s v)%nat →
  (∀ b W' s' v', bmapped W s v bn b W' s' v' → Q b s') → wp (bmap ip (Z.of_nat bn)) Q s.
Proof.
  intros C Hbn HW Hs HQ. pose proof C as [C1 C2 C3 C4 C5]. pose proof (load_bounds W v) as Hlb.
  assert (∀ q, (q ≤ 12)%nat → i_addrs v !! q = Some (blk s v q)) as Ha.
  { intros q Hq. unfold blk. rewrite decide_True by done.
    destruct (lookup_lt_is_Some_2 (i_addrs v) q) as [a E]; [rewrite (kb_len _ _ C4); lia|]. by rewrite E. }
  assert (held_ok s []) as Hh by (intros n Hn; by apply not_elem_of_nil in Hn).
  unfold bmap. apply wp_bind. eapply wp_get_inode; [exact C3|]. change NDIRECT with 12. change NINDIRECT with 128.
  rewrite (kb_dev _ _ C4), Nat2Z.id. destruct (Z.ltb_spec (Z.of_nat bn) 12) as [Hlt|Hge].
  - apply wp_bind. eapply wp_deref; [apply Ha; lia|].
    assert (fpos bn = bn) as Hp by (unfold fpos; rewrite decide_True; lia).
    destruct (Z.eqb_spec (blk s v bn) 0) as [E0|E0].
    + apply wp_bind. eapply (wp_alloc i p); [exact C1|done|done|simpl; lia|done|lia| |].
      { unfold supply in Hs. case_decide; lia. }
      intros b s' A T. apply wp_bind, wp_modify, wp_ret. eapply HQ. apply bmapped_direct; [done|done|done|lia|done].
    + apply wp_ret. rewrite <- Hp. eapply HQ. apply bmapped_old; [done|done|by rewrite Hp|done|apply tx_only_refl|done].
  - rewrite (proj2 (Z.ltb_lt _ _)) by lia. apply wp_bind. eapply wp_deref; [apply (Ha 12%nat); lia|].
    change (blk s v 12) with (ind v). set (j := (bn - 12)%nat).
    replace (Z.to_nat (Z.of_nat bn - 12)) with j by lia. replace bn with (12 + j)%nat in HQ by lia.
    destruct (Z.eqb_spec (ind v) 0) as [E0|E0].
    + apply wp_bind, wp_bind. eapply (wp_alloc i p); [exact C1|done|done|simpl; lia|done|lia| |].
      { unfold supply in Hs. case_decide; lia. }
      intros b s' A T. apply wp_bind, wp_modify, wp_ret.
      destruct (ind_added W s v b s' C A T E0) as (Ei & Hb0 & Hld & Hsu).
      destruct (addr_added W s v b s' 12 C A T ltac:(lia) E0) as (C' & _).
      set (s1 := set_k_icache _ s') in *. rewrite <- Ei at 1.
      apply (wp_entry_part (addw b W) s1 (set_addr 12 b v)); [done|lia|by rewrite Ei|lia|lia|].
      intros b2 W' s2 D. eapply HQ. eapply (bmapped_ind W s v b s'); [done|lia|done|done|done|exact D].
    + apply wp_bind, wp_ret. apply (wp_entry_part W s v); [done|lia|done|lia|lia|]. intros b2 W' s2 D. by eapply HQ.
Qed.
End Bmap.
#[global] Arguments bm_ctx {_ _ _ _ _ _ _ _ _ _ _} _.
#[global] Arguments bm_only {_ _ _ _ _ _ _ _ _ _ _} _.
#[global] Arguments bm_slots {_ _ _ _ _ _ _ _ _ _ _} _.
#[global] Arguments bm_inode {_ _ _ _ _ _ _ _ _ _ _} _.
#[global] Arguments bm_b {_ _ _ _ _ _ _ _ _ _ _} _.
#[global] Arguments bm_nz {_ _ _ _ _ _ _ _ _ _ _} _.
#[global] Arguments bm_ind {_ _ _ _ _ _ _ _ _ _ _} _.
#[global] Arguments bm_other {_ _ _ _ _ _ _ _ _ _ _} _.
#[global] Arguments bm_old {_ _ _ _ _ _ _ _ _ _ _} _.
#[global] Arguments bm_new {_ _ _ _ _ _ _ _ _ _ _} _.
#[global] Arguments bm_frame {_ _ _ _ _ _ _ _ _ _ _} _.
#[global] Arguments bm_iblk {_ _ _ _ _ _ _ _ _ _ _} _.
#[global] Arguments bm_used {_ _ _ _ _ _ _ _ _ _ _} _.
#[global] Arguments bm_sub {_ _ _ _ _ _ _ _ _ _ _} _.
#[global] Arguments bm_load {_ _ _ _ _ _ _ _ _ _ _} _.
#[global] Arguments bm_room {_ _ _ _ _ _ _ _ _ _ _} _.
#[global] Arguments bm_supply {_ _ _ _ _ _ _ _ _ _ _} _.
#[global] Arguments fc_tx {_ _ _ _ _ _} _.
#[global] Arguments fc_fs {_ _ _ _ _ _} _.
#[global] Arguments fc_slot {_ _ _ _ _ _} _.
#[global] Arguments fc_blocks {_ _ _ _ _ _} _.
#[global] Arguments fc_bmap {_ _ _ _ _ _} _.
