(* ===== verification/Dinode.v ===== *)
(** * Dinode: inodes on disk

    The encoding of an inode in its 64 bytes, and [iupdate]: the inode's fields
    can be read back, and no other inode and no other block is disturbed. *)

From S2P Require Import Prelude State Lock Bio BufSpec Log Inode Txn Blocks FsData.

Section Encode.
Implicit Types (d : list Z) (o : nat).

Lemma length_put32s vs off d : (off + 4 * length vs ≤ length d)%nat → length (put32s vs off d) = length d.
Proof.
  revert off d. induction vs as [|x vs IH]; intros off d Hl; [done|]. simpl in *.
  rewrite IH; rewrite length_put32 by lia; lia.
Qed.
Lemma lookup_put32s vs off d j :
  (off + 4 * length vs ≤ length d)%nat → (j < off ∨ off + 4 * length vs ≤ j)%nat → put32s vs off d !! j = d !! j.
Proof.
  revert off d. induction vs as [|x vs IH]; intros off d Hl Hj; [done|]. simpl in *.
  rewrite IH by (rewrite ?length_put32 by lia; lia). unfold put32. pose proof (length_le_put 4 x) as E.
  destruct Hj; [apply lookup_splice_lt|apply lookup_splice_ge]; lia.
Qed.
Lemma slice_ext {A} (l l' : list A) a n :
  (∀ j, (a ≤ j < a + n)%nat → l !! j = l' !! j) → slice a n l = slice a n l'.
Proof.
  intros Hj. apply list_eq. intros k. unfold slice. destruct (decide (k < n)%nat).
  - rewrite !lookup_take_lt, !lookup_drop by done. apply Hj. lia.
  - by rewrite !lookup_take_ge by lia.
Qed.
Lemma get32_put32s_ne vs off off' d :
  (off + 4 * length vs ≤ length d)%nat → (off' + 4 ≤ off ∨ off + 4 * length vs ≤ off')%nat →
  get32 off' (put32s vs off d) = get32 off' d.
Proof. intros Hl Ho. unfold get32. f_equal. apply slice_ext. intros j Hj. apply lookup_put32s; lia. Qed.
Lemma get16_put32s_ne vs off off' d :
  (off + 4 * length vs ≤ length d)%nat → (off' + 2 ≤ off ∨ off + 4 * length vs ≤ off')%nat →
  get16 off' (put32s vs off d) = get16 off' d.
Proof. intros Hl Ho. unfold get16. f_equal. apply slice_ext. intros j Hj. apply lookup_put32s; lia. Qed.
Lemma get32s_put32s vs off d :
  Forall (λ x, 0 ≤ x < 2 ^ 32) vs → (off + 4 * length vs ≤ length d)%nat →
  get32s (length vs) off (put32s vs off d) = vs.
Proof.
  intros Hv. revert off d. induction Hv as [|x vs Hx _ IH]; intros off d Hl; [done|]. simpl in *.
  f_equal; [|apply IH; rewrite length_put32; lia].
  rewrite get32_put32s_ne by (rewrite ?length_put32 by lia; lia). apply get32_put32_eq; [lia|done].
Qed.

Lemma get16_put16_eq off x d : (off + 2 ≤ length d)%nat → 0 ≤ x < 2 ^ 16 → get16 off (put16 off x d) = x.
Proof.
  intros Hl Hx. unfold get16, put16. pose proof (length_le_put 2 x) as E.
  replace (slice off 2) with (@slice Z off (length (le_put 2 x))) by (by rewrite E).
  rewrite slice_splice_eq by lia. by apply le_get_put.
Qed.
Lemma get16_put16_ne off off' x d :
  (off + 2 ≤ length d)%nat → (off' + 2 ≤ off ∨ off + 2 ≤ off')%nat → get16 off' (put16 off x d) = get16 off' d.
Proof. intros Hl Ho. unfold get16, put16. pose proof (length_le_put 2 x). rewrite slice_splice_ne; [done|lia|lia]. Qed.
Lemma get16_put32_ne off off' x d :
  (off + 4 ≤ length d)%nat → (off' + 2 ≤ off ∨ off + 4 ≤ off')%nat → get16 off' (put32 off x d) = get16 off' d.
Proof. intros Hl Ho. unfold get16, put32. pose proof (length_le_put 4 x). rewrite slice_splice_ne; [done|lia|lia]. Qed.

(** The fields of an inode fit their types on disk. *)
Definition is_short (x : Z) : Prop := - 2 ^ 15 ≤ x < 2 ^ 15.
Record di_ok (di : dinode) : Prop := {
  do_type : is_short (di_type di); do_major : is_short (di_major di); do_minor : is_short (di_minor di);
  do_nlink : is_short (di_nlink di); do_size : 0 ≤ di_size di < 2 ^ 32;
  do_len : length (di_addrs di) = 13%nat; do_addrs : Forall (λ x, 0 ≤ x < 2 ^ 32) (di_addrs di) }.

Lemma s16_u16 x : is_short x → s16 (u16 x) = x.
Proof.
  unfold is_short, s16, u16. intros Hx. rewrite Zplus_mod_idemp_l, Z.mod_small; lia.
Qed.
Lemma u16_range x : 0 ≤ u16 x < 2 ^ 16.
Proof. apply Z.mod_pos_bound. lia. Qed.

(** Names for the block after each of the first five stores. *)
Ltac dput_steps :=
  match goal with |- context [put16 ?o _ ?d] => match d with context [put16] => fail 1 | _ =>
    set (d1 := put16 o _ d); assert (length d1 = length d) as L1 by (apply length_put16; lia);
    set (d2 := put16 (o + 2) _ d1); assert (length d2 = length d) as L2 by (rewrite <- L1; apply length_put16; lia);
    set (d3 := put16 (o + 4) _ d2); assert (length d3 = length d) as L3 by (rewrite <- L2; apply length_put16; lia);
    set (d4 := put16 (o + 6) _ d3); assert (length d4 = length d) as L4 by (rewrite <- L3; apply length_put16; lia);
    set (d5 := put32 (o + 8) _ d4); assert (length d5 = length d) as L5 by (rewrite <- L4; apply length_put32; lia)
  end end.

Lemma length_dinode_put o di d :
  length (di_addrs di) = 13%nat → (o + 64 ≤ length d)%nat → length (dinode_put o di d) = length d.
Proof.
  intros Hn Hl. unfold dinode_put. dput_steps. rewrite length_put32s; lia.
Qed.

Lemma lookup_put_ne o n x d j :
  (o + n ≤ length d)%nat → (j < o ∨ o + n ≤ j)%nat → splice o (le_put n x) d !! j = d !! j.
Proof. intros Hl Hj. pose proof (length_le_put n x). destruct Hj; [apply lookup_splice_lt|apply lookup_splice_ge]; lia. Qed.

Lemma lookup_dinode_put o di d j :
  length (di_addrs di) = 13%nat → (o + 64 ≤ length d)%nat → (j < o ∨ o + 64 ≤ j)%nat →
  dinode_put o di d !! j = d !! j.
Proof.
  intros Hn Hl Hj. unfold dinode_put.
  dput_steps.
  rewrite lookup_put32s by lia. unfold d5, d4, d3, d2, d1, put32, put16 in *.
  rewrite !lookup_put_ne by (lia || (rewrite ?length_put16; lia)). done.
Qed.

(** Reading back what was written. *)
Lemma dinode_get_put o di d : di_ok di → (o + 64 ≤ length d)%nat → dinode_get o (dinode_put o di d) = di.
Proof.
  intros [D1 D2 D3 D4 D5 D6 D7] Hl. unfold dinode_get, dinode_put.
  dput_steps.
  pose proof (get32s_put32s (di_addrs di) (o + 12) d5 D7 ltac:(lia)) as Ha. rewrite D6 in Ha.
  rewrite !get16_put32s_ne, get32_put32s_ne, Ha by lia.
  unfold d5. rewrite get32_put32_eq by (lia || done). rewrite !get16_put32_ne by lia.
  unfold d4. rewrite get16_put16_eq by (lia || apply u16_range). rewrite !get16_put16_ne by lia.
  unfold d3. rewrite get16_put16_eq by (lia || apply u16_range). rewrite !get16_put16_ne by lia.
  unfold d2. rewrite get16_put16_eq by (lia || apply u16_range). rewrite get16_put16_ne by lia.
  unfold d1. rewrite get16_put16_eq by (lia || apply u16_range). rewrite !s16_u16 by done. by destruct di.
Qed.

Lemma dinode_get_ext o d d' :
  (∀ j, (o ≤ j < o + 64)%nat → d !! j = d' !! j) → dinode_get o d = dinode_get o d'.
Proof.
  intros Hj. assert (∀ a n, (o ≤ a)%nat → (a + n ≤ o + 64)%nat → slice a n d = slice a n d') as Hs.
  { intros a n Ha Hn. apply slice_ext. intros j Hr. apply Hj. lia. }
  assert (∀ n off, (o ≤ off)%nat → (off + 4 * n ≤ o + 64)%nat → get32s n off d = get32s n off d') as H32.
  { intros n. induction n as [|n IH]; intros off H1 H2; [done|]. simpl. f_equal; [|apply IH; lia].
    unfold get32. f_equal. apply Hs; lia. }
  unfold dinode_get, get16, get32. rewrite !Hs, H32 by lia. done.
Qed.
(** Another inode of the block is not disturbed. *)
Lemma dinode_get_other o o' di d :
  length (di_addrs di) = 13%nat → (o + 64 ≤ length d)%nat → (o' + 64 ≤ o ∨ o + 64 ≤ o')%nat →
  dinode_get o' (dinode_put o di d) = dinode_get o' d.
Proof. intros Hn Hl Ho. apply dinode_get_ext. intros j Hj. apply lookup_dinode_put; [done|done|lia]. Qed.
End Encode.

(** ** The inode table *)

(** Inode [inum] as it is on disk. *)
Definition dinode_at (s : kernel) (inum : Z) : dinode :=
  dinode_get (dinode_off inum) (lblk s (IBLOCK inum (k_sb s))).

Lemma dinode_off_le inum : (dinode_off inum + 64 ≤ 512)%nat.
Proof.
  unfold dinode_off. pose proof (Z.mod_pos_bound inum IPB ltac:(done)). change IPB with 8 in *. change DINODESIZE with 64. lia.
Qed.
Lemma dinode_off_ne s j k :
  fs_ok s → 0 ≤ j < sb_ninodes (k_sb s) → 0 ≤ k < sb_ninodes (k_sb s) → j ≠ k →
  IBLOCK j (k_sb s) = IBLOCK k (k_sb s) →
  (dinode_off j + 64 ≤ dinode_off k ∨ dinode_off k + 64 ≤ dinode_off j)%nat.
Proof.
  intros F Hj Hk Hne. rewrite !IBLOCK_spec by done. intros E. unfold dinode_off.
  pose proof (Z.div_mod j IPB ltac:(done)). pose proof (Z.div_mod k IPB ltac:(done)).
  pose proof (Z.mod_pos_bound j IPB ltac:(done)). pose proof (Z.mod_pos_bound k IPB ltac:(done)).
  change IPB with 8 in *. change DINODESIZE with 64. lia.
Qed.

Section Iupdate.
Context `{WaitBound}.
Context (i : nat) (p : proc).
Implicit Types (s : kernel) (v : inode) (W : list Z).
#[local] Abbreviation tx := (tx i p).

(** [s'] is [s] with inode [inum] on disk set to [di]. *)
Record iupdated s inum di s' : Prop := {
  iu_only : tx_only s s';
  iu_blocks : ∀ m, m ≠ IBLOCK inum (k_sb s) → lblk s' m = lblk s m;
  iu_self : di_ok di → dinode_at s' inum = di;
  iu_other : ∀ j, 0 ≤ j < sb_ninodes (k_sb s) → j ≠ inum → dinode_at s' j = dinode_at s j }.

Lemma wp_iupdate W ip v s (Q : unit → kernel → Prop) :
  tx [] W s → fs_ok s → k_icache s !! ip = Some v → i_dev v = 1 → 0 ≤ i_inum v < sb_ninodes (k_sb s) →
  length (i_addrs v) = 13%nat → Z.of_nat (length (addw (IBLOCK (i_inum v) (k_sb s)) W)) ≤ TXMAX →
  (∀ s', iupdated s (i_inum v) (to_dinode v) s' → tx [] (addw (IBLOCK (i_inum v) (k_sb s)) W) s' → Q tt s') →
  wp (iupdate ip) Q s.
Proof.
  intros T F Hs Hdev Hin Hlen HW HQ. unfold iupdate. apply wp_bind. eapply wp_get_inode; [exact Hs|].
  apply wp_bind, wp_gets. rewrite Hdev. set (ib := IBLOCK (i_inum v) (k_sb s)) in *. set (o := dinode_off (i_inum v)).
  destruct (fs_inode s F ib) as [Hh Hnb]; [by exists (i_inum v)|].
  assert (length (lblk s ib) = 512%nat) as Hl by (apply (tx_lblk_len i p [] W); [done|apply Hh]).
  pose proof (dinode_off_le (i_inum v)) as Ho. fold o in Ho.
  apply wp_bind. eapply (tx_bread i p); [exact T|apply Hh|apply not_elem_of_nil|simpl; lia|]. intros bi s1 T1 O1 V1.
  apply wp_bind. eapply (tx_get_data i p); [exact T1|left|]. rewrite V1.
  eapply (tx_update i p); [exact T1|by apply (tx_only_home _ _ _ O1)|by rewrite length_dinode_put by (done || lia)|done|].
  intros s2 T2 O2 V2. eapply (tx_brelse i p); [exact T2|]. intros s3 T3 O3 V3. apply HQ; [|done].
  assert (tx_only s s3) as O by (eapply tx_only_trans; [|exact O3]; by eapply tx_only_trans).
  assert (lblk s3 ib = dinode_put o (to_dinode v) (lblk s ib)) as Eib by (by rewrite V3, V2, decide_True).
  assert (∀ m, m ≠ ib → lblk s3 m = lblk s m) as Vo by (intros m Hm; by rewrite V3, V2, decide_False, V1).
  split; [done|done| |].
  - intros Hok. unfold dinode_at. rewrite (tx_only_sb _ _ O). fold ib o. rewrite Eib. apply dinode_get_put; [done|lia].
  - intros j Hj Hne. unfold dinode_at. rewrite (tx_only_sb _ _ O). destruct (decide (IBLOCK j (k_sb s) = ib)) as [E|E].
    + rewrite E, Eib. apply dinode_get_other; [done|lia|].
      destruct (dinode_off_ne s j (i_inum v) F Hj Hin Hne E); [by left|by right].
    + by rewrite Vo.
Qed.

Lemma iupdated_fs s inum di s' : fs_ok s → 0 ≤ inum < sb_ninodes (k_sb s) → iupdated s inum di s' →
  fs_ok s' ∧ ∀ x, 0 ≤ x < sb_size (k_sb s) → isfree s' x = isfree s x.
Proof.
  intros F Hin U. assert (∀ x, 0 ≤ x < sb_size (k_sb s) → isfree s' x = isfree s x) as Hf.
  { intros x Hx. unfold isfree. rewrite (tx_only_sb _ _ (iu_only _ _ _ _ U)), (iu_blocks _ _ _ _ U); [done|].
    intros E. apply (fs_inode s F (IBLOCK inum (k_sb s))); [by exists inum|by exists x]. }
  split; [|done]. apply (fs_ok_only s s' (iu_only _ _ _ _ U) F). intros b Hb Hfb. left. by rewrite <- Hf.
Qed.
End Iupdate.
