(* ===== verification/FsFile.v ===== *)
(** * FsFile: reading and writing files

    [readi] returns a slice of the file's contents and [writei] overwrites and
    extends them; neither touches the blocks of another file. *)

From S2P Require Import Prelude State Lock Bio BufSpec Log Inode Devs Fs Txn Blocks DemoFs FsData Dinode.

#[local] Arguments Nat.div : simpl never.
#[local] Arguments Nat.modulo : simpl never.

(** ** Contents *)

(** The byte at offset [x]. *)
Definition fbyte (s : kernel) (v : inode) (x : nat) : Z :=
  default 0 (lblk s (blk s v (fpos (x / 512))) !! (x mod 512)%nat).
Definition contents (s : kernel) (v : inode) : list Z := fbyte s v <$> seq 0 (Z.to_nat (i_size v)).
(** All blocks before offset [e] are allocated. *)
Definition full_to (s : kernel) (v : inode) (e : nat) : Prop :=
  ∀ k, (512 * k < e)%nat → blk s v (fpos k) ≠ 0.

Record file_ok (s : kernel) (v : inode) : Prop := {
  fo_blocks : blocks_ok s v;
  fo_type : i_type v ≠ T_DEV;
  fo_size : 0 ≤ i_size v ≤ MAXFILE * BSIZE;
  fo_full : full_to s v (Z.to_nat (i_size v)) }.

Section Contents.
Implicit Types (s : kernel) (v : inode).

Lemma length_contents s v : 0 ≤ i_size v → Z.of_nat (length (contents s v)) = i_size v.
Proof. intros. unfold contents. rewrite length_fmap, length_seq. lia. Qed.

Lemma slice_seq (f : nat → Z) off n size : (off + n ≤ size)%nat → slice off n (f <$> seq 0 size) = f <$> seq off n.
Proof.
  intros Hl. unfold slice. rewrite <- fmap_drop, <- fmap_take, drop_seq, take_seq. do 2 f_equal; lia.
Qed.

Lemma same_chunk off k : (off mod 512 + k < 512)%nat → ((off + k) / 512 = off / 512 ∧ (off + k) mod 512 = off mod 512 + k)%nat.
Proof.
  intros Hk. pose proof (Nat.div_mod off 512 ltac:(lia)) as E.
  assert (off + k = 512 * (off / 512) + (off mod 512 + k))%nat as E' by lia.
  split; [symmetry; by eapply Nat.div_unique|symmetry; by eapply Nat.mod_unique].
Qed.

(** The bytes of one chunk of a block. *)
Lemma chunk_bytes s v off m :
  (off mod 512 + m ≤ 512)%nat → length (lblk s (blk s v (fpos (off / 512)))) = 512%nat →
  slice (off mod 512) m (lblk s (blk s v (fpos (off / 512)))) = fbyte s v <$> seq off m.
Proof.
  intros Hm Hl. apply list_eq. intros k. rewrite list_lookup_fmap. destruct (decide (k < m)%nat) as [Hk|Hk].
  - rewrite lookup_seq_lt by done. simpl. unfold slice. rewrite lookup_take_lt, lookup_drop by done.
    unfold fbyte. destruct (same_chunk off k ltac:(lia)) as [-> ->].
    destruct (lookup_lt_is_Some_2 (lblk s (blk s v (fpos (off / 512)))) (off mod 512 + k)) as [x ->]; [lia|done].
  - rewrite lookup_seq_ge by lia. unfold slice. by rewrite lookup_take_ge by lia.
Qed.

Lemma fbyte_view s s' v x : (∀ m, lblk s' m = lblk s m) → fbyte s' v x = fbyte s v x.
Proof. intros V. unfold fbyte. by rewrite (blk_frame s s'), V. Qed.
Lemma contents_view s s' v : (∀ m, lblk s' m = lblk s m) → contents s' v = contents s v.
Proof. intros V. unfold contents. apply list_fmap_ext. intros j x _. by apply fbyte_view. Qed.
End Contents.

(** ** Reading *)

Section Read.
Context `{WaitBound}.
Context (i : nat) (p : proc) (ip : nat).
Implicit Types (s : kernel) (v : inode) (W : list Z).
#[local] Abbreviation quiet := (quiet i p).

Lemma same_view_trans s1 s2 s3 : same_view s1 s2 → same_view s2 s3 → same_view s1 s3.
Proof.
  intros [A1 A2 A3 A4 A5] [B1 B2 B3 B4 B5]. split; [by eapply bufs_only_trans|..].
  - intros m. by rewrite B2.
  - intros m. by rewrite B3.
  - congruence.
  - congruence.
Qed.
Lemma same_view_icache s s' : same_view s s' → k_icache s' = k_icache s.
Proof. intros [(bc & pt & d & w & -> & _) _ _ _ _]. done. Qed.
Lemma same_view_disksize s s' : same_view s s' → k_disksize s' = k_disksize s.
Proof. intros [(bc & pt & d & w & -> & _) _ _ _ _]. done. Qed.

(** The cached inode [v] with its blocks on the disk: enough to read. *)
Record rctx W s v : Prop := {
  rc_quiet : quiet [] W s;
  rc_slot : k_icache s !! ip = Some v;
  rc_dev : i_dev v = 1;
  rc_len : length (i_addrs v) = 13%nat;
  rc_disk : ∀ q, (q < NPOS)%nat → blk s v q ≠ 0 → 0 ≤ blk s v q < k_disksize s }.

Lemma rctx_view W s v s' : rctx W s v → quiet [] W s' → same_view s s' → rctx W s' v.
Proof.
  intros [R1 R2 R3 R4 R5] Q V. split; [done|by rewrite (same_view_icache _ _ V)|done|done|].
  intros q Hq. rewrite (blk_frame s s') by (intros _; apply V). rewrite (same_view_disksize _ _ V). auto.
Qed.

(** [bmap] of a mapped block changes nothing. *)
Lemma quiet_bmap W s v bn (Q : Z → kernel → Prop) :
  rctx W s v → (bn < 140)%nat → blk s v (fpos bn) ≠ 0 →
  (∀ s', quiet [] W s' → same_view s s' → Q (blk s v (fpos bn)) s') → wp (bmap ip (Z.of_nat bn)) Q s.
Proof.
  intros [R1 R2 R3 R4 R5] Hbn H0 HQ. unfold bmap. apply wp_bind. eapply wp_get_inode; [exact R2|].
  change NDIRECT with 12. change NINDIRECT with 128. rewrite R3, Nat2Z.id.
  assert (∀ q, (q ≤ 12)%nat → i_addrs v !! q = Some (blk s v q)) as Ha.
  { intros q Hq. unfold blk. rewrite decide_True by done.
    destruct (lookup_lt_is_Some_2 (i_addrs v) q) as [a E]; [rewrite R4; lia|]. by rewrite E. }
  destruct (Z.ltb_spec (Z.of_nat bn) 12) as [Hlt|Hge].
  - assert (fpos bn = bn) as Hp by (unfold fpos; rewrite decide_True; lia). rewrite Hp in *.
    apply wp_bind. eapply wp_deref; [apply Ha; lia|]. rewrite (proj2 (Z.eqb_neq _ _) H0).
    apply wp_ret, HQ; [done|apply same_view_refl].
  - assert (fpos bn = S bn) as Hp by (unfold fpos; rewrite decide_False; lia). rewrite Hp in *.
    rewrite (proj2 (Z.ltb_lt _ _)) by lia. apply wp_bind. eapply wp_deref; [apply (Ha 12%nat); lia|].
    change (blk s v 12) with (ind v). assert (ind v ≠ 0) as Hi.
    { intros E. apply H0. unfold blk. rewrite decide_False, E by lia. done. }
    rewrite (proj2 (Z.eqb_neq _ _) Hi). apply wp_bind, wp_ret, wp_bind.
    eapply (quiet_bread i p); [exact R1|apply (R5 12%nat); [unfold NPOS; lia|done]|apply not_elem_of_nil|simpl; lia|].
    intros bi s1 Q1 V1. apply wp_bind. eapply (quiet_get_data i p); [exact Q1|left|]. rewrite (sv_lblk _ _ V1).
    replace (get32 (4 * Z.to_nat (Z.of_nat bn - 12)) (lblk s (ind v))) with (blk s v (S bn)).
    2: { unfold blk. rewrite decide_False, (proj2 (Z.eqb_neq _ _) Hi) by lia. do 2 f_equal. lia. }
    rewrite (proj2 (Z.eqb_neq _ _) H0). apply wp_bind, wp_ret, wp_bind.
    eapply (quiet_brelse i p); [exact Q1|]. intros s2 Q2 V2. apply wp_ret, HQ; [done|]. by eapply same_view_trans.
Qed.

Lemma wp_readi_loop fuel W s v off n tot (Q : list Z → kernel → Prop) :
  rctx W s v → full_to s v (off + n) → Z.of_nat (off + n) ≤ 71680 → (n ≤ fuel)%nat → 0 ≤ tot →
  (∀ s', quiet [] W s' → same_view s s' → Q (fbyte s v <$> seq off n) s') →
  wp (readi_loop fuel ip (Z.of_nat off) (tot + Z.of_nat n) tot) Q s.
Proof.
  revert s off n tot Q. induction fuel as [|fuel IH]; intros s off n tot Q R Hfull Hmax Hfuel Htot HQ; cbn [readi_loop].
  { assert (n = 0)%nat as -> by lia. rewrite (proj2 (Z.ltb_ge _ _)) by lia.
    apply wp_ret, HQ; [apply R|apply same_view_refl]. }
  destruct (decide (n = 0)%nat) as [->|Hn].
  { rewrite (proj2 (Z.ltb_ge _ _)) by lia. apply wp_ret, HQ; [apply R|apply same_view_refl]. }
  rewrite (proj2 (Z.ltb_lt _ _)) by lia. change BSIZE with 512.
  assert (Z.of_nat off / 512 = Z.of_nat (off / 512) ∧ Z.of_nat off mod 512 = Z.of_nat (off mod 512)) as [Ed Em].
  { change 512 with (Z.of_nat 512). by rewrite <- Nat2Z.inj_div, <- Nat2Z.inj_mod. }
  rewrite Ed, Em. pose proof (Nat.mod_upper_bound off 512 ltac:(lia)) as Hm5. pose proof (Nat.div_mod off 512 ltac:(lia)) as Hdm.
  set (m := (n `min` (512 - off mod 512))%nat).
  replace (Z.min (tot + Z.of_nat n - tot) (512 - Z.of_nat (off mod 512))) with (Z.of_nat m) by lia.
  assert (off / 512 < 140)%nat as Hbn by lia.
  assert (blk s v (fpos (off / 512)) ≠ 0) as Hb by (apply Hfull; lia).
  apply wp_bind. eapply wp_get_inode; [apply R|]. apply wp_bind. eapply quiet_bmap; [exact R|done|done|].
  intros s1 Q1 V1. apply wp_bind. rewrite (rc_dev _ _ _ R). destruct (fpos_lt _ Hbn) as [Hp _].
  eapply (quiet_bread i p); [exact Q1| |apply not_elem_of_nil|simpl; lia|].
  { rewrite (same_view_disksize _ _ V1). by apply R. }
  intros bi s2 Q2 V2. apply wp_bind. eapply (quiet_get_data i p); [exact Q2|left|]. rewrite (sv_lblk _ _ V2), (sv_lblk _ _ V1).
  apply wp_bind. eapply (quiet_brelse i p); [exact Q2|]. intros s3 Q3 V3.
  pose proof (same_view_trans _ _ _ (same_view_trans _ _ _ V1 V2) V3) as V.
  rewrite !Nat2Z.id, chunk_bytes.
  2: lia. 2: { change 512%nat with (Z.to_nat BSIZE). apply lblk_len; [apply (rc_quiet _ _ _ R)|]. by apply R. }
  apply wp_bind. replace (Z.of_nat off + Z.of_nat m) with (Z.of_nat (off + m)) by lia.
  replace (tot + Z.of_nat n) with (tot + Z.of_nat m + Z.of_nat (n - m)) by lia.
  apply (IH s3); [by eapply rctx_view| |lia|lia|lia|].
  { intros k Hk. rewrite (blk_frame s s3) by (intros _; apply V). apply Hfull. lia. }
  intros s4 Q4 V4. apply wp_ret. replace (fbyte s3 v <$> seq (off + m) (n - m)) with (fbyte s v <$> seq (off + m) (n - m)).
  2: { apply list_fmap_ext. intros j x _. symmetry. apply fbyte_view. intros m'. apply V. }
  rewrite <- fmap_app. replace (seq off m ++ seq (off + m) (n - m)) with (seq off n).
  2: { rewrite <- seq_app. f_equal. lia. }
  apply HQ; [done|]. by eapply same_view_trans.
Qed.

(** [readi] on a file that is not a device. *)
Definition readi_result (s : kernel) (v : inode) (off n : Z) : list Z * Z :=
  if (off >? i_size v) || (u32 (off + n) <? off) then ([], -1)
  else (slice (Z.to_nat off) (Z.to_nat n) (contents s v), Z.min n (i_size v - off)).

Lemma wp_readi W s v off n (Q : list Z * Z → kernel → Prop) :
  rctx W s v → i_type v ≠ T_DEV → 0 ≤ i_size v ≤ 71680 → full_to s v (Z.to_nat (i_size v)) →
  0 ≤ off < 2 ^ 32 → 0 ≤ n < 2 ^ 32 →
  (∀ s', quiet [] W s' → same_view s s' → Q (readi_result s v off n) s') → wp (readi ip off n) Q s.
Proof.
  intros R Ht Hsz Hfull Hoff Hn HQ. unfold readi. apply wp_bind. eapply wp_get_inode; [apply R|].
  rewrite (proj2 (Z.eqb_neq _ _) Ht). unfold readi_result in HQ.
  destruct ((off >? i_size v) || (u32 (off + n) <? off)) eqn:Ebad.
  { apply wp_ret, HQ; [apply R|apply same_view_refl]. }
  apply orb_false_iff in Ebad as [E1 E2]. rewrite Z.gtb_ltb in E1; apply Z.ltb_ge in E1. apply Z.ltb_ge in E2.
  assert (u32 (off + n) = off + n) as Eu.
  { destruct (decide (off + n < 2 ^ 32)); [rewrite u32_small; lia|]. unfold u32 in *.
    replace ((off + n) mod 2 ^ 32) with (off + n - 2 ^ 32) in E2; [lia|]. apply (Z.mod_unique _ _ 1); lia. }
  rewrite Eu. set (k := if off + n >? i_size v then i_size v - off else n).
  assert (k = Z.min n (i_size v - off)) as Ek by (unfold k; destruct (Z.gtb_spec (off + n) (i_size v)); lia).
  apply wp_bind. pose proof (wp_readi_loop (Z.to_nat k) W s v (Z.to_nat off) (Z.to_nat k) 0) as Hloop.
  rewrite !Z2Nat.id, Z.add_0_l in Hloop by lia. apply Hloop; [done| |lia|lia|lia|].
  { intros j Hj. apply Hfull. lia. }
  intros s' Q' V. apply wp_ret. rewrite s32_small by lia. rewrite <- Ek in HQ.
  replace (fbyte s v <$> seq (Z.to_nat off) (Z.to_nat k)) with (slice (Z.to_nat off) (Z.to_nat n) (contents s v)); [by apply HQ|].
  unfold contents, slice. rewrite <- fmap_drop, <- fmap_take, drop_seq, take_seq. do 2 f_equal; lia.
Qed.
End Read.

(** ** Writing *)

Section Write.
Context `{WaitBound}.
Context (i : nat) (p : proc) (ip : nat).
Implicit Types (s : kernel) (v : inode) (W : list Z) (bs : list Z).
#[local] Abbreviation tx := (tx i p).
#[local] Abbreviation fctx := (fctx i p ip).
#[local] Abbreviation size v := (Z.to_nat (i_size v)).

(** The number of blocks [n] bytes take. *)
Definition nb (n : nat) : nat := ((n + 511) / 512)%nat.
Lemma nb_mono n m : (n ≤ m → nb n ≤ nb m)%nat.
Proof. intros Hnm. apply Nat.Div0.div_le_mono. lia. Qed.
Lemma nb_step n : (nb (n + 512) = nb n + 1)%nat.
Proof. unfold nb. replace (n + 512 + 511)%nat with (n + 511 + 1 * 512)%nat by lia. by rewrite Nat.div_add by lia. Qed.
Lemma nb_next off n m : (n ≤ off → off mod 512 = 0 → 0 < m → nb n + 1 ≤ nb (off + m))%nat.
Proof.
  intros Hn Hm H0. pose proof (Nat.div_mod off 512 ltac:(lia)) as Hd. transitivity (nb off + 1)%nat; [apply Nat.add_le_mono_r; by apply nb_mono|].
  unfold nb. replace (off + 511)%nat with (511 + off / 512 * 512)%nat by lia. rewrite Nat.div_add by lia.
  replace (off + m + 511)%nat with (m + 511 + off / 512 * 512)%nat by lia. rewrite Nat.div_add by lia.
  assert (1 ≤ (m + 511) / 512)%nat by (apply Nat.div_le_lower_bound; lia). simpl. lia.
Qed.

(** The bytes [bs] were written at [off], touching [k] blocks of data.  Blocks are
    only taken for the part past the end: [supply] plus the blocks of the file never drops. *)
Record writes (k : nat) W s v (off : nat) bs W' s' v' : Prop := {
  wr_ctx : fctx W' s' v';
  wr_only : fs_only s s';
  wr_slots : k_icache s' = <[ip := v']> (k_icache s);
  wr_inode : ∃ a, v' = set_i_addrs a v;
  wr_full : full_to s' v' (size v `max` (off + length bs));
  wr_bytes : ∀ x, (x < size v `max` (off + length bs))%nat → fbyte s' v' x =
    if decide (off ≤ x < off + length bs)%nat then default 0 (bs !! (x - off)%nat) else fbyte s v x;
  wr_frame : ∀ m, isfree s m = false → data_blk s m → (∀ q, (q < NPOS)%nat → blk s v q ≠ m) →
    lblk s' m = lblk s m ∧ isfree s' m = false ∧ ∀ q, (q < NPOS)%nat → blk s' v' q ≠ m;
  wr_iblk : ∀ m, inode_blk s m → lblk s' m = lblk s m;
  wr_sub : W ⊆ W';
  wr_load : (load W' v' ≤ load W v + k)%nat;
  wr_supply : (supply s v + nb (size v `max` off) ≤ supply s' v' + nb (size v `max` (off + length bs)))%nat;
  wr_same : (off + length bs ≤ size v)%nat → v' = v }.

Lemma writes_nil W s v off :
  fctx W s v → full_to s v (size v `max` off) → writes 0 W s v off [] W s v.
Proof.
  intros C Hf. assert (off + 0 = off)%nat as E by lia. split; simpl; rewrite ?E; try done.
  - apply fs_only_refl.
  - by rewrite list_insert_id by apply C.
  - exists (i_addrs v). by destruct v.
  - intros x Hx. by rewrite decide_False by lia.
  - lia.
Qed.

Lemma writes_trans k1 k2 W s v off bs1 bs2 W1 s1 v1 W2 s2 v2 :
  writes k1 W s v off bs1 W1 s1 v1 → writes k2 W1 s1 v1 (off + length bs1) bs2 W2 s2 v2 →
  writes (k1 + k2) W s v off (bs1 ++ bs2) W2 s2 v2.
Proof.
  intros [A1 A2 A3 [a1 ->] A5 A6 A7 A8 A9 A10 A11 A12] [B1 B2 B3 [a2 ->] B5 B6 B7 B8 B9 B10 B11 B12].
  rewrite <- !Nat.add_assoc in *. split; rewrite ?length_app; simpl in *; try done.
  - by eapply fs_only_trans.
  - rewrite B3, A3. apply list_insert_insert_eq.
  - exists a2. by destruct v.
  - intros x Hx. rewrite B6 by lia. destruct (decide (off + length bs1 ≤ x < off + (length bs1 + length bs2))%nat) as [H1|H1].
    + rewrite decide_True by lia. rewrite lookup_app_r by lia. do 2 f_equal. lia.
    + rewrite A6 by lia. repeat case_decide; try lia; [by rewrite lookup_app_l by lia|done..].
  - intros m Hu Hd Hq. destruct (A7 m Hu Hd Hq) as (E1 & U1 & Q1).
    destruct (B7 m U1) as (E2 & U2 & Q2); [by apply (fs_only_data_blk _ _ _ A2)|done|]. by rewrite E2.
  - intros m Hm. rewrite B8, A8; [done|done|]. by apply (fs_only_inode_blk _ _ _ A2).
  - by transitivity W1.
  - lia.
  - lia.
  - intros Hle. rewrite B12 by lia. by apply A12; lia.
Qed.

(** Changing the data of a block of the file. *)
Lemma data_written W s v q b d W' s' :
  fctx W s v → (q < NPOS)%nat → q ≠ 12%nat → b = blk s v q → b ≠ 0 → tx [] W' s' → tx_only s s' → W ⊆ W' →
  (∀ m, lblk s' m = if decide (m = b) then d else lblk s m) →
  fctx W' s' v ∧ (∀ r, blk s' v r = blk s v r) ∧ ∀ x, 0 ≤ x < sb_size (k_sb s) → isfree s' x = isfree s x.
Proof.
  intros [C1 C2 C3 C4 C5] Hq H12 -> H0 T O Hsub V. destruct (kb_used s v C4 q Hq H0) as [Hd Hu].
  assert (∀ r, blk s' v r = blk s v r) as Hb.
  { intros r. apply blk_frame. intros Hi. rewrite V, decide_False; [done|]. intros E. apply H12. symmetry.
    apply (kb_inj s v C4); [unfold NPOS; lia|done|done|done]. }
  assert (∀ x, 0 ≤ x < sb_size (k_sb s) → isfree s' x = isfree s x) as Hf.
  { intros x Hx. unfold isfree. rewrite (tx_only_sb _ _ O), V, decide_False; [done|].
    intros E. apply (proj1 (proj2 (proj2 Hd))). by exists x. }
  split; [|done]. split; [done| |by rewrite (tx_only_icache _ _ O)| |].
  - apply (fs_ok_only s s' O C2). intros x Hx. rewrite Hf by done. by left.
  - split; [apply C4|apply C4| |].
    + intros r Hr. rewrite Hb. intros Hr0. destruct (kb_used s v C4 r Hr Hr0) as [Hd' Hu'].
      rewrite (tx_only_data_blk _ _ _ O), Hf by (by apply data_in_range). done.
    + intros r t Hr Ht. rewrite !Hb. by apply C4.
  - intros n Hn. by apply Hsub, C5, (tx_only_bmap_blk _ _ _ O).
Qed.

#[local] Abbreviation bmapped := (bmapped i p ip).

(** [bmap] keeps the contents, and extends the allocated part by its block. *)
Lemma bmapped_bytes W s v bn b W1 s1 v1 e x :
  fctx W s v → full_to s v e → (bn < 140)%nat → bmapped W s v bn b W1 s1 v1 → (x < e)%nat → (x / 512 < 140)%nat →
  fbyte s1 v1 x = fbyte s v x.
Proof.
  intros C Hf Hbn B Hx Hx5. assert (blk s v (fpos (x / 512)) ≠ 0) as H0.
  { apply Hf. pose proof (Nat.div_mod x 512 ltac:(lia)). lia. }
  destruct (fpos_lt _ Hx5) as [Hp Hp12]. unfold fbyte. destruct (decide (x / 512 = bn)%nat) as [E|E].
  - subst bn. destruct (bm_old B H0) as [-> V]. by rewrite (blk_frame s s1), V.
  - rewrite (bm_other B) by (done || intros ?%fpos_inj; done).
    destruct (kb_used s v (fc_blocks C) _ Hp H0) as [Hd Hu].
    rewrite (bm_frame B); [done|done|done|]. intros Ei. apply Hp12.
    apply (kb_inj s v (fc_blocks C)); [done|unfold NPOS; lia|done|done].
Qed.
Lemma bmapped_full W s v bn b W1 s1 v1 e e' :
  full_to s v e → (bn < 140)%nat → (e' ≤ 512 * 140)%nat → bmapped W s v bn b W1 s1 v1 →
  (∀ k, (512 * k < e')%nat → (512 * k < e)%nat ∨ k = bn) → full_to s1 v1 e'.
Proof.
  intros Hf Hbn He' B Hk k Hke. destruct (decide (k = bn)) as [->|Hne].
  - rewrite <- (bm_b B). apply (bm_nz B).
  - destruct (fpos_lt k ltac:(lia)) as [Hp Hp12].
    rewrite (bm_other B) by (done || intros ?%fpos_inj; done).
    apply Hf. destruct (Hk k Hke); [done|done].
Qed.
(** No block in use elsewhere becomes a block of the file. *)
Lemma bmapped_apart W s v bn b W1 s1 v1 m :
  fctx W s v → (bn < 140)%nat → bmapped W s v bn b W1 s1 v1 → isfree s m = false → data_blk s m →
  (∀ q, (q < NPOS)%nat → blk s v q ≠ m) →
  lblk s1 m = lblk s m ∧ isfree s1 m = false ∧ b ≠ m ∧ ∀ q, (q < NPOS)%nat → blk s1 v1 q ≠ m.
Proof.
  intros C Hbn B Hu Hd Hq. destruct (fpos_lt bn Hbn) as [Hp Hp12].
  assert (b ≠ m) as Hb.
  { destruct (decide (blk s v (fpos bn) = 0)) as [E|E].
    - destruct (bm_new B E) as [Hf _]. intros ->. congruence.
    - destruct (bm_old B E) as [-> V]. rewrite (bm_b B).
      rewrite (blk_frame s s1) by auto. by apply Hq. }
  split; [apply (bm_frame B); [done|done|]|].
  { intros E. apply (Hq 12%nat); [unfold NPOS; lia|done]. }
  split; [by apply (bm_used B)|]. split; [done|]. intros q Hql.
  destruct (decide (q = fpos bn)) as [->|Hne]; [by rewrite <- (bm_b B)|].
  destruct (decide (q = 12%nat)) as [->|H12].
  - change (ind v1 ≠ m). destruct (bm_ind B) as [->|Hf]; [apply (Hq 12%nat); unfold NPOS; lia|].
    intros E. congruence.
  - rewrite (bm_other B) by done. by apply Hq.
Qed.

Lemma lookup_splice_default off bs d x :
  (off mod 512 + length bs ≤ 512)%nat → length d = 512%nat → (x / 512 = off / 512)%nat →
  default 0 (splice (off mod 512) bs d !! (x mod 512)%nat) =
  if decide (off ≤ x < off + length bs)%nat then default 0 (bs !! (x - off)%nat) else default 0 (d !! (x mod 512)%nat).
Proof.
  intros Hl Hd E. pose proof (Nat.div_mod x 512 ltac:(lia)) as Hx. pose proof (Nat.div_mod off 512 ltac:(lia)) as Ho.
  case_decide as Hr.
  - rewrite lookup_splice_in by lia. do 2 f_equal. lia.
  - destruct (decide (x < off)%nat); [by rewrite lookup_splice_lt by lia|by rewrite lookup_splice_ge by lia].
Qed.

Lemma chunk_supply W s v off n b W1 s1 v1 :
  full_to s v (size v `max` off) → (0 < n)%nat → bmapped W s v (off / 512) b W1 s1 v1 →
  (supply s v + nb (size v `max` off) ≤ supply s1 v1 + nb (size v `max` (off + n)))%nat.
Proof.
  intros Hf Hn B. pose proof (Nat.div_mod off 512 ltac:(lia)) as Hdm. destruct (decide (blk s v (fpos (off / 512)) = 0)) as [E|E].
  - assert (size v `max` off ≤ 512 * (off / 512))%nat as Hle by (destruct (Nat.le_gt_cases (size v `max` off) (512 * (off / 512))); [done|by destruct (Hf (off / 512)%nat)]).
    pose proof (bm_supply B). pose proof (nb_next off (size v `max` off) n ltac:(lia) ltac:(lia) Hn).
    pose proof (nb_mono (off + n) (size v `max` (off + n)) ltac:(lia)). lia.
  - destruct (bm_old B E) as [-> V]. assert (nfree s1 = nfree s) as En.
    { apply nfree_same; [apply (fs_only_sb _ _ (bm_only B))|]. intros x. unfold isfree. by rewrite (fs_only_sb _ _ (bm_only B)), V. }
    unfold supply. rewrite En. pose proof (nb_mono (size v `max` off) (size v `max` (off + n)) ltac:(lia)). lia.
Qed.

Lemma chunk_writes W s v off bs b W1 s1 v1 s2 :
  fctx W s v → full_to s v (size v `max` off) → (size v ≤ 512 * 140)%nat → (0 < length bs)%nat →
  (off mod 512 + length bs ≤ 512)%nat → (off / 512 < 140)%nat →
  bmapped W s v (off / 512) b W1 s1 v1 → tx [] (addw b W1) s2 → tx_only s1 s2 →
  (∀ m, lblk s2 m = if decide (m = b) then splice (off mod 512) bs (lblk s1 b) else lblk s1 m) →
  writes 1 W s v off bs (addw b W1) s2 v1.
Proof.
  intros C Hf Hsz Hpos Hbs Hbn B T2 O2 V2. pose proof (Nat.div_mod off 512 ltac:(lia)) as Hdm.
  pose proof (bm_ctx B) as C1. destruct (fpos_lt _ Hbn) as [Hp Hp12].
  destruct (data_written W1 s1 v1 (fpos (off / 512)) b (splice (off mod 512) bs (lblk s1 b)) (addw b W1) s2 C1 Hp Hp12
    (bm_b B) (bm_nz B) T2 O2) as (C2 & Hb2 & Hf2); [|exact V2|].
  { intros m Hm. rewrite elem_addw. by left. }
  assert (full_to s1 v1 (size v `max` (off + length bs))) as Hf1.
  { eapply bmapped_full; [exact Hf|exact Hbn| |exact B|].
    - lia.
    - intros k Hk. lia. }
  assert (length (lblk s1 b) = 512%nat) as Hlen.
  { eapply fctx_len; [exact C1|]. rewrite (bm_b B).
    apply (kb_used s1 v1 (fc_blocks C1)); [done|]. rewrite <- (bm_b B). apply B. }
  split; try done.
  - eapply fs_only_trans; [apply B|by apply fs_only_tx].
  - rewrite (tx_only_icache _ _ O2). apply B.
  - apply B.
  - intros k Hk. rewrite Hb2. by apply Hf1.
  - intros x Hx. unfold fbyte at 1. rewrite Hb2, V2.
    assert (x / 512 < 140)%nat as Hx5 by (apply Nat.Div0.div_lt_upper_bound; lia).
    destruct (decide (x / 512 = off / 512)%nat) as [E|E].
    + rewrite E, <- (bm_b B), decide_True by done. rewrite lookup_splice_default by done.
      case_decide; [done|]. rewrite <- (bmapped_bytes W s v _ b W1 s1 v1 (size v `max` off) x C Hf Hbn B); [|lia|done].
      unfold fbyte. by rewrite E, <- (bm_b B).
    + assert (blk s1 v1 (fpos (x / 512)) ≠ 0) as Hx0.
      { apply Hf1. pose proof (Nat.div_mod x 512 ltac:(lia)). lia. }
      assert (blk s1 v1 (fpos (x / 512)) ≠ b) as Hxb.
      { rewrite (bm_b B). intros E'. apply E, fpos_inj.
        apply (kb_inj s1 v1 (fc_blocks C1)); [by apply fpos_lt|done|done|done]. }
      rewrite decide_False by done. fold (fbyte s1 v1 x).
      assert (¬ (off ≤ x < off + length bs)%nat) as Hno.
      { intros Hr. apply E. destruct (same_chunk off (x - off) ltac:(lia)) as [E' _].
        by replace (off + (x - off))%nat with x in E' by lia. }
      rewrite decide_False by done. eapply bmapped_bytes; [exact C|exact Hf|exact Hbn|exact B|lia|done].
  - intros m Hu Hd Hq. destruct (bmapped_apart W s v _ b W1 s1 v1 m C Hbn B Hu Hd Hq) as (E1 & U1 & Hne & Q1).
    rewrite V2, decide_False by done. split; [done|]. split; [|intros q Hql; rewrite Hb2; by apply Q1].
    rewrite Hf2; [done|]. rewrite (fs_only_sb _ _ (bm_only B)). by apply data_in_range.
  - intros m Hm. rewrite V2, decide_False; [by apply (bm_iblk B)|]. intros ->.
    destruct (kb_used s1 v1 (fc_blocks C1) (fpos (off / 512)) Hp) as [(_ & _ & _ & Hni) _].
    { rewrite <- (bm_b B). apply B. }
    apply Hni. rewrite <- (bm_b B).
    by apply (fs_only_inode_blk _ _ _ (bm_only B)).
  - intros m Hm. rewrite elem_addw. left. by apply (bm_sub B).
  - apply (bm_load B).
  - assert (supply s2 v1 = supply s1 v1) as ->.
    { unfold supply. f_equal. unfold nfree. rewrite (tx_only_sb _ _ O2). f_equal.
      apply filter_ext_in. intros x Hx%elem_of_seqZ. by rewrite Hf2 by lia. }
    by eapply chunk_supply.
  - intros Hle. apply (bm_old B). apply Hf. lia.
Qed.

(** The number of blocks [n] bytes at [off] touch. *)
Definition nblk (off n : nat) : nat := if decide (n = 0)%nat then 0%nat else ((off mod 512 + n + 511) / 512)%nat.

Lemma nblk_step off n m :
  (0 < n)%nat → m = (n `min` (512 - off mod 512))%nat → nblk off n = S (nblk (off + m) (n - m)).
Proof.
  intros Hn ->. unfold nblk. pose proof (Nat.mod_upper_bound off 512 ltac:(lia)) as Hm.
  pose proof (Nat.div_mod off 512 ltac:(lia)) as Ho. rewrite decide_False by lia.
  destruct (decide (n ≤ 512 - off mod 512)%nat) as [Hle|Hgt].
  - rewrite Nat.min_l, Nat.sub_diag by lia. symmetry. apply (Nat.div_unique _ 512 1 (off mod 512 + n - 1)); lia.
  - rewrite Nat.min_r, decide_False by lia.
    replace ((off + (512 - off mod 512)) mod 512)%nat with 0%nat by (apply (Nat.mod_unique _ 512 (off / 512 + 1)); lia).
    replace (off mod 512 + n + 511)%nat with (0 + (n - (512 - off mod 512)) + 511 + 1 * 512)%nat by lia.
    rewrite Nat.div_add by lia. lia.
Qed.

Lemma wp_writei_loop fuel W s v off src tot (Q : Z → kernel → Prop) :
  fctx W s v → full_to s v (size v `max` off) → (size v ≤ 512 * 140)%nat → (off + length src ≤ 512 * 140)%nat →
  (length src ≤ fuel)%nat → 0 ≤ tot →
  Z.of_nat (load W v + nblk off (length src)) + 1 ≤ TXMAX → (nblk off (length src) + 1 ≤ supply s v)%nat →
  (∀ W' s' v', writes (nblk off (length src)) W s v off src W' s' v' → Q (Z.of_nat (off + length src)) s') →
  wp (writei_loop fuel ip src (Z.of_nat off) (tot + Z.of_nat (length src)) tot) Q s.
Proof.
  revert W s v off src tot Q. induction fuel as [|fuel IH]; intros W s v off src tot Q C Hf Hsz Hmax Hfuel Htot HW Hsup HQ;
    cbn [writei_loop].
  { destruct src; [|cbn [length] in Hfuel; lia]. cbn [length] in *. rewrite (proj2 (Z.ltb_ge _ _)) by lia. rewrite Nat.add_0_r in HQ.
    apply wp_ret. eapply HQ. by apply writes_nil. }
  destruct (decide (length src = 0)%nat) as [E0|E0].
  { destruct src; [|done]. cbn [length] in *. rewrite (proj2 (Z.ltb_ge _ _)) by lia. rewrite Nat.add_0_r in HQ.
    apply wp_ret. eapply HQ. by apply writes_nil. }
  rewrite (proj2 (Z.ltb_lt _ _)) by lia. change BSIZE with 512. set (n := length src) in *.
  assert (Z.of_nat off / 512 = Z.of_nat (off / 512) ∧ Z.of_nat off mod 512 = Z.of_nat (off mod 512)) as [Ed Em].
  { change 512 with (Z.of_nat 512). by rewrite <- Nat2Z.inj_div, <- Nat2Z.inj_mod. }
  rewrite Ed, Em. pose proof (Nat.mod_upper_bound off 512 ltac:(lia)) as Hm5. pose proof (Nat.div_mod off 512 ltac:(lia)) as Hdm.
  set (m := (n `min` (512 - off mod 512))%nat).
  replace (Z.min (tot + Z.of_nat n - tot) (512 - Z.of_nat (off mod 512))) with (Z.of_nat m) by lia.
  rewrite !Nat2Z.id. assert (length (take m src) = m) as Hlt by (rewrite length_take; lia).
  assert (off / 512 < 140)%nat as Hbn by lia. pose proof (nblk_step off n m ltac:(lia) eq_refl) as Hnb. rewrite Hnb in HW, Hsup, HQ.
  apply wp_bind. eapply wp_get_inode; [apply C|]. rewrite (kb_dev _ _ (fc_blocks C)).
  apply wp_bind. eapply wp_bmap; [exact C|done|lia|lia|]. intros b W1 s1 v1 B. pose proof (bm_ctx B) as C1.
  destruct (fpos_lt _ Hbn) as [Hp _].
  destruct (kb_used s1 v1 (fc_blocks C1) (fpos (off / 512)) Hp) as [Hbd Hbu].
  { rewrite <- (bm_b B). apply B. }
  rewrite <- (bm_b B) in Hbd, Hbu. pose proof (bm_load B) as Hld. pose proof (load_bounds (addw b W1) v1) as Hlb.
  pose proof Hbd as (Hbr & Hbh & _). pose proof (fs_size s1 (fc_fs C1)) as Hfs.
  apply wp_bind. eapply (tx_bread i p); [apply C1|lia|apply not_elem_of_nil|simpl; lia|].
  intros bi s2 T2 O2 V2. apply wp_bind. eapply (tx_get_data i p); [exact T2|left|]. rewrite V2.
  eapply (tx_update i p); [exact T2|by apply (tx_only_home _ _ _ O2)| |lia|].
  { rewrite length_splice; rewrite (fctx_len _ _ _ _ _ _ b C1 Hbd); [done|lia]. }
  intros s3 T3 O3 V3. apply wp_bind. eapply (tx_brelse i p); [exact T3|]. intros s4 T4 O4 V4.
  assert (writes 1 W s v off (take m src) (addw b W1) s4 v1) as Hw.
  { eapply chunk_writes; [exact C|exact Hf|done|lia|lia|done|exact B|exact T4| |].
    - eapply tx_only_trans; [|exact O4]. by eapply tx_only_trans.
    - intros x. rewrite V4, V3. by case_decide; [|rewrite V2]. }
  assert (supply s v ≤ supply s4 v1 + 1)%nat as Hws.
  { pose proof (wr_supply _ _ _ _ _ _ _ _ _ Hw) as Hws. rewrite Hlt in Hws.
    pose proof (nb_mono (size v `max` (off + m)) (size v `max` off + 512) ltac:(lia)) as Hn. rewrite nb_step in Hn. lia. }
  destruct (wr_inode _ _ _ _ _ _ _ _ _ Hw) as [a ->].
  replace (Z.of_nat off + Z.of_nat m) with (Z.of_nat (off + m)) by lia.
  assert (length (drop m src) = (n - m)%nat) as Hld2 by (rewrite length_drop; lia).
  replace (tot + Z.of_nat n) with (tot + Z.of_nat m + Z.of_nat (length (drop m src))) by lia.
  apply (IH (addw b W1) s4 (set_i_addrs a v)); rewrite ?Hld2; [apply Hw| |done|lia|lia|lia|lia|lia|].
  { intros k Hk. apply (wr_full _ _ _ _ _ _ _ _ _ Hw). rewrite Hlt. exact Hk. }
  intros W' s' v' Hw'. replace (off + m + (n - m))%nat with (off + n)%nat by lia. apply (HQ W' s' v').
  rewrite <- (take_drop m src) at 1. change (S (nblk (off + m) (n - m))) with (1 + nblk (off + m) (n - m))%nat.
  eapply writes_trans; [exact Hw|]. by rewrite Hlt.
Qed.

(** The fields of the inode fit their types; the copy on disk agrees with [v]. *)
Record inode_ok s v : Prop := {
  io_inum : 0 ≤ i_inum v < sb_ninodes (k_sb s);
  io_type : is_short (i_type v); io_major : is_short (i_major v);
  io_minor : is_short (i_minor v); io_nlink : is_short (i_nlink v) }.
Definition ondisk s v : Prop := dinode_at s (i_inum v) = to_dinode v.

Lemma blocks_u32 W s v : fctx W s v → Forall (λ x, 0 ≤ x < 2 ^ 32) (i_addrs v).
Proof.
  intros C. apply Forall_lookup. intros q x Hx. pose proof (lookup_lt_Some _ _ _ Hx) as Hq.
  rewrite (kb_len _ _ (fc_blocks C)) in Hq. assert (blk s v q = x) as <-.
  { unfold blk. rewrite decide_True by lia. by rewrite Hx. }
  destruct (decide (blk s v q = 0)) as [->|H0]; [lia|]. eapply fctx_u32; [exact C|].
  apply (kb_used s v (fc_blocks C)); [unfold NPOS; lia|done].
Qed.
Lemma inode_di_ok W s v : fctx W s v → inode_ok s v → 0 ≤ i_size v < 2 ^ 32 → di_ok (to_dinode v).
Proof.
  intros C [I1 I2 I3 I4 I5] Hs. split; try done; [apply (kb_len _ _ (fc_blocks C))|]. by eapply blocks_u32.
Qed.

(** The files after an inode was written to disk. *)
Lemma fctx_iupdate W s v inum di s' :
  fctx W s v → 0 ≤ inum < sb_ninodes (k_sb s) → iupdated s inum di s' → tx [] (addw (IBLOCK inum (k_sb s)) W) s' →
  fctx (addw (IBLOCK inum (k_sb s)) W) s' v ∧
  (∀ m, data_blk s m → lblk s' m = lblk s m) ∧ (∀ q, blk s' v q = blk s v q) ∧
  (∀ x, (x / 512 < 140)%nat → blk s v (fpos (x / 512)) ≠ 0 → fbyte s' v x = fbyte s v x).
Proof.
  intros [C1 C2 C3 C4 C5] Hin U T. destruct (iupdated_fs s inum di s' C2 Hin U) as [F' Hf].
  pose proof (iu_only _ _ _ _ U) as O.
  assert (∀ m, data_blk s m → lblk s' m = lblk s m) as V.
  { intros m (_ & _ & _ & Hni). apply (iu_blocks _ _ _ _ U). intros ->. apply Hni. by exists inum. }
  assert (∀ q, blk s' v q = blk s v q) as Hb.
  { intros q. apply blk_frame. intros Hi. apply V. apply (kb_used s v C4 12); [unfold NPOS; lia|done]. }
  split_and!; [|done|done|].
  - split; [done|done|by rewrite (tx_only_icache _ _ O)| |].
    + split; [apply C4|apply C4| |intros q r Hq Hr; rewrite !Hb; by apply C4].
      intros q Hq. rewrite Hb. intros H0. destruct (kb_used s v C4 q Hq H0) as [Hd Hu].
      rewrite (tx_only_data_blk _ _ _ O), Hf by (by apply data_in_range). done.
    + intros n Hn. rewrite elem_addw. left. by apply C5, (tx_only_bmap_blk _ _ _ O).
  - intros x Hx H0. unfold fbyte. rewrite Hb, V; [done|]. by apply (kb_used s v C4); [apply fpos_lt|].
Qed.

Lemma fctx_size W s v n : fctx W s v →
  fctx W (set_k_icache (alter (set_i_size n) ip (k_icache s)) s) (set_i_size n v).
Proof.
  intros [C1 C2 C3 C4 C5]. split; [by apply tx_icache|by apply fs_ok_icache| |by destruct C4|done].
  simpl. by rewrite list_lookup_alter_eq, C3.
Qed.

(** The effect of a successful [writei] of [bs] at [off]. *)
Record written s v (off : nat) bs s' v' : Prop := {
  wn_file : file_ok s' v';
  wn_slots : k_icache s' = <[ip := v']> (k_icache s);
  wn_inode : ∃ a, v' = set_i_size (Z.max (i_size v) (Z.of_nat (off + length bs))) (set_i_addrs a v);
  wn_only : fs_only s s';
  wn_contents : contents s' v' = splice off bs (contents s v);
  wn_disk : ondisk s v → ondisk s' v';
  wn_inodes : ∀ j, 0 ≤ j < sb_ninodes (k_sb s) → j ≠ i_inum v → dinode_at s' j = dinode_at s j;
  wn_frame : ∀ m, isfree s m = false → data_blk s m → (∀ q, (q < NPOS)%nat → blk s v q ≠ m) →
    lblk s' m = lblk s m ∧ isfree s' m = false ∧ ∀ q, (q < NPOS)%nat → blk s' v' q ≠ m;
  wn_supply : (supply s v + nb (size v) ≤ supply s' v' + nb (size v'))%nat }.

Lemma contents_splice s v s' v' off bs n :
  0 ≤ i_size v → (off ≤ size v)%nat → i_size v' = n → n = Z.max (i_size v) (Z.of_nat (off + length bs)) →
  (∀ x, (x < size v `max` (off + length bs))%nat → fbyte s' v' x =
    if decide (off ≤ x < off + length bs)%nat then default 0 (bs !! (x - off)%nat) else fbyte s v x) →
  contents s' v' = splice off bs (contents s v).
Proof.
  intros Hs Ho En -> Hb. assert (length (contents s v) = size v) as Hl by (unfold contents; by rewrite length_fmap, length_seq).
  apply list_eq. intros x. unfold contents at 1. rewrite list_lookup_fmap, En.
  replace (Z.to_nat (Z.max (i_size v) (Z.of_nat (off + length bs)))) with (size v `max` (off + length bs))%nat by lia.
  destruct (decide (x < size v `max` (off + length bs))%nat) as [Hx|Hx].
  - rewrite lookup_seq_lt by done. simpl. rewrite Hb by done. case_decide as Hr.
    + rewrite lookup_splice_in by lia. destruct (lookup_lt_is_Some_2 bs (x - off)) as [y ->]; [lia|done].
    + assert (x < size v)%nat as Hxs by lia.
      assert (contents s v !! x = Some (fbyte s v x)) as Ec.
      { unfold contents. by rewrite list_lookup_fmap, lookup_seq_lt by done. }
      destruct (decide (x < off)%nat); [by rewrite lookup_splice_lt by lia|by rewrite lookup_splice_ge by lia].
  - rewrite lookup_seq_ge by lia. simpl. rewrite lookup_splice_ge by lia. symmetry. apply lookup_ge_None. lia.
Qed.

(** No growth: the loop's effect is all. *)
Lemma writes_written W s v off bs W' s' v' :
  fctx W s v → file_ok s v → inode_ok s v → writes (nblk off (length bs)) W s v off bs W' s' v' → (off + length bs ≤ size v)%nat →
  written s v off bs s' v'.
Proof.
  intros C F I Hw Hle. pose proof (wr_same _ _ _ _ _ _ _ _ _ Hw Hle) as ->.
  pose proof (fo_size _ _ F) as Hsz. pose proof (wr_only _ _ _ _ _ _ _ _ _ Hw) as O.
  assert (Z.max (i_size v) (Z.of_nat (off + length bs)) = i_size v) as Em by lia.
  assert (∀ j, 0 ≤ j < sb_ninodes (k_sb s) → dinode_at s' j = dinode_at s j) as Hdi.
  { intros j Hj. unfold dinode_at. rewrite (fs_only_sb _ _ O), (wr_iblk _ _ _ _ _ _ _ _ _ Hw); [done|]. by exists j. }
  split.
  - split; [apply Hw|apply F|done|]. intros q Hq. apply (wr_full _ _ _ _ _ _ _ _ _ Hw). lia.
  - apply Hw.
  - exists (i_addrs v). rewrite Em. by destruct v.
  - done.
  - eapply contents_splice; [apply Hsz|lia|done|by rewrite Em|]. apply Hw.
  - unfold ondisk. by rewrite Hdi by apply I.
  - intros j Hj _. by apply Hdi.
  - apply Hw.
  - pose proof (wr_supply _ _ _ _ _ _ _ _ _ Hw) as Hsu. by replace (size v `max` off)%nat with (size v) in Hsu by lia;
      replace (size v `max` (off + length bs))%nat with (size v) in Hsu by lia.
Qed.

(** Growth: the new size, then the inode is written. *)
Lemma writes_grow W s v off bs W1 s1 v1 s3 :
  fctx W s v → file_ok s v → inode_ok s v → writes (nblk off (length bs)) W s v off bs W1 s1 v1 → (off ≤ size v < off + length bs)%nat →
  (off + length bs ≤ 512 * 140)%nat →
  let n := Z.of_nat (off + length bs) in let v2 := set_i_size n v1 in
  let s2 := set_k_icache (alter (set_i_size n) ip (k_icache s1)) s1 in
  iupdated s2 (i_inum v) (to_dinode v2) s3 → tx [] (addw (IBLOCK (i_inum v) (k_sb s2)) W1) s3 →
  written s v off bs s3 v2 ∧ fctx (addw (IBLOCK (i_inum v) (k_sb s2)) W1) s3 v2.
Proof.
  intros C F I Hw Hgrow Hmax n v2 s2 U T. pose proof (fo_size _ _ F) as Hsz. pose proof (wr_only _ _ _ _ _ _ _ _ _ Hw) as O1.
  destruct (wr_inode _ _ _ _ _ _ _ _ _ Hw) as [a Ea].
  assert (i_inum v2 = i_inum v ∧ i_size v2 = n ∧ i_type v2 = i_type v) as (Ein & Esz & Ety) by (unfold v2; by rewrite Ea).
  assert (fctx W1 s2 v2) as C2 by apply fctx_size, Hw.
  assert (0 ≤ i_inum v < sb_ninodes (k_sb s2)) as Hin by (change (k_sb s2) with (k_sb s1); rewrite (fs_only_sb _ _ O1); apply I).
  destruct (fctx_iupdate W1 s2 v2 (i_inum v) _ s3 C2 Hin U T) as (C3 & V3 & Hb3 & Hby).
  destruct (iupdated_fs s2 (i_inum v) _ s3 (fc_fs C2) Hin U) as [_ Hfr].
  assert (fs_only s s3) as O3.
  { eapply fs_only_trans; [exact O1|]. eapply fs_only_trans; [apply fs_only_icache|apply fs_only_tx, (iu_only _ _ _ _ U)]. }
  assert (full_to s2 v2 (off + length bs)) as Hf2.
  { intros q Hq. apply (wr_full _ _ _ _ _ _ _ _ _ Hw). lia. }
  assert (di_ok (to_dinode v2)) as Hdi.
  { eapply inode_di_ok; [exact C2| |rewrite Esz; unfold n; lia]. destruct I. split; [by rewrite Ein|unfold v2; by rewrite Ea..]. }
  split; [|done]. split.
  - split; [apply C3|rewrite Ety; apply F|rewrite Esz; change (MAXFILE * BSIZE) with 71680; lia|].
    intros q Hq. rewrite Hb3. apply Hf2. rewrite Esz in Hq. lia.
  - rewrite (tx_only_icache _ _ (iu_only _ _ _ _ U)). unfold s2. simpl. rewrite (wr_slots _ _ _ _ _ _ _ _ _ Hw).
    assert (ip < length (k_icache s))%nat as Hlt by (eapply lookup_lt_Some, C).
    apply list_eq. intros j. destruct (decide (j = ip)) as [->|Hj].
    + by rewrite list_lookup_alter_eq, !list_lookup_insert_eq.
    + by rewrite list_lookup_alter_ne, !list_lookup_insert_ne by done.
  - exists a. rewrite Z.max_r by lia. unfold v2. by rewrite Ea.
  - done.
  - eapply contents_splice; [apply Hsz|lia|exact Esz|unfold n; lia|]. intros x Hx.
    assert (x / 512 < 140)%nat by (apply Nat.Div0.div_lt_upper_bound; lia).
    rewrite Hby; [|done|]. 2: { apply Hf2. pose proof (Nat.div_mod x 512 ltac:(lia)). lia. }
    change (fbyte s2 v2 x) with (fbyte s1 v1 x). by apply (wr_bytes _ _ _ _ _ _ _ _ _ Hw).
  - intros _. unfold ondisk. rewrite Ein. by apply (iu_self _ _ _ _ U).
  - intros j Hj Hne. rewrite (iu_other _ _ _ _ U); [|change (k_sb s2) with (k_sb s1); by rewrite (fs_only_sb _ _ O1)|done].
    unfold dinode_at. change (k_sb s2) with (k_sb s1). rewrite (fs_only_sb _ _ O1).
    change (lblk s2) with (lblk s1). rewrite (wr_iblk _ _ _ _ _ _ _ _ _ Hw); [done|]. by exists j.
  - intros m Hu Hd Hq. destruct (wr_frame _ _ _ _ _ _ _ _ _ Hw m Hu Hd Hq) as (E1 & U1 & N1).
    assert (data_blk s1 m) as Hd1 by (by apply (fs_only_data_blk _ _ _ O1)).
    rewrite V3 by done. split; [done|]. split; [|intros q Hq'; rewrite Hb3; by apply N1].
    rewrite Hfr; [done|]. change (k_sb s2) with (k_sb s1). by apply data_in_range.
  - assert (nfree s3 = nfree s1) as En.
    { change (nfree s1) with (nfree s2). unfold nfree. rewrite (tx_only_sb _ _ (iu_only _ _ _ _ U)). f_equal.
      apply filter_ext_in. intros x Hx%elem_of_seqZ. rewrite Hfr; [done|]. lia. }
    pose proof (wr_supply _ _ _ _ _ _ _ _ _ Hw) as Hsu. unfold supply in *. change (ind v2) with (ind v1). rewrite En.
    replace (size v `max` off)%nat with (size v) in Hsu by lia.
    replace (size v2) with (size v `max` (off + length bs))%nat by (unfold v2; simpl; lia). exact Hsu.
Qed.

Lemma wp_writei W s v off src (Q : Z → kernel → Prop) :
  fctx W s v → file_ok s v → inode_ok s v → (off ≤ size v)%nat → (off + length src ≤ 512 * 140)%nat →
  Z.of_nat (load W v + nblk off (length src)) + 2 ≤ TXMAX → (nblk off (length src) + 1 ≤ supply s v)%nat →
  (∀ W' s' v', written s v off src s' v' → fctx W' s' v' → (length W' ≤ load W v + nblk off (length src) + 1)%nat →
     Q (Z.of_nat (length src)) s') →
  wp (writei ip src (Z.of_nat off) (Z.of_nat (length src))) Q s.
Proof.
  intros C F I Hoff Hmax HW Hsup HQ. pose proof (fo_size _ _ F) as Hsz. change (MAXFILE * BSIZE) with 71680 in Hsz.
  unfold writei. apply wp_bind. eapply wp_get_inode; [apply C|].
  rewrite (proj2 (Z.eqb_neq _ _) (fo_type _ _ F)), u32_small by lia.
  replace ((Z.of_nat off >? i_size v) || (Z.of_nat off + Z.of_nat (length src) <? Z.of_nat off)) with false.
  2: { symmetry. apply orb_false_iff. rewrite Z.gtb_ltb, !Z.ltb_ge. lia. }
  change (MAXFILE * BSIZE) with 71680. rewrite Z.gtb_ltb, (proj2 (Z.ltb_ge _ _)) by lia.
  apply wp_bind. pose proof (wp_writei_loop (Z.to_nat (Z.of_nat (length src))) W s v off src 0) as Hloop.
  rewrite Z.add_0_l in Hloop. apply Hloop; [done| |lia|done|lia|lia|lia|done|].
  { intros k Hk. apply (fo_full _ _ F). lia. }
  clear Hloop. intros W1 s1 v1 Hw. pose proof (wr_load _ _ _ _ _ _ _ _ _ Hw) as Hld.
  pose proof (wr_ctx _ _ _ _ _ _ _ _ _ Hw) as C1. pose proof (load_bounds W1 v1) as Hlb.
  destruct (wr_inode _ _ _ _ _ _ _ _ _ Hw) as [a Ea]. assert (i_size v1 = i_size v ∧ i_inum v1 = i_inum v) as [Es1 Ei1] by (by rewrite Ea).
  apply wp_bind. eapply wp_get_inode; [apply C1|]. rewrite Es1, s32_small by lia.
  destruct (decide (size v < off + length src)%nat) as [Hg|Hg].
  - rewrite !Z.gtb_ltb, !(proj2 (Z.ltb_lt _ _)) by lia. cbn [andb].
    apply wp_bind. apply wp_bind, wp_modify. cbn beta.
    pose proof (fctx_size W1 s1 v1 (Z.of_nat (off + length src)) C1) as C2. set (s2 := set_k_icache _ s1) in *.
    pose proof (length_addw (IBLOCK (i_inum (set_i_size (Z.of_nat (off + length src)) v1)) (k_sb s2)) W1) as Hla.
    eapply (wp_iupdate i p W1); [apply C2|apply C2|apply C2|apply C2| |apply C2|lia|].
    { simpl. rewrite Ei1. change (k_sb s2) with (k_sb s1). rewrite (fs_only_sb _ _ (wr_only _ _ _ _ _ _ _ _ _ Hw)). apply I. }
    intros s3 U T3. apply wp_ret. simpl in U, T3, Hla. rewrite Ei1 in U, T3, Hla.
    destruct (writes_grow W s v off src W1 s1 v1 s3 C F I Hw ltac:(lia) ltac:(lia) U T3) as [Hwn C3].
    eapply HQ; [exact Hwn|exact C3|]. etransitivity; [apply length_addw|lia].
  - replace ((Z.of_nat (length src) >? 0) && (Z.of_nat (off + length src) >? i_size v)) with false.
    2: { symmetry. apply andb_false_iff. right. rewrite Z.gtb_ltb, Z.ltb_ge. lia. }
    apply wp_bind, wp_ret, wp_ret.
    eapply HQ; [eapply writes_written; [exact C|done|done|exact Hw|lia]|exact C1|lia].
Qed.
End Write.

(** ** The file of the example machine *)

Definition demo_fnode : inode := demo_inode 2 demo_file.

Lemma demo_blk q : (q < NPOS)%nat → blk demo_fs demo_fnode q = if decide (q = 0)%nat then 35 else if decide (q = 1)%nat then 36 else 0.
Proof.
  intros Hq. unfold blk. case_decide as H12; [|by rewrite !decide_False by lia].
  do 13 (destruct q as [|q]; [reflexivity|]). lia.
Qed.
Lemma demo_file_ok : file_ok demo_fs demo_fnode.
Proof.
  assert (isfree demo_fs 35 = false ∧ isfree demo_fs 36 = false) as [F1 F2] by (by rewrite !demo_fs_isfree).
  split.
  - split; [done|done| |].
    + intros q Hq. rewrite demo_blk by done. repeat case_decide; [intros _; split; [apply demo_fs_data; lia|done]..|done].
    + intros q r Hq Hr. rewrite !demo_blk by done. repeat case_decide; subst; done.
  - done.
  - simpl. change (MAXFILE * BSIZE) with 71680. lia.
  - intros k Hk. change (Z.to_nat (i_size demo_fnode)) with 600%nat in Hk. assert (k < 2)%nat as Hk2 by lia.
    destruct k as [|[|k]]; [done|done|lia].
Qed.
Lemma demo_slot : k_icache demo_fs !! 0%nat = Some demo_fnode.
Proof. destruct demo_fs_boot as (_ & _ & _ & _ & _ & _ & ->). done. Qed.
Lemma demo_inode_ok : inode_ok demo_fs demo_fnode.
Proof. destruct demo_fs_boot as (_ & _ & _ & _ & _ & Esb & _). by split; rewrite ?Esb. Qed.

(** ** The theorems *)

Section Claims.
Context `{WaitBound}.

(** C22. Reading: on a file that is not a device [readi] stores the requested
    slice of the file's contents, cut off at the end of the file, and returns
    its length; an offset past the end, or one that overflows, gives -1 and
    stores nothing.  Contents, disk and transaction are left as they were. *)
Theorem readi_contents (i : nat) (p : proc) (W : list Z) (s : kernel) (ip : nat) (v : inode) (off n : Z) :
  quiet i p [] W s → fs_ok s → k_icache s !! ip = Some v → file_ok s v → 0 ≤ off < 2 ^ 32 → 0 ≤ n < 2 ^ 32 →
  wp (readi ip off n) (λ r s', quiet i p [] W s' ∧ same_view s s' ∧
    r = if (off >? i_size v) || (off + n >=? 2 ^ 32) then ([], -1)
        else (slice (Z.to_nat off) (Z.to_nat n) (contents s v), Z.min n (i_size v - off))) s.
Proof.
  intros Q F Hs [B T Z Hf] Hoff Hn. change (MAXFILE * BSIZE) with 71680 in Z. eapply (wp_readi i p); [|done|done|done|done|done|].
  - split; [done|done|apply B|apply B|]. intros q Hq Hq0. destruct (kb_used s v B q Hq Hq0) as [Hd _].
    apply data_in_range in Hd. pose proof (fs_size s F). lia.
  - intros s' Q' V. split; [done|]. split; [done|]. unfold readi_result.
    replace (off + n >=? 2 ^ 32) with (u32 (off + n) <? off); [done|].
    rewrite Z.geb_leb. destruct (Z.leb_spec (2 ^ 32) (off + n)).
    + replace (u32 (off + n)) with (off + n - 2 ^ 32) by (unfold u32; apply (Z.mod_unique _ _ 1); lia). apply Z.ltb_lt. lia.
    + rewrite u32_small by lia. apply Z.ltb_ge. lia.
Qed.

Lemma tx_count i p Hd W s : tx i p Hd W s → lh_n (k_log s) ≤ Z.of_nat (length W).
Proof.
  intros [Q L T _ S _]. rewrite <- (length_txn s L).
  apply Nat2Z.inj_le, submseteq_length, NoDup_submseteq; [apply T|done].
Qed.

(** On a file system with one bitmap block, a transaction may count it as its own. *)
Lemma fctx_intro i p ip W s v :
  tx i p [] W s → fs_ok s → k_icache s !! ip = Some v → blocks_ok s v → sb_size (k_sb s) ≤ BPB →
  Z.of_nat (length W) + 1 ≤ TXMAX → fctx i p ip (addw (BBLOCK 0 (k_sb s)) W) s v.
Proof.
  intros T F Hs B Hone HW. pose proof (length_addw (BBLOCK 0 (k_sb s)) W) as Hl. pose proof (fs_size s F) as Hsz. split; try done.
  - eapply tx_more; [exact T| |lia]. intros m Hm. rewrite elem_addw. by left.
  - intros n (b & Hb & ->). rewrite elem_addw. right. rewrite !BBLOCK_spec, !Z.div_small by (done || lia). done.
Qed.

(** C4. Writing, inside a transaction on a file system with one bitmap block and
    with enough free blocks: [writei] overwrites the file's contents from [off]
    on with the given bytes, extending the file if they reach past its end, and
    returns their number.  Reading them back gives the same bytes; the size is
    written to the inode on disk; every other inode and every data block of
    another file is unchanged.  The transaction grows by at most the number of
    blocks touched, plus the bitmap, the indirect block and the inode.  An
    offset past the end, or a size beyond the maximum, gives -1 and changes
    nothing. *)
Theorem writei_contents (i : nat) (p : proc) (W : list Z) (s : kernel) (ip : nat) (v : inode) (off : nat) (src : list Z) :
  tx i p [] W s → fs_ok s → sb_size (k_sb s) ≤ BPB → k_icache s !! ip = Some v → file_ok s v → inode_ok s v →
  Z.of_nat (off + length src) < 2 ^ 32 → Z.of_nat (length W + nblk off (length src)) + 4 ≤ TXMAX →
  (nblk off (length src) + 1 ≤ nfree s)%nat →
  if (Z.of_nat off >? i_size v) || (Z.of_nat (off + length src) >? MAXFILE * BSIZE)
  then wp (writei ip src (Z.of_nat off) (Z.of_nat (length src))) (λ r s', r = -1 ∧ s' = s) s
  else wp (writei ip src (Z.of_nat off) (Z.of_nat (length src))) (λ r s', r = Z.of_nat (length src) ∧ ∃ v',
    k_icache s' = <[ip := v']> (k_icache s) ∧ file_ok s' v' ∧ contents s' v' = splice off src (contents s v) ∧
    slice off (length src) (contents s' v') = src ∧ (ondisk s v → ondisk s' v') ∧
    (∀ j, 0 ≤ j < sb_ninodes (k_sb s) → j ≠ i_inum v → dinode_at s' j = dinode_at s j) ∧
    (∀ m, isfree s m = false → data_blk s m → (∀ q, (q < NPOS)%nat → blk s v q ≠ m) → lblk s' m = lblk s m) ∧
    lh_n (k_log s') ≤ Z.of_nat (length W + nblk off (length src)) + 3) s.
Proof.
  intros T F Hone Hs FO IO Hu HW Hfree. pose proof (fo_size _ _ FO) as Hsz. change (MAXFILE * BSIZE) with 71680 in *.
  destruct ((Z.of_nat off >? i_size v) || (Z.of_nat (off + length src) >? 71680)) eqn:Ebad.
  - unfold writei. apply wp_bind. eapply wp_get_inode; [exact Hs|]. rewrite (proj2 (Z.eqb_neq _ _) (fo_type _ _ FO)).
    change (MAXFILE * BSIZE) with 71680. rewrite <- Nat2Z.inj_add, u32_small by lia.
    destruct (Z.of_nat off >? i_size v); [by apply wp_ret|]. cbn [orb] in *. rewrite Ebad.
    destruct (_ <? _); by apply wp_ret.
  - apply orb_false_iff in Ebad as [E1 E2]. rewrite Z.gtb_ltb in E1, E2. apply Z.ltb_ge in E1, E2.
    pose proof (fctx_intro i p ip W s v T F Hs (fo_blocks _ _ FO) Hone ltac:(lia)) as C.
    set (W0 := addw (BBLOCK 0 (k_sb s)) W) in *. pose proof (length_addw (BBLOCK 0 (k_sb s)) W) as Hl0. fold W0 in Hl0.
    pose proof (load_bounds W0 v) as Hlb. eapply wp_writei; [exact C|done|done|lia|lia|lia| |].
    { unfold supply. lia. }
    intros W' s' v' Hw C' HW'. split; [done|]. exists v'. destruct Hw as [H1 H2 H3 H4 H5 H6 H7 H8 _].
    split_and!; try done.
    + rewrite H5. unfold slice, splice. rewrite drop_app_length', take_app_length; [done|].
      rewrite length_take. pose proof (length_contents s v ltac:(lia)). lia.
    + intros m Hu' Hd Hq. by apply H8.
    + pose proof (tx_count _ _ _ _ _ (fc_tx C')). lia.
Qed.
End Claims.

Lemma writei_contents_witness :
  wp (writei (H := 0%nat) 0 [7; 8; 9] 598 3) (λ r s', r = 3 ∧ lh_n (k_log s') ≤ 4) demo_fs.
Proof.
  destruct demo_fs_boot as (_ & _ & _ & _ & _ & Esb & _).
  pose proof (writei_contents (H := 0%nat) 0 demo_proc [] demo_fs 0 demo_fnode 598 [7; 8; 9] demo_fs_tx demo_fs_ok) as Hw.
  cbv zeta in Hw. rewrite Esb in Hw.
  specialize (Hw ltac:(vm_compute; discriminate) demo_slot demo_file_ok demo_inode_ok ltac:(done) ltac:(done)).
  change ((Z.of_nat 598 >? i_size demo_fnode) || (Z.of_nat (598 + length [7; 8; 9]) >? MAXFILE * BSIZE)) with false in Hw.
  eapply wp_mono; [apply Hw|].
  - unfold nfree. rewrite Esb. change (nblk 598 (length [7; 8; 9])) with 1%nat.
    assert (37 ∈ filter (λ x, isfree demo_fs x = true) (seqZ 0 40)) as H1.
    { apply list_elem_of_filter. rewrite demo_fs_isfree by lia. split; [done|]. apply elem_of_seqZ. lia. }
    assert (38 ∈ filter (λ x, isfree demo_fs x = true) (seqZ 0 40)) as H2.
    { apply list_elem_of_filter. rewrite demo_fs_isfree by lia. split; [done|]. apply elem_of_seqZ. lia. }
    change (sb_size demo_sb) with 40. destruct (filter _ _) as [|a [|b l]]; [by apply not_elem_of_nil in H1| |simpl; lia].
    apply list_elem_of_singleton in H1, H2. congruence.
  - intros r s' (-> & v' & _ & _ & _ & _ & _ & _ & _ & Hn). split; [done|]. exact Hn.
Defined.

Lemma readi_contents_witness :
  wp (readi (H := 0%nat) 0 510 4) (λ r _, r = ([65; 65; 66; 66], 4)) demo_fs.
Proof.
  eapply wp_mono; [apply (readi_contents (H := 0%nat) 0 demo_proc [] demo_fs 0 demo_fnode 510 4);
    [apply demo_fs_tx|apply demo_fs_ok|apply demo_slot|apply demo_file_ok|lia|lia]|].
  intros r s' (_ & _ & ->). change ((510 >? i_size demo_fnode) || (510 + 4 >=? 2 ^ 32)) with false. cbn iota.
  f_equal. unfold contents. change (Z.to_nat (i_size demo_fnode)) with 600%nat.
  rewrite slice_seq by (simpl; lia). change (Z.to_nat 510) with 510%nat.
  assert (∀ x, (x < 1024)%nat → fbyte demo_fs demo_fnode x = if (x <? 512)%nat then 65 else 66) as Hb.
  { intros x Hx. unfold fbyte. assert (x mod 512 < 512)%nat as Hm by (apply Nat.mod_upper_bound; lia).
    pose proof (Nat.div_mod x 512 ltac:(lia)) as Hdm. assert (x mod 512 < Z.to_nat BSIZE)%nat as Hm2 by exact Hm.
    destruct (Nat.ltb_spec x 512).
    - assert (x / 512 = 0)%nat as -> by lia. change (blk demo_fs demo_fnode (fpos 0)) with 35.
      rewrite demo_fs_lblk by lia. change (demo_fsblock 35) with (replicate (Z.to_nat BSIZE) 65). by rewrite lookup_replicate_2.
    - assert (x / 512 = 1)%nat as -> by lia. change (blk demo_fs demo_fnode (fpos 1)) with 36.
      rewrite demo_fs_lblk by lia. change (demo_fsblock 36) with (replicate (Z.to_nat BSIZE) 66). by rewrite lookup_replicate_2. }
  change (Z.to_nat 4) with 4%nat. cbn [seq fmap list_fmap]. rewrite !Hb by lia. reflexivity.
Defined.
