(* ===== verification/Icache.v ===== *)
(** * Icache: the inode cache

    Specifications of [iget], [idup], [ilock], [iunlock] and [iput] for a
    process on an otherwise quiet system, and the invariant of the cache: no
    inode is cached twice, reference counts are exact, and a valid entry agrees
    with the inode on disk. *)

From S2P Require Import Prelude State Lock Bio BufSpec Log Inode Devs Fs Txn Blocks DemoFs FsData Dinode FsFile.

(** ** Steps that only read *)

(** [s'] shows the same blocks and the same disk as [s]; only the inode cache,
    clean buffers and sleeping processes may differ. *)
Definition iview (s s' : kernel) : Prop := same_view (set_k_icache (k_icache s') s) s'.

Section View.
Implicit Types s : kernel.
Lemma iview_view s s' : same_view s s' → iview s s'.
Proof. intros V. unfold iview. rewrite (same_view_icache _ _ V). by destruct s. Qed.
Lemma iview_refl s : iview s s.
Proof. apply iview_view, same_view_refl. Qed.
Lemma iview_set l s : iview s (set_k_icache l s).
Proof. apply same_view_refl. Qed.
Lemma same_view_set l s s' : same_view s s' → same_view (set_k_icache l s) (set_k_icache l s').
Proof.
  intros [(bc & pt & d & w & -> & Hpt) V2 V3 V4 V5]. split; try done. exists bc, pt, d, w. by split.
Qed.
Lemma iview_trans s1 s2 s3 : iview s1 s2 → iview s2 s3 → iview s1 s3.
Proof.
  intros V1 V2. unfold iview in *. eapply same_view_trans; [|exact V2].
  apply (same_view_set (k_icache s3)) in V1. by destruct s1.
Qed.
Lemma iview_lblk s s' m : iview s s' → lblk s' m = lblk s m.
Proof. intros V. apply (sv_lblk _ _ V). Qed.
Lemma iview_sb s s' : iview s s' → k_sb s' = k_sb s.
Proof. intros [(bc & pt & d & w & E & _) _ _ _ _]. by rewrite E. Qed.
Lemma iview_disksize s s' : iview s s' → k_disksize s' = k_disksize s.
Proof. intros [(bc & pt & d & w & E & _) _ _ _ _]. by rewrite E. Qed.
Lemma iview_log s s' : iview s s' → k_log s' = k_log s.
Proof. intros [(bc & pt & d & w & E & _) _ _ _ _]. by rewrite E. Qed.
Lemma iview_fs_only s s' : iview s s' → fs_only s s'.
Proof. intros V. by apply tx_only_view. Qed.
Lemma iview_fs_ok s s' : iview s s' → fs_ok s → fs_ok s'.
Proof.
  intros V F. apply (fs_ok_same (set_k_icache (k_icache s') s)); [by apply tx_only_view|apply V|by apply fs_ok_icache].
Qed.
Lemma iview_dinode s s' j : iview s s' → dinode_at s' j = dinode_at s j.
Proof. intros V. unfold dinode_at. by rewrite (iview_sb _ _ V), (iview_lblk _ _ _ V). Qed.
Lemma iview_isfree s s' x : iview s s' → isfree s' x = isfree s x.
Proof. intros V. unfold isfree. by rewrite (iview_sb _ _ V), (iview_lblk _ _ _ V). Qed.
Lemma iview_blk s s' v q : iview s s' → blk s' v q = blk s v q.
Proof. intros V. apply blk_frame. intros _. by apply iview_lblk. Qed.
Lemma iview_contents s s' v : iview s s' → contents s' v = contents s v.
Proof. intros V. apply contents_view. intros m. by apply iview_lblk. Qed.
Lemma iview_file_ok s s' v : iview s s' → file_ok s v → file_ok s' v.
Proof.
  intros V [B T Z Hf]. split; [|done|done|].
  - destruct B as [B1 B2 B3 B4]. split; [done|done| |].
    + intros q Hq. rewrite (iview_blk _ _ _ _ V), (iview_isfree _ _ _ V), (fs_only_data_blk _ _ _ (iview_fs_only _ _ V)). auto.
    + intros q r Hq Hr. rewrite !(iview_blk _ _ _ _ V). auto.
  - intros k Hk. rewrite (iview_blk _ _ _ _ V). by apply Hf.
Qed.
Lemma iview_nfree s s' : iview s s' → nfree s' = nfree s.
Proof. intros V. apply nfree_same; [by apply iview_sb|]. intros x. by apply iview_isfree. Qed.
Lemma iview_supply s s' v : iview s s' → supply s' v = supply s v.
Proof. intros V. unfold supply. by rewrite (iview_nfree _ _ V). Qed.
Lemma iview_inode_ok s s' v : iview s s' → inode_ok s v → inode_ok s' v.
Proof. intros V []. split; [by rewrite (iview_sb _ _ V)|done..]. Qed.

(** The effect of [writei] as seen from a state before it with the same blocks. *)
Lemma written_view ip s s1 v off bs s' v' :
  iview s s1 → k_icache s1 = k_icache s → written ip s1 v off bs s' v' → written ip s v off bs s' v'.
Proof.
  intros V E [H1 H2 H3 H4 H5 H6 H7 H8 H9]. split; try done.
  - by rewrite H2, E.
  - eapply fs_only_trans; [by apply iview_fs_only|done].
  - by rewrite H5, (iview_contents _ _ _ V).
  - intros Hd. apply H6. unfold ondisk. by rewrite (iview_dinode _ _ _ V).
  - intros j Hj Hne. rewrite H7, (iview_dinode _ _ _ V); [done|by rewrite (iview_sb _ _ V)|done].
  - intros m Hu Hd Hq. rewrite <- (iview_lblk _ _ _ V). apply H8.
    + by rewrite (iview_isfree _ _ _ V).
    + by apply (fs_only_data_blk _ _ _ (iview_fs_only _ _ V)).
    + intros q Hql. rewrite (iview_blk _ _ _ _ V). by apply Hq.
  - by rewrite <- (iview_supply _ _ _ V).
Qed.
End View.

(** ** The operations *)

Section Ops.
Context `{WaitBound}.
Context (i : nat) (p : proc).
Implicit Types (s : kernel) (v : inode) (W : list Z).
#[local] Abbreviation quiet := (quiet i p).

Lemma quiet_icache Hd W l s : quiet Hd W s → quiet Hd W (set_k_icache l s).
Proof.
  intros [S N1 N2 Hh Hp Hr Hf]. split; try done. destruct S as [B R A Lk T Hl Hq]. split; try done.
  destruct B as [B1 B2 B3 B4]. split; try done. intros j b Hj Hb. by destruct (B2 j b Hj Hb).
Qed.
Lemma quiet_wakeup Hd W c s : quiet Hd W s → quiet Hd W (do_wakeup c s).
Proof.
  intros [S N1 N2 Hh Hp Hr Hf]. split; try done. destruct S as [B R A Lk T Hl Hq]. split; try done.
  - destruct B as [B1 B2 B3 B4]. split; try done. intros j b Hj Hb. by destruct (B2 j b Hj Hb).
  - by apply running_wakeup.
Qed.
Lemma same_view_wakeup c s : same_view s (do_wakeup c s).
Proof.
  split; try done. exists (k_bcache s), (wake c <$> k_ptable s), (k_disk s), (k_wtrace s). split; [by destruct s|].
  intros j q Hq Hs. rewrite list_lookup_fmap, Hq. simpl. unfold wake. by rewrite (bool_decide_false (p_state q = SLEEPING)).
Qed.
Lemma tx_iview Hd W s s' : tx i p Hd W s → quiet Hd W s' → iview s s' → tx i p Hd W s'.
Proof. intros T Q V. eapply tx_view; [by apply tx_icache|exact Q|exact V]. Qed.

(** What [iget] does to the table. *)
Definition iget_table (l : list inode) (dev inum : Z) : option (nat * list inode) :=
  match iget_scan l 0 None dev inum with
  | inl j => Some (j, alter (λ v, set_i_ref (i_ref v + 1) v) j l)
  | inr (Some j) => Some (j, alter (λ v, set_i_valid false (set_i_ref 1 (set_i_inum inum (set_i_dev dev v)))) j l)
  | inr None => None
  end.

Lemma set_k_held_nil s : k_held s = [] → set_k_held [] s = s.
Proof. destruct s. simpl. by intros ->. Qed.

Lemma wp_iget dev inum j l' s (Q : nat → kernel → Prop) :
  k_held s = [] → iget_table (k_icache s) dev inum = Some (j, l') → Q j (set_k_icache l' s) → wp (iget dev inum) Q s.
Proof.
  intros Hh E HQ. unfold iget. apply wp_bind, wp_acquire; [rewrite Hh; apply not_elem_of_nil|].
  apply wp_bind, wp_gets. change (k_icache (set_k_held (Licache :: k_held s) s)) with (k_icache s).
  unfold iget_table in E. destruct (iget_scan (k_icache s) 0 None dev inum) as [k|[k|]]; [..|done]; injection E as -> <-;
    (apply wp_bind, wp_modify, wp_bind; eapply wp_release; [simpl; by rewrite Hh|apply not_elem_of_nil|]; apply wp_ret;
     destruct s; simpl in *; by subst).
Qed.

Lemma wp_idup ip s (Q : nat → kernel → Prop) :
  k_held s = [] → Q ip (set_k_icache (alter (λ v, set_i_ref (i_ref v + 1) v) ip (k_icache s)) s) → wp (idup ip) Q s.
Proof.
  intros Hh HQ. unfold idup. apply wp_bind, wp_acquire; [rewrite Hh; apply not_elem_of_nil|].
  apply wp_bind, wp_modify, wp_bind. eapply wp_release; [simpl; by rewrite Hh|apply not_elem_of_nil|]. apply wp_ret.
  destruct s; simpl in *; by subst.
Qed.

(** The inode after [ilock]: locked, and read from disk unless it was valid. *)
Definition locked (pid : Z) (di : dinode) (v : inode) : inode :=
  let v := set_i_lock (mkSleeplock true pid) v in
  if i_valid v then v else set_i_valid true (from_dinode di v).

Lemma alter_insert_inode (f : inode → inode) ip v (l : list inode) : l !! ip = Some v → alter f ip l = <[ip := f v]> l.
Proof. intros E. by rewrite (list_alter_insert _ _ _ _ E). Qed.

Lemma wp_ilock W ip v s (Q : unit → kernel → Prop) :
  quiet [] W s → fs_ok s → k_icache s !! ip = Some v → 1 ≤ i_ref v → sl_locked (i_lock v) = false → i_dev v = 1 →
  (i_valid v = false → 0 ≤ i_inum v < sb_ninodes (k_sb s) ∧ di_type (dinode_at s (i_inum v)) ≠ 0) →
  (∀ s', quiet [] W s' → iview s s' →
     k_icache s' = <[ip := locked (p_pid p) (dinode_at s (i_inum v)) v]> (k_icache s) → Q tt s') →
  wp (ilock ip) Q s.
Proof.
  intros Qt F Hs Href Hlk Hdev Hdisk HQ. pose proof (q_st _ _ _ _ _ Qt) as St. pose proof (lookup_lt_Some _ _ _ Hs) as Hlt.
  unfold ilock. apply wp_bind. eapply wp_get_inode; [exact Hs|]. rewrite (proj2 (Z.ltb_ge _ _)) by done.
  apply wp_bind. eapply (wp_acquiresleep _ i p); [apply St|rewrite (st_nolock _ _ _ _ St); apply not_elem_of_nil|
    simpl; rewrite Hs; reflexivity|exact Hlk|].
  simpl put_slk. rewrite (alter_insert_inode _ _ _ _ Hs). set (v1 := set_i_lock _ v). set (s1 := set_k_icache _ s).
  assert (k_icache s1 !! ip = Some v1) as Hs1 by (by apply list_lookup_insert_eq).
  apply wp_bind. eapply wp_get_inode; [exact Hs1|]. unfold locked in HQ. fold v1 in HQ.
  change (i_valid v1) with (i_valid v) in *. destruct (i_valid v); cbn [negb].
  { apply wp_ret, HQ; [by apply quiet_icache|apply iview_set|done]. }
  destruct (Hdisk eq_refl) as [Hin Hty]. change (i_dev v1) with (i_dev v). change (i_inum v1) with (i_inum v). rewrite Hdev.
  assert (quiet [] W s1) as Q1 by (by apply quiet_icache).
  destruct (fs_inode s F (IBLOCK (i_inum v) (k_sb s))) as [Hh _]; [by exists (i_inum v)|].
  apply wp_bind, wp_gets, wp_bind. eapply (quiet_bread i p); [exact Q1|apply Hh|apply not_elem_of_nil|simpl; lia|].
  intros bi s2 Q2 V2. apply wp_bind. eapply (quiet_get_data i p); [exact Q2|left|]. rewrite (sv_lblk _ _ V2).
  change (dinode_get (dinode_off (i_inum v)) (lblk s1 (IBLOCK (i_inum v) (k_sb s1)))) with (dinode_at s (i_inum v)).
  assert (k_icache s2 !! ip = Some v1) as Hs2 by (by rewrite (same_view_icache _ _ V2)).
  apply wp_bind, wp_modify. rewrite (alter_insert_inode _ _ _ _ Hs2). apply wp_bind.
  eapply (quiet_brelse i p); [by apply quiet_icache|]. intros s4 Q4 V4.
  set (v2 := from_dinode (dinode_at s (i_inum v)) v1).
  assert (k_icache s4 = <[ip := v2]> (k_icache s1)) as Hs4.
  { rewrite (same_view_icache _ _ V4). simpl. by rewrite (same_view_icache _ _ V2). }
  assert (k_icache s4 !! ip = Some v2) as Hl4 by (rewrite Hs4; apply list_lookup_insert_eq; simpl; by rewrite length_insert).
  apply wp_bind, wp_modify. rewrite (alter_insert_inode _ _ _ _ Hl4), Hs4. simpl. rewrite !list_insert_insert_eq.
  apply wp_bind. eapply wp_get_inode; [simpl; by apply list_lookup_insert_eq|].
  change (i_type (set_i_valid true v2)) with (di_type (dinode_at s (i_inum v))). rewrite (proj2 (Z.eqb_neq _ _) Hty).
  apply wp_ret, HQ; [by apply quiet_icache| |done].
  eapply iview_trans; [apply (iview_set (k_icache s1))|]. eapply iview_trans; [apply iview_view, V2|].
  eapply iview_trans; [apply iview_set|]. eapply iview_trans; [apply iview_view, V4|apply iview_set].
Qed.

(** The slot after the lock is released. *)
Definition unlocked (v : inode) : inode := set_i_lock (mkSleeplock false 0) v.

Lemma wp_release_inode W ip v s (Q : unit → kernel → Prop) :
  quiet [] W s → k_icache s !! ip = Some v →
  (∀ s', quiet [] W s' → iview s s' → k_icache s' = <[ip := unlocked v]> (k_icache s) → Q tt s') →
  wp (releasesleep (SInode ip)) Q s.
Proof.
  intros Qt Hs HQ. pose proof (st_nolock _ _ _ _ (q_st _ _ _ _ _ Qt)) as Hh.
  eapply wp_releasesleep; [rewrite Hh; apply not_elem_of_nil|rewrite Hh; apply not_elem_of_nil|simpl; rewrite Hs; reflexivity|].
  simpl put_slk. rewrite (alter_insert_inode _ _ _ _ Hs). apply HQ; [by apply quiet_wakeup, quiet_icache| |done].
  eapply iview_trans; [apply iview_set|apply iview_view, same_view_wakeup].
Qed.

Lemma wp_iunlock W ip v s (Q : unit → kernel → Prop) :
  quiet [] W s → k_icache s !! ip = Some v → 1 ≤ i_ref v → i_lock v = mkSleeplock true (p_pid p) →
  (∀ s', quiet [] W s' → iview s s' → k_icache s' = <[ip := unlocked v]> (k_icache s) → Q tt s') →
  wp (iunlock ip) Q s.
Proof.
  intros Qt Hs Href Hlk HQ. pose proof (q_st _ _ _ _ _ Qt) as St. unfold iunlock. apply wp_bind.
  eapply (wp_holdingsleep _ i p); [apply St|rewrite (st_nolock _ _ _ _ St); apply not_elem_of_nil|simpl; rewrite Hs; reflexivity|].
  simpl sl_locked. rewrite Hlk. simpl. rewrite Z.eqb_refl. apply wp_bind. eapply wp_get_inode; [exact Hs|].
  cbn [negb orb]. rewrite (proj2 (Z.ltb_ge _ _)) by done. by eapply wp_release_inode.
Qed.

(** Dropping a reference that does not free the inode. *)
Lemma wp_iput W ip v s (Q : unit → kernel → Prop) :
  quiet [] W s → k_icache s !! ip = Some v → sl_locked (i_lock v) = false →
  (i_valid v = true → i_nlink v = 0 → i_ref v ≠ 1) →
  (∀ s', quiet [] W s' → iview s s' → k_icache s' = <[ip := set_i_ref (i_ref v - 1) (unlocked v)]> (k_icache s) → Q tt s') →
  wp (iput ip) Q s.
Proof.
  intros Qt Hs Hlk Hkeep HQ. pose proof (q_st _ _ _ _ _ Qt) as St. pose proof (st_nolock _ _ _ _ St) as Hh.
  pose proof (lookup_lt_Some _ _ _ Hs) as Hlt. unfold iput.
  apply wp_bind. eapply (wp_acquiresleep _ i p); [apply St|rewrite Hh; apply not_elem_of_nil|simpl; rewrite Hs; reflexivity|exact Hlk|].
  simpl put_slk. rewrite (alter_insert_inode _ _ _ _ Hs). set (v1 := set_i_lock _ v). set (s1 := set_k_icache _ s).
  assert (k_icache s1 !! ip = Some v1) as Hs1 by (by apply list_lookup_insert_eq).
  assert (quiet [] W s1) as Q1 by (by apply quiet_icache).
  apply wp_bind. eapply wp_get_inode; [exact Hs1|]. apply wp_bind.
  assert (∀ Q0 : unit → kernel → Prop, Q0 tt s1 → wp (when (i_valid v1 && (i_nlink v1 =? 0))
    (acquire Licache ;; v ← get_inode ip; let r := i_ref v in release Licache ;;
     when (r =? 1) (itrunc ip ;; upd_inode ip (set_i_type 0) ;; iupdate ip ;; upd_inode ip (set_i_valid false)))) Q0 s1) as Hnofree.
  { intros Q0 H0. destruct (i_valid v1 && (i_nlink v1 =? 0)) eqn:E; [|by apply wp_ret].
    apply andb_true_iff in E as [Ev En%Z.eqb_eq]. apply wp_bind, wp_acquire; [simpl; rewrite Hh; apply not_elem_of_nil|].
    apply wp_bind. eapply wp_get_inode; [exact Hs1|]. apply wp_bind.
    eapply wp_release; [simpl; by rewrite Hh|apply not_elem_of_nil|]. change (i_ref v1) with (i_ref v).
    rewrite (proj2 (Z.eqb_neq _ _)) by (by apply Hkeep). apply wp_ret. destruct s; simpl in *; by subst. }
  apply Hnofree. apply wp_bind. eapply wp_release_inode; [exact Q1|exact Hs1|]. intros s2 Q2 V2 E2.
  pose proof (st_nolock _ _ _ _ (q_st _ _ _ _ _ Q2)) as Hh2.
  assert (k_icache s2 !! ip = Some (unlocked v1)) as Hs2 by (rewrite E2; apply list_lookup_insert_eq; simpl; by rewrite length_insert).
  apply wp_bind, wp_acquire; [rewrite Hh2; apply not_elem_of_nil|]. apply wp_bind, wp_modify.
  eapply wp_release; [simpl; by rewrite Hh2|apply not_elem_of_nil|].
  simpl. rewrite (alter_insert_inode _ _ _ _ Hs2), E2. simpl. rewrite !list_insert_insert_eq.
  replace (set_k_held [] _) with (set_k_icache (<[ip := set_i_ref (i_ref v - 1) (unlocked v)]> (k_icache s)) s2)
    by (destruct s2; simpl in *; by subst).
  apply HQ; [by apply quiet_icache| |done].
  eapply iview_trans; [apply (iview_set (k_icache s1))|]. eapply iview_trans; [exact V2|apply iview_set].
Qed.
End Ops.

(** ** The cache's invariant *)

(** Slot [v] holds a reference to inode [inum] of device [dev]. *)
Definition caches_inode (dev inum : Z) (v : inode) : Prop := 0 < i_ref v ∧ i_dev v = dev ∧ i_inum v = inum.

(** No inode is cached twice, and reference counts are not negative. *)
Record icache_ok (l : list inode) : Prop := {
  ic_ref : ∀ j v, l !! j = Some v → 0 ≤ i_ref v;
  ic_uniq : ∀ j k v w, l !! j = Some v → l !! k = Some w → 0 < i_ref v → caches_inode (i_dev v) (i_inum v) w → j = k }.

Section Invariant.
Implicit Types (l : list inode) (v w : inode).

Lemma iget_scan_spec l b empty dev inum :
  match iget_scan l b empty dev inum with
  | inl j => ∃ k v, j = (b + k)%nat ∧ l !! k = Some v ∧ caches_inode dev inum v
  | inr o => (∀ k v, l !! k = Some v → ¬ caches_inode dev inum v) ∧
      match empty with
      | Some e => o = Some e
      | None =>
          match o with
          | Some j => ∃ k v, j = (b + k)%nat ∧ l !! k = Some v ∧ i_ref v = 0
          | None => ∀ k v, l !! k = Some v → i_ref v ≠ 0
          end
      end
  end.
Proof.
  revert b empty. induction l as [|x l IH]; intros b empty; simpl.
  { split; [intros k v Hk; by rewrite lookup_nil in Hk|]. destruct empty; [done|]. intros k v Hk. by rewrite lookup_nil in Hk. }
  destruct ((i_ref x >? 0) && (i_dev x =? dev) && (i_inum x =? inum)) eqn:E.
  { exists 0%nat, x. rewrite Nat.add_0_r. split; [done|]. split; [done|]. rewrite !andb_true_iff, Z.gtb_ltb, Z.ltb_lt, !Z.eqb_eq in E.
    split; [lia|]. naive_solver. }
  assert (¬ caches_inode dev inum x) as Hx.
  { intros (H1 & H2 & H3). rewrite H2, H3, !Z.eqb_refl, Z.gtb_ltb, (proj2 (Z.ltb_lt _ _)) in E by lia. done. }
  set (empty' := match empty with None => _ | Some _ => empty end). specialize (IH (S b) empty').
  destruct (iget_scan l (S b) empty' dev inum) as [j|o].
  - destruct IH as (k & v & -> & Hk & Hv). exists (S k), v. split; [lia|]. by split.
  - destruct IH as [H1 H2]. split.
    + intros [|k] v Hk; [by injection Hk as <-|by eapply H1].
    + subst empty'. destruct empty as [e|]; [done|]. destruct (Z.eqb_spec (i_ref x) 0) as [E0|E0].
      * subst o. exists 0%nat, x. split; [lia|]. by split.
      * destruct o as [j|].
        -- destruct H2 as (k & v & -> & Hk & Hv). exists (S k), v. split; [lia|]. by split.
        -- intros [|k] v Hk; [by injection Hk as <-|by eapply H2].
Qed.

(** [iget] of a cached inode finds its slot. *)
Lemma iget_hit l j v : icache_ok l → l !! j = Some v → 0 < i_ref v →
  iget_table l (i_dev v) (i_inum v) = Some (j, <[j := set_i_ref (i_ref v + 1) v]> l).
Proof.
  intros [_ U] Hj Hr. unfold iget_table. pose proof (iget_scan_spec l 0 None (i_dev v) (i_inum v)) as Hs.
  destruct (iget_scan l 0 None (i_dev v) (i_inum v)) as [k|o].
  - destruct Hs as (k' & w & -> & Hk & Hw). simpl. assert (j = k') as -> by (by eapply U).
    assert (w = v) as -> by congruence. by rewrite (alter_insert_inode _ _ _ _ Hj).
  - destruct Hs as [Hno _]. exfalso. eapply Hno; [exact Hj|done].
Qed.

(** The three ways [iget] changes the cache, and that it fails only when full. *)
Lemma iget_table_spec l dev inum :
  icache_ok l →
  match iget_table l dev inum with
  | Some (j, l') => icache_ok l' ∧ ∃ v v', l !! j = Some v ∧ l' = <[j := v']> l ∧ caches_inode dev inum v' ∧
      i_ref v' = i_ref v + 1 ∧ i_lock v' = i_lock v ∧
      ((v' = set_i_ref (i_ref v + 1) v ∧ 0 < i_ref v) ∨
       (i_ref v = 0 ∧ i_valid v' = false ∧ ∀ k w, l !! k = Some w → ¬ caches_inode dev inum w))
  | None => ∀ k v, l !! k = Some v → 0 < i_ref v
  end.
Proof.
  intros [R U]. unfold iget_table. pose proof (iget_scan_spec l 0 None dev inum) as Hs.
  destruct (iget_scan l 0 None dev inum) as [j|[j|]].
  - destruct Hs as (k & v & -> & Hk & Hv). simpl. rewrite (alter_insert_inode _ _ _ _ Hk).
    pose proof (lookup_lt_Some _ _ _ Hk) as Hlt. destruct Hv as (V1 & V2 & V3).
    split; [split|].
    + intros j w [(<- & <- & _)|(_ & Hw)]%list_lookup_insert_Some; [simpl; lia|by eapply R].
    + intros a b x y [(<- & <- & _)|(Ha & Hx)]%list_lookup_insert_Some [(<- & <- & _)|(Hb & Hy)]%list_lookup_insert_Some Hxr Hc;
        [done| | |by eapply U].
      * by eapply U; [exact Hk|exact Hy|done|].
      * destruct Hc as (C1 & C2 & C3). eapply U; [exact Hx|exact Hk|done|]. by split.
    + exists v, (set_i_ref (i_ref v + 1) v). split_and!; try done; [split_and!; simpl; [lia|done..]|]. by left.
  - destruct Hs as (Hno & k & v & -> & Hk & Hv). simpl. rewrite (alter_insert_inode _ _ _ _ Hk).
    pose proof (lookup_lt_Some _ _ _ Hk) as Hlt. split; [split|].
    + intros j w [(<- & <- & _)|(_ & Hw)]%list_lookup_insert_Some; [simpl; lia|by eapply R].
    + intros a b x y [(<- & <- & _)|(Ha & Hx)]%list_lookup_insert_Some [(<- & <- & _)|(Hb & Hy)]%list_lookup_insert_Some Hxr Hc;
        [done| | |by eapply U].
      * exfalso. by eapply Hno.
      * exfalso. destruct Hc as (_ & C2 & C3). eapply Hno; [exact Hx|]. by split.
    + eexists v, _. split_and!; try done; [simpl; lia|]. right. split; [done|]. split; [done|]. exact Hno.
  - destruct Hs as [_ Hfull]. intros k v Hk. pose proof (R k v Hk). pose proof (Hfull k v Hk). lia.
Qed.

(** Dropping a reference, and changing anything but the identity of a slot. *)
Lemma icache_ok_upd l j v v' :
  icache_ok l → l !! j = Some v → 0 ≤ i_ref v' ≤ i_ref v → i_dev v' = i_dev v → i_inum v' = i_inum v → icache_ok (<[j := v']> l).
Proof.
  intros [R U] Hj Hr Hd Hi. pose proof (lookup_lt_Some _ _ _ Hj) as Hlt. split.
  - intros k w [(<- & <- & _)|(_ & Hw)]%list_lookup_insert_Some; [lia|by eapply R].
  - intros a b x y [(<- & <- & _)|(Ha & Hx)]%list_lookup_insert_Some [(<- & <- & _)|(Hb & Hy)]%list_lookup_insert_Some Hxr Hc;
      [done| | |by eapply U].
    + eapply U; [exact Hj|exact Hy|lia|]. by rewrite <- Hd, <- Hi.
    + destruct Hc as (C1 & C2 & C3). eapply U; [exact Hx|exact Hj|done|]. split; [lia|]. split; congruence.
Qed.
End Invariant.

Lemma panics_iget_full dev inum s : k_held s = [] → iget_table (k_icache s) dev inum = None → panics (iget dev inum) "iget: no inodes" s.
Proof.
  intros Hh E. unfold iget. apply panics_bind, wp_acquire; [rewrite Hh; apply not_elem_of_nil|].
  apply panics_bind, wp_gets. change (k_icache (set_k_held (Licache :: k_held s) s)) with (k_icache s).
  unfold iget_table in E. by destruct (iget_scan (k_icache s) 0 None dev inum) as [k|[k|]].
Qed.


Lemma demo_icache_ok : icache_ok demo_icache.
Proof.
  assert (∀ j v, demo_icache !! j = Some v → j = 0%nat ∧ v = demo_inode 2 demo_file ∨ j = 1%nat ∧ v = demo_inode 1 demo_root ∨ i_ref v = 0) as Hc.
  { intros [|[|j]] v Hv; [left; by injection Hv as <-|right; left; by injection Hv as <-|right; right].
    unfold demo_icache in Hv. cbn [lookup list_lookup] in Hv. by apply lookup_replicate in Hv as [-> _]. }
  split.
  - intros j v Hv. destruct (Hc j v Hv) as [[_ ->]|[[_ ->]| ->]]; done.
  - intros j k v w Hv Hw Hr (H1 & H2 & H3).
    destruct (Hc j v Hv) as [[-> ->]|[[-> ->]|E]], (Hc k w Hw) as [[-> ->]|[[-> ->]|E']]; try done; lia.
Qed.

