(* ===== verification/Dirs.v ===== *)
(** * Dirs: directories

    A directory's contents as a table of entries.  [dirlookup] finds the first
    entry with a name and [dirlink] adds one: what was linked is found, and no
    other name is affected. *)

From S2P Require Import Prelude State Strings Lock Bio BufSpec Log Inode Devs Fs Txn Blocks DemoFs FsData Dinode FsFile Icache.

#[local] Arguments Nat.div : simpl never.
#[local] Arguments Nat.modulo : simpl never.

(** ** Tables of entries *)

Definition chunk16 (k : nat) (c : list Z) : list Z := slice (16 * k) 16 c.
(** The search of [dirlookup] among [n] entries from entry [k] on. *)
Fixpoint find_entry (n k : nat) (name c : list Z) : option (Z * nat) :=
  match n with
  | O => None
  | S n' =>
      let de := chunk16 k c in
      if de_inum de =? 0 then find_entry n' (S k) name c
      else if decide (field DIRSIZ name = field DIRSIZ (de_name de)) then Some (de_inum de, k)
      else find_entry n' (S k) name c
  end.
Definition dir_lookup (c name : list Z) : option (Z * nat) := find_entry (length c / 16) 0 name c.
(** The search of [dirlink]: the first unused entry, or the end. *)
Fixpoint find_empty (n k : nat) (c : list Z) : nat :=
  match n with
  | O => k
  | S n' => if de_inum (chunk16 k c) =? 0 then k else find_empty n' (S k) c
  end.
Definition dir_empty (c : list Z) : nat := find_empty (length c / 16) 0 c.
(** The entry [dirlink] writes. *)
Definition entry_bytes (inum : Z) (name : list Z) : list Z :=
  le_put 2 inum ++ take DIRSIZ (field DIRSIZ name ++ replicate DIRSIZ 0).

Section Table.
Implicit Types c name : list Z.

Lemma length_entry inum name : length (entry_bytes inum name) = 16%nat.
Proof.
  unfold entry_bytes. rewrite length_app, length_le_put, length_take, length_app, length_replicate. unfold DIRSIZ. lia.
Qed.
Lemma upto0_nz s : Forall (λ x, x ≠ 0) (upto0 s).
Proof. induction s as [|x s IH]; simpl; [constructor|]. destruct (Z.eqb_spec x 0); [constructor|by constructor]. Qed.
Lemma length_upto0 s : (length (upto0 s) ≤ length s)%nat.
Proof. induction s as [|x s IH]; simpl; [done|]. destruct (x =? 0); simpl; lia. Qed.
Lemma length_field n s : (length (field n s) ≤ n)%nat.
Proof. unfold field. pose proof (length_upto0 (take n s)). rewrite length_take in *. lia. Qed.

Lemma entry_inum inum name : 0 ≤ inum < 2 ^ 16 → de_inum (entry_bytes inum name) = inum.
Proof.
  intros Hi. unfold de_inum, get16, slice, entry_bytes. rewrite drop_0, take_app_length' by (by rewrite length_le_put).
  by apply le_get_put.
Qed.
Lemma entry_name inum name : field DIRSIZ (de_name (entry_bytes inum name)) = field DIRSIZ name.
Proof.
  unfold de_name, entry_bytes. rewrite drop_app_length' by (by rewrite length_le_put).
  pose proof (field_strncpy DIRSIZ (field DIRSIZ name) [] (upto0_nz _)) as E. rewrite app_nil_r in E. rewrite E.
  apply take_ge, length_field.
Qed.

Lemma chunk_splice k j de c : length de = 16%nat → (16 * k ≤ length c)%nat →
  chunk16 j (splice (16 * k) de c) = if decide (j = k) then de else chunk16 j c.
Proof.
  intros Hde Hk. unfold chunk16. case_decide as E.
  - subst j. unfold slice, splice. rewrite drop_app_length' by (rewrite length_take; lia).
    by rewrite take_app_length' by done.
  - apply slice_ext. intros x Hx. destruct (decide (x < 16 * k)%nat); [apply lookup_splice_lt|apply lookup_splice_ge]; lia.
Qed.

Lemma find_empty_spec n k c :
  (k ≤ find_empty n k c ≤ k + n)%nat ∧ (∀ j, (k ≤ j < find_empty n k c)%nat → de_inum (chunk16 j c) ≠ 0) ∧
  ((find_empty n k c < k + n)%nat → de_inum (chunk16 (find_empty n k c) c) = 0).
Proof.
  revert k. induction n as [|n IH]; intros k; simpl; [split_and!; intros; lia|]. destruct (Z.eqb_spec (de_inum (chunk16 k c)) 0) as [E|E].
  - split; [lia|]. split; [lia|done].
  - destruct (IH (S k)) as (H1 & H2 & H3). split; [lia|]. split; [|intros; apply H3; lia].
    intros j Hj. destruct (decide (j = k)) as [->|]; [done|]. apply H2. lia.
Qed.

(** Searching a table that differs only in entry [e]. *)
Lemma find_entry_ext n k name c c' e :
  (∀ j, (k ≤ j < k + n)%nat → j ≠ e → chunk16 j c' = chunk16 j c) →
  (de_inum (chunk16 e c') = 0 ∨ field DIRSIZ name ≠ field DIRSIZ (de_name (chunk16 e c'))) →
  (de_inum (chunk16 e c) = 0 ∨ field DIRSIZ name ≠ field DIRSIZ (de_name (chunk16 e c))) →
  find_entry n k name c' = find_entry n k name c.
Proof.
  revert k. induction n as [|n IH]; intros k Hc H1 H2; [done|]. simpl.
  rewrite (IH (S k)) by (done || intros; apply Hc; lia). destruct (decide (k = e)) as [->|Hne].
  - destruct (Z.eqb_spec (de_inum (chunk16 e c')) 0), (Z.eqb_spec (de_inum (chunk16 e c)) 0); try done.
    + rewrite decide_False; [done|]. by destruct H2.
    + rewrite decide_False; [done|]. by destruct H1.
    + rewrite !decide_False; [done|by destruct H2|by destruct H1].
  - by rewrite Hc by (done || lia).
Qed.
Lemma find_entry_app n m k name c :
  find_entry (n + m) k name c = match find_entry n k name c with Some r => Some r | None => find_entry m (k + n) name c end.
Proof.
  revert k. induction n as [|n IH]; intros k; simpl; [by rewrite Nat.add_0_r|].
  rewrite IH. replace (S k + n)%nat with (k + S n)%nat by lia. repeat case_match; congruence.
Qed.
Lemma find_entry_none n k name c :
  find_entry n k name c = None ↔ ∀ j, (k ≤ j < k + n)%nat →
    de_inum (chunk16 j c) = 0 ∨ field DIRSIZ name ≠ field DIRSIZ (de_name (chunk16 j c)).
Proof.
  revert k. induction n as [|n IH]; intros k; simpl; [split; [intros _ j Hj; lia|done]|].
  destruct (Z.eqb_spec (de_inum (chunk16 k c)) 0) as [E|E].
  - rewrite IH. split; intros H j Hj; [|apply H; lia]. destruct (decide (j = k)) as [->|]; [by left|apply H; lia].
  - case_decide as En.
    + split; [done|]. intros H. destruct (H k ltac:(lia)); done.
    + rewrite IH. split; intros H j Hj; [|apply H; lia]. destruct (decide (j = k)) as [->|]; [by right|apply H; lia].
Qed.

(** Adding an entry for a new name. *)
Lemma dir_added c name inum :
  (16 * (length c / 16) = length c)%nat → 0 < inum < 2 ^ 16 → dir_lookup c name = None →
  let c' := splice (16 * dir_empty c) (entry_bytes inum name) c in
  dir_lookup c' name = Some (inum, dir_empty c) ∧
  (∀ name', field DIRSIZ name' ≠ field DIRSIZ name → dir_lookup c' name' = dir_lookup c name') ∧
  (16 * (length c' / 16) = length c')%nat.
Proof.
  intros Hlen Hi Hnone c'. unfold dir_empty in *. pose proof (find_empty_spec (length c / 16) 0 c) as (E1 & E2 & E3).
  set (n := (length c / 16)%nat) in *. set (e := find_empty n 0 c) in *. simpl in E1, E3.
  assert (∀ j, chunk16 j c' = if decide (j = e) then entry_bytes inum name else chunk16 j c) as Hch.
  { intros j. apply chunk_splice; [apply length_entry|lia]. }
  assert (length c' = 16 * (n `max` S e))%nat as Hl'.
  { unfold c', splice. rewrite !length_app, length_take, length_drop, length_entry. lia. }
  assert (length c' / 16 = n `max` S e)%nat as Hn' by (rewrite Hl', Nat.mul_comm; apply Nat.div_mul; lia).
  unfold dir_lookup in *. fold n in Hnone |- *. rewrite Hn'. rewrite find_entry_none in Hnone.
  split_and!; [|..|lia].
  - replace (n `max` S e)%nat with (e + S (n `max` S e - S e))%nat by lia. rewrite find_entry_app.
    replace (find_entry e 0 name c') with (@None (Z * nat)).
    2: { symmetry. apply find_entry_none. intros j Hj. rewrite Hch, decide_False by lia. apply Hnone. lia. }
    cbn [find_entry Nat.add]. rewrite Hch, decide_True by done. rewrite entry_inum, (proj2 (Z.eqb_neq _ _)) by lia.
    by rewrite decide_True by (by rewrite entry_name).
  - intros name' Hne. destruct (decide (e < n)%nat) as [He|He].
    + replace (n `max` S e)%nat with n by lia. apply (find_entry_ext _ _ _ _ _ e).
      * intros j _ Hj. by rewrite Hch, decide_False.
      * right. rewrite Hch, decide_True by done. by rewrite entry_name.
      * left. apply E3. lia.
    + assert (e = n) as He' by lia. replace (n `max` S e)%nat with (n + 1)%nat by lia. rewrite find_entry_app.
      replace (find_entry n 0 name' c') with (find_entry n 0 name' c).
      2: { clear -Hch He'. assert (∀ k m, (k + m ≤ n)%nat → find_entry m k name' c = find_entry m k name' c') as Hg; [|by apply Hg].
           intros k m. revert k. induction m as [|m IH]; intros k Hk; [done|]. simpl.
           rewrite (IH (S k)) by lia. rewrite (Hch k), (decide_False (P := k = e)) by lia. done. }
      destruct (find_entry n 0 name' c); [done|]. simpl. rewrite Hch, decide_True by lia.
      rewrite entry_name, (decide_False (P := field _ _ = _)) by done. by destruct (_ =? 0).
Qed.
End Table.

(** ** dirlookup *)

(** The contents of a directory: whole entries. *)
Record dirfile_ok (s : kernel) (v : inode) : Prop := {
  dr_file : file_ok s v;
  dr_type : i_type v = T_DIR;
  dr_whole : (16 * (length (contents s v) / 16) = length (contents s v))%nat }.

Section Lookup.
Context `{WaitBound}.
Context (i : nat) (p : proc) (dp : nat).
Implicit Types (s : kernel) (v : inode) (W : list Z) (name : list Z).
#[local] Abbreviation quiet := (quiet i p).
#[local] Abbreviation rctx := (rctx i p dp).

Lemma file_rctx W s v : quiet [] W s → fs_ok s → k_icache s !! dp = Some v → file_ok s v → rctx W s v.
Proof.
  intros Q F Hs [B T Z Hf]. split; [done|done|apply B|apply B|]. intros q Hq Hq0.
  destruct (kb_used s v B q Hq Hq0) as [Hd _]. apply data_in_range in Hd. pose proof (fs_size s F). lia.
Qed.

Lemma wp_namecmp name de s (Q : Z → kernel → Prop) :
  readable DIRSIZ name → length de = 16%nat →
  (∀ r, (r = 0 ↔ field DIRSIZ name = field DIRSIZ (de_name de)) → Q r s) → wp (namecmp name (de_name de)) Q s.
Proof.
  intros Hn Hde HQ. destruct (strncmp_spec DIRSIZ name (de_name de) Hn) as (r & E & Hr).
  { left. unfold de_name. rewrite length_drop, Hde. unfold DIRSIZ. lia. }
  unfold namecmp. eapply wp_deref; [exact E|]. by apply HQ.
Qed.

(** Reading entry [k] of the directory. *)
Lemma wp_read_entry W s v k (Q : list Z * Z → kernel → Prop) :
  rctx W s v → dirfile_ok s v → (16 * S k ≤ length (contents s v))%nat →
  (∀ s', rctx W s' v → same_view s s' → Q (chunk16 k (contents s v), 16) s') →
  wp (readi dp (16 * Z.of_nat k) 16) Q s.
Proof.
  intros R [F T Hw] Hk HQ. pose proof (fo_size _ _ F) as Hsz. change (MAXFILE * BSIZE) with 71680 in Hsz.
  pose proof (length_contents s v ltac:(lia)) as Hl.
  eapply (wp_readi i p); [exact R|apply F|done|apply F|lia|lia|]. intros s' Q' V. unfold readi_result.
  rewrite u32_small, Z.gtb_ltb, (proj2 (Z.ltb_ge _ _)), (proj2 (Z.ltb_ge (16 * Z.of_nat k + 16) _)) by lia. cbn [orb].
  replace (Z.to_nat (16 * Z.of_nat k)) with (16 * k)%nat by lia. rewrite Z.min_l by lia.
  apply HQ; [|done]. by eapply rctx_view.
Qed.

Lemma wp_dirlookup_loop fuel W s v name k (Q : option (nat * Z) → kernel → Prop) :
  rctx W s v → dirfile_ok s v → readable DIRSIZ name → let c := contents s v in let n := (length c / 16)%nat in
  (k ≤ n)%nat → (n - k < fuel)%nat →
  (find_entry (n - k) k name c = None → ∀ s', rctx W s' v → same_view s s' → Q None s') →
  (∀ inum e, find_entry (n - k) k name c = Some (inum, e) → ∀ s', rctx W s' v → same_view s s' →
     wp (ip ← iget 1 inum; mret (Some (ip, 16 * Z.of_nat e))) Q s') →
  wp (dirlookup_loop fuel dp name (16 * Z.of_nat k)) Q s.
Proof.
  intros R D Hname c n. revert s R D k c n. induction fuel as [|fuel IH]; intros s R D k c n Hk Hfuel HN HS; [lia|].
  pose proof (fo_size _ _ (dr_file _ _ D)) as Hsz. change (MAXFILE * BSIZE) with 71680 in Hsz.
  pose proof (length_contents s v ltac:(lia)) as Hl. pose proof (dr_whole _ _ D) as Hw. fold c in Hl, Hw. fold n in Hw.
  cbn [dirlookup_loop]. apply wp_bind. eapply wp_get_inode; [apply R|].
  destruct (decide (k = n)) as [E|E].
  { rewrite (proj2 (Z.ltb_ge _ _)) by lia. apply wp_ret. apply HN; [by rewrite E, Nat.sub_diag|done|apply same_view_refl]. }
  rewrite (proj2 (Z.ltb_lt _ _)) by lia. replace (n - k)%nat with (S (n - S k)) in HN, HS by lia. cbn [find_entry] in HN, HS.
  apply wp_bind. eapply wp_read_entry; [exact R|done|fold c; lia|]. intros s1 R1 V1. fold c. cbn [fst snd].
  change (16 =? DIRENTSIZE) with true. cbn [negb]. set (de := chunk16 k c) in *.
  assert (contents s1 v = c) as Ec by (apply contents_view, V1).
  assert (dirfile_ok s1 v) as D1.
  { destruct D as [D1 D2 D3]. split; [by eapply iview_file_ok; [apply iview_view|]|done|by rewrite Ec]. }
  assert (length de = 16%nat) as Hde by (apply length_slice; lia).
  assert ((find_entry (n - S k) (S k) name c = None → ∀ s', rctx W s' v → same_view s s' → Q None s') →
    (∀ inum e, find_entry (n - S k) (S k) name c = Some (inum, e) → ∀ s', rctx W s' v → same_view s s' →
     wp (ip ← iget 1 inum; mret (Some (ip, 16 * Z.of_nat e))) Q s') →
    wp (dirlookup_loop fuel dp name (u32 (16 * Z.of_nat k + DIRENTSIZE))) Q s1) as Hnext.
  { intros HN' HS'. change DIRENTSIZE with 16. rewrite u32_small by lia.
    replace (16 * Z.of_nat k + 16) with (16 * Z.of_nat (S k)) by lia.
    apply (IH s1 R1 D1 (S k)); rewrite Ec; fold n; [lia|lia| |].
    - intros Ef s' R' V'. apply HN'; [done|done|by eapply same_view_trans].
    - intros inum e Ef s' R' V'. apply (HS' inum e Ef); [done|by eapply same_view_trans]. }
  destruct (de_inum de =? 0); [by apply Hnext|].
  apply wp_bind, wp_namecmp; [done|done|]. intros r Hr. destruct (Z.eqb_spec r 0) as [Er|Er].
  - rewrite decide_True in HS by (by apply Hr). rewrite (rc_dev _ _ _ _ _ _ R).
    by apply (HS (de_inum de) k eq_refl).
  - rewrite decide_False in HN, HS by (by rewrite <- Hr). by apply Hnext.
Qed.

Lemma wp_dirlookup W s v name (Q : option (nat * Z) → kernel → Prop) :
  rctx W s v → dirfile_ok s v → readable DIRSIZ name →
  (dir_lookup (contents s v) name = None → ∀ s', rctx W s' v → same_view s s' → Q None s') →
  (∀ inum e, dir_lookup (contents s v) name = Some (inum, e) → ∀ s', rctx W s' v → same_view s s' →
     wp (ip ← iget 1 inum; mret (Some (ip, 16 * Z.of_nat e))) Q s') →
  wp (dirlookup dp name) Q s.
Proof.
  intros R D Hname HN HS. pose proof (fo_size _ _ (dr_file _ _ D)) as Hsz.
  pose proof (length_contents s v ltac:(lia)) as Hl. pose proof (dr_whole _ _ D) as Hw.
  unfold dirlookup. apply wp_bind. eapply wp_get_inode; [apply R|]. rewrite (dr_type _ _ D). simpl negb. cbn iota.
  apply (wp_dirlookup_loop _ W s v name 0); [done|done|done|lia| |by rewrite Nat.sub_0_r..].
  rewrite Nat.sub_0_r, <- Hl. change DIRENTSIZE with (Z.of_nat 16). rewrite <- Nat2Z.inj_div. lia.
Qed.

(** The loop of [dirlink] finds the first unused entry. *)
Lemma wp_dirlink_loop fuel W s v k (Q : Z → kernel → Prop) :
  rctx W s v → dirfile_ok s v → let c := contents s v in let n := (length c / 16)%nat in
  (k ≤ n)%nat → (n - k < fuel)%nat →
  (∀ s', rctx W s' v → same_view s s' → Q (16 * Z.of_nat (find_empty (n - k) k c)) s') →
  wp (dirlink_loop fuel dp (16 * Z.of_nat k)) Q s.
Proof.
  intros R D c n. revert s R D k c n. induction fuel as [|fuel IH]; intros s R D k c n Hk Hfuel HQ; [lia|].
  pose proof (fo_size _ _ (dr_file _ _ D)) as Hsz. pose proof (length_contents s v ltac:(lia)) as Hl.
  pose proof (dr_whole _ _ D) as Hw. fold c in Hl, Hw. fold n in Hw.
  cbn [dirlink_loop]. apply wp_bind. eapply wp_get_inode; [apply R|].
  destruct (decide (k = n)) as [E|E].
  { rewrite (proj2 (Z.ltb_ge _ _)) by lia. apply wp_ret. rewrite E, Nat.sub_diag in HQ. rewrite E. apply HQ; [done|apply same_view_refl]. }
  rewrite (proj2 (Z.ltb_lt _ _)) by lia. replace (n - k)%nat with (S (n - S k)) in HQ by lia. cbn [find_empty] in HQ.
  apply wp_bind. eapply wp_read_entry; [exact R|done|fold c; lia|]. intros s1 R1 V1. fold c. cbn [fst snd].
  change (16 =? DIRENTSIZE) with true. cbn [negb].
  assert (contents s1 v = c) as Ec by (apply contents_view, V1).
  assert (dirfile_ok s1 v) as D1.
  { destruct D as [D1 D2 D3]. split; [by eapply iview_file_ok; [apply iview_view|]|done|by rewrite Ec]. }
  destruct (de_inum (chunk16 k c) =? 0); [apply wp_ret; by apply HQ|].
  change DIRENTSIZE with 16. replace (16 * Z.of_nat k + 16) with (16 * Z.of_nat (S k)) by lia.
  apply (IH s1 R1 D1 (S k)); rewrite Ec; fold n; [lia|lia|].
  intros s' R' V'. apply HQ; [done|by eapply same_view_trans].
Qed.
End Lookup.

(** ** dirlink *)

Section Link.
Context `{WaitBound}.

(** The effect of [dirlink] on the directory [v], now [v']. *)
Record linked s (v : inode) name inum s' v' : Prop := {
  ln_dir : dirfile_ok s' v';
  ln_found : dir_lookup (contents s' v') name = Some (inum, dir_empty (contents s v));
  ln_others : ∀ name', field DIRSIZ name' ≠ field DIRSIZ name →
    dir_lookup (contents s' v') name' = dir_lookup (contents s v) name' }.

Lemma nblk_entry e : nblk (16 * e) 16 = 1%nat.
Proof.
  unfold nblk. rewrite decide_False by done. assert ((16 * e) mod 512 ≤ 496)%nat.
  { pose proof (Nat.div_mod (16 * e) 512 ltac:(lia)). pose proof (Nat.mod_upper_bound (16 * e) 512 ltac:(lia)). lia. }
  symmetry. apply (Nat.div_unique _ 512 1 ((16 * e) mod 512 + 15)); lia.
Qed.

Lemma wp_dirlink i p W s dp v name inum (Q : Z → kernel → Prop) :
  fctx i p dp W s v → dirfile_ok s v → inode_ok s v → readable DIRSIZ name → 0 < inum < 2 ^ 16 →
  dir_lookup (contents s v) name = None → i_size v + 16 ≤ MAXFILE * BSIZE →
  Z.of_nat (load W v) + 3 ≤ TXMAX → (2 ≤ supply s v)%nat →
  (∀ W' s' v', fctx i p dp W' s' v' → written dp s v (16 * dir_empty (contents s v)) (entry_bytes inum name) s' v' →
     linked s v name inum s' v' → (length W' ≤ load W v + 2)%nat → Q 0 s') →
  wp (dirlink dp name inum) Q s.
Proof.
  intros C D I Hname Hinum Hnone Hsz HW Hsup HQ. pose proof (fo_size _ _ (dr_file _ _ D)) as Hs0.
  change (MAXFILE * BSIZE) with 71680 in *. pose proof (length_contents s v ltac:(lia)) as Hl. pose proof (dr_whole _ _ D) as Hw.
  assert (rctx i p dp W s v) as R by (eapply file_rctx; [apply (fc_tx C)|apply C|apply C|apply D]).
  unfold dirlink. apply wp_bind. eapply (wp_dirlookup i p); [exact R|done|done| |].
  2: { intros x e Ex. by rewrite Hnone in Ex. }
  intros _ s1 R1 V1. assert (contents s1 v = contents s v) as Ec by (apply contents_view, V1).
  assert (dirfile_ok s1 v) as D1.
  { destruct D as [D1 D2 D3]. split; [by eapply iview_file_ok; [apply iview_view|]|done|by rewrite Ec]. }
  apply wp_bind. eapply wp_get_inode; [apply R1|]. apply wp_bind.
  apply (wp_dirlink_loop i p dp _ W s1 v 0); [done|done|lia| |].
  { rewrite Ec, Nat.sub_0_r, <- Hl. change DIRENTSIZE with (Z.of_nat 16). rewrite <- Nat2Z.inj_div. lia. }
  intros s2 R2 V2. rewrite Ec, Nat.sub_0_r. set (c := contents s v) in *. fold (dir_empty c).
  pose proof (same_view_trans _ _ _ V1 V2) as V. set (e := dir_empty c).
  assert (e ≤ length c / 16)%nat as He by (destruct (find_empty_spec (length c / 16) 0 c) as (? & _); unfold e, dir_empty; lia).
  apply wp_bind. eapply wp_deref; [apply strncpy_field; [done|by rewrite length_replicate]|].
  rewrite drop_ge, app_nil_r by (by rewrite length_replicate). fold (entry_bytes inum name).
  assert (iview s s2) as IV by (by apply iview_view).
  assert (fctx i p dp W s2 v) as C2.
  { split; [eapply tx_view; [apply (fc_tx C)|apply R2|done]|by eapply iview_fs_ok; [|apply C]|apply R2| |].
    - apply (iview_file_ok _ _ _ IV), D.
    - intros n Hn. apply (fc_bmap C). by apply (fs_only_bmap_blk _ _ _ (iview_fs_only _ _ IV)). }
  assert (contents s2 v = c) as Ec2 by (apply contents_view, V).
  assert (file_ok s2 v) as F2 by (apply (iview_file_ok _ _ _ IV), D).
  assert (inode_ok s2 v) as I2 by (by apply (iview_inode_ok _ _ _ IV)).
  apply wp_bind. replace (16 * Z.of_nat e) with (Z.of_nat (16 * e)) by lia.
  replace DIRENTSIZE with (Z.of_nat (length (entry_bytes inum name))) by (by rewrite length_entry).
  eapply (wp_writei i p dp W); [exact C2|done|done|lia|rewrite length_entry; lia|rewrite length_entry, nblk_entry; lia| |].
  { rewrite length_entry, nblk_entry, (iview_supply _ _ _ IV). lia. }
  intros W' s' v' Hwr C' HW'. rewrite length_entry, nblk_entry in HW'. rewrite length_entry. simpl negb. cbn iota. apply wp_ret.
  destruct (dir_added c name inum Hw Hinum Hnone) as (A1 & A2 & A3). fold e in A1, A2, A3.
  pose proof (wn_contents _ _ _ _ _ _ _ Hwr) as Ec'. rewrite Ec2 in Ec'.
  apply (HQ W' s' v'); [done| | |lia].
  - eapply written_view; [exact IV|by apply same_view_icache|done].
  - split.
    + split; [apply Hwr| |by rewrite Ec'].
      destruct (wn_inode _ _ _ _ _ _ _ Hwr) as [a ->]. apply D.
    + by rewrite Ec'.
    + intros name' Hne. rewrite Ec'. by apply A2.
Qed.
End Link.

(** ** The root directory of the example machine *)

Definition demo_rootnode : inode := demo_inode 1 demo_root.
Lemma demo_root_blk q : (q < NPOS)%nat → blk demo_fs demo_rootnode q = if decide (q = 0)%nat then 34 else 0.
Proof.
  intros Hq. unfold blk. case_decide as H12; [|by rewrite decide_False by lia].
  do 13 (destruct q as [|q]; [reflexivity|]). lia.
Qed.
Lemma demo_root_contents : contents demo_fs demo_rootnode = take 48 (demo_fsblock 34).
Proof.
  unfold contents. change (Z.to_nat (i_size demo_rootnode)) with 48%nat.
  rewrite <- (demo_fs_lblk 34) by lia. pose proof (chunk_bytes demo_fs demo_rootnode 0 48) as H.
  change (0 / 512)%nat with 0%nat in H. change (blk demo_fs demo_rootnode (fpos 0)) with 34 in H.
  change (0 mod 512)%nat with 0%nat in H. rewrite <- H; [done|lia|]. rewrite demo_fs_lblk by lia. apply demo_fsblock_len.
Qed.
Lemma demo_dir_ok : dirfile_ok demo_fs demo_rootnode.
Proof.
  assert (isfree demo_fs 34 = false) as F1 by (by rewrite demo_fs_isfree).
  split; [split|done|by rewrite demo_root_contents].
  - split; [done|done| |].
    + intros q Hq. rewrite demo_root_blk by done. case_decide; [intros _; split; [apply demo_fs_data; lia|done]|done].
    + intros q r Hq Hr. rewrite !demo_root_blk by done. repeat case_decide; subst; done.
  - done.
  - simpl. change (MAXFILE * BSIZE) with 71680. lia.
  - intros k Hk. change (Z.to_nat (i_size demo_rootnode)) with 48%nat in Hk. assert (k = 0)%nat as -> by lia. done.
Qed.
Lemma demo_root_slot : k_icache demo_fs !! 1%nat = Some demo_rootnode.
Proof. destruct demo_fs_boot as (_ & _ & _ & _ & _ & _ & ->). done. Qed.
Lemma demo_nfree : nfree demo_fs = 3%nat.
Proof.
  destruct demo_fs_boot as (_ & _ & _ & _ & _ & Esb & _). unfold nfree. rewrite Esb. change (sb_size demo_sb) with 40.
  rewrite (filter_ext_in _ (λ x, 37 ≤ x)); [reflexivity|]. intros x Hx%elem_of_seqZ. rewrite demo_fs_isfree by lia. apply Z.leb_le.
Qed.

(** ** The theorems *)

Section Claims.
Context `{WaitBound}.

(** C23. Inside a transaction [dirlink] of a new name returns 0 and adds the
    entry: afterwards [dirlookup] of that name returns the linked inode, and
    the lookup of every other name is as before; no other inode and no block
    of another file changes.  Names are compared on their first [DIRSIZ]
    characters. *)
Theorem dirlink_dirlookup (i : nat) (p : proc) (W : list Z) (s : kernel) (dp : nat) (v : inode) (name : list Z) (inum : Z) :
  tx i p [] W s → fs_ok s → sb_size (k_sb s) ≤ BPB → k_icache s !! dp = Some v → dirfile_ok s v → inode_ok s v →
  readable DIRSIZ name → 0 < inum < 2 ^ 16 → dir_lookup (contents s v) name = None → i_size v + 16 ≤ MAXFILE * BSIZE →
  Z.of_nat (length W) + 5 ≤ TXMAX → (2 ≤ nfree s)%nat →
  wp (dirlink dp name inum) (λ r s', r = 0 ∧ ∃ v', k_icache s' = <[dp := v']> (k_icache s) ∧ dirfile_ok s' v' ∧
    (∀ j l', iget_table (k_icache s') 1 inum = Some (j, l') →
       wp (dirlookup dp name) (λ o s2, o = Some (j, 16 * Z.of_nat (dir_empty (contents s v))) ∧ k_icache s2 = l') s') ∧
    (∀ name', field DIRSIZ name' ≠ field DIRSIZ name →
       dir_lookup (contents s' v') name' = dir_lookup (contents s v) name') ∧
    (∀ j, 0 ≤ j < sb_ninodes (k_sb s) → j ≠ i_inum v → dinode_at s' j = dinode_at s j) ∧
    (∀ m, isfree s m = false → data_blk s m → (∀ q, (q < NPOS)%nat → blk s v q ≠ m) → lblk s' m = lblk s m)) s.
Proof.
  intros T F Hone Hs D I Hname Hinum Hnone Hsz HW Hfree.
  pose proof (fctx_intro i p dp W s v T F Hs (fo_blocks _ _ (dr_file _ _ D)) Hone ltac:(lia)) as C.
  pose proof (length_addw (BBLOCK 0 (k_sb s)) W) as Hl0. pose proof (load_bounds (addw (BBLOCK 0 (k_sb s)) W) v) as Hlb.
  eapply (wp_dirlink i p); [exact C|done|done|done|done|done|done|lia|unfold supply; lia|].
  intros W' s' v' C' Hw [L1 L2 L3] _. split; [done|]. exists v'. destruct Hw as [H1 H2 H3 H4 H5 H6 H7 H8 _].
  split_and!; try done; [|intros m Hu Hd Hq; by apply H8].
  intros j l' Eg. eapply (wp_dirlookup i p dp); [eapply file_rctx; [apply (fc_tx C')|apply C'|apply C'|done]|done|done| |].
  - intros Hn. by rewrite L2 in Hn.
  - intros x e Ex s2 R2 V2. rewrite L2 in Ex. injection Ex as <- <-. apply wp_bind.
    eapply wp_iget; [apply (st_nolock _ _ _ _ (q_st _ _ _ _ _ (rc_quiet _ _ _ _ _ _ R2)))|by rewrite (same_view_icache _ _ V2)|].
    by apply wp_ret.
Qed.

(** Linking a name that resolves to the directory itself never returns: the
    caller holds the directory's lock, [dirlookup] finds the directory, and
    [iput] puts the process to sleep on that lock, which only the process
    itself could release.  [link] with a new name that ends in a dot does this,
    inside a transaction that then never commits. *)
Theorem dirlink_self_deadlock (i : nat) (p : proc) (W : list Z) (s : kernel) (dp : nat) (v : inode) (name : list Z) (inum : Z) (e : nat) :
  quiet i p [] W s → fs_ok s → icache_ok (k_icache s) → k_icache s !! dp = Some v → dirfile_ok s v → 0 < i_ref v →
  i_lock v = mkSleeplock true (p_pid p) → readable DIRSIZ name →
  dir_lookup (contents s v) name = Some (i_inum v, e) → (0 < wait_bound)%nat →
  blocks (dirlink dp name inum) (λ s', ∃ s0, asleep (ChSlk (SInode dp)) s0 i p s' ∧
    slk_at (SInode dp) s' = Some (mkSleeplock true (p_pid p))) s.
Proof.
  intros Q F I Hs D Hr Hlk Hname Hself Hwb. unfold dirlink. apply blocks_bind_r.
  eapply (wp_dirlookup i p dp); [eapply file_rctx; [exact Q|done|done|apply D]|done|done| |].
  { intros Hn. by rewrite Hself in Hn. }
  intros x e' Ex s1 R1 V1. rewrite Hself in Ex. injection Ex as <- <-. apply wp_bind.
  pose proof (rc_quiet _ _ _ _ _ _ R1) as Q1. pose proof (q_st _ _ _ _ _ Q1) as St.
  pose proof (iget_hit (k_icache s) dp v I Hs Hr) as Eg. rewrite (kb_dev _ _ (fo_blocks _ _ (dr_file _ _ D))) in Eg.
  eapply wp_iget; [apply St|by rewrite (same_view_icache _ _ V1)|]. apply wp_ret.
  pose proof (lookup_lt_Some _ _ _ Hs) as Hlt. set (s2 := set_k_icache _ s1). apply blocks_bind_l. unfold iput. apply blocks_bind_l.
  assert (slk_at (SInode dp) s2 = Some (mkSleeplock true (p_pid p))) as Hl2 by (simpl; rewrite list_lookup_insert_eq by done; simpl; by rewrite Hlk).
  eapply blocks_mono; [eapply (acquiresleep_blocks _ i p); [apply St|apply St|exact Hl2|done|done]|].
  intros s' Ha. exists s2. split; [done|]. rewrite Ha, slk_at_held, slk_at_ptable. exact Hl2.
Qed.
End Claims.

Lemma dirlink_dirlookup_witness :
  wp (dirlink (H := 0%nat) 1 (str "g" ++ [0]) 3) (λ r s', r = 0) demo_fs.
Proof.
  destruct demo_fs_boot as (_ & _ & _ & _ & _ & Esb & _).
  eapply wp_mono; [apply (dirlink_dirlookup (H := 0%nat) 0 demo_proc [] demo_fs 1 demo_rootnode (str "g" ++ [0]) 3 demo_fs_tx demo_fs_ok)|].
  - rewrite Esb. vm_compute; discriminate.
  - apply demo_root_slot.
  - apply demo_dir_ok.
  - split; rewrite ?Esb; done.
  - right. apply elem_of_app. right. left.
  - lia.
  - rewrite demo_root_contents. vm_compute. reflexivity.
  - vm_compute; discriminate.
  - vm_compute; discriminate.
  - rewrite demo_nfree. lia.
  - by intros r s' [-> _].
Defined.

Lemma dirlink_self_deadlock_witness :
  blocks (dirlink (H := 1%nat) 1 (str "." ++ [0]) 2) (λ s', ∃ s0, asleep (ChSlk (SInode 1)) s0 0 demo_proc s' ∧
    slk_at (SInode 1) s' = Some (mkSleeplock true 1)) demo_fs.
Proof.
  destruct demo_fs_boot as (_ & _ & _ & _ & _ & Esb & Ei).
  apply (dirlink_self_deadlock (H := 1%nat) 0 demo_proc [] demo_fs 1 demo_rootnode (str "." ++ [0]) 2 0).
  - apply demo_fs_tx.
  - apply demo_fs_ok.
  - rewrite Ei. apply demo_icache_ok.
  - apply demo_root_slot.
  - apply demo_dir_ok.
  - reflexivity.
  - reflexivity.
  - right. apply elem_of_app. right. left.
  - rewrite demo_root_contents. vm_compute. reflexivity.
  - unfold wait_bound. lia.
Defined.
