(* ===== verification/Paths.v ===== *)
(** * Paths: resolving path names

    The directory tree on the disk as a function from inode numbers and names
    to inode numbers, a path as the list of its elements, and the proof that
    [namei] and [nameiparent] walk that tree, taking one reference to the inode
    they return and none when they fail. *)

From S2P Require Import Prelude State Strings Lock Bio BufSpec Log Inode Devs Fs Txn Blocks DemoFs FsData Dinode FsFile Icache Dirs.

(** ** Path elements *)

(** The parts of a path between slashes. *)
Fixpoint split_path (path : list Z) : list (list Z) :=
  match path with
  | [] => [[]]
  | c :: path' =>
      if c =? SLASH then [] :: split_path path'
      else match split_path path' with w :: ws => (c :: w) :: ws | [] => [[c]] end
  end.
Definition components (path : list Z) : list (list Z) := filter (λ w, w ≠ []) (split_path path).

Section Elements.
Implicit Types path name w : list Z.

Lemma components_slashes path : components (skip_slashes path) = components path.
Proof.
  induction path as [|c path IH]; simpl; [done|]. destruct (c =? SLASH) eqn:E; [|done].
  rewrite IH. unfold components. simpl. by rewrite E.
Qed.
Lemma skip_slashes_head path c rest : skip_slashes path = c :: rest → (c =? SLASH) = false.
Proof. induction path as [|d path IH]; simpl; [done|]. destruct (d =? SLASH) eqn:E; [done|]. by intros [= <- <-]. Qed.
Lemma skip_slashes_length path : (length (skip_slashes path) ≤ length path)%nat.
Proof. induction path as [|c path IH]; simpl; [done|]. destruct (c =? SLASH); simpl; lia. Qed.
Lemma skip_slashes_Forall (P : Z → Prop) path : Forall P path → Forall P (skip_slashes path).
Proof. induction 1; simpl; [constructor|]. destruct (_ =? SLASH); [done|by constructor]. Qed.

Lemma skip_name_spec path :
  let r := skip_name path in
  path = r.1 ++ r.2 ∧ split_path path = r.1 :: match r.2 with [] => [] | _ :: q => split_path q end ∧
  (∀ c q, r.2 = c :: q → c = SLASH).
Proof.
  induction path as [|c path (I1 & I2 & I3)]; simpl; [done|]. destruct (Z.eqb_spec c SLASH) as [->|E]; simpl.
  - split_and!; [done|done|]. by intros ? ? [= <- <-].
  - split_and!; [by f_equal|by rewrite I2|done].
Qed.

Lemma components_nonempty c path : (c =? SLASH) = false → components (c :: path) ≠ [].
Proof.
  intros E. unfold components. simpl. rewrite E. destruct (split_path path); rewrite filter_cons_True; done.
Qed.
Lemma components_end path : components (skip_slashes path) = [] → skip_slashes path = [].
Proof.
  intros Hc. destruct (skip_slashes path) as [|c rest] eqn:E; [done|].
  apply skip_slashes_head in E. by apply components_nonempty in Hc.
Qed.

(** [skipelem] takes the next element, cut to [DIRSIZ] characters. *)
Lemma skipelem_spec path name :
  Forall (λ c, c ≠ 0) path → length name = DIRSIZ →
  match skipelem path name with
  | None => components path = []
  | Some (rest, name') => ∃ w, components path = w :: components rest ∧ field DIRSIZ name' = take DIRSIZ w ∧
      Forall (λ c, c ≠ 0) w ∧ length name' = DIRSIZ ∧ Forall (λ c, c ≠ 0) rest ∧ (components rest = [] → rest = []) ∧
      (length rest < length path)%nat
  end.
Proof.
  intros Hnz Hn. unfold skipelem. pose proof (components_slashes path) as Ec. apply skip_slashes_Forall in Hnz as Hnz'.
  destruct (skip_slashes path) as [|c p] eqn:E; [by rewrite <- Ec|]. pose proof (skip_slashes_head _ _ _ E) as Hc.
  pose proof (skip_slashes_length path) as Hlen. rewrite E in Hlen.
  destruct (skip_name_spec (c :: p)) as (Ep & Es & Hs). assert ((skip_name (c :: p)).1 ≠ []) as Hne by (simpl; by rewrite Hc).
  destruct (skip_name (c :: p)) as [w r]. cbn [fst snd] in *. clear E.
  assert (Forall (λ c, c ≠ 0) w ∧ Forall (λ c, c ≠ 0) r) as [Hw Hr] by (apply Forall_app; by rewrite <- Ep).
  exists w. rewrite <- Ec. split_and!.
  - unfold components. rewrite Es, filter_cons_True by done. f_equal. destruct r as [|d q]; [done|].
    rewrite (Hs d q eq_refl). simpl. symmetry. apply components_slashes.
  - destruct (Nat.leb_spec DIRSIZ (length w)) as [Hge|Hlt]; unfold field, splice; rewrite take_0; cbn [app].
    + rewrite take_app_length' by (rewrite length_take; lia). rewrite <- (app_nil_r (take DIRSIZ w)).
      by rewrite upto0_app by (by apply Forall_take).
    + rewrite <- app_assoc, (take_ge w) by lia. rewrite take_app_ge by lia.
      replace (DIRSIZ - length w)%nat with (S (DIRSIZ - S (length w))) by lia. simpl.
      rewrite upto0_app by done. simpl. by rewrite app_nil_r.
  - done.
  - destruct (Nat.leb_spec DIRSIZ (length w)) as [Hge|Hlt]; (rewrite length_splice; [done|rewrite ?length_take, ?length_app; cbn [length]; lia]).
  - by apply skip_slashes_Forall.
  - apply components_end.
  - pose proof (skip_slashes_length r). apply (f_equal length) in Ep. rewrite length_app in Ep. destruct w; [done|]. simpl in *. lia.
Qed.
End Elements.

(** ** The tree *)

Definition disk_inode (s : kernel) (j : Z) : inode :=
  from_dinode (dinode_at s j) (mkInode 1 j 1 slk0 slk0 true 0 0 0 0 0 []).
Definition isdir (s : kernel) (j : Z) : bool := di_type (dinode_at s j) =? T_DIR.
(** The inode that directory [j] names [w]. *)
Definition tree_entry (s : kernel) (j : Z) (w : list Z) : option Z :=
  if isdir s j then fst <$> dir_lookup (contents s (disk_inode s j)) w else None.
Fixpoint resolve (s : kernel) (j : Z) (ws : list (list Z)) : option Z :=
  match ws with
  | [] => Some j
  | w :: ws' => match tree_entry s j w with Some k => resolve s k ws' | None => None end
  end.
(** The directory of the last element, and that element. *)
Fixpoint resolve_parent (s : kernel) (j : Z) (ws : list (list Z)) : option (Z * list Z) :=
  match ws with
  | [] => None
  | [w] => if isdir s j then Some (j, w) else None
  | w :: ws' => match tree_entry s j w with Some k => resolve_parent s k ws' | None => None end
  end.

Definition allocated (s : kernel) (j : Z) : Prop :=
  0 ≤ j < sb_ninodes (k_sb s) ∧ di_type (dinode_at s j) ≠ 0.
(** Every directory is a table of entries for inodes that are in use. *)
Record tree_ok (s : kernel) : Prop := {
  tr_dir : ∀ j, allocated s j → isdir s j = true → dirfile_ok s (disk_inode s j);
  tr_entry : ∀ j w k, allocated s j → tree_entry s j w = Some k → allocated s k ∧ di_nlink (dinode_at s k) ≠ 0 }.

(** The cache agrees with the disk; the inode in slot [lk] is locked by [pid]. *)
Record cache_ok (s : kernel) (pid : Z) (lk : option nat) : Prop := {
  cc_ok : icache_ok (k_icache s);
  cc_slot : ∀ k v, k_icache s !! k = Some v → 0 < i_ref v →
    i_dev v = 1 ∧ allocated s (i_inum v) ∧ (i_valid v = true → to_dinode v = dinode_at s (i_inum v));
  cc_lock : ∀ k v, k_icache s !! k = Some v →
    if decide (lk = Some k) then i_lock v = mkSleeplock true pid else sl_locked (i_lock v) = false }.

Lemma dir_lookup_field c w w' : field DIRSIZ w = field DIRSIZ w' → dir_lookup c w = dir_lookup c w'.
Proof.
  intros E. assert (∀ n k, find_entry n k w c = find_entry n k w' c) as H; [|apply H].
  induction n as [|n IH]; intros k; [done|]. simpl. by rewrite E, IH.
Qed.
Lemma dir_entry_field s j w w' : field DIRSIZ w = field DIRSIZ w' → tree_entry s j w = tree_entry s j w'.
Proof. intros E. unfold tree_entry. by rewrite (dir_lookup_field _ _ _ E). Qed.

(** A cached copy of a directory is as good as the inode on disk. *)
Lemma same_contents s v v' : to_dinode v' = to_dinode v → contents s v' = contents s v.
Proof. intros [= _ _ _ _ E1 E2]. unfold contents, fbyte, blk, ind. by rewrite E1, E2. Qed.
Lemma same_dir s v v' : to_dinode v' = to_dinode v → i_dev v' = i_dev v → dirfile_ok s v → dirfile_ok s v'.
Proof.
  intros E Ed [[[B1 B2 B3 B4] F2 F3 F4] D2 D3]. pose proof (same_contents s v v' E) as Ec.
  injection E as E1 _ _ _ E5 E6. assert (∀ q, blk s v' q = blk s v q) as Eb by (intros q; unfold blk, ind; by rewrite E6).
  split; [split; [split|..]|..]; rewrite ?Ed, ?E1, ?E5, ?E6, ?Ec; try done.
  - intros q. rewrite Eb. apply B3.
  - intros q r. rewrite !Eb. apply B4.
  - intros k. rewrite Eb. apply F4.
Qed.
Lemma dir_view s s' v : iview s s' → dirfile_ok s v → dirfile_ok s' v.
Proof.
  intros V [D1 D2 D3]. split; [by apply (iview_file_ok _ _ _ V)|done|by rewrite (iview_contents _ _ _ V)].
Qed.
Lemma disk_inode_copy s j : to_dinode (disk_inode s j) = dinode_at s j.
Proof. unfold disk_inode. by destruct (dinode_at s j). Qed.

(** ** Reference counts *)

Definition ref_of (j : Z) (v : inode) : Z := if (i_dev v =? 1) && (i_inum v =? j) then i_ref v else 0.
(** The references the cache counts for inode [j]. *)
Definition refs (l : list inode) (j : Z) : Z := foldr (λ v a, ref_of j v + a) 0 l.
(** The inodes in the cache. *)
Definition cached (l : list inode) : list Z := i_inum <$> filter (λ v, 0 < i_ref v) l.
Definition cnt (j : Z) (R : list Z) : Z := Z.of_nat (length (filter (j =.) R)).
Definition at_slot (s : kernel) (k : nat) (j : Z) : Prop := ∃ v, k_icache s !! k = Some v ∧ caches_inode 1 j v.

Section Refs.
Implicit Types (l : list inode) (v w : inode).

Lemma refs_insert l k v v' j : l !! k = Some v → refs (<[k := v']> l) j = refs l j - ref_of j v + ref_of j v'.
Proof.
  revert k. induction l as [|x l IH]; intros [|k] Hk; simplify_eq/=; [lia|]. rewrite (IH k) by done. lia.
Qed.
Lemma ref_of_caches j v : caches_inode 1 j v → ref_of j v = i_ref v.
Proof. intros (_ & E1 & E2). unfold ref_of. by rewrite E1, E2, !Z.eqb_refl. Qed.
Lemma ref_of_other j v : i_inum v ≠ j → ref_of j v = 0.
Proof. intros E. unfold ref_of. by rewrite (proj2 (Z.eqb_neq _ _) E), andb_false_r. Qed.
Lemma ref_of_same j v v' : i_dev v' = i_dev v → i_inum v' = i_inum v → i_ref v' = i_ref v → ref_of j v' = ref_of j v.
Proof. unfold ref_of. by intros -> -> ->. Qed.
Lemma ref_of_zero j v : i_ref v = 0 → ref_of j v = 0.
Proof. unfold ref_of. intros ->. by destruct (_ && _). Qed.

Lemma refs_none l j : (∀ k v, l !! k = Some v → ref_of j v = 0) → refs l j = 0.
Proof.
  induction l as [|x l IH]; intros Hl; simpl; [done|]. rewrite (Hl 0%nat x), IH; [done| |done].
  intros k v Hk. by apply (Hl (S k)).
Qed.
Lemma refs_one l k v j : l !! k = Some v → (∀ k' w, k' ≠ k → l !! k' = Some w → ref_of j w = 0) → refs l j = ref_of j v.
Proof.
  intros Hk Ho. assert (refs (<[k := set_i_ref 0 v]> l) j = 0) as E.
  { apply refs_none. intros k' w [(<- & <- & _)|(Hne & Hw)]%list_lookup_insert_Some; [by apply ref_of_zero|by eapply Ho]. }
  rewrite (refs_insert _ _ _ _ _ Hk), (ref_of_zero _ (set_i_ref 0 v)) in E by done. lia.
Qed.
Lemma refs_slot l k v j : icache_ok l → l !! k = Some v → caches_inode 1 j v → refs l j = i_ref v.
Proof.
  intros [R U] Hk Hv. rewrite (refs_one _ _ _ _ Hk); [by apply ref_of_caches|]. intros k' w Hne Hw.
  destruct (decide (0 < i_ref w)) as [Hr|Hr]; [|apply ref_of_zero; pose proof (R k' w Hw); lia].
  unfold ref_of. destruct (Z.eqb_spec (i_dev w) 1) as [E1|]; [|done]. destruct (Z.eqb_spec (i_inum w) j) as [E2|]; [|done].
  destruct Hne. destruct Hv as (V1 & V2 & V3). symmetry. eapply U; [exact Hk|exact Hw|done|]. by rewrite V2, V3.
Qed.

Lemma cached_elem l j : j ∈ cached l ↔ ∃ k v, l !! k = Some v ∧ 0 < i_ref v ∧ i_inum v = j.
Proof.
  unfold cached. rewrite list_elem_of_fmap. split.
  - intros (v & -> & [Hr (k & Hk)%list_elem_of_lookup]%list_elem_of_filter). by exists k, v.
  - intros (k & v & Hk & Hr & <-). exists v. split; [done|]. apply list_elem_of_filter. split; [done|by eapply list_elem_of_lookup_2].
Qed.
Lemma cached_nodup l : icache_ok l → (∀ k v, l !! k = Some v → 0 < i_ref v → i_dev v = 1) → NoDup (cached l).
Proof.
  intros [R U] Hd. unfold cached. induction l as [|x l IH]; [constructor|].
  assert (NoDup (i_inum <$> filter (λ v, 0 < i_ref v) l)) as Hn.
  { apply IH; [intros k v Hk; by apply (R (S k))| |intros k v Hk; by apply (Hd (S k))].
    intros k k' v w Hv Hw Hr Hc. pose proof (U (S k) (S k') v w Hv Hw Hr Hc). lia. }
  rewrite filter_cons. case_decide as Hx; [|done]. simpl. constructor; [|done].
  intros (k & v & Hk & Hr & Hi)%(cached_elem l). pose proof (U 0%nat (S k) x v eq_refl Hk Hx) as E.
  discriminate E. split; [done|]. split; [|done]. by rewrite (Hd 0%nat x), (Hd (S k) v).
Qed.
Lemma cached_full l : (∀ k v, l !! k = Some v → 0 < i_ref v) → length (cached l) = length l.
Proof.
  intros Hf. unfold cached. rewrite length_fmap. induction l as [|x l IH]; [done|]. rewrite filter_cons_True by (by apply (Hf 0%nat)).
  simpl. f_equal. apply IH. intros k v Hk. by apply (Hf (S k)).
Qed.
Lemma cnt_cons j k R : cnt j (k :: R) = (if decide (j = k) then 1 else 0) + cnt j R.
Proof. unfold cnt. rewrite filter_cons. case_decide; simpl; lia. Qed.
Lemma cnt_pos j R : j ∈ R → 1 ≤ cnt j R.
Proof. intros Hj. induction Hj as [j R|j k R _ IH]; rewrite cnt_cons; [rewrite decide_True by done; unfold cnt|case_decide]; lia. Qed.
Lemma cnt_nonneg j R : 0 ≤ cnt j R.
Proof. unfold cnt. lia. Qed.
Lemma cnt_in j R : 0 < cnt j R → j ∈ R.
Proof. induction R as [|k R IH]; [done|]. rewrite cnt_cons. case_decide; [subst; left|]. intros ?. right. apply IH. lia. Qed.
End Refs.

(** ** A walk *)

Section Walk.
Context `{WaitBound}.
Context (i : nat) (p : proc) (W : list Z) (s0 : kernel).
Implicit Types (s : kernel) (v : inode) (R : list Z) (lk : option nat).
(** The tree is in order and the cache agrees with it, with two slots to spare. *)
Hypothesis fs0 : fs_ok s0.
Hypothesis tree0 : tree_ok s0.
Hypothesis cache0 : cache_ok s0 (p_pid p) None.
Hypothesis room0 : (length (cached (k_icache s0)) + 2 ≤ length (k_icache s0))%nat.

(** What a walk from [s0] preserves: the blocks, the agreement of the cache with
    the disk, and all references but for those to the inodes [R] it took. *)
Record wctx lk R s : Prop := {
  w_quiet : quiet i p [] W s;
  w_view : iview s0 s;
  w_cache : cache_ok s (p_pid p) lk;
  w_len : length (k_icache s) = length (k_icache s0);
  w_refs : ∀ j, refs (k_icache s) j = refs (k_icache s0) j + cnt j R }.

Lemma allocated_view s j : iview s0 s → allocated s j ↔ allocated s0 j.
Proof. intros V. unfold allocated. by rewrite (iview_sb _ _ V), (iview_dinode _ _ _ V). Qed.

(** Changing one slot of the cache in a state with the same blocks. *)
Lemma cache_upd lk lk' s s' k v v' :
  cache_ok s (p_pid p) lk → iview s0 s → iview s0 s' → k_icache s !! k = Some v → k_icache s' = <[k := v']> (k_icache s) →
  icache_ok (k_icache s') →
  (0 < i_ref v' → i_dev v' = 1 ∧ allocated s0 (i_inum v') ∧ (i_valid v' = true → to_dinode v' = dinode_at s0 (i_inum v'))) →
  (if decide (lk' = Some k) then i_lock v' = mkSleeplock true (p_pid p) else sl_locked (i_lock v') = false) →
  (∀ k', k' ≠ k → lk = Some k' ↔ lk' = Some k') →
  cache_ok s' (p_pid p) lk'.
Proof.
  intros [C1 C2 C3] V V' Hk E Hok Hs Hl Hlk. split; [done|..]; rewrite E.
  - intros k' w [(<- & <- & _)|(_ & Hw)]%list_lookup_insert_Some Hr; rewrite (allocated_view _ _ V'), (iview_dinode _ _ _ V').
    + by apply Hs.
    + rewrite <- (allocated_view _ _ V), <- (iview_dinode _ _ _ V). by apply (C2 k').
  - intros k' w [(<- & <- & _)|(Hne & Hw)]%list_lookup_insert_Some; [done|]. specialize (C3 k' w Hw).
    specialize (Hlk k' (not_eq_sym Hne)). repeat case_decide; naive_solver.
Qed.

Lemma at_slot_fun s k j v : at_slot s k j → k_icache s !! k = Some v → caches_inode 1 j v.
Proof. intros (w & Hw & Hc) Hv. by simplify_eq. Qed.

(** There is room for two more inodes than at the start of the walk. *)
Lemma walk_room lk R s : wctx lk R s → (length R ≤ 1)%nat → ¬ (∀ k v, k_icache s !! k = Some v → 0 < i_ref v).
Proof.
  intros C Hroom Hfull. pose proof (cached_full _ Hfull) as Hl. pose proof (w_len _ _ _ C) as Hlen.
  assert (length (cached (k_icache s)) ≤ length (R ++ cached (k_icache s0)))%nat as Hle; [|rewrite length_app in Hle; lia].
  apply submseteq_length, NoDup_submseteq.
  { apply cached_nodup; [apply C|]. intros k v Hk Hr. by apply (cc_slot _ _ _ (w_cache _ _ _ C) k v). }
  intros j (k & v & Hk & Hr & <-)%cached_elem. destruct (cc_slot _ _ _ (w_cache _ _ _ C) k v Hk Hr) as (D & _).
  pose proof (refs_slot _ _ _ (i_inum v) (cc_ok _ _ _ (w_cache _ _ _ C)) Hk) as Er. specialize (Er ltac:(done)).
  rewrite (w_refs _ _ _ C) in Er. apply elem_of_app. destruct (decide (0 < cnt (i_inum v) R)) as [Hc|Hc]; [left; by apply cnt_in|right].
  pose proof (cnt_nonneg (i_inum v) R). destruct (decide (i_inum v ∈ cached (k_icache s0))) as [|Hno]; [done|exfalso].
  enough (refs (k_icache s0) (i_inum v) = 0) by lia. apply refs_none. intros k' w Hw.
  destruct (decide (i_inum w = i_inum v)) as [E|]; [|by apply ref_of_other]. apply ref_of_zero.
  destruct (decide (0 < i_ref w)); [|pose proof (ic_ref _ (cc_ok _ _ _ cache0) k' w Hw); lia]. destruct Hno. apply cached_elem. eauto.
Qed.

Lemma walk_iget lk R s j (Q : nat → kernel → Prop) :
  wctx lk R s → (length R ≤ 1)%nat → allocated s0 j →
  (∀ k s', wctx lk (j :: R) s' → at_slot s' k j → (∀ k' j', at_slot s k' j' → at_slot s' k' j') → Q k s') →
  wp (iget 1 j) Q s.
Proof.
  intros C Hlen Ha HQ. pose proof (w_cache _ _ _ C) as CC. pose proof (iget_table_spec (k_icache s) 1 j (cc_ok _ _ _ CC)) as Hs.
  destruct (iget_table (k_icache s) 1 j) as [[k l']|] eqn:E; [|by destruct (walk_room _ _ _ C Hlen)].
  destruct Hs as (I' & v & v' & Hk & -> & Hc & Hr & Hl & Hcase). pose proof (lookup_lt_Some _ _ _ Hk) as Hlt.
  pose proof (ic_ref _ (cc_ok _ _ _ CC) k v Hk) as Hr0.
  eapply wp_iget; [apply (st_nolock _ _ _ _ (q_st _ _ _ _ _ (w_quiet _ _ _ C)))|exact E|]. set (s' := set_k_icache _ s).
  assert (iview s0 s') as V' by (eapply iview_trans; [apply C|apply iview_set]).
  assert (∀ j', caches_inode 1 j' v → caches_inode 1 j' v') as Hkeep.
  { intros j' (A1 & A2 & A3). destruct Hcase as [[-> _]|[A0 _]]; [split; [simpl; lia|done]|lia]. }
  apply HQ.
  - split; [by apply quiet_icache, C|done| |simpl; by rewrite length_insert, (w_len _ _ _ C)|].
    + eapply (cache_upd lk lk s s' k v v'); [done|apply C|done|done|done|done| | |done].
      * intros _. destruct Hc as (_ & H2 & H3). rewrite H2, H3. split; [done|]. split; [done|]. intros Hv.
        destruct Hcase as [[-> Hpos]|(_ & Hf & _)]; [|congruence]. simpl in H3.
        destruct (cc_slot _ _ _ CC k v Hk Hpos) as (_ & _ & D3). rewrite <- (iview_dinode _ _ _ (w_view _ _ _ C)), <- H3. by apply D3.
      * rewrite Hl. by apply (cc_lock _ _ _ CC k).
    + intros x. simpl. rewrite (refs_insert _ _ _ _ _ Hk), (w_refs _ _ _ C), cnt_cons.
      enough (ref_of x v' = ref_of x v + if decide (x = j) then 1 else 0) by lia. destruct Hcase as [[Ev Hpos]|[H0 _]].
      * assert (i_inum v = j ∧ i_dev v = 1) as [Ej Ed] by (subst v'; by destruct Hc as (_ & ? & ?)).
        case_decide as Ex; [subst x; rewrite !ref_of_caches by done; lia|]. rewrite !ref_of_other; [done|congruence|]. subst v'. simpl. congruence.
      * rewrite (ref_of_zero x v) by done. case_decide as Ex; [subst x; rewrite ref_of_caches by done; lia|].
        apply ref_of_other. destruct Hc as (_ & _ & ->). congruence.
  - exists v'. split; [by apply list_lookup_insert_eq|done].
  - intros k' j' (w & Hw & Hcw). destruct (decide (k' = k)) as [->|Hne].
    + simplify_eq. exists v'. split; [by apply list_lookup_insert_eq|by apply Hkeep].
    + exists w. split; [simpl; by rewrite list_lookup_insert_ne|done].
Qed.

(** A step that changes only the lock and the cached copy in slot [k]. *)
Lemma walk_same lk lk' R s s' k v v' :
  wctx lk R s → quiet i p [] W s' → iview s s' → k_icache s !! k = Some v → k_icache s' = <[k := v']> (k_icache s) →
  i_ref v' = i_ref v → i_dev v' = i_dev v → i_inum v' = i_inum v →
  (0 < i_ref v → i_valid v' = true → to_dinode v' = dinode_at s0 (i_inum v)) →
  (if decide (lk' = Some k) then i_lock v' = mkSleeplock true (p_pid p) else sl_locked (i_lock v') = false) →
  (∀ k', k' ≠ k → lk = Some k' ↔ lk' = Some k') →
  wctx lk' R s' ∧ (∀ k' j', at_slot s k' j' → at_slot s' k' j').
Proof.
  intros C Q' V' Hk E Er Ed Ei Hd Hl Hlk. pose proof (w_cache _ _ _ C) as CC. pose proof (lookup_lt_Some _ _ _ Hk) as Hlt.
  assert (iview s0 s') as V0 by (eapply iview_trans; [apply C|done]).
  pose proof (ic_ref _ (cc_ok _ _ _ CC) k v Hk) as Hr0. split; [split|].
  - done.
  - done.
  - eapply (cache_upd lk lk' s s' k v v'); [done|apply C|done|done|done| | |done|done].
    + rewrite E. eapply icache_ok_upd; [apply CC|exact Hk|lia|done|done].
    + rewrite Er, Ed, Ei. intros Hr. destruct (cc_slot _ _ _ CC k v Hk Hr) as (D1 & D2 & _).
      rewrite <- (allocated_view _ _ (w_view _ _ _ C)). auto.
  - rewrite E, length_insert. apply C.
  - intros x. rewrite E, (refs_insert _ _ _ _ _ Hk), (ref_of_same x v v'), (w_refs _ _ _ C) by done. lia.
  - intros k' j' (w & Hw & Hcw). destruct (decide (k' = k)) as [->|Hne].
    + simplify_eq. exists v'. split; [rewrite E; by apply list_lookup_insert_eq|]. unfold caches_inode. by rewrite Er, Ed, Ei.
    + exists w. split; [rewrite E; by rewrite list_lookup_insert_ne|done].
Qed.

Lemma walk_ilock R s k j (Q : unit → kernel → Prop) :
  wctx None R s → at_slot s k j →
  (∀ s' v, wctx (Some k) R s' → k_icache s' !! k = Some v → caches_inode 1 j v → to_dinode v = dinode_at s0 j →
     (∀ k' j', at_slot s k' j' → at_slot s' k' j') → Q tt s') →
  wp (ilock k) Q s.
Proof.
  intros C (v & Hk & Hr & Hd & Hi) HQ. pose proof (w_cache _ _ _ C) as CC. pose proof (lookup_lt_Some _ _ _ Hk) as Hlt.
  destruct (cc_slot _ _ _ CC k v Hk Hr) as (_ & Ha & Hdisk). pose proof (cc_lock _ _ _ CC k v Hk) as Hl. rewrite decide_False in Hl by done.
  eapply (wp_ilock i p); [apply C|by eapply iview_fs_ok; [apply C|]|exact Hk|lia|done|done|intros _; apply Ha|].
  intros s' Q' V' E'. rewrite (iview_dinode _ _ _ (w_view _ _ _ C)), Hi in E'. rewrite (iview_dinode _ _ _ (w_view _ _ _ C)), Hi in Hdisk.
  set (v' := locked _ _ v) in E'.
  assert (i_ref v' = i_ref v ∧ i_dev v' = i_dev v ∧ i_inum v' = i_inum v ∧ i_lock v' = mkSleeplock true (p_pid p) ∧
    to_dinode v' = dinode_at s0 j) as (F1 & F2 & F3 & F4 & F5).
  { unfold v', locked. change (i_valid (set_i_lock _ v)) with (i_valid v). destruct (i_valid v); split_and!; try done.
    by apply Hdisk. }
  destruct (walk_same None (Some k) R s s' k v v') as [C' Hat]; try done.
  - intros _ _. by rewrite Hi.
  - by rewrite decide_True.
  - naive_solver.
  - apply (HQ s' v'); [done|rewrite E'; by apply list_lookup_insert_eq| |done|done]. unfold caches_inode. by rewrite F1, F2, F3.
Qed.

Lemma walk_iunlock R s k j (Q : unit → kernel → Prop) :
  wctx (Some k) R s → at_slot s k j →
  (∀ s', wctx None R s' → (∀ k' j', at_slot s k' j' → at_slot s' k' j') → Q tt s') → wp (iunlock k) Q s.
Proof.
  intros C (v & Hk & Hr & Hd & Hi) HQ. pose proof (w_cache _ _ _ C) as CC.
  pose proof (cc_lock _ _ _ CC k v Hk) as Hl. rewrite decide_True in Hl by done.
  eapply (wp_iunlock i p); [apply C|exact Hk|lia|done|]. intros s' Q' V' E'.
  destruct (walk_same (Some k) None R s s' k v (unlocked v)) as [C' Hat]; try done.
  - intros _ Hv. rewrite <- (iview_dinode _ _ _ (w_view _ _ _ C)). by apply (cc_slot _ _ _ CC k v Hk Hr).
  - naive_solver.
  - by apply HQ.
Qed.

(** Dropping one of the references the walk took; the inode is not freed. *)
Lemma walk_iput R R' s k j (Q : unit → kernel → Prop) :
  wctx None R s → at_slot s k j → R ≡ₚ j :: R' → di_nlink (dinode_at s0 j) ≠ 0 ∨ 0 < refs (k_icache s0) j →
  (∀ s', wctx None R' s' → (∀ k' j', at_slot s k' j' → j' ∈ R' → at_slot s' k' j') → Q tt s') → wp (iput k) Q s.
Proof.
  intros C (v & Hk & Hc) HR Hkeep HQ. destruct Hc as (Hr & Hd & Hi). pose proof (w_cache _ _ _ C) as CC.
  pose proof (lookup_lt_Some _ _ _ Hk) as Hlt. pose proof (cc_lock _ _ _ CC k v Hk) as Hl. rewrite decide_False in Hl by done.
  destruct (cc_slot _ _ _ CC k v Hk Hr) as (_ & Ha & Hdisk).
  assert (∀ x, cnt x R = (if decide (x = j) then 1 else 0) + cnt x R') as Hcnt.
  { intros x. rewrite <- cnt_cons. unfold cnt. by rewrite HR. }
  assert (i_ref v = refs (k_icache s0) j + 1 + cnt j R') as Hrv.
  { rewrite <- (refs_slot _ _ _ j (cc_ok _ _ _ CC) Hk ltac:(done)), (w_refs _ _ _ C), Hcnt, decide_True by done. lia. }
  pose proof (cnt_nonneg j R') as Hnn.
  eapply (wp_iput i p); [apply C|exact Hk|done| |].
  { intros Hv Hn. destruct Hkeep as [Hk0|Hk0]; [|lia]. exfalso. apply Hk0.
    rewrite (iview_dinode _ _ _ (w_view _ _ _ C)), Hi in Hdisk. by rewrite <- Hdisk. }
  intros s' Q' V' E'. set (v' := set_i_ref _ _) in E'.
  assert (iview s0 s') as V0 by (eapply iview_trans; [apply C|done]).
  assert (0 ≤ refs (k_icache s0) j) as H0.
  { clear -cache0. pose proof (ic_ref _ (cc_ok _ _ _ cache0)) as Hn. unfold refs. induction (k_icache s0) as [|x l IH]; simpl; [done|].
    assert (0 ≤ ref_of j x) by (unfold ref_of; case_match; [apply (Hn 0%nat x eq_refl)|done]).
    assert (0 ≤ foldr (λ v a, ref_of j v + a) 0 l); [|lia]. apply IH. intros a b Hb. by apply (Hn (S a)). }
  apply HQ.
  - split; [done|done| |rewrite E', length_insert; apply C|].
    + eapply (cache_upd None None s s' k v v'); [done|apply C|done|done|done| | |by rewrite decide_False|done].
      * rewrite E'. eapply icache_ok_upd; [apply CC|exact Hk|simpl; lia|done|done].
      * intros _. split; [done|]. change (i_inum v') with (i_inum v). rewrite <- (allocated_view _ _ (w_view _ _ _ C)). split; [done|].
        rewrite <- (iview_dinode _ _ _ (w_view _ _ _ C)). intros Hv. by apply Hdisk.
    + intros x. rewrite E', (refs_insert _ _ _ _ _ Hk), (w_refs _ _ _ C), Hcnt.
      assert (ref_of x v' = ref_of x v - if decide (x = j) then 1 else 0) as ->; [|case_decide; lia].
      unfold ref_of. change (i_dev v') with (i_dev v). change (i_inum v') with (i_inum v). rewrite Hd, Hi, Z.eqb_refl. simpl.
      destruct (Z.eqb_spec j x), (decide (x = j)); (congruence || lia).
  - intros k' j' (w & Hw & Hcw) Hin. destruct (decide (k' = k)) as [->|Hne].
    + simplify_eq. destruct Hcw as (_ & _ & <-). apply cnt_pos in Hin.
      exists v'. split; [rewrite E'; by apply list_lookup_insert_eq|]. split; [|done]. simpl. lia.
    + exists w. split; [rewrite E'; by rewrite list_lookup_insert_ne|done].
Qed.

Lemma walk_dirlookup s k j v name (Q : option (nat * Z) → kernel → Prop) :
  wctx (Some k) [j] s → k_icache s !! k = Some v → caches_inode 1 j v → to_dinode v = dinode_at s0 j → isdir s0 j = true →
  readable DIRSIZ name →
  (tree_entry s0 j name = None → ∀ s', wctx (Some k) [j] s' → at_slot s' k j → Q None s') →
  (∀ j', tree_entry s0 j name = Some j' → ∀ k' off s', wctx (Some k) [j'; j] s' → at_slot s' k j → at_slot s' k' j' →
     Q (Some (k', off)) s') →
  wp (dirlookup k name) Q s.
Proof.
  intros C Hk Hc Hv Hdir Hname HN HS. pose proof (w_view _ _ _ C) as V. assert (allocated s0 j) as Ha.
  { destruct Hc as (Hr & _ & <-). destruct (cc_slot _ _ _ (w_cache _ _ _ C) k v Hk Hr) as (_ & Ha & _). by rewrite <- allocated_view. }
  assert (dirfile_ok s v) as D.
  { apply (dir_view _ _ _ V). apply (same_dir _ (disk_inode s0 j)); [by rewrite disk_inode_copy|apply Hc|by apply tr_dir]. }
  assert (fst <$> dir_lookup (contents s v) name = tree_entry s0 j name) as Ed.
  { unfold tree_entry. rewrite Hdir, (iview_contents _ _ _ V), (same_contents s0 (disk_inode s0 j) v); [done|]. by rewrite disk_inode_copy. }
  assert (∀ s', quiet i p [] W s' → same_view s s' → wctx (Some k) [j] s' ∧ at_slot s' k j) as Hnext.
  { intros s' Q' V'. pose proof (same_view_icache _ _ V') as Ei. split; [|exists v; by rewrite Ei].
    destruct (walk_same (Some k) (Some k) [j] s s' k v v) as [C' _]; try done.
    - by apply iview_view.
    - by rewrite Ei, list_insert_id.
    - intros _ _. destruct Hc as (_ & _ & ->). done.
    - pose proof (cc_lock _ _ _ (w_cache _ _ _ C) k v Hk) as Hl. by rewrite decide_True in Hl |- *. }
  eapply (wp_dirlookup i p); [eapply file_rctx; [apply C|by eapply iview_fs_ok|exact Hk|apply D]|done|done| |].
  - intros En s' R' V'. rewrite En in Ed. destruct (Hnext s' (rc_quiet _ _ _ _ _ _ R') V') as [C' H']. by apply HN.
  - intros inum e Ee s' R' V'. rewrite Ee in Ed. simpl in Ed. destruct (Hnext s' (rc_quiet _ _ _ _ _ _ R') V') as [C' H'].
    destruct (tr_entry _ tree0 j name inum Ha (eq_sym Ed)) as [Ha' _].
    apply wp_bind. eapply walk_iget; [exact C'|simpl; lia|done|]. intros k' s2 C2 H2 Hat. apply wp_ret. by apply (HS inum); auto.
Qed.

Lemma walk_iunlockput R R' s k j (Q : unit → kernel → Prop) :
  wctx (Some k) R s → at_slot s k j → R ≡ₚ j :: R' → di_nlink (dinode_at s0 j) ≠ 0 ∨ 0 < refs (k_icache s0) j →
  (∀ s', wctx None R' s' → (∀ k' j', at_slot s k' j' → j' ∈ R' → at_slot s' k' j') → Q tt s') → wp (iunlockput k) Q s.
Proof.
  intros C Hat HR Hkeep HQ. unfold iunlockput. apply wp_bind. eapply walk_iunlock; [exact C|exact Hat|]. intros s1 C1 H1.
  eapply walk_iput; [exact C1|by apply H1|done|done|]. intros s2 C2 H2. apply HQ; [done|]. intros k' j' Hk' Hj'. apply H2; [by apply H1|done].
Qed.

(** What [namex] returns. *)
Definition walked (parent : bool) (j : Z) (ws : list (list Z)) (o : option (nat * list Z)) s : Prop :=
  match (if parent then resolve_parent s0 j ws else (λ k, (k, [])) <$> resolve s0 j ws) with
  | None => o = None ∧ wctx None [] s
  | Some (k, w) => ∃ ip name, o = Some (ip, name) ∧ wctx None [k] s ∧ at_slot s ip k ∧
      (parent = true → field DIRSIZ name = take DIRSIZ w)
  end.

Lemma wp_namex_loop fuel s ip j path parent name :
  wctx None [j] s → at_slot s ip j → allocated s0 j → di_nlink (dinode_at s0 j) ≠ 0 ∨ 0 < refs (k_icache s0) j →
  Forall (λ c, c ≠ 0) path → length name = DIRSIZ → (length path ≤ fuel)%nat →
  wp (namex_loop fuel ip path parent name) (walked parent j (components path)) s.
Proof.
  revert s ip j path name. induction fuel as [|fuel IH]; intros s ip j path name C Hat Ha Hkeep Hnz Hn Hf.
  { destruct path; [|simpl in Hf; lia]. simpl. destruct parent.
    - apply wp_bind. eapply walk_iput; [exact C|exact Hat|done|done|]. intros s' C' _. apply wp_ret. by split.
    - apply wp_ret. by exists ip, name. }
  cbn [namex_loop]. pose proof (skipelem_spec path name Hnz Hn) as Hs. destruct (skipelem path name) as [[rest name']|].
  2: { rewrite Hs. unfold walked. destruct parent; simpl.
    - apply wp_bind. eapply walk_iput; [exact C|exact Hat|done|done|]. intros s' C' _. apply wp_ret. by split.
    - apply wp_ret. by exists ip, name. }
  destruct Hs as (w & -> & Hname & Hwz & Hn' & Hnz' & Hend & Hlt).
  assert (field DIRSIZ w = take DIRSIZ w) as Hw by (by apply upto0_nonzero, Forall_take).
  apply wp_bind. eapply walk_ilock; [exact C|exact Hat|]. intros s1 v C1 Hk1 Hc1 Hv1 Hat1.
  apply wp_bind. eapply wp_get_inode; [exact Hk1|].
  assert ((i_type v =? T_DIR) = isdir s0 j) as -> by (unfold isdir; by rewrite <- Hv1).
  assert (at_slot s1 ip j) as Hs1 by (by exists v).
  assert (∀ s2, wctx (Some ip) [j] s2 → at_slot s2 ip j →
    (if parent then resolve_parent s0 j (w :: components rest) else (λ k, (k, [])) <$> resolve s0 j (w :: components rest)) = None →
    wp (iunlockput ip ;; mret None) (walked parent j (w :: components rest)) s2) as Hfail.
  { intros s2 C2 H2 E2. apply wp_bind. eapply walk_iunlockput; [exact C2|done|done|done|]. intros s3 C3 _.
    apply wp_ret. unfold walked. by rewrite E2. }
  destruct (isdir s0 j) eqn:Hdir; cbn [negb].
  2: { apply Hfail; [done|done|]. simpl. unfold tree_entry. rewrite Hdir. by destruct parent, (components rest). }
  destruct (parent && bool_decide (rest = [])) eqn:Eend.
  { apply andb_true_iff in Eend as [-> ->%bool_decide_eq_true]. apply wp_bind. eapply walk_iunlock; [exact C1|done|].
    intros s2 C2 H2. apply wp_ret. unfold walked. simpl. rewrite Hdir. exists ip, name'. split_and!; auto. }
  apply wp_bind. eapply walk_dirlookup; [exact C1|done|done|done|done|left; lia| |].
  - rewrite (dir_entry_field _ _ name' w) by (by rewrite Hname, Hw). intros En s2 C2 H2. apply Hfail; [done|done|]. simpl. rewrite En.
    destruct parent; [|done]. destruct (components rest) eqn:Ec; [|done]. rewrite (Hend eq_refl) in Eend. done.
  - rewrite (dir_entry_field _ _ name' w) by (by rewrite Hname, Hw). intros j' En k' off s2 C2 H2 H2'.
    destruct (tr_entry _ tree0 j w j' Ha En) as [Ha' Hl'].
    apply wp_bind. eapply walk_iunlockput; [exact C2|done|apply Permutation_swap|done|]. intros s3 C3 H3.
    eapply wp_mono; [apply (IH s3 k' j' rest name'); auto; [apply H3; [done|left]|lia]|].
    intros o s4. unfold walked. simpl. rewrite En. destruct parent; [|done]. destruct (components rest) eqn:Ec; [|done].
    rewrite (Hend eq_refl) in Eend. done.
Qed.

Lemma wctx_start : quiet i p [] W s0 → wctx None [] s0.
Proof. intros Q. split; [done|apply iview_refl|done|done|]. intros j. unfold cnt. simpl. lia. Qed.

Lemma walk_idup s k j (Q : nat → kernel → Prop) :
  wctx None [] s → at_slot s k j → (∀ s', wctx None [j] s' → at_slot s' k j → Q k s') → wp (idup k) Q s.
Proof.
  intros C (v & Hk & Hc) HQ. pose proof (w_cache _ _ _ C) as CC. pose proof (lookup_lt_Some _ _ _ Hk) as Hlt.
  destruct Hc as (Hr & Hd & Hi). destruct (cc_slot _ _ _ CC k v Hk Hr) as (_ & Ha & Hdisk).
  apply wp_idup; [apply (st_nolock _ _ _ _ (q_st _ _ _ _ _ (w_quiet _ _ _ C)))|]. rewrite (alter_insert_inode _ _ _ _ Hk).
  set (v' := set_i_ref _ v). set (s' := set_k_icache _ s).
  assert (iview s0 s') as V' by (eapply iview_trans; [apply C|apply iview_set]).
  pose proof (iget_table_spec (k_icache s) 1 j (cc_ok _ _ _ CC)) as Ht. rewrite <- Hi, <- Hd, (iget_hit _ _ _ (cc_ok _ _ _ CC) Hk Hr) in Ht.
  apply HQ; [split|].
  - by apply quiet_icache, C.
  - done.
  - eapply (cache_upd None None s s' k v v'); [done|apply C|done|done|done|apply Ht| | |done].
    + intros _. change (i_inum v') with (i_inum v). rewrite <- (iview_dinode _ _ _ (w_view _ _ _ C)), <- (allocated_view _ _ (w_view _ _ _ C)). done.
    + pose proof (cc_lock _ _ _ CC k v Hk) as Hl. by rewrite decide_False in Hl |- *.
  - simpl. rewrite length_insert. apply C.
  - intros x. simpl. rewrite (refs_insert _ _ _ _ _ Hk), (w_refs _ _ _ C), cnt_cons. unfold v', ref_of. simpl. rewrite Hd, Hi, Z.eqb_refl. simpl.
    destruct (Z.eqb_spec j x), (decide (x = j)); (congruence || lia).
  - exists v'. split; [by apply list_lookup_insert_eq|]. split; [simpl; lia|done].
Qed.

(** Where a path starts: the root directory, or the current one. *)
Definition starts_at (path : list Z) (j : Z) : Prop :=
  if bool_decide (head path = Some SLASH) then j = ROOTINO ∧ allocated s0 j ∧ di_nlink (dinode_at s0 j) ≠ 0
  else ∃ k, p_cwd p = Some k ∧ at_slot s0 k j.

Lemma wp_namex path parent name j :
  quiet i p [] W s0 → starts_at path j → Forall (λ c, c ≠ 0) path → length name = DIRSIZ →
  wp (namex path parent name) (walked parent j (components path)) s0.
Proof.
  intros Q Hst Hnz Hn. pose proof (wctx_start Q) as C. unfold namex. apply wp_bind. unfold starts_at in Hst. case_bool_decide.
  - destruct Hst as (-> & Ha & Hl). eapply walk_iget; [exact C|simpl; lia|done|]. intros k s' C' Hat _.
    apply wp_namex_loop; auto.
  - destruct Hst as (k & Hk & Hat). pose proof (q_st _ _ _ _ _ Q) as St.
    apply wp_bind. eapply wp_curproc; [apply St|]. apply wp_bind. eapply wp_get_proc; [apply St|]. apply wp_bind. eapply wp_deref; [exact Hk|].
    eapply walk_idup; [exact C|exact Hat|]. intros s' C' Hat'. destruct Hat as (v & Hv & Hc).
    apply wp_namex_loop; auto.
    + pose proof Hc as (Hr & _ & <-). by apply (cc_slot _ _ _ cache0 k v Hv Hr).
    + right. rewrite (refs_slot _ _ _ _ (cc_ok _ _ _ cache0) Hv Hc). apply Hc.
Qed.
End Walk.

(** ** The theorem *)

(** C6. [namei] and [nameiparent] walk the directory tree on the disk: on a quiet
    system whose tree is in order, a path is resolved element by element,
    names being cut to [DIRSIZ] characters and repeated slashes ignored, from
    the root if it starts with a slash and from the current directory
    otherwise.  If the walk succeeds, [namei] returns the slot that caches the
    inode and [nameiparent] the slot of the last directory and the last
    element; exactly that inode has one more reference.  If an element is
    missing or not a directory they return null, and no reference is leaked. *)
Theorem namei_resolves `{WaitBound} (i : nat) (p : proc) (W : list Z) (s : kernel) (path : list Z) (j : Z) :
  quiet i p [] W s → fs_ok s → tree_ok s → cache_ok s (p_pid p) None →
  (length (cached (k_icache s)) + 2 ≤ length (k_icache s))%nat →
  Forall (λ c, c ≠ 0) path → starts_at p s path j →
  let same_refs R s' := quiet i p [] W s' ∧ iview s s' ∧ cache_ok s' (p_pid p) None ∧
    ∀ x, refs (k_icache s') x = refs (k_icache s) x + cnt x R in
  wp (namei path) (λ o s', match resolve s j (components path) with
    | Some k => ∃ ip, o = Some ip ∧ at_slot s' ip k ∧ same_refs [k] s'
    | None => o = None ∧ same_refs [] s'
    end) s ∧
  ∀ name, length name = DIRSIZ →
  wp (nameiparent path name) (λ o s', match resolve_parent s j (components path) with
    | Some (k, w) => ∃ ip name', o = Some (ip, name') ∧ field DIRSIZ name' = take DIRSIZ w ∧ at_slot s' ip k ∧ same_refs [k] s'
    | None => o = None ∧ same_refs [] s'
    end) s.
Proof.
  intros Q F T C Hroom Hnz Hst same_refs.
  assert (∀ R s', wctx i p W s None R s' → same_refs R s') as Hsame by (intros R s' [C1 C2 C3 C4 C5]; by split).
  split.
  - unfold namei. apply wp_bind.
    eapply wp_mono; [eapply (wp_namex i p W s F T C Hroom path false (replicate DIRSIZ 0) j); done|].
    intros o s' Hw. apply wp_ret. unfold walked in Hw. destruct (resolve s j (components path)) as [k|]; simpl in Hw.
    + destruct Hw as (ip & name & -> & C' & Hat & _). exists ip. auto.
    + destruct Hw as [-> C']. auto.
  - intros name Hn. unfold nameiparent.
    eapply wp_mono; [eapply (wp_namex i p W s F T C Hroom path true name j); done|].
    intros o s' Hw. unfold walked in Hw. destruct (resolve_parent s j (components path)) as [[k w]|].
    + destruct Hw as (ip & name' & -> & C' & Hat & Hf). exists ip, name'. auto.
    + destruct Hw as [-> C']. auto.
Qed.

(** The example machine with nothing cached. *)
Definition demo_tree : kernel := set_k_icache (replicate NINODE inode0) demo_fs.
Lemma demo_tree_dinode j : 0 ≤ j < 8 → dinode_at demo_tree j = dinode_get (dinode_off j) (demo_fsblock 32).
Proof.
  intros Hj. destruct demo_fs_boot as (_ & _ & _ & _ & _ & Esb & _). unfold dinode_at.
  change (k_sb demo_tree) with (k_sb demo_fs). rewrite Esb, demo_fs_IBLOCK by done.
  change (lblk demo_tree 32) with (lblk demo_fs 32). by rewrite demo_fs_lblk by done.
Qed.
Lemma demo_tree_node j : allocated demo_tree j →
  j = 1 ∧ dinode_at demo_tree j = demo_root ∨ j = 2 ∧ dinode_at demo_tree j = demo_file.
Proof.
  intros [Hj Ht]. destruct demo_fs_boot as (_ & _ & _ & _ & _ & Esb & _).
  change (k_sb demo_tree) with (k_sb demo_fs) in Hj. rewrite Esb in Hj. simpl in Hj.
  rewrite demo_tree_dinode in * by done.
  assert (j = 0 ∨ j = 1 ∨ j = 2 ∨ j = 3 ∨ j = 4 ∨ j = 5 ∨ j = 6 ∨ j = 7) as Hc by lia.
  repeat destruct Hc as [->|Hc]; [..|subst j]; vm_compute in Ht |- *; auto; done.
Qed.
Lemma demo_tree_inodes : dinode_at demo_tree 1 = demo_root ∧ dinode_at demo_tree 2 = demo_file.
Proof. rewrite !demo_tree_dinode by lia. split; vm_compute; reflexivity. Qed.
Lemma demo_tree_contents : contents demo_tree (disk_inode demo_tree 1) = take 48 (demo_fsblock 34).
Proof.
  rewrite <- demo_root_contents, <- (iview_contents demo_fs demo_tree demo_rootnode (iview_set _ _)).
  apply same_contents. by rewrite disk_inode_copy, (proj1 demo_tree_inodes).
Qed.
Lemma demo_tree_alloc j : j = 1 ∨ j = 2 → allocated demo_tree j ∧ di_nlink (dinode_at demo_tree j) ≠ 0.
Proof.
  destruct demo_fs_boot as (_ & _ & _ & _ & _ & Esb & _), demo_tree_inodes as [E1 E2]. unfold allocated.
  change (k_sb demo_tree) with (k_sb demo_fs). rewrite Esb.
  intros [->| ->]; rewrite ?E1, ?E2; done.
Qed.
Lemma demo_tree_entry w : tree_entry demo_tree 1 w = fst <$> dir_lookup (take 48 (demo_fsblock 34)) w.
Proof. unfold tree_entry, isdir. by rewrite (proj1 demo_tree_inodes), demo_tree_contents. Qed.

Lemma demo_tree_ok : tree_ok demo_tree.
Proof.
  assert (∀ j, allocated demo_tree j → isdir demo_tree j = true → j = 1) as Hdir.
  { intros j Ha Hd. destruct (demo_tree_node j Ha) as [[-> _]|[-> E]]; [done|]. unfold isdir in Hd. by rewrite E in Hd. }
  split.
  - intros j Ha Hd. rewrite (Hdir j Ha Hd). apply (same_dir _ demo_rootnode);
      [by rewrite disk_inode_copy, (proj1 demo_tree_inodes)|done|]. apply (dir_view demo_fs), demo_dir_ok. apply iview_set.
  - intros j w k Ha E. apply demo_tree_alloc. assert (isdir demo_tree j = true) as Hd.
    { unfold tree_entry in E. by destruct (isdir demo_tree j). }
    rewrite (Hdir j Ha Hd), demo_tree_entry in E. unfold dir_lookup in E.
    change (length (take 48 (demo_fsblock 34)) / 16)%nat with 3%nat in E. cbn [find_entry] in E.
    change (de_inum (chunk16 0 (take 48 (demo_fsblock 34)))) with 1 in E. change (de_inum (chunk16 1 (take 48 (demo_fsblock 34)))) with 1 in E.
    change (de_inum (chunk16 2 (take 48 (demo_fsblock 34)))) with 2 in E. simpl Z.eqb in E. cbn iota in E.
    repeat (case_decide; [injection E; auto|]). done.
Qed.

Lemma namei_resolves_witness :
  resolve demo_tree 1 (components (str "//./f")) = Some 2 ∧
  wp (namei (H := 0%nat) (str "//./f")) (λ o s', ∃ ip, o = Some ip ∧ at_slot s' ip 2) demo_tree.
Proof.
  assert (resolve demo_tree 1 (components (str "//./f")) = Some 2) as Er.
  { change (components (str "//./f")) with [str "."; str "f"]. cbn [resolve]. rewrite (demo_tree_entry (str ".")).
    replace (dir_lookup (take 48 (demo_fsblock 34)) (str ".")) with (Some (1, 0%nat)) by (vm_compute; reflexivity). simpl.
    rewrite (demo_tree_entry (str "f")).
    by replace (dir_lookup (take 48 (demo_fsblock 34)) (str "f")) with (Some (2, 2%nat)) by (vm_compute; reflexivity). }
  split; [exact Er|].
  destruct (namei_resolves (H := 0%nat) 0 demo_proc [] demo_tree (str "//./f") 1) as [Hn _].
  - apply quiet_icache, demo_fs_tx.
  - apply (iview_fs_ok demo_fs); [apply iview_set|apply demo_fs_ok].
  - apply demo_tree_ok.
  - split.
    + split.
      * intros j v Hv. apply lookup_replicate in Hv as [-> _]. done.
      * intros j k v w Hv _ Hr. apply lookup_replicate in Hv as [-> _]. done.
    + intros k v Hv Hr. apply lookup_replicate in Hv as [-> _]. done.
    + intros k v Hv. apply lookup_replicate in Hv as [-> _]. done.
  - vm_compute. lia.
  - repeat constructor; discriminate.
  - split; [done|]. apply demo_tree_alloc. by left.
  - eapply wp_mono; [exact Hn|]. intros o s' Ho. rewrite Er in Ho. destruct Ho as (ip & -> & Hat & _). by exists ip.
Defined.
