(* ===== verification/Durable.v ===== *)
(** * Durable: from one transaction to the next

    A process between two transactions on an otherwise quiet system: [begin_op]
    opens a transaction without waiting and the matching [end_op] commits it.
    Everything the file system means - files, directories, free blocks - is kept
    by the commit, and is on the disk afterwards. *)

From S2P Require Import Prelude State Lock Bio BufSpec Log Crash Inode Devs Fs Txn Blocks FsData Dinode FsFile.

(** ** States with the same file system *)

(** Same blocks outside the log, same superblock and log area. *)
Record hview (s s' : kernel) : Prop := {
  hv_lblk : ∀ m, home_block s m → lblk s' m = lblk s m;
  hv_sb : k_sb s' = k_sb s;
  hv_disksize : k_disksize s' = k_disksize s;
  hv_start : l_start (k_log s') = l_start (k_log s);
  hv_lsize : l_size (k_log s') = l_size (k_log s) }.

Section HomeView.
Context (s s' : kernel) (V : hview s s').
Implicit Type v : inode.

Lemma hv_home m : home_block s' m ↔ home_block s m.
Proof. destruct V. unfold home_block. by rewrite hv_disksize0, hv_start0, hv_lsize0. Qed.
Lemma hv_bmap_blk m : bmap_blk s' m ↔ bmap_blk s m.
Proof. unfold bmap_blk. by rewrite (hv_sb _ _ V). Qed.
Lemma hv_inode_blk m : inode_blk s' m ↔ inode_blk s m.
Proof. unfold inode_blk. by rewrite (hv_sb _ _ V). Qed.
Lemma hv_data_blk m : data_blk s' m ↔ data_blk s m.
Proof. unfold data_blk. by rewrite hv_home, hv_bmap_blk, hv_inode_blk, (hv_sb _ _ V). Qed.

Context (F : fs_ok s).
Lemma hv_isfree x : 0 ≤ x < sb_size (k_sb s) → isfree s' x = isfree s x.
Proof.
  intros Hx. unfold isfree. rewrite (hv_sb _ _ V), (hv_lblk _ _ V); [done|]. apply (fs_bmap s F). by exists x.
Qed.
Lemma hv_fs_ok : fs_ok s'.
Proof.
  destruct F as [F1 F2 F3 F4 F5 F6]. split; rewrite ?(hv_sb _ _ V), ?(hv_disksize _ _ V); try done.
  - intros n. rewrite hv_bmap_blk, hv_home. auto.
  - intros n. rewrite hv_inode_blk, hv_home, hv_bmap_blk. auto.
  - intros b Hb. rewrite hv_isfree, hv_data_blk by done. auto.
Qed.
Lemma hv_dinode j : 0 ≤ j < sb_ninodes (k_sb s) → dinode_at s' j = dinode_at s j.
Proof.
  intros Hj. unfold dinode_at. rewrite (hv_sb _ _ V), (hv_lblk _ _ V); [done|]. apply (fs_inode s F). by exists j.
Qed.
Lemma hv_inode_ok v : inode_ok s v → inode_ok s' v.
Proof. intros []. split; [by rewrite (hv_sb _ _ V)|done..]. Qed.
Lemma hv_ondisk v : inode_ok s v → ondisk s v → ondisk s' v.
Proof. intros I. unfold ondisk. rewrite hv_dinode by apply I. done. Qed.
Lemma hv_nfree : nfree s' = nfree s.
Proof.
  unfold nfree. rewrite (hv_sb _ _ V). f_equal. apply filter_ext_in. intros x Hx%elem_of_seqZ. by rewrite hv_isfree by lia.
Qed.
Lemma hv_supply v : supply s' v = supply s v.
Proof. unfold supply. by rewrite hv_nfree. Qed.

Lemma hv_blk v q : blocks_ok s v → blk s' v q = blk s v q.
Proof.
  intros B. apply blk_frame. intros Hi. apply V. apply (kb_used s v B 12); [unfold NPOS; lia|exact Hi].
Qed.
Lemma hv_file_ok v : file_ok s v → file_ok s' v.
Proof.
  intros [B T Z Hf]. split; [|done|done|].
  - split; [apply B|apply B| |].
    + intros q Hq. rewrite hv_blk, hv_data_blk by done. intros H0. destruct (kb_used s v B q Hq H0) as [Hd Hu].
      split; [done|]. by rewrite hv_isfree by (by apply data_in_range).
    + intros q r Hq Hr. rewrite !hv_blk by done. by apply B.
  - intros k Hk. rewrite hv_blk by done. by apply Hf.
Qed.
Lemma hv_contents v : file_ok s v → contents s' v = contents s v.
Proof.
  intros [B T Z Hf]. unfold contents. apply list_fmap_ext. intros j x [-> Hx]%lookup_seq. simpl in *.
  change (MAXFILE * BSIZE) with 71680 in Z. pose proof (Nat.div_mod j 512 ltac:(lia)) as Hdm.
  unfold fbyte. rewrite hv_blk by done. rewrite (hv_lblk _ _ V); [done|].
  apply (kb_used s v B); [apply fpos_lt|apply Hf; lia]. apply Nat.Div0.div_lt_upper_bound. lia.
Qed.
End HomeView.

Lemma hview_trans s1 s2 s3 : hview s1 s2 → hview s2 s3 → hview s1 s3.
Proof.
  intros V1 V2. destruct V2 as [H1 H2 H3 H4 H5].
  split; [|rewrite ?H2, ?H3, ?H4, ?H5; apply V1..]. intros m Hm. rewrite H1; [by apply V1|by apply (hv_home _ _ V1)].
Qed.

(** ** Transaction boundaries *)

Section Boundary.
Context `{WaitBound}.
Context (i : nat) (p : proc).
Implicit Types (s : kernel) (W : list Z).

(** Between two transactions: the log is empty, nothing is pinned. *)
Record settled s : Prop := {
  se_st : st i p [] s;
  se_log : log_ok s;
  se_n : lh_n (k_log s) = 0;
  se_out : l_outstanding (k_log s) = 0;
  se_open : l_committing (k_log s) = false;
  se_clean : ∀ m, ¬ isdirty s m;
  se_size : TXMAX < l_size (k_log s) - 1 ∧ l_size (k_log s) ≤ Z.of_nat NBUF }.

(** Inside the only transaction of the system. *)
Record alone W s : Prop := {
  al_tx : tx i p [] W s;
  al_one : l_outstanding (k_log s) = 1;
  al_open : l_committing (k_log s) = false }.

Lemma settled_disk s m : settled s → 0 ≤ m < k_disksize s → k_disk s !! m = Some (lblk s m).
Proof. intros [S _ _ _ _ C _] Hm. by apply (lblk_clean i p). Qed.

Lemma wp_begin s (Q : unit → kernel → Prop) :
  settled s →
  (∀ s', alone [] s' → hview s s' → k_icache s' = k_icache s → k_ftable s' = k_ftable s → Q tt s') → wp begin_op Q s.
Proof.
  intros [S L N O C D Z] HQ. apply wp_begin_op; [apply S|unfold must_wait; rewrite C, O, N; done|].
  apply HQ; [|by split|done..]. split; [|simpl; lia|done]. assert (txn (enter (k_log s)) = []) as Et by (unfold txn; simpl; by rewrite N).
  split; [split|..].
  - by apply st_set_log.
  - constructor.
  - constructor.
  - intros bi n Hin. by apply not_elem_of_nil in Hin.
  - intros m Hm. by apply D in Hm.
  - discriminate.
  - simpl. lia.
  - destruct L as [L1 L2 L3 L4 L5 L6 L7]. by split.
  - split; simpl; rewrite Et; [constructor|]. intros m. split; [intros Hm; by apply D in Hm|by intros ?%not_elem_of_nil].
  - simpl. lia.
  - simpl. rewrite Et. apply list_subseteq_nil.
  - done.
Qed.

(** The commit: blocks outside the log keep their contents, and are on disk. *)
Lemma wp_end W s (Q : unit → kernel → Prop) :
  alone W s →
  (∀ s', settled s' → hview s s' → k_icache s' = k_icache s → k_ftable s' = k_ftable s → Q tt s') → wp end_op Q s.
Proof.
  intros [[[S _ _ _ _ _ _] L T _ _ Z] O C] HQ. apply (wp_end_op_last i p); [done..|]. intros s1 S1 Hw L1.
  set (s2 := do_wakeup ChLog _).
  assert (∀ m, ¬ isdirty s2 m) as Hnd.
  { intros m. change (¬ isdirty s1 m). rewrite (wr_dirty _ _ _ Hw). intros [Hd Hni]. apply (tx_dirty _ T) in Hd.
    by apply Hni, (commit_writes_txn s). }
  pose proof (wrote_disksize _ _ _ Hw) as Esz. destruct (Log.wr_only _ _ _ Hw) as (lg & bc & pt & d & w & E & Hpt).
  apply HQ.
  - split.
    + destruct S1 as [B R A Lk T1 Hl Hq]. split; try done.
      * destruct B as [B1 B2 B3 B4]. split; try done. intros j b Hj Hb. by destruct (B2 j b Hj Hb).
      * apply running_wakeup; [|done]. exact R.
    + destruct L as [K1 K2 K3 K4 K5 K6 K7].
      split; try done; change (k_disksize s2) with (k_disksize s1); rewrite ?Esz; try done.
      * simpl. lia.
      * intros b Hb. by apply elem_of_nil in Hb.
    + done.
    + done.
    + done.
    + done.
    + done.
  - split; try done; [|simpl; by rewrite E..].
    intros m Hm. change (lblk s1 m = lblk s m). rewrite (view_clean i p s1 m S1 (Hnd m)).
    + rewrite (wr_disk _ _ _ Hw). exact (commit_home i p s S L T m Hm).
    + rewrite Esz. apply Hm.
  - simpl. by rewrite E.
  - simpl. by rewrite E.
Qed.
End Boundary.
