(* ===== verification/File.v ===== *)
(** * File: the file table (file.c) and [pipealloc] (pipe.c)

    Open files are slots of [ftable], named by their index.  As in the rest of
    the model, bytes stored through a pointer are returned beside the result and
    bytes read through a pointer are an argument. *)

From S2P Require Import Prelude State Lock Kalloc Vm Pipe Bio Log Inode Devs Fs.

(** The first slot with no reference. *)
Fixpoint ftable_scan (l : list file) (j : nat) : option nat :=
  match l with
  | [] => None
  | f :: l' => if f_ref f =? 0 then Some j else ftable_scan l' (S j)
  end.

Definition filealloc : K (option nat) :=
  acquire Lftable ;;
  l ← gets k_ftable;
  match ftable_scan l 0 with
  | Some j => upd_file j (set_f_ref 1) ;; release Lftable ;; mret (Some j)
  | None => release Lftable ;; mret None
  end.

Definition filedup (f : nat) : K nat :=
  acquire Lftable ;;
  v ← get_file f;
  if f_ref v <? 1 then panic "filedup" else
  upd_file f (λ v, set_f_ref (f_ref v + 1) v) ;;
  release Lftable ;;
  mret f.

Section Ops.
Context `{WaitBound} `{KernEnd}.

Definition fileclose (f : nat) : K unit :=
  acquire Lftable ;;
  v ← get_file f;
  if f_ref v <? 1 then panic "fileclose" else
  upd_file f (λ v, set_f_ref (f_ref v - 1) v) ;;
  ff ← get_file f;
  if f_ref ff >? 0 then release Lftable else
  upd_file f (λ v, set_f_type FD_NONE (set_f_ref 0 v)) ;;
  release Lftable ;;
  match f_type ff with
  | FD_PIPE => pipeclose (f_pipe ff) (f_writable ff)
  | FD_INODE => ip ← deref (f_ip ff); begin_op ;; iput ip ;; end_op
  | FD_NONE => mret tt
  end.

(** The result is 0 with the [struct stat], or -1. *)
Definition filestat (f : nat) : K (option stat) :=
  v ← get_file f;
  match f_type v with
  | FD_INODE =>
      ip ← deref (f_ip v);
      ilock ip ;;
      st ← stati ip;
      iunlock ip ;;
      mret (Some st)
  | _ => mret None
  end.

Definition fileread (f : nat) (n : Z) : K (list Z * Z) :=
  v ← get_file f;
  if negb (f_readable v) then mret ([], -1) else
  match f_type v with
  | FD_PIPE =>
      o ← piperead (f_pipe v) (Z.to_nat n);
      match o with None => mret ([], -1) | Some bs => mret (bs, Z.of_nat (length bs)) end
  | FD_INODE =>
      ip ← deref (f_ip v);
      ilock ip ;;
      v ← get_file f;
      r ← readi ip (f_off v) (u32 n);
      when (r.2 >? 0) (upd_file f (λ v, set_f_off (u32 (f_off v + r.2)) v)) ;;
      iunlock ip ;;
      mret r
  | FD_NONE => panic "fileread"
  end.

(** A write is split so that one round fits in a transaction. *)
Definition filewrite_max : Z := (MAXOPBLOCKS - 1 - 1 - 2) / 2 * 512.

(** One transaction of the loop of [filewrite]: [n1] bytes from [addr + i]. *)
Definition filewrite_round (f : nat) (addr : list Z) (i n1 : Z) : K Z :=
  begin_op ;;
  v ← get_file f;
  ip ← deref (f_ip v);
  ilock ip ;;
  v ← get_file f;
  r ← writei ip (slice (Z.to_nat i) (Z.to_nat n1) addr) (f_off v) n1;
  when (r >? 0) (upd_file f (λ v, set_f_off (u32 (f_off v + r)) v)) ;;
  iunlock ip ;;
  end_op ;;
  mret r.

(** The loop of [filewrite]: the final value of [i].  Every round that does not
    leave the loop writes at least one byte, so [n] rounds are enough. *)
Fixpoint filewrite_loop (fuel : nat) (f : nat) (addr : list Z) (n i : Z) : K Z :=
  if i <? n then
    let n1 := n - i in
    let n1 := if n1 >? filewrite_max then filewrite_max else n1 in
    r ← filewrite_round f addr i n1;
    if r <? 0 then mret i else
    if negb (r =? n1) then panic "short filewrite" else
    match fuel with O => nofuel | S fuel' => filewrite_loop fuel' f addr n (i + r) end
  else mret i.

(** [addr]: the [n] bytes at the user's address. *)
Definition filewrite (f : nat) (addr : list Z) (n : Z) : K Z :=
  v ← get_file f;
  if negb (f_writable v) then mret (-1) else
  match f_type v with
  | FD_PIPE => pipewrite (f_pipe v) (take (Z.to_nat n) addr)
  | FD_INODE =>
      i ← filewrite_loop (Z.to_nat n) f addr n 0;
      mret (if i =? n then n else -1)
  | FD_NONE => panic "filewrite"
  end.

Definition filelock (fp : nat) : K Z :=
  v ← get_file fp;
  match f_ip v with
  | None => mret (-1)
  | Some ip =>
      w ← get_inode ip;
      if i_ref w <? 1 then mret (-1) else
      fsemaphore_lock ip ;; mret 0
  end.

Definition fileunlock (fp : nat) : K Z :=
  v ← get_file fp;
  match f_ip v with
  | None => mret (-1)
  | Some ip =>
      h ← holdingsleep (SFlock ip);
      w ← get_inode ip;
      if h && negb (i_ref w <? 1) then fsemaphore_unlock ip ;; mret 0 else mret (-1)
  end.

(** The cleanup at label [bad] of [pipealloc]. *)
Definition pipealloc_bad (p : Z) (f0 f1 : option nat) : K (option (nat * nat)) :=
  when (negb (p =? 0)) (kfree p) ;;
  match f0 with Some f => fileclose f | None => mret tt end ;;
  match f1 with Some f => fileclose f | None => mret tt end ;;
  mret None.
(** 0 with the two files, or -1.  [struct pipe] starts with a 52-byte spin-lock;
    [data] keeps what the page held. *)
Definition pipealloc : K (option (nat * nat)) :=
  o0 ← filealloc;
  match o0 with
  | None => pipealloc_bad 0 None None
  | Some f0 =>
      o1 ← filealloc;
      match o1 with
      | None => pipealloc_bad 0 (Some f0) None
      | Some f1 =>
          p ← kalloc;
          if p =? 0 then pipealloc_bad 0 (Some f0) (Some f1) else
          mem ← gets k_mem;
          pg ← deref (mem !! p);
          modify (λ s, set_k_pipes
            (<[p := mkPipe (slice 52 (Z.to_nat PIPESIZE) (page_bytes pg)) 0 0 true true]> (k_pipes s)) s) ;;
          upd_file f0 (λ v, set_f_pipe p (set_f_writable false (set_f_readable true (set_f_type FD_PIPE v)))) ;;
          upd_file f1 (λ v, set_f_pipe p (set_f_writable true (set_f_readable false (set_f_type FD_PIPE v)))) ;;
          mret (Some (f0, f1))
      end
  end.
End Ops.
