(* ===== verification/FileWrite.v ===== *)
(** * FileWrite: a write system call's transactions, end to end

    [filewrite] cuts a long write into rounds, each a transaction of its own:
    [begin_op], lock the inode, [writei], advance the offset, unlock, [end_op].
    This file composes the theorems on the log, the inode cache and [writei]:
    on a system where nobody else is in a transaction, the call stores all the
    bytes, and everything it wrote is on disk when it returns. *)

From S2P Require Import Prelude State Lock Pipe Bio BufSpec Log Crash Inode Devs Fs Txn Blocks FsData Dinode FsFile Icache Dirs Paths Durable Kalloc File DemoFs.

(** ** Frame lemmas *)

Section Frames.
Implicit Types s : kernel.

Lemma tx_ftable i p Hd W l s : tx i p Hd W s → tx i p Hd W (set_k_ftable l s).
Proof.
  intros [[S N1 N2 Hh Hp Hr Hf] L X O Sub Z]. split; [split|..]; try done.
  - destruct S as [B R A Lk T Hl Hq]. split; try done.
    destruct B as [B1 B2 B3 B4]. split; try done. intros j b Hj Hb. by destruct (B2 j b Hj Hb).
  - by destruct L.
  - by destruct X.
Qed.
Lemma iview_ftable s s' : iview s s' → k_ftable s' = k_ftable s.
Proof. intros [(bc & pt & d & w & E & _) _ _ _ _]. by rewrite E. Qed.
Lemma fs_only_ftable s s' : fs_only s s' → k_ftable s' = k_ftable s.
Proof. intros (bc & pt & lg & E & _). change (k_ftable s) with (k_ftable (set_k_icache (k_icache s') s)). by rewrite E. Qed.
Lemma fs_only_count s s' : fs_only s s' →
  l_outstanding (k_log s') = l_outstanding (k_log s) ∧ l_committing (k_log s') = l_committing (k_log s).
Proof. intros O. by apply tx_only_count in O. Qed.
Lemma file_ok_lock s l v : file_ok s v → file_ok s (set_i_lock l v).
Proof. intros [[B1 B2 B3 B4] T Z F]. split; [split|..]; done. Qed.
Lemma contents_lock s l v : contents s (set_i_lock l v) = contents s v.
Proof. done. Qed.
Lemma blk_lock s l v q : blk s (set_i_lock l v) q = blk s v q.
Proof. done. Qed.
Lemma inode_ok_lock s l v : inode_ok s v → inode_ok s (set_i_lock l v).
Proof. intros []. by split. Qed.
Lemma nblk_round off n : Z.of_nat n ≤ filewrite_max → (nblk off n ≤ 4)%nat.
Proof.
  change filewrite_max with 1536. intros Hn. unfold nblk. case_decide; [lia|].
  pose proof (Nat.mod_upper_bound off 512 ltac:(lia)). apply Nat.lt_succ_r, Nat.Div0.div_lt_upper_bound. lia.
Qed.
Lemma nblk_mono off a b : (a ≤ b → nblk off a ≤ nblk off b)%nat.
Proof. intros Hab. unfold nblk. repeat case_decide; [lia..|]. apply Nat.Div0.div_le_mono. lia. Qed.
(** Cutting a write in two touches at most one block twice. *)
Lemma nblk_cut off a b : (nblk off a + nblk (off + a) b ≤ nblk off (a + b) + 1)%nat.
Proof.
  unfold nblk. repeat case_decide; try lia. all: subst; rewrite ?Nat.add_0_r; try lia.
  - simpl. assert (∀ x, (x ≤ x + 1)%nat) as Hx by lia. apply Hx.
  - rewrite Nat.Div0.add_mod. pose proof (Nat.div_mod (off mod 512 + a mod 512) 512 ltac:(lia)) as E1.
    pose proof (Nat.div_mod a 512 ltac:(lia)) as E2.
    pose proof (Nat.mod_upper_bound off 512 ltac:(lia)). pose proof (Nat.mod_upper_bound a 512 ltac:(lia)).
    set (m := (off mod 512)%nat) in *. set (d := ((m + a mod 512) mod 512)%nat) in *.
    assert (d < 512)%nat by (apply Nat.mod_upper_bound; lia).
    apply Nat.lt_succ_r. clearbody m d.
    pose proof (Nat.Div0.mul_div_le (m + a + 511) 512) as D1. pose proof (Nat.Div0.mul_div_le (d + b + 511) 512) as D2.
    pose proof (Nat.mul_succ_div_gt (m + (a + b) + 511) 512 ltac:(lia)) as D3. lia.
Qed.
Lemma nblk_tail off a b : (0 < a → a ≤ b → nblk (off + a) (b - a) ≤ nblk off b)%nat.
Proof.
  intros Ha Hb. pose proof (nblk_cut off a (b - a)) as Hc. replace (a + (b - a))%nat with b in Hc by lia.
  assert (1 ≤ nblk off a)%nat; [|lia]. unfold nblk. rewrite decide_False by lia. apply Nat.div_le_lower_bound; lia.
Qed.
End Frames.

Lemma iview_hview s s' : iview s s' → hview s s'.
Proof.
  intros V. split; [intros; by apply iview_lblk|by apply iview_sb|by apply iview_disksize|by rewrite (iview_log _ _ V)..].
Qed.
Lemma ftable_hview l s : hview s (set_k_ftable l s).
Proof. by split. Qed.

(** ** What a round does *)

#[local] Abbreviation size v := (Z.to_nat (i_size v)).

(** [bs] stored at [off] in the file of inode slot [ip]; blocks are taken for growth only. *)
Record stored (ip : nat) (s : kernel) (v : inode) (off : nat) (bs : list Z) (s' : kernel) (v' : inode) : Prop := {
  sd_slots : k_icache s' = <[ip := v']> (k_icache s);
  sd_sb : k_sb s' = k_sb s;
  sd_data : ∀ m, data_blk s' m ↔ data_blk s m;
  sd_meta : i_inum v' = i_inum v ∧ i_type v' = i_type v ∧ i_nlink v' = i_nlink v ∧ i_ref v' = i_ref v;
  sd_size : i_size v' = Z.max (i_size v) (Z.of_nat (off + length bs));
  sd_contents : contents s' v' = splice off bs (contents s v);
  sd_inodes : ∀ j, 0 ≤ j < sb_ninodes (k_sb s) → j ≠ i_inum v → dinode_at s' j = dinode_at s j;
  sd_frame : ∀ m, isfree s m = false → data_blk s m → (∀ q, (q < NPOS)%nat → blk s v q ≠ m) →
    lblk s' m = lblk s m ∧ isfree s' m = false ∧ ∀ q, (q < NPOS)%nat → blk s' v' q ≠ m;
  sd_supply : (supply s v + nb (size v) ≤ supply s' v' + nb (size v'))%nat }.

Lemma stored_trans ip s v off bs s1 v1 bs' s2 v2 :
  0 ≤ i_size v → (off ≤ size v)%nat →
  stored ip s v off bs s1 v1 → stored ip s1 v1 (off + length bs) bs' s2 v2 →
  stored ip s v off (bs ++ bs') s2 v2.
Proof.
  intros Hz Ho [A1 A2 A3 (A4 & A4' & A4'' & A4''') A5 A6 A7 A8 A9] [B1 B2 B3 (B4 & B4' & B4'' & B4''') B5 B6 B7 B8 B9]. split.
  - by rewrite B1, A1, list_insert_insert_eq.
  - congruence.
  - intros m. by rewrite B3.
  - split_and!; congruence.
  - rewrite B5, A5, length_app. lia.
  - rewrite B6, A6. symmetry. apply splice_app. pose proof (length_contents s v Hz). lia.
  - intros j Hj Hne. rewrite B7, A7; [done..|by rewrite A2|congruence].
  - intros m Hu Hd Hq. destruct (A8 m Hu Hd Hq) as (E & U & N). destruct (B8 m U) as (E' & U' & N'); [by apply A3|done|].
    split_and!; [congruence|done|done].
  - lia.
Qed.

Lemma stored_nil ip s v off : 0 ≤ i_size v → (off ≤ size v)%nat → k_icache s !! ip = Some v → stored ip s v off [] s v.
Proof.
  intros Hz Ho Hs. split; try done.
  - by rewrite list_insert_id.
  - simpl. lia.
  - by rewrite splice_nil.
Qed.

(** [writei] between a state and one with the same blocks, the inode's lock aside. *)
Lemma stored_written ip s v l s2 off bs s3 v3 s6 :
  fs_ok s → file_ok s v → k_icache s !! ip = Some v → hview s s2 → k_icache s2 = <[ip := set_i_lock l v]> (k_icache s) →
  written ip s2 (set_i_lock l v) off bs s3 v3 → fs_ok s3 → hview s3 s6 → k_icache s6 = <[ip := unlocked v3]> (k_icache s3) →
  stored ip s v off bs s6 (unlocked v3).
Proof.
  intros F FO Hs V Es2 Hw F3 V' Es6. pose proof (hv_fs_ok s s2 V F) as F2. pose proof (fo_blocks s v FO) as B.
  pose proof (fs_only_sb _ _ (wn_only _ _ _ _ _ _ _ Hw)) as Esb. pose proof (wn_file _ _ _ _ _ _ _ Hw) as FO3.
  destruct Hw as [_ W2 [a W3] W4 W5 _ W7 W8 W9].
  assert (∀ m, data_blk s6 m ↔ data_blk s m) as Hdata.
  { intros m. by rewrite (hv_data_blk s3 s6 V'), (fs_only_data_blk _ _ _ W4), (hv_data_blk s s2 V). }
  split.
  - by rewrite Es6, W2, Es2, !list_insert_insert_eq.
  - by rewrite (hv_sb _ _ V'), Esb, (hv_sb _ _ V).
  - exact Hdata.
  - by rewrite W3.
  - by rewrite W3.
  - change (contents s6 (unlocked v3)) with (contents s6 v3). rewrite (hv_contents s3 s6 V' v3 FO3), W5.
    change (contents s2 (set_i_lock l v)) with (contents s2 v). by rewrite (hv_contents s s2 V v FO).
  - intros j Hj Hne. rewrite (hv_dinode s3 s6 V' F3), W7, (hv_dinode s s2 V F); try done.
    + by rewrite (hv_sb _ _ V).
    + by rewrite Esb, (hv_sb _ _ V).
  - intros m Hu Hd Hq. pose proof (data_in_range s m Hd) as Hr.
    destruct (W8 m) as (E & U & N).
    + by rewrite (hv_isfree s s2 V F).
    + by apply (hv_data_blk s s2 V).
    + intros q Hl. change (blk s2 (set_i_lock l v) q) with (blk s2 v q). rewrite (hv_blk s s2 V v q B). by apply Hq.
    + assert (data_blk s3 m) as Hd3 by (apply (fs_only_data_blk _ _ _ W4), (hv_data_blk s s2 V), Hd). split_and!.
      * rewrite (hv_lblk _ _ V' m), E by apply Hd3. apply (hv_lblk _ _ V). apply Hd.
      * by rewrite (hv_isfree s3 s6 V' F3) by (by apply data_in_range).
      * intros q Hl. change (blk s6 (unlocked v3) q) with (blk s6 v3 q). rewrite (hv_blk s3 s6 V' v3 q (fo_blocks _ _ FO3)). by apply N.
  - rewrite <- (hv_supply s s2 V F v). change (supply s6 (unlocked v3)) with (supply s6 v3).
    rewrite (hv_supply s3 s6 V' F3 v3). exact W9.
Qed.

(** ** One round *)

Section Round.
Context `{WaitBound}.
Context (i : nat) (p : proc) (f ip : nat).
Implicit Types (s : kernel) (v : inode) (fl : file).

(** Open file [f] refers to the inode in slot [ip]; no transaction is open. *)
Record wfile s fl v : Prop := {
  wf_settled : settled i p s;
  wf_fs : fs_ok s;
  wf_one : sb_size (k_sb s) ≤ BPB;
  wf_file : k_ftable s !! f = Some fl;
  wf_ip : f_ip fl = Some ip;
  wf_slot : k_icache s !! ip = Some v;
  wf_inode : 1 ≤ i_ref v ∧ sl_locked (i_lock v) = false ∧ i_dev v = 1 ∧ i_valid v = true;
  wf_ok : file_ok s v;
  wf_iok : inode_ok s v;
  wf_disk : ondisk s v;
  wf_off : 0 ≤ f_off fl ≤ i_size v }.

Lemma wp_round_tail W s fl v (n : Z) (Q : Z → kernel → Prop) :
  alone i p W s → k_icache s !! ip = Some v → 1 ≤ i_ref v → i_lock v = mkSleeplock true (p_pid p) →
  k_ftable s !! f = Some fl → 0 < n →
  (∀ s', settled i p s' → hview s s' → k_icache s' = <[ip := unlocked v]> (k_icache s) →
     k_ftable s' = <[f := set_f_off (u32 (f_off fl + n)) fl]> (k_ftable s) → Q n s') →
  wp (when (n >? 0) (upd_file f (λ w, set_f_off (u32 (f_off w + n)) w)) ;; iunlock ip ;; end_op ;; mret n) Q s.
Proof.
  intros [T O C] Hs Hr Hl Hf Hn HQ. rewrite Z.gtb_ltb, (proj2 (Z.ltb_lt _ _)) by done. apply wp_bind, wp_modify.
  rewrite (list_alter_insert _ _ _ _ Hf). set (s1 := set_k_ftable _ s). pose proof (tx_ftable _ _ _ _ (k_ftable s1) s T) as T1.
  change (set_k_ftable _ s) with s1 in T1. apply wp_bind. eapply (wp_iunlock i p W); [apply T1|exact Hs|done|done|].
  intros s2 Q2 V2 I2. pose proof (tx_iview _ _ _ _ _ _ T1 Q2 V2) as T2.
  apply wp_bind, (wp_end i p W); [split; [done|by rewrite (iview_log _ _ V2)..]|].
  intros s3 Se3 V3 I3 Ft3. apply wp_ret, HQ; [done| |by rewrite I3, I2|by rewrite Ft3, (iview_ftable _ _ V2)].
  eapply hview_trans; [apply (ftable_hview (k_ftable s1))|]. by eapply hview_trans; [apply iview_hview, V2|].
Qed.

Lemma wp_filewrite_round s fl v addr (k n : nat) (Q : Z → kernel → Prop) :
  wfile s fl v → (0 < n)%nat → Z.of_nat n ≤ filewrite_max → (k + n ≤ length addr)%nat →
  f_off fl + Z.of_nat n ≤ MAXFILE * BSIZE → (nblk (Z.to_nat (f_off fl)) n + 1 ≤ supply s v)%nat →
  (∀ s' v', let fl' := set_f_off (f_off fl + Z.of_nat n) fl in
     wfile s' fl' v' → stored ip s v (Z.to_nat (f_off fl)) (slice k n addr) s' v' →
     k_ftable s' = <[f := fl']> (k_ftable s) → Q (Z.of_nat n) s') →
  wp (filewrite_round f addr (Z.of_nat k) (Z.of_nat n)) Q s.
Proof.
  intros [Se F One Hf Hip Hs (Hr & Hl & Hdev & Hval) FO IO OD Hoff] Hn Hmax Hk Hsz Hsup HQ.
  change (MAXFILE * BSIZE) with 71680 in Hsz. set (off := Z.to_nat (f_off fl)) in *. pose proof (nblk_round off n Hmax) as Hnb.
  assert (Z.of_nat off = f_off fl) as Eoff by (unfold off; lia).
  unfold filewrite_round. apply wp_bind. apply (wp_begin i p); [done|]. intros s1 [T1 O1 C1] V1 I1 Ft1.
  apply wp_bind. eapply wp_get_file; [by rewrite Ft1|]. rewrite Hip. apply wp_bind. eapply wp_deref; [reflexivity|].
  apply wp_bind. eapply (wp_ilock i p []); [apply T1|by apply (hv_fs_ok s s1 V1)|by rewrite I1|done|done|done|by rewrite Hval|].
  unfold locked. cbn [i_valid set_i_lock]. rewrite Hval.
  set (vl := set_i_lock (mkSleeplock true (p_pid p)) v). intros s2 Q2 V2 I2.
  pose proof (tx_iview i p [] [] s1 s2 T1 Q2 V2) as T2. pose proof (hview_trans _ _ _ V1 (iview_hview _ _ V2)) as V12.
  assert (k_ftable s2 = k_ftable s) as Ft2 by (by rewrite (iview_ftable _ _ V2)).
  rewrite I1 in I2. assert (k_icache s2 !! ip = Some vl) as Hs2.
  { rewrite I2. apply list_lookup_insert_eq. by eapply lookup_lt_Some. }
  apply wp_bind. eapply wp_get_file; [by rewrite Ft2|]. rewrite !Nat2Z.id.
  assert (file_ok s2 vl) as FO2 by (by apply file_ok_lock, (hv_file_ok s s2 V12 F)).
  assert (fs_ok s2) as F2 by (by apply (hv_fs_ok s s2 V12)).
  assert (length (slice k n addr) = n) as Hbs by (by rewrite length_slice by lia).
  apply wp_bind. rewrite <- Eoff. rewrite <- Hbs at 2.
  pose proof (load_bounds (addw (BBLOCK 0 (k_sb s2)) []) vl) as Hlb. assert (length (addw (BBLOCK 0 (k_sb s2)) []) = 1%nat) as Hla by done.
  eapply (wp_writei i p ip).
  - apply fctx_intro; [exact T2|done|exact Hs2|apply FO2|by rewrite (hv_sb _ _ V12)|unfold TXMAX; simpl; lia].
  - done.
  - by apply inode_ok_lock, (hv_inode_ok s s2 V12).
  - unfold off. change (i_size vl) with (i_size v). lia.
  - rewrite Hbs. lia.
  - rewrite Hbs. unfold TXMAX. lia.
  - rewrite Hbs. change (supply s2 vl) with (supply s2 v). rewrite (hv_supply s s2 V12 F). lia.
  - rewrite Hbs. intros W3 s3 v3 Hw C3 _. pose proof (wn_only _ _ _ _ _ _ _ Hw) as Ho3.
    destruct (fs_only_count _ _ Ho3) as [O3 K3]. rewrite (iview_log _ _ V2) in O3, K3.
    destruct (wn_inode _ _ _ _ _ _ _ Hw) as [a Ea].
    eapply (wp_round_tail W3 s3 fl v3); [by split; [apply C3|congruence..]|apply C3|by rewrite Ea|by rewrite Ea|
      by rewrite (fs_only_ftable _ _ Ho3), Ft2|lia|].
    intros s6 Se6 V6 I6 Ft6. rewrite u32_small in Ft6 by lia. rewrite (fs_only_ftable _ _ Ho3), Ft2 in Ft6.
    pose proof (hv_fs_ok s3 s6 V6 (fc_fs C3)) as F6. pose proof (wn_file _ _ _ _ _ _ _ Hw) as FO3.
    pose proof (stored_written ip s v _ s2 off _ s3 v3 s6 F FO Hs V12 I2 Hw (fc_fs C3) V6 I6) as St.
    assert (inode_ok s3 v3) as IO3.
    { rewrite Ea. destruct IO. split; try done. by rewrite (fs_only_sb _ _ Ho3), (hv_sb _ _ V12). }
    apply (HQ s6 (unlocked v3)); [|exact St|done]. split; try done.
    + by rewrite (sd_sb _ _ _ _ _ _ _ St).
    + rewrite Ft6. apply list_lookup_insert_eq. by eapply lookup_lt_Some.
    + rewrite I6. apply list_lookup_insert_eq. eapply lookup_lt_Some, C3.
    + rewrite Ea. by split_and!.
    + by apply file_ok_lock, (hv_file_ok s3 s6 V6 (fc_fs C3)).
    + by apply inode_ok_lock, (hv_inode_ok s3 s6 V6).
    + apply (hv_ondisk s3 s6 V6 (fc_fs C3) v3 IO3), (wn_disk _ _ _ _ _ _ _ Hw).
      change (ondisk s2 v). by apply (hv_ondisk s s2 V12 F).
    + rewrite (sd_size _ _ _ _ _ _ _ St), Hbs. cbn [f_off set_f_off]. lia.
Qed.

(** ** The loop *)

Lemma slice_drop_cons (addr : list Z) k n : slice k n addr ++ drop (k + n) addr = drop k addr.
Proof. unfold slice. by rewrite <- drop_drop, take_drop. Qed.

(** [e] blocks more than the file takes in the end are enough for every round. *)
Lemma wp_filewrite_loop addr fuel s fl v (k e : nat) (Q : Z → kernel → Prop) :
  let off := Z.to_nat (f_off fl) in
  wfile s fl v → (k ≤ length addr)%nat → (length addr - k ≤ fuel)%nat →
  f_off fl + Z.of_nat (length addr - k) ≤ MAXFILE * BSIZE →
  (nblk off (length addr - k) `min` 4 + 1 ≤ e)%nat →
  (nb (size v `max` (off + (length addr - k))) + e ≤ supply s v + nb (size v))%nat →
  (∀ s' v', let fl' := set_f_off (f_off fl + Z.of_nat (length addr - k)) fl in
     wfile s' fl' v' → stored ip s v (Z.to_nat (f_off fl)) (drop k addr) s' v' →
     k_ftable s' = <[f := fl']> (k_ftable s) → Q (Z.of_nat (length addr)) s') →
  wp (filewrite_loop fuel f addr (Z.of_nat (length addr)) (Z.of_nat k)) Q s.
Proof.
  revert s fl v k. induction fuel as [|fuel IH]; intros s fl v k off Wf Hk Hfu Hsz He Hsup HQ.
  all: destruct (decide (k = length addr)) as [->|Hne]; [|try lia].
  1,2: unfold filewrite_loop; rewrite Z.ltb_irrefl; apply wp_ret; pose proof (wf_off _ _ _ Wf) as Ho;
    rewrite Nat.sub_diag, Z.add_0_r in HQ; assert (set_f_off (f_off fl) fl = fl) as E by (by destruct fl); rewrite E in HQ;
    apply (HQ s v); [done|rewrite drop_all; apply stored_nil; [lia..|apply Wf]|by rewrite list_insert_id by apply Wf].
  cbn [filewrite_loop]. rewrite (proj2 (Z.ltb_lt _ _)) by lia. set (n := ((length addr - k) `min` 1536)%nat).
  replace (if _ >? filewrite_max then _ else _) with (Z.of_nat n).
  2: { change filewrite_max with 1536. unfold n. rewrite Z.gtb_ltb. destruct (Z.ltb_spec 1536 (Z.of_nat (length addr) - Z.of_nat k)); lia. }
  assert (0 < n ∧ n ≤ 1536 ∧ k + n ≤ length addr ∧ (n = 1536 ∨ n = length addr - k))%nat as (Hn0 & Hn1 & Hn2 & Hn3) by lia.
  clearbody n. change (MAXFILE * BSIZE) with 71680 in *.
  apply wp_bind. eapply wp_filewrite_round; [exact Wf|done|change filewrite_max with 1536; lia|done|
    change (MAXFILE * BSIZE) with 71680; lia| |].
  { pose proof (nblk_mono off n (length addr - k) ltac:(lia)). pose proof (nblk_round off n ltac:(change filewrite_max with 1536; lia)).
    pose proof (nb_mono (size v) (size v `max` (off + (length addr - k))) ltac:(lia)). fold off. lia. }
  intros s1 v1 fl1 Wf1 St1 Ft1. pose proof (wf_off _ _ _ Wf) as Ho. pose proof (sd_supply _ _ _ _ _ _ _ St1) as Hs1.
  rewrite (proj2 (Z.ltb_ge _ _)) by lia. rewrite Z.eqb_refl. cbn [negb]. rewrite <- Nat2Z.inj_add.
  assert (f_off fl1 = f_off fl + Z.of_nat n) as Eo by done. assert (length (slice k n addr) = n) as Hbs by (by rewrite length_slice by lia).
  assert (Z.to_nat (f_off fl1) = off + n)%nat as Eo' by (rewrite Eo; unfold off; lia).
  apply (IH s1 fl1 v1 (k + n)%nat); [done|lia|lia|rewrite Eo; change (MAXFILE * BSIZE) with 71680; lia|..]; rewrite ?Eo'.
  { pose proof (nblk_tail off n (length addr - k) Hn0 ltac:(lia)) as Ht.
    replace (length addr - k - n)%nat with (length addr - (k + n))%nat in Ht by lia. lia. }
  { pose proof (sd_size _ _ _ _ _ _ _ St1) as E1. fold off in E1. rewrite Hbs in E1.
    replace (size v1 `max` (off + n + (length addr - (k + n))))%nat with (size v `max` (off + (length addr - k)))%nat by lia. lia. }
  intros s2 v2 fl2 Wf2 St2 Ft2.
  assert (fl2 = set_f_off (f_off fl + Z.of_nat (length addr - k)) fl) as E2.
  { unfold fl2, fl1. destruct fl. simpl.  replace (Z.of_nat (length addr - k)) with (Z.of_nat n + Z.of_nat (length addr - (k + n))) by lia. by rewrite Z.add_assoc. }
  rewrite E2 in Wf2, Ft2. apply (HQ s2 v2); [done| |by rewrite Ft2, Ft1, list_insert_insert_eq].
  rewrite <- (slice_drop_cons addr k n). apply (stored_trans ip s v _ _ s1 v1); [lia|lia|done|].
  by rewrite Hbs.
Qed.
End Round.

(** C5. A write system call, end to end: on an open inode file, with no other
    transaction in progress, room below the maximum file size and enough free
    blocks beyond those the file will take, [filewrite] returns [n] whatever the number of transactions it takes.
    The file then holds the bytes at the old offset, the offset has advanced by
    [n], and no transaction is left open.  Everything is durable: the disk holds
    every block of the new file system.  Other open files, cached inodes, inodes
    on disk and blocks of other files are unchanged.  The rounds are small enough
    for one reservation: the blocks they touch, the bitmap, the indirect block and
    the inode are at most [MAXOPBLOCKS].  A file not open for writing gives -1. *)
Theorem filewrite_contents `{WaitBound} (i : nat) (p : proc) (f ip : nat) (s : kernel) (fl : file) (v : inode) (addr : list Z) :
  let n := Z.of_nat (length addr) in let off := Z.to_nat (f_off fl) in
  wfile i p f ip s fl v → f_type fl = FD_INODE → f_off fl + n ≤ MAXFILE * BSIZE →
  (nb (size v `max` (off + length addr)) + nblk off (length addr) `min` 4 + 1 ≤ nfree s + nb (size v))%nat →
  (∀ o k, Z.of_nat k ≤ filewrite_max → Z.of_nat (nblk o k) + 3 ≤ MAXOPBLOCKS) ∧
  wp (filewrite f addr n) (λ r s',
    if negb (f_writable fl) then r = -1 ∧ s' = s else
    r = n ∧ ∃ v', wfile i p f ip s' (set_f_off (f_off fl + n) fl) v' ∧
      contents s' v' = splice off addr (contents s v) ∧ slice off (length addr) (contents s' v') = addr ∧
      (∀ m, 0 ≤ m < k_disksize s' → k_disk s' !! m = Some (lblk s' m)) ∧
      k_ftable s' = <[f := set_f_off (f_off fl + n) fl]> (k_ftable s) ∧ k_icache s' = <[ip := v']> (k_icache s) ∧
      (∀ j, 0 ≤ j < sb_ninodes (k_sb s) → j ≠ i_inum v → dinode_at s' j = dinode_at s j) ∧
      (∀ m, isfree s m = false → data_blk s m → (∀ q, (q < NPOS)%nat → blk s v q ≠ m) → lblk s' m = lblk s m)) s.
Proof.
  intros n off Wf Ht Hsz Hfree. split.
  { intros o k Hk%(nblk_round o). change MAXOPBLOCKS with 10. lia. }
  unfold filewrite. apply wp_bind. eapply wp_get_file; [apply Wf|]. rewrite Ht. destruct (f_writable fl); [|by apply wp_ret].
  cbn [negb]. apply wp_bind. unfold n at 1 2. pose proof (wf_off _ _ _ _ _ _ _ Wf) as Ho.
  eapply (wp_filewrite_loop i p f ip addr _ s fl v 0 (nblk off (length addr) `min` 4 + 1)); [exact Wf|lia|lia|..];
    rewrite ?Nat.sub_0_r.
  - exact Hsz.
  - fold off. lia.
  - unfold supply. fold off. lia.
  - rewrite drop_0. intros s' v' fl' Wf' St Ft. fold n in fl' |- *. rewrite Z.eqb_refl. apply wp_ret.
    split; [done|]. exists v'. split; [exact Wf'|]. split; [apply St|]. split.
    { rewrite (sd_contents _ _ _ _ _ _ _ St). fold off. unfold slice, splice.
      rewrite drop_app_length', take_app_length; [done|]. rewrite length_take. pose proof (length_contents s v ltac:(lia)). lia. }
    split; [intros m; apply (settled_disk i p), Wf'|]. split; [done|]. split; [apply St|]. split; [apply St|].
    intros m Hu Hd Hq. by destruct (sd_frame _ _ _ _ _ _ _ St m Hu Hd Hq).
Qed.

(** ** A machine with the file open *)

Definition demo_closed : inode := set_i_lock (mkSleeplock false 0) demo_fnode.
Definition demo_openfile : file := mkFile FD_INODE 1 true true 0 (Some 0%nat) 598.
Definition demo_open : kernel :=
  set_k_log (mkLog 2 30 0 false 1 0 (replicate (Z.to_nat LOGSIZE) 0))
    (set_k_ftable (<[0%nat := demo_openfile]> (k_ftable kernel0)) (set_k_icache (<[0%nat := demo_closed]> demo_icache) demo_fs)).

Lemma demo_open_view : hview demo_fs demo_open.
Proof. destruct demo_fs_boot as (_ & _ & _ & _ & El & _). by split; rewrite ?El. Qed.
Lemma demo_open_settled : settled 0 demo_proc demo_open.
Proof.
  destruct demo_fs_boot as (Hs & Hd & Ed & Es & El & _). split; try done.
  - apply st_set_log. apply (q_st _ _ [] []), (tx_quiet 0 demo_proc), tx_ftable, tx_icache, demo_fs_tx.
  - split; unfold home_block; change (k_disksize demo_open) with (k_disksize demo_fs); rewrite ?Es; simpl; try done; try lia.
    intros b Hb%elem_of_nil. done.
Qed.
Lemma demo_open_wfile : wfile 0 demo_proc 0 0 demo_open demo_openfile demo_closed.
Proof.
  pose proof demo_open_view as V. destruct demo_fs_boot as (_ & _ & _ & _ & _ & Esb & _). split; try done.
  - apply demo_open_settled.
  - apply (hv_fs_ok demo_fs); [exact V|apply demo_fs_ok].
  - change (k_sb demo_open) with (k_sb demo_fs). by rewrite Esb.
  - apply (hv_file_ok demo_fs demo_open V demo_fs_ok), file_ok_lock, demo_file_ok.
  - apply (hv_inode_ok demo_fs demo_open V), inode_ok_lock, demo_inode_ok.
  - apply (hv_ondisk demo_fs demo_open V demo_fs_ok); [apply inode_ok_lock, demo_inode_ok|].
    change (dinode_at demo_tree 2 = demo_file). apply demo_tree_inodes.
Qed.

Lemma filewrite_contents_witness :
  wp (filewrite (H := 0%nat) 0 [7; 8; 9] 3) (λ r s', r = 3 ∧ l_outstanding (k_log s') = 0 ∧
    ∃ v', slice 598 3 (contents s' v') = [7; 8; 9]) demo_open.
Proof.
  pose proof (filewrite_contents (H := 0%nat) 0 demo_proc 0 0 demo_open demo_openfile demo_closed [7; 8; 9]) as Hw.
  cbv zeta in Hw. destruct Hw as [_ Hw].
  - apply demo_open_wfile.
  - done.
  - done.
  - rewrite (hv_nfree _ _ demo_open_view demo_fs_ok), demo_nfree. vm_compute. lia.
  - eapply wp_mono; [exact Hw|]. intros r s' (-> & v' & Wf & _ & Hc & _). split; [done|].
    pose proof (wf_settled _ _ _ _ _ _ _ Wf) as [S L _ O _ _ _].
    split; [exact O|]. by exists v'.
Defined.
