(* ===== verification/Proc.v ===== *)
(** * Proc: processes (proc.c)

    Creation, exit and reaping of processes, the scheduler, and the process
    listing.  [sched], [sleep] and [wakeup] are in Lock, [procdump] in Devs.
    The addresses of [forkret] and the image of the first program are set by the
    linker; the kernel stack's trap frame and context are held by value. *)

From S2P Require Import Prelude State Strings Lock Kalloc Vm Pipe Bio Log Inode Devs Fs File.

Class Forkret := forkret_addr : Z.

Definition SEG_UCODE : Z := 3.
Definition SEG_UDATA : Z := 4.
Definition DPL_USER : Z := 3.
Definition FL_IF : Z := 0x200.
Definition MAX_PROC_NAME_LENGTH : Z := 16.

(** ** The listing for user space *)

Record procInfo := mkProcInfo { pi_state : procstate; pi_pid : Z; pi_cpuPercent : Z; pi_name : list Z }.

Definition cpuPercent (currentTicks : Z) (p : proc) : Z :=
  let elapsedTicks := s32 (currentTicks - p_ticksAtStart p) in
  if (elapsedTicks >? 0) && (1 <? p_ticksScheduled p) then
    let c := Z.quot (s32 (p_ticksScheduled p * 100)) elapsedTicks in
    if 100 <? c then 100 else c
  else 0.

(** The loop of [proc_ps] over the slots from [j] on: the entries it stores. *)
Fixpoint proc_ps_loop (n j : nat) (currentTicks : Z) : K (list procInfo) :=
  match n with
  | O => mret []
  | S n' =>
      p ← get_proc j;
      if bool_decide (p_state p = UNUSED) then proc_ps_loop n' (S j) currentTicks else
      name ← deref (safestrcpy (replicate (Z.to_nat MAX_PROC_NAME_LENGTH) 0) (p_name p) MAX_PROC_NAME_LENGTH);
      r ← proc_ps_loop n' (S j) currentTicks;
      mret (mkProcInfo (p_state p) (p_pid p) (cpuPercent currentTicks p) name :: r)
  end.
(** The entries stored in [arrayOfProcInfo]; their number is the result.  The
    code never looks at [numberOfProcs]. *)
Definition proc_ps (numberOfProcs : Z) : K (list procInfo) :=
  t ← gets k_ticks;
  acquire Lptable ;;
  r ← proc_ps_loop NPROC 0 (s32 t);
  release Lptable ;;
  mret r.

(** ** Creating processes *)

(** The search of [allocproc], which also resets the priority of every slot it
    passes. *)
Fixpoint allocproc_scan (n j : nat) : K (option nat) :=
  match n with
  | O => mret None
  | S n' =>
      upd_proc j (set_p_priority 0) ;;
      p ← get_proc j;
      if bool_decide (p_state p = UNUSED) then mret (Some j) else allocproc_scan n' (S j)
  end.

(** The 19 words of a trap frame; segment registers are the low half of theirs. *)
Definition tf_of_words (ws : list Z) : option trapframe :=
  match ws with
  | [edi; esi; ebp; oesp; ebx; edx; ecx; eax; gs; fs; es; ds; trapno; err; eip; cs; eflags; esp; ss] =>
      Some (mkTrapframe edi esi ebp oesp ebx edx ecx eax (u16 gs) (u16 fs) (u16 es) (u16 ds) trapno
              err eip (u16 cs) eflags esp (u16 ss))
  | _ => None
  end.
Definition TFWORDS : nat := 19.

Section Ops.
Context `{WaitBound} `{KernEnd} `{KernData} `{Forkret}.

Definition allocproc : K (option nat) :=
  acquire Lptable ;;
  o ← allocproc_scan NPROC 0;
  match o with
  | None => release Lptable ;; mret None
  | Some i =>
      pid ← gets k_nextpid;
      upd_proc i (λ p, set_p_pid pid (set_p_state EMBRYO p)) ;;
      modify (set_k_nextpid (s32 (pid + 1))) ;;
      release Lptable ;;
      ks ← kalloc;
      upd_proc i (set_p_kstack ks) ;;
      if ks =? 0 then upd_proc i (set_p_state UNUSED) ;; mret None else
      mem ← gets k_mem;
      pg ← deref (mem !! ks);
      tf ← deref (tf_of_words (drop (PGWORDS - TFWORDS) pg));
      upd_proc i (λ p, set_p_context (mkContext 0 0 0 0 forkret_addr) (set_p_tf tf p)) ;;
      mret (Some i)
  end.

(** [initcode]: the bytes between [_binary_initcode_start] and the end. *)
Definition userinit (initcode : list Z) : K unit :=
  o ← allocproc;
  modify (set_k_initproc o) ;;
  i ← deref o;
  d ← setupkvm;
  upd_proc i (set_p_pgdir d) ;;
  if d =? 0 then panic "userinit: out of memory?" else
  inituvm d initcode ;;
  upd_proc i (set_p_sz PGSIZE) ;;
  let cs := Z.lor (Z.shiftl SEG_UCODE 3) DPL_USER in
  let ds := Z.lor (Z.shiftl SEG_UDATA 3) DPL_USER in
  upd_proc i (set_p_tf (set_tf_eip 0 (set_tf_esp PGSIZE (set_tf_eflags FL_IF
    (set_tf_ss ds (set_tf_es ds (set_tf_ds ds (set_tf_cs cs tf0)))))))) ;;
  p ← get_proc i;
  name ← deref (safestrcpy (p_name p) (str "initcode" ++ [0]) 16);
  upd_proc i (set_p_name name) ;;
  ip ← namei [SLASH];
  upd_proc i (set_p_cwd ip) ;;
  t ← gets k_ticks;
  upd_proc i (λ p, set_p_ticksScheduled 0 (set_p_ticksAtStart (s32 t) p)) ;;
  acquire Lptable ;;
  upd_proc i (set_p_state RUNNABLE) ;;
  release Lptable.

Definition growproc (n : Z) : K Z :=
  i ← curproc;
  p ← get_proc i;
  let sz := p_sz p in
  sz' ← (if n >? 0 then allocuvm (p_pgdir p) sz (u32 (sz + n))
         else if n <? 0 then deallocuvm (p_pgdir p) sz (u32 (sz + n)) else mret sz);
  if negb (n =? 0) && (sz' =? 0) then mret (-1) else
  upd_proc i (set_p_sz sz') ;;
  switchuvm (Some i) ;;
  mret 0.

(** The loop of [fork] over the open files. *)
Definition fork_files (i np : nat) : K unit :=
  forM (seq 0 NOFILE) (λ fd,
    p ← get_proc i;
    o ← deref (p_ofile p !! fd);
    match o with
    | Some f => g ← filedup f; upd_proc np (λ q, set_p_ofile (<[fd := Some g]> (p_ofile q)) q)
    | None => mret tt
    end).

Definition fork : K Z :=
  i ← curproc;
  o ← allocproc;
  match o with
  | None => mret (-1)
  | Some np =>
      p ← get_proc i;
      d ← copyuvm (p_pgdir p) (p_sz p);
      upd_proc np (set_p_pgdir d) ;;
      if d =? 0 then
        q ← get_proc np;
        kfree (p_kstack q) ;;
        upd_proc np (λ q, set_p_state UNUSED (set_p_kstack 0 q)) ;;
        mret (-1)
      else
      upd_proc np (λ q, set_p_tf (set_tf_eax 0 (p_tf p)) (set_p_parent (Some i) (set_p_sz (p_sz p) q))) ;;
      fork_files i np ;;
      cwd ← deref (p_cwd p);
      c ← idup cwd;
      upd_proc np (set_p_cwd (Some c)) ;;
      q ← get_proc np;
      name ← deref (safestrcpy (p_name q) (p_name p) 16);
      upd_proc np (set_p_name name) ;;
      acquire Lptable ;;
      t ← gets k_ticks;
      upd_proc np (λ q, set_p_ticksScheduled 0 (set_p_ticksAtStart (s32 t) (set_p_state RUNNABLE q))) ;;
      release Lptable ;;
      mret (p_pid q)
  end.

(** ** Exit and wait *)

(** [wakeup1(p)] for a process pointer, which may be null. *)
Definition wakeup1_proc (o : option nat) : K unit :=
  match o with
  | Some j => wakeup1 (ChProc j)
  | None => modify (λ s, set_k_ptable ((λ p, if bool_decide (p_state p = SLEEPING) && bool_decide (p_chan p = None)
                                             then set_p_state RUNNABLE p else p) <$> k_ptable s) s)
  end.

(** The loop of [exit] that closes the open files. *)
Definition exit_files (i : nat) : K unit :=
  forM (seq 0 NOFILE) (λ fd,
    p ← get_proc i;
    o ← deref (p_ofile p !! fd);
    match o with
    | Some f => fileclose f ;; upd_proc i (λ p, set_p_ofile (<[fd := None]> (p_ofile p)) p)
    | None => mret tt
    end).
(** The loop that passes abandoned children to init. *)
Definition exit_children (i : nat) : K unit :=
  forM (seq 0 NPROC) (λ j,
    q ← get_proc j;
    if bool_decide (p_parent q = Some i) then
      init ← gets k_initproc;
      upd_proc j (set_p_parent init) ;;
      when (bool_decide (p_state q = ZOMBIE)) (wakeup1_proc init)
    else mret tt).

Definition exit : K unit :=
  i ← curproc;
  init ← gets k_initproc;
  if bool_decide (init = Some i) then panic "init exiting" else
  exit_files i ;;
  begin_op ;;
  p ← get_proc i;
  cwd ← deref (p_cwd p);
  iput cwd ;;
  end_op ;;
  upd_proc i (set_p_cwd None) ;;
  acquire Lptable ;;
  p ← get_proc i;
  wakeup1_proc (p_parent p) ;;
  exit_children i ;;
  upd_proc i (set_p_state ZOMBIE) ;;
  sched ;;
  panic "zombie exit".

(** The scan of [wait] from slot [j] on: the pid of a child it reaped, or
    whether there are children. *)
Fixpoint wait_scan (n j i : nat) (havekids : bool) : K (Z + bool) :=
  match n with
  | O => mret (inr havekids)
  | S n' =>
      p ← get_proc j;
      if negb (bool_decide (p_parent p = Some i)) then wait_scan n' (S j) i havekids else
      if bool_decide (p_state p = ZOMBIE) then
        kfree (p_kstack p) ;;
        upd_proc j (set_p_kstack 0) ;;
        freevm (p_pgdir p) ;;
        upd_proc j (λ p, set_p_state UNUSED (set_p_killed false (set_p_name (<[0%nat := 0]> (p_name p))
          (set_p_parent None (set_p_pid 0 p))))) ;;
        release Lptable ;;
        mret (inl (p_pid p))
      else wait_scan n' (S j) i true
  end.
Fixpoint wait_loop (fuel : nat) (i : nat) : K Z :=
  r ← wait_scan NPROC 0 i false;
  match r with
  | inl pid => mret pid
  | inr havekids =>
      p ← get_proc i;
      if negb havekids || p_killed p then release Lptable ;; mret (-1) else
      match fuel with
      | O => nofuel
      | S fuel' => sleep (ChProc i) Lptable ;; wait_loop fuel' i
      end
  end.
Definition wait : K Z := i ← curproc; acquire Lptable ;; wait_loop wait_bound i.

(** ** Scheduling *)

(** One step of the scheduler's loop over the table: whether slot [j] is run,
    and the new [lowestPriority]. *)
Definition scheduler_step (j : nat) (lowestPriority : Z) : K Z :=
  p ← get_proc j;
  if negb (bool_decide (p_state p = RUNNABLE)) || (p_priority p >? lowestPriority) then mret lowestPriority else
  modify (set_k_proc (Some j)) ;;
  switchuvm (Some j) ;;
  upd_proc j (set_p_state RUNNING) ;;
  swtch ;;
  switchkvm ;;
  modify (set_k_proc None) ;;
  mret (p_priority p).
Fixpoint scheduler_pass (n j : nat) (lowestPriority : Z) : K Z :=
  match n with
  | O => mret lowestPriority
  | S n' => l ← scheduler_step j lowestPriority; scheduler_pass n' (S j) l
  end.
(** The endless loop, for [fuel] rounds. *)
Fixpoint scheduler_loop (fuel : nat) (lowestPriority : Z) : K unit :=
  match fuel with
  | O => nofuel
  | S fuel' =>
      acquire Lptable ;;
      l ← scheduler_pass NPROC 0 lowestPriority;
      release Lptable ;;
      scheduler_loop fuel' l
  end.
Definition scheduler (fuel : nat) : K unit :=
  modify (set_k_proc None) ;; scheduler_loop fuel 0x77777777.

Definition yield : K unit :=
  acquire Lptable ;;
  i ← curproc;
  upd_proc i (set_p_state RUNNABLE) ;;
  sched ;;
  release Lptable.

Definition forkret : K unit :=
  release Lptable ;;
  first ← gets k_first;
  when first
    (modify (set_k_first false) ;;
     iinit ROOTDEV ;;
     initlog ROOTDEV).
End Ops.

(** The search of [kill]. *)
Fixpoint kill_scan (l : list proc) (j : nat) (pid : Z) : option nat :=
  match l with
  | [] => None
  | p :: l' => if p_pid p =? pid then Some j else kill_scan l' (S j) pid
  end.
Definition kill (pid : Z) : K Z :=
  acquire Lptable ;;
  l ← gets k_ptable;
  match kill_scan l 0 pid with
  | Some j =>
      upd_proc j (λ p, let p := set_p_killed true p in
        if bool_decide (p_state p = SLEEPING) then set_p_state RUNNABLE p else p) ;;
      release Lptable ;;
      mret 0
  | None => release Lptable ;; mret (-1)
  end.

(** After the loop [p] points one past the table, and is read. *)
Definition proc_nice (PID priority : Z) : K Z :=
  forM (seq 0 NPROC) (λ j,
    p ← get_proc j;
    when (p_pid p =? PID) (upd_proc j (set_p_priority priority))) ;;
  p ← get_proc NPROC;
  mret (p_priority p).
