(* ===== verification/Exec.v ===== *)
(** * Exec: running a program file (exec.c, and [loaduvm] of vm.c)

    [path] and the strings of [argv] are lists of characters without the final
    NUL. *)

From S2P Require Import Prelude State Strings Lock Console Kalloc Vm Bio Log Inode Devs Fs.

Definition ELF_MAGIC : Z := 0x464C457F.
Definition ELF_PROG_LOAD : Z := 1.

(** The fields of [struct elfhdr] (52 bytes) and [struct proghdr] (32 bytes)
    that the code uses. *)
Definition ELFHDRSIZE : Z := 52.
Definition PROGHDRSIZE : Z := 32.
Record elfhdr := mkElfhdr { elf_magic : Z; elf_entry : Z; elf_phoff : Z; elf_phnum : Z }.
Definition elfhdr_get (d : list Z) : elfhdr := mkElfhdr (get32 0 d) (get32 24 d) (get32 28 d) (get16 44 d).
Record proghdr := mkProghdr {
  ph_type : Z; ph_off : Z; ph_vaddr : Z; ph_filesz : Z; ph_memsz : Z }.
Definition proghdr_get (d : list Z) : proghdr :=
  mkProghdr (get32 0 d) (get32 4 d) (get32 8 d) (get32 16 d) (get32 20 d).

Section Ops.
Context `{WaitBound} `{KernEnd} `{KernData}.

(** The loop of [loaduvm]: 0, or -1 if the file is too short. *)
Fixpoint loaduvm_loop (fuel : nat) (pgdir addr : Z) (ip : nat) (offset sz i : Z) : K Z :=
  if i <? sz then
    match fuel with
    | O => nofuel
    | S fuel' =>
        r ← walkpgdir pgdir (u32 (addr + i)) false;
        match r with
        | None => panic "loaduvm: address should exist"
        | Some q =>
            pte ← get_pte q;
            let pa := PTE_ADDR pte in
            let n := if sz - i <? PGSIZE then sz - i else PGSIZE in
            dst ← P2V pa;
            b ← readi ip (u32 (offset + i)) n;
            write_page dst 0 b.1 ;;
            if negb (b.2 =? n) then mret (-1) else
            loaduvm_loop fuel' pgdir addr ip offset sz (i + PGSIZE)
        end
    end
  else mret 0.
Definition loaduvm (pgdir addr : Z) (ip : nat) (offset sz : Z) : K Z :=
  if negb (addr mod PGSIZE =? 0) then panic "loaduvm: addr must be page aligned" else
  loaduvm_loop (Z.to_nat ((sz + PGSIZE - 1) / PGSIZE)) pgdir addr ip offset sz 0.

(** The loop over the program headers: the new size, or nothing if the code goes
    to [bad]. *)
Fixpoint exec_load (n : nat) (pgdir : Z) (ip : nat) (off sz : Z) : K (option Z) :=
  match n with
  | O => mret (Some sz)
  | S n' =>
      r ← readi ip (u32 off) PROGHDRSIZE;
      if negb (r.2 =? PROGHDRSIZE) then mret None else
      let ph := proghdr_get r.1 in
      let off' := s32 (off + PROGHDRSIZE) in
      if negb (ph_type ph =? ELF_PROG_LOAD) then exec_load n' pgdir ip off' sz else
      if ph_memsz ph <? ph_filesz ph then mret None else
      if u32 (ph_vaddr ph + ph_memsz ph) <? ph_vaddr ph then mret None else
      sz ← allocuvm pgdir sz (u32 (ph_vaddr ph + ph_memsz ph));
      if sz =? 0 then mret None else
      if negb (ph_vaddr ph mod PGSIZE =? 0) then mret None else
      e ← loaduvm pgdir (ph_vaddr ph) ip (ph_off ph) (ph_filesz ph);
      if e <? 0 then mret None else
      exec_load n' pgdir ip off' sz
  end.

(** The loop that pushes the argument strings: the final [sp] and the entries of
    [ustack] from index 3 on. *)
Fixpoint exec_push (pgdir : Z) (argv : list (list Z)) (argc sp : Z) : K (option (Z * list Z)) :=
  match argv with
  | [] => mret (Some (sp, []))
  | a :: argv' =>
      if argc >=? MAXARG then mret None else
      let sp := Z.land (u32 (sp - (Z.of_nat (length a) + 1))) (u32 (Z.lnot 3)) in
      e ← copyout pgdir sp (a ++ [0]);
      if e <? 0 then mret None else
      r ← exec_push pgdir argv' (argc + 1) sp;
      match r with
      | None => mret None
      | Some (sp', u) => mret (Some (sp', sp :: u))
      end
  end.

(** The part of a path after its last slash. *)
Fixpoint last_elem (last s : list Z) : list Z :=
  match s with
  | [] => last
  | c :: s' => last_elem (if c =? SLASH then s' else last) s'
  end.

Definition exec_bad (pgdir : Z) (ip : option nat) : K Z :=
  when (negb (pgdir =? 0)) (freevm pgdir) ;;
  match ip with Some i => iunlockput i ;; end_op | None => mret tt end ;;
  mret (-1).

(** From the second [allocuvm] on, after the file is closed. *)
Definition exec_stack (path : list Z) (argv : list (list Z)) (elf : elfhdr) (pgdir sz : Z) : K Z :=
  let sz := PGROUNDUP sz in
  sz ← allocuvm pgdir sz (u32 (sz + 2 * PGSIZE));
  if sz =? 0 then exec_bad pgdir None else
  clearpteu pgdir (sz - 2 * PGSIZE) ;;
  r ← exec_push pgdir argv 0 sz;
  match r with
  | None => exec_bad pgdir None
  | Some (sp, u) =>
      let argc := Z.of_nat (length argv) in
      let ustack := 0xffffffff :: argc :: u32 (sp - (argc + 1) * 4) :: u ++ [0] in
      let sp := u32 (sp - (3 + argc + 1) * 4) in
      e ← copyout pgdir sp (flat_map (le_put 4) ustack);
      if e <? 0 then exec_bad pgdir None else
      i ← curproc;
      p ← get_proc i;
      name ← deref (safestrcpy (p_name p) (last_elem path path ++ [0]) 16);
      upd_proc i (set_p_name name) ;;
      let oldpgdir := p_pgdir p in
      upd_proc i (λ p, set_p_tf (set_tf_esp sp (set_tf_eip (elf_entry elf) (p_tf p))) (set_p_sz sz (set_p_pgdir pgdir p))) ;;
      switchuvm (Some i) ;;
      freevm oldpgdir ;;
      mret 0
  end.

Definition exec (path : list Z) (argv : list (list Z)) : K Z :=
  begin_op ;;
  o ← namei path;
  match o with
  | None => end_op ;; cprintf (str "exec: fail" ++ [NL]) [] ;; mret (-1)
  | Some ip =>
      ilock ip ;;
      r ← readi ip 0 ELFHDRSIZE;
      if negb (r.2 =? ELFHDRSIZE) then exec_bad 0 (Some ip) else
      let elf := elfhdr_get r.1 in
      if negb (elf_magic elf =? ELF_MAGIC) then exec_bad 0 (Some ip) else
      pgdir ← setupkvm;
      if pgdir =? 0 then exec_bad 0 (Some ip) else
      l ← exec_load (Z.to_nat (elf_phnum elf)) pgdir ip (s32 (elf_phoff elf)) 0;
      match l with
      | None => exec_bad pgdir (Some ip)
      | Some sz => iunlockput ip ;; end_op ;; exec_stack path argv elf pgdir sz
      end
  end.
End Ops.
