(* ===== verification/Uaccess.v ===== *)
(** * Uaccess: arguments of system calls (syscall.c)

    The kernel reads and writes the memory of the running process through the
    processor's page table [k_cr3], as the memory management unit does: an
    address that is not mapped is a page fault in the kernel. *)

From S2P Require Import Prelude State Lock Kalloc Vm.

Section Ops.
Context `{KernEnd} `{KernData}.

(** The page that holds the virtual address [va]. *)
Definition mmu (va : Z) : K Z :=
  cr3 ← gets k_cr3;
  d ← P2V cr3;
  pde ← get_word d (Z.to_nat (PDX va));
  if negb (present pde) then fault "page fault" else
  t ← P2V (PTE_ADDR pde);
  pte ← get_word t (Z.to_nat (PTX va));
  if negb (present pte) then fault "page fault" else
  P2V (PTE_ADDR pte).
(** A byte is part of a word of the page. *)
Definition load8 (va : Z) : K Z :=
  pg ← mmu va;
  w ← get_word pg (Z.to_nat (va mod PGSIZE / 4));
  deref (le_put 4 w !! Z.to_nat (va mod 4)).
Definition store8 (va b : Z) : K unit :=
  pg ← mmu va;
  w ← get_word pg (Z.to_nat (va mod PGSIZE / 4));
  set_word pg (Z.to_nat (va mod PGSIZE / 4)) (le_get (<[Z.to_nat (va mod 4) := b]> (le_put 4 w))).

(** [n] bytes from [va] on. *)
Fixpoint uload (n : nat) (va : Z) : K (list Z) :=
  match n with O => mret [] | S n' => b ← load8 va; bs ← uload n' (va + 1); mret (b :: bs) end.
Fixpoint ustore (va : Z) (bs : list Z) : K unit :=
  match bs with [] => mret tt | b :: bs' => store8 va b ;; ustore (va + 1) bs' end.

(** The size of the running process. *)
Definition cursz : K Z := i ← curproc; p ← get_proc i; mret (p_sz p).

(** The result is 0 with the value, or -1. *)
Definition fetchint (addr : Z) : K (option Z) :=
  sz ← cursz;
  if (addr >=? sz) || (u32 (addr + 4) >? sz) then mret None else
  bs ← uload 4 addr;
  mret (Some (s32 (le_get bs))).

(** The loop of [fetchstr] from [s] to [ep]. *)
Fixpoint fetchstr_loop (fuel : nat) (s ep : Z) : K (option (list Z)) :=
  if s <? ep then
    c ← load8 s;
    if c =? 0 then mret (Some []) else
    match fuel with
    | O => nofuel
    | S fuel' => r ← fetchstr_loop fuel' (s + 1) ep; mret ((λ cs, c :: cs) <$> r)
    end
  else mret None.
(** The string at [addr] without its NUL; the code returns its length. *)
Definition fetchstr (addr : Z) : K (option (list Z)) :=
  sz ← cursz;
  if addr >=? sz then mret None else fetchstr_loop (Z.to_nat (sz - addr)) addr sz.

Definition argint (n : Z) : K (option Z) :=
  i ← curproc; p ← get_proc i;
  fetchint (u32 (tf_esp (p_tf p) + 4 + 4 * n)).

Definition argptr (n size : Z) : K (option Z) :=
  o ← argint n;
  match o with
  | None => mret None
  | Some i =>
      sz ← cursz;
      if (size <? 0) || (u32 i >=? sz) || (u32 (u32 i + size) >? sz) then mret None
      else mret (Some (u32 i))
  end.

Definition argstr (n : Z) : K (option (list Z)) :=
  o ← argint n;
  match o with None => mret None | Some addr => fetchstr (u32 addr) end.
End Ops.
