(* ===== verification/Uargs.v ===== *)
(** * Uargs: what the kernel takes from user memory

    The functions of syscall.c that fetch arguments, in the address space of the
    running process.  Whatever stack pointer and pointers the process passes,
    they read only memory of the process, never fault, change nothing, and
    accept exactly the integers, blocks and strings that lie in the process. *)

From S2P Require Import Prelude State Lock Console Kalloc Vm VmSpec VmOps VmCopy Uaccess.

Section Args.
Context `{KernEnd} `{KernData}.
Implicit Types (s : kernel) (A : vsp).

(** The process in slot [i] runs, with its address space [A] loaded and every
    page below its size mapped. *)
Record user_at (i : nat) (p : proc) A s : Prop := {
  ua_run : running s i p;
  ua_vok : vok s A;
  ua_cr3 : k_cr3 s = v_dir A - KERNBASE;
  ua_size : 0 ≤ p_sz p ≤ KERNBASE;
  ua_pages : ∀ w, 0 ≤ w < npages (p_sz p) → present (v_map A w) = true }.

(** The byte at [va], and [n] bytes from there. *)
Definition byte_at s A (va : Z) : Z :=
  default 0 (ws ← k_mem s !! frame (v_map A (va / PGSIZE)); page_bytes ws !! Z.to_nat (va mod PGSIZE)).
Definition bytes_at s A (va : Z) (n : nat) : list Z := (λ k, byte_at s A (va + Z.of_nat k)) <$> seq 0 n.

Lemma page_bytes_lookup ws k j w : ws !! k = Some w → (j < 4)%nat → page_bytes ws !! (4 * k + j)%nat = le_put 4 w !! j.
Proof.
  revert k. induction ws as [|w' ws IH]; intros k Hk Hj; [done|].
  change (page_bytes (w' :: ws)) with (le_put 4 w' ++ page_bytes ws). destruct k as [|k]; simpl in Hk.
  - injection Hk as ->. rewrite lookup_app_l by (rewrite length_le_put; lia). done.
  - rewrite lookup_app_r by (rewrite length_le_put; lia). rewrite length_le_put. replace (4 * S k + j - 4)%nat with (4 * k + j)%nat by lia. by apply IH.
Qed.

Section Fetch.
Context (i : nat) (p : proc) A s (U : user_at i p A s).

Lemma user_page va : 0 ≤ va < p_sz p → 0 ≤ va / PGSIZE < UPAGES ∧ present (v_map A (va / PGSIZE)) = true.
Proof.
  intros Hva. pose proof (ua_size _ _ _ _ U) as Hs. assert (0 ≤ va / PGSIZE < npages (p_sz p)) as Hw.
  { split; [apply Z.div_pos; vsize; lia|]. apply npages_lt. pose proof (Z.mul_div_le va PGSIZE ltac:(done)). lia. }
  split; [|by apply (ua_pages _ _ _ _ U)]. pose proof (npages_kern (p_sz p)). lia.
Qed.
Lemma wp_mmu va (Q : Z → kernel → Prop) :
  0 ≤ va < p_sz p → Q (frame (v_map A (va / PGSIZE))) s → wp (mmu va) Q s.
Proof.
  intros Hva HQ. destruct (user_page va Hva) as [Hw Hp]. pose proof (ua_vok _ _ _ _ U) as HV. pose proof (ua_size _ _ _ _ U) as Hs.
  assert (0 ≤ va < 2 ^ 32) as Hr by (vsize; lia). destruct (vpn_split va Hr) as (_ & Hi & _). destruct (PDX_spec va Hr) as [Epdx _].
  destruct (present_table s A (va / PGSIZE) HV ltac:(vsize; lia) Hp) as [pt Hpt]. rewrite <- Epdx in Hpt.
  destruct (v_words s A HV) as (ws & [Hd _] & Hws). destruct (Hws _ Hi) as (e & He & Hpde). unfold pde_ok in Hpde. rewrite Hpt in Hpde. destruct Hpde as (Hpe & Ha & _).
  unfold mmu. apply wp_bind, wp_gets, wp_bind. eapply wp_P2V; [apply (ua_cr3 _ _ _ _ U)|by apply (v_own s A HV _ RDir)|].
  apply wp_bind. eapply wp_get_word; [exact Hd|exact He|]. rewrite Hpe. simpl negb. cbv iota.
  apply wp_bind. eapply wp_P2V; [exact Ha|by apply (v_own s A HV _ (RTab (PDX va)))|]. apply wp_bind. eapply (wp_get_pte s A va pt); [done|done|done|].
  rewrite Hp. simpl negb. cbv iota. eapply wp_P2V; [|  |exact HQ]; [unfold frame; lia|]. by apply (v_own s A HV _ (RFrame (va / PGSIZE))).
Qed.
Lemma wp_load8 va (Q : Z → kernel → Prop) : 0 ≤ va < p_sz p → Q (byte_at s A va) s → wp (load8 va) Q s.
Proof.
  intros Hva HQ. unfold load8. apply wp_bind, wp_mmu; [done|]. destruct (user_page va Hva) as [Hw Hp].
  destruct (v_own s A (ua_vok _ _ _ _ U) _ (RFrame (va / PGSIZE)) ltac:(done)) as (_ & _ & ws & [Hm Hl]).
  pose proof (Z.mod_pos_bound va PGSIZE ltac:(done)) as Hb. pose proof (Z.mod_pos_bound va 4 ltac:(lia)) as H4.
  set (k := Z.to_nat (va mod PGSIZE / 4)). assert (va mod PGSIZE = 4 * (va mod PGSIZE / 4) + va mod 4) as Ediv.
  { pose proof (Z.div_mod (va mod PGSIZE) 4 ltac:(lia)) as E. rewrite (Z.mod_mod_divide va PGSIZE 4) in E; [done|]. by exists 1024. }
  assert (0 ≤ va mod PGSIZE / 4) by (apply Z.div_pos; lia). assert (k < PGWORDS)%nat as Hk by (unfold k; change PGWORDS with 1024%nat; vsize; lia).
  rewrite <- Hl in Hk. destruct (lookup_lt_is_Some_2 _ _ Hk) as [w Hw']. apply wp_bind. eapply wp_get_word; [exact Hm|exact Hw'|].
  pose proof (page_bytes_lookup ws k (Z.to_nat (va mod 4)) w Hw' ltac:(lia)) as El.
  replace (4 * k + Z.to_nat (va mod 4))%nat with (Z.to_nat (va mod PGSIZE)) in El by (unfold k; lia).
  unfold byte_at in HQ. rewrite Hm in HQ. cbn [mbind option_bind] in HQ. rewrite El in HQ.
  destruct (lookup_lt_is_Some_2 (le_put 4 w) (Z.to_nat (va mod 4))) as [b Hb']; [rewrite length_le_put; lia|]. rewrite Hb' in HQ |- *. by eapply wp_deref.
Qed.
Lemma wp_uload n va (Q : list Z → kernel → Prop) : 0 ≤ va → va + Z.of_nat n ≤ p_sz p → Q (bytes_at s A va n) s → wp (uload n va) Q s.
Proof.
  revert va Q. induction n as [|n IH]; intros va Q Hva Hn HQ; cbn [uload]; [by apply wp_ret|].
  apply wp_bind, wp_load8; [lia|]. apply wp_bind, IH; [lia|lia|]. apply wp_ret. unfold bytes_at in *. cbn [seq fmap list_fmap] in HQ.
  rewrite Z.add_0_r in HQ. rewrite <- fmap_S_seq, <- list_fmap_compose in HQ.
  erewrite list_fmap_ext; [exact HQ|]. intros j k _. simpl. f_equal. lia.
Qed.
Lemma wp_cursz (Q : Z → kernel → Prop) : Q (p_sz p) s → wp cursz Q s.
Proof.
  intros HQ. unfold cursz. apply wp_bind. eapply wp_curproc; [apply (ua_run _ _ _ _ U)|]. apply wp_bind.
  eapply wp_get_proc; [apply (ua_run _ _ _ _ U)|]. by apply wp_ret.
Qed.

(** The integer at [a]; the string at [a], up to the first zero byte. *)
Definition int_at (a : Z) : option Z :=
  if (0 <=? a) && (a + 4 <=? p_sz p) then Some (s32 (le_get (bytes_at s A a 4))) else None.
Definition string_at (a : Z) (str : list Z) : Prop :=
  0 ≤ a ∧ a + Z.of_nat (length str) < p_sz p ∧ bytes_at s A a (length str) = str ∧ Forall (λ c, c ≠ 0) str ∧
  byte_at s A (a + Z.of_nat (length str)) = 0.
Definition arg_addr (n : Z) : Z := u32 (tf_esp (p_tf p) + 4 + 4 * n).

Lemma wp_fetchint a (Q : option Z → kernel → Prop) : 0 ≤ a < 2 ^ 32 → Q (int_at a) s → wp (fetchint a) Q s.
Proof.
  intros Ha HQ. pose proof (ua_size _ _ _ _ U) as Hs. unfold fetchint. apply wp_bind, wp_cursz. unfold int_at in HQ.
  rewrite (proj2 (Z.leb_le 0 a)) in HQ by lia. rewrite Z.geb_leb, Z.gtb_ltb. destruct (Z.leb_spec (p_sz p) a) as [H1|H1].
  - rewrite (proj2 (Z.leb_gt _ _)) in HQ by lia. by apply wp_ret.
  - rewrite u32_small by (vsize; lia). destruct (Z.ltb_spec (p_sz p) (a + 4)) as [H2|H2].
    + rewrite (proj2 (Z.leb_gt _ _)) in HQ by lia. by apply wp_ret.
    + rewrite (proj2 (Z.leb_le (a + 4) _)) in HQ by lia. simpl orb. cbv iota. apply wp_bind, wp_uload; [lia|lia|]. by apply wp_ret.
Qed.
Lemma bytes_at_cons a n : bytes_at s A a (S n) = byte_at s A a :: bytes_at s A (a + 1) n.
Proof.
  unfold bytes_at. cbn [seq]. rewrite fmap_cons, Z.add_0_r, <- fmap_S_seq, <- list_fmap_compose. f_equal.
  apply list_fmap_ext. intros j k _. simpl. f_equal. lia.
Qed.
Lemma wp_fetchstr_loop fuel a (Q : option (list Z) → kernel → Prop) : 0 ≤ a → (Z.to_nat (p_sz p - a) ≤ fuel)%nat →
  (∀ r, match r with Some str => string_at a str | None => ∀ b, a ≤ b < p_sz p → byte_at s A b ≠ 0 end → Q r s) →
  wp (fetchstr_loop fuel a (p_sz p)) Q s.
Proof.
  revert a Q. induction fuel as [|fuel IH]; intros a Q Ha Hf HQ; cbn [fetchstr_loop]; (destruct (Z.ltb_spec a (p_sz p)) as [Hlt|Hge]; [|apply wp_ret, HQ; intros; lia]).
  - lia.
  - apply wp_bind, wp_load8; [lia|]. destruct (Z.eqb_spec (byte_at s A a) 0) as [Hz|Hnz].
    + apply wp_ret, HQ. split; [lia|]. split; [simpl; lia|]. split; [done|]. split; [constructor|]. simpl. by rewrite Z.add_0_r.
    + apply wp_bind, IH; [lia|lia|]. intros [str|] Hr; apply wp_ret, HQ.
      * destruct Hr as (H1 & H2 & H3 & H4 & H5). split; [lia|]. cbn [length]. split; [lia|]. split; [by rewrite bytes_at_cons, H3|].
        split; [by constructor|]. by replace (a + Z.of_nat (S (length str))) with (a + 1 + Z.of_nat (length str)) by lia.
      * intros b Hb. destruct (decide (b = a)) as [->|]; [done|]. apply Hr. lia.
Qed.
End Fetch.
End Args.

(** C17. For every stack pointer and every argument a process passes, [argint],
    [argptr] and [argstr] return without a fault and without changing anything.
    An integer is accepted when its four bytes lie below the size of the process,
    a block when it does as a whole, also where the sum of pointer and size is
    formed modulo 2^32, and a string when it ends with a zero byte below that size;
    the result is the integer, pointer or string found there. *)
Theorem args_checked `{KernEnd} (i : nat) (p : proc) (A : vsp) (s : kernel) (n : Z) :
  user_at i p A s → 0 ≤ n →
  let arg := int_at p A s (arg_addr p n) in
  wp (argint n) (λ r s', s' = s ∧ r = arg) s ∧
  (∀ size, - 2 ^ 31 ≤ size < 2 ^ 31 →
     wp (argptr n size) (λ r s', s' = s ∧
       match r with
       | Some a => (λ x, u32 x) <$> arg = Some a ∧ 0 ≤ size ∧ 0 ≤ a < p_sz p ∧ a + size ≤ p_sz p
       | None => arg = None ∨ size < 0 ∨ ∃ x, arg = Some x ∧ (p_sz p ≤ u32 x ∨ p_sz p < u32 x + size)
       end) s) ∧
  wp (argstr n) (λ r s', s' = s ∧
    match r with
    | Some str => ∃ x, arg = Some x ∧ string_at p A s (u32 x) str
    | None => arg = None ∨ ∃ x, arg = Some x ∧ ∀ b, u32 x ≤ b < p_sz p → byte_at s A b ≠ 0
    end) s.
Proof.
  intros U Hn arg. pose proof (ua_size _ _ _ _ U) as Hs. assert (0 ≤ arg_addr p n < 2 ^ 32) as Ha by apply u32_range.
  assert (∀ Q : option Z → kernel → Prop, Q arg s → wp (argint n) Q s) as Hint.
  { intros Q HQ. unfold argint. apply wp_bind. eapply wp_curproc; [apply (ua_run _ _ _ _ U)|]. apply wp_bind.
    eapply wp_get_proc; [apply (ua_run _ _ _ _ U)|]. by eapply wp_fetchint. }
  split; [by apply Hint|]. split; [intros size Hsz|].
  - unfold argptr. apply wp_bind, Hint. destruct arg as [x|] eqn:Ex; [|apply wp_ret; split; [done|by left]].
    apply wp_bind. eapply wp_cursz; [exact U|]. pose proof (u32_range x) as Hx. rewrite Z.geb_leb, Z.gtb_ltb.
    destruct (Z.ltb_spec size 0); [apply wp_ret; split; [done|by right; left]|].
    destruct (Z.leb_spec (p_sz p) (u32 x)); [apply wp_ret; split; [done|right; right; exists x; split; [done|by left]]|].
    rewrite (u32_small (u32 x + size)) by (vsize; lia). destruct (Z.ltb_spec (p_sz p) (u32 x + size)); apply wp_ret; (split; [done|]).
    + right. right. exists x. split; [done|by right].
    + split; [done|lia].
  - unfold argstr. apply wp_bind, Hint. destruct arg as [x|] eqn:Ex; [|apply wp_ret; split; [done|by left]].
    unfold fetchstr. apply wp_bind. eapply wp_cursz; [exact U|]. pose proof (u32_range x) as Hx. rewrite Z.geb_leb.
    destruct (Z.leb_spec (p_sz p) (u32 x)); [apply wp_ret; split; [done|right; exists x; split; [done|intros; lia]]|].
    eapply wp_fetchstr_loop; [exact U|lia|lia|]. intros [str|] Hr; (split; [done|]); [by exists x|right; by exists x].
Qed.

(** A process of one page, whose stack pointer is near the end of it. *)
Definition demo_uproc : proc := set_p_sz 4096 (set_p_tf (set_tf_esp 4000 tf0) proc0).
Definition demo_args : kernel :=
  set_k_cr3 (0x80600000 - KERNBASE) (set_k_proc (Some 0%nat) (set_k_ptable [demo_uproc] demo_user)).
Lemma demo_args_ok : ∃ B, user_at (H := demo_end) 0 demo_uproc B demo_args.
Proof.
  destruct demo_user_ok as (B & HV & Hd & Hn). exists B. destruct HV as [V1 V2 V3 V4 V5 [K1 K2 K3 K4]]. split.
  - by split.
  - split; try done.
  - by rewrite Hd.
  - split; discriminate.
  - intros w Hw. change (npages (p_sz demo_uproc)) with 1 in Hw. assert (w = 0) as -> by lia. apply Hn.
Qed.
Lemma args_checked_witness :
  wp (argptr 0 100) (λ r s', s' = demo_args ∧ ∀ a, r = Some a → 0 ≤ a ∧ a + 100 ≤ 4096) demo_args ∧
  wp (argint 30) (λ r s', s' = demo_args ∧ r = None) demo_args.
Proof.
  destruct demo_args_ok as [B U]. split.
  - destruct (args_checked (H := demo_end) 0 demo_uproc B demo_args 0 U ltac:(lia)) as (_ & Hp & _).
    eapply wp_mono; [apply (Hp 100); lia|]. intros r s' [-> Hr]. split; [reflexivity|]. intros a ->. destruct Hr as (_ & _ & Ha & Hs). change (p_sz demo_uproc) with 4096 in *. lia.
  - destruct (args_checked (H := demo_end) 0 demo_uproc B demo_args 30 U ltac:(lia)) as (Hi & _ & _).
    eapply wp_mono; [exact Hi|]. intros r s' [-> ->]. split; reflexivity.
Defined.
