(* ===== verification/Sysfile.v ===== *)
(** * Sysfile: file system calls (sysfile.c)

    Every handler returns the value the system call leaves in [eax].  A buffer
    for a path element starts with arbitrary contents in C; here with zeros. *)

From S2P Require Import Prelude State Strings Lock Kalloc Vm Pipe Bio Log Inode Devs Fs File Exec Uaccess.

Definition O_RDONLY : Z := 0x000.
Definition O_WRONLY : Z := 0x001.
Definition O_RDWR : Z := 0x002.
Definition O_CREATE : Z := 0x200.
(** Is a flag set? *)
Definition flag (omode f : Z) : bool := negb (Z.land omode f =? 0).
Definition name0 : list Z := replicate DIRSIZ 0.

(** The search of [fdalloc]. *)
Fixpoint ofile_scan (l : list (option nat)) (fd : nat) : option nat :=
  match l with
  | [] => None
  | o :: l' => match o with None => Some fd | Some _ => ofile_scan l' (S fd) end
  end.
Definition set_ofile (i fd : nat) (o : option nat) : K unit :=
  upd_proc i (λ p, set_p_ofile (<[fd := o]> (p_ofile p)) p).

Definition fdalloc (f : nat) : K Z :=
  i ← curproc;
  p ← get_proc i;
  match ofile_scan (p_ofile p) 0 with
  | Some fd => set_ofile i fd (Some f) ;; mret (Z.of_nat fd)
  | None => mret (-1)
  end.

Section Ops.
Context `{WaitBound} `{KernEnd} `{KernData}.

(** The descriptor and the file, or -1. *)
Definition argfd (n : Z) : K (option (nat * nat)) :=
  o ← argint n;
  match o with
  | None => mret None
  | Some fd =>
      if (fd <? 0) || (fd >=? Z.of_nat NOFILE) then mret None else
      i ← curproc;
      p ← get_proc i;
      f ← deref (p_ofile p !! Z.to_nat fd);
      mret ((λ f, (Z.to_nat fd, f)) <$> f)
  end.

Definition sys_dup : K Z :=
  o ← argfd 0;
  match o with
  | None => mret (-1)
  | Some (_, f) =>
      fd ← fdalloc f;
      if fd <? 0 then mret (-1) else filedup f ;; mret fd
  end.

(** The arguments of [sys_read] and [sys_write]. *)
Definition arg_fpn : K (option (nat * Z * Z)) :=
  o ← argfd 0;
  match o with
  | None => mret None
  | Some (_, f) =>
      o ← argint 2;
      match o with
      | None => mret None
      | Some n => o ← argptr 1 n; mret ((λ p, (f, p, n)) <$> o)
      end
  end.
Definition sys_read : K Z :=
  o ← arg_fpn;
  match o with
  | None => mret (-1)
  | Some (f, p, n) => r ← fileread f n; ustore p r.1 ;; mret r.2
  end.
Definition sys_write : K Z :=
  o ← arg_fpn;
  match o with
  | None => mret (-1)
  | Some (f, p, n) => addr ← uload (Z.to_nat n) p; filewrite f addr n
  end.

Definition sys_flock : K Z := o ← argfd 0; match o with Some (_, fp) => filelock fp | None => mret (-1) end.
Definition sys_funlock : K Z := o ← argfd 0; match o with Some (_, fp) => fileunlock fp | None => mret (-1) end.

Definition sys_close : K Z :=
  o ← argfd 0;
  match o with
  | None => mret (-1)
  | Some (fd, f) => i ← curproc; set_ofile i fd None ;; fileclose f ;; mret 0
  end.

(** [struct stat]: type at 0, dev at 4, ino at 8, nlink at 12, size at 16. *)
Definition STATSIZE : Z := 20.
Definition ustore_stat (a : Z) (st : stat) : K unit :=
  ustore a (le_put 2 (st_type st)) ;; ustore (a + 4) (le_put 4 (st_dev st)) ;;
  ustore (a + 8) (le_put 4 (st_ino st)) ;; ustore (a + 12) (le_put 2 (st_nlink st)) ;;
  ustore (a + 16) (le_put 4 (st_size st)).
Definition sys_fstat : K Z :=
  o ← argfd 0;
  match o with
  | None => mret (-1)
  | Some (_, f) =>
      o ← argptr 1 STATSIZE;
      match o with
      | None => mret (-1)
      | Some a =>
          r ← filestat f;
          match r with Some st => ustore_stat a st ;; mret 0 | None => mret (-1) end
      end
  end.

(** Label [bad] of [sys_link]. *)
Definition link_bad (ip : nat) : K Z :=
  ilock ip ;;
  upd_inode ip (λ v, set_i_nlink (s16 (i_nlink v - 1)) v) ;;
  iupdate ip ;;
  iunlockput ip ;;
  end_op ;;
  mret (-1).
Definition sys_link : K Z :=
  o ← argstr 0;
  match o with
  | None => mret (-1)
  | Some old =>
  o ← argstr 1;
  match o with
  | None => mret (-1)
  | Some new =>
  begin_op ;;
  o ← namei old;
  match o with
  | None => end_op ;; mret (-1)
  | Some ip =>
  ilock ip ;;
  v ← get_inode ip;
  if i_type v =? T_DIR then iunlockput ip ;; end_op ;; mret (-1) else
  upd_inode ip (λ v, set_i_nlink (s16 (i_nlink v + 1)) v) ;;
  iupdate ip ;;
  iunlock ip ;;
  o ← nameiparent new name0;
  match o with
  | None => link_bad ip
  | Some (dp, name) =>
  ilock dp ;;
  d ← get_inode dp;
  v ← get_inode ip;
  r ← (if negb (i_dev d =? i_dev v) then mret (-1) else dirlink dp name (i_inum v));
  if r <? 0 then iunlockput dp ;; link_bad ip else
  iunlockput dp ;;
  iput ip ;;
  end_op ;;
  mret 0
  end end end end.

(** The loop of [isdirempty]. *)
Fixpoint isdirempty_loop (fuel : nat) (dp : nat) (off : Z) : K bool :=
  v ← get_inode dp;
  if off <? i_size v then
    r ← readi dp off DIRENTSIZE;
    if negb (r.2 =? DIRENTSIZE) then panic "isdirempty: readi" else
    if negb (de_inum r.1 =? 0) then mret false else
    match fuel with O => nofuel | S fuel' => isdirempty_loop fuel' dp (off + DIRENTSIZE) end
  else mret true.
Definition isdirempty (dp : nat) : K bool :=
  v ← get_inode dp;
  isdirempty_loop (Z.to_nat (i_size v / DIRENTSIZE + 1)) dp (2 * DIRENTSIZE).

(** Label [bad] of [sys_unlink]. *)
Definition unlink_bad (dp : nat) : K Z := iunlockput dp ;; end_op ;; mret (-1).
Definition sys_unlink : K Z :=
  o ← argstr 0;
  match o with
  | None => mret (-1)
  | Some path =>
  begin_op ;;
  o ← nameiparent path name0;
  match o with
  | None => end_op ;; mret (-1)
  | Some (dp, name) =>
  ilock dp ;;
  dot ← namecmp name (str "." ++ [0]);
  dotdot ← (if dot =? 0 then mret 0 else namecmp name (str ".." ++ [0]));
  if (dot =? 0) || (dotdot =? 0) then unlink_bad dp else
  o ← dirlookup dp name;
  match o with
  | None => unlink_bad dp
  | Some (ip, off) =>
  ilock ip ;;
  v ← get_inode ip;
  if i_nlink v <? 1 then panic "unlink: nlink < 1" else
  e ← (if i_type v =? T_DIR then isdirempty ip else mret true);
  if negb e then iunlockput ip ;; unlink_bad dp else
  r ← writei dp (replicate (Z.to_nat DIRENTSIZE) 0) off DIRENTSIZE;
  if negb (r =? DIRENTSIZE) then panic "unlink: writei" else
  when (i_type v =? T_DIR)
    (upd_inode dp (λ d, set_i_nlink (s16 (i_nlink d - 1)) d) ;; iupdate dp) ;;
  iunlockput dp ;;
  upd_inode ip (λ v, set_i_nlink (s16 (i_nlink v - 1)) v) ;;
  iupdate ip ;;
  iunlockput ip ;;
  end_op ;;
  mret 0
  end end end.

Definition create (path : list Z) (type major minor : Z) : K (option nat) :=
  o ← nameiparent path name0;
  match o with
  | None => mret None
  | Some (dp, name) =>
  ilock dp ;;
  o ← dirlookup dp name;
  match o with
  | Some (ip, _) =>
      iunlockput dp ;;
      ilock ip ;;
      v ← get_inode ip;
      if (type =? T_FILE) && (i_type v =? T_FILE) then mret (Some ip) else
      iunlockput ip ;;
      mret None
  | None =>
      d ← get_inode dp;
      ip ← ialloc (i_dev d) type;
      ilock ip ;;
      upd_inode ip (λ v, set_i_nlink 1 (set_i_minor minor (set_i_major major v))) ;;
      iupdate ip ;;
      v ← get_inode ip;
      d ← get_inode dp;
      when (type =? T_DIR)
        (upd_inode dp (λ d, set_i_nlink (s16 (i_nlink d + 1)) d) ;;
         iupdate dp ;;
         r1 ← dirlink ip (str "." ++ [0]) (i_inum v);
         r2 ← (if r1 <? 0 then mret (-1) else dirlink ip (str ".." ++ [0]) (i_inum d));
         when ((r1 <? 0) || (r2 <? 0)) (panic "create dots")) ;;
      r ← dirlink dp name (i_inum v);
      if r <? 0 then panic "create: dirlink" else
      iunlockput dp ;;
      mret (Some ip)
  end end.

(** [sys_open] from [filealloc] on, with the locked inode. *)
Definition open_file (ip : nat) (omode : Z) : K Z :=
  o ← filealloc;
  fd ← match o with None => mret (-1) | Some f => fdalloc f end;
  match o with
  | Some f =>
      if fd <? 0 then fileclose f ;; iunlockput ip ;; end_op ;; mret (-1) else
      iunlock ip ;;
      end_op ;;
      upd_file f (λ v, set_f_writable (flag omode O_WRONLY || flag omode O_RDWR)
        (set_f_readable (negb (flag omode O_WRONLY)) (set_f_off 0 (set_f_ip (Some ip) (set_f_type FD_INODE v))))) ;;
      mret fd
  | None => iunlockput ip ;; end_op ;; mret (-1)
  end.
Definition sys_open : K Z :=
  o ← argstr 0;
  match o with
  | None => mret (-1)
  | Some path =>
  o ← argint 1;
  match o with
  | None => mret (-1)
  | Some omode =>
  begin_op ;;
  if flag omode O_CREATE then
    o ← create path T_FILE 0 0;
    match o with None => end_op ;; mret (-1) | Some ip => open_file ip omode end
  else
    o ← namei path;
    match o with
    | None => end_op ;; mret (-1)
    | Some ip =>
        ilock ip ;;
        v ← get_inode ip;
        if (i_type v =? T_DIR) && negb (omode =? O_RDONLY) then iunlockput ip ;; end_op ;; mret (-1) else
        open_file ip omode
    end
  end end.

Definition sys_mkdir : K Z :=
  begin_op ;;
  o ← argstr 0;
  o ← match o with None => mret None | Some path => create path T_DIR 0 0 end;
  match o with
  | None => end_op ;; mret (-1)
  | Some ip => iunlockput ip ;; end_op ;; mret 0
  end.

Definition sys_mknod : K Z :=
  begin_op ;;
  o ← argstr 0;
  o ← match o with
      | None => mret None
      | Some path =>
          o1 ← argint 1;
          match o1 with
          | None => mret None
          | Some major =>
              o2 ← argint 2;
              match o2 with
              | None => mret None
              | Some minor => create path T_DEV (s16 major) (s16 minor)
              end
          end
      end;
  match o with
  | None => end_op ;; mret (-1)
  | Some ip => iunlockput ip ;; end_op ;; mret 0
  end.

Definition sys_chdir : K Z :=
  i ← curproc;
  begin_op ;;
  o ← argstr 0;
  o ← match o with None => mret None | Some path => namei path end;
  match o with
  | None => end_op ;; mret (-1)
  | Some ip =>
      ilock ip ;;
      v ← get_inode ip;
      if negb (i_type v =? T_DIR) then iunlockput ip ;; end_op ;; mret (-1) else
      iunlock ip ;;
      p ← get_proc i;
      cwd ← deref (p_cwd p);
      iput cwd ;;
      end_op ;;
      upd_proc i (set_p_cwd (Some ip)) ;;
      mret 0
  end.

(** The loop of [sys_exec]: the argument strings, or -1.  [n] is the room left in
    [argv]. *)
Fixpoint sys_exec_args (n : nat) (uargv : Z) : K (option (list (list Z))) :=
  match n with
  | O => mret None
  | S n' =>
      o ← fetchint uargv;
      match o with
      | None => mret None
      | Some uarg =>
          if uarg =? 0 then mret (Some []) else
          o ← fetchstr (u32 uarg);
          match o with
          | None => mret None
          | Some a => r ← sys_exec_args n' (u32 (uargv + 4)); mret ((λ l, a :: l) <$> r)
          end
      end
  end.
Definition sys_exec : K Z :=
  o ← argstr 0;
  match o with
  | None => mret (-1)
  | Some path =>
      o ← argint 1;
      match o with
      | None => mret (-1)
      | Some uargv =>
          r ← sys_exec_args (Z.to_nat MAXARG) (u32 uargv);
          match r with None => mret (-1) | Some argv => exec path argv end
      end
  end.

Definition sys_pipe : K Z :=
  o ← argptr 0 8;
  match o with
  | None => mret (-1)
  | Some fd =>
      r ← pipealloc;
      match r with
      | None => mret (-1)
      | Some (rf, wf) =>
          fd0 ← fdalloc rf;
          fd1 ← (if fd0 <? 0 then mret (-1) else fdalloc wf);
          if (fd0 <? 0) || (fd1 <? 0) then
            when (fd0 >=? 0) (i ← curproc; set_ofile i (Z.to_nat fd0) None) ;;
            fileclose rf ;;
            fileclose wf ;;
            mret (-1)
          else
          ustore fd (le_put 4 fd0) ;;
          ustore (fd + 4) (le_put 4 fd1) ;;
          mret 0
      end
  end.
End Ops.
