(* ===== verification/Syscall.v ===== *)
(** * Syscall: process system calls, dispatch and traps (sysproc.c, syscall.c,
    trap.c), the serial driver (uart.c) and the boot sequence (main.c)

    What a trap finds in the devices - the faulting address and the bytes waiting
    in the keyboard and the serial port - is an argument.  The interrupt
    controllers have no state in the model. *)

From S2P Require Import Prelude State Strings Lock Console Kalloc Vm Pipe Bio Log Inode Devs Kbd Fs File Proc Exec Uaccess Sysfile.

(** The number of the running processor. *)
Class CpuId := cpuid : Z.

(** ** uart.c *)

(** [status]: the line status register; 0xFF if there is no serial port. *)
Definition uartinit (status : Z) : K unit :=
  if status =? 0xFF then mret tt else
  modify (set_k_uart true) ;;
  forM (str "xv6..." ++ [NL]) uartputc.
(** [data]: the bytes the port has received. *)
Definition uartintr (data : list Z) : K unit :=
  u ← gets k_uart;
  consoleintr (if (u : bool) then data else []).

(** ** sysproc.c *)

Section Ops.
Context `{WaitBound} `{KernEnd} `{KernData} `{Forkret} `{CpuId}.

Definition sys_fork : K Z := fork.
Definition sys_exit : K Z := exit ;; mret 0.
Definition sys_wait : K Z := wait.
Definition sys_kill : K Z := o ← argint 0; match o with None => mret (-1) | Some pid => kill pid end.
Definition sys_getpid : K Z := mypid.
Definition sys_sbrk : K Z :=
  o ← argint 0;
  match o with
  | None => mret (-1)
  | Some n => addr ← cursz; r ← growproc n; if r <? 0 then mret (-1) else mret (s32 addr)
  end.
(** [ticks - ticks0 < n] is a comparison of unsigned numbers. *)
Fixpoint sys_sleep_loop (fuel : nat) (ticks0 n : Z) : K Z :=
  t ← gets k_ticks;
  if u32 (t - ticks0) <? u32 n then
    k ← killed;
    if (k : bool) then release Ltime ;; mret (-1) else
    match fuel with
    | O => nofuel
    | S fuel' => sleep ChTicks Ltime ;; sys_sleep_loop fuel' ticks0 n
    end
  else release Ltime ;; mret 0.
Definition sys_sleep : K Z :=
  o ← argint 0;
  match o with
  | None => mret (-1)
  | Some n => acquire Ltime ;; ticks0 ← gets k_ticks; sys_sleep_loop wait_bound ticks0 n
  end.
Definition sys_uptime : K Z := acquire Ltime ;; t ← gets k_ticks; release Ltime ;; mret (s32 t).
Definition sys_yield : K Z := yield ;; mret 0.
(** The write to the emulator's exit port is not part of the state; without that
    port the call returns. *)
Definition sys_shutdown : K Z := mret 0.

Definition state_code (st : procstate) : Z :=
  match st with UNUSED => 0 | EMBRYO => 1 | SLEEPING => 2 | RUNNABLE => 3 | RUNNING => 4 | ZOMBIE => 5 end.
(** One entry of the user's array: 28 bytes. *)
Definition procInfo_bytes (e : procInfo) : list Z :=
  le_put 4 (state_code (pi_state e)) ++ le_put 4 (pi_pid e) ++ le_put 4 (pi_cpuPercent e) ++ pi_name e.
(** The check of the array covers the size of a pointer, not of the array. *)
Definition sys_ps : K Z :=
  o ← argint 0;
  match o with
  | None => mret (-1)
  | Some numberOfProcs =>
      o ← argptr 1 4;
      match o with
      | None => mret (-1)
      | Some a =>
          r ← proc_ps numberOfProcs;
          ustore a (flat_map procInfo_bytes r) ;;
          mret (Z.of_nat (length r))
      end
  end.
(** [p] is an argument no caller passes. *)
Definition sys_nice (p : nat) : K Z :=
  v ← get_proc p; proc_nice (p_pid v) (p_priority v) ;; mret 0.

(** ** syscall.c *)

(** [syscalls[num]()]; [sys_nice] is called without the argument it reads. *)
Definition syscalls (num : Z) : option (K Z) :=
  match num with
  | 1 => Some sys_fork | 2 => Some sys_exit | 3 => Some sys_wait | 4 => Some sys_pipe
  | 5 => Some sys_read | 6 => Some sys_kill | 7 => Some sys_exec | 8 => Some sys_fstat
  | 9 => Some sys_chdir | 10 => Some sys_dup | 11 => Some sys_getpid | 12 => Some sys_sbrk
  | 13 => Some sys_sleep | 14 => Some sys_uptime | 15 => Some sys_open | 16 => Some sys_write
  | 17 => Some sys_mknod | 18 => Some sys_unlink | 19 => Some sys_link | 20 => Some sys_mkdir
  | 21 => Some sys_close | 22 => Some sys_yield | 23 => Some sys_shutdown | 24 => Some sys_ps
  | 25 => Some sys_flock | 26 => Some sys_funlock | 27 => Some (fault "sys_nice reads an argument that was not passed")
  | _ => None
  end.

Definition set_eax (i : nat) (v : Z) : K unit := upd_proc i (λ p, set_p_tf (set_tf_eax (u32 v) (p_tf p)) p).
Definition syscall : K unit :=
  i ← curproc;
  p ← get_proc i;
  let num := s32 (tf_eax (p_tf p)) in
  match syscalls num with
  | Some f => r ← f; set_eax i r
  | None =>
      cprintf (str "%d %s: unknown sys call %d" ++ [NL]) [CInt (p_pid p); CStr (Some (upto0 (p_name p))); CInt num] ;;
      set_eax i (-1)
  end.

(** ** trap.c *)

Definition T_IRQ0 : Z := 32.
Definition T_SYSCALL : Z := 64.
Definition IRQ_TIMER : Z := 0.
Definition IRQ_KBD : Z := 1.
Definition IRQ_COM1 : Z := 4.
Definition IRQ_IDE : Z := 14.
Definition IRQ_SPURIOUS : Z := 31.

Record devin := mkDevin { in_cr2 : Z; in_shift : Z; in_kbd : list Z; in_uart : list Z }.

(** [myproc() && myproc()->killed && (tf->cs&3) == DPL_USER] *)
Definition must_exit (tf : trapframe) : K bool :=
  o ← myproc;
  match o with
  | None => mret false
  | Some i => p ← get_proc i; mret (p_killed p && (Z.land (tf_cs tf) 3 =? DPL_USER))
  end.

(** The [switch] of [trap]: the new state of the keyboard driver. *)
Definition trap_switch (tf : trapframe) (d : devin) : K Z :=
  let n := tf_trapno tf in
  if n =? T_IRQ0 + IRQ_TIMER then
    when (cpuid =? 0)
      (acquire Ltime ;;
       modify (λ s, set_k_ticks (u32 (k_ticks s + 1)) s) ;;
       wakeup ChTicks ;;
       release Ltime) ;;
    mret (in_shift d)
  else if n =? T_IRQ0 + IRQ_IDE then mret (in_shift d)
  else if n =? T_IRQ0 + IRQ_IDE + 1 then mret (in_shift d)
  else if n =? T_IRQ0 + IRQ_KBD then kbdintr (in_shift d) (in_kbd d)
  else if n =? T_IRQ0 + IRQ_COM1 then uartintr (in_uart d) ;; mret (in_shift d)
  else if (n =? T_IRQ0 + 7) || (n =? T_IRQ0 + IRQ_SPURIOUS) then
    cprintf (str "cpu%d: spurious interrupt at %x:%x" ++ [NL]) [CInt cpuid; CInt (tf_cs tf); CInt (tf_eip tf)] ;;
    mret (in_shift d)
  else
    o ← myproc;
    match o with
    | Some i =>
        if Z.land (tf_cs tf) 3 =? 0 then
          cprintf (str "unexpected trap %d from cpu %d eip %x (cr2=0x%x)" ++ [NL])
            [CInt n; CInt cpuid; CInt (tf_eip tf); CInt (in_cr2 d)] ;;
          panic "trap"
        else
          p ← get_proc i;
          cprintf (str "pid %d %s: trap %d err %d on cpu %d eip 0x%x addr 0x%x--kill proc" ++ [NL])
            [CInt (p_pid p); CStr (Some (upto0 (p_name p))); CInt n; CInt (tf_err tf); CInt cpuid; CInt (tf_eip tf); CInt (in_cr2 d)] ;;
          upd_proc i (set_p_killed true) ;;
          mret (in_shift d)
    | None =>
        cprintf (str "unexpected trap %d from cpu %d eip %x (cr2=0x%x)" ++ [NL])
          [CInt n; CInt cpuid; CInt (tf_eip tf); CInt (in_cr2 d)] ;;
        panic "trap"
    end.

Definition trap (tf : trapframe) (d : devin) : K Z :=
  if tf_trapno tf =? T_SYSCALL then
    k ← killed;
    when k exit ;;
    i ← curproc;
    upd_proc i (set_p_tf tf) ;;
    syscall ;;
    k ← killed;
    when k exit ;;
    mret (in_shift d)
  else
  sh ← trap_switch tf d;
  e ← must_exit tf;
  when e exit ;;
  o ← myproc;
  y ← match o with
      | None => mret false
      | Some i => p ← get_proc i; mret (bool_decide (p_state p = RUNNING) && (tf_trapno tf =? T_IRQ0 + IRQ_TIMER))
      end;
  when y yield ;;
  e ← must_exit tf;
  when e exit ;;
  mret sh.

(** ** main.c *)

Definition mpmain (fuel : nat) : K unit :=
  cprintf (str "cpu%d: starting %d" ++ [NL]) [CInt cpuid; CInt cpuid] ;;
  scheduler fuel.

(** The boot processor: the calls that set up software state, in order.
    [img]: the file system image in memory. *)
Definition main (uart_status : Z) (img : gmap Z (list Z)) (imgsize : Z) (initcode : list Z) (fuel : nat) : K unit :=
  v4 ← P2V (4 * 1024 * 1024);
  kinit1 kend v4 ;;
  kvmalloc ;;
  consoleinit ;;
  uartinit uart_status ;;
  binit ;;
  ideinit img imgsize ;;
  helloinit ;;
  zeroinit ;;
  nullinit ;;
  ticksinit ;;
  top ← P2V PHYSTOP;
  kinit2 v4 top ;;
  userinit initcode ;;
  mpmain fuel.
End Ops.
