(* ===== verification/User.v ===== *)
(** * User: system calls as user programs see them (user.h, ulib.c, printf.c)

    A user program is a computation over the state [S] of some operating system
    that offers the calls of user.h.  The interface is a class of operations;
    what a program relies on is a second class, of laws.  Bytes a call stores
    through a pointer are returned beside its result, bytes it reads are an
    argument, and strings are lists without their NUL.

    [exit] gives up the processor and never comes back, as in the kernel. *)

From S2P Require Import Prelude State Console Strings Printf Inode Proc.

Module Sys.
(** The two calls most programs live on. *)
Class Io (S : Type) := {
  write : Z → list Z → M S Z;
  read : Z → Z → M S (list Z * Z) }.

Class Os (S : Type) := {
  #[global] os_io :: Io S;
  fork : M S Z;
  wait : M S Z;
  (** The result and the two descriptors. *)
  pipe : M S (Z * (Z * Z));
  close : Z → M S Z;
  kill : Z → M S Z;
  (** Returns only on failure; on success the process runs another program. *)
  exec : list Z → list (list Z) → M S Z;
  open : list Z → Z → M S Z;
  mknod : list Z → Z → Z → M S Z;
  unlink : list Z → M S Z;
  fstat : Z → M S (option stat);
  link : list Z → list Z → M S Z;
  mkdir : list Z → M S Z;
  chdir : list Z → M S Z;
  dup : Z → M S Z;
  getpid : M S Z;
  sbrk : Z → M S Z;
  sleep : Z → M S Z;
  uptime : M S Z;
  yield : M S Z;
  shutdown : M S Z;
  nice : Z → Z → M S Z;
  ps : Z → M S (list procInfo);
  flock : Z → M S Z;
  funlock : Z → M S Z }.

Definition exit {S A} : M S A := λ s, Swtch s (λ _, Fault "exit").
End Sys.

(** Bound on the iterations of loops that go on until the input ends. *)
Class LoopBound := loop_bound : nat.

(** [strchr(set, c) != 0]. *)
Definition in_set (set : list Z) (c : Z) : bool :=
  match strchr (set ++ [0]) c with Some (Some _) => true | _ => false end.

Section Lib.
Context {S : Type} `{Sys.Io S}.

(** ** printf.c *)

Definition s_putc (fd : Z) : putFunction_t S := λ _ _ _ c, _ ← Sys.write fd [u8 c]; mret tt.
Definition printf (fd : Z) (fmt : list Z) (ap : list carg) : M S unit :=
  _ ← s_printf (s_putc fd) s_getReverseDigits (2 ^ 30) fmt ap; mret tt.

(** ** ulib.c *)

(** The characters [gets] stores from index [i] on, of [n] it may still store. *)
Fixpoint gets_loop (n : nat) : M S (list Z) :=
  match n with
  | O => mret []
  | Datatypes.S n' =>
      r ← Sys.read 0 1;
      if r.2 <? 1 then mret [] else
      match r.1 with
      | c :: _ =>
          if (c =? NL) || (c =? 13) then mret [c] else
          cs ← gets_loop n'; mret (c :: cs)
      | [] => fault "gets: read"
      end
  end.
(** The string stored in [buf], without its NUL. *)
Definition ulib_gets (max : Z) : M S (list Z) := gets_loop (Z.to_nat (max - 1)).
End Lib.

Definition ulib_stat {S} `{Sys.Os S} (n : list Z) : M S (option stat) :=
  fd ← Sys.open n 0;
  if fd <? 0 then mret None else
  r ← Sys.fstat fd;
  _ ← Sys.close fd;
  mret r.

(** ** What programs rely on *)

(** [I inp out s]: in state [s] the bytes [inp] are still to be read from [fd]
    and [out] has been written to descriptor 1, which has room for [cap] bytes
    in all.  A read returns at least one byte unless all have been read; how
    many is up to the system. *)
Class Streams {S : Type} `{Sys.Io S} (fd : Z) (cap : nat) (I : list Z → list Z → S → Prop) : Prop := {
  stream_read : ∀ inp out s n, I inp out s → 0 < n < 2 ^ 31 →
    wp (Sys.read fd n) (λ r s', ∃ rest, inp = r.1 ++ rest ∧ r.2 = Z.of_nat (length r.1) ∧ r.2 ≤ n ∧
      (r.1 = [] → inp = []) ∧ I rest out s') s;
  stream_write : ∀ inp out s bs, I inp out s → (length out + length bs ≤ cap)%nat →
    wp (Sys.write 1 bs) (λ r s', r = Z.of_nat (length bs) ∧ I inp (out ++ bs) s') s }.

(** Reads that return as much as they can, as those of disk files do. *)
Class FullReads {S : Type} `{Sys.Io S} (fd : Z) (I : list Z → list Z → S → Prop) : Prop :=
  full_read : ∀ inp out s n, I inp out s → 0 < n < 2 ^ 31 →
    wp (Sys.read fd n) (λ r s', r.1 = take (Z.to_nat n) inp ∧ r.2 = Z.of_nat (length r.1) ∧
      I (drop (Z.to_nat n) inp) out s') s.

(** ** Output *)

Section Print.
Context {S : Type} `{Sys.Io S} (fd : Z) (cap : nat) (I : list Z → list Z → S → Prop) `{!Streams fd cap I}.
Context (inp : list Z).
Implicit Types (out txt : list Z) (s : S).

Lemma wp_s_putc off len index c out s (Q : unit → S → Prop) :
  I inp out s → (length out + 1 ≤ cap)%nat → (∀ s', I inp (out ++ [u8 c]) s' → Q tt s') → wp (s_putc 1 off len index c) Q s.
Proof.
  intros Hi Hc HQ. unfold s_putc. apply wp_bind. eapply wp_mono; [apply (stream_write inp out s [u8 c] Hi Hc)|].
  intros r s' [_ Hs]. apply wp_ret. by apply HQ.
Qed.

Lemma wp_putc_ints cs off len j out s (Q : unit → S → Prop) :
  0 ≤ j → j + Z.of_nat (length cs) ≤ u32 len → I inp out s → (length out + length cs ≤ cap)%nat →
  (∀ s', I inp (out ++ map u8 cs) s' → Q tt s') → wp (printint_loop (s_putc 1) cs off len j) Q s.
Proof.
  revert j out s. induction cs as [|c cs IH]; intros j out s Hj Hl Hi Hc HQ; simpl in *.
  - apply wp_ret, HQ. by rewrite app_nil_r.
  - rewrite (proj2 (Z.ltb_lt _ _)) by lia. apply wp_bind. eapply wp_s_putc; [done|lia|]. intros s1 H1.
    apply (IH _ (out ++ [u8 c])); [lia|lia|done|rewrite length_app; simpl; lia|]. intros s2 H2. apply HQ.
    by rewrite <- app_assoc in H2.
Qed.

Lemma wp_putc_str w o out s (Q : Z → S → Prop) :
  0 ≤ o → o + Z.of_nat (length w) < 2 ^ 32 → I inp out s → (length out + length w ≤ cap)%nat →
  (∀ s', I inp (out ++ map u8 w) s' → Q (o + Z.of_nat (length w)) s') → wp (puts_loop (s_putc 1) w 0 (2 ^ 30 - 1) o) Q s.
Proof.
  revert o out s. induction w as [|c w IH]; intros o out s Ho Hl Hi Hc HQ; simpl in *.
  - apply wp_ret. rewrite app_nil_r, Z.add_0_r in HQ. by apply HQ.
  - apply wp_bind. eapply wp_s_putc; [done|lia|]. intros s1 H1. rewrite u32_small by lia.
    apply (IH _ (out ++ [u8 c])); [lia|lia|done|rewrite length_app; simpl; lia|]. intros s2 H2.
    replace (o + 1 + Z.of_nat (length w)) with (o + Z.of_nat (Datatypes.S (length w))) by lia. apply HQ.
    by rewrite <- app_assoc in H2.
Qed.

(** The rest of the format prints the rest of the text. *)
Definition prints_on (fmt : list Z) (txt : list Z) (out : list Z) : Prop :=
  ∀ ap' o s, render s_getReverseDigits fmt false ap' = Some txt → 0 ≤ o → o + Z.of_nat (length txt) < 2 ^ 30 - 1 →
    I inp out s → (length out + length txt ≤ cap)%nat →
    wp (s_printf_loop (s_putc 1) s_getReverseDigits fmt false 0 (2 ^ 30 - 1) o ap') (λ _, I inp (out ++ txt)) s.

Lemma prints_put fmt txt' d out o s ap' :
  (∀ out, prints_on fmt txt' out) → render s_getReverseDigits fmt false ap' = Some txt' → 0 ≤ o →
  o + Z.of_nat (Datatypes.S (length txt')) < 2 ^ 30 - 1 → I inp out s → (length out + Datatypes.S (length txt') ≤ cap)%nat →
  wp (s_putc 1 0 (2 ^ 30 - 1) o d ;; s_printf_loop (s_putc 1) s_getReverseDigits fmt false 0 (2 ^ 30 - 1) (u32 (o + 1)) ap')
     (λ _, I inp (out ++ u8 d :: txt')) s.
Proof.
  intros Hn E Ho Hl Hi Hc. apply wp_bind. eapply wp_s_putc; [done|lia|]. intros s1 H1. rewrite u32_small by lia.
  pose proof (Hn (out ++ [u8 d]) ap' (o + 1) s1 E ltac:(lia) ltac:(lia) H1) as H2.
  rewrite length_app, <- app_assoc in H2. apply H2. simpl. lia.
Qed.

Lemma prints_num fmt txt' w base sgn out o s ap' :
  let cs := rev (s_getReverseDigits 16 w base sgn) in
  (∀ out, prints_on fmt txt' out) → render s_getReverseDigits fmt false ap' = Some txt' → 0 ≤ o →
  o + Z.of_nat (length cs + length txt') < 2 ^ 30 - 1 → I inp out s → (length out + (length cs + length txt') ≤ cap)%nat →
  wp (k ← s_printint (s_putc 1) s_getReverseDigits (0 + o) (2 ^ 30 - 1 - o) w base sgn;
      s_printf_loop (s_putc 1) s_getReverseDigits fmt false 0 (2 ^ 30 - 1) (u32 (o + k)) ap')
     (λ _, I inp (out ++ map u8 cs ++ txt')) s.
Proof.
  intros cs Hn E Ho Hl Hi Hc. apply wp_bind. unfold s_printint. fold cs. apply wp_bind.
  eapply wp_putc_ints; [lia|rewrite u32_small; lia|done|lia|]. intros s1 H1. apply wp_ret.
  assert (length (s_getReverseDigits 16 w base sgn) = length cs) as -> by (unfold cs; by rewrite length_rev).
  rewrite u32_small by lia.
  pose proof (Hn (out ++ map u8 cs) ap' (o + Z.of_nat (length cs)) s1 E ltac:(lia) ltac:(lia) H1) as H2.
  rewrite <- app_assoc in H2. apply H2. rewrite length_app, length_map. lia.
Qed.

Lemma wp_printf_loop fmt txt out (state : bool) ap o s :
  render s_getReverseDigits fmt state ap = Some txt → 0 ≤ o → o + Z.of_nat (length txt) < 2 ^ 30 - 1 →
  I inp out s → (length out + length txt ≤ cap)%nat →
  wp (s_printf_loop (s_putc 1) s_getReverseDigits fmt state 0 (2 ^ 30 - 1) o ap) (λ _, I inp (out ++ txt)) s.
Proof.
  revert txt out state ap o s. induction fmt as [|c fmt IH]; intros txt out state ap o s E Ho Hl Hi Hc.
  { injection E as <-. apply wp_ret. by rewrite app_nil_r. }
  assert (∀ txt' out, prints_on fmt txt' out) as Hn by (intros txt' out' ap' o' s' E'; by apply IH).
  cbn [s_printf_loop]. rewrite (u32_small (2 ^ 30 - 1)) by lia. rewrite (proj2 (Z.ltb_lt _ _)) by lia. cbn [negb].
  change 0xff with (Z.ones 8). rewrite Z.land_ones by lia. change (c mod 2 ^ 8) with (u8 c).
  assert (u8 (u8 c) = u8 c) as Hcc by apply u8_small, u8_range.
  cbn [render] in E. cbv zeta in E |- *. destruct state; cbn [negb] in *.
  2: { destruct (u8 c =? ch "%"); [by apply IH|]. apply fmap_Some in E as (txt' & E & ->).
       pose proof (prints_put fmt txt' (u8 c) out o s ap (Hn txt')) as Hp. rewrite Hcc in Hp. by apply Hp. }
  assert (∀ w base sgn ap', app (map u8 (rev (s_getReverseDigits 16 w base sgn))) <$> render s_getReverseDigits fmt false ap' = Some txt →
    wp (k ← s_printint (s_putc 1) s_getReverseDigits (0 + o) (2 ^ 30 - 1 - o) w base sgn;
      s_printf_loop (s_putc 1) s_getReverseDigits fmt false 0 (2 ^ 30 - 1) (u32 (o + k)) ap') (λ _, I inp (out ++ txt)) s) as Hnum.
  { intros w base sgn ap' (txt' & E' & ->)%fmap_Some. rewrite length_app, length_map in Hl, Hc. by apply prints_num. }
  destruct (u8 c =? ch "d"). { destruct ap as [|[w|] ap]; [done| |done]. by apply Hnum. }
  destruct ((u8 c =? ch "x") || (u8 c =? ch "p")). { destruct ap as [|[w|] ap]; [done| |done]. by apply Hnum. }
  destruct (u8 c =? ch "s").
  { destruct ap as [|[|w] ap]; [done|done|]. apply fmap_Some in E as (txt' & E & ->). rewrite length_app, length_map in Hl, Hc.
    set (w' := default (str "(null)") w) in *. apply wp_bind. eapply wp_putc_str; [done|lia|done|lia|]. intros s1 H1. rewrite app_assoc.
    apply Hn; [done|lia|lia|done|rewrite length_app, length_map; lia]. }
  destruct (u8 c =? ch "c"). { destruct ap as [|[w|] ap]; [done| |done]. apply fmap_Some in E as (txt' & E & ->). by apply prints_put. }
  destruct (u8 c =? ch "%"). { apply fmap_Some in E as (txt' & E & ->).
    pose proof (prints_put fmt txt' (u8 c) out o s ap (Hn txt')) as Hp. rewrite Hcc in Hp. by apply Hp. }
  apply fmap_Some in E as (txt' & E & ->). rewrite length_app in Hl, Hc. simpl in Hl, Hc. apply wp_bind.
  eapply wp_s_putc; [done|lia|]. intros s1 H1. apply wp_bind. eapply wp_s_putc; [done|rewrite length_app; simpl; lia|]. intros s2 H2.
  rewrite u32_small by lia. pose proof (Hn txt' _ ap (o + 2) s2 E ltac:(lia) ltac:(lia) H2) as H3.
  rewrite Hcc, <- !app_assoc in H3. apply H3. rewrite !length_app. simpl. lia.
Qed.

(** [printf(1, fmt, ...)] writes the text of the format. *)
Lemma wp_printf fmt ap txt out s (Q : unit → S → Prop) :
  render s_getReverseDigits fmt false ap = Some txt → Z.of_nat (length txt) < 2 ^ 30 - 1 → I inp out s →
  (length out + length txt ≤ cap)%nat → (∀ s', I inp (out ++ txt) s' → Q tt s') → wp (printf 1 fmt ap) Q s.
Proof.
  intros E Hl Hi Hc HQ. unfold printf, s_printf. rewrite s32_small by lia. apply wp_bind, wp_bind.
  eapply wp_mono; [by apply (wp_printf_loop fmt txt out false ap 0 s)|]. intros r s' Hs. by apply wp_ret, wp_ret, HQ.
Qed.
End Print.

(** ** A small system that keeps the laws *)

(** One input, delivered in pieces of the given sizes, and one output. *)
Record toy := mkToy { toy_in : list Z; toy_sizes : list nat; toy_out : list Z }.
Definition toy_read (n : Z) : M toy (list Z * Z) := λ w,
  let k := (Z.to_nat n `min` default (length (toy_in w)) (head (toy_sizes w)))%nat in
  let bs := take k (toy_in w) in
  Ok (bs, Z.of_nat (length bs)) (mkToy (drop k (toy_in w)) (tail (toy_sizes w)) (toy_out w)).
#[export] Instance toy_io : Sys.Io toy := {
  Sys.write _ bs := λ w, Ok (Z.of_nat (length bs)) (mkToy (toy_in w) (toy_sizes w) (toy_out w ++ bs));
  Sys.read _ n := toy_read n }.
Definition toy_state (inp out : list Z) (w : toy) : Prop :=
  toy_in w = inp ∧ toy_out w = out ∧ Forall (λ k, (0 < k)%nat) (toy_sizes w).
#[export] Instance toy_streams fd cap : Streams fd cap toy_state.
Proof.
  split.
  - intros inp out w n (<- & <- & Hs) Hn. unfold wp. simpl. set (k := (Z.to_nat n `min` _)%nat).
    exists (drop k (toy_in w)). rewrite take_drop. split; [done|]. split; [done|]. split; [rewrite length_take; lia|].
    split; [|split; [done|split; [done|]]].
    + intros E. destruct (toy_in w) as [|x l] eqn:El; [done|]. subst k. destruct (toy_sizes w) as [|j js]; simpl in *.
      * destruct (Z.to_nat n) eqn:En; [lia|done].
      * inversion Hs; subst. destruct (Z.to_nat n) eqn:En; [lia|]. destruct j; [lia|done].
    + simpl. destruct (toy_sizes w); [done|]. by inversion Hs.
  - intros inp out w bs (<- & <- & Hs) _. done.
Qed.
(** The same without cuts. *)
Definition toy_whole (inp out : list Z) (w : toy) : Prop := w = mkToy inp [] out.
#[export] Instance toy_whole_full fd : FullReads fd toy_whole.
Proof.
  intros inp out w n -> Hn. unfold wp. simpl. destruct (Nat.le_gt_cases (length inp) (Z.to_nat n)).
  - rewrite Nat.min_r, firstn_all, drop_all by lia. split; [by rewrite take_ge|]. split; [done|]. by rewrite drop_ge.
  - rewrite Nat.min_l by lia. done.
Qed.
#[export] Instance toy_whole_streams fd cap : Streams fd cap toy_whole.
Proof.
  split; [|by intros inp out w bs -> _]. intros inp out w n Hi Hn.
  eapply wp_mono; [exact (full_read inp out w n Hi Hn)|]. intros r w' (E1 & E2 & Hw). exists (drop (Z.to_nat n) inp).
  rewrite E1, take_drop. split; [done|]. rewrite E2, E1. split; [done|]. split; [rewrite length_take; lia|].
  split; [|done]. destruct inp; [done|]. destruct (Z.to_nat n) eqn:En; [lia|done].
Qed.
