(* ===== verification/Umalloc.v ===== *)
(** * Umalloc: the allocator of user programs (umalloc.c)

    Memory is a map from addresses to 32-bit words; a header is two words, the
    pointer at its address and the size, in units of a header, behind it.  Words
    never written read as zero.  Reading or writing outside the program's data
    and heap is a [Fault].  [sbrk] is a parameter: a function on the state of
    the system, with the laws the allocator relies on.

    The free blocks form a ring through the static header [base].  The invariant
    [heap_ok] says that the ring visits them in address order, that no two are
    adjacent, and that they and the blocks handed out do not overlap. *)

From Stdlib Require Import Sorting.Sorted.
From S2P Require Import Prelude State Strings User.

(** ** The code *)

Record uheap (S : Type) := mkUheap {
  h_os : S;
  (** [&base], and the end of the program's memory. *)
  h_base : Z;
  h_top : Z;
  freep : Z;
  h_mem : gmap Z Z }.
Arguments mkUheap {S}. Arguments h_os {S}. Arguments h_base {S}. Arguments h_top {S}. Arguments freep {S}. Arguments h_mem {S}.

Definition hsize : Z := 8.
(** [p + n] for a pointer to a header. *)
Definition padd (p n : Z) : Z := u32 (p + hsize * n).

Section Code.
Context {S : Type} (sbrk : Z → M S Z) `{LoopBound}.

Definition accessible (a : Z) (h : uheap S) : bool := (h_base h <=? a) && (a + 4 <=? h_top h).
Definition rd (a : Z) : M (uheap S) Z := λ h,
  if accessible a h then Ok (default 0 (h_mem h !! a)) h else Fault "read".
Definition wr (a v : Z) : M (uheap S) unit := λ h,
  if accessible a h then Ok tt (mkUheap (h_os h) (h_base h) (h_top h) (freep h) (<[a := v]> (h_mem h))) else Fault "write".
Definition ptr (p : Z) : M (uheap S) Z := rd p.
Definition size (p : Z) : M (uheap S) Z := rd (p + 4).
Definition set_ptr (p v : Z) : M (uheap S) unit := wr p v.
Definition set_size (p v : Z) : M (uheap S) unit := wr (p + 4) v.
Definition set_freep (p : Z) : M (uheap S) unit := modify (λ h, mkUheap (h_os h) (h_base h) (h_top h) p (h_mem h)).
(** The system call; the new memory can be used afterwards. *)
Definition grow (n : Z) : M (uheap S) Z := λ h,
  match sbrk (s32 n) (h_os h) with
  | Ok r s => Ok (u32 r) (mkUheap s (h_base h) (if u32 r =? u32 (-1) then h_top h else u32 r + n) (freep h) (h_mem h))
  | Panic m => Panic m
  | Fault m => Fault m
  | Swtch _ _ => Fault "sbrk"
  | NoFuel => NoFuel
  end.

(** The loop of [free]: the header the block goes behind. *)
Fixpoint free_loop (fuel : nat) (bp p : Z) : M (uheap S) Z :=
  q ← ptr p;
  if (bp >? p) && (bp <? q) then mret p else
  if (p >=? q) && ((bp >? p) || (bp <? q)) then mret p else
  match fuel with O => nofuel | Datatypes.S fuel' => free_loop fuel' bp q end.

(** Join to the block above, or link to it. *)
Definition link_up (bp q : Z) : M (uheap S) unit :=
  n ← size bp;
  if padd bp n =? q then
    m ← size q; set_size bp (u32 (n + m)) ;;
    r ← ptr q; set_ptr bp r
  else set_ptr bp q.
(** Join to the block below, or link from it. *)
Definition link_down (p bp : Z) : M (uheap S) unit :=
  k ← size p;
  if padd p k =? bp then
    m ← size bp; set_size p (u32 (k + m)) ;;
    r ← ptr bp; set_ptr p r
  else set_ptr p bp.
Definition ufree (ap : Z) : M (uheap S) unit :=
  let bp := padd ap (-1) in
  f ← gets freep;
  p ← free_loop loop_bound bp f;
  q ← ptr p;
  link_up bp q ;;
  link_down p bp ;;
  set_freep p.

Definition morecore (nu : Z) : M (uheap S) Z :=
  let nu := if nu <? 4096 then 4096 else nu in
  p ← grow (u32 (nu * hsize));
  if p =? u32 (-1) then mret 0 else
  set_size p nu ;;
  ufree (padd p 1) ;;
  gets freep.

(** [p->s.size == nunits] and [>]: the block is unlinked or its tail cut off. *)
Definition take_block (prevp p nunits : Z) : M (uheap S) Z :=
  n ← size p;
  b ← (if n =? nunits then q ← ptr p; set_ptr prevp q ;; mret p
       else
         set_size p (u32 (n - nunits)) ;;
         let b := padd p (u32 (n - nunits)) in
         set_size b nunits ;; mret b);
  set_freep prevp ;;
  mret (padd b 1).
Fixpoint malloc_loop (fuel : nat) (nunits prevp p : Z) : M (uheap S) Z :=
  n ← size p;
  if n >=? nunits then take_block prevp p nunits else
  f ← gets freep;
  r ← (if p =? f then morecore nunits else mret p);
  if (p =? f) && (r =? 0) then mret 0 else
  q ← ptr r;
  match fuel with O => nofuel | Datatypes.S fuel' => malloc_loop fuel' nunits r q end.

Definition nunits (nbytes : Z) : Z := u32 (u32 (nbytes + hsize - 1) / hsize + 1).
Definition malloc (nbytes : Z) : M (uheap S) Z :=
  f ← gets freep;
  (if f =? 0 then
     b ← gets h_base;
     set_freep b ;; set_ptr b b ;; set_size b 0
   else mret tt) ;;
  prevp ← gets freep;
  p ← ptr prevp;
  malloc_loop loop_bound (nunits nbytes) prevp p.
End Code.

(** ** The free list *)

Abbreviation block := (Z * Z)%type.
(** The address of the first block, or [e]. *)
Definition first (L : list block) (e : Z) : Z := match L with (a, _) :: _ => a | [] => e end.
(** Blocks in address order, from above [lo] to below [hi], no two adjacent. *)
Fixpoint apart (lo : Z) (F : list block) (hi : Z) : Prop :=
  match F with
  | [] => lo < hi
  | (a, n) :: F' => lo < a ∧ 1 ≤ n ∧ apart (a + hsize * n) F' hi
  end.
(** The bytes of the blocks. *)
Definition within (x : Z) (b : block) : Prop := b.1 ≤ x < b.1 + hsize * b.2.
Definition space (F : list block) (x : Z) : Prop := Exists (within x) F.
Definition disjoint_blocks (b c : block) : Prop := b.1 + hsize * b.2 ≤ c.1 ∨ c.1 + hsize * c.2 ≤ b.1.

Section Lists.
Implicit Types (F X Y : list block) (lo hi a n x : Z).

Lemma apart_app lo X a n Y hi : apart lo (X ++ (a, n) :: Y) hi ↔ apart lo X a ∧ 1 ≤ n ∧ apart (a + hsize * n) Y hi.
Proof.
  revert lo. induction X as [|[b m] X IH]; intros lo; simpl; [tauto|]. rewrite IH. tauto.
Qed.
Lemma apart_lt lo F hi : apart lo F hi → lo < hi.
Proof.
  revert lo. induction F as [|[a n] F IH]; intros lo; simpl; [done|]. intros (H1 & H2 & H3%IH). unfold hsize in H3. lia.
Qed.
Lemma apart_elem lo F hi a n : apart lo F hi → (a, n) ∈ F → lo < a ∧ 1 ≤ n ∧ a + hsize * n < hi.
Proof.
  intros H (X & Y & ->)%list_elem_of_split. apply apart_app in H as (H1%apart_lt & H2 & H3%apart_lt). done.
Qed.
Lemma apart_hi lo F hi hi' : apart lo F hi → hi ≤ hi' → apart lo F hi'.
Proof. revert lo. induction F as [|[a n] F IH]; intros lo; simpl; [lia|]. intros (H1 & H2 & H3) Hle. auto. Qed.
Lemma apart_disjoint lo X a n Y hi b m : apart lo (X ++ (a, n) :: Y) hi → (b, m) ∈ X ++ Y → disjoint_blocks (a, n) (b, m).
Proof.
  intros (H1 & H2 & H3)%apart_app [Hb|Hb]%elem_of_app; eapply apart_elem in Hb; try done; unfold disjoint_blocks; simpl; lia.
Qed.
Lemma space_app X Y x : space (X ++ Y) x ↔ space X x ∨ space Y x.
Proof. unfold space. apply Exists_app. Qed.
Lemma space_cons a n F x : space ((a, n) :: F) x ↔ a ≤ x < a + hsize * n ∨ space F x.
Proof. unfold space. apply Exists_cons. Qed.
Lemma space_in lo F hi x : apart lo F hi → space F x → lo < x < hi - 1.
Proof.
  intros H. unfold space. rewrite Exists_exists. intros ([a n] & Hin & Hx). eapply apart_elem in Hin; [|done]. unfold within in Hx. simpl in Hx. lia.
Qed.

(** Where a block that overlaps no other belongs. *)
Lemma apart_split lo F hi a n : apart lo F hi → 1 ≤ n → lo < a → a + hsize * n < hi → Forall (disjoint_blocks (a, n)) F →
  ∃ X Y, F = X ++ Y ∧ apart lo X (a + 1) ∧ apart (a + hsize * n - 1) Y hi.
Proof.
  intros H Hn. revert lo H. induction F as [|[b m] F IH]; intros lo H Hlo Hhi Hd; simpl in H.
  - exists [], []. simpl. split; [done|]. lia.
  - destruct H as (H1 & H2 & H3). apply Forall_cons in Hd as [Hb Hd]. destruct Hb as [Hb|Hb]; simpl in Hb.
    + exists [], ((b, m) :: F). simpl. split; [done|]. split; [lia|]. split; [lia|done].
    + assert (b + hsize * m < a ∨ b + hsize * m = a) as [Hlt|Heq] by lia.
      * destruct (IH _ H3) as (X & Y & -> & HX & HY); [done|done|done|]. exists ((b, m) :: X), Y. simpl. auto.
      * exists [(b, m)], F. simpl. split; [done|]. split; [lia|]. destruct F as [|[c k] F]; simpl in *; [unfold hsize in *; lia|].
        destruct H3 as (H3 & H4 & H5). apply Forall_cons in Hd as [Hc _]. unfold disjoint_blocks, hsize in *. simpl in *. split; [lia|done].
Qed.
End Lists.

(** ** The invariant *)

Section Invariant.
Context {S : Type}.
Implicit Types (h : uheap S) (L F X Y : list block) (live : gmap Z Z) (a b n m p q x e : Z).

(** The word at [x]. *)
Definition word h x : Z := default 0 (h_mem h !! x).
(** The headers of the list are linked in this order, the last to [e]. *)
Fixpoint chain h L e : Prop :=
  match L with
  | [] => True
  | (a, n) :: L' => word h a = first L' e ∧ word h (a + 4) = n ∧ chain h L' e
  end.

Lemma chain_app h X Y e : chain h (X ++ Y) e ↔ chain h X (first Y e) ∧ chain h Y e.
Proof.
  induction X as [|[a n] X IH]; simpl; [tauto|]. rewrite IH. destruct X as [|[b m] X]; simpl; tauto.
Qed.
Lemma chain_frame h h' L e :
  Forall (λ b : block, word h' b.1 = word h b.1 ∧ word h' (b.1 + 4) = word h (b.1 + 4)) L → chain h L e → chain h' L e.
Proof.
  induction 1 as [|[a n] L [E1 E2] HL IH]; simpl; [done|]. simpl in E1, E2. rewrite E1, E2. tauto.
Qed.
Lemma first_app X a n Y e : first (X ++ (a, n) :: Y) e = first X a.
Proof. by destruct X as [|[b m] X]. Qed.

(** [F] are the free blocks, [live] the blocks handed out: header and size. *)
Record heap_ok (brk : Z) h F live : Prop := {
  ho_base : 0 < h_base h ∧ h_base h + hsize ≤ h_top h ∧ h_top h ≤ brk ∧ brk ≤ 2 ^ 31;
  ho_apart : apart (h_base h + 7) F (h_top h + 1);
  ho_ring : chain h ((h_base h, 0) :: F) (h_base h);
  ho_freep : freep h ∈ h_base h :: F.*1;
  ho_live : map_Forall (λ a n, h_base h + hsize ≤ a ∧ 1 ≤ n ∧ a + hsize * n ≤ h_top h ∧ word h (a + 4) = n) live;
  ho_free : map_Forall (λ a n, Forall (disjoint_blocks (a, n)) F) live;
  ho_disj : ∀ a n b m, live !! a = Some n → live !! b = Some m → a ≠ b → disjoint_blocks (a, n) (b, m) }.

(** A block between the two: it is not in the list and not handed out. *)
Record loose h F live a n : Prop := {
  lo_range : h_base h + hsize ≤ a ∧ 1 ≤ n ∧ a + hsize * n ≤ h_top h;
  lo_size : word h (a + 4) = n;
  lo_free : Forall (disjoint_blocks (a, n)) F;
  lo_live : map_Forall (λ b m, disjoint_blocks (a, n) (b, m)) live }.

(** Everything but the memory and [freep] is as before. *)
Definition same h h' : Prop := h_os h' = h_os h ∧ h_base h' = h_base h ∧ h_top h' = h_top h.

Lemma wp_rd a h (Q : Z → uheap S → Prop) :
  h_base h ≤ a → a + 4 ≤ h_top h → Q (word h a) h → wp (rd a) Q h.
Proof. intros H1 H2 HQ. unfold wp, rd, accessible. rewrite (proj2 (Z.leb_le _ _) H1), (proj2 (Z.leb_le _ _) H2). done. Qed.
Lemma wp_wr a v h (Q : unit → uheap S → Prop) :
  h_base h ≤ a → a + 4 ≤ h_top h →
  (∀ h', same h h' → freep h' = freep h → word h' a = v → (∀ x, x ≠ a → word h' x = word h x) → Q tt h') → wp (wr a v) Q h.
Proof.
  intros H1 H2 HQ. unfold wp, wr, accessible. rewrite (proj2 (Z.leb_le _ _) H1), (proj2 (Z.leb_le _ _) H2). simpl. apply HQ; [done|done|..].
  - unfold word. simpl. by rewrite lookup_insert_eq.
  - intros x Hx. unfold word. simpl. by rewrite lookup_insert_ne.
Qed.
Lemma padd_small p n : 0 ≤ p + hsize * n < 2 ^ 32 → padd p n = p + hsize * n.
Proof. apply u32_small. Qed.

(** ** free *)

Definition below (b c : block) : Prop := b.1 < c.1.
Lemma sorted_app X (b : block) Y : StronglySorted below (X ++ b :: Y) → Forall (λ c, below c b) X ∧ Forall (below b) Y.
Proof.
  induction X as [|c X IH]; simpl; intros Hs; inversion Hs as [|? ? Hs' Hf]; subst; [by split|].
  destruct (IH Hs') as [H1 H2]. split; [|done]. constructor; [|done]. apply Forall_app in Hf as [_ Hf]. by apply Forall_cons in Hf as [? _].
Qed.
Lemma apart_sorted lo F hi (b : block) : apart lo F hi → b.1 ≤ lo → StronglySorted below (b :: F).
Proof.
  revert lo b. induction F as [|[a n] F IH]; intros lo b H Hb; [repeat constructor|]. destruct H as (H1 & H2 & H3).
  pose proof (IH _ (a, n) H3 ltac:(unfold hsize; simpl; lia)) as Hs. constructor; [done|]. constructor; [unfold below; simpl; lia|].
  inversion Hs as [|? ? _ Hf]; subst. eapply Forall_impl; [exact Hf|]. unfold below. simpl. lia.
Qed.

Section Walk.
Context `{LoopBound} (h : uheap S) (V : list block) (p k : Z) (Y : list block) (a : Z) (Q : Z → uheap S → Prop).
Context (Hc : chain h (V ++ (p, k) :: Y) (h_base h)) (Hs : StronglySorted below (V ++ (p, k) :: Y)).
Context (Hb : first V p = h_base h) (Ha : Forall (λ b : block, h_base h ≤ b.1 ∧ b.1 + 4 ≤ h_top h) (V ++ (p, k) :: Y)).
Context (Hp : p < a) (HY : Forall (λ b : block, a < b.1) Y) (HQ : Q p h).

Lemma walk_elem (b : block) X1 X2 : V ++ (p, k) :: Y = X1 ++ b :: X2 → h_base h ≤ b.1 ∧ b.1 + 4 ≤ h_top h ∧ word h b.1 = first X2 (h_base h).
Proof.
  intros E. rewrite E in Hc, Ha. apply chain_app in Hc as [_ Hc']. apply Forall_app in Ha as [_ [Ha' _]%Forall_cons].
  destruct b as [b m]. simpl in *. destruct Hc' as (Hc' & _). tauto.
Qed.

(** From a header before the place, or at it. *)
Lemma walk_before V1 V2 fuel : V = V1 ++ V2 → (length V2 ≤ fuel)%nat → wp (free_loop fuel a (first V2 p)) Q h.
Proof.
  revert V1 fuel. induction V2 as [|[b m] V2 IH]; intros V1 fuel EV Hf.
  - destruct (walk_elem (p, k) V Y eq_refl) as (Hbp & Htp & Ep). simpl in *.
    destruct fuel; simpl; (apply wp_bind, wp_rd; [lia|lia|]); rewrite Ep, Z.gtb_ltb, (proj2 (Z.ltb_lt _ _) Hp); cbn [andb orb].
    all: destruct Y as [|[q m] Y']; simpl first;
      [rewrite (proj2 (Z.ltb_ge a (h_base h))) by lia; rewrite Z.geb_leb, (proj2 (Z.leb_le _ _) Hbp); by apply wp_ret|].
    all: apply Forall_cons in HY as [HY' _]; simpl in HY'; rewrite (proj2 (Z.ltb_lt _ _) HY'); by apply wp_ret.
  - destruct fuel as [|fuel]; simpl in Hf; [lia|]. simpl first.
    assert (V ++ (p, k) :: Y = V1 ++ (b, m) :: V2 ++ (p, k) :: Y) as E by (by rewrite EV, <- app_assoc).
    destruct (walk_elem (b, m) V1 _ E) as (Hbb & Htb & Eb). rewrite first_app in Eb. simpl in *.
    assert (b < first V2 p ∧ first V2 p ≤ p) as [Hbn Hnp].
    { pose proof Hs as Hs1. apply sorted_app in Hs1 as [Hv _]. rewrite EV in Hv. rewrite E in Hs. apply sorted_app in Hs as [_ Hs1].
      apply Forall_app in Hv as [_ [Hvb Hv]%Forall_cons]. destruct V2 as [|[c l] V2]; simpl in *; [unfold below in *; simpl in *; lia|].
      apply Forall_cons in Hv as [Hvc _], Hs1 as [Hbc _]. unfold below in *. simpl in *. lia. }
    apply wp_bind, wp_rd; [lia|lia|]. rewrite Eb. rewrite (proj2 (Z.ltb_ge a (first V2 p))) by lia. rewrite andb_false_r.
    rewrite Z.geb_leb, (proj2 (Z.leb_gt _ _) Hbn). cbn [andb]. apply (IH (V1 ++ [(b, m)])); [by rewrite <- app_assoc|lia].
Qed.
(** From a header behind it: through [base]. *)
Lemma walk_after Y1 Y2 fuel : Y = Y1 ++ Y2 → (length Y2 + length V ≤ fuel)%nat → wp (free_loop fuel a (first Y2 (h_base h))) Q h.
Proof.
  revert Y1 fuel. induction Y2 as [|[b m] Y2 IH]; intros Y1 fuel EY Hf.
  - simpl first. rewrite <- Hb. apply (walk_before []); [done|simpl in Hf; lia].
  - destruct fuel as [|fuel]; simpl in Hf; [lia|]. simpl first.
    assert (V ++ (p, k) :: Y = (V ++ (p, k) :: Y1) ++ (b, m) :: Y2) as E by (by rewrite EY, <- app_assoc).
    destruct (walk_elem (b, m) _ _ E) as (Hbb & Htb & Eb). simpl in *. rewrite EY in HY. apply Forall_app in HY as [_ [Hab HY']%Forall_cons]. simpl in *.
    apply wp_bind, wp_rd; [lia|lia|]. rewrite Eb, Z.gtb_ltb, (proj2 (Z.ltb_ge b a)) by lia. cbn [andb orb].
    assert ((b >=? first Y2 (h_base h)) && (a <? first Y2 (h_base h)) = false) as ->.
    { destruct (walk_elem (p, k) V Y eq_refl) as (Hbp & _). simpl in Hbp. rewrite E in Hs. apply sorted_app in Hs as [_ Hs'].
      destruct Y2 as [|[c l] Y2]; simpl; [rewrite (proj2 (Z.ltb_ge a (h_base h))) by lia; apply andb_false_r|].
      apply Forall_cons in Hs' as [Hbc _]. unfold below in Hbc. simpl in Hbc. rewrite Z.geb_leb, (proj2 (Z.leb_gt _ _) Hbc). done. }
    apply (IH (Y1 ++ [(b, m)])); [by rewrite <- app_assoc|lia].
Qed.
Lemma wp_free_loop fuel f : f ∈ (V ++ (p, k) :: Y).*1 → (length V + length Y ≤ fuel)%nat → wp (free_loop fuel a f) Q h.
Proof.
  intros ([b m] & -> & Hin)%list_elem_of_fmap Hf. apply elem_of_app in Hin as [Hin|[Heq|Hin]%elem_of_cons].
  - apply list_elem_of_split in Hin as (V1 & V2 & EV). pose proof (f_equal length EV) as El. rewrite length_app in El. simpl in El.
    apply (walk_before V1 ((b, m) :: V2)); [done|simpl; lia].
  - injection Heq as -> ->. apply (walk_before V []); [by rewrite app_nil_r|simpl; lia].
  - apply list_elem_of_split in Hin as (Y1 & Y2 & EY). pose proof (f_equal length EY) as El. rewrite length_app in El. simpl in El.
    apply (walk_after Y1 ((b, m) :: Y2)); [done|simpl; lia].
Qed.
End Walk.

(** Words outside two headers are as before. *)
Definition changed h h' a : Prop := same h h' ∧ freep h' = freep h ∧ ∀ x, x ≠ a → x ≠ a + 4 → word h' x = word h x.
Lemma chain_changed h h' a L e lo hi : changed h h' a → apart lo L hi → a + 4 ≤ lo ∨ hi ≤ a + 4 → chain h L e → chain h' L e.
Proof.
  intros (_ & _ & Hw) Hap Ho. apply chain_frame. apply Forall_forall. intros [b m] Hb. eapply apart_elem in Hb; [|done]. unfold hsize in Hb. simpl.
  split; apply Hw; lia.
Qed.

Lemma changed_trans h1 h2 h3 a : changed h1 h2 a → changed h2 h3 a → changed h1 h3 a.
Proof.
  intros [(A1 & A2 & A3) [Af Aw]] [(B1 & B2 & B3) [Bf Bw]]. split; [split_and!; congruence|]. split; [congruence|].
  intros x Hx Hx4. by rewrite Bw, Aw.
Qed.
Lemma wp_set_ptr a v h (Q : unit → uheap S → Prop) : h_base h ≤ a → a + 4 ≤ h_top h →
  (∀ h', changed h h' a → word h' a = v → word h' (a + 4) = word h (a + 4) → Q tt h') → wp (set_ptr a v) Q h.
Proof. intros H1 H2 HQ. apply wp_wr; [done|done|]. intros h' Hs Hf Hv Hw. apply HQ; [split; auto|done|apply Hw; lia]. Qed.
Lemma wp_set_size a v h (Q : unit → uheap S → Prop) : h_base h ≤ a → a + hsize ≤ h_top h →
  (∀ h', changed h h' a → word h' (a + 4) = v → word h' a = word h a → Q tt h') → wp (set_size a v) Q h.
Proof.
  unfold hsize. intros H1 H2 HQ. apply wp_wr; [lia|lia|]. intros h' Hs Hf Hv Hw. apply HQ; [split; auto|done|apply Hw; lia].
Qed.
Lemma wp_get_size a h (Q : Z → uheap S → Prop) : h_base h ≤ a → a + hsize ≤ h_top h → Q (word h (a + 4)) h → wp (size a) Q h.
Proof. unfold hsize. intros H1 H2 HQ. apply wp_rd; [lia|lia|done]. Qed.
Lemma wp_get_ptr a h (Q : Z → uheap S → Prop) : h_base h ≤ a → a + hsize ≤ h_top h → Q (word h a) h → wp (ptr a) Q h.
Proof. unfold hsize. intros H1 H2 HQ. apply wp_rd; [lia|lia|done]. Qed.

Lemma wp_link_up h a n Y e (Q : unit → uheap S → Prop) :
  h_base h ≤ a → a + hsize * n ≤ h_top h → h_top h ≤ 2 ^ 31 → 1 ≤ n → 0 < e < a → word h (a + 4) = n →
  chain h Y e → apart (a + hsize * n - 1) Y (h_top h + 1) →
  (∀ h' n' Y', changed h h' a → chain h' ((a, n') :: Y') e → 1 ≤ n' → apart (a + hsize * n') Y' (h_top h + 1) →
     (∀ x, space ((a, n') :: Y') x ↔ space ((a, n) :: Y) x) → (length Y' ≤ length Y)%nat → Q tt h') →
  wp (link_up a (first Y e)) Q h.
Proof.
  intros Hb Ht H31 Hn He Hsz HY Hap HQ. unfold link_up. apply wp_bind, wp_get_size; [lia|unfold hsize in *; lia|].
  rewrite Hsz, padd_small by (unfold hsize in *; lia).
  destruct (Z.eqb_spec (a + hsize * n) (first Y e)) as [Eq|Eq].
  - destruct Y as [|[q m] Y]; simpl in Eq; [unfold hsize in *; lia|]. subst q. simpl in Hap, HY |- *. destruct Hap as (_ & Hm & Hap), HY as (Eq1 & Eq2 & HY).
    pose proof (apart_lt _ _ _ Hap) as Hlt. unfold hsize in *.
    apply wp_bind, wp_get_size; unfold hsize; [lia|lia|]. rewrite Eq2, u32_small by lia.
    apply wp_bind, wp_set_size; unfold hsize; [lia|lia|]. intros h1 C1 W1 P1. pose proof C1 as [(_ & B1 & T1) [_ O1]].
    apply wp_bind, wp_get_ptr; unfold hsize; [lia|lia|]. rewrite O1, Eq1 by lia. apply wp_set_ptr; [lia|lia|]. intros h2 C2 W2 P2.
    pose proof (changed_trans _ _ _ _ C1 C2) as C. apply (HQ h2 (n + m) Y); [done| |lia| | |simpl; lia].
    + simpl. split; [done|]. split; [congruence|]. eapply chain_changed; [exact C|exact Hap|lia|done].
    + by replace (a + 8 * (n + m)) with (a + 8 * n + 8 * m) by lia.
    + intros x. rewrite !space_cons. unfold hsize. split; intros; destruct_or!; auto; [|left; lia|left; lia].
      assert (x < a + 8 * n ∨ a + 8 * n ≤ x) as [|] by lia; [left|right; left]; lia.
  - apply wp_set_ptr; [lia|unfold hsize in *; lia|]. intros h' C W P. apply (HQ h' n Y); [done| |done| |done|done].
    + simpl. split; [done|]. split; [congruence|]. eapply chain_changed; [exact C|exact Hap|unfold hsize in *; lia|done].
    + destruct Y as [|[q m] Y]; simpl in *; [lia|]. destruct Hap as (? & ? & ?). split; [lia|done].
Qed.

Lemma chain_base h h' c X hi e : changed h h' c → h_base h + hsize ≤ c → apart (h_base h + 7) X hi → hi ≤ c + 4 →
  chain h ((h_base h, 0) :: X) e → chain h' ((h_base h, 0) :: X) e.
Proof.
  unfold hsize. intros C Hc Hap Hhi (H1 & H2 & H3). pose proof C as (_ & _ & Hw). simpl. rewrite !Hw by lia. split; [done|]. split; [done|].
  eapply chain_changed; [exact C|exact Hap|by right|done].
Qed.
Lemma chain_ext h h' L e : (∀ x, word h' x = word h x) → chain h L e → chain h' L e.
Proof. intros E. apply chain_frame. by apply Forall_true. Qed.

(** The last header of the list so far. *)
Lemma last_header b0 X V p k hi : (b0, 0) :: X = V ++ [(p, k)] → apart (b0 + 7) X hi → b0 + hsize ≤ hi →
  b0 ≤ p ∧ p + hsize ≤ hi ∧ p ∈ b0 :: X.*1 ∧ (p = b0 ∨ space X p ∧ space X (p + 4)).
Proof.
  intros EV HapX Hhi. assert ((p, k) ∈ (b0, 0) :: X) as [[= -> _]|Hin]%elem_of_cons by (rewrite EV; apply elem_of_app; right; by left).
  - unfold hsize in *. split_and!; [lia|lia|by left|by left].
  - pose proof (apart_elem _ _ _ _ _ HapX Hin). unfold hsize in *. split_and!; [lia|lia|right; apply list_elem_of_fmap; by exists (p, k)|].
    right. unfold space. rewrite !Exists_exists. split; exists (p, k); (split; [done|]); unfold within, hsize; simpl; lia.
Qed.
(** It is linked to another. *)
Lemma chain_relink h h' X V p k q v hi :
  (h_base h, 0) :: X = V ++ [(p, k)] → apart (h_base h + 7) X hi → chain h ((h_base h, 0) :: X) q →
  changed h h' p → word h' p = v → word h' (p + 4) = word h (p + 4) → chain h' ((h_base h, 0) :: X) v.
Proof.
  intros EV HapX HX C W P. destruct X as [|x X _] using rev_ind.
  { apply (app_inj_tail []) in EV as [<- [= <- <-]]. simpl in *. split_and!; [done|destruct HX as (_ & ? & _); congruence|done]. }
  rewrite app_comm_cons in EV. apply app_inj_tail in EV as [<- ->]. apply apart_app in HapX as (HapX & Hk1 & _).
  rewrite app_comm_cons in HX |- *. apply chain_app in HX as [HX HX']. apply chain_app. pose proof (apart_lt _ _ _ HapX) as Hbp.
  split; [eapply chain_base; [exact C|unfold hsize; lia|exact HapX|lia|exact HX]|]. simpl in *.
  split_and!; [done|destruct HX' as (_ & ? & _); congruence|done].
Qed.
Lemma wp_link_down h X V p k q a n Y (Q : unit → uheap S → Prop) :
  let base := h_base h in
  (base, 0) :: X = V ++ [(p, k)] → 0 < base → base + hsize ≤ a → a + hsize * n ≤ h_top h → h_top h ≤ 2 ^ 31 → 1 ≤ n →
  chain h ((base, 0) :: X) q → chain h ((a, n) :: Y) base → apart (base + 7) X (a + 1) → apart (a + hsize * n) Y (h_top h + 1) →
  (∀ h' F, changed h h' p → chain h' ((base, 0) :: F) base → apart (base + 7) F (h_top h + 1) → p ∈ base :: F.*1 →
     (∀ x, space F x ↔ space X x ∨ space ((a, n) :: Y) x) → (length F ≤ length X + Datatypes.S (length Y))%nat → Q tt h') →
  wp (link_down p a) Q h.
Proof.
  intros base EV Hb0 Hba Hta H31 Hn HX HaY HapX HapY HQ. unfold link_down.
  assert (base < p + 1 ∧ 0 ≤ k ∧ p + hsize ≤ a ∧ p + hsize * k ≤ a ∧ word h (p + 4) = k) as (Hp1 & Hk & Hpa & Hpk & Ek).
  { destruct X as [|x X _] using rev_ind.
    - apply (app_inj_tail []) in EV as [_ [= <- <-]]. simpl in HX. unfold hsize in *. split_and!; try lia; tauto.
    - rewrite app_comm_cons in EV. apply app_inj_tail in EV as [_ ->]. apply apart_app in HapX as (H1%apart_lt & H2 & H3). simpl in H3.
      rewrite app_comm_cons in HX. apply chain_app in HX as [_ HX]. simpl in HX. unfold hsize in *. split_and!; try lia; tauto. }
  fold base in Hp1. apply wp_bind, wp_get_size; [fold base; lia|unfold hsize in *; lia|]. rewrite Ek, padd_small by (unfold hsize in *; lia).
  assert (chain h ((base, 0) :: X) (first ((a, n) :: Y) base) → chain h ((base, 0) :: X ++ (a, n) :: Y) base) as Hjoin.
  { intros H. rewrite app_comm_cons, chain_app. done. }
  destruct (Z.eqb_spec (p + hsize * k) a) as [Eq|Eq].
  - destruct X as [|x X _] using rev_ind; [apply (app_inj_tail []) in EV as [_ [= <- <-]]; unfold hsize in *; lia|].
    rewrite app_comm_cons in EV. apply app_inj_tail in EV as [<- ->]. clear Hjoin. destruct HaY as (Ea1 & Ea2 & HY).
    apply wp_bind, wp_get_size; [fold base; unfold hsize in *; lia|unfold hsize in *; lia|]. rewrite Ea2, u32_small by (unfold hsize in *; lia).
    apply wp_bind, wp_set_size; [fold base; lia|unfold hsize in *; lia|]. intros h1 C1 W1 P1. pose proof C1 as [(_ & B1 & T1) [_ O1]]. fold base in B1.
    apply wp_bind, wp_get_ptr; [unfold hsize in *; lia|unfold hsize in *; lia|]. rewrite O1, Ea1 by (unfold hsize in *; lia).
    apply wp_set_ptr; [lia|unfold hsize in *; lia|]. intros h2 C2 W2 P2. pose proof (changed_trans _ _ _ _ C1 C2) as C.
    apply apart_app in HapX as (HapX & Hk1 & _). rewrite app_comm_cons in HX. apply chain_app in HX as [HX _]. simpl first in HX.
    pose proof (apart_lt _ _ _ HapX) as Hbp. apply (HQ h2 (X ++ (p, k + n) :: Y)); [done| | | | |rewrite !length_app; simpl; lia].
    + rewrite app_comm_cons, chain_app. split; [eapply chain_base; [exact C|unfold hsize; lia|exact HapX|lia|exact HX]|].
      simpl. split; [done|]. split; [congruence|]. eapply chain_changed; [exact C|exact HapY|unfold hsize in *; lia|done].
    + apply apart_app. split; [done|]. split; [lia|]. replace (p + hsize * (k + n)) with (a + hsize * n) by (unfold hsize in *; lia). done.
    + rewrite fmap_app. right. apply elem_of_app. right. by left.
    + intros x. rewrite !space_app, !space_cons. unfold hsize in *. assert (¬ space [] x) by (intros Hs; inversion Hs).
      split; intros; destruct_or!; auto; try (right; left; lia); try tauto.
      assert (x < a ∨ a ≤ x) as [|] by lia; [left; right; left; lia|right; left; lia].
  - apply wp_set_ptr; [fold base; lia|unfold hsize in *; lia|]. intros h' C W P. apply (HQ h' (X ++ (a, n) :: Y)); [done| | | | |by rewrite length_app].
    + assert (apart (a - 1) ((a, n) :: Y) (h_top h + 1)) as HapaY by (simpl; split; [lia|done]).
      rewrite app_comm_cons, chain_app. split; [|eapply chain_changed; [exact C|exact HapaY|unfold hsize in *; lia|exact HaY]].
      by eapply chain_relink.
    + destruct X as [|x X _] using rev_ind; [by split; [unfold hsize in *; simpl; lia|]|].
      rewrite app_comm_cons in EV. apply app_inj_tail in EV as [<- ->]. apply apart_app in HapX as (HapX & Hk1 & Hl). simpl in Hl.
      rewrite <- app_assoc. apply apart_app. split; [done|]. split; [done|]. simpl. split; [lia|done].
    + destruct X as [|x X _] using rev_ind; [apply (app_inj_tail []) in EV as [_ [= <- _]]; by left|].
      rewrite app_comm_cons in EV. apply app_inj_tail in EV as [_ ->]. right. rewrite !fmap_app. apply elem_of_app. left.
      apply elem_of_app. right. by left.
    + intros x. by rewrite space_app.
Qed.

(** Two blocks are disjoint when they share no byte. *)
Lemma disjoint_space b m F : 1 ≤ m → Forall (λ c : block, 1 ≤ c.2) F →
  Forall (disjoint_blocks (b, m)) F ↔ ∀ x, b ≤ x < b + hsize * m → ¬ space F x.
Proof.
  intros Hm HF. unfold space. split.
  - intros Hd x Hx. rewrite Exists_exists. intros ([c l] & Hin & Hw). rewrite Forall_forall in Hd. specialize (Hd _ Hin).
    unfold disjoint_blocks, within in *. simpl in *. lia.
  - intros Hn. apply Forall_forall. intros [c l] Hin. rewrite Forall_forall in HF. pose proof (HF _ Hin) as Hl. simpl in Hl.
    unfold disjoint_blocks, hsize in *. simpl. assert (b + 8 * m ≤ c ∨ c + 8 * l ≤ b ∨ Z.max b c < Z.min (b + 8 * m) (c + 8 * l)) as [|[|Hx]] by lia; [by left|by right|].
    exfalso. apply (Hn (Z.max b c)); [lia|]. apply Exists_exists. exists (c, l). split; [done|]. unfold within, hsize. simpl. lia.
Qed.
Lemma apart_sizes lo F hi : apart lo F hi → Forall (λ c : block, 1 ≤ c.2) F.
Proof. intros H. apply Forall_forall. intros [a n] Hin. eapply apart_elem in Hin; [|done]. simpl. lia. Qed.
Lemma disjoint_sym (b c : block) : disjoint_blocks b c → disjoint_blocks c b.
Proof. unfold disjoint_blocks. tauto. Qed.

(** Only the static header, free blocks and the bytes in [P] are written. *)
Definition framed h h' F (P : Z → Prop) : Prop :=
  ∀ x, ¬ (h_base h ≤ x < h_base h + hsize) → ¬ space F x → ¬ P x → word h' x = word h x.

(** The invariant again, when the free blocks have changed by the bytes in [P]. *)
Lemma heap_ok_free brk h h' F F' live P :
  heap_ok brk h F live → h_base h' = h_base h → h_top h ≤ h_top h' ≤ brk → brk ≤ 2 ^ 31 → framed h h' F P →
  chain h' ((h_base h, 0) :: F') (h_base h) → apart (h_base h + 7) F' (h_top h' + 1) → freep h' ∈ h_base h :: F'.*1 →
  (∀ x, space F' x → space F x ∨ P x) →
  map_Forall (λ a n, ∀ x, a ≤ x < a + hsize * n → ¬ P x) live → heap_ok brk h' F' live.
Proof.
  intros [Hb Hap Hr Hf Hl Hd Hdd] Eb Et H31 Hfr Hc' Hap' Hf' Hsp HP. split; rewrite ?Eb; try done; [lia| |].
  - intros a n Ha. destruct (Hl a n Ha) as (H1 & H2 & H3 & H4). split; [lia|]. split; [lia|]. split; [lia|]. rewrite <- H4. unfold hsize in *.
    pose proof (proj1 (disjoint_space a n F H2 (apart_sizes _ _ _ Hap)) (Hd a n Ha) (a + 4)) as Hns. unfold hsize in Hns.
    apply Hfr; unfold hsize; [lia|apply Hns; lia|apply (HP a n Ha); unfold hsize; lia].
  - intros a n Ha. destruct (Hl a n Ha) as (H1 & H2 & H3 & H4). apply disjoint_space; [done|by eapply apart_sizes|]. intros x Hx [Hs|Hs]%Hsp.
    + by apply (proj1 (disjoint_space a n F H2 (apart_sizes _ _ _ Hap)) (Hd a n Ha) x).
    + by apply (HP a n Ha x Hx).
Qed.

Lemma wp_ufree `{LoopBound} brk h F live a n (Q : unit → uheap S → Prop) :
  heap_ok brk h F live → loose h F live a n → (length F ≤ loop_bound)%nat →
  (∀ h' F', same h h' → heap_ok brk h' F' live → framed h h' F (λ x, a ≤ x < a + hsize * n) →
     (∀ x, space F' x ↔ space F x ∨ a ≤ x < a + hsize * n) → (length F' ≤ Datatypes.S (length F))%nat → Q tt h') →
  wp (ufree (a + hsize)) Q h.
Proof.
  intros Hok [Hr Hsz Hdf Hdl] Hlb HQ. pose proof Hok as [Hb Hap Hring Hf _ _ _]. set (base := h_base h) in *.
  unfold ufree. rewrite padd_small by (unfold hsize in *; lia). replace (a + hsize + hsize * -1) with a by lia.
  destruct (apart_split _ F _ a n Hap) as (X & Y & -> & HapX & HapY); [lia|unfold hsize in *; lia|lia|done|].
  destruct (exists_last (l := (base, 0) :: X)) as (V & [p k] & EV); [done|].
  assert ((base, 0) :: X ++ Y = V ++ (p, k) :: Y) as EL by (rewrite app_comm_cons, EV; by rewrite <- app_assoc).
  destruct (last_header base X V p k (a + 1) EV HapX) as (Hbp & Hpa' & _ & Hpw0); [unfold hsize in *; lia|].
  assert (p < a ∧ p + hsize ≤ h_top h ∧ (p = base ∨ space (X ++ Y) p ∧ space (X ++ Y) (p + 4))) as (Hpa & Htp & Hpw).
  { unfold hsize in *. split_and!; [lia|lia|]. destruct Hpw0 as [|[? ?]]; [by left|]. right. split; apply space_app; by left. }
  apply wp_bind. unfold wp at 1, gets. apply wp_bind.
  apply (wp_free_loop h V p k Y a); rewrite <- ?EL; fold base; [done| | | |done| | |done|].
  { eapply apart_sorted; [exact Hap|simpl; lia]. }
  { destruct V as [|[v l] V]; simpl in EV; [by injection EV|by injection EV]. }
  { constructor; [simpl; unfold hsize in *; lia|]. apply Forall_forall. intros [b m] Hin. eapply apart_elem in Hin; [|exact Hap].
    unfold hsize in *. simpl. lia. }
  { apply Forall_forall. intros [b m] Hin. eapply apart_elem in Hin; [|exact HapY]. unfold hsize in *. simpl. lia. }
  2: { apply (f_equal length) in EL. rewrite length_app in EL. simpl in EL. rewrite !length_app in *. simpl in *. lia. }
  assert (word h p = first Y base ∧ chain h Y base) as [Ep HY].
  { rewrite EL, chain_app in Hring. destruct Hring as (_ & ? & _ & ?). done. }
  apply wp_bind, wp_get_ptr; [done|done|]. rewrite Ep. apply wp_bind.
  apply (wp_link_up h a n Y base); try done; try (unfold hsize in *; lia). intros h1 n1 Y1 C1 HY1 Hn1 HapY1 Hsp1 Hl1.
  pose proof C1 as [(Eo1 & B1 & T1) [F1 O1]]. fold base in B1. apply wp_bind.
  pose proof (apart_lt _ _ _ HapY1) as Hlt1.
  eapply (wp_link_down h1 X V p k (first Y base) a n1 Y1); rewrite ?B1, ?T1; fold base; try done; try (unfold hsize in *; lia).
  { eapply chain_base; [exact C1|unfold hsize in *; fold base; lia|exact HapX|lia|]. rewrite app_comm_cons, chain_app in Hring. by destruct Hring. }
  intros h2 F2 C2 HF2 HapF2 Hp2 Hsp2 Hl2. pose proof C2 as [(Eo2 & B2 & T2) [Fp2 O2]]. unfold set_freep, wp, modify.
  set (h3 := mkUheap _ _ _ _ _). assert (∀ x, word h3 x = word h2 x) as W3 by done.
  assert (framed h h3 (X ++ Y) (λ x, a ≤ x < a + hsize * n)) as Hfr.
  { intros x Hx1 Hx2 Hx3. fold base in Hx1. rewrite W3, O2, O1; [done|..]; intros ->; unfold hsize in *; try lia;
      destruct Hpw as [->|[? ?]]; try lia; done. }
  assert (∀ x, space F2 x ↔ space (X ++ Y) x ∨ a ≤ x < a + hsize * n) as Hsp.
  { intros x. rewrite Hsp2, Hsp1, space_cons, space_app. tauto. }
  unfold base in *. apply (HQ h3 F2); [split_and!; simpl; congruence| |done|done|].
  - eapply heap_ok_free; [exact Hok|simpl; congruence|simpl; lia|lia|exact Hfr| | |done|intros x; apply Hsp|].
    + eapply chain_frame; [|exact HF2]. by apply Forall_true.
    + simpl. by replace (h_top h2) with (h_top h) by congruence.
    + intros b m Hbm x Hx Hxa. specialize (Hdl b m Hbm). unfold disjoint_blocks in Hdl. simpl in Hdl. lia.
  - rewrite length_app. lia.
Qed.

(** ** malloc *)

Lemma apart_lo lo lo' F hi : apart lo F hi → lo' ≤ lo → apart lo' F hi.
Proof. destruct F as [|[a n] F]; simpl; [lia|]. intros (? & ? & ?) ?. split; [lia|done]. Qed.
Lemma apart_join lo X m m' Y hi : apart lo X m → m ≤ m' → apart m' Y hi → apart lo (X ++ Y) hi.
Proof.
  revert lo. induction X as [|[a n] X IH]; intros lo HX Hm HY; simpl in *; [eapply apart_lo; [done|lia]|].
  destruct HX as (? & ? & ?). auto.
Qed.
(** Free bytes in a row are in one block. *)
Lemma apart_row lo F hi a m : apart lo F hi → 1 ≤ m → (∀ x, a ≤ x < a + hsize * m → space F x) →
  ∃ b k, (b, k) ∈ F ∧ b ≤ a ∧ a + hsize * m ≤ b + hsize * k.
Proof.
  intros Hap Hm. unfold hsize. revert lo Hap. induction F as [|[b k] F IH]; intros lo Hap Hx.
  - specialize (Hx a ltac:(lia)). inversion Hx.
  - destruct Hap as (H1 & H2 & H3). unfold hsize in *. pose proof (Hx a ltac:(lia)) as Ha. apply space_cons in Ha as [Ha|Ha]; unfold hsize in *.
    + destruct (decide (a + 8 * m ≤ b + 8 * k)) as [Hle|Hgt]; [exists b, k; split; [by left|lia]|].
      pose proof (Hx (b + 8 * k) ltac:(lia)) as Hn. apply space_cons in Hn as [Hn|Hn]; unfold hsize in *; [lia|].
      eapply space_in in Hn; [|exact H3]. lia.
    + pose proof (space_in _ _ _ _ H3 Ha) as Ha'. destruct (IH _ H3) as (b' & k' & Hin & ? & ?); [|exists b', k'; split; [by right|lia]].
      intros x Hxx. pose proof (Hx x Hxx) as Hn. apply space_cons in Hn as [Hn|Hn]; unfold hsize in *; [lia|done].
Qed.

Lemma heap_ok_alloc brk h h' F F' live a n :
  heap_ok brk h F live → same h h' → framed h h' F (λ _, False) →
  chain h' ((h_base h, 0) :: F') (h_base h) → apart (h_base h + 7) F' (h_top h + 1) → freep h' ∈ h_base h :: F'.*1 →
  1 ≤ n → word h' (a + 4) = n → (∀ x, space F x ↔ space F' x ∨ a ≤ x < a + hsize * n) →
  (∀ x, a ≤ x < a + hsize * n → ¬ space F' x) → heap_ok brk h' F' (<[a := n]> live) ∧ live !! a = None.
Proof.
  intros Hok (Eo & Eb & Et) Hfr Hc Hap Hf Hn Hw Hsp Hns.
  assert (heap_ok brk h' F' live) as Hok'.
  { eapply (heap_ok_free _ h); [exact Hok|done|destruct (ho_base _ _ _ _ Hok); lia|destruct (ho_base _ _ _ _ Hok); lia|exact Hfr|done|by rewrite Et|done| |].
    - intros x Hx. left. apply Hsp. by left.
    - intros b m _ x _ []. }
  pose proof (apart_sizes _ _ _ (ho_apart _ _ _ _ Hok)) as Hsz.
  assert (∀ b m, live !! b = Some m → 1 ≤ m ∧ disjoint_blocks (a, n) (b, m)) as Hd.
  { intros b m Hbm. destruct (ho_live _ _ _ _ Hok b m Hbm) as (_ & Hm & _). split; [done|].
    pose proof (proj1 (disjoint_space b m F Hm Hsz) (ho_free _ _ _ _ Hok b m Hbm)) as Hno.
    assert (Forall (disjoint_blocks (a, n)) [(b, m)]) as [? _]%Forall_cons; [|done].
    apply disjoint_space; [done|by repeat constructor|]. intros x Hx Hxb. apply space_cons in Hxb as [Hxb|Hxb]; [|inversion Hxb].
    apply (Hno x Hxb), Hsp. by right. }
  assert (h_base h + hsize ≤ a ∧ a + hsize * n ≤ h_top h) as [Hba Hta].
  { assert (space F a) as H1%(space_in _ _ _ _ (ho_apart _ _ _ _ Hok)) by (apply Hsp; right; unfold hsize; lia).
    assert (space F (a + hsize * n - 1)) as H2%(space_in _ _ _ _ (ho_apart _ _ _ _ Hok)) by (apply Hsp; right; unfold hsize; lia). unfold hsize in *. lia. }
  split.
  - destruct Hok' as [Hb' Hap' Hr' Hf' Hl' Hdf' Hdd']. split; try done.
    + apply map_Forall_insert_2; [|done]. rewrite Eb, Et. done.
    + apply map_Forall_insert_2; [|done]. apply disjoint_space; [done|by eapply apart_sizes|done].
    + intros b m c l. rewrite !lookup_insert_Some. intros [[<- <-]|[Hnb Hb]] [[<- <-]|[Hnc Hcl]] Hne; [done|by apply Hd|apply disjoint_sym; by apply Hd|by apply (Hdd' b m c l)].
  - destruct (live !! a) as [m|] eqn:E; [|done]. destruct (Hd a m E) as [Hm Hdm]. unfold disjoint_blocks, hsize in Hdm. simpl in Hdm. lia.
Qed.

(** What taking a block of [n] units does. *)
Definition taken brk h F live n (Q : Z → uheap S → Prop) : Prop := ∀ h' F' a,
  same h h' → heap_ok brk h' F' (<[a := n]> live) → live !! a = None → framed h h' F (λ _, False) →
  (∀ x, space F x ↔ space F' x ∨ a ≤ x < a + hsize * n) → (length F' ≤ length F)%nat → Q (a + hsize) h'.

Lemma freep_set h v : same h (mkUheap (h_os h) (h_base h) (h_top h) v (h_mem h)) ∧ ∀ x, word (mkUheap (h_os h) (h_base h) (h_top h) v (h_mem h)) x = word h x.
Proof. done. Qed.
Lemma same_trans h1 h2 h3 : same h1 h2 → same h2 h3 → same h1 h3.
Proof. intros (? & ? & ?) (? & ? & ?). split_and!; congruence. Qed.

(** A whole block. *)
Lemma wp_take_exact brk h X p n Y live V prev k (Q : Z → uheap S → Prop) :
  heap_ok brk h (X ++ (p, n) :: Y) live → (h_base h, 0) :: X = V ++ [(prev, k)] → 1 ≤ n →
  taken brk h (X ++ (p, n) :: Y) live n Q → wp (take_block prev p n) Q h.
Proof.
  intros Hok EV Hn HQ. pose proof Hok as [Hb Hap Hr Hf _ _ _]. pose proof Hap as (HapX & _ & HapY)%apart_app.
  pose proof (apart_lt _ _ _ HapX) as Hbp. pose proof (apart_lt _ _ _ HapY) as Hpt.
  rewrite app_comm_cons, chain_app in Hr. destruct Hr as (HX & Ep & Esz & HY). simpl first in HX.
  destruct (last_header _ X V prev k p EV HapX) as (Hb1 & Hp1 & Hpin & Hsp1); [unfold hsize in *; lia|].
  unfold take_block. apply wp_bind, wp_get_size; [lia|unfold hsize in *; lia|]. rewrite Esz, Z.eqb_refl.
  apply wp_bind, wp_bind, wp_get_ptr; [lia|unfold hsize in *; lia|]. rewrite Ep.
  apply wp_bind, wp_set_ptr; [lia|unfold hsize in *; lia|]. intros h1 C1 W1 P1. pose proof C1 as [S1 [F1 O1]]. apply wp_ret.
  unfold set_freep, wp, mbind, M_bind, modify, mret, M_ret, obind. set (h2 := mkUheap _ _ _ _ _).
  assert (same h h2) as S2 by (eapply same_trans; [exact S1|done]). assert (∀ x, word h2 x = word h1 x) as W2 by done.
  rewrite padd_small, Z.mul_1_r by (unfold hsize in *; lia).
  assert (framed h h2 (X ++ (p, n) :: Y) (λ _, False)) as Hfr.
  { intros x Hx1 Hx2 _. rewrite W2, O1; [done|..]; intros ->; destruct Hsp1 as [->|[? ?]]; try (unfold hsize in *; lia);
      apply Hx2, space_app; by left. }
  assert (∀ x, p ≤ x < p + hsize * n → ¬ space (X ++ Y) x) as Hns.
  { intros x Hx [Hx1|Hx1]%space_app; [eapply space_in in Hx1; [|exact HapX]|eapply space_in in Hx1; [|exact HapY]]; lia. }
  assert (∀ x, space (X ++ (p, n) :: Y) x ↔ space (X ++ Y) x ∨ p ≤ x < p + hsize * n) as Hsp.
  { intros x. rewrite !space_app, space_cons. tauto. }
  destruct (heap_ok_alloc brk h h2 _ (X ++ Y) live p n Hok S2 Hfr) as [Hok2 Hnone]; try done.
  - apply (chain_ext h1); [done|]. rewrite app_comm_cons. apply chain_app.
    split; [by eapply chain_relink|eapply chain_changed; [exact C1|exact HapY|unfold hsize in *; lia|done]].
  - eapply apart_join; [exact HapX| |exact HapY]. unfold hsize. lia.
  - simpl. rewrite fmap_app. set_solver.
  - rewrite W2, O1; [done|unfold hsize in *; lia..].
  - apply (HQ h2 (X ++ Y) p); try done. rewrite !length_app. simpl. lia.
Qed.

(** The tail of a larger block. *)
Lemma wp_take_tail brk h X p sz n Y live V prev k (Q : Z → uheap S → Prop) :
  heap_ok brk h (X ++ (p, sz) :: Y) live → (h_base h, 0) :: X = V ++ [(prev, k)] → 1 ≤ n < sz →
  taken brk h (X ++ (p, sz) :: Y) live n Q → wp (take_block prev p n) Q h.
Proof.
  intros Hok EV Hn HQ. pose proof Hok as [Hb Hap Hr Hf _ _ _]. pose proof Hap as (HapX & _ & HapY)%apart_app.
  pose proof (apart_lt _ _ _ HapX) as Hbp. pose proof (apart_lt _ _ _ HapY) as Hpt.
  rewrite app_comm_cons, chain_app in Hr. destruct Hr as (HX & Ep & Esz & HY). simpl first in HX.
  destruct (last_header _ X V prev k p EV HapX) as (Hb1 & Hp1 & Hpin & _); [unfold hsize in *; lia|].
  unfold take_block. apply wp_bind, wp_get_size; [lia|unfold hsize in *; lia|]. rewrite Esz, (proj2 (Z.eqb_neq sz n)) by lia.
  rewrite (u32_small (sz - n)) by (unfold hsize in *; lia). cbv zeta. rewrite padd_small by (unfold hsize in *; lia).
  set (a := p + hsize * (sz - n)). assert (a = p + hsize * (sz - n)) as Ea by done.
  apply wp_bind, wp_bind, wp_set_size; [lia|unfold hsize in *; lia|]. intros h1 C1 W1 P1. pose proof C1 as [S1 [F1 O1]]. pose proof S1 as (_ & B1 & T1).
  apply wp_bind, wp_set_size; [unfold hsize in *; lia|unfold hsize in *; lia|]. intros h2 C2 W2 P2. pose proof C2 as [S2 [F2 O2]]. apply wp_ret.
  unfold set_freep, wp, mbind, M_bind, modify, mret, M_ret, obind. set (h3 := mkUheap _ _ _ _ _).
  assert (same h h3) as S3 by (eapply same_trans; [exact S1|exact S2]). assert (∀ x, word h3 x = word h2 x) as W3 by done.
  rewrite padd_small, Z.mul_1_r by (unfold hsize in *; lia).
  assert (∀ x, space (X ++ (p, sz) :: Y) x ↔ space (X ++ (p, sz - n) :: Y) x ∨ a ≤ x < a + hsize * n) as Hsp.
  { intros x. rewrite !space_app, !space_cons. unfold hsize in *. split; intros; destruct_or!; auto;
      [|right; left; lia|right; left; lia]. assert (x < a ∨ a ≤ x) as [|] by lia; [left; right; left|right]; lia. }
  assert (framed h h3 (X ++ (p, sz) :: Y) (λ _, False)) as Hfr.
  { intros x Hx1 Hx2 _. rewrite W3, O2, O1; [done|..]; intros ->; apply Hx2; unfold hsize in *; rewrite space_app, space_cons; right; left; unfold hsize; lia. }
  assert (∀ x, a ≤ x < a + hsize * n → ¬ space (X ++ (p, sz - n) :: Y) x) as Hns.
  { intros x Hx [Hx1|[Hx1|Hx1]%space_cons]%space_app; [eapply space_in in Hx1; [|exact HapX]| |eapply space_in in Hx1; [|exact HapY]]; unfold hsize in *; lia. }
  destruct (heap_ok_alloc brk h h3 _ (X ++ (p, sz - n) :: Y) live a n Hok S3 Hfr) as [Hok2 Hnone]; try done.
  - apply (chain_ext h2); [done|]. rewrite app_comm_cons. apply chain_app. simpl first. split.
    + rewrite <- B1. eapply chain_base; [exact C2|unfold hsize in *; lia|rewrite B1; exact HapX|unfold hsize in *; lia|].
      rewrite B1. eapply chain_base; [exact C1|unfold hsize in *; lia|exact HapX|lia|exact HX].
    + simpl. rewrite !O2, P1 by (unfold hsize in *; lia). split_and!; [done|done|].
      eapply chain_changed; [exact C2|exact HapY|unfold hsize in *; lia|].
      eapply chain_changed; [exact C1|exact HapY|unfold hsize in *; lia|exact HY].
  - apply apart_app. split; [done|]. split; [lia|]. eapply apart_lo; [exact HapY|unfold hsize; lia].
  - simpl. rewrite fmap_app. set_solver.
  - lia.
  - apply (HQ h3 (X ++ (p, sz - n) :: Y) a); try done. rewrite !length_app. simpl. lia.
Qed.

Lemma heap_sorted brk h F live : heap_ok brk h F live → StronglySorted below ((h_base h, 0) :: F).
Proof. intros Hok. eapply apart_sorted; [apply (ho_apart _ _ _ _ Hok)|simpl; lia]. Qed.
Lemma sorted_split X1 X2 (b c : block) Y1 Y2 : StronglySorted below (X1 ++ b :: Y1) → X1 ++ b :: Y1 = X2 ++ c :: Y2 → b.1 = c.1 → X1 = X2.
Proof.
  revert X2. induction X1 as [|d X1 IH]; intros [|d' X2] Hs E Hbc; simpl in *; [done|..].
  - injection E as <- ->. apply (sorted_app []) in Hs as [_ Hf]. apply Forall_app in Hf as [_ [Hf _]%Forall_cons]. unfold below in Hf. lia.
  - injection E as <- <-. apply (sorted_app []) in Hs as [_ Hf]. apply Forall_app in Hf as [_ [Hf _]%Forall_cons]. unfold below in Hf. lia.
  - injection E as <- E. inversion Hs; subst. f_equal. by eapply IH.
Qed.
(** The header that points to a block is the one before it. *)
Lemma pred_of brk h X p sz Y live prev :
  heap_ok brk h (X ++ (p, sz) :: Y) live → prev ∈ h_base h :: (X ++ (p, sz) :: Y).*1 → word h prev = p →
  ∃ V k, (h_base h, 0) :: X = V ++ [(prev, k)].
Proof.
  intros Hok Hin Hw. pose proof (heap_sorted _ _ _ _ Hok) as Hs. pose proof (ho_ring _ _ _ _ Hok) as Hr.
  change (h_base h :: (X ++ (p, sz) :: Y).*1) with (((h_base h, 0) :: X ++ (p, sz) :: Y).*1) in Hin.
  apply list_elem_of_fmap in Hin as ([c k] & -> & Hin). simpl in Hw. apply list_elem_of_split in Hin as (A & B & E).
  pose proof Hr as Hr'. rewrite E, chain_app in Hr'. destruct Hr' as (_ & Ec & _). rewrite Hw in Ec. clear Hw Hr. exists A, k. simpl fst.
  pose proof (apart_elem _ _ _ p sz (ho_apart _ _ _ _ Hok) ltac:(apply elem_of_app; right; by left)) as Hp.
  destruct B as [|[q m] B]; simpl in Ec; [lia|]. subst q. rewrite app_comm_cons in E, Hs.
  eapply (sorted_split _ (A ++ [(c, k)]) (p, sz) (p, m)); [exact Hs| |done]. rewrite <- app_assoc. exact E.
Qed.
Lemma wp_take brk h F p sz n live prev (Q : Z → uheap S → Prop) :
  heap_ok brk h F live → (p, sz) ∈ F → prev ∈ h_base h :: F.*1 → word h prev = p → 1 ≤ n ≤ sz →
  taken brk h F live n Q → wp (take_block prev p n) Q h.
Proof.
  intros Hok (X & Y & ->)%list_elem_of_split Hin Hw Hn HQ. destruct (pred_of _ _ _ _ _ _ _ _ Hok Hin Hw) as (V & k & EV).
  destruct (decide (n = sz)) as [->|Hne]; [eapply wp_take_exact|eapply wp_take_tail]; try done; lia.
Qed.

Section Walking.
Context `{LoopBound} (sbrk : Z → M S Z) (brk : Z) (h : uheap S) (F : list block) (live : gmap Z Z) (n : Z) (Q : Z → uheap S → Prop).
Context (Hok : heap_ok brk h F live) (Hn : 1 ≤ n) (HQ : taken brk h F live n Q).

(** The search up to [freep]: a fitting block is taken, or [morecore] is called. *)
Lemma malloc_walk V2 kf e fuel prev :
  chain h (V2 ++ [(freep h, kf)]) e → (∀ b : block, b ∈ V2 ++ [(freep h, kf)] → b ∈ (h_base h, 0) :: F) → freep h ∉ V2.*1 →
  prev ∈ h_base h :: F.*1 → word h prev = first V2 (freep h) → (length V2 ≤ fuel)%nat →
  (Forall (λ b : block, b.2 < n) (V2 ++ [(freep h, kf)]) →
    wp (r ← morecore sbrk n; if r =? 0 then mret 0 else q ← ptr r;
      match (fuel - length V2)%nat with O => nofuel | Datatypes.S fuel' => malloc_loop sbrk fuel' n r q end) Q h) →
  wp (malloc_loop sbrk fuel n prev (first V2 (freep h))) Q h.
Proof.
  assert (∀ b m, (b, m) ∈ (h_base h, 0) :: F → h_base h ≤ b ∧ b + hsize ≤ h_top h) as Hacc.
  { intros b m [[= -> ->]|Hin]%elem_of_cons; [destruct (ho_base _ _ _ _ Hok); lia|]. eapply apart_elem in Hin; [|apply (ho_apart _ _ _ _ Hok)]. unfold hsize in *. lia. }
  assert (∀ b m, (b, m) ∈ (h_base h, 0) :: F → n ≤ m → (b, m) ∈ F) as HinF by (intros b m [[= -> ->]|Hin]%elem_of_cons Hle; [lia|done]).
  revert fuel prev. induction V2 as [|[b m] V2 IH]; intros fuel prev Hc Hsub Hnf Hp Hw Hf Hend.
  - simpl in *. destruct Hc as (_ & Ek & _). pose proof (Hsub _ ltac:(by left)) as Hin. destruct (Hacc _ _ Hin) as [H1 H2].
    destruct fuel; cbn [malloc_loop]; (apply wp_bind, wp_get_size; [done|done|]); rewrite Ek, Z.geb_leb.
    all: destruct (Z.leb_spec n kf) as [Hle|Hgt]; [by apply (wp_take brk h F _ kf n live); auto|].
    all: apply wp_bind; unfold wp at 1, gets; rewrite Z.eqb_refl; cbn [andb]; apply Hend; by repeat constructor.
  - destruct fuel as [|fuel]; simpl in Hf; [lia|]. simpl in Hc, Hsub, Hnf, Hw |- *. destruct Hc as (Eb & Em & Hc).
    pose proof (Hsub _ ltac:(by left)) as Hin. destruct (Hacc _ _ Hin) as [H1 H2]. apply wp_bind, wp_get_size; [done|done|].
    rewrite Em, Z.geb_leb. destruct (Z.leb_spec n m) as [Hle|Hgt]; [by apply (wp_take brk h F _ m n live); auto|].
    apply wp_bind. unfold wp at 1, gets. rewrite (proj2 (Z.eqb_neq b (freep h))) by set_solver. cbn [andb].
    apply wp_bind, wp_ret, wp_bind, wp_get_ptr; [done|done|]. rewrite first_app in Eb. rewrite Eb.
    apply IH; [done|set_solver|set_solver| |done|lia|].
    + change (h_base h :: F.*1) with (((h_base h, 0) :: F).*1). apply list_elem_of_fmap. by exists (b, m).
    + intros HF. apply Hend. by constructor.
Qed.

(** The search from the start. *)
Lemma malloc_search fuel :
  (length F ≤ fuel)%nat →
  (Forall (λ b : block, b.2 < n) F →
    wp (r ← morecore sbrk n; if r =? 0 then mret 0 else q ← ptr r;
      match (fuel - length F)%nat with O => nofuel | Datatypes.S fuel' => malloc_loop sbrk fuel' n r q end) Q h) →
  wp (q ← ptr (freep h); malloc_loop sbrk fuel n (freep h) q) Q h.
Proof.
  intros Hf Hend. pose proof (ho_freep _ _ _ _ Hok) as Hin. pose proof (heap_sorted _ _ _ _ Hok) as Hs. pose proof (ho_ring _ _ _ _ Hok) as Hr.
  change (h_base h :: F.*1) with (((h_base h, 0) :: F).*1) in Hin. apply list_elem_of_fmap in Hin as ([f kf] & Ef & Hin). simpl in Ef. subst f.
  assert (h_base h ≤ freep h ∧ freep h + hsize ≤ h_top h) as [Hb1 Ht1].
  { apply elem_of_cons in Hin as [[= -> ->]|Hin]; [destruct (ho_base _ _ _ _ Hok); lia|].
    eapply apart_elem in Hin; [|apply (ho_apart _ _ _ _ Hok)]. unfold hsize in *. lia. }
  apply list_elem_of_split in Hin as (A & C & E).
  pose proof Hr as Hr'. rewrite E, chain_app in Hr'. destruct Hr' as (HA & Ef & Ek & HC). simpl first in HA. rewrite E in Hs. apply sorted_app in Hs as [HsA HsC].
  assert (first A (freep h) = h_base h) as EA by (destruct A; simpl in E; by injection E as <- _).
  assert (length (C ++ A) = length F) as El by (apply (f_equal length) in E; rewrite length_app in *; simpl in E; lia).
  assert (∀ b : block, b ∈ (C ++ A) ++ [(freep h, kf)] ↔ b ∈ (h_base h, 0) :: F) as Hel by (intros b; rewrite E; set_solver).
  assert (first (C ++ A) (freep h) = word h (freep h)) as Efirst by (rewrite Ef, <- EA; by destruct C as [|[c l] C]).
  apply wp_bind, wp_get_ptr; [done|done|]. rewrite <- Efirst.
  apply (malloc_walk (C ++ A) kf (word h (freep h))); [|intros b; apply Hel| |apply (ho_freep _ _ _ _ Hok)|done|lia|].
  - rewrite !chain_app. simpl first. split_and!; try done. by rewrite EA.
  - intros ([b m] & Eb & Hb)%list_elem_of_fmap. simpl in Eb. rewrite Forall_forall in HsA, HsC.
    apply elem_of_app in Hb as [Hb|Hb]; [specialize (HsC _ Hb)|specialize (HsA _ Hb)]; unfold below in *; simpl in *; lia.
  - rewrite El. intros HF. apply Hend. rewrite Forall_forall in HF |- *. intros b Hb. apply HF, Hel. by right.
Qed.
End Walking.
End Invariant.

(** ** The allocator as a whole *)

(** What [sbrk] promises: more memory at the old end, or -1. *)
Class SbrkLaws {S : Type} (sbrk : Z → M S Z) (brk : S → Z) : Prop :=
  sbrk_law : ∀ s n, 0 < n < 2 ^ 31 →
    wp (sbrk n) (λ r s', (r = -1 ∧ brk s' = brk s) ∨ (r = brk s ∧ brk s' = brk s + n ∧ brk s' ≤ 2 ^ 31)) s.

Section Allocator.
Context {S : Type} (sbrk : Z → M S Z) (brk : S → Z) `{!SbrkLaws sbrk brk} `{LoopBound}.
Implicit Types (h : uheap S) (F : list block) (live : gmap Z Z) (n m : Z).

Lemma heap_ok_ext b b' h h' F live : heap_ok b h F live → b ≤ b' ≤ 2 ^ 31 → h_base h' = h_base h → h_top h' = h_top h → freep h' = freep h →
  (∀ x, word h' x = word h x) → heap_ok b' h' F live.
Proof.
  intros [Hb Hap Hr Hf Hl Hd Hdd] Hbb Eb Et Ef Ew. split; rewrite ?Eb, ?Et, ?Ef; try done; [lia|by eapply chain_ext|].
  intros a n Ha. rewrite Ew. by apply Hl.
Qed.
Lemma wp_grow n h (Q : Z → uheap S → Prop) :
  0 < n < 2 ^ 31 → 0 ≤ brk (h_os h) ≤ 2 ^ 31 →
  (∀ s', brk s' = brk (h_os h) → Q (u32 (-1)) (mkUheap s' (h_base h) (h_top h) (freep h) (h_mem h))) →
  (∀ s', brk s' = brk (h_os h) + n → brk s' ≤ 2 ^ 31 →
     Q (brk (h_os h)) (mkUheap s' (h_base h) (brk s') (freep h) (h_mem h))) →
  wp (grow sbrk n) Q h.
Proof.
  intros Hn Hb Hfail Hok. unfold wp, grow. rewrite s32_small by lia. pose proof (sbrk_law (h_os h) n Hn) as Hs. unfold wp in Hs.
  destruct (sbrk n (h_os h)) as [r s'|m|m|s' K|]; try done. destruct Hs as [[-> E]|(-> & E & Hle)].
  - rewrite Z.eqb_refl. by apply Hfail.
  - rewrite u32_small by lia. rewrite (proj2 (Z.eqb_neq _ _)) by (change (u32 (-1)) with 4294967295; lia). rewrite <- E. by apply Hok.
Qed.

Lemma wp_morecore n h F live (Q : Z → uheap S → Prop) :
  heap_ok (brk (h_os h)) h F live → 1 ≤ n → hsize * n < 2 ^ 31 → (length F ≤ loop_bound)%nat →
  (∀ h', heap_ok (brk (h_os h')) h' F live → h_top h' = h_top h → (∀ x, word h' x = word h x) → Q 0 h') →
  (∀ h' F' lo m, n ≤ m → h_top h ≤ lo → h_base h' = h_base h → h_top h' = lo + hsize * m → heap_ok (brk (h_os h')) h' F' live →
     framed h h' F (λ x, lo ≤ x) → (∀ x, space F' x ↔ space F x ∨ lo ≤ x < lo + hsize * m) →
     (length F' ≤ Datatypes.S (length F))%nat → Q (freep h') h') →
  wp (morecore sbrk n) Q h.
Proof.
  intros Hok Hn H31 Hlb Hfail Hsucc. unfold morecore. set (m := if n <? 4096 then 4096 else n).
  assert (n ≤ m ∧ 1 ≤ m ∧ hsize * m < 2 ^ 31) as (Hnm & Hm & Hm31) by (unfold m, hsize in *; destruct (Z.ltb_spec n 4096); lia).
  replace (m * hsize) with (hsize * m) by lia. rewrite (u32_small (hsize * m)) by (unfold hsize in *; lia). destruct (ho_base _ _ _ _ Hok) as (B1 & B2 & B3 & B4).
  unfold hsize in B2. apply wp_bind, wp_grow; [unfold hsize in *; lia|lia| |].
  - intros s' E. rewrite Z.eqb_refl. apply wp_ret, Hfail; [|done|done]. eapply heap_ok_ext; [exact Hok|simpl; lia|done..].
  - intros s' E Hle. set (lo := brk (h_os h)) in *. rewrite (proj2 (Z.eqb_neq _ _)) by (change (u32 (-1)) with 4294967295; lia).
    rewrite E. apply wp_bind, wp_set_size; simpl; [lia|unfold hsize in *; lia|]. intros h1 [(E1 & B & T) [F1 O1]] W1 _. simpl in *.
    assert (framed h h1 F (λ x, lo ≤ x)) as Hfr by (intros x Hx1 Hx2 Hx3; rewrite O1; [done|lia|lia]).
    assert (heap_ok (brk s') h1 F live) as Hok1.
    { pose proof (ho_apart _ _ _ _ Hok) as Hap. eapply (heap_ok_free _ h); [|done|rewrite T; unfold hsize in *; lia|lia|exact Hfr| | | |by left|].
      - eapply heap_ok_ext; [exact Hok|unfold hsize in *; lia|done..].
      - eapply chain_frame; [|exact (ho_ring _ _ _ _ Hok)]. constructor; simpl; [rewrite !O1 by (unfold hsize in *; lia); done|].
        apply Forall_forall. intros [b k] Hin. eapply apart_elem in Hin; [|exact Hap]. unfold hsize in *. simpl. rewrite !O1 by lia. done.
      - eapply apart_hi; [exact Hap|rewrite T; unfold hsize in *; lia].
      - rewrite F1. apply (ho_freep _ _ _ _ Hok).
      - intros b k Hb x Hx. destruct (ho_live _ _ _ _ Hok b k Hb) as (_ & _ & ? & _). lia. }
    apply wp_bind. rewrite padd_small by (unfold hsize in *; lia). rewrite Z.mul_1_r.
    pose proof (ho_apart _ _ _ _ Hok) as Hap. apply (wp_ufree (brk s') h1 F live lo m); [exact Hok1| |done|].
    { split; [rewrite B, T; unfold hsize in *; lia|done| |].
      - apply Forall_forall. intros [b k] Hin. eapply apart_elem in Hin; [|exact Hap]. unfold disjoint_blocks. simpl. lia.
      - intros b k Hb. destruct (ho_live _ _ _ _ Hok b k Hb) as (_ & _ & ? & _). unfold disjoint_blocks. simpl. lia. }
    intros h2 F2 (E2 & B2' & T2) Hok2 Hfr2 Hsp2 Hl2. unfold wp, gets. apply (Hsucc h2 F2 lo m); try done; [congruence|congruence|by rewrite E2, E1|].
    intros x Hx1 Hx2 Hx3. rewrite Hfr2; [by apply Hfr|by rewrite B|done|lia].
Qed.

(** The heap before and after the first call of [malloc]. *)
Definition heap_inv h F live : Prop :=
  heap_ok (brk (h_os h)) h F live ∨
  freep h = 0 ∧ F = [] ∧ live = ∅ ∧ 0 < h_base h ∧ h_base h + hsize ≤ h_top h ≤ brk (h_os h) ∧ brk (h_os h) ≤ 2 ^ 31.
(** The contents of the blocks handed out. *)
Definition kept h h' live : Prop := ∀ b m x, live !! b = Some m → b ≤ x < b + hsize * m → word h' x = word h x.

Lemma framed_kept h h' F live P : heap_ok (brk (h_os h)) h F live → framed h h' F P →
  (∀ b m x, live !! b = Some m → b ≤ x < b + hsize * m → ¬ P x) → kept h h' live.
Proof.
  intros Hok Hfr HP b m x Hb Hx. destruct (ho_live _ _ _ _ Hok b m Hb) as (H1 & H2 & _). apply Hfr; [lia| |by eapply HP].
  by apply (proj1 (disjoint_space b m F H2 (apart_sizes _ _ _ (ho_apart _ _ _ _ Hok))) (ho_free _ _ _ _ Hok b m Hb)).
Qed.
Lemma kept_trans h1 h2 h3 live : kept h1 h2 live → kept h2 h3 live → kept h1 h3 live.
Proof. intros H1 H2 b m x Hb Hx. by rewrite (H2 b m), (H1 b m). Qed.
Lemma freep_pos h F live : heap_ok (brk (h_os h)) h F live → freep h ≠ 0.
Proof.
  intros Hok. destruct (ho_base _ _ _ _ Hok) as (Hb & _). pose proof (ho_freep _ _ _ _ Hok) as [->|Hin]%elem_of_cons; [lia|].
  apply list_elem_of_fmap in Hin as ([b m] & -> & Hin). eapply apart_elem in Hin; [|apply (ho_apart _ _ _ _ Hok)]. simpl. lia.
Qed.

(** What [malloc] of [n] units does to a heap. *)
Definition allocates h F live n (r : Z) h' : Prop :=
  (r = 0 ∧ heap_ok (brk (h_os h')) h' F live ∧ kept h h' live) ∨
  ∃ a F' lo, r = a + hsize ∧ live !! a = None ∧ heap_ok (brk (h_os h')) h' F' (<[a := n]> live) ∧ kept h h' live ∧
    h_top h ≤ lo ∧ (∀ x, space F' x ∨ a ≤ x < a + hsize * n ↔ space F x ∨ lo ≤ x < h_top h').

Lemma wp_malloc_ok h F live n (Q : Z → uheap S → Prop) :
  heap_ok (brk (h_os h)) h F live → 1 ≤ n → hsize * n < 2 ^ 31 → (2 * length F + 2 ≤ loop_bound)%nat →
  (∀ r h', allocates h F live n r h' → Q r h') → wp (q ← ptr (freep h); malloc_loop sbrk loop_bound n (freep h) q) Q h.
Proof.
  intros Hok Hn H31 Hlb HQ. eapply malloc_search; [exact Hok|done| |lia|].
  - intros h' F' a (E & B & T) Hok' Hnone Hfr Hsp _. apply HQ. right. exists a, F', (h_top h').
    rewrite E. split_and!; [done|done|done| |lia|].
    + eapply framed_kept; [exact Hok|exact Hfr|]. intros b m x _ _ [].
    + intros x. rewrite Hsp. split; [tauto|]. intros [?|?]; [done|lia].
  - intros _. apply wp_bind. eapply wp_morecore; [exact Hok|done|done|lia| |].
    + intros h' Hok' _ Hw. apply wp_ret, HQ. left. split; [done|]. split; [done|]. intros b m x _ _. apply Hw.
    + intros h1 F1 lo m Hnm Hlo B1 T1 Hok1 Hfr1 Hsp1 Hl1.
      rewrite (proj2 (Z.eqb_neq _ _) (freep_pos _ _ _ Hok1)). destruct (loop_bound - length F)%nat as [|fuel] eqn:Efuel; [lia|].
      eapply malloc_search; [exact Hok1|done| |lia|].
      * intros h2 F2 a (E & B & T) Hok2 Hnone Hfr2 Hsp2 _. apply HQ. right. exists a, F2, lo.
        rewrite E. split_and!; [done|done|done| |done|].
        -- eapply kept_trans; [eapply framed_kept; [exact Hok|exact Hfr1|]|eapply framed_kept; [exact Hok1|exact Hfr2|intros b l x _ _ []]].
           intros b l x Hb Hx. destruct (ho_live _ _ _ _ Hok b l Hb) as (_ & _ & ? & _). lia.
        -- intros x. rewrite <- Hsp2, Hsp1, T, T1. done.
      * intros HF1. exfalso. destruct (apart_row _ _ _ lo m (ho_apart _ _ _ _ Hok1)) as (b & k & Hin & H1 & H2); [lia|intros x Hx; apply Hsp1; by right|].
        rewrite Forall_forall in HF1. specialize (HF1 _ Hin). simpl in HF1. unfold hsize in *. lia.
Qed.
Lemma nunits_small nbytes : 0 ≤ nbytes ≤ 2 ^ 31 - 16 →
  1 ≤ nunits nbytes ∧ hsize * nunits nbytes < 2 ^ 31 ∧ nbytes ≤ hsize * (nunits nbytes - 1) < nbytes + hsize.
Proof.
  intros Hn. unfold nunits, hsize. rewrite (u32_small (nbytes + 8 - 1)) by lia. rewrite u32_small by (Z.div_mod_to_equations; lia).
  Z.div_mod_to_equations; lia.
Qed.
(** Without the bound: a size that wraps gets an empty block, and a negative
    number of bytes is asked of the system. *)
Lemma nunits_wraps : nunits (2 ^ 32 - 1) = 1 ∧ s32 (u32 (nunits (2 ^ 31) * hsize)) < 0.
Proof. by split. Qed.
End Allocator.


(** A system with one megabyte, and a program that has not called [malloc] yet. *)
Definition demo_sbrk : Z → M Z Z := λ n s, if s + n <=? 0x100000 then Ok s (s + n) else Ok (-1) s.
#[local] Instance demo_sbrk_laws : SbrkLaws demo_sbrk id.
Proof. intros s n Hn. unfold wp, demo_sbrk. destruct (Z.leb_spec (s + n) 0x100000); [right|left]; simpl; lia. Qed.
Definition demo_heap0 : uheap Z := mkUheap 0x3000 0x1000 0x3000 0 ∅.

(** C12. [free] of a block handed out by [malloc], and not freed since: it ends, the block's bytes
    are free again and all that was free still is, in blocks that are in
    address order and fully coalesced, no block overlaps another, and the
    contents of the other blocks handed out are untouched. *)
Theorem free_returns {S : Type} `{LoopBound} (brk : S → Z) (h : uheap S) (F : list block) (live : gmap Z Z) (a n : Z) :
  heap_ok (brk (h_os h)) h F live → live !! a = Some n → (length F ≤ loop_bound)%nat →
  wp (ufree (a + hsize)) (λ _ h', ∃ F', heap_ok (brk (h_os h')) h' F' (delete a live) ∧
    (∀ x, space F' x ↔ space F x ∨ a ≤ x < a + hsize * n) ∧ kept h h' (delete a live)) h.
Proof.
  intros Hok Ha Hlb. destruct (ho_live _ _ _ _ Hok a n Ha) as (H1 & H2 & H3 & H4).
  assert (∀ b m, delete a live !! b = Some m → disjoint_blocks (a, n) (b, m)) as Hd.
  { intros b m [Hne Hb]%lookup_delete_Some. by apply (ho_disj _ _ _ _ Hok). }
  assert (heap_ok (brk (h_os h)) h F (delete a live)) as Hok'.
  { destruct Hok as [Hb Hap Hr Hf Hl Hdf Hdd]. split; try done; [by apply map_Forall_delete|by apply map_Forall_delete|].
    intros b m c l [? ?]%lookup_delete_Some [? ?]%lookup_delete_Some. by apply Hdd. }
  eapply wp_ufree; [exact Hok'|split; [done|done|by apply (ho_free _ _ _ _ Hok)|exact Hd]|done|].
  intros h' F' (E & B & T) Hok2 Hfr Hsp _. exists F'. rewrite E. split_and!; [done|done|].
  eapply framed_kept; [exact Hok'|exact Hfr|]. intros b m x Hb Hx Hxa. specialize (Hd b m Hb). unfold disjoint_blocks in Hd. simpl in Hd. lia.
Qed.

(** The heap after that call. *)
Definition demo_heap1 : uheap Z := mkUheap 0xb000 0x1000 0xb000 0x1000
  (list_to_map [(0x1000, 0x3000); (0x1004, 0); (0x3000, 0x1000); (0x3004, 4093); (0xafec, 3)]).
Lemma demo_heap1_ok : heap_ok 0xb000 demo_heap1 [(0x3000, 4093)] {[0xafe8 := 3]}.
Proof.
  split; unfold hsize; simpl.
  - lia.
  - unfold hsize. lia.
  - split_and!; reflexivity.
  - by left.
  - apply map_Forall_singleton. split_and!; [lia|lia|lia|reflexivity].
  - apply map_Forall_singleton, Forall_singleton. right. unfold hsize. simpl. lia.
  - intros a n b m [<- <-]%lookup_singleton_Some [<- <-]%lookup_singleton_Some. done.
Qed.
Lemma free_returns_witness :
  wp (malloc (H := 2%nat) demo_sbrk 10) (λ r h, r = 0xaff0 ∧ h = demo_heap1) demo_heap0 ∧
  wp (ufree (H := 2%nat) 0xaff0) (λ _ h', ∃ F', heap_ok (h_os h') h' F' ∅ ∧ ∀ x, space F' x ↔ space [(0x3000, 4093)] x ∨ 0xafe8 ≤ x < 0xb000) demo_heap1.
Proof.
  split; [vm_compute; split; reflexivity|].
  eapply wp_mono; [apply (free_returns (H := 2%nat) id demo_heap1 [(0x3000, 4093)] {[0xafe8 := 3]} 0xafe8 3 demo_heap1_ok)|].
  - reflexivity.
  - vm_compute. lia.
  - intros [] h' (F' & Hok & Hsp & _). exists F'. split; [|exact Hsp]. rewrite delete_singleton_eq in Hok. exact Hok.
Defined.
