(* ===== verification/Utils.v ===== *)
(** * Utils: the small user programs

    cat.c, wc.c, echo.c, mycat2.c, ls.c, and the commands that wrap a system
    call.  [argv] is the list of arguments, the program's name first.  Programs
    end in [exit]; [mycat2], which returns from [main], does not. *)

From S2P Require Import Prelude State Console Strings Printf Inode Proc Sysfile User.

Section Filters.
Context {S : Type} `{Sys.Io S} `{LoopBound}.
Import Sys.

(** [printf(fd, "...%s...\n", ...)]: the format ends the line. *)
Definition printl (fd : Z) (fmt : string) (ap : list carg) : M S unit := printf fd (str fmt ++ [NL]) ap.

(** ** cat.c *)

(** The loop of [cat]: the last result of [read]. *)
Fixpoint cat_loop (fuel : nat) (fd : Z) : M S Z :=
  r ← read fd 512;
  if r.2 >? 0 then
    w ← write 1 (take (Z.to_nat r.2) r.1);
    if negb (w =? r.2) then printl 1 "cat: write error" [] ;; exit else
    match fuel with O => nofuel | Datatypes.S fuel' => cat_loop fuel' fd end
  else mret r.2.
Definition cat (fd : Z) : M S unit :=
  n ← cat_loop loop_bound fd;
  if n <? 0 then printl 1 "cat: read error" [] ;; exit else mret tt.

(** ** wc.c *)

Record counts := mkCounts { wc_l : Z; wc_w : Z; wc_c : Z; wc_inword : bool }.

Definition wc_space (c : Z) : bool := in_set [ch " "; 13; 9; NL; 11] c.
(** The body of the inner loop on one character; the counters are [int]s. *)
Definition wc_step (k : counts) (b : Z) : counts :=
  let c := s32 (wc_c k + 1) in
  let l := if b =? NL then s32 (wc_l k + 1) else wc_l k in
  if wc_space b then mkCounts l (wc_w k) c false
  else if wc_inword k then mkCounts l (wc_w k) c true
  else mkCounts l (s32 (wc_w k + 1)) c true.
(** The counters and the last result of [read]. *)
Fixpoint wc_loop (fuel : nat) (fd : Z) (k : counts) : M S (counts * Z) :=
  r ← read fd 512;
  if r.2 >? 0 then
    let k := fold_left wc_step (take (Z.to_nat r.2) r.1) k in
    match fuel with O => nofuel | Datatypes.S fuel' => wc_loop fuel' fd k end
  else mret (k, r.2).
Definition wc (fd : Z) (name : list Z) : M S unit :=
  r ← wc_loop loop_bound fd (mkCounts 0 0 0 false);
  if r.2 <? 0 then printl 1 "wc: read error" [] ;; exit else
  printl 1 "%d %d %d %s" [CInt (wc_l r.1); CInt (wc_w r.1); CInt (wc_c r.1); CStr (Some name)].

(** ** echo.c *)

Fixpoint echo_loop (args : list (list Z)) : M S unit :=
  match args with
  | [] => mret tt
  | a :: args' =>
      printf 1 (str "%s%s") [CStr (Some a); CStr (Some (match args' with [] => [NL] | _ => str " " end))] ;;
      echo_loop args'
  end.

(** ** mycat2.c *)

(** The [do] loop: the last status.  [buffer] keeps the last byte read. *)
Fixpoint mycat2_loop (fuel : nat) (fd : Z) (buffer : Z) : M S Z :=
  r ← read fd 1;
  let buffer := default buffer (head r.1) in
  _ ← write 1 [buffer];
  if 0 <? r.2 then match fuel with O => nofuel | Datatypes.S fuel' => mycat2_loop fuel' fd buffer end
  else mret r.2.
End Filters.

(** ** Main programs *)

Section Programs.
Context {S : Type} `{Sys.Os S} `{LoopBound}.
Import Sys.

(** The loop over the files in [main] of cat.c and wc.c. *)
Fixpoint each_file (who : string) (f : Z → list Z → M S unit) (files : list (list Z)) : M S unit :=
  match files with
  | [] => mret tt
  | name :: files' =>
      fd ← open name 0;
      if fd <? 0 then printl 1 (who ++ ": cannot open %s") [CStr (Some name)] ;; exit else
      f fd name ;;
      _ ← close fd;
      each_file who f files'
  end.
Definition cat_main (argv : list (list Z)) : M S unit :=
  if Nat.leb (length argv) 1 then cat 0 ;; exit else
  each_file "cat" (λ fd _, cat fd) (drop 1 argv) ;; exit.

Definition wc_main (argv : list (list Z)) : M S unit :=
  if Nat.leb (length argv) 1 then wc 0 [] ;; exit else
  each_file "wc" wc (drop 1 argv) ;; exit.

Definition echo_main (argv : list (list Z)) : M S unit := echo_loop (drop 1 argv) ;; exit.

Fixpoint mycat2_files (paths : list (list Z)) : M S unit :=
  match paths with
  | [] => mret tt
  | path :: paths' =>
      fd ← open path 0;
      (if 0 >? fd then _ ← write 2 (str "Error Opening to file:" ++ [NL]); mret tt else
       status ← mycat2_loop loop_bound fd 0;
       when (0 >? status) (_ ← write 2 (str "Error: Writing to file:" ++ [NL; 0]); mret tt)) ;;
      _ ← close fd;
      mycat2_files paths'
  end.
Definition mycat2_main (argv : list (list Z)) : M S Z :=
  (if Nat.leb (length argv) 1 then _ ← write 2 (str "Usage: <path>" ++ [NL]); mret tt
   else mycat2_files (drop 1 argv)) ;;
  mret 0.

(** ** ls.c *)

(** One more than the index where the scan for the last slash stops, from [p - 1] down. *)
Fixpoint last_slash (path : list Z) (p : nat) : nat :=
  match p with
  | O => O
  | Datatypes.S q => if default 0 (path !! q) =? ch "/" then p else last_slash path q
  end.
(** [path] ends in its NUL for the scan. *)
Definition fmtname (path : list Z) : list Z :=
  let p := drop (last_slash (path ++ [0]) (length path + 1)) path in
  if Nat.leb DIRSIZ (length p) then p else p ++ replicate (DIRSIZ - length p) (ch " ").

Definition ls_line (path : list Z) (st : stat) : M S unit :=
  printl 1 "%s %d %d %d" [CStr (Some (fmtname path)); CInt (st_type st); CInt (st_ino st); CInt (st_size st)].
(** The loop over the directory's entries; [path] ends in a slash. *)
Fixpoint ls_loop (fuel : nat) (fd : Z) (path : list Z) : M S unit :=
  r ← read fd 16;
  if negb (r.2 =? 16) then mret tt else
  (if get16 0 r.1 =? 0 then mret tt else
   let buf := path ++ upto0 (slice 2 DIRSIZ r.1) in
   o ← ulib_stat buf;
   match o with
   | None => printl 1 "ls: cannot stat %s" [CStr (Some buf)]
   | Some st => ls_line buf st
   end) ;;
  match fuel with O => nofuel | Datatypes.S fuel' => ls_loop fuel' fd path end.
Definition ls (path : list Z) : M S unit :=
  fd ← open path 0;
  if fd <? 0 then printl 2 "ls: cannot open %s" [CStr (Some path)] else
  o ← fstat fd;
  match o with
  | None => printl 2 "ls: cannot stat %s" [CStr (Some path)] ;; _ ← close fd; mret tt
  | Some st =>
      (if st_type st =? T_FILE then ls_line path st
       else if st_type st =? T_DIR then
         if Nat.ltb 512 (length path + 1 + DIRSIZ + 1) then printl 1 "ls: path too long" []
         else ls_loop loop_bound fd (path ++ str "/")
       else mret tt) ;;
      _ ← close fd; mret tt
  end.
Definition ls_main (argv : list (list Z)) : M S unit :=
  if Nat.ltb (length argv) 2 then ls (str ".") ;; exit else
  forM (drop 1 argv) ls ;; exit.

(** ** Wrappers of one system call *)

Definition ln_main (argv : list (list Z)) : M S unit :=
  match argv with
  | [_; old; new] =>
      r ← link old new;
      when (r <? 0) (printl 2 "link %s %s: failed" [CStr (Some old); CStr (Some new)]) ;;
      exit
  | _ => printl 2 "Usage: ln old new" [] ;; exit
  end.

(** The loop of mkdir.c and rm.c: it stops at the first failure. *)
Fixpoint until_failure (f : list Z → M S Z) (msg : string) (files : list (list Z)) : M S unit :=
  match files with
  | [] => mret tt
  | name :: files' =>
      r ← f name;
      if r <? 0 then printl 2 msg [CStr (Some name)] else until_failure f msg files'
  end.
Definition mkdir_main (argv : list (list Z)) : M S unit :=
  if Nat.ltb (length argv) 2 then printl 2 "Usage: mkdir files..." [] ;; exit else
  until_failure mkdir "mkdir: %s failed to create" (drop 1 argv) ;; exit.
Definition rm_main (argv : list (list Z)) : M S unit :=
  if Nat.ltb (length argv) 2 then printl 2 "Usage: rm files..." [] ;; exit else
  until_failure unlink "rm: %s failed to delete" (drop 1 argv) ;; exit.

Definition user_atoi (s : list Z) : M S Z := deref (atoi (s ++ [0])).
Definition kill_main (argv : list (list Z)) : M S unit :=
  if Nat.ltb (length argv) 2 then printl 2 "usage: kill pid..." [] ;; exit else
  forM (drop 1 argv) (λ a, pid ← user_atoi a; _ ← kill pid; mret tt) ;; exit.

Definition nice_main (argv : list (list Z)) : M S unit :=
  match argv with
  | [_; a1; a2] =>
      pid ← user_atoi a1;
      priority ← user_atoi a2;
      oldPriority ← nice pid priority;
      printl 1 "Old priority: %d. New priority: %d" [CInt oldPriority; CInt priority]
  | _ => printl 1 "Usage: nice pid priority" []
  end ;;
  exit.

Definition ps_states (s : procstate) : list Z :=
  str match s with
      | UNUSED => "unused" | EMBRYO => "embryo" | SLEEPING => "sleep " | RUNNABLE => "ready "
      | RUNNING => "run   " | ZOMBIE => "zombie"
      end.
Definition ps_main : M S unit :=
  l ← ps 1024;
  forM l (λ e, printl 1 "%d: %s %d %s"
    [CInt (pi_pid e); CStr (Some (ps_states (pi_state e))); CInt (pi_cpuPercent e); CStr (Some (upto0 (pi_name e)))]) ;;
  exit.

Definition shutdown_main : M S unit := _ ← shutdown; exit.
Definition zombie_main : M S unit :=
  pid ← fork;
  when (pid >? 0) (_ ← sleep 5; mret tt) ;;
  exit.

(** ** init.c *)

(** The loop that reaps orphans until the shell ends. *)
Fixpoint init_wait (fuel : nat) (pid : Z) : M S unit :=
  wpid ← wait;
  if (wpid >=? 0) && negb (wpid =? pid) then
    printl 1 "zombie!" [] ;;
    match fuel with O => nofuel | Datatypes.S fuel' => init_wait fuel' pid end
  else mret tt.
Fixpoint init_loop (fuel : nat) : M S unit :=
  printl 1 "init: starting sh" [] ;;
  pid ← fork;
  if pid <? 0 then printl 1 "init: fork failed" [] ;; exit else
  if pid =? 0 then _ ← exec (str "sh") [str "sh"]; printl 1 "init: exec sh failed" [] ;; exit else
  init_wait loop_bound pid ;;
  match fuel with O => nofuel | Datatypes.S fuel' => init_loop fuel' end.
(** Open a device file, made first if it is not there; [again]: opened afterwards. *)
Definition init_dev (name : string) (mode major : Z) (again : bool) : M S unit :=
  fd ← open (str name) mode;
  when (fd <? 0) (_ ← mknod (str name) major 1; when again (_ ← open (str name) mode; mret tt)).
Definition init_main : M S unit :=
  init_dev "console" O_RDWR 1 true ;;
  _ ← dup 0;
  _ ← dup 0;
  _ ← mkdir (str "dev");
  init_dev "dev/hello" O_RDONLY 7 false ;;
  init_dev "dev/zero" O_RDONLY 2 true ;;
  init_dev "dev/null" O_WRONLY 3 true ;;
  init_dev "dev/ticks" O_RDONLY 4 true ;;
  init_loop loop_bound.
End Programs.

(** ** What they print *)

(** Lines and words of a text: a word starts where a character that is not
    white space follows the beginning or white space. *)
Definition lines (bs : list Z) : Z := Z.of_nat (count_occ Z.eq_dec bs NL).
Fixpoint words (inword : bool) (bs : list Z) : Z :=
  match bs with
  | [] => 0
  | b :: bs' => (if negb inword && negb (wc_space b) then 1 else 0) + words (negb (wc_space b)) bs'
  end.

Lemma last_any {A} (b c x : A) l : List.last (x :: l) b = List.last (x :: l) c.
Proof. revert x. induction l as [|y l IH]; intros x; [done|]. exact (IH y). Qed.

Section Laws.
Context {S : Type} `{Sys.Io S} `{LoopBound} (fd : Z) (cap : nat) (I : list Z → list Z → S → Prop) `{!Streams fd cap I}.
Implicit Types (inp out : list Z) (s : S).

Lemma wp_cat_loop fuel inp out s (Q : Z → S → Prop) :
  I inp out s → (length out + length inp ≤ cap)%nat → (length inp ≤ fuel)%nat →
  (∀ s', I [] (out ++ inp) s' → Q 0 s') → wp (cat_loop fuel fd) Q s.
Proof.
  revert inp out s. induction fuel as [|fuel IH]; intros inp out s Hi Hc Hf HQ; simpl; apply wp_bind.
  all: eapply wp_mono; [apply (stream_read inp out s 512 Hi); lia|]; intros [bs r] s' (rest & -> & Hr & Hn & He & Hi');
    simpl in *; subst r; rewrite Z.gtb_ltb; destruct (Z.ltb_spec 0 (Z.of_nat (length bs))); rewrite length_app in *.
  1,3: apply wp_bind; rewrite Nat2Z.id, firstn_all; eapply wp_mono; [apply (stream_write rest out s' bs Hi'); lia|].
  1,2: intros w s2 [-> Hi2]; rewrite Z.eqb_refl; cbn [negb].
  - lia.
  - apply (IH rest (out ++ bs)); [done|rewrite length_app; lia|lia|]. intros s3 H3. apply HQ. by rewrite app_assoc.
  - destruct bs; [|simpl in *; lia]. apply wp_ret. simpl in *. specialize (He eq_refl) as ->. apply HQ. by rewrite app_nil_r.
  - destruct bs; [|simpl in *; lia]. apply wp_ret. simpl in *. specialize (He eq_refl) as ->. apply HQ. by rewrite app_nil_r.
Qed.

Lemma wp_wc_loop fuel inp out s k (Q : counts * Z → S → Prop) :
  I inp out s → (length inp ≤ fuel)%nat → (∀ s', I [] out s' → Q (fold_left wc_step inp k, 0) s') → wp (wc_loop fuel fd k) Q s.
Proof.
  revert inp s k. induction fuel as [|fuel IH]; intros inp s k Hi Hf HQ; simpl; apply wp_bind.
  all: eapply wp_mono; [apply (stream_read inp out s 512 Hi); lia|]; intros [bs r] s' (rest & -> & Hr & Hn & He & Hi');
    simpl in *; subst r; rewrite Z.gtb_ltb; destruct (Z.ltb_spec 0 (Z.of_nat (length bs))); rewrite length_app in *.
  - lia.
  - destruct bs; [|simpl in *; lia]. simpl in *. specialize (He eq_refl) as ->. by apply wp_ret, HQ.
  - rewrite Nat2Z.id, firstn_all. apply (IH rest); [done|lia|]. intros s3 H3. rewrite <- fold_left_app. by apply HQ.
  - destruct bs; [|simpl in *; lia]. simpl in *. specialize (He eq_refl) as ->. by apply wp_ret, HQ.
Qed.

Lemma wp_mycat2_loop fuel inp out s b (Q : Z → S → Prop) :
  I inp out s → (length out + length inp + 1 ≤ cap)%nat → (length inp ≤ fuel)%nat →
  (∀ s', I [] (out ++ inp ++ [List.last inp b]) s' → Q 0 s') → wp (mycat2_loop fuel fd b) Q s.
Proof.
  revert inp out s b. induction fuel as [|fuel IH]; intros inp out s b Hi Hc Hf HQ; simpl; apply wp_bind.
  all: eapply wp_mono; [apply (stream_read inp out s 1 Hi); lia|]; intros [bs r] s' (rest & -> & Hr & Hn & He & Hi');
    simpl in *; subst r; rewrite length_app in *; apply wp_bind.
  all: destruct bs as [|c bs]; simpl in *;
    (eapply wp_mono; [apply (stream_write rest out s' [_] Hi'); simpl; lia|]); intros w s2 [-> Hi2].
  1,3: specialize (He eq_refl) as ->; by apply wp_ret, HQ.
  - lia.
  - destruct bs; [|simpl in *; lia]. simpl. apply (IH rest (out ++ [c])); [done|rewrite length_app; simpl; lia|simpl in *; lia|].
    intros s3 H3. apply HQ. simpl. rewrite <- app_assoc in H3. simpl in H3. destruct rest; [done|]. by rewrite (last_any b c).
Qed.
End Laws.

Section Counts.
Lemma wc_fold bs k :
  0 ≤ wc_l k ≤ wc_c k → 0 ≤ wc_w k ≤ wc_c k → wc_c k + Z.of_nat (length bs) < 2 ^ 31 →
  ∃ b, fold_left wc_step bs k =
    mkCounts (wc_l k + lines bs) (wc_w k + words (wc_inword k) bs) (wc_c k + Z.of_nat (length bs)) b.
Proof.
  revert k. induction bs as [|b bs IH]; intros k Hl Hw Hc; simpl in *.
  { exists (wc_inword k). destruct k. simpl. unfold lines. simpl. f_equal; lia. }
  destruct (IH (wc_step k b)) as [b' E].
  - unfold wc_step. destruct (b =? NL), (wc_space b), (wc_inword k); simpl; rewrite ?s32_small by lia; lia.
  - unfold wc_step. destruct (b =? NL), (wc_space b), (wc_inword k); simpl; rewrite ?s32_small by lia; lia.
  - unfold wc_step. destruct (wc_space b), (wc_inword k); simpl; rewrite s32_small by lia; lia.
  - exists b'. rewrite E. clear E IH. unfold wc_step, lines. simpl count_occ.
    destruct (Z.eqb_spec b NL) as [->|Hne].
    + destruct (Z.eq_dec NL NL); [|done]. change (wc_space NL) with true. simpl. rewrite !s32_small by lia.
      rewrite andb_false_r. f_equal; lia.
    + destruct (Z.eq_dec b NL); [done|].
      destruct (wc_space b), (wc_inword k); simpl; rewrite ?s32_small by lia; f_equal; lia.
Qed.
Lemma lines_bound bs : 0 ≤ lines bs ≤ Z.of_nat (length bs).
Proof. unfold lines. pose proof (count_occ_bound Z.eq_dec NL bs). lia. Qed.
Lemma words_bound b bs : 0 ≤ words b bs ≤ Z.of_nat (length bs).
Proof.
  revert b. induction bs as [|x bs IH]; intros b; simpl; [lia|]. specialize (IH (negb (wc_space x))).
  destruct (negb b && negb (wc_space x)); lia.
Qed.

Lemma map_u8 bs : bytes bs → map u8 bs = bs.
Proof. induction 1 as [|x bs Hx Hb IH]; [done|]. simpl. by rewrite IH, u8_small. Qed.
Lemma udigit_byte d : is_byte (udigit d).
Proof.
  unfold udigit. destruct (udigits !! Z.to_nat d) as [x|] eqn:E; [|unfold is_byte; simpl; lia]. simpl.
  assert (bytes udigits) as Hb by (unfold bytes, is_byte; vm_compute; repeat constructor; discriminate).
  by eapply Forall_lookup_1.
Qed.
(** The decimal text of a number that fits an [int]. *)
Lemma decimal_text z : 0 ≤ z < 2 ^ 31 → ∃ t, map u8 (rev (s_getReverseDigits 16 (s32 z) 10 true)) = t ∧ unumeral 10 z t ∧ (length t ≤ 16)%nat.
Proof.
  intros Hz. pose proof (getReverseDigits_numeral z 10 true ltac:(by left)) as U. cbv iota in U. rewrite s32_small in U |- * by lia.
  exists (rev (s_getReverseDigits 16 z 10 true)). split; [|split; [done|]].
  - destruct U as (ds & -> & _). apply map_u8, Forall_app. split.
    + destruct (z <? 0); [|constructor]. by constructor; [|constructor].
    + apply Forall_fmap, Forall_true. intros d. apply udigit_byte.
  - rewrite length_rev. unfold s_getReverseDigits. pose proof (length_rev_digits (16 - 1) (if true && (z <? 0) then u32 (- z) else u32 z) 10) as Hr.
    destruct (Z.ltb_spec z 0); [lia|]. cbn [andb] in *. destruct ((0 =? z) && _) eqn:E; [|lia].
    apply andb_true_iff in E as [_ E%Nat.ltb_lt]. rewrite length_app. cbn [length]. lia.
Qed.
Lemma render_lit gr c fmt ap : u8 c ≠ ch "%" → render gr (c :: fmt) false ap = cons (u8 c) <$> render gr fmt false ap.
Proof. intros Hc. cbn [render]. cbv zeta. cbn [negb]. by rewrite (proj2 (Z.eqb_neq _ _) Hc). Qed.
Lemma render_d gr fmt w ap :
  render gr (str "%d" ++ fmt) false (CInt w :: ap) = app (map u8 (rev (gr 16%nat (s32 w) 10 true))) <$> render gr fmt false ap.
Proof. reflexivity. Qed.
Lemma render_s gr fmt w ap :
  render gr (str "%s" ++ fmt) false (CStr w :: ap) = app (map u8 (default (str "(null)") w)) <$> render gr fmt false ap.
Proof. reflexivity. Qed.
Lemma render_wc gr a b c name :
  render gr (str "%d %d %d %s" ++ [NL]) false [CInt a; CInt b; CInt c; CStr (Some name)] =
  Some (map u8 (rev (gr 16%nat (s32 a) 10 true)) ++ str " " ++ map u8 (rev (gr 16%nat (s32 b) 10 true)) ++ str " " ++
    map u8 (rev (gr 16%nat (s32 c) 10 true)) ++ str " " ++ map u8 name ++ [NL]).
Proof.
  change (str "%d %d %d %s" ++ [NL]) with (str "%d" ++ ch " " :: str "%d" ++ ch " " :: str "%d" ++ ch " " :: str "%s" ++ [NL]).
  rewrite render_d, render_lit, render_d, render_lit, render_d, render_lit, render_s, render_lit by done. reflexivity.
Qed.
End Counts.

(** C37. [wc] counts lines, words and bytes of its input, however the system cuts
    the input into reads, and prints the three numbers in decimal and the name;
    [cat] copies its input.  Both end. *)
Theorem wc_counts {S : Type} `{Sys.Io S} `{LoopBound} (fd : Z) (cap : nat) (I : list Z → list Z → S → Prop) `{!Streams fd cap I}
    (inp out name : list Z) (s : S) :
  I inp out s → (length inp ≤ loop_bound)%nat → Z.of_nat (length inp) < 2 ^ 31 → bytes name → Z.of_nat (length name) < 2 ^ 29 →
  (length out + length inp ≤ cap)%nat → (length out + length name + 60 ≤ cap)%nat →
  wp (wc fd name) (λ _ s', ∃ l w c, I [] (out ++ l ++ str " " ++ w ++ str " " ++ c ++ str " " ++ name ++ [NL]) s' ∧
    unumeral 10 (lines inp) l ∧ unumeral 10 (words false inp) w ∧ unumeral 10 (Z.of_nat (length inp)) c) s ∧
  wp (cat fd) (λ _ s', I [] (out ++ inp) s') s.
Proof.
  intros Hi Hb H31 Hn H29 Hc1 Hc2. split.
  2: { unfold cat. apply wp_bind. eapply (wp_cat_loop fd cap I); [exact Hi|done|done|]. intros s' Hs. by apply wp_ret. }
  unfold wc. apply wp_bind. eapply (wp_wc_loop fd cap I); [exact Hi|done|]. intros s' Hs. cbn [snd fst Z.ltb Z.compare].
  destruct (wc_fold inp (mkCounts 0 0 0 false)) as [b ->]; [simpl; lia..|]. cbn [wc_l wc_w wc_c wc_inword]. rewrite !Z.add_0_l.
  pose proof (lines_bound inp) as Hl. pose proof (words_bound false inp) as Hw.
  destruct (decimal_text (lines inp) ltac:(lia)) as (l & El & Ul & Ll). destruct (decimal_text (words false inp) ltac:(lia)) as (w & Ew & Uw & Lw).
  destruct (decimal_text (Z.of_nat (length inp)) ltac:(lia)) as (c & Ec & Uc & Lc).
  assert (map u8 name = name) as En by (by apply map_u8).
  eapply (wp_printf fd cap I []) with (txt := l ++ str " " ++ w ++ str " " ++ c ++ str " " ++ name ++ [NL]); [|..|exact Hs| |].
  - rewrite render_wc, El, Ew, Ec, En. done.
  - rewrite !length_app. simpl. lia.
  - rewrite !length_app. simpl. lia.
  - intros s2 H2. by exists l, w, c.
Qed.

Lemma wc_counts_witness :
  wp (wc (S := toy) (H0 := 20%nat) 0 (str "f")) (λ _ w, toy_out w = str "1 3 8 f" ++ [NL])
    (mkToy (str "ab c" ++ [NL] ++ str "d  ") [1; 2]%nat []) ∧
  wp (cat (S := toy) (H0 := 20%nat) 0) (λ _ w, toy_out w = str "ab c" ++ [NL] ++ str "d  ")
    (mkToy (str "ab c" ++ [NL] ++ str "d  ") [1; 2]%nat []).
Proof.
  destruct (wc_counts (S := toy) (H0 := 20%nat) 0 100 toy_state (str "ab c" ++ [NL] ++ str "d  ") [] (str "f")
    (mkToy (str "ab c" ++ [NL] ++ str "d  ") [1; 2]%nat [])) as [Hw Hc].
  - split; [done|]. split; [done|]. repeat constructor; lia.
  - vm_compute. lia.
  - done.
  - unfold bytes, is_byte. repeat constructor; vm_compute; discriminate.
  - done.
  - vm_compute. lia.
  - vm_compute. lia.
  - split; [vm_compute; reflexivity|]. eapply wp_mono; [exact Hc|]. by intros _ w (_ & -> & _).
Defined.
