(* ===== verification/Grep.v ===== *)
(** * Grep: the pattern matcher and its filter (grep.c)

    Pattern and text are strings without their NUL.  The matcher is equivalent
    to a declarative meaning of patterns.  The filter prints the lines that
    match when every read fills the buffer as far as the input goes; when a read
    may return less, as on a pipe, lines are lost. *)

From S2P Require Import Prelude State Console Strings Printf User Utils.

(** ** The matcher *)

(** [matchstar(c, re, text)], given the matcher for [re]. *)
Definition matchstar (matchhere_re : list Z → bool) (c : Z) : list Z → bool :=
  fix loop (text : list Z) : bool :=
    if matchhere_re text then true else
    match text with
    | [] => false
    | t :: text' => if (t =? c) || (c =? ch ".") then loop text' else false
    end.

Fixpoint matchhere (re text : list Z) {struct re} : bool :=
  match re with
  | [] => true
  | r0 :: re1 =>
      let rest :=
        if (r0 =? ch "$") && match re1 with [] => true | _ => false end then
          match text with [] => true | _ => false end
        else match text with
             | [] => false
             | t :: text' => if (r0 =? ch ".") || (r0 =? t) then matchhere re1 text' else false
             end in
      match re1 with
      | r1 :: re2 => if r1 =? ch "*" then matchstar (matchhere re2) r0 text else rest
      | [] => rest
      end
  end.

(** The loop of [match]: it looks at the empty suffix too. *)
Fixpoint match_loop (re text : list Z) : bool :=
  if matchhere re text then true else
  match text with [] => false | _ :: text' => match_loop re text' end.
(** [match] *)
Definition grep_match (re text : list Z) : bool :=
  match re with
  | r0 :: re1 => if r0 =? ch "^" then matchhere re1 text else match_loop re text
  | [] => match_loop re text
  end.

(** ** The filter *)

Section Filter.
Context {S : Type} `{Sys.Io S} `{LoopBound}.
Import Sys.

(** A library function on the buffer. *)
Definition on_buffer {A} (f : Mem A) (buf : list Z) : M S (list Z) :=
  match f buf with Ok _ buf' => mret buf' | _ => fault "buffer" end.

(** The inner loop: the buffer and the final [p]. *)
Fixpoint grep_lines (fuel : nat) (pattern buf : list Z) (p : nat) : M S (list Z * nat) :=
  match strchr (drop p buf) NL with
  | None => fault "strchr"
  | Some None => mret (buf, p)
  | Some (Some rest) =>
      let q := (length buf - length rest)%nat in
      let buf := <[q := 0]> buf in
      buf ← (if grep_match pattern (upto0 (drop p buf)) then
               let buf := <[q := NL]> buf in
               _ ← write 1 (slice p (q + 1 - p) buf);
               mret buf
             else mret buf);
      match fuel with O => nofuel | Datatypes.S fuel' => grep_lines fuel' pattern buf (q + 1) end
  end.

Definition grep_bufsize : nat := 1024.
(** The body of the outer loop once [n] bytes have been read behind [m] others:
    the buffer and the new [m], the length of a line not yet complete. *)
Definition grep_round (pattern buf : list Z) (m : nat) (bs : list Z) : M S (list Z * nat) :=
  let buf := splice m bs buf in
  let m := (m + length bs)%nat in
  x ← grep_lines grep_bufsize pattern (<[m := 0]> buf) 0;
  let '(buf, p) := x in
  let m := if Nat.eqb p 0 then 0%nat else m in
  if Nat.ltb 0 m then
    buf ← on_buffer (ulib_memmove 0 p (Z.of_nat (m - p))) buf;
    mret (buf, (m - p)%nat)
  else mret (buf, m).
(** The buffer at the end. *)
Fixpoint grep_loop (fuel : nat) (pattern : list Z) (fd : Z) (buf : list Z) (m : nat) : M S (list Z) :=
  r ← read fd (Z.of_nat grep_bufsize - Z.of_nat m - 1);
  if r.2 >? 0 then
    y ← grep_round pattern buf m (take (Z.to_nat r.2) r.1);
    match fuel with O => nofuel | Datatypes.S fuel' => grep_loop fuel' pattern fd y.1 y.2 end
  else mret buf.
(** [buf] is a global array; between two calls it keeps what it held. *)
Definition grep (pattern : list Z) (fd : Z) (buf : list Z) : M S (list Z) := grep_loop loop_bound pattern fd buf 0.
End Filter.

Section Main.
Context {S : Type} `{Sys.Os S} `{LoopBound}.

Fixpoint grep_files (pattern : list Z) (files : list (list Z)) (buf : list Z) : M S unit :=
  match files with
  | [] => mret tt
  | name :: files' =>
      fd ← Sys.open name 0;
      if fd <? 0 then printl 1 "grep: cannot open %s" [CStr (Some name)] ;; Sys.exit else
      buf ← grep pattern fd buf;
      _ ← Sys.close fd;
      grep_files pattern files' buf
  end.
Definition grep_main (argv : list (list Z)) : M S unit :=
  let buf := replicate grep_bufsize 0 in
  match argv with
  | _ :: pattern :: files =>
      match files with
      | [] => _ ← grep pattern 0 buf; Sys.exit
      | _ => grep_files pattern files buf ;; Sys.exit
      end
  | _ => printl 2 "usage: grep pattern [file ...]" [] ;; Sys.exit
  end.
End Main.

(** ** What patterns mean *)

(** [here re text]: a prefix of [text] is in the language of [re]. *)
Inductive here : list Z → list Z → Prop :=
| here_nil text : here [] text
| here_star c re run text :
    Forall (λ x, c = ch "." ∨ x = c) run → here re text → here (c :: ch "*" :: re) (run ++ text)
| here_end : here [ch "$"] []
| here_char c re x text :
    head re ≠ Some (ch "*") → ¬ (c = ch "$" ∧ re = []) → c = ch "." ∨ c = x → here re text → here (c :: re) (x :: text).

(** Anchored by a leading [^]; otherwise the prefix may start anywhere. *)
Definition matches (re text : list Z) : Prop :=
  match re with
  | r0 :: re1 => if decide (r0 = ch "^") then here re1 text else ∃ pre suf, text = pre ++ suf ∧ here re suf
  | [] => ∃ pre suf, text = pre ++ suf ∧ here re suf
  end.

Section Match.
Implicit Types re text : list Z.

Lemma matchstar_spec f c text :
  matchstar f c text = true ↔ ∃ run rest, text = run ++ rest ∧ Forall (λ x, c = ch "." ∨ x = c) run ∧ f rest = true.
Proof.
  induction text as [|t text IH]; simpl.
  - destruct (f []) eqn:E; split; try done; [by exists [], []|].
    intros (run & rest & Er & _ & Ef). symmetry in Er. apply app_eq_nil in Er as [-> ->]. congruence.
  - destruct (f (t :: text)) eqn:E.
    { split; [|done]. by exists [], (t :: text). }
    destruct ((t =? c) || (c =? ch ".")) eqn:Et.
    + rewrite IH. split.
      * intros (run & rest & -> & Hr & Hf). exists (t :: run), rest. split; [done|]. split; [|done]. constructor; [|done].
        apply orb_true_iff in Et as [?%Z.eqb_eq|?%Z.eqb_eq]; auto.
      * intros (run & rest & Er & Hr & Hf). destruct run as [|x run]; simpl in Er; [congruence|].
        injection Er as -> ->. exists run, rest. inversion Hr. auto.
    + split; [done|]. intros (run & rest & Er & Hr & Hf). destruct run as [|x run]; simpl in Er; [congruence|].
      injection Er as -> ->. apply orb_false_iff in Et as [?%Z.eqb_neq ?%Z.eqb_neq]. inversion Hr. naive_solver.
Qed.

(** The part of [matchhere] for one character or the end. *)
Lemma matchhere_char r0 re1 text :
  (∀ text, matchhere re1 text = true ↔ here re1 text) → head re1 ≠ Some (ch "*") →
  matchhere (r0 :: re1) text = true ↔ here (r0 :: re1) text.
Proof.
  intros IH Hstar.
  assert (matchhere (r0 :: re1) text = if (r0 =? ch "$") && match re1 with [] => true | _ => false end then
    match text with [] => true | _ => false end
    else match text with [] => false | t :: text' => if (r0 =? ch ".") || (r0 =? t) then matchhere re1 text' else false end) as ->.
  { destruct re1 as [|r1 re2]; [done|]. cbn [matchhere]. destruct (Z.eqb_spec r1 (ch "*")) as [->|]; [done|]. done. }
  destruct ((r0 =? ch "$") && _) eqn:Ed.
  - apply andb_true_iff in Ed as [->%Z.eqb_eq Er]. destruct re1; [|done]. destruct text; split; try done; [constructor|].
    inversion 1; naive_solver.
  - assert (¬ (r0 = ch "$" ∧ re1 = [])) as Hd by (intros [-> ->]; done).
    destruct text as [|t text].
    { split; [done|]. inversion 1; subst; naive_solver. }
    destruct ((r0 =? ch ".") || (r0 =? t)) eqn:Et.
    + rewrite IH. assert (r0 = ch "." ∨ r0 = t) as Hc by (apply orb_true_iff in Et as [?%Z.eqb_eq|?%Z.eqb_eq]; auto).
      split; [by apply here_char|]. inversion 1; subst; naive_solver.
    + apply orb_false_iff in Et as [?%Z.eqb_neq ?%Z.eqb_neq]. split; [done|]. inversion 1; subst; naive_solver.
Qed.

Lemma matchhere_spec re text : matchhere re text = true ↔ here re text.
Proof.
  revert text. remember (length re) as n eqn:En. revert re En. induction (lt_wf n) as [n _ IH]. intros re -> text.
  destruct re as [|r0 re1]; [by split; [constructor|]|]. destruct re1 as [|r1 re2].
  { apply matchhere_char; [|done]. intros text'. by split; [constructor|]. }
  destruct (Z.eqb_spec r1 (ch "*")) as [->|Hne].
  - cbn [matchhere]. rewrite Z.eqb_refl, matchstar_spec. split.
    + intros (run & rest & -> & Hr & Hm). constructor; [done|]. eapply IH; [|reflexivity|exact Hm]. simpl. lia.
    + inversion 1; subst; [|done]. eexists _, _. split; [reflexivity|]. split; [done|]. eapply IH; [|reflexivity|done]. simpl. lia.
  - apply matchhere_char; [|simpl; congruence]. intros text'. eapply IH; [|reflexivity]. simpl. lia.
Qed.

Lemma match_loop_spec re text : match_loop re text = true ↔ ∃ pre suf, text = pre ++ suf ∧ here re suf.
Proof.
  induction text as [|t text IH]; cbn [match_loop]; destruct (matchhere re _) eqn:E.
  - split; [|done]. exists [], []. by apply matchhere_spec in E.
  - split; [done|]. intros (pre & suf & Es & Hh%matchhere_spec). symmetry in Es. apply app_eq_nil in Es as [-> ->]. congruence.
  - split; [|done]. exists [], (t :: text). by apply matchhere_spec in E.
  - rewrite IH. split.
    + intros (pre & suf & -> & Hh). by exists (t :: pre), suf.
    + intros (pre & suf & Es & Hh). destruct pre as [|x pre]; simpl in Es; [subst; apply matchhere_spec in Hh; congruence|].
      injection Es as -> ->. by exists pre, suf.
Qed.
End Match.

(** ** What the filter prints *)

(** The text of complete lines. *)
Definition terminated (ls : list (list Z)) : list Z := concat (map (λ l, l ++ [NL]) ls).
(** A line, or part of one: no newline and no NUL. *)
Definition plain (l : list Z) : Prop := Forall (λ c, c ≠ NL ∧ c ≠ 0) l.
(** The lines that match. *)
Definition matching (pattern : list Z) (ls : list (list Z)) : list (list Z) := List.filter (grep_match pattern) ls.

Section Lines.
Implicit Types (l buf : list Z) (ls : list (list Z)).

Lemma strchr_line l r : plain l → strchr (l ++ NL :: r) NL = Some (Some (NL :: r)).
Proof.
  induction 1 as [|c l [Hn H0] Hl IH]; [done|]. simpl. by rewrite (proj2 (Z.eqb_neq _ _) H0), (proj2 (Z.eqb_neq _ _) Hn).
Qed.
Lemma strchr_none l r : plain l → strchr (l ++ 0 :: r) NL = Some None.
Proof.
  induction 1 as [|c l [Hn H0] Hl IH]; [done|]. simpl. by rewrite (proj2 (Z.eqb_neq _ _) H0), (proj2 (Z.eqb_neq _ _) Hn).
Qed.
Lemma upto0_line l r : plain l → upto0 (l ++ 0 :: r) = l.
Proof. induction 1 as [|c l [Hn H0] Hl IH]; [done|]. simpl. by rewrite (proj2 (Z.eqb_neq _ _) H0), IH. Qed.

(** Every text without NUL is complete lines and a part of a line. *)
Lemma cut_lines d : Forall (λ c, c ≠ 0) d → ∃ ls part, d = terminated ls ++ part ∧ Forall plain ls ∧ plain part.
Proof.
  induction 1 as [|c d H0 Hd (ls & part & -> & Hls & Hp)]; [exists [], []; split; [done|split; constructor]|].
  destruct (decide (c = NL)) as [->|Hn].
  - exists ([] :: ls), part. split; [done|]. split; [by constructor; [constructor|]|done].
  - destruct ls as [|l ls].
    + exists [], (c :: part). split; [done|]. split; [done|]. by apply Forall_cons.
    + exists ((c :: l) :: ls), part. split; [done|]. inversion Hls; subst. split; [|done]. constructor; [|done]. by apply Forall_cons.
Qed.
Lemma plain_app l1 l2 : plain (l1 ++ l2) ↔ plain l1 ∧ plain l2.
Proof. apply Forall_app. Qed.
Lemma plain_NL l r : ¬ plain (l ++ NL :: r).
Proof. intros [_ Hp]%plain_app. inversion Hp as [|? ? [Hn _]]. done. Qed.

(** Complete lines at the front of a text are its first lines. *)
Lemma lines_prefix ls1 part rest ls tail :
  Forall plain ls1 → Forall plain ls → plain tail → (terminated ls1 ++ part) ++ rest = terminated ls ++ tail →
  ∃ ls2, ls = ls1 ++ ls2 ∧ part ++ rest = terminated ls2 ++ tail.
Proof.
  revert ls. induction ls1 as [|l ls1 IH]; intros ls H1 H2 Ht E; [by exists ls|].
  inversion H1 as [|? ? Hl H1']; subst. destruct ls as [|l' ls].
  { exfalso. unfold terminated in E. simpl in E. rewrite <- !app_assoc in E. simpl in E. rewrite <- E in Ht. by apply plain_NL in Ht. }
  inversion H2 as [|? ? Hl' H2']; subst. unfold terminated in E. simpl in E. rewrite <- !app_assoc in E. simpl in E.
  assert (l = l' ∧ terminated ls1 ++ part ++ rest = terminated ls ++ tail) as [-> E'].
  { clear - Hl Hl' E. revert l' Hl' E. induction Hl as [|c l [Hn _] Hl IH]; intros l' Hl' E; destruct Hl' as [|c' l' [Hn' _] Hl']; simpl in E.
    - by injection E.
    - injection E. congruence.
    - injection E. congruence.
    - injection E as -> E. apply IH in E as [-> E]; done. }
  rewrite app_assoc in E'. destruct (IH ls H1' H2' Ht E') as (ls2 & -> & E2). by exists ls2.
Qed.
End Lines.

Section FilterSpec.
Context {S : Type} `{Sys.Io S} `{LoopBound} (fd : Z) (cap : nat) (I : list Z → list Z → S → Prop) `{!Streams fd cap I} `{!FullReads fd I}.
Implicit Types (inp out buf pattern : list Z) (s : S).

Lemma wp_grep_lines pattern fuel inp out s pre ls part junk (Q : list Z * nat → S → Prop) :
  let buf := pre ++ terminated ls ++ part ++ 0 :: junk in
  I inp out s → Forall plain ls → plain part → (length ls ≤ fuel)%nat → bytes pre → bytes (terminated ls) →
  (length out + length (terminated (matching pattern ls)) ≤ cap)%nat →
  (∀ s' pre', length pre' = length (pre ++ terminated ls) → bytes pre' → I inp (out ++ terminated (matching pattern ls)) s' →
     Q (pre' ++ part ++ 0 :: junk, length pre') s') →
  wp (grep_lines fuel pattern buf (length pre)) Q s.
Proof.
  intros buf. unfold buf. clear buf. revert fuel out s pre. induction ls as [|l ls IH]; intros fuel out s pre Hi Hls Hp Hf Hbp Hbl Hc HQ.
  - destruct fuel; cbn [grep_lines]; rewrite drop_app_length; simpl; rewrite (strchr_none part) by done; apply wp_ret;
      (apply (HQ s pre); [by rewrite app_nil_r|done|]); simpl; by rewrite app_nil_r.
  - inversion Hls as [|? ? Hl Hls']; subst. destruct fuel as [|fuel]; [simpl in Hf; lia|].
    set (after := terminated ls ++ part ++ 0 :: junk).
    assert (pre ++ terminated (l :: ls) ++ part ++ 0 :: junk = pre ++ l ++ NL :: after) as ->.
    { unfold terminated, after. simpl. by rewrite <- !app_assoc. }
    cbn [grep_lines]. rewrite drop_app_length, (strchr_line l after Hl).
    replace (length (pre ++ l ++ NL :: after) - length (NL :: after))%nat with (length (pre ++ l)) by (rewrite !length_app; simpl; lia).
    assert (∀ x y, <[length (pre ++ l) := x]> (pre ++ l ++ y :: after) = pre ++ l ++ x :: after) as Hins.
    { intros x y. rewrite !(app_assoc pre). rewrite insert_app_r_alt by lia. by rewrite Nat.sub_diag. }
    rewrite Hins, drop_app_length, (upto0_line l after Hl). apply wp_bind.
    set (Q1 := λ (b : list Z) (s' : S), ∃ c, b = (pre ++ l ++ [c]) ++ after ∧ is_byte c ∧
      I inp (out ++ (if grep_match pattern l then l ++ [NL] else [])) s').
    assert (wp (if grep_match pattern l then
        _ ← Sys.write 1 (slice (length pre) (length (pre ++ l) + 1 - length pre) (<[length (pre ++ l) := NL]> (pre ++ l ++ 0 :: after)));
        mret (<[length (pre ++ l) := NL]> (pre ++ l ++ 0 :: after)) else mret (pre ++ l ++ 0 :: after)) Q1 s) as Hw.
    { unfold matching in Hc. simpl in Hc. destruct (grep_match pattern l).
      - rewrite Hins. unfold terminated in Hc. simpl in Hc. rewrite length_app in Hc. apply wp_bind.
        assert (slice (length pre) (length (pre ++ l) + 1 - length pre) (pre ++ l ++ NL :: after) = l ++ [NL]) as ->.
        { unfold slice. rewrite drop_app_length, length_app. replace (length pre + length l + 1 - length pre)%nat with (length (l ++ [NL])) by (rewrite length_app; simpl; lia).
          change (NL :: after) with ([NL] ++ after). rewrite app_assoc. apply take_app_length. }
        eapply wp_mono; [apply (stream_write inp out s (l ++ [NL]) Hi); lia|]. intros r s' [_ Hs]. apply wp_ret.
        exists NL. split; [by rewrite <- !app_assoc|]. split; [done|done].
      - apply wp_ret. exists 0. split; [by rewrite <- !app_assoc|]. split; [done|by rewrite app_nil_r]. }
    unfold terminated in Hbl. simpl in Hbl. rewrite <- app_assoc in Hbl. apply Forall_app in Hbl as [Hbl1 Hbl]. apply Forall_cons in Hbl as [_ Hbl].
    eapply wp_mono; [exact Hw|]. intros b s' (c & -> & Hbc & Hs).
    replace (length (pre ++ l) + 1)%nat with (length (pre ++ l ++ [c])) by (rewrite !length_app; simpl; lia).
    assert (terminated (matching pattern (l :: ls)) = (if grep_match pattern l then l ++ [NL] else []) ++ terminated (matching pattern ls)) as Em.
    { unfold matching. simpl. by destruct (grep_match pattern l). }
    rewrite Em, app_assoc in HQ. rewrite Em, length_app in Hc.
    apply (IH fuel (out ++ (if grep_match pattern l then l ++ [NL] else [])) s' (pre ++ l ++ [c])); [exact Hs|done|done|simpl in Hf; lia| |exact Hbl|rewrite length_app; lia|].
    { apply Forall_app. split; [done|]. apply Forall_app. split; [done|]. by constructor. }
    intros s2 pre' Hp' Hb' H2. apply HQ; [|done|done]. rewrite Hp'. unfold terminated. simpl. rewrite !length_app. simpl. lia.
Qed.

(** Moving the incomplete line to the front of the buffer. *)
Lemma wp_move_part pre part junk (s : S) (Q : list Z → S → Prop) :
  bytes (pre ++ part ++ junk) →
  (∀ junk', length junk' = length (pre ++ junk) → bytes junk' → Q (part ++ junk') s) →
  wp (on_buffer (ulib_memmove 0 (length pre) (Z.of_nat (length part))) (pre ++ part ++ junk)) Q s.
Proof.
  intros Hb HQ. set (b := pre ++ part ++ junk) in *.
  assert (length b = length pre + length part + length junk)%nat as Hl by (unfold b; rewrite !length_app; lia).
  assert (wp (ulib_memmove 0 (length pre) (Z.of_nat (length part))) (λ _ m', moved 0 (length pre) (length part) b m') b) as Hm.
  { unfold ulib_memmove. rewrite Nat2Z.id. apply wp_bind, move_up_spec; [done|lia|lia|lia|]. intros m' Hm. by apply wp_ret. }
  unfold on_buffer. unfold wp in Hm. destruct (ulib_memmove _ _ _ b) as [a m'| | | |]; [|done..]. apply wp_ret.
  destruct Hm as (Hlm & Hbm & Hx). rewrite <- (take_drop (length part) m'). rewrite <- (take_drop (length part) m') in Hbm.
  apply Forall_app in Hbm as [_ Hbd].
  assert (take (length part) m' = part) as ->; [|apply HQ; [rewrite length_drop, length_app; lia|done]].
  apply list_eq. intros x. destruct (decide (x < length part)%nat) as [Hlt|Hge].
  - rewrite lookup_take_lt by done. rewrite Hx, decide_True by lia. unfold b. rewrite lookup_app_r by lia.
    replace (length pre + (x - 0) - length pre)%nat with x by lia. by rewrite lookup_app_l.
  - rewrite lookup_take_ge by lia. symmetry. apply lookup_ge_None. lia.
Qed.

Lemma text_nonzero ls tail : Forall plain ls → plain tail → Forall (λ c, c ≠ 0) (terminated ls ++ tail).
Proof.
  intros Hls Ht. apply Forall_app. split; [|eapply Forall_impl; [exact Ht|]; by intros c [_ Hc]].
  induction Hls as [|l ls Hl Hls IH]; [constructor|]. unfold terminated. simpl. apply Forall_app. split; [|done].
  apply Forall_app. split; [|by repeat constructor]. eapply Forall_impl; [exact Hl|]. by intros c [_ Hc].
Qed.
Lemma matching_app pattern ls1 ls2 :
  terminated (matching pattern (ls1 ++ ls2)) = terminated (matching pattern ls1) ++ terminated (matching pattern ls2).
Proof. unfold matching, terminated. by rewrite List.filter_app, map_app, concat_app. Qed.
(** A full buffer, or the end of the input, without a newline: no line is left. *)
Lemma no_line left rest ls tail :
  plain left → Forall (λ l, (length l < 1023)%nat) ls → left ++ rest = terminated ls ++ tail →
  (length left = 1023 ∨ length rest = 0)%nat → ls = [].
Proof.
  intros Hlf Hsh E Hd. destruct ls as [|l ls]; [done|]. exfalso. inversion Hsh as [|? ? Hl _]; subst.
  unfold terminated in E. simpl in E. rewrite <- !app_assoc in E. simpl in E.
  destruct Hd as [Hd|Hd].
  - apply (f_equal (take (length l + 1))) in E. rewrite take_app_le in E by lia.
    change (NL :: concat (map (λ l : list Z, l ++ [NL]) ls) ++ tail) with ([NL] ++ concat (map (λ l : list Z, l ++ [NL]) ls) ++ tail) in E.
    rewrite app_assoc, take_app_length' in E by (rewrite length_app; simpl; lia).
    apply (Forall_take _ (length l + 1)) in Hlf. rewrite E in Hlf. by apply plain_NL in Hlf.
  - destruct rest; [|done]. rewrite app_nil_r in E. rewrite E in Hlf. by apply plain_NL in Hlf.
Qed.
Lemma length_terminated ls : (length ls ≤ length (terminated ls))%nat.
Proof. induction ls as [|l ls IH]; [done|]. unfold terminated in *. simpl. rewrite !length_app. simpl. lia. Qed.

Lemma wp_grep_round pattern part junk bs rest out s ls left (Q : list Z * nat → S → Prop) :
  I rest out s → bytes (part ++ junk) → length (part ++ junk) = grep_bufsize → bytes bs → (0 < length bs)%nat →
  (length part + length bs ≤ 1023)%nat → part ++ bs = terminated ls ++ left → Forall plain ls → plain left →
  (length out + length (terminated (matching pattern ls)) ≤ cap)%nat →
  (∀ s' left' junk', left' = match ls with [] => [] | _ => left end → bytes (left' ++ junk') →
     length (left' ++ junk') = grep_bufsize → I rest (out ++ terminated (matching pattern ls)) s' →
     Q (left' ++ junk', length left') s') →
  wp (grep_round pattern (part ++ junk) (length part) bs) Q s.
Proof.
  unfold grep_bufsize at 1 2. intros Hi Hb Hlen Hbs Hpos Hmax E Hls Hlf Hc HQ. apply Forall_app in Hb as [Hbp Hbj].
  rewrite length_app in Hlen. destruct (drop (length bs) junk) as [|x junk2] eqn:Ej.
  { apply (f_equal length) in Ej. rewrite length_drop in Ej. simpl in Ej. lia. }
  assert (<[(length part + length bs)%nat := 0]> (splice (length part) bs (part ++ junk)) = [] ++ terminated ls ++ left ++ 0 :: junk2) as Eb.
  { unfold splice. rewrite take_app_length, drop_app_ge by lia. replace (length part + length bs - length part)%nat with (length bs) by lia.
    rewrite Ej, (app_assoc part), insert_app_r_alt by (rewrite length_app; lia). rewrite length_app, Nat.sub_diag. simpl.
    by rewrite E, <- app_assoc. }
  assert (bytes (terminated ls ++ left)) as Hbt by (rewrite <- E; apply Forall_app; done).
  apply Forall_app in Hbt as [Hbt Hbl]. assert (length (terminated ls) + length left = length part + length bs)%nat as Hll by (rewrite <- !length_app; by rewrite E).
  assert (bytes junk2) as Hbj2.
  { apply (Forall_drop _ (length bs)) in Hbj. rewrite Ej in Hbj. by inversion Hbj. }
  assert (length junk2 + 1 = length junk - length bs)%nat as Hlj.
  { apply (f_equal length) in Ej. rewrite length_drop in Ej. simpl in Ej. lia. }
  unfold grep_round. rewrite Eb. apply wp_bind. pose proof (length_terminated ls) as Hlt.
  apply (wp_grep_lines pattern _ rest out s [] ls left junk2); [done|done|done|unfold grep_bufsize; lia|constructor|done|done|].
  intros s' pre' Hp' Hbp' Hi'. simpl app in Hp'. destruct ls as [|l ls'] eqn:Els.
  - destruct pre'; [|done]. cbn [length Nat.eqb Nat.ltb Nat.leb]. apply wp_ret.
    apply (HQ s' [] ([] ++ left ++ 0 :: junk2)); [done| |unfold grep_bufsize; simpl in *; rewrite length_app; simpl; lia|done].
    simpl. apply Forall_app. split; [done|]. by constructor.
  - assert (1 ≤ length pre')%nat as H1 by (rewrite Hp'; simpl in Hlt; lia).
    assert ((length pre' =? 0)%nat = false) as -> by (apply Nat.eqb_neq; lia). cbv iota.
    assert ((0 <? length part + length bs)%nat = true) as -> by (apply Nat.ltb_lt; lia). apply wp_bind.
    replace (length part + length bs - length pre')%nat with (length left) by lia.
    apply wp_move_part; [apply Forall_app; split; [done|]; apply Forall_app; split; [done|]; by constructor|].
    intros junk' Hj' Hbj'. apply wp_ret. apply HQ; [done|by apply Forall_app| |done].
    rewrite !length_app in *. simpl in Hj'. unfold grep_bufsize. lia.
Qed.

(** [part] is the incomplete line in the buffer, [rest] what is left to read. *)
Lemma wp_grep_loop pattern fuel part junk rest out s ls tail (Q : list Z → S → Prop) :
  I rest out s → bytes (part ++ junk) → length (part ++ junk) = grep_bufsize → bytes rest → plain part →
  part ++ rest = terminated ls ++ tail → Forall plain ls → plain tail →
  Forall (λ l, (length l < 1023)%nat) ls → (length part < 1023)%nat → (length rest ≤ fuel)%nat →
  (length out + length (terminated (matching pattern ls)) ≤ cap)%nat →
  (∀ b s', I [] (out ++ terminated (matching pattern ls)) s' → Q b s') →
  wp (grep_loop fuel pattern fd (part ++ junk) (length part)) Q s.
Proof.
  unfold grep_bufsize. revert part junk rest out s ls tail.
  induction fuel as [|fuel IH]; intros part junk rest out s ls tail Hi Hb Hlen Hbr Hp E Hls Ht Hsh Hp5 Hf Hc HQ; cbn [grep_loop].
  all: change (Z.of_nat grep_bufsize) with 1024; apply wp_bind.
  all: eapply wp_mono; [apply (full_read rest out s _ Hi); lia|]; intros [bs r] s' (E1 & E2 & Hi'); simpl in E1, E2; subst r; cbn [fst snd].
  all: rewrite Z.gtb_ltb; destruct (Z.ltb_spec 0 (Z.of_nat (length bs))) as [Hpos|Hpos].
  all: set (n := Z.to_nat (1024 - Z.of_nat (length part) - 1)) in *.
  all: assert (length bs = n `min` length rest)%nat as Hbl by (rewrite E1; apply length_take).
  2,4: assert (rest = []) as -> by (destruct rest; [done|cbn [length] in *; lia]); rewrite app_nil_r in E.
  2,3: assert (ls = []) as -> by (destruct ls as [|l ls]; [done|]; unfold terminated in E; simpl in E;
    rewrite <- !app_assoc in E; simpl in E; rewrite E in Hp; by apply plain_NL in Hp).
  2,3: apply wp_ret, HQ; simpl; rewrite app_nil_r; by destruct n.
  { lia. }
  rewrite Nat2Z.id, firstn_all. rewrite <- (take_drop n rest), <- E1 in E, Hbr. apply Forall_app in Hbr as [Hbb Hbr].
  destruct (cut_lines (part ++ bs)) as (ls1 & left & El & Hl1 & Hlf).
  { pose proof (text_nonzero ls tail Hls Ht) as Hz. rewrite <- E, app_assoc in Hz. by apply Forall_app in Hz as [? _]. }
  assert (length part + length bs ≤ 1023)%nat as Hmax by lia.
  rewrite app_assoc, El in E. destruct (lines_prefix ls1 left (drop n rest) ls tail Hl1 Hls Ht E) as (ls2 & -> & E2).
  rewrite matching_app in Hc, HQ. rewrite length_app in Hc. apply Forall_app in Hls as [_ Hls2]. apply Forall_app in Hsh as [_ Hsh2].
  apply wp_bind. eapply (wp_grep_round pattern part junk bs (drop n rest) out s' ls1 left); [done|done|done|done|lia|done|done|done|done|lia|].
  intros s2 left' junk' Hleft Hb' Hlen' Hi2. cbn [fst snd]. apply (f_equal length) in El as Hll. rewrite !length_app in Hll.
  assert (length (drop n rest) ≤ fuel)%nat as Hfuel by (rewrite length_drop; lia). rewrite app_assoc in HQ.
  destruct ls1 as [|l1 ls1].
  - subst left'. assert (ls2 = []) as ->.
    { apply (no_line left (drop n rest) ls2 tail Hlf Hsh2 E2). simpl in Hll. rewrite length_drop. lia. }
    simpl in E2. rewrite <- E2 in Ht. apply plain_app in Ht as [_ Ht].
    eapply (IH [] junk' (drop n rest) _ s2 [] (drop n rest)); [exact Hi2|done|done|done|constructor|done|constructor|done|constructor|simpl; lia|done| |].
    + rewrite length_app. simpl in *. lia.
    + exact HQ.
  - subst left'. pose proof (length_terminated (l1 :: ls1)) as Hlt. simpl in Hlt.
    eapply (IH left junk' (drop n rest) _ s2 ls2 tail); [exact Hi2|done|done|done|done|done|done|done|done|lia|done|rewrite length_app; lia|exact HQ].
Qed.
End FilterSpec.

(** C38. The matcher decides the meaning of patterns: literal characters, [.] for
    any character, [c*] for zero or more, [^] and [$] for the ends of the text. *)
Theorem match_meaning (re text : list Z) : grep_match re text = true ↔ matches re text.
Proof.
  destruct re as [|r0 re]; [apply match_loop_spec|]. unfold grep_match, matches. destruct (Z.eqb_spec r0 (ch "^")) as [->|Hne].
  - rewrite decide_True by done. apply matchhere_spec.
  - rewrite decide_False by done. apply match_loop_spec.
Qed.

(** C39. The filter: on a system whose reads return as much as they can, [grep]
    prints exactly the lines that match, in order, and nothing of a last line
    without newline; lines may have up to 1022 characters.  It ends on every
    input.  That reads return as much as they can is needed: on a system that
    may cut the input anywhere, a matching line is lost when a read ends inside
    it. *)
Theorem grep_prints {S : Type} `{Sys.Io S} `{LoopBound} (fd : Z) (cap : nat) (I : list Z → list Z → S → Prop)
    `{!Streams fd cap I} `{!FullReads fd I} (pattern buf tail out : list Z) (ls : list (list Z)) (s : S) :
  I (terminated ls ++ tail) out s → Forall plain ls → plain tail → bytes (terminated ls ++ tail) →
  Forall (λ l, (length l < 1023)%nat) ls → bytes buf → length buf = grep_bufsize →
  (length (terminated ls ++ tail) ≤ loop_bound)%nat →
  (length out + length (terminated (matching pattern ls)) ≤ cap)%nat →
  wp (grep pattern fd buf) (λ _ s', I [] (out ++ terminated (matching pattern ls)) s') s ∧
  (toy_state (terminated [str "ab"]) [] (mkToy (terminated [str "ab"]) [1%nat] []) ∧ grep_match (str "ab") (str "ab") = true ∧
   wp (grep (S := toy) (H0 := 5%nat) (str "ab") 0 (replicate grep_bufsize 0)) (λ _ w, toy_out w = [])
     (mkToy (terminated [str "ab"]) [1%nat] [])).
Proof.
  intros Hi Hls Ht Hb Hsh Hbb Hbl Hf Hc. split.
  - unfold grep. apply (wp_grep_loop fd cap I pattern loop_bound [] buf (terminated ls ++ tail) out s ls tail);
      try done; [constructor|simpl; lia].
  - split; [split; [done|split; [done|by repeat constructor]]|]. split; [reflexivity|]. vm_compute. reflexivity.
Qed.

Lemma grep_prints_witness :
  wp (grep (S := toy) (H0 := 20%nat) (str "^a.*c$") 0 (replicate grep_bufsize 0))
    (λ _ w, toy_out w = terminated [str "abc"; str "ac"]) (mkToy (terminated [str "abc"; str "abd"; str "ac"] ++ str "ac") [] []).
Proof.
  destruct (grep_prints (S := toy) (H0 := 20%nat) 0 100 toy_whole (str "^a.*c$") (replicate grep_bufsize 0) (str "ac") []
    [str "abc"; str "abd"; str "ac"] (mkToy (terminated [str "abc"; str "abd"; str "ac"] ++ str "ac") [] [])) as [Hw _].
  - done.
  - unfold plain. repeat constructor; done.
  - unfold plain. repeat constructor; done.
  - unfold bytes, is_byte. vm_compute. repeat constructor; discriminate.
  - repeat constructor; vm_compute; lia.
  - apply Forall_replicate. done.
  - done.
  - vm_compute. lia.
  - vm_compute. lia.
  - eapply wp_mono; [exact Hw|]. intros _ w ->. vm_compute. reflexivity.
Defined.
