(* ===== verification/Sh.v ===== *)
(** * Sh: the shell (sh.c)

    The parser works on a command line [s], a string without its NUL; pointers
    into it are indices, and a string in a parsed command is a pair of pointers
    to its start and behind its end.  [*ps] is the state of the parser's monad
    and [panic], which prints its argument and exits, is an outcome of it.
    [nulterminate] then overwrites the line so that the start pointers become
    C strings, and [runcmd] carries the command out with system calls. *)

From S2P Require Import Prelude State Console Strings Printf Inode Proc Sysfile User Utils.

Definition MAXARGS : nat := 20.

(** A string of a command: [argv[i]] and [eargv[i]], or [file] and [efile]; a
    redirection has a mode and a descriptor too. *)
Abbreviation span := (nat * nat)%type.
Abbreviation redir := (span * Z * Z)%type.
Inductive cmd :=
| EXEC (argv : list span)
| REDIR (c : cmd) (file : span) (mode fd : Z)
| PIPE (left right : cmd)
| LIST (left right : cmd)
| BACK (c : cmd).
Definition execcmd : cmd := EXEC [].
Definition redircmd (subcmd : cmd) (file : span) (mode fd : Z) : cmd := REDIR subcmd file mode fd.
Definition pipecmd (left right : cmd) : cmd := PIPE left right.
Definition listcmd (left right : cmd) : cmd := LIST left right.
Definition backcmd (subcmd : cmd) : cmd := BACK subcmd.
(** [cmd->argv[i]] and [cmd->eargv[i]] stored in a simple command. *)
Definition set_argv (c : cmd) (argv : list span) : cmd := match c with EXEC _ => EXEC argv | _ => c end.

Definition whitespace : list Z := [ch " "; 9; 13; NL; 11].
Definition symbols : list Z := str "<|>&;()".
Definition is_space (c : Z) : bool := in_set whitespace c.
Definition is_symbol (c : Z) : bool := in_set symbols c.

(** A character of a word. *)
Definition wordchar (c : Z) : bool := negb (is_space c) && negb (is_symbol c).

(** The number of characters a loop [while(s < es && ...) s++] passes. *)
Fixpoint skip_while (f : Z → bool) (l : list Z) : nat :=
  match l with
  | [] => O
  | c :: l' => if f c then S (skip_while f l') else O
  end.

Section Parser.
(** The command line; [es] points behind it. *)
Context (s : list Z).


(** [*s], the NUL at the end included. *)
Definition char_at (i : nat) : Z := default 0 (s !! i).
Definition skip_space (i : nat) : nat := (i + skip_while is_space (drop i s))%nat.

(** The token and its end, at a character that is not white space. *)
Definition token (i : nat) : Z * nat :=
  let c := char_at i in
  if c =? 0 then (c, i)
  else if in_set (str "|();&<") c then (c, S i)
  else if c =? ch ">" then if char_at (S i) =? ch ">" then (ch "+", S (S i)) else (c, S i)
  else (ch "a", (i + skip_while wordchar (drop i s))%nat).
Definition gettoken : M nat (Z * span) :=
  ps ← gets id;
  let q := skip_space ps in
  let '(ret, eq) := token q in
  modify (λ _, skip_space eq) ;;
  mret (ret, (q, eq)).

Definition peek (toks : list Z) : M nat bool :=
  ps ← gets id;
  let i := skip_space ps in
  modify (λ _, i) ;;
  mret (negb (char_at i =? 0) && in_set toks (char_at i)).

(** [parseredirs] wraps a command in the redirections that follow; the list of
    them, innermost first. *)
Definition wrap (c : cmd) (rs : list redir) : cmd :=
  fold_left (λ c (r : redir), redircmd c r.1.1 r.1.2 r.2) rs c.
Fixpoint parseredirs (fuel : nat) : M nat (list redir) :=
  b ← peek (str "<>");
  if (b : bool) then
    t ← gettoken;
    u ← gettoken;
    if negb (u.1 =? ch "a") then panic "missing file for redirection" else
    let r := if t.1 =? ch "<" then [(u.2, O_RDONLY, 0)]
             else if (t.1 =? ch ">") || (t.1 =? ch "+") then [(u.2, Z.lor O_WRONLY O_CREATE, 1)] else [] in
    match fuel with
    | O => nofuel
    | S fuel' => rs ← parseredirs fuel'; mret (r ++ rs)
    end
  else mret [].

(** The loop of [parseexec].  [cmd] points to the innermost node of [ret]: the
    arguments and the redirections around it are collected apart. *)
Fixpoint parseargs (fuel : nat) (argv : list span) (rs : list redir) : M nat (list span * list redir) :=
  b ← peek (str "|)&;");
  if (b : bool) then mret (argv, rs) else
  t ← gettoken;
  if t.1 =? 0 then mret (argv, rs) else
  if negb (t.1 =? ch "a") then panic "syntax" else
  let argv := argv ++ [t.2] in
  if Nat.leb MAXARGS (length argv) then panic "too many args" else
  rs' ← parseredirs (length s);
  match fuel with O => nofuel | S fuel' => parseargs fuel' argv (rs ++ rs') end.

(** The loop of [parseline]. *)
Fixpoint parseback (fuel : nat) (c : cmd) : M nat cmd :=
  b ← peek (str "&");
  if (b : bool) then
    _ ← gettoken;
    match fuel with O => nofuel | S fuel' => parseback fuel' (backcmd c) end
  else mret c.

Definition parseblock (parseline : M nat cmd) : M nat cmd :=
  b ← peek (str "(");
  if negb b then panic "parseblock" else
  _ ← gettoken;
  c ← parseline;
  b ← peek (str ")");
  if negb b then panic "syntax - missing )" else
  _ ← gettoken;
  rs ← parseredirs (length s);
  mret (wrap c rs).
Definition parseexec (parseline : M nat cmd) : M nat cmd :=
  b ← peek (str "(");
  if (b : bool) then parseblock parseline else
  rs ← parseredirs (length s);
  x ← parseargs (length s) [] rs;
  mret (wrap (set_argv execcmd x.1) x.2).
Fixpoint parsepipe (fuel : nat) (parseline : M nat cmd) : M nat cmd :=
  c ← parseexec parseline;
  b ← peek (str "|");
  if (b : bool) then
    _ ← gettoken;
    match fuel with O => nofuel | S fuel' => r ← parsepipe fuel' parseline; mret (pipecmd c r) end
  else mret c.
(** [fuel] bounds the depth of blocks and the length of lists. *)
Fixpoint parseline (fuel : nat) : M nat cmd :=
  match fuel with
  | O => nofuel
  | S fuel' =>
      c ← parsepipe (length s) (parseline fuel');
      c ← parseback (length s) c;
      b ← peek (str ";");
      if (b : bool) then _ ← gettoken; r ← parseline fuel'; mret (listcmd c r) else mret c
  end.

(** The line with NULs stored; [buf] includes the NUL at the end. *)
Fixpoint nulterminate (c : cmd) (buf : list Z) : list Z :=
  match c with
  | EXEC argv => fold_left (λ buf (a : span), <[a.2 := 0]> buf) argv buf
  | REDIR c file _ _ => <[file.2 := 0]> (nulterminate c buf)
  | PIPE l r | LIST l r => nulterminate r (nulterminate l buf)
  | BACK c => nulterminate c buf
  end.

(** The command and the line it points into; or what is left of the line, which
    is printed before [panic("syntax")]. *)
Definition parsecmd : M nat (cmd * list Z + list Z) :=
  c ← parseline (S (length s));
  _ ← peek [];
  i ← gets id;
  if negb (Nat.eqb i (length s)) then mret (inr (drop i s)) else mret (inl (c, nulterminate c (s ++ [0]))).
End Parser.

(** ** The parser ends, with a well-formed command or an error *)

(** [m] returns a result with [Q] or panics. *)
Definition safe {A} (m : M nat A) (Q : A → nat → Prop) (i : nat) : Prop :=
  match m i with Ok a j => Q a j | Panic _ => True | _ => False end.

Section Safe.
Context {A B : Type}.
Lemma safe_bind (m : M nat A) (k : A → M nat B) Q i : safe m (λ a j, safe (k a) Q j) i → safe (a ← m; k a) Q i.
Proof. unfold safe. unfold mbind, M_bind. by destruct (m i). Qed.
Lemma safe_mono (m : M nat A) (P Q : A → nat → Prop) i : safe m P i → (∀ a j, P a j → Q a j) → safe m Q i.
Proof. unfold safe. destruct (m i); naive_solver. Qed.
Lemma safe_ret (a : A) (Q : A → nat → Prop) i : Q a i → safe (mret a) Q i.
Proof. done. Qed.
Lemma safe_panic msg (Q : A → nat → Prop) i : safe (panic msg) Q i.
Proof. done. Qed.
End Safe.

Lemma in_set_spec set c : 0 ∉ set → in_set set c = true ↔ c ∈ set.
Proof.
  unfold in_set. intros H0. induction set as [|x set IH]; simpl.
  - split; [done|]. by intros ?%not_elem_of_nil.
  - apply not_elem_of_cons in H0 as [Hx H0]. rewrite (proj2 (Z.eqb_neq x 0)) by done.
    destruct (Z.eqb_spec x c) as [->|Hne]; [split; [intros _; by left|done]|]. rewrite IH by done. rewrite elem_of_cons. naive_solver.
Qed.

Section Typing.
Context (s : list Z).

(** A span is a maximal word of the line. *)
Record tok_ok (t : span) : Prop := {
  tk_range : (t.1 < t.2 ≤ length s)%nat;
  tk_word : ∀ i c, (t.1 ≤ i < t.2)%nat → s !! i = Some c → wordchar c = true;
  tk_end : ∀ c, s !! t.2 = Some c → wordchar c = false }.
Definition redir_ok (r : redir) : Prop :=
  tok_ok r.1.1 ∧ (r.1.2 = O_RDONLY ∧ r.2 = 0 ∨ r.1.2 = Z.lor O_WRONLY O_CREATE ∧ r.2 = 1).
Fixpoint cmd_ok (c : cmd) : Prop :=
  match c with
  | EXEC argv => Forall tok_ok argv ∧ (length argv < MAXARGS)%nat
  | REDIR c file mode fd => cmd_ok c ∧ redir_ok (file, mode, fd)
  | PIPE l r | LIST l r => cmd_ok l ∧ cmd_ok r
  | BACK c => cmd_ok c
  end.

Lemma skip_while_le f l : (skip_while f l ≤ length l)%nat.
Proof. induction l as [|c l IH]; simpl; [done|]. destruct (f c); lia. Qed.
Lemma skip_while_in f l i c : (i < skip_while f l)%nat → l !! i = Some c → f c = true.
Proof.
  revert i. induction l as [|x l IH]; intros i Hi Hc; [done|]. simpl in Hi. destruct (f x) eqn:E; [|lia].
  destruct i as [|i]; [by injection Hc as ->|]. apply (IH i); [lia|done].
Qed.
Lemma skip_while_end f l c : l !! skip_while f l = Some c → f c = false.
Proof. induction l as [|x l IH]; [done|]. simpl. destruct (f x) eqn:E; [done|]. by intros [= ->]. Qed.

Lemma skip_space_le i : (i ≤ length s → i ≤ skip_space s i ≤ length s)%nat.
Proof. intros Hi. unfold skip_space. pose proof (skip_while_le is_space (drop i s)) as H. rewrite length_drop in H. lia. Qed.
Lemma char_at_lt i : char_at s i ≠ 0 → (i < length s)%nat.
Proof. unfold char_at. intros H. destruct (s !! i) eqn:E; [by eapply lookup_lt_Some|done]. Qed.
Lemma char_at_skip i : char_at s (skip_space s i) ≠ 0 → is_space (char_at s (skip_space s i)) = false.
Proof.
  unfold char_at, skip_space. intros H. destruct (s !! _) as [c|] eqn:E; [|done]. simpl.
  rewrite <- lookup_drop in E. by eapply skip_while_end.
Qed.

(** The span of a word that starts at [i]. *)
Lemma token_word i :
  char_at s i ≠ 0 → is_space (char_at s i) = false → is_symbol (char_at s i) = false →
  tok_ok (i, (i + skip_while wordchar (drop i s))%nat).
Proof.
  intros H0 Hs Hy. pose proof (char_at_lt i H0) as Hi. unfold char_at in *.
  destruct (lookup_lt_is_Some_2 s i Hi) as [c Hc]. rewrite Hc in *. simpl in *.
  pose proof (skip_while_le wordchar (drop i s)) as Hl. rewrite length_drop in Hl.
  assert (0 < skip_while wordchar (drop i s))%nat as Hpos.
  { rewrite (drop_S s c i Hc). simpl. unfold wordchar at 1. rewrite Hs, Hy. simpl. lia. }
  split; simpl.
  - lia.
  - intros j x Hj Hx. apply (skip_while_in wordchar (drop i s) (j - i)); [lia|]. rewrite lookup_drop. by replace (i + (j - i))%nat with j by lia.
  - intros x Hx. rewrite <- lookup_drop in Hx. by apply skip_while_end in Hx.
Qed.

Lemma not_symbol c : in_set (str "|();&<") c = false → c ≠ ch ">" → is_symbol c = false.
Proof.
  intros Ei Eg. apply not_true_iff_false. unfold is_symbol. rewrite in_set_spec by (vm_compute; set_solver). intros Hin.
  apply not_true_iff_false in Ei. rewrite in_set_spec in Ei by (vm_compute; set_solver). apply Ei.
  unfold symbols in Hin. vm_compute in Hin, Eg |- *. set_solver.
Qed.

Lemma safe_gettoken i (Q : Z * span → nat → Prop) :
  (i ≤ length s)%nat →
  (∀ ret q e j, (i ≤ q ≤ e)%nat → (e ≤ j ≤ length s)%nat → (ret ≠ 0 → (q < e)%nat) → (ret = ch "a" → tok_ok (q, e)) →
     Q (ret, (q, e)) j) → safe (gettoken s) Q i.
Proof.
  intros Hi HQ. unfold gettoken. apply safe_bind. unfold safe, gets, id. cbv zeta. pose proof (skip_space_le i Hi) as Hq.
  set (q := skip_space s i) in *. destruct (token s q) as [ret e] eqn:E. unfold mbind, M_bind, modify, mret, M_ret, obind.
  assert ((q ≤ e ≤ length s)%nat ∧ (ret ≠ 0 → (q < e)%nat) ∧ (ret = ch "a" → tok_ok (q, e))) as (He & Hp & Ha).
  2: { apply HQ; [lia| |done|done]. pose proof (skip_space_le e ltac:(lia)). lia. }
  unfold token in E. destruct (Z.eqb_spec (char_at s q) 0) as [E0|E0].
  { injection E as <- <-. rewrite E0. split; [lia|]. split; [done|]. done. }
  pose proof (char_at_lt q E0) as Hlt. pose proof (char_at_skip i E0) as Hsp. fold q in Hsp.
  destruct (in_set (str "|();&<") (char_at s q)) eqn:Ei.
  { injection E as <- <-. split; [lia|]. split; [lia|]. intros Ea. by rewrite Ea in Ei. }
  destruct (Z.eqb_spec (char_at s q) (ch ">")) as [Eg|Eg].
  { destruct (Z.eqb_spec (char_at s (S q)) (ch ">")) as [Eg2|Eg2]; injection E as <- <-.
    - assert (char_at s (S q) ≠ 0) as H2 by (by rewrite Eg2). apply char_at_lt in H2. split; [lia|]. split; [lia|]. done.
    - split; [lia|]. split; [lia|]. intros Ea. by rewrite Ea in Eg. }
  injection E as <- <-. assert (is_symbol (char_at s q) = false) as Hsy.
  { by apply not_symbol. }
  pose proof (token_word q E0 Hsp Hsy) as Ht. destruct Ht as [T1 T2 T3]. simpl in *.
  split; [lia|]. split; [lia|]. intros _. by split.
Qed.

Lemma safe_peek toks i (Q : bool → nat → Prop) :
  (i ≤ length s)%nat →
  (∀ b j, (i ≤ j ≤ length s)%nat → (b = true → (j < length s)%nat ∧ in_set toks (char_at s j) = true ∧ skip_space s j = j) → Q b j) →
  safe (peek s toks) Q i.
Proof.
  intros Hi HQ. unfold peek. apply safe_bind. unfold safe, gets, id. cbv zeta. pose proof (skip_space_le i Hi) as Hq.
  set (q := skip_space s i) in *. unfold mbind, M_bind, modify, mret, M_ret, obind. apply HQ; [done|].
  intros [H0%negb_true_iff%Z.eqb_neq Hin]%andb_true_iff. split; [by apply char_at_lt|]. split; [done|].
  unfold skip_space at 1. pose proof (char_at_lt q H0) as Hlt. destruct (lookup_lt_is_Some_2 s q Hlt) as [c Hc].
  rewrite (drop_S s c q Hc). simpl. pose proof (char_at_skip i H0) as Hs. fold q in Hs. unfold char_at in Hs. rewrite Hc in Hs. simpl in Hs.
  rewrite Hs. lia.
Qed.

(** A token that [peek] has seen is consumed. *)
Lemma safe_gettoken_seen i (Q : Z * span → nat → Prop) :
  (i < length s)%nat → char_at s i ≠ 0 → skip_space s i = i →
  (∀ ret q e j, (i < j ≤ length s)%nat → Q (ret, (q, e)) j) → safe (gettoken s) Q i.
Proof.
  intros Hi H0 Hs HQ. unfold gettoken. apply safe_bind. unfold safe, gets, id. cbv zeta. rewrite Hs.
  destruct (token s i) as [ret e] eqn:E. unfold mbind, M_bind, modify, mret, M_ret, obind. apply HQ.
  assert (i < e ≤ length s)%nat as He.
  { unfold token in E. rewrite (proj2 (Z.eqb_neq _ _) H0) in E.
    destruct (in_set (str "|();&<") (char_at s i)) eqn:Ei; [injection E as <- <-; lia|].
    destruct (Z.eqb_spec (char_at s i) (ch ">")) as [Eg|Eg].
    - destruct (Z.eqb_spec (char_at s (S i)) (ch ">")) as [Eg2|Eg2]; injection E as <- <-; [|lia].
      assert (char_at s (S i) ≠ 0) as H2 by (by rewrite Eg2). apply char_at_lt in H2. lia.
    - injection E as <- <-. pose proof (char_at_skip i) as Hsp. rewrite Hs in Hsp. specialize (Hsp H0).
      assert (is_symbol (char_at s i) = false) as Hsy by (by apply not_symbol). by destruct (token_word i H0 Hsp Hsy). }
  pose proof (skip_space_le e ltac:(lia)). lia.
Qed.

Lemma safe_parseredirs fuel i (Q : list redir → nat → Prop) :
  (i ≤ length s)%nat → (length s - i ≤ fuel)%nat →
  (∀ rs j, (i ≤ j ≤ length s)%nat → Forall redir_ok rs → Q rs j) → safe (parseredirs s fuel) Q i.
Proof.
  revert i Q. induction fuel as [|fuel IH]; intros i Q Hi Hf HQ; cbn [parseredirs]; apply safe_bind, safe_peek; try done.
  all: intros b j Hj Hb; destruct b; [|apply safe_ret, HQ; [done|constructor]]; destruct (Hb eq_refl) as (Hlt & Hin & Hsk).
  { lia. }
  assert (char_at s j ≠ 0) as H0 by (intros E; by rewrite E in Hin).
  apply safe_bind, safe_gettoken_seen; [done..|]. intros ret q e k Hk. apply safe_bind, safe_gettoken; [lia|].
  intros ret2 q2 e2 k2 Hq2 Hk2 Hp Ha. cbn [fst snd]. destruct (Z.eqb_spec ret2 (ch "a")) as [Ea|Ea]; [|apply safe_panic]. cbn [negb].
  apply safe_bind, IH; [lia|lia|]. intros rs k3 Hk3 Hrs. apply safe_ret, HQ; [lia|]. apply Forall_app. split; [|done].
  destruct (ret =? ch "<"); [|destruct ((ret =? ch ">") || (ret =? ch "+")); [|constructor]];
    (constructor; [|constructor]); split; simpl; auto.
Qed.

Lemma safe_parseargs fuel argv rs i (Q : list span * list redir → nat → Prop) :
  (i ≤ length s)%nat → (length s - i ≤ fuel)%nat → Forall tok_ok argv → (length argv < MAXARGS)%nat → Forall redir_ok rs →
  (∀ argv' rs' j, (i ≤ j ≤ length s)%nat → Forall tok_ok argv' → (length argv' < MAXARGS)%nat → Forall redir_ok rs' → Q (argv', rs') j) →
  safe (parseargs s fuel argv rs) Q i.
Proof.
  revert argv rs i Q. induction fuel as [|fuel IH]; intros argv rs i Q Hi Hf Ha Hn Hr HQ; cbn [parseargs]; apply safe_bind, safe_peek; try done.
  all: intros b j Hj _; destruct b; [apply safe_ret, HQ; done|]; apply safe_bind, safe_gettoken; [lia|];
    intros ret q e k Hq Hk Hp Hw; cbn [fst snd]; destruct (Z.eqb_spec ret 0) as [E0|E0]; [apply safe_ret, HQ; try done; lia|].
  all: specialize (Hp E0); destruct (Z.eqb_spec ret (ch "a")) as [Ea|Ea]; [|apply safe_panic]; cbn [negb]; cbv zeta.
  all: match goal with |- context [Nat.leb MAXARGS ?x] => destruct (Nat.leb_spec MAXARGS x) as [Hm|Hm] end; [apply safe_panic|].
  { lia. }
  apply safe_bind, safe_parseredirs; [lia|lia|]. intros rs' k2 Hk2 Hrs. apply IH; [lia|lia| |done|by apply Forall_app|].
  - apply Forall_app. split; [done|]. constructor; [by apply Hw|constructor].
  - intros argv' rs2 j2 Hj2 H1 H2 H3. apply HQ; [lia|done..].
Qed.

Lemma wrap_ok c rs : cmd_ok c → Forall redir_ok rs → cmd_ok (wrap c rs).
Proof.
  intros Hc Hrs. revert c Hc. induction Hrs as [|[[f m] d] rs Hr Hrs IH]; intros c Hc; [done|]. simpl. apply IH. by split.
Qed.

Lemma safe_parseback fuel c i (Q : cmd → nat → Prop) :
  (i ≤ length s)%nat → (length s - i ≤ fuel)%nat → cmd_ok c →
  (∀ c' j, (i ≤ j ≤ length s)%nat → cmd_ok c' → Q c' j) → safe (parseback s fuel c) Q i.
Proof.
  revert c i Q. induction fuel as [|fuel IH]; intros c i Q Hi Hf Hc HQ; cbn [parseback]; apply safe_bind, safe_peek; try done.
  all: intros b j Hj Hb; destruct b; [|by apply safe_ret, HQ]; destruct (Hb eq_refl) as (Hlt & Hin & Hsk).
  { lia. }
  assert (char_at s j ≠ 0) as H0 by (intros E; by rewrite E in Hin).
  apply safe_bind, safe_gettoken_seen; [done..|]. intros ret q e k Hk. apply IH; [lia|lia|done|]. intros c' j' Hj'. apply HQ. lia.
Qed.

(** What the recursive calls need: [parse] works from every later position. *)
Definition parses (parse : M nat cmd) (i : nat) : Prop :=
  ∀ k (Q : cmd → nat → Prop), (i < k ≤ length s)%nat → (∀ c j, (k ≤ j ≤ length s)%nat → cmd_ok c → Q c j) → safe parse Q k.

Lemma safe_parseexec parse i (Q : cmd → nat → Prop) :
  (i ≤ length s)%nat → parses parse i → (∀ c j, (i ≤ j ≤ length s)%nat → cmd_ok c → Q c j) → safe (parseexec s parse) Q i.
Proof.
  intros Hi Hp HQ. unfold parseexec. apply safe_bind, safe_peek; [done|]. intros b j Hj Hb. destruct b.
  - unfold parseblock. apply safe_bind, safe_peek; [lia|]. intros b k Hk Hb'. destruct b; [|apply safe_panic]. cbn [negb].
    destruct (Hb' eq_refl) as (Hlt & Hin & Hsk). assert (char_at s k ≠ 0) as H0 by (intros E; by rewrite E in Hin).
    apply safe_bind, safe_gettoken_seen; [done..|]. intros ret q e k2 Hk2. apply safe_bind, Hp; [lia|]. intros c k3 Hk3 Hc.
    apply safe_bind, safe_peek; [lia|]. intros b k4 Hk4 Hb4. destruct b; [|apply safe_panic]. cbn [negb].
    apply safe_bind, safe_gettoken; [lia|]. intros ret' q' e' k5 Hq5 Hk5 _ _. apply safe_bind, safe_parseredirs; [lia|lia|].
    intros rs k6 Hk6 Hrs. apply safe_ret, HQ; [lia|]. by apply wrap_ok.
  - apply safe_bind, safe_parseredirs; [lia|lia|]. intros rs k Hk Hrs. apply safe_bind, safe_parseargs; [lia|lia|constructor|unfold MAXARGS; simpl; lia|done|].
    intros argv rs' k2 Hk2 Ha Hn Hr. apply safe_ret, HQ; [lia|]. by apply wrap_ok.
Qed.

Lemma parses_later parse i j : parses parse i → (i ≤ j)%nat → parses parse j.
Proof. intros Hp Hij k Q Hk. apply Hp. lia. Qed.

Lemma safe_parsepipe fuel parse i (Q : cmd → nat → Prop) :
  (i ≤ length s)%nat → (length s - i ≤ fuel)%nat → parses parse i → (∀ c j, (i ≤ j ≤ length s)%nat → cmd_ok c → Q c j) →
  safe (parsepipe s fuel parse) Q i.
Proof.
  revert i Q. induction fuel as [|fuel IH]; intros i Q Hi Hf Hp HQ; cbn [parsepipe]; apply safe_bind, safe_parseexec; try done.
  all: intros c j Hj Hc; apply safe_bind, safe_peek; [lia|]; intros b k Hk Hb; destruct b; [|apply safe_ret, HQ; [lia|done]].
  all: destruct (Hb eq_refl) as (Hlt & Hin & Hsk).
  { lia. }
  assert (char_at s k ≠ 0) as H0 by (intros E; by rewrite E in Hin).
  apply safe_bind, safe_gettoken_seen; [done..|]. intros ret q e k2 Hk2. apply safe_bind, IH; [lia|lia|apply (parses_later _ i); [done|lia]|].
  intros r k3 Hk3 Hr. apply safe_ret, HQ; [lia|done].
Qed.

Lemma safe_parseline fuel i (Q : cmd → nat → Prop) :
  (i ≤ length s)%nat → (length s - i < fuel)%nat → (∀ c j, (i ≤ j ≤ length s)%nat → cmd_ok c → Q c j) → safe (parseline s fuel) Q i.
Proof.
  revert i Q. induction fuel as [|fuel IH]; intros i Q Hi Hf HQ; [lia|]. cbn [parseline].
  apply safe_bind, safe_parsepipe; [done|lia|intros k Q' Hk; apply IH; lia|]. intros c j Hj Hc.
  apply safe_bind, safe_parseback; [lia|lia|done|]. intros c' k Hk Hc'. apply safe_bind, safe_peek; [lia|]. intros b k2 Hk2 Hb.
  destruct b; [|apply safe_ret, HQ; [lia|done]]. destruct (Hb eq_refl) as (Hlt & Hin & Hsk).
  assert (char_at s k2 ≠ 0) as H0 by (intros E; by rewrite E in Hin).
  apply safe_bind, safe_gettoken_seen; [done..|]. intros ret q e k3 Hk3. apply safe_bind, IH; [lia|lia|]. intros r k4 Hk4 Hr.
  apply safe_ret, HQ; [lia|done].
Qed.
End Typing.

(** ** The strings of a command *)

(** A command with its strings. *)
Inductive scmd :=
| SEXEC (argv : list (list Z))
| SREDIR (c : scmd) (file : list Z) (mode fd : Z)
| SPIPE (left right : scmd)
| SLIST (left right : scmd)
| SBACK (c : scmd).
Fixpoint strings (f : span → list Z) (c : cmd) : scmd :=
  match c with
  | EXEC argv => SEXEC (f <$> argv)
  | REDIR c file mode fd => SREDIR (strings f c) (f file) mode fd
  | PIPE l r => SPIPE (strings f l) (strings f r)
  | LIST l r => SLIST (strings f l) (strings f r)
  | BACK c => SBACK (strings f c)
  end.
(** What the start pointers point to, and what the parser meant. *)
Definition pointed (buf : list Z) : cmd → scmd := strings (λ t, upto0 (drop t.1 buf)).
Definition meant (s : list Z) : cmd → scmd := strings (λ t, slice t.1 (t.2 - t.1) s).

Fixpoint spans (c : cmd) : list span :=
  match c with
  | EXEC argv => argv
  | REDIR c file _ _ => file :: spans c
  | PIPE l r | LIST l r => spans l ++ spans r
  | BACK c => spans c
  end.

Section Strings.
Context (s : list Z).
Implicit Types (c : cmd) (buf : list Z) (t : span).

Lemma length_nulterminate c buf : length (nulterminate c buf) = length buf.
Proof.
  revert buf. induction c as [argv|c IH f m d|l IHl r IHr|l IHl r IHr|c IH]; intros buf; simpl.
  - revert buf. induction argv as [|a argv IH]; intros buf; [done|]. simpl. by rewrite IH, length_insert.
  - by rewrite length_insert.
  - by rewrite IHr.
  - by rewrite IHr.
  - done.
Qed.

Lemma lookup_nulterminate c buf i :
  (i < length buf)%nat → nulterminate c buf !! i = if decide (i ∈ (spans c).*2) then Some 0 else buf !! i.
Proof.
  assert (∀ x (l : list nat) b, (if decide (i ∈ x :: l) then Some 0 else b) = if decide (i = x) then Some 0 else if decide (i ∈ l) then Some 0 else b :> option Z) as Hcons.
  { intros x l b. destruct (decide (i = x)) as [->|Hne]; [rewrite decide_True by left; done|].
    destruct (decide (i ∈ l)); [by rewrite decide_True by (by right)|]. rewrite decide_False; [done|]. intros [|]%elem_of_cons; done. }
  revert buf. induction c as [argv|c IH f m d|l IHl r IHr|l IHl r IHr|c IH]; intros buf Hi; simpl.
  - revert buf Hi. induction argv as [|a argv IH]; intros buf Hi; [done|]. simpl. rewrite IH, Hcons by (by rewrite length_insert).
    change (list_fmap _ _ snd argv) with (argv.*2).
    destruct (decide (i ∈ argv.*2)); [by case_decide|]. case_decide as E; [subst; by apply list_lookup_insert_eq|by apply list_lookup_insert_ne].
  - rewrite Hcons. destruct (decide (i = f.2)) as [->|Hne]; [by apply list_lookup_insert_eq; rewrite length_nulterminate|].
    rewrite list_lookup_insert_ne by done. by apply IH.
  - rewrite IHr, IHl by (by rewrite ?length_nulterminate). rewrite fmap_app. repeat case_decide; set_solver.
  - rewrite IHr, IHl by (by rewrite ?length_nulterminate). rewrite fmap_app. repeat case_decide; set_solver.
  - by apply IH.
Qed.

Lemma cmd_ok_spans c : cmd_ok s c → Forall (tok_ok s) (spans c).
Proof.
  induction c as [argv|c IH f m d|l IHl r IHr|l IHl r IHr|c IH]; simpl.
  - by intros [? _].
  - intros [Hc [Hf _]]. constructor; [done|by apply IH].
  - intros [? ?]. apply Forall_app. auto.
  - intros [? ?]. apply Forall_app. auto.
  - done.
Qed.

Lemma strings_ext f g c : (∀ t, t ∈ spans c → f t = g t) → strings f c = strings g c.
Proof.
  induction c as [argv|c IH fl m d|l IHl r IHr|l IHl r IHr|c IH]; simpl; intros H.
  - f_equal. apply list_fmap_ext. intros j t Ht. apply H. by eapply list_elem_of_lookup_2.
  - rewrite IH by (intros t Ht; apply H; by right). by rewrite H by left.
  - by rewrite IHl, IHr by (intros t Ht; apply H, elem_of_app; auto).
  - by rewrite IHl, IHr by (intros t Ht; apply H, elem_of_app; auto).
  - by rewrite IH.
Qed.

Lemma upto0_end w r : Forall (λ x, x ≠ 0) w → upto0 (w ++ 0 :: r) = w.
Proof. intros Hw. rewrite upto0_app by done. simpl. by rewrite app_nil_r. Qed.

(** No end pointer falls inside a word, so overwriting the ends leaves the words. *)
Lemma nulterminate_meant c : Forall (λ x, x ≠ 0) s → cmd_ok s c → pointed (nulterminate c (s ++ [0])) c = meant s c.
Proof.
  intros Hs Hc. apply cmd_ok_spans in Hc. apply strings_ext. intros t Ht. rewrite Forall_forall in Hc.
  destruct (Hc t Ht) as [Hr Hw He]. set (buf := nulterminate c (s ++ [0])).
  assert (length buf = length s + 1)%nat as Hl by (unfold buf; by rewrite length_nulterminate, length_app).
  assert (drop t.1 buf = slice t.1 (t.2 - t.1) s ++ 0 :: drop (S t.2) buf) as ->; [|apply upto0_end, Forall_take, Forall_drop, Hs].
  apply list_eq. intros k. assert (length (slice t.1 (t.2 - t.1) s) = t.2 - t.1)%nat as Hsl by (apply length_slice; lia).
  rewrite lookup_drop. destruct (Nat.lt_trichotomy k (t.2 - t.1)) as [Hk|[Hk|Hk]].
  - rewrite lookup_app_l by lia. unfold slice. rewrite lookup_take_lt, lookup_drop by lia.
    unfold buf. rewrite lookup_nulterminate by (rewrite length_app; simpl; lia).
    destruct (lookup_lt_is_Some_2 s (t.1 + k)%nat) as [x Hx]; [lia|].
    rewrite decide_False; [by rewrite lookup_app_l by lia|].
    intros ([q e] & E & Hin)%list_elem_of_fmap. simpl in E. subst e. destruct (Hc _ Hin) as [_ _ He']. simpl in He'.
    pose proof (He' x Hx) as Hf. by rewrite (Hw (t.1 + k)%nat x) in Hf by (done || lia).
  - subst k. rewrite lookup_app_r, Hsl, Nat.sub_diag by lia. replace (t.1 + (t.2 - t.1))%nat with t.2 by lia. simpl.
    unfold buf. rewrite lookup_nulterminate by (rewrite length_app; simpl; lia). rewrite decide_True; [done|].
    apply list_elem_of_fmap. by exists t.
  - rewrite lookup_app_r, Hsl by lia. destruct (k - (t.2 - t.1))%nat as [|j] eqn:Ej; [lia|]. simpl. rewrite lookup_drop. f_equal. lia.
Qed.
End Strings.

(** ** Every command can be typed *)

(** How to write a command: words and symbols are each followed by a blank, and
    a command stands in parentheses where the grammar needs it.  Levels: 0 for
    [parseline], 1 for its part before [;], 2 for [parsepipe], 3 for [parseexec]. *)
Definition BL : Z := ch " ".
Definition showword (w : list Z) : list Z := w ++ [BL].
Abbreviation sredir := (list Z * Z * Z)%type.
Definition showredir (r : sredir) : list Z := (if r.2 =? 0 then str "< " else str "> ") ++ showword r.1.1.
Definition showredirs (rs : list sredir) : list Z := concat (map showredir rs).
Definition paren (b : bool) (x : list Z) : list Z := if b then str "( " ++ x ++ str ") " else x.
Fixpoint show (lv : nat) (c : scmd) : list Z :=
  match c with
  | SEXEC argv => concat (map showword argv)
  | SREDIR c f m d => show 3 c ++ showredir (f, m, d)
  | SPIPE l r => paren (Nat.leb 3 lv) (show 3 l ++ str "| " ++ show 2 r)
  | SBACK c => paren (Nat.leb 2 lv) (show 1 c ++ str "& ")
  | SLIST l r => paren (Nat.leb 1 lv) (show 1 l ++ str "; " ++ show 0 r)
  end.
Definition swrap (c : scmd) (rs : list sredir) : scmd := fold_left (λ c (r : sredir), SREDIR c r.1.1 r.1.2 r.2) rs c.

(** Commands the shell can represent. *)
Definition word_ok (w : list Z) : Prop := w ≠ [] ∧ Forall (λ x, wordchar x = true ∧ x ≠ 0) w.
Definition sredir_ok (r : sredir) : Prop :=
  word_ok r.1.1 ∧ (r.1.2 = O_RDONLY ∧ r.2 = 0 ∨ r.1.2 = Z.lor O_WRONLY O_CREATE ∧ r.2 = 1).
Fixpoint scmd_ok (c : scmd) : Prop :=
  match c with
  | SEXEC argv => Forall word_ok argv ∧ (length argv < MAXARGS)%nat
  | SREDIR c f m d => scmd_ok c ∧ sredir_ok (f, m, d)
  | SPIPE l r | SLIST l r => scmd_ok l ∧ scmd_ok r
  | SBACK c => scmd_ok c
  end.

(** The same, decided. *)
Definition word_okb (w : list Z) : bool := negb (bool_decide (w = [])) && forallb (λ x, wordchar x && negb (x =? 0)) w.
Fixpoint scmd_okb (c : scmd) : bool :=
  match c with
  | SEXEC argv => forallb word_okb argv && Nat.ltb (length argv) MAXARGS
  | SREDIR c f m d => scmd_okb c && (word_okb f && ((m =? O_RDONLY) && (d =? 0) || (m =? Z.lor O_WRONLY O_CREATE) && (d =? 1)))
  | SPIPE l r | SLIST l r => scmd_okb l && scmd_okb r
  | SBACK c => scmd_okb c
  end.
Lemma word_okb_ok w : word_okb w = true → word_ok w.
Proof.
  intros [Hn%negb_true_iff%bool_decide_eq_false Hf]%andb_true_iff. rewrite forallb_forall in Hf. split; [done|].
  apply Forall_forall. intros x Hx. apply list_elem_of_In, Hf, andb_true_iff in Hx as [? ?%negb_true_iff%Z.eqb_neq]. done.
Qed.
Lemma scmd_okb_ok c : scmd_okb c = true → scmd_ok c.
Proof.
  induction c as [argv|c IH f m d|l IHl r IHr|l IHl r IHr|c IH]; simpl; rewrite ?andb_true_iff, ?orb_true_iff, ?andb_true_iff, ?Z.eqb_eq, ?Nat.ltb_lt.
  - rewrite forallb_forall. intros [Hw Hn]. split; [|done]. apply Forall_forall. intros w Hin. by apply word_okb_ok, Hw, list_elem_of_In.
  - intros (Hc & Hw & Hr). split; [auto|]. split; [by apply word_okb_ok|]. done.
  - intros [? ?]; auto.
  - intros [? ?]; auto.
  - done.
Qed.

(** The next character is not a blank. *)
Definition clean (r : list Z) : Prop := match r with [] => True | x :: _ => is_space x = false ∧ x ≠ 0 end.
(** The end, or one of the given symbols. *)
Definition stop (toks r : list Z) : Prop := match r with [] => True | x :: _ => x ∈ toks end.

Section Typed.
Context (s : list Z).
Implicit Types (i j : nat) (r w : list Z).

Lemma char_drop i x r : drop i s = x :: r → char_at s i = x ∧ drop (S i) s = r ∧ (i < length s)%nat.
Proof.
  intros E. assert (s !! i = Some x) as Hi by (replace i with (i + 0)%nat by lia; rewrite <- lookup_drop, E; done).
  unfold char_at. rewrite Hi. split; [done|]. pose proof (lookup_lt_Some _ _ _ Hi). split; [|done].
  rewrite (drop_S s x i Hi) in E. by injection E.
Qed.
Lemma skip_clean i : clean (drop i s) → skip_space s i = i.
Proof. unfold skip_space. destruct (drop i s) as [|x r]; simpl; [lia|]. intros [-> _]. lia. Qed.
Lemma skip_blank i r : drop i s = BL :: r → clean r → skip_space s i = S i ∧ drop (S i) s = r.
Proof.
  intros E Hc. destruct (char_drop i BL r E) as (_ & E' & _). split; [|done]. unfold skip_space. rewrite E.
  change (skip_while is_space (BL :: r)) with (S (skip_while is_space r)). destruct r as [|x r]; simpl; [lia|].
  destruct Hc as [-> _]. lia.
Qed.

Lemma wp_peek toks i (Q : bool → nat → Prop) :
  clean (drop i s) → Q (match drop i s with [] => false | x :: _ => in_set toks x end) i → wp (peek s toks) Q i.
Proof.
  intros Hc HQ. unfold peek, wp, gets, id, modify, mbind, M_bind, obind, mret, M_ret. cbv zeta. rewrite (skip_clean i Hc).
  destruct (drop i s) as [|x r] eqn:E.
  - assert (char_at s i = 0) as ->; [|done]. unfold char_at. rewrite lookup_ge_None_2; [done|].
    apply (f_equal length) in E. rewrite length_drop in E. simpl in E. lia.
  - destruct (char_drop i x r E) as (-> & _). destruct Hc as [_ H0]. by rewrite (proj2 (Z.eqb_neq _ _) H0).
Qed.

(** A symbol and its blank. *)
Lemma wp_symbol i x r (Q : Z * span → nat → Prop) :
  drop i s = x :: BL :: r → x ∈ str "|();&<>" → clean r →
  (∀ t j, drop j s = r → j = (i + 2)%nat → Q (x, t) j) → wp (gettoken s) Q i.
Proof.
  intros E Hx Hc HQ. destruct (char_drop i x _ E) as (Ex & E1 & Hl). destruct (skip_blank (S i) r E1 Hc) as [Es E2].
  destruct (char_drop _ _ _ E1) as (Ebl & _).
  assert (is_space x = false ∧ x ≠ 0) as [Hs H0].
  { vm_compute in Hx. repeat (apply elem_of_cons in Hx as [->|Hx]; [done|]). by apply not_elem_of_nil in Hx. }
  unfold gettoken, wp, gets, id, modify, mbind, M_bind, obind, mret, M_ret. cbv zeta. rewrite skip_clean by (rewrite E; done).
  assert (token s i = (x, S i)) as ->.
  { unfold token. rewrite Ex, (proj2 (Z.eqb_neq _ _) H0), Ebl. vm_compute in Hx.
    repeat (apply elem_of_cons in Hx as [->|Hx]; [done|]). by apply not_elem_of_nil in Hx. }
  rewrite Es. apply HQ; [done|lia].
Qed.

Lemma skip_word w r : Forall (λ x, wordchar x = true ∧ x ≠ 0) w → skip_while wordchar (w ++ BL :: r) = length w.
Proof. induction 1 as [|x w [Hx _] Hw IH]; [done|]. simpl. by rewrite Hx, IH. Qed.
Lemma wordchar_head x : wordchar x = true → is_space x = false ∧ is_symbol x = false.
Proof. unfold wordchar. intros [?%negb_true_iff ?%negb_true_iff]%andb_true_iff. done. Qed.

Lemma word_not_symbol toks x : toks ⊆ symbols → 0 ∉ toks → wordchar x = true → in_set toks x = false.
Proof.
  intros Hs H0 [_ Hy]%wordchar_head. apply not_true_iff_false in Hy. apply not_true_iff_false. unfold is_symbol in Hy.
  rewrite in_set_spec in Hy by (vm_compute; set_solver). rewrite in_set_spec by done. intros Hin. by apply Hy, Hs.
Qed.
Lemma word_not_redir x : wordchar x = true → in_set (str "<>") x = false.
Proof. apply word_not_symbol; vm_compute; set_solver. Qed.
Lemma word_not_open x : wordchar x = true → in_set (str "(") x = false.
Proof. apply word_not_symbol; vm_compute; set_solver. Qed.

(** A word and its blank. *)
Lemma wp_word i w r (Q : Z * span → nat → Prop) :
  drop i s = showword w ++ r → word_ok w → clean r →
  (∀ t j, slice t.1 (t.2 - t.1) s = w → drop j s = r → Q (ch "a", t) j) → wp (gettoken s) Q i.
Proof.
  unfold showword. rewrite <- app_assoc. simpl app. intros E [Hne Hw] Hc HQ. destruct w as [|x w]; [done|].
  pose proof Hw as [[Hx H0] _]%Forall_cons. apply wordchar_head in Hx as [Hs Hy].
  destruct (char_drop i x _ E) as (Ex & _ & Hl).
  assert (token s i = (ch "a", (i + length (x :: w))%nat)) as Et.
  { unfold token. rewrite Ex, (proj2 (Z.eqb_neq _ _) H0), E, (skip_word (x :: w) r Hw).
    apply not_true_iff_false in Hy. unfold is_symbol in Hy. rewrite in_set_spec in Hy by (vm_compute; set_solver).
    destruct (in_set (str "|();&<") x) eqn:Ei.
    { apply in_set_spec in Ei; [|vm_compute; set_solver]. exfalso. apply Hy. unfold symbols. vm_compute in Ei |- *. set_solver. }
    destruct (Z.eqb_spec x (ch ">")) as [->|]; [|done]. exfalso. apply Hy. vm_compute. set_solver. }
  assert (drop (i + length (x :: w)) s = BL :: r) as E1 by (rewrite <- drop_drop, E; apply drop_app_length).
  destruct (skip_blank _ r E1 Hc) as [Es E2].
  unfold gettoken, wp, gets, id, modify, mbind, M_bind, obind, mret, M_ret. cbv zeta. rewrite skip_clean by (rewrite E; done).
  rewrite Et, Es. apply HQ; [|done]. cbn [fst snd]. unfold slice. rewrite E.
  replace (i + length (x :: w) - i)%nat with (length (x :: w)) by lia. apply take_app_length.
Qed.

Lemma clean_cons x r : is_space x = false → x ≠ 0 → clean (x :: r).
Proof. by split. Qed.
Lemma clean_app x r : (x ≠ [] → clean x) → clean r → clean (x ++ r).
Proof. destruct x; [done|]. intros Hx _. by apply Hx. Qed.
Lemma clean_word w r : word_ok w → clean (w ++ r).
Proof. intros [Hne Hw]. destruct w as [|x w]; [done|]. inversion Hw as [|? ? [Hx H0] _]; subst. apply wordchar_head in Hx as [Hs _]. done. Qed.
Lemma clean_redirs rs r : clean r → clean (showredirs rs ++ r).
Proof. destruct rs as [|[[f m] d] rs]; [done|]. intros _. unfold showredirs, showredir. simpl. by destruct (d =? 0). Qed.
Lemma clean_stop toks r : stop toks r → toks ⊆ str "|();&<>" → clean r.
Proof.
  intros Hs Ht. destruct r as [|x r]; [done|]. simpl in *. apply Ht in Hs. vm_compute in Hs.
  repeat (apply elem_of_cons in Hs as [->|Hs]; [done|]). by apply not_elem_of_nil in Hs.
Qed.
Lemma clean_show lv c r : scmd_ok c → clean r → clean (show lv c ++ r).
Proof.
  revert lv r. induction c as [argv|c IH f m d|l IHl r' IHr|l IHl r' IHr|c IH]; intros lv r Hc Hr; cbn [show scmd_ok] in *.
  - destruct Hc as [Hw _]. destruct argv as [|w argv]; [done|]. inversion Hw; subst. simpl. unfold showword.
    rewrite <- !app_assoc. by apply clean_word.
  - rewrite <- app_assoc. apply IH; [apply Hc|]. apply (clean_redirs [(f, m, d)]) in Hr. unfold showredirs in Hr. simpl in Hr. by rewrite app_nil_r in Hr.
  - unfold paren. destruct (Nat.leb 3 lv); [by apply clean_cons|]. rewrite <- !app_assoc. apply IHl; [apply Hc|by apply clean_cons].
  - unfold paren. destruct (Nat.leb 1 lv); [by apply clean_cons|]. rewrite <- !app_assoc. apply IHl; [apply Hc|by apply clean_cons].
  - unfold paren. destruct (Nat.leb 2 lv); [by apply clean_cons|]. rewrite <- !app_assoc. apply IH; [apply Hc|by apply clean_cons].
Qed.

(** The redirections of a command, as spans of the line. *)
Definition meantredir (x : redir) : sredir := (slice x.1.1.1 (x.1.1.2 - x.1.1.1) s, x.1.2, x.2).
Lemma meant_wrap c rs : meant s (wrap c rs) = swrap (meant s c) (meantredir <$> rs).
Proof. revert c. induction rs as [|[[f m] d] rs IH]; intros c; [done|]. simpl. by rewrite IH. Qed.

Lemma showredirs_cons f m d rs :
  showredirs ((f, m, d) :: rs) = (if d =? 0 then ch "<" else ch ">") :: BL :: showword f ++ showredirs rs.
Proof. unfold showredirs, showredir. simpl. rewrite <- !app_assoc. by destruct (d =? 0). Qed.
Lemma wp_parseredirs fuel i rs r (Q : list redir → nat → Prop) :
  drop i s = showredirs rs ++ r → Forall sredir_ok rs → clean r → stop (str "|)&;") r ∨ (∃ w r', word_ok w ∧ r = showword w ++ r') →
  (length (showredirs rs) ≤ fuel)%nat →
  (∀ rs' j, meantredir <$> rs' = rs → drop j s = r → Q rs' j) → wp (parseredirs s fuel) Q i.
Proof.
  revert i rs Q. induction fuel as [|fuel IH]; intros i rs Q E Hrs Hc Hst Hf HQ; cbn [parseredirs]; apply wp_bind, wp_peek;
    try (rewrite E; by apply clean_redirs); rewrite E.
  all: destruct rs as [|[[f m] d] rs].
  1,3: assert (match showredirs [] ++ r with [] => false | x :: _ => in_set (str "<>") x end = false) as -> by
    (simpl; destruct r as [|x r]; [done|]; destruct Hst as [Hst|(w & r' & [Hw0 Hw] & Er)]; simpl in *;
      [vm_compute in Hst; repeat (apply elem_of_cons in Hst as [->|Hst]; [done|]); by apply not_elem_of_nil in Hst|
       destruct w as [|y w]; [done|]; injection Er as -> _; inversion Hw as [|? ? [Hy _] _]; subst; by apply word_not_redir]);
    apply wp_ret, HQ; done.
  { exfalso. rewrite showredirs_cons in Hf. simpl in Hf. lia. }
  inversion Hrs as [|? ? [Hw Hmd] Hrs']; subst. cbn [fst snd] in Hw, Hmd.
  assert (showredirs ((f, m, d) :: rs) ++ r = (if d =? 0 then ch "<" else ch ">") :: BL :: showword f ++ showredirs rs ++ r) as Es.
  { rewrite showredirs_cons. simpl. by rewrite <- app_assoc. }
  rewrite Es in E |- *. assert (in_set (str "<>") (if d =? 0 then ch "<" else ch ">") = true) as -> by (by destruct (d =? 0)).
  assert (clean (showredirs rs ++ r)) as Hcr by (by apply clean_redirs).
  apply wp_bind. eapply wp_symbol; [exact E|destruct (d =? 0); vm_compute; set_solver|unfold showword; rewrite <- app_assoc; by apply clean_word|].
  intros t j Ej _. apply wp_bind. eapply wp_word; [exact Ej|done|done|]. intros t2 k Ht2 Ek. cbn [fst snd].
  rewrite Z.eqb_refl. cbn [negb]. apply wp_bind. eapply (IH k rs); [exact Ek|done|done|done| |].
  { rewrite showredirs_cons in Hf. cbn [length] in Hf. rewrite length_app in Hf. lia. }
  intros rs' j' Hm Ej'. apply wp_ret, HQ; [|done]. rewrite fmap_app, Hm. f_equal. unfold meantredir. destruct Hmd as [[-> ->]|[-> ->]]; simpl; by rewrite Ht2.
Qed.

Definition showargs (ws : list (list Z)) : list Z := concat (map showword ws).
Lemma showargs_cons w ws : showargs (w :: ws) = showword w ++ showargs ws.
Proof. done. Qed.
Definition word_at (t : span) : list Z := slice t.1 (t.2 - t.1) s.
Lemma stop_clean r : stop (str "|)&;") r → clean r.
Proof. intros Hs. eapply clean_stop; [exact Hs|]. vm_compute. set_solver. Qed.
Lemma drop_length i x : drop i s = x → (length x ≤ length s)%nat.
Proof. intros <-. rewrite length_drop. lia. Qed.

Lemma peek_args r (ws : list (list Z)) : Forall word_ok ws → stop (str "|)&;") r →
  match showargs ws ++ r with [] => false | x :: _ => in_set (str "|)&;") x end =
  match ws, r with [], _ :: _ => true | _, _ => false end.
Proof.
  intros Hw Hr. destruct ws as [|w ws]; simpl.
  - destruct r as [|x r]; [done|]. simpl in Hr. apply in_set_spec; [vm_compute; set_solver|done].
  - inversion Hw as [|? ? [Hne Hx] _]; subst. destruct w as [|x w]; [done|]. simpl. inversion Hx as [|? ? [Hc _] _]; subst.
    apply wordchar_head in Hc as [_ Hy]. apply not_true_iff_false in Hy. apply not_true_iff_false. unfold is_symbol in Hy.
    rewrite in_set_spec in Hy |- * by (vm_compute; set_solver). intros Hin. apply Hy. unfold symbols. vm_compute in Hin |- *. set_solver.
Qed.

Lemma wp_gettoken_end i (Q : Z * span → nat → Prop) : drop i s = [] → (∀ t, Q (0, t) i) → wp (gettoken s) Q i.
Proof.
  intros E HQ. assert (clean (drop i s)) as Hc by (by rewrite E).
  assert (char_at s i = 0) as E0.
  { unfold char_at. rewrite lookup_ge_None_2; [done|]. apply (f_equal length) in E. rewrite length_drop in E. simpl in E. lia. }
  unfold gettoken, wp, gets, id, modify, mbind, M_bind, obind, mret, M_ret. cbv zeta. rewrite (skip_clean i Hc).
  unfold token. rewrite E0. simpl. rewrite (skip_clean i Hc). apply HQ.
Qed.

Lemma wp_parseargs fuel argv0 rs0 i ws rs r (Q : list span * list redir → nat → Prop) :
  drop i s = showargs ws ++ showredirs rs ++ r → Forall word_ok ws → Forall sredir_ok rs → (ws = [] → rs = []) → stop (str "|)&;") r →
  (length argv0 + length ws < MAXARGS)%nat → (length (showargs ws) ≤ fuel)%nat →
  (∀ argv' rs' j, word_at <$> argv' = (word_at <$> argv0) ++ ws → meantredir <$> rs' = (meantredir <$> rs0) ++ rs →
     drop j s = r → Q (argv', rs') j) → wp (parseargs s fuel argv0 rs0) Q i.
Proof.
  revert argv0 rs0 i ws rs Q. induction fuel as [|fuel IH]; intros argv0 rs0 i ws rs Q E Hws Hrs Hnil Hst Hn Hf HQ; cbn [parseargs].
  all: pose proof (stop_clean r Hst) as Hc; destruct ws as [|w ws].
  2: { rewrite showargs_cons in Hf. unfold showword in Hf. rewrite !length_app in Hf. simpl in Hf. lia. }
  1,2: rewrite Hnil in * by done; simpl in E; apply wp_bind, wp_peek; [by rewrite E|]; rewrite E; destruct r as [|x r].
  1,3: apply wp_bind, wp_gettoken_end; [done|]; intros t; cbn [fst]; simpl; apply wp_ret; apply HQ; by rewrite ?app_nil_r.
  1,2: simpl in Hst; rewrite (proj2 (in_set_spec (str "|)&;") x ltac:(vm_compute; set_solver)) Hst); apply wp_ret; apply HQ; by rewrite ?app_nil_r.
  inversion Hws as [|? ? Hw Hws']; subst.
  assert (drop i s = showword w ++ showargs ws ++ showredirs rs ++ r) as E' by (rewrite E; unfold showargs; simpl; by rewrite <- app_assoc).
  assert (clean (showargs ws ++ showredirs rs ++ r)) as Hc2.
  { destruct ws as [|w2 ws]; [simpl; by apply clean_redirs|]. inversion Hws'; subst. unfold showargs, showword. simpl. rewrite <- !app_assoc. by apply clean_word. }
  apply wp_bind, wp_peek; [rewrite E'; unfold showword; rewrite <- app_assoc; by apply clean_word|].
  assert (match drop i s with [] => false | x :: _ => in_set (str "|)&;") x end = false) as ->.
  { pose proof (peek_args [] [w] ltac:(by constructor) ltac:(done)) as Hp. unfold showargs in Hp. simpl in Hp. rewrite E'.
    destruct w as [|x w]; [by destruct Hw|]. exact Hp. }
  apply wp_bind. eapply wp_word; [exact E'|done|done|]. intros t j Ht Ej. cbn [fst snd]. change (ch "a" =? 0) with false. rewrite Z.eqb_refl. cbn [negb].
  assert (length (argv0 ++ [t]) + length ws < MAXARGS)%nat as Hn' by (rewrite length_app; simpl in *; lia).
  cbv zeta. rewrite (proj2 (Nat.leb_gt _ _)) by lia.
  assert (length (showargs ws) ≤ fuel)%nat as Hf' by (rewrite showargs_cons in Hf; rewrite length_app in Hf; unfold showword in Hf; rewrite length_app in Hf; simpl in Hf; lia).
  assert (word_at <$> (argv0 ++ [t]) = (word_at <$> argv0) ++ [w]) as Eargs by (rewrite fmap_app; simpl; unfold word_at at 2; by rewrite Ht).
  apply wp_bind. destruct ws as [|w2 ws].
  - simpl in Ej. eapply (wp_parseredirs _ j rs r); [exact Ej|done|done|by left| |].
    { pose proof (drop_length _ _ Ej) as Hl. rewrite length_app in Hl. lia. }
    intros rs' k Hm Ek. apply (IH (argv0 ++ [t]) (rs0 ++ rs') k [] []); [exact Ek|done|constructor|done|done|exact Hn'|exact Hf'|].
    intros argv' rs2 j2 H1 H2 H3. apply HQ; [|by rewrite H2, fmap_app, Hm, app_nil_r|done]. by rewrite H1, Eargs, app_nil_r.
  - inversion Hws' as [|? ? Hw2 _]; subst. eapply (wp_parseredirs _ j [] (showargs (w2 :: ws) ++ showredirs rs ++ r));
      [exact Ej|constructor|done| |simpl; lia|].
    { right. exists w2, (showargs ws ++ showredirs rs ++ r). split; [done|]. unfold showargs. simpl. by rewrite <- app_assoc. }
    intros rs' k Hm Ek. apply (IH (argv0 ++ [t]) (rs0 ++ rs') k (w2 :: ws) rs); [exact Ek|done|done|done|done|exact Hn'|exact Hf'|].
    intros argv' rs2 j2 H1 H2 H3. apply HQ; [|by rewrite H2, fmap_app, Hm, app_nil_r|done]. by rewrite H1, Eargs, <- app_assoc.
Qed.

(** The parser has read [t] and is at [r]. *)
Definition got (t : scmd) (r : list Z) (c : cmd) (j : nat) : Prop := meant s c = t ∧ drop j s = r.
Definition exec_ok (t : scmd) : Prop := ∀ i rs r fuel,
  drop i s = show 3 t ++ showredirs rs ++ r → Forall sredir_ok rs → stop (str "|)&;") r → (length (drop i s) ≤ fuel)%nat →
  wp (parseexec s (parseline s fuel)) (got (swrap t rs) r) i.
Definition pipe_ok (t : scmd) : Prop := ∀ i r F fuel,
  drop i s = show 2 t ++ r → stop (str ")&;") r → (length (drop i s) ≤ F)%nat → (length (drop i s) ≤ fuel)%nat →
  wp (parsepipe s F (parseline s fuel)) (got t r) i.
Definition back_ok (t : scmd) : Prop := ∀ i r fuel (Q : cmd → nat → Prop),
  drop i s = show 1 t ++ r → stop (str ")&;") r → (length (drop i s) ≤ fuel)%nat →
  (∀ c j F, got t r c j → (length r ≤ F)%nat → wp (parseback s F c) Q j) →
  wp (c ← parsepipe s (length s) (parseline s fuel); parseback s (length s) c) Q i.
Definition line_ok (t : scmd) : Prop := ∀ i r fuel,
  drop i s = show 0 t ++ r → stop (str ")") r → (length (drop i s) < fuel)%nat → wp (parseline s fuel) (got t r) i.

Lemma length_drop_eq i l : drop i s = l → length (drop i s) = length l.
Proof. by intros ->. Qed.
Lemma stop_sub toks toks' r : stop toks r → toks ⊆ toks' → stop toks' r.
Proof. destruct r; [done|]. simpl. auto. Qed.
Lemma peek_stop toks toks' r : stop toks r → Forall (λ x, in_set toks' x = false) toks →
  match r with [] => false | x :: _ => in_set toks' x end = false.
Proof. intros Hs Hf. destruct r as [|x r]; [done|]. rewrite Forall_forall in Hf. by apply Hf. Qed.

(** A simple command. *)
Lemma exec_simple argv : scmd_ok (SEXEC argv) → exec_ok (SEXEC argv).
Proof.
  intros [Hw Hn] i rs r fuel E Hrs Hst _. change (show 3 (SEXEC argv)) with (showargs argv) in E.
  pose proof (stop_clean r Hst) as Hc. pose proof (clean_redirs rs r Hc) as Hcr. pose proof (drop_length _ _ E) as Hl. rewrite !length_app in Hl.
  assert (clean (drop i s)) as Hci.
  { rewrite E. destruct argv as [|w argv]; [done|]. inversion Hw; subst. rewrite showargs_cons. unfold showword. rewrite <- !app_assoc. by apply clean_word. }
  unfold parseexec. apply wp_bind, wp_peek; [done|].
  assert (match drop i s with [] => false | x :: _ => in_set (str "(") x end = false) as ->.
  { rewrite E. destruct argv as [|w argv].
    - destruct rs as [|[[f m] d] rs]; [simpl; apply (peek_stop (str "|)&;")); [done|by repeat constructor]|].
      rewrite showredirs_cons. simpl. by destruct (d =? 0).
    - inversion Hw as [|? ? [Hne Hx] _]; subst. destruct w as [|x w]; [done|]. inversion Hx as [|? ? [Hcx _] _]; subst.
      rewrite showargs_cons. simpl. by apply word_not_open. }
  destruct argv as [|w argv].
  - apply wp_bind. eapply (wp_parseredirs _ i rs r); [exact E|done|done|by left|lia|]. intros rs' j Hm Ej.
    apply wp_bind. eapply (wp_parseargs _ [] rs' j [] [] r); [exact Ej|done|constructor|done|done|done|simpl; lia|].
    intros argv' rs2 k H1 H2 Ek. apply wp_ret. split; [|done]. cbn [fst snd]. rewrite meant_wrap, H2, Hm, app_nil_r.
    destruct argv'; [done|discriminate].
  - inversion Hw as [|? ? Hw1 Hw2]; subst. apply wp_bind.
    eapply (wp_parseredirs _ i [] (showargs (w :: argv) ++ showredirs rs ++ r)); [exact E|constructor|by rewrite <- E| |simpl; lia|].
    { right. exists w, (showargs argv ++ showredirs rs ++ r). split; [done|]. rewrite showargs_cons. by rewrite <- app_assoc. }
    intros rs' j Hm Ej. apply wp_bind. eapply (wp_parseargs _ [] rs' j (w :: argv) rs r); [exact Ej|done|done|done|done|done|lia|].
    intros argv' rs2 k H1 H2 Ek. apply wp_ret. split; [|done]. cbn [fst snd]. rewrite meant_wrap, H2, Hm. simpl in H1 |- *.
    unfold meant. simpl. change (λ t : span, slice t.1 (t.2 - t.1) s) with word_at. by rewrite H1.
Qed.

(** A command in parentheses. *)
Lemma exec_block t : scmd_ok t → show 3 t = str "( " ++ show 0 t ++ str ") " → line_ok t → exec_ok t.
Proof.
  intros Ht Es IH i rs r fuel E Hrs Hst Hf. pose proof (stop_clean r Hst) as Hc. pose proof (clean_redirs rs r Hc) as Hcr.
  rewrite Es, <- !app_assoc in E.
  assert (clean (show 0 t ++ str ") " ++ showredirs rs ++ r)) as Hct by (apply clean_show; [done|by apply clean_cons]).
  assert (clean (drop i s)) as Hci by (rewrite E; by apply clean_cons).
  unfold parseexec. apply wp_bind, wp_peek; [done|]. rewrite E. change (in_set (str "(") (ch "(")) with true. cbv iota beta match.
  unfold parseblock. apply wp_bind, wp_peek; [done|]. rewrite E. change (negb (in_set (str "(") (ch "("))) with false. cbv iota beta match.
  apply wp_bind. eapply wp_symbol; [exact E|vm_compute; set_solver|done|]. intros t0 j Ej _. apply wp_bind.
  assert (length (drop i s) = S (S (length (drop j s)))) as El by (by rewrite E, Ej).
  eapply wp_mono; [apply (IH j _ fuel Ej); [simpl; set_solver|lia]|]. intros c k [Hm Ek].
  apply wp_bind, wp_peek; [rewrite Ek; by apply clean_cons|]. rewrite Ek. change (negb (in_set (str ")") (ch ")"))) with false. cbv iota beta match.
  apply wp_bind. eapply wp_symbol; [exact Ek|vm_compute; set_solver|done|]. intros t1 k1 Ek1 _. apply wp_bind.
  eapply (wp_parseredirs _ k1 rs r); [exact Ek1|done|done|by left| |].
  { pose proof (drop_length _ _ Ek1) as Hl. rewrite length_app in Hl. lia. }
  intros rs' k2 Hm2 Ek2. apply wp_ret. split; [|done]. by rewrite meant_wrap, Hm, Hm2.
Qed.

Lemma exec_redir t f m d : exec_ok t → sredir_ok (f, m, d) → exec_ok (SREDIR t f m d).
Proof.
  intros IH Hr i rs r fuel E Hrs Hst Hf. apply (IH i ((f, m, d) :: rs) r fuel); [|by constructor|done|done].
  rewrite E. change (show 3 (SREDIR t f m d)) with (show 3 t ++ showredir (f, m, d)).
  change (showredirs ((f, m, d) :: rs)) with (showredir (f, m, d) ++ showredirs rs). by rewrite <- !app_assoc.
Qed.

(** A command of a deeper level is one of the level above. *)
Lemma exec_pipe t : show 2 t = show 3 t → exec_ok t → pipe_ok t.
Proof.
  intros Es IH i r F fuel E Hst HF Hf. rewrite Es in E.
  assert (∀ k : cmd → M nat cmd, wp (c ← parseexec s (parseline s fuel); b ← peek s (str "|"); if (b : bool) then k c else mret c) (got t r) i) as Hk.
  { intros k. apply wp_bind. eapply wp_mono; [apply (IH i [] r fuel E); [constructor| |done]|].
    { eapply stop_sub; [done|]. vm_compute. set_solver. }
    intros c j [Hm Ej]. apply wp_bind, wp_peek; [rewrite Ej; eapply stop_clean, stop_sub; [done|vm_compute; set_solver]|].
    rewrite Ej, (peek_stop (str ")&;")); [|done|by repeat constructor]. by apply wp_ret. }
  destruct F; apply Hk.
Qed.
Lemma pipe_back t : show 1 t = show 2 t → pipe_ok t → back_ok t.
Proof.
  intros Es IH i r fuel Q E Hst Hf HQ. rewrite Es in E. pose proof (drop_length _ _ E) as Hl. rewrite length_app in Hl.
  assert (length (drop i s) ≤ length s)%nat by (rewrite length_drop; lia).
  apply wp_bind. eapply wp_mono; [apply (IH i r _ fuel E Hst); lia|]. intros c j Hg. apply HQ; [done|lia].
Qed.
Lemma back_line t : show 0 t = show 1 t → back_ok t → line_ok t.
Proof.
  intros Es IH i r fuel E Hst Hf. rewrite Es in E. destruct fuel as [|fuel]; [lia|]. cbn [parseline]. apply wp_assoc.
  apply wp_bind. assert (clean r) as Hc by (eapply stop_clean, stop_sub; [done|vm_compute; set_solver]).
  apply (IH i r fuel); [done|eapply stop_sub; [done|vm_compute; set_solver]|lia|]. intros c j F [Hm Ej] HF.
  assert (wp (b ← peek s (str ";"); if (b : bool) then _ ← gettoken s; r0 ← parseline s fuel; mret (listcmd c r0) else mret c) (got t r) j) as Hend.
  { apply wp_bind, wp_peek; [by rewrite Ej|]. rewrite Ej, (peek_stop (str ")")); [|done|by repeat constructor]. by apply wp_ret. }
  destruct F; cbn [parseback]; (apply wp_bind, wp_peek; [by rewrite Ej|]; rewrite Ej, (peek_stop (str ")")); [|done|by repeat constructor]; by apply wp_ret).
Qed.

(** The three operators. *)
Lemma pipe_SPIPE l t : scmd_ok t → exec_ok l → pipe_ok t → pipe_ok (SPIPE l t).
Proof.
  intros Ht IHl IHt i r F fuel E Hst HF Hf. change (show 2 (SPIPE l t)) with (show 3 l ++ str "| " ++ show 2 t) in E. rewrite <- !app_assoc in E.
  assert (clean r) as Hc by (eapply stop_clean, stop_sub; [done|vm_compute; set_solver]).
  pose proof (length_drop_eq _ _ E) as Hl. rewrite !length_app in Hl. change (length (str "| ")) with 2%nat in Hl.
  destruct F as [|F]; [lia|]. cbn [parsepipe]. apply wp_bind.
  eapply wp_mono; [apply (IHl i [] _ fuel E); [constructor|vm_compute; set_solver|done]|]. intros c j [Hm Ej].
  apply wp_bind, wp_peek; [rewrite Ej; by apply clean_cons|]. rewrite Ej. change (in_set (str "|") (ch "|")) with true. cbv iota beta match.
  apply wp_bind. eapply wp_symbol; [exact Ej|vm_compute; set_solver|by apply clean_show|]. intros t1 k Ek _.
  pose proof (length_drop_eq _ _ Ek) as Hl2. rewrite length_app in Hl2.
  apply wp_bind. eapply wp_mono; [apply (IHt k r F fuel Ek Hst); lia|]. intros c' k' [Hm' Ek']. apply wp_ret. split; [|done].
  unfold meant in *. simpl in *. by rewrite Hm, Hm'.
Qed.
Lemma back_SBACK t : back_ok t → back_ok (SBACK t).
Proof.
  intros IH i r fuel Q E Hst Hf HQ. change (show 1 (SBACK t)) with (show 1 t ++ str "& ") in E. rewrite <- app_assoc in E.
  assert (clean r) as Hc by (eapply stop_clean, stop_sub; [done|vm_compute; set_solver]).
  apply (IH i _ fuel Q E); [vm_compute; set_solver|done|]. intros c j F [Hm Ej] HF. simpl in HF. destruct F as [|F]; [lia|].
  cbn [parseback]. apply wp_bind, wp_peek; [rewrite Ej; by apply clean_cons|]. rewrite Ej. change (in_set (str "&") (ch "&")) with true. cbv iota beta match.
  apply wp_bind. eapply wp_symbol; [exact Ej|vm_compute; set_solver|done|]. intros t1 k Ek _. apply HQ; [|lia]. split; [|done].
  unfold meant in *. simpl in *. by rewrite Hm.
Qed.
Lemma line_SLIST l t : scmd_ok t → back_ok l → line_ok t → line_ok (SLIST l t).
Proof.
  intros Ht IHl IHt i r fuel E Hst Hf. change (show 0 (SLIST l t)) with (show 1 l ++ str "; " ++ show 0 t) in E. rewrite <- !app_assoc in E.
  assert (clean r) as Hc by (eapply stop_clean, stop_sub; [done|vm_compute; set_solver]).
  pose proof (length_drop_eq _ _ E) as Hl. rewrite !length_app in Hl. change (length (str "; ")) with 2%nat in Hl.
  destruct fuel as [|fuel]; [lia|]. cbn [parseline]. apply wp_assoc, wp_bind.
  apply (IHl i _ fuel _ E); [vm_compute; set_solver|lia|]. intros c j F [Hm Ej] HF.
  assert (clean (drop j s)) as Hcj by (rewrite Ej; by apply clean_cons).
  assert (wp (b ← peek s (str ";"); if (b : bool) then _ ← gettoken s; r0 ← parseline s fuel; mret (listcmd c r0) else mret c) (got (SLIST l t) r) j) as Hend.
  { apply wp_bind, wp_peek; [done|]. rewrite Ej. change (in_set (str ";") (ch ";")) with true. cbv iota beta match.
    apply wp_bind. eapply wp_symbol; [exact Ej|vm_compute; set_solver|by apply clean_show|]. intros t1 k Ek _.
    pose proof (length_drop_eq _ _ Ek) as Hl2. rewrite length_app in Hl2.
    apply wp_bind. eapply wp_mono; [apply (IHt k r fuel Ek Hst); lia|]. intros c' k' [Hm' Ek']. apply wp_ret. split; [|done].
    unfold meant in *. simpl in *. by rewrite Hm, Hm'. }
  destruct F; cbn [parseback]; (apply wp_bind, wp_peek; [done|]); rewrite Ej; by apply wp_ret.
Qed.

Lemma exec_all t : show 0 t = show 3 t → show 1 t = show 3 t → show 2 t = show 3 t → exec_ok t → exec_ok t ∧ pipe_ok t ∧ back_ok t ∧ line_ok t.
Proof.
  intros E0 E1 E2 He. assert (pipe_ok t) by (by apply exec_pipe). assert (back_ok t) by (apply pipe_back; [congruence|done]).
  split_and!; [done..|]. apply back_line; [congruence|done].
Qed.
Lemma parse_shown t : scmd_ok t → exec_ok t ∧ pipe_ok t ∧ back_ok t ∧ line_ok t.
Proof.
  induction t as [argv|t IH f m d|l IHl t IHt|l IHl t IHt|t IH]; intros Ht.
  - by apply exec_all, exec_simple.
  - destruct Ht as [Ht Hr]. destruct (IH Ht) as (He & _). by apply exec_all, exec_redir.
  - pose proof Ht as [Hl Hr]. destruct (IHl Hl) as (He & _). destruct (IHt Hr) as (_ & Hp & _).
    assert (pipe_ok (SPIPE l t)) by (by apply pipe_SPIPE). assert (back_ok (SPIPE l t)) by (by apply pipe_back).
    assert (line_ok (SPIPE l t)) by (by apply back_line). split; [by apply exec_block|done].
  - pose proof Ht as [Hl Hr]. destruct (IHl Hl) as (_ & _ & Hb & _). destruct (IHt Hr) as (_ & _ & _ & Hp).
    assert (line_ok (SLIST l t)) by (by apply line_SLIST). assert (exec_ok (SLIST l t)) by (by apply exec_block).
    assert (pipe_ok (SLIST l t)) by (by apply exec_pipe). split_and!; [done|done|by apply pipe_back|done].
  - destruct (IH Ht) as (_ & _ & Hb & _). assert (back_ok (SBACK t)) by (by apply back_SBACK).
    assert (line_ok (SBACK t)) by (by apply back_line). assert (exec_ok (SBACK t)) by (by apply exec_block).
    split_and!; [done|by apply exec_pipe|done|done].
Qed.
End Typed.

(** ** The parser as a whole *)

Lemma word_nonzero w : word_ok w → Forall (λ x, x ≠ 0) w.
Proof. intros [_ Hw]. eapply Forall_impl; [exact Hw|]. by intros x [_ ?]. Qed.
Lemma show_nonzero lv t : scmd_ok t → Forall (λ x, x ≠ 0) (show lv t).
Proof.
  assert (∀ w, word_ok w → Forall (λ x, x ≠ 0) (showword w)) as Hsw.
  { intros w Hw. apply Forall_app. split; [by apply word_nonzero|by repeat constructor]. }
  assert (∀ b x, Forall (λ x, x ≠ 0) x → Forall (λ x, x ≠ 0) (paren b x)) as Hp.
  { intros b x Hx. destruct b; [|done]. apply Forall_app. split; [by repeat constructor|]. apply Forall_app. split; [done|by repeat constructor]. }
  revert lv. induction t as [argv|t IH f m d|l IHl t IHt|l IHl t IHt|t IH]; intros lv Ht; simpl in *.
  - destruct Ht as [Ht _]. induction Ht as [|w argv Hw Ht IH]; [constructor|]. simpl. apply Forall_app. auto.
  - destruct Ht as [Ht [Hf _]]. apply Forall_app. split; [auto|]. unfold showredir. apply Forall_app. split; [destruct (_ =? 0); by repeat constructor|auto].
  - destruct Ht. apply Hp, Forall_app. split; [auto|]. apply (Forall_app_2 _ (str "| ")); [by repeat constructor|auto].
  - destruct Ht. apply Hp, Forall_app. split; [auto|]. apply (Forall_app_2 _ (str "; ")); [by repeat constructor|auto].
  - apply Hp, Forall_app. split; [auto|by repeat constructor].
Qed.

(** A parsed line: all of it is used, the command is well formed and its start
    pointers point to the strings meant. *)
Definition parsed (s : list Z) (c : cmd) (buf : list Z) : Prop :=
  cmd_ok s c ∧ length buf = S (length s) ∧ pointed buf c = meant s c.

Lemma safe_parsecmd s : Forall (λ x, x ≠ 0) s →
  safe (parsecmd s) (λ r j, match r with
    | inl (c, buf) => j = length s ∧ parsed s c buf
    | inr rest => rest = drop j s ∧ rest ≠ [] ∧ (j < length s)%nat end) 0.
Proof.
  intros Hs. unfold parsecmd. apply safe_bind, safe_parseline; [lia|lia|]. intros c j Hj Hc. apply safe_bind, safe_peek; [lia|].
  intros b k Hk _. apply safe_bind. unfold safe at 1, gets, id. destruct (Nat.eqb_spec k (length s)) as [->|Hne]; apply safe_ret.
  - split; [done|]. split; [done|]. split; [|by apply nulterminate_meant]. rewrite length_nulterminate, length_app. simpl. lia.
  - split; [done|]. split; [|lia]. intros E. apply (f_equal length) in E. rewrite length_drop in E. simpl in E. lia.
Qed.

(** C35. The shell's parser on every command line: it ends, within as many steps
    as the line has characters, with an error or with a command whose nodes are
    well formed (every string is a maximal word inside the line, fewer than
    [MAXARGS] arguments, redirections to descriptor 0 or 1), and after
    [nulterminate] the C strings its pointers reach are exactly the words that
    were parsed. *)
Theorem parsecmd_well_formed (s : list Z) :
  Forall (λ x, x ≠ 0) s →
  match parsecmd s 0%nat with
  | Ok (inl (c, buf)) j => j = length s ∧ parsed s c buf
  | Ok (inr rest) j => rest = drop j s ∧ rest ≠ []
  | Panic _ => True
  | _ => False
  end.
Proof.
  intros Hs. pose proof (safe_parsecmd s Hs) as H. unfold safe in H. destruct (parsecmd s 0%nat) as [[[c buf]|rest] j|m|m|s' k|]; try done.
  by destruct H as (? & ? & _).
Qed.
Lemma parsecmd_well_formed_witness :
  parsed (str "ls -l | wc") (PIPE (EXEC [(0, 2); (3, 5)]) (EXEC [(8, 10)]))%nat (str "ls" ++ [0] ++ str "-l" ++ [0] ++ str "| wc" ++ [0]).
Proof.
  assert (parsecmd (str "ls -l | wc") 0%nat = Ok (inl ((PIPE (EXEC [(0, 2); (3, 5)]) (EXEC [(8, 10)]))%nat,
    str "ls" ++ [0] ++ str "-l" ++ [0] ++ str "| wc" ++ [0])) 10%nat) as E by (vm_compute; reflexivity).
  pose proof (parsecmd_well_formed (str "ls -l | wc") ltac:(by repeat constructor)) as H. rewrite E in H. apply H.
Defined.

Lemma parse_typed (t : scmd) :
  scmd_ok t → ∃ c buf, parsecmd (show 0 t) 0%nat = Ok (inl (c, buf)) (length (show 0 t)) ∧ pointed buf c = t.
Proof.
  intros Ht. set (s := show 0 t). destruct (parse_shown s t Ht) as (_ & _ & _ & Hl).
  assert (Forall (λ x, x ≠ 0) s) as Hs by (by apply show_nonzero).
  assert (wp (parsecmd s) (λ r j, ∃ c buf, r = inl (c, buf) ∧ meant s c = t) 0%nat) as Hw.
  { unfold parsecmd. pose proof (safe_parseline s (S (length s)) 0%nat (λ _ j, (j ≤ length s)%nat)) as Hj.
    pose proof (Hl 0%nat [] (S (length s))) as Hp. specialize (Hp ltac:(by rewrite app_nil_r) I ltac:(rewrite length_drop; lia)).
    specialize (Hj ltac:(lia) ltac:(lia) ltac:(intros; cbv beta; lia)). unfold wp, safe in Hp, Hj.
    unfold wp, mbind, M_bind. destruct (parseline s (S (length s)) 0%nat) as [c j|m|m|s' k|]; try done. destruct Hp as [Hm Ej].
    assert (j = length s) as -> by (apply (f_equal length) in Ej; rewrite length_drop in Ej; simpl in Ej; lia).
    cbn [obind]. unfold peek, gets, id, modify, mbind, M_bind, obind, mret, M_ret. cbv zeta.
    rewrite skip_clean by (by rewrite drop_all). rewrite Nat.eqb_refl. cbn [negb]. by exists c, (nulterminate c (s ++ [0])). }
  pose proof (safe_parsecmd s Hs) as Hf. unfold wp in Hw. unfold safe in Hf.
  destruct (parsecmd s 0%nat) as [r j|m|m|s' k|]; try done. destruct Hw as (c & buf & -> & Hm). destruct Hf as (-> & _ & _ & Hp).
  exists c, buf. by rewrite Hp, Hm.
Qed.

(** C36. Every command can be typed: for each command whose strings are words and
    whose redirections are those of [<] and [>], the line [show 0 t], with
    parentheses where the grammar needs them, is parsed to that command and
    nothing is left over. *)
Theorem parsecmd_show (t : scmd) :
  scmd_ok t → ∃ c buf, parsecmd (show 0 t) 0%nat = Ok (inl (c, buf)) (length (show 0 t)) ∧ pointed buf c = t.
Proof. apply parse_typed. Qed.
Definition typed_example : scmd :=
  SREDIR (SLIST (SPIPE (SREDIR (SEXEC [str "grep"; str "-v"; str "x"]) (str "in") O_RDONLY 0) (SEXEC [str "sort"]))
    (SBACK (SEXEC [str "ls"]))) (str "out") (Z.lor O_WRONLY O_CREATE) 1.
Lemma parsecmd_show_witness :
  show 0 typed_example = str "( grep -v x < in | sort ; ls & ) > out " ∧
  ∃ c buf, parsecmd (show 0 typed_example) 0%nat = Ok (inl (c, buf)) (length (show 0 typed_example)) ∧ pointed buf c = typed_example.
Proof.
  split; [vm_compute; reflexivity|]. apply parsecmd_show, scmd_okb_ok. vm_compute. reflexivity.
Defined.
