(* ===== verification/ShRun.v ===== *)
(** * ShRun: the shell at work (sh.c)

    [runcmd] carries a command out with system calls, [sh_main] is the loop
    that reads lines and forks a child for each.  A command is given with its
    strings, as [parsecmd] leaves it.  The interface [Descriptors] says what
    the calls promise a process about its descriptor table; against it,
    [runcmd] is shown to start exactly the processes a command denotes, each
    with its input and output connected as written. *)

From S2P Require Import Prelude State Console Strings Printf Inode Proc Sysfile User Utils Sh.

(** ** The code *)

Section Run.
Context {S : Type} `{Sys.Os S} `{LoopBound}.
Import Sys.

Definition sh_panic (msg : list Z) : M S unit := printl 2 "%s" [CStr (Some msg)] ;; exit.
Definition fork1 : M S Z :=
  pid ← fork;
  when (pid =? -1) (sh_panic (str "fork")) ;;
  mret pid.

Fixpoint runcmd (c : scmd) : M S unit :=
  match c with
  | SEXEC argv =>
      match argv with
      | [] => exit
      | a0 :: _ =>
          _ ← exec a0 argv;
          printl 2 "exec %s failed" [CStr (Some a0)]
      end
  | SREDIR c' file mode fd =>
      _ ← close fd;
      r ← open file mode;
      when (r <? 0) (printl 2 "open %s failed" [CStr (Some file)] ;; exit) ;;
      runcmd c'
  | SLIST l r =>
      pid ← fork1;
      when (pid =? 0) (runcmd l) ;;
      _ ← wait;
      runcmd r
  | SPIPE l r =>
      p ← pipe;
      when (p.1 <? 0) (sh_panic (str "pipe")) ;;
      pid ← fork1;
      when (pid =? 0) (
        _ ← close 1; _ ← dup p.2.2; _ ← close p.2.1; _ ← close p.2.2;
        runcmd l) ;;
      pid ← fork1;
      when (pid =? 0) (
        _ ← close 0; _ ← dup p.2.1; _ ← close p.2.1; _ ← close p.2.2;
        runcmd r) ;;
      _ ← close p.2.1;
      _ ← close p.2.2;
      _ ← wait;
      _ ← wait;
      mret tt
  | SBACK c' =>
      pid ← fork1;
      when (pid =? 0) (runcmd c') ;;
      mret tt
  end ;;
  exit.

(** What is in [buf], or the end of the input. *)
Definition getcmd (nbuf : Z) : M S (option (list Z)) :=
  printf 2 (str "$ ") [] ;;
  buf ← ulib_gets nbuf;
  mret (if default 0 (head buf) =? 0 then None else Some buf).

(** [runcmd(parsecmd(buf))]: the errors of the parser end the child. *)
Definition run_line (s : list Z) : M S unit :=
  match parsecmd s 0%nat with
  | Ok (inl (c, buf)) _ => runcmd (pointed buf c)
  | Ok (inr rest) _ => printl 2 "leftovers: %s" [CStr (Some rest)] ;; sh_panic (str "syntax")
  | Panic msg => sh_panic (str msg)
  | Fault why => fault why
  | _ => nofuel
  end.

Fixpoint sh_loop (fuel : nat) : M S unit :=
  b ← getcmd 200;
  match b with
  | None => exit
  | Some buf =>
      let s := upto0 buf in
      (if bool_decide (take 3 s = str "cd ") then
         let path := drop 3 (take (length s - 1) s) in
         r ← chdir path;
         when (r <? 0) (printl 2 "cannot cd %s" [CStr (Some path)])
       else
         pid ← fork1;
         when (pid =? 0) (run_line s) ;;
         _ ← wait; mret tt) ;;
      match fuel with O => nofuel | Datatypes.S fuel' => sh_loop fuel' end
  end.
(** Ensure that three file descriptors are open. *)
Fixpoint sh_open (fuel : nat) : M S unit :=
  fd ← open (str "console") O_RDWR;
  if fd <? 0 then mret tt else
  if fd >=? 3 then _ ← close fd; mret tt else
  match fuel with O => nofuel | Datatypes.S fuel' => sh_open fuel' end.
Definition sh_main : M S unit := sh_open loop_bound ;; sh_loop loop_bound.
End Run.

(** ** What a process may rely on *)

(** What a descriptor refers to: a file the process started with, one opened
    since, or an end of the [k]-th pipe made. *)
Inductive fobj :=
| Given (n : nat)
| OpenFile (name : list Z) (mode : Z)
| PipeR (k : nat)
| PipeW (k : nat).
Abbreviation table := (list (option fobj)).
(** A started program: its arguments and its descriptors. *)
Abbreviation process := (list (list Z) * table)%type.

Fixpoint lowest (t : table) : option nat :=
  match t with
  | [] => None
  | None :: _ => Some 0%nat
  | Some _ :: t' => Datatypes.S <$> lowest t'
  end.
(** The two descriptors [pipe] would use. *)
Definition pipe_ends (t : table) : option (nat * nat) :=
  a ← lowest t; b ← lowest (<[a := Some (Given 0)]> t); Some (a, b).

(** [I fs k t s]: in state [s] the process has made [k] pipes, [t] is its
    descriptor table and its next forks return [fs].  [image s] is the program
    that replaced the process.  A new descriptor is the lowest free one;
    [avail] and [bin] tell which files can be opened and which executed. *)
Class Descriptors {S : Type} `{Sys.Os S} (avail : list Z → Z → bool) (bin : list Z → bool)
    (I : list Z → nat → table → S → Prop) (image : S → option process) : Prop := {
  d_running : ∀ fs k t s, I fs k t s → image s = None;
  d_write : ∀ fs k t s bs, I fs k t s → wp (Sys.write 2 bs) (λ r s', r = Z.of_nat (length bs) ∧ I fs k t s') s;
  d_fork : ∀ f fs k t s, I (f :: fs) k t s → wp Sys.fork (λ pid s', pid = f ∧ I fs k t s') s;
  d_wait : ∀ fs k t s, I fs k t s → wp Sys.wait (λ _ s', I fs k t s') s;
  d_close : ∀ fs k t s fd o, I fs k t s → t !! fd = Some (Some o) →
    wp (Sys.close (Z.of_nat fd)) (λ _ s', I fs k (<[fd := None]> t) s') s;
  d_dup : ∀ fs k t s fd n o, I fs k t s → t !! fd = Some (Some o) → lowest t = Some n →
    wp (Sys.dup (Z.of_nat fd)) (λ _ s', I fs k (<[n := Some o]> t) s') s;
  d_open : ∀ fs k t s name mode n, I fs k t s → lowest t = Some n →
    wp (Sys.open name mode) (λ r s', if avail name mode then r = Z.of_nat n ∧ I fs k (<[n := Some (OpenFile name mode)]> t) s'
      else r = -1 ∧ I fs k t s') s;
  d_pipe : ∀ fs k t s, I fs k t s →
    wp Sys.pipe (λ r s', match pipe_ends t with
      | Some (a, b) => r = (0, (Z.of_nat a, Z.of_nat b)) ∧ I fs (Datatypes.S k) (<[b := Some (PipeW k)]> (<[a := Some (PipeR k)]> t)) s'
      | None => r.1 = -1 ∧ I fs k t s' end) s;
  d_exec : ∀ fs k t s a0 argv, I fs k t s →
    if bin a0 then ∃ s' K, Sys.exec a0 argv s = Swtch s' K ∧ image s' = Some (argv, t)
    else wp (Sys.exec a0 argv) (λ _ s', I fs k t s') s }.

(** ** What a command denotes *)

Section Denotation.
Context (avail : list Z → Z → bool) (bin : list Z → bool).

(** The programs of a command, started in a process with table [t]. *)
Fixpoint procs (c : scmd) (k : nat) (t : table) : list process :=
  match c with
  | SEXEC [] => []
  | SEXEC (a0 :: args) => if bin a0 then [(a0 :: args, t)] else []
  | SREDIR c' file mode fd =>
      if avail file mode then procs c' k (<[Z.to_nat fd := Some (OpenFile file mode)]> t) else []
  | SLIST l r => procs l k t ++ procs r k t
  | SPIPE l r =>
      match pipe_ends t with
      | Some _ => procs l (Datatypes.S k) (<[1%nat := Some (PipeW k)]> t) ++ procs r (Datatypes.S k) (<[0%nat := Some (PipeR k)]> t)
      | None => []
      end
  | SBACK c' => procs c' k t
  end.

(** What becomes of the process that runs [c] if its forks return [fs]: the
    program it turns into, if any. *)
Definition forked (fs : list Z) (child parent : list Z → option process) : option process :=
  match fs with
  | f :: fs' => if f =? -1 then None else if f =? 0 then child fs' else parent fs'
  | [] => None
  end.
Fixpoint destiny (c : scmd) (fs : list Z) (k : nat) (t : table) : option process :=
  match c with
  | SEXEC [] => None
  | SEXEC (a0 :: args) => if bin a0 then Some (a0 :: args, t) else None
  | SREDIR c' file mode fd =>
      if avail file mode then destiny c' fs k (<[Z.to_nat fd := Some (OpenFile file mode)]> t) else None
  | SLIST l r => forked fs (λ fs, destiny l fs k t) (λ fs, destiny r fs k t)
  | SPIPE l r =>
      match pipe_ends t with
      | Some _ =>
          forked fs (λ fs, destiny l fs (Datatypes.S k) (<[1%nat := Some (PipeW k)]> t))
            (λ fs, forked fs (λ fs, destiny r fs (Datatypes.S k) (<[0%nat := Some (PipeR k)]> t)) (λ _, None))
      | None => None
      end
  | SBACK c' => forked fs (λ fs, destiny c' fs k t) (λ _, None)
  end.
(** How many forks one process makes at most. *)
Fixpoint forks (c : scmd) : nat :=
  match c with
  | SEXEC _ => 0
  | SREDIR c' _ _ _ => forks c'
  | SLIST l r => 1 + forks l `max` forks r
  | SPIPE l r => 2 + forks l `max` forks r
  | SBACK c' => 1 + forks c'
  end%nat.

Lemma destiny_procs c fs k t p : destiny c fs k t = Some p → p ∈ procs c k t.
Proof.
  assert (∀ fs (f g : list Z → option process) P, forked fs f g = Some p → (∀ fs, f fs = Some p → P) → (∀ fs, g fs = Some p → P) → P) as Hfork.
  { intros [|x fs'] f g P E Hf Hg; [done|]. simpl in E. destruct (x =? -1); [done|]. destruct (x =? 0); eauto. }
  revert fs k t. induction c as [argv|c IH f m d|l IHl r IHr|l IHl r IHr|c IH]; intros fs k t E; simpl in *.
  - destruct argv as [|a0 args]; [done|]. destruct (bin a0); [|done]. injection E as <-. by apply list_elem_of_singleton.
  - destruct (avail f m); [|done]. eauto.
  - destruct (pipe_ends t); [|done]. apply elem_of_app. eapply Hfork; [exact E| |]; intros fs' E'; cbv beta in E'; [eauto|].
    eapply Hfork; [exact E'| |]; intros fs2 E2; cbv beta in E2; [eauto|done].
  - apply elem_of_app. eapply Hfork; [exact E| |]; intros fs' E'; cbv beta in E'; eauto.
  - eapply Hfork; [exact E| |]; intros fs' E'; cbv beta in E'; [eauto|done].
Qed.

(** Fork results that lead to a given program; any may follow. *)
Lemma procs_destiny c k t p : p ∈ procs c k t → ∃ fs, ∀ more, destiny c (fs ++ more) k t = Some p.
Proof.
  revert k t. induction c as [argv|c IH f m d|l IHl r IHr|l IHl r IHr|c IH]; intros k t E; simpl in *.
  - destruct argv as [|a0 args]; [by apply not_elem_of_nil in E|]. destruct (bin a0); [|by apply not_elem_of_nil in E].
    apply list_elem_of_singleton in E as ->. by exists [].
  - destruct (avail f m); [eauto|by apply not_elem_of_nil in E].
  - destruct (pipe_ends t); [|by apply not_elem_of_nil in E]. apply elem_of_app in E as [(fs & Hfs)%IHl|(fs & Hfs)%IHr].
    + exists (0 :: fs). exact Hfs.
    + exists (1 :: 0 :: fs). exact Hfs.
  - apply elem_of_app in E as [(fs & Hfs)%IHl|(fs & Hfs)%IHr]; [by exists (0 :: fs)|by exists (1 :: fs)].
  - apply IH in E as (fs & Hfs). by exists (0 :: fs).
Qed.
End Denotation.

(** ** Tables *)

(** Standard input and output are open. *)
Definition std (t : table) : Prop := ∀ fd, (fd < 2)%nat → ∃ o, t !! fd = Some (Some o).

Lemma lowest_free t n : lowest t = Some n → t !! n = Some None ∧ ∀ i, (i < n)%nat → ∃ o, t !! i = Some (Some o).
Proof.
  revert n. induction t as [|[o|] t IH]; intros n E; simpl in E; [done| |].
  - apply fmap_Some in E as (n' & E & ->). destruct (IH n' E) as [H1 H2]. split; [done|]. intros [|i] Hi; [by exists o|]. apply H2. lia.
  - injection E as <-. split; [done|lia].
Qed.
Lemma lowest_intro t n : t !! n = Some None → (∀ i, (i < n)%nat → ∃ o, t !! i = Some (Some o)) → lowest t = Some n.
Proof.
  revert n. induction t as [|x t IH]; intros n E Hi; [done|]. destruct n as [|n]; simpl in *; [by injection E as ->|].
  destruct (Hi 0%nat ltac:(lia)) as [o Eo]. injection Eo as ->. rewrite (IH n E); [done|]. intros i Hlt. apply (Hi (Datatypes.S i)). lia.
Qed.
(** After [close] of 0 or 1 the lowest free descriptor is that one. *)
Lemma lowest_closed t fd : std t → (fd < 2)%nat → lowest (<[fd := None]> t) = Some fd.
Proof.
  intros Hs Hfd. destruct (Hs fd Hfd) as [o Ho]. apply lowest_intro.
  - apply list_lookup_insert_eq. by eapply lookup_lt_Some.
  - intros i Hi. rewrite list_lookup_insert_ne by lia. apply Hs. lia.
Qed.
Lemma std_insert t n o : std t → std (<[n := Some o]> t).
Proof.
  intros Hs fd Hfd. destruct (Hs fd Hfd) as [x Hx]. destruct (decide (fd = n)) as [->|Hne]; [|rewrite list_lookup_insert_ne by done; by exists x].
  rewrite list_lookup_insert_eq by (by eapply lookup_lt_Some). by exists o.
Qed.
Lemma pipe_ends_free t a b : std t → pipe_ends t = Some (a, b) → t !! a = Some None ∧ t !! b = Some None ∧ (1 < a < b)%nat.
Proof.
  unfold pipe_ends. intros Hs E. destruct (lowest t) as [a'|] eqn:Ea; [|done]. simpl in E.
  destruct (lowest (<[a' := _]> t)) as [b'|] eqn:Eb; [|done]. injection E as -> ->.
  apply lowest_free in Ea as [Ha Hl], Eb as [Hb Hl2].
  assert (a ≠ b) as Hab. { intros ->. rewrite list_lookup_insert_eq in Hb by (by eapply lookup_lt_Some). done. }
  rewrite list_lookup_insert_ne in Hb by done. split; [done|]. split; [done|].
  assert (¬ (a < 2)%nat ∧ ¬ (b < a)%nat); [|lia]. split; intros Hlt.
  - destruct (Hs a Hlt). congruence.
  - destruct (Hl b Hlt). congruence.
Qed.
(** What the child of a pipe does to its table. *)
Lemma pipe_table (t : table) a b x y o fd : t !! a = Some None → t !! b = Some None → (1 < a < b)%nat → (fd < 2)%nat →
  <[b := None]> (<[a := None]> (<[fd := Some o]> (<[fd := None]> (<[b := y]> (<[a := x]> t))))) = <[fd := Some o]> t.
Proof.
  intros Ha Hb Hab Hfd. pose proof (lookup_lt_Some _ _ _ Ha) as La. pose proof (lookup_lt_Some _ _ _ Hb) as Lb.
  apply list_eq. intros i. destruct (decide (i = b)) as [->|H1].
  { rewrite list_lookup_insert_eq by (by rewrite !length_insert). by rewrite list_lookup_insert_ne by lia. }
  rewrite list_lookup_insert_ne by done. destruct (decide (i = a)) as [->|H2].
  { rewrite list_lookup_insert_eq by (by rewrite !length_insert). by rewrite list_lookup_insert_ne by lia. }
  rewrite list_lookup_insert_ne by done. destruct (decide (i = fd)) as [->|H3].
  { by rewrite !list_lookup_insert_eq by (rewrite ?length_insert; lia). }
  by rewrite !list_lookup_insert_ne by done.
Qed.

(** ** [runcmd] meets it *)

(** The strings fit [printf]'s buffer length and redirections are to 0 or 1. *)
Definition fits_word (w : list Z) : Prop := Z.of_nat (length w) < 2 ^ 29.
Fixpoint fits (c : scmd) : Prop :=
  match c with
  | SEXEC argv => Forall fits_word argv
  | SREDIR c' file _ fd => fits c' ∧ fits_word file ∧ (fd = 0 ∨ fd = 1)
  | SLIST l r | SPIPE l r => fits l ∧ fits r
  | SBACK c' => fits c'
  end.

Section Message.
Context {S : Type} `{Sys.Io S} (J : S → Prop).
Context (Hw : ∀ s bs, J s → wp (Sys.write 2 bs) (λ r s', r = Z.of_nat (length bs) ∧ J s') s).

(** A message on descriptor 2 is printed and nothing else happens. *)
Let io2 : Sys.Io S := {| Sys.write := λ _, Sys.write 2; Sys.read := λ _ _, mret ([], 0) |}.
Let Jout (inp out : list Z) (s : S) : Prop := inp = [] ∧ J s.
Lemma message_streams cap : @Streams S io2 0 cap Jout.
Proof.
  split.
  - intros inp out s n [-> Hj] Hn. apply wp_ret. exists []. split_and!; [done|done|simpl; lia|done|done].
  - intros inp out s bs [-> Hj] _. eapply wp_mono; [by apply Hw|]. by intros r s' [-> Hj'].
Qed.
Lemma render_lits gr l fmt ap : Forall (λ c, u8 c ≠ ch "%") l →
  render gr (l ++ fmt) false ap = app (map u8 l) <$> render gr fmt false ap.
Proof.
  induction 1 as [|c l Hc Hl IH]; simpl app; [by destruct (render gr fmt false ap)|]. rewrite render_lit, IH by done. by destruct (render gr fmt false ap).
Qed.
Lemma render_message gr p q w : Forall (λ c, u8 c ≠ ch "%") p → Forall (λ c, u8 c ≠ ch "%") q →
  render gr (p ++ str "%s" ++ q) false [CStr (Some w)] = Some (map u8 p ++ map u8 w ++ map u8 q).
Proof.
  intros Hp Hq. rewrite render_lits, render_s by done. rewrite <- (app_nil_r q) at 1. rewrite render_lits by done. simpl. by rewrite app_nil_r.
Qed.
Lemma wp_message fmt p q w s (Q : unit → S → Prop) :
  str fmt ++ [NL] = p ++ str "%s" ++ q → Forall (λ c, u8 c ≠ ch "%") p → Forall (λ c, u8 c ≠ ch "%") q →
  Z.of_nat (length p + length q) < 2 ^ 29 - 1 → fits_word w → J s → (∀ s', J s' → Q tt s') → wp (printl 2 fmt [CStr (Some w)]) Q s.
Proof.
  intros E Hp Hq Hl Hlw Hj HQ. set (txt := map u8 p ++ map u8 w ++ map u8 q).
  pose proof (message_streams (length txt)) as St. unfold fits_word in Hlw.
  apply (@wp_printf S io2 0 (length txt) Jout St [] _ _ txt [] s Q); [|unfold txt; rewrite !length_app, !length_map; lia|done|done|].
  - rewrite E. by apply render_message.
  - intros s' [_ Hs]. by apply HQ.
Qed.
End Message.

Section Correct.
Context {S : Type} `{Sys.Os S} (avail : list Z → Z → bool) (bin : list Z → bool).
Context (I : list Z → nat → table → S → Prop) (image : S → option process) `{!Descriptors avail bin I image}.
Implicit Types (fs : list Z) (k : nat) (t : table) (s : S) (c : scmd).

(** The process ends, having become the program [p] or none. *)
Definition ends {A} (p : option process) (o : outcome S A) : Prop := ∃ s' K, o = Swtch s' K ∧ image s' = p.
(** It does so unless it returns, to [exit]. *)
Definition closes {A} (p : option process) (o : outcome S A) : Prop :=
  ends p o ∨ ∃ a s', o = Ok a s' ∧ p = None ∧ image s' = None.

Lemma ends_seq {A B} (m : M S A) (f : A → M S B) p s : ends p (m s) → ends p ((a ← m; f a) s).
Proof. intros (s' & K & E & Hi). unfold ends, mbind, M_bind. rewrite E. simpl. eauto. Qed.
Lemma closes_seq {A B} (m : M S A) (f : A → M S B) p s : ends p (m s) → closes p ((a ← m; f a) s).
Proof. left. by apply ends_seq. Qed.
Lemma closes_bind {A B} (m : M S A) (f : A → M S B) (Q : A → S → Prop) p s :
  wp m Q s → (∀ a s', Q a s' → closes p (f a s')) → closes p ((a ← m; f a) s).
Proof. unfold wp, mbind, M_bind. destruct (m s); try done. simpl. auto. Qed.
Lemma ends_bind {A B} (m : M S A) (f : A → M S B) (Q : A → S → Prop) p s :
  wp m Q s → (∀ a s', Q a s' → ends p (f a s')) → ends p ((a ← m; f a) s).
Proof. unfold wp, mbind, M_bind. destruct (m s); try done. simpl. auto. Qed.
Lemma ends_exit {A} p s : image s = p → ends p (Sys.exit (A := A) s).
Proof. intros Hi. unfold Sys.exit. eexists _, _. by split. Qed.
Lemma closes_exit {A B} (m : M S A) p s : closes p (m s) → ends p ((m ;; Sys.exit (A := B)) s).
Proof. intros [He|(a & s' & E & -> & Hi)]; [by apply ends_seq|]. unfold mbind, M_bind. rewrite E. by apply ends_exit. Qed.
Lemma closes_ret {A} (a : A) fs k t s : I fs k t s → closes None ((mret a : M S A) s).
Proof. right. exists a, s. split_and!; [done|done|]. by eapply d_running. Qed.
Lemma closes_wp {A} (m : M S A) fs k t s : wp m (λ _, I fs k t) s → closes None (m s).
Proof. unfold wp. destruct (m s) as [a s'|m'|m'|s' K|] eqn:E; try done. intros Hi. eapply closes_ret in Hi. exact Hi. Qed.

(** A message, then the end. *)
Lemma wp_complain fmt p q w fs k t s :
  str fmt ++ [NL] = p ++ str "%s" ++ q → Forall (λ x, u8 x ≠ ch "%") p → Forall (λ x, u8 x ≠ ch "%") q →
  Z.of_nat (length p + length q) < 2 ^ 29 - 1 → fits_word w → I fs k t s → wp (printl 2 fmt [CStr (Some w)]) (λ _, I fs k t) s.
Proof. intros. eapply (wp_message (I fs k t)) with (p := p) (q := q); try done. intros s' bs. apply d_write. Qed.
Lemma ends_panic msg fs k t s : fits_word msg → I fs k t s → ends None (sh_panic msg s).
Proof.
  intros Hf Hi. unfold sh_panic. apply (ends_bind _ _ (λ _, I fs k t)).
  - apply (wp_complain _ [] [NL]); [done|constructor|by repeat constructor|done..].
  - intros [] s' Hs. by eapply ends_exit, d_running.
Qed.

(** A fork: the child, the parent, or the end. *)
Lemma closes_fork {A} fs k t s (child parent : list Z → option process) (m : M S unit) (rest : M S A) :
  I fs k t s → fs ≠ [] →
  (∀ fs' s', fs = 0 :: fs' → I fs' k t s' → ends (child fs') (m s')) →
  (∀ f fs' s', fs = f :: fs' → I fs' k t s' → closes (parent fs') (rest s')) →
  closes (forked fs child parent) ((pid ← fork1; when (pid =? 0) m ;; rest) s).
Proof.
  intros Hi Hne Hc Hp. destruct fs as [|f fs]; [done|]. simpl. unfold fork1.
  pose proof (d_fork f fs k t s Hi) as Hf. unfold wp in Hf. destruct (Sys.fork s) as [pid s1|m'|m'|s1 K|] eqn:E; try done. destruct Hf as [-> Hi1].
  assert ((pid ← Sys.fork; when (pid =? -1) (sh_panic (str "fork")) ;; mret pid) s =
    (when (f =? -1) (sh_panic (str "fork")) ;; mret f) s1) as E1 by (unfold mbind, M_bind; by rewrite E).
  destruct (f =? -1).
  - apply closes_seq. rewrite E1. apply ends_seq. by eapply ends_panic.
  - unfold mbind at 1, M_bind at 1. rewrite E1.
    change (closes (if f =? 0 then child fs else parent fs) ((when (f =? 0) m ;; rest) s1)). unfold when. destruct (Z.eqb_spec f 0) as [->|Hne0].
    + apply closes_seq. by apply Hc.
    + change (closes (parent fs) (rest s1)). by apply (Hp f fs).
Qed.

(** The children of a pipe: descriptor [fd] becomes the end [e] and the other
    ends are closed. *)
Lemma ends_connect fs k t s a b (e fd : nat) o (p : option process) (x y : fobj) (m : M S unit) :
  I fs k (<[b := Some y]> (<[a := Some x]> t)) s → std t → t !! a = Some None → t !! b = Some None → (1 < a < b)%nat → (fd < 2)%nat →
  <[b := Some y]> (<[a := Some x]> t) !! e = Some (Some o) → (1 < e)%nat →
  (∀ s', I fs k (<[fd := Some o]> t) s' → ends p (m s')) →
  ends p ((_ ← Sys.close (Z.of_nat fd); _ ← Sys.dup (Z.of_nat e); _ ← Sys.close (Z.of_nat a); _ ← Sys.close (Z.of_nat b); m) s).
Proof.
  intros Hi Hs Ha Hb Hab Hfd He Hle Hm. set (t2 := <[b := Some y]> (<[a := Some x]> t)) in *.
  assert (std t2) as Hs2 by (by apply std_insert, std_insert). destruct (Hs2 fd Hfd) as [o' Ho'].
  assert (t2 !! a = Some (Some x) ∧ t2 !! b = Some (Some y)) as [Ea Eb].
  { unfold t2. split; [rewrite list_lookup_insert_ne by lia|]; apply list_lookup_insert_eq; rewrite ?length_insert; by eapply lookup_lt_Some. }
  eapply ends_bind; [by eapply d_close|]. intros ? s1 H1. cbv beta in H1.
  eapply ends_bind; [eapply (d_dup _ _ _ _ e fd o); [exact H1|by rewrite list_lookup_insert_ne by lia|by apply lowest_closed]|].
  intros ? s2 H2. cbv beta in H2.
  eapply ends_bind; [eapply (d_close _ _ _ _ a x); [exact H2|by rewrite !list_lookup_insert_ne by lia]|]. intros ? s3 H3. cbv beta in H3.
  eapply ends_bind; [eapply (d_close _ _ _ _ b y); [exact H3|by rewrite !list_lookup_insert_ne by lia]|]. intros ? s4 H4. cbv beta in H4.
  apply Hm. unfold t2 in H4. by rewrite pipe_table in H4.
Qed.

Definition runs c : Prop :=
  ∀ fs k t s, std t → (forks c ≤ length fs)%nat → I fs k t s → ends (destiny avail bin c fs k t) (runcmd c s).

Lemma runs_exec argv : Forall fits_word argv → runs (SEXEC argv).
Proof.
  intros Hf fs k t s Hs Hn Hi. cbn [runcmd destiny]. destruct argv as [|a0 args]; [by apply ends_seq; eapply ends_exit, d_running|].
  apply closes_exit. pose proof (d_exec fs k t s a0 (a0 :: args) Hi) as He. destruct (bin a0).
  - apply closes_seq. exact He.
  - eapply closes_bind; [exact He|]. intros ? s1 H1. cbv beta in H1. inversion Hf; subst. eapply closes_wp.
    by apply (wp_complain "exec %s failed" (str "exec ") (str " failed" ++ [NL])); [|repeat constructor..| | |].
Qed.

Lemma runs_redir c file mode fd : fits_word file → fd = 0 ∨ fd = 1 → runs c → runs (SREDIR c file mode fd).
Proof.
  intros Hf Hfd IH fs k t s Hs Hn Hi. cbn [runcmd destiny]. apply closes_exit.
  assert (Z.to_nat fd < 2)%nat as Hlt by lia. rewrite <- (Z2Nat.id fd) at 2 by lia. destruct (Hs _ Hlt) as [o Ho].
  eapply closes_bind; [by eapply d_close|]. intros ? s1 H1. cbv beta in H1.
  eapply closes_bind; [eapply (d_open _ _ _ _ file mode); [exact H1|by apply lowest_closed]|]. intros r s2 H2. cbv beta in H2.
  destruct (avail file mode); destruct H2 as [-> H2].
  - rewrite (proj2 (Z.ltb_ge _ _)) by lia. unfold when. left. rewrite list_insert_insert_eq in H2. by apply IH; [apply std_insert| |].
  - change (-1 <? 0) with true. unfold when. apply closes_seq. apply (ends_bind _ _ (λ _, I fs k (<[Z.to_nat fd := None]> t))).
    + by apply (wp_complain "open %s failed" (str "open ") (str " failed" ++ [NL])); [|repeat constructor..| | |].
    + intros ? s3 H3. by eapply ends_exit, d_running.
Qed.

Lemma runs_list l r : runs l → runs r → runs (SLIST l r).
Proof.
  intros IHl IHr fs k t s Hs Hn Hi. cbn [runcmd destiny]. simpl in Hn. apply closes_exit.
  eapply closes_fork; [exact Hi|by destruct fs; simpl in *; [lia|]| |].
  - intros fs' s' -> H'. simpl in Hn. apply IHl; [done|lia|done].
  - intros f fs' s' -> H'. simpl in Hn. eapply closes_bind; [by apply d_wait|]. intros ? s2 H2. left. apply IHr; [done|lia|done].
Qed.

Lemma runs_back c : runs c → runs (SBACK c).
Proof.
  intros IH fs k t s Hs Hn Hi. cbn [runcmd destiny]. simpl in Hn. apply closes_exit.
  eapply closes_fork; [exact Hi|by destruct fs; simpl in *; [lia|]| |].
  - intros fs' s' -> H'. simpl in Hn. apply IH; [done|lia|done].
  - intros f fs' s' -> H'. by eapply closes_ret.
Qed.

Lemma runs_pipe l r : runs l → runs r → runs (SPIPE l r).
Proof.
  intros IHl IHr fs k t s Hs Hn Hi. cbn [runcmd destiny]. cbn [forks] in Hn. apply closes_exit.
  eapply closes_bind; [by apply d_pipe|]. intros p s1 H1. cbv beta in H1.
  destruct (pipe_ends t) as [[a b]|] eqn:Ep; [|destruct p as [r0 ab]; destruct H1 as [E H1]; simpl in E; subst r0].
  2: { change ((-1, ab).1 <? 0) with true. apply closes_seq. by eapply ends_panic. }
  destruct H1 as [-> H1]. change ((0, (Z.of_nat a, Z.of_nat b)).1 <? 0) with false. cbn [fst snd].
  destruct (pipe_ends_free t a b Hs Ep) as (Ha & Hb & Hab).
  assert (<[b := Some (PipeW k)]> (<[a := Some (PipeR k)]> t) !! b = Some (Some (PipeW k))) as Eb.
  { apply list_lookup_insert_eq. rewrite length_insert. by eapply lookup_lt_Some. }
  assert (<[b := Some (PipeW k)]> (<[a := Some (PipeR k)]> t) !! a = Some (Some (PipeR k))) as Ea.
  { rewrite list_lookup_insert_ne by lia. apply list_lookup_insert_eq. by eapply lookup_lt_Some. }
  unfold when at 1.
  eapply (closes_bind _ _ (λ _, I fs (Datatypes.S k) _)); [apply wp_ret; exact H1|]. clear s1 H1. intros ? s1 H1. cbv beta in H1.
  eapply closes_fork; [exact H1|by destruct fs; simpl in *; [lia|]| |].
  { intros fs' s' -> H'. simpl in Hn. eapply (ends_connect _ _ t _ a b b 1); try done; try lia. intros s2 H2. apply IHl; [by apply std_insert|lia|done]. }
  intros f fs' s' -> H'. simpl in Hn. eapply closes_fork; [exact H'|by destruct fs'; simpl in *; [lia|]| |].
  { intros fs2 s2 -> H2. simpl in Hn. eapply (ends_connect _ _ t _ a b a 0); try done; try lia. intros s3 H3. apply IHr; [by apply std_insert|lia|done]. }
  intros f2 fs2 s2 -> H2. eapply closes_bind; [by eapply d_close|]. intros ? s3 H3. cbv beta in H3.
  eapply closes_bind; [eapply (d_close _ _ _ _ b); [exact H3|rewrite list_lookup_insert_ne by lia; exact Eb]|]. intros ? s4 H4. cbv beta in H4.
  eapply closes_bind; [by apply d_wait|]. intros ? s5 H5. cbv beta in H5.
  eapply closes_bind; [by apply d_wait|]. intros ? s6 H6. eapply closes_ret. exact H6.
Qed.

Lemma runs_all c : fits c → runs c.
Proof.
  induction c as [argv|c IH f m d|l IHl r IHr|l IHl r IHr|c IH]; simpl; intros Hf.
  - by apply runs_exec.
  - destruct Hf as (Hc & Hw & Hd). apply runs_redir; auto.
  - destruct Hf. apply runs_pipe; auto.
  - destruct Hf. apply runs_list; auto.
  - apply runs_back; auto.
Qed.
End Correct.

(** C8. What a typed command does.  In a process whose standard input and
    output are open, the line [show 0 c] is parsed and run as follows: whatever
    the forks of a process return, it ends as the abstract semantics [destiny]
    says, either as one of the programs of the command or without starting one;
    and the programs so reachable are exactly those the command denotes
    ([procs]): every simple command, with its descriptors 0 and 1 replaced as
    the redirections and pipes around it say and no other end of a pipe open. *)
Theorem runcmd_processes {S : Type} `{Sys.Os S} (avail : list Z → Z → bool) (bin : list Z → bool)
    (I : list Z → nat → table → S → Prop) (image : S → option process) `{!Descriptors avail bin I image} (c : scmd) (k : nat) (t : table) :
  scmd_ok c → fits c → std t →
  (∀ fs s, (forks c ≤ length fs)%nat → I fs k t s → ends image (destiny avail bin c fs k t) (run_line (show 0 c) s)) ∧
  (∀ p, p ∈ procs avail bin c k t ↔ ∃ fs, (forks c ≤ length fs)%nat ∧ destiny avail bin c fs k t = Some p).
Proof.
  intros Hok Hf Hs. destruct (parse_typed c Hok) as (x & buf & E & Ep). split.
  - intros fs s Hn Hi. unfold run_line. rewrite E, Ep. by apply (runs_all avail bin I image c Hf).
  - intros p. split; [|intros (fs & _ & Hd); by eapply destiny_procs]. intros (fs & Hd)%procs_destiny.
    exists (fs ++ replicate (forks c) 0). rewrite length_app, length_replicate. split; [lia|done].
Qed.

(** A system that keeps the laws: one process with its descriptors. *)
Record pstate := mkPstate { ps_forks : list Z; ps_pipes : nat; ps_table : table; ps_image : option process }.
Definition demo_avail (name : list Z) (mode : Z) : bool := negb (bool_decide (name = str "none")).
Definition demo_bin (name : list Z) : bool := bool_decide (name ∈ [str "cat"; str "wc"; str "ls"]).
Definition ps_set (f : table → table) (s : pstate) : pstate := mkPstate (ps_forks s) (ps_pipes s) (f (ps_table s)) (ps_image s).
Definition ps_alloc (o : fobj) : M pstate Z := λ s,
  match lowest (ps_table s) with Some n => Ok (Z.of_nat n) (ps_set <[n := Some o]> s) | None => Ok (-1) s end.
#[local] Instance demo_os : Sys.Os pstate := {|
  Sys.os_io := {| Sys.write := λ _ bs, mret (Z.of_nat (length bs)); Sys.read := λ _ _, mret ([], 0) |};
  Sys.fork := λ s, match ps_forks s with f :: fs => Ok f (mkPstate fs (ps_pipes s) (ps_table s) (ps_image s)) | [] => Ok (-1) s end;
  Sys.wait := mret 1;
  Sys.pipe := λ s, match pipe_ends (ps_table s) with
    | Some (a, b) => Ok (0, (Z.of_nat a, Z.of_nat b)) (mkPstate (ps_forks s) (Datatypes.S (ps_pipes s))
        (<[b := Some (PipeW (ps_pipes s))]> (<[a := Some (PipeR (ps_pipes s))]> (ps_table s))) (ps_image s))
    | None => Ok (-1, (0, 0)) s end;
  Sys.close := λ fd s, Ok 0 (ps_set <[Z.to_nat fd := None]> s);
  Sys.exec := λ a0 argv s, if demo_bin a0 then Swtch (mkPstate (ps_forks s) (ps_pipes s) (ps_table s) (Some (argv, ps_table s))) (λ _, Fault "exec")
    else Ok (-1) s;
  Sys.open := λ name mode s, if demo_avail name mode then ps_alloc (OpenFile name mode) s else Ok (-1) s;
  Sys.dup := λ fd s, match ps_table s !! Z.to_nat fd with Some (Some o) => ps_alloc o s | _ => Ok (-1) s end;
  Sys.kill := λ _, mret 0; Sys.mknod := λ _ _ _, mret 0; Sys.unlink := λ _, mret 0; Sys.fstat := λ _, mret None;
  Sys.link := λ _ _, mret 0; Sys.mkdir := λ _, mret 0; Sys.chdir := λ _, mret 0; Sys.getpid := mret 1; Sys.sbrk := λ _, mret 0;
  Sys.sleep := λ _, mret 0; Sys.uptime := mret 0; Sys.yield := mret 0; Sys.shutdown := mret 0; Sys.nice := λ _ _, mret 0;
  Sys.ps := λ _, mret []; Sys.flock := λ _, mret 0; Sys.funlock := λ _, mret 0 |}.
Definition demo_in (fs : list Z) (k : nat) (t : table) (s : pstate) : Prop := s = mkPstate fs k t None.
#[local] Instance demo_descriptors : Descriptors demo_avail demo_bin demo_in ps_image.
Proof.
  split; unfold demo_in, wp; simpl.
  - by intros fs k t s ->.
  - by intros fs k t s bs ->.
  - by intros f fs k t s ->.
  - by intros fs k t s ->.
  - intros fs k t s fd o -> Ho. unfold ps_set. by rewrite Nat2Z.id.
  - intros fs k t s fd n o -> Ho Hn. simpl. rewrite Nat2Z.id, Ho. unfold ps_alloc. simpl. by rewrite Hn.
  - intros fs k t s name mode n -> Hn. unfold ps_alloc. simpl. rewrite Hn. by destruct (demo_avail name mode).
  - intros fs k t s ->. simpl. by destruct (pipe_ends t) as [[a b]|].
  - intros fs k t s a0 argv ->. destruct (demo_bin a0); [|done]. eexists _, _. by split.
Qed.

Definition demo_table : table := (Some ∘ Given <$> [0; 1; 2]%nat) ++ replicate 13 None.
Definition demo_command : scmd :=
  SPIPE (SEXEC [str "cat"; str "f"]) (SREDIR (SEXEC [str "wc"]) (str "out") (Z.lor O_WRONLY O_CREATE) 1).
Lemma runcmd_processes_witness :
  ends ps_image (Some ([str "wc"], Some (PipeR 0) :: Some (OpenFile (str "out") (Z.lor O_WRONLY O_CREATE)) :: Some (Given 2) :: replicate 13 None))
    (run_line (str "cat f | wc > out ") (mkPstate [7; 0] 0 demo_table None)).
Proof.
  destruct (runcmd_processes demo_avail demo_bin demo_in ps_image demo_command 0 demo_table) as [H _].
  - apply scmd_okb_ok. vm_compute. reflexivity.
  - split; [by repeat constructor|]. split; [by repeat constructor|]. split; [done|by right].
  - intros [|[|fd]] Hfd; [by exists (Given 0)|by exists (Given 1)|lia].
  - apply (H [7; 0] (mkPstate [7; 0] 0 demo_table None)); [simpl; lia|done].
Defined.
