(* ===== verification/Redirect.v ===== *)
(** * Redirect: a user program on the kernel

    The kernel's [fileread] and [filewrite], behind the process's table of open
    files, are an instance of the interface user programs are written against.
    The laws of that interface hold between two disk files, so that what is
    proved of a filter such as [cat] holds of it when the kernel runs it with
    its input and output redirected to files. *)

From S2P Require Import Prelude State Console Strings Lock Pipe Bio BufSpec Log Crash Inode Devs Fs Txn Blocks FsData Dinode FsFile Icache Dirs Paths Durable Kalloc File FileWrite DemoFs User Utils.

(** ** System calls on open files *)

Section Calls.
Context `{WaitBound}.

(** The open file of a descriptor, as [argfd] finds it. *)
Definition fd_file (fd : Z) : K (option nat) :=
  i ← curproc;
  p ← get_proc i;
  if (fd <? 0) || (fd >=? Z.of_nat NOFILE) then mret None else deref (p_ofile p !! Z.to_nat fd).
(** [read] and [write], the bytes passed as values instead of user addresses. *)
#[export] Instance kernel_io : Sys.Io kernel := {
  Sys.write fd bs := o ← fd_file fd;
    match o with Some f => filewrite f bs (Z.of_nat (length bs)) | None => mret (-1) end;
  Sys.read fd n := o ← fd_file fd;
    match o with Some f => fileread f n | None => mret ([], -1) end }.

Lemma wp_fd_file i p s (fd : nat) f (Q : option nat → kernel → Prop) :
  running s i p → (fd < NOFILE)%nat → p_ofile p !! fd = Some (Some f) → Q (Some f) s → wp (fd_file (Z.of_nat fd)) Q s.
Proof.
  intros Hr Hfd Hf HQ. unfold fd_file. apply wp_bind. eapply wp_curproc; [exact Hr|]. apply wp_bind.
  eapply wp_get_proc; [apply Hr|]. rewrite Z.geb_leb, (proj2 (Z.ltb_ge _ _)), (proj2 (Z.leb_gt _ _)) by lia. simpl.
  rewrite Nat2Z.id. eapply wp_deref; [exact Hf|done].
Qed.
End Calls.

(** ** Reading *)

Section Settle.
Context (i : nat) (p : proc).
Implicit Types s : kernel.

Lemma settled_quiet s : settled i p s → quiet i p [] [] s.
Proof.
  intros [S L N O C D Z]. split; try done.
  - constructor.
  - constructor.
  - intros bi n Hin. by apply not_elem_of_nil in Hin.
  - intros m Hm. by apply D in Hm.
  - simpl. lia.
Qed.
Lemma settled_iview s s' : settled i p s → quiet i p [] [] s' → iview s s' → settled i p s'.
Proof.
  intros [S L N O C D Z] Q V. pose proof (iview_log _ _ V) as El. split; rewrite ?El; try done.
  - apply Q.
  - destruct L. split; unfold home_block in *; rewrite ?El, ?(iview_disksize _ _ V); done.
  - intros m Hm. apply (q_pins _ _ _ _ _ Q) in Hm. by apply not_elem_of_nil in Hm.
Qed.
Lemma quiet_ftable W l s : quiet i p [] W s → quiet i p [] W (set_k_ftable l s).
Proof.
  intros [S N1 N2 Hh Hp Hr Hf]. split; try done. destruct S as [B R A Lk T Hl Hq]. split; try done.
  destruct B as [B1 B2 B3 B4]. split; try done. intros j b Hj Hb. by destruct (B2 j b Hj Hb).
Qed.
Lemma settled_ftable l s : settled i p s → settled i p (set_k_ftable l s).
Proof.
  intros Se. pose proof (quiet_ftable [] l s (settled_quiet s Se)) as Q. destruct Se as [S L N O C D Z].
  split; try done; [apply Q|]. by destruct L.
Qed.
End Settle.

Section Read.
Context `{WaitBound}.
Context (i : nat) (p : proc) (g jp : nat).
Implicit Types (s : kernel) (u : inode) (gl : file).

(** Open file [g] can be read and refers to the inode in slot [jp]. *)
Record rfile s gl u : Prop := {
  rf_file : k_ftable s !! g = Some gl;
  rf_kind : f_readable gl = true ∧ f_type gl = FD_INODE ∧ f_ip gl = Some jp;
  rf_slot : k_icache s !! jp = Some u;
  rf_inode : 1 ≤ i_ref u ∧ sl_locked (i_lock u) = false ∧ i_dev u = 1 ∧ i_valid u = true;
  rf_ok : file_ok s u;
  rf_off : 0 ≤ f_off gl ≤ i_size u }.

(** The tail of [fileread]: the offset advances by [k], the inode is unlocked. *)
Lemma wp_read_tail s gl u (k : Z) (r : list Z * Z) (Q : list Z * Z → kernel → Prop) :
  quiet i p [] [] s → k_ftable s !! g = Some gl → k_icache s !! jp = Some u → 1 ≤ i_ref u →
  i_lock u = mkSleeplock true (p_pid p) → r.2 = k → 0 ≤ k → 0 ≤ f_off gl + k < 2 ^ 32 →
  (∀ s', quiet i p [] [] s' → iview s (set_k_ftable (k_ftable s) s') → k_icache s' = <[jp := unlocked u]> (k_icache s) →
     k_ftable s' = <[g := set_f_off (f_off gl + k) gl]> (k_ftable s) → Q r s') →
  wp (when (r.2 >? 0) (upd_file g (λ w, set_f_off (u32 (f_off w + r.2)) w)) ;; iunlock jp ;; mret r) Q s.
Proof.
  intros Qt Hf Hs Hr Hl -> Hk Ho HQ. rewrite Z.gtb_ltb. destruct (Z.ltb_spec 0 k) as [Hk0|Hk0].
  - apply wp_bind, wp_modify. rewrite (list_alter_insert _ _ _ _ Hf), u32_small by lia. set (l := <[g := _]> _).
    apply wp_bind. eapply (wp_iunlock i p []); [by apply quiet_ftable|exact Hs|done|done|]. intros s' Q' V I'.
    apply wp_ret, HQ; [done| |done|by rewrite (iview_ftable _ _ V)].
    destruct V as [(bc & pt & d & w & E & Hpt) V2 V3 V4 V5]. split; try done. exists bc, pt, d, w. split; [|done].
    rewrite E. by destruct s.
  - assert (k = 0) as -> by lia. apply wp_bind, wp_ret, wp_bind. eapply (wp_iunlock i p []); [done|exact Hs|done|done|].
    intros s' Q' V I'. pose proof (iview_ftable _ _ V) as Ft. apply wp_ret, HQ; [done| |done|].
    + replace (set_k_ftable (k_ftable s) s') with s'; [done|]. rewrite <- Ft. by destruct s'.
    + rewrite Ft, Z.add_0_r. rewrite list_insert_id; [done|]. rewrite Hf. by destruct gl.
Qed.

Lemma wp_fileread s gl u (n : Z) (Q : list Z * Z → kernel → Prop) :
  quiet i p [] [] s → fs_ok s → rfile s gl u → 0 ≤ n < 2 ^ 31 →
  (∀ s', let bs := slice (Z.to_nat (f_off gl)) (Z.to_nat n) (contents s u) in
     let gl' := set_f_off (f_off gl + Z.of_nat (length bs)) gl in let u' := unlocked u in
     quiet i p [] [] s' → iview s (set_k_ftable (k_ftable s) s') → k_icache s' = <[jp := u']> (k_icache s) →
     k_ftable s' = <[g := gl']> (k_ftable s) → Q (bs, Z.of_nat (length bs)) s') →
  wp (fileread g n) Q s.
Proof.
  intros Qt F [Hf (Hr & Ht & Hip) Hs (Href & Hl & Hdev & Hval) FO Ho] Hn HQ. pose proof (fo_size _ _ FO) as Hsz.
  change (MAXFILE * BSIZE) with 71680 in Hsz. set (bs := slice _ _ _) in HQ.
  assert (Z.of_nat (length bs) = Z.min n (i_size u - f_off gl)) as Hlen.
  { unfold bs, slice. rewrite length_take, length_drop. pose proof (length_contents s u ltac:(lia)). lia. }
  unfold fileread. apply wp_bind. eapply wp_get_file; [exact Hf|]. rewrite Hr, Ht, Hip. cbn [negb].
  apply wp_bind. eapply wp_deref; [reflexivity|]. apply wp_bind.
  eapply (wp_ilock i p []); [exact Qt|done|exact Hs|done|done|done|by rewrite Hval|].
  unfold locked. cbn [i_valid set_i_lock]. rewrite Hval. set (ul := set_i_lock _ u). intros s1 Q1 V1 I1.
  assert (k_icache s1 !! jp = Some ul) as Hs1 by (rewrite I1; apply list_lookup_insert_eq; by eapply lookup_lt_Some).
  assert (file_ok s1 ul) as FO1 by (by apply file_ok_lock, (iview_file_ok s)).
  apply wp_bind. eapply wp_get_file; [by rewrite (iview_ftable _ _ V1)|]. rewrite (u32_small n) by lia.
  apply wp_bind. eapply (wp_readi i p jp []); [|apply FO1|apply Hsz|apply FO1|lia|lia|].
  { split; [done|done|done|apply FO1|]. intros q Hq Hk0. destruct (kb_used s1 ul (fo_blocks _ _ FO1) q Hq Hk0) as [(Hb & Hh & _) _]. apply Hh. }
  intros s2 Q2 V2. unfold readi_result. change (i_size ul) with (i_size u).
  rewrite Z.gtb_ltb, (proj2 (Z.ltb_ge _ _)), u32_small, (proj2 (Z.ltb_ge _ _)) by lia. cbn [orb].
  change (contents s1 ul) with (contents s1 u). rewrite (iview_contents s s1 u V1). fold bs.
  pose proof (same_view_icache _ _ V2) as I2. apply iview_view in V2.
  eapply (wp_read_tail s2 gl ul (Z.of_nat (length bs)));
    [done|by rewrite (iview_ftable _ _ V2), (iview_ftable _ _ V1)|by rewrite I2|done|done|by rewrite Hlen|lia|lia|].
  intros s3 Q3 V3 I3 Ft3. rewrite <- Hlen. apply HQ; [done| | |].
  - rewrite (iview_ftable _ _ V2), (iview_ftable _ _ V1) in V3. eapply iview_trans; [exact V1|]. by eapply iview_trans.
  - by rewrite I3, I2, I1, list_insert_insert_eq.
  - by rewrite Ft3, (iview_ftable _ _ V2), (iview_ftable _ _ V1).
Qed.
End Read.

(** ** Two files *)

(** The files of [u] and [v] have no block in common. *)
Definition apart (s : kernel) (u v : inode) : Prop :=
  ∀ q r, (q < NPOS)%nat → (r < NPOS)%nat → blk s u q ≠ 0 → blk s v r ≠ blk s u q.

(** Storing into one file leaves the other as it is. *)
Lemma stored_other ip s v off bs s' v' u :
  stored ip s v off bs s' v' → file_ok s u → apart s u v →
  file_ok s' u ∧ contents s' u = contents s u ∧ apart s' u v'.
Proof.
  intros St [B T Z Hf] A. destruct B as [B1 B2 B3 B4].
  assert (∀ q, (q < NPOS)%nat → blk s u q ≠ 0 → lblk s' (blk s u q) = lblk s (blk s u q) ∧ isfree s' (blk s u q) = false ∧
    ∀ r, (r < NPOS)%nat → blk s' v' r ≠ blk s u q) as Hfr.
  { intros q Hq H0. destruct (B3 q Hq H0) as [Hd Hu]. apply (sd_frame _ _ _ _ _ _ _ St); [done|done|]. intros r Hr. by apply A. }
  assert (∀ q, blk s' u q = blk s u q) as Hb.
  { intros q. apply blk_frame. intros Hi. apply (Hfr 12%nat); [unfold NPOS; lia|exact Hi]. }
  split; [split; [split|done|done|]|split].
  - done.
  - done.
  - intros q Hq. rewrite Hb. intros H0. destruct (B3 q Hq H0) as [Hd _]. split; [by apply (sd_data _ _ _ _ _ _ _ St)|by apply Hfr].
  - intros q r Hq Hr. rewrite !Hb. by apply B4.
  - intros k Hk. rewrite Hb. by apply Hf.
  - unfold contents. apply list_fmap_ext. intros j x [-> Hx]%lookup_seq. simpl in *.
    change (MAXFILE * BSIZE) with 71680 in Z. pose proof (Nat.div_mod j 512 ltac:(lia)) as Hdm.
    unfold fbyte. rewrite Hb. destruct (Hfr (fpos (j / 512))) as [E _]; [|apply Hf; lia|by rewrite E].
    apply fpos_lt, Nat.Div0.div_lt_upper_bound. lia.
  - intros q r Hq Hr. rewrite Hb. intros H0. by apply Hfr.
Qed.

Section Pair.
Context `{WaitBound}.
(** Descriptor 0 is open on file [g], inode slot [jp]; descriptor 1 on [f], slot [ip]. *)
Context (i : nat) (p : proc) (f ip g jp : nat).
Hypothesis Hp0 : p_ofile p !! 0%nat = Some (Some g).
Hypothesis Hp1 : p_ofile p !! 1%nat = Some (Some f).
Hypothesis Hfg : f ≠ g ∧ ip ≠ jp.
(** Output starts at offset [off] of a file that holds [c]; the input is [cin] from [k] on. *)
Context (off : nat) (c cin : list Z) (cap : nat).
#[local] Abbreviation size v := (Z.to_nat (i_size v)).

Record copying (inp out : list Z) (s : kernel) (fl gl : file) (v u : inode) : Prop := {
  cp_w : wfile i p f ip s fl v;
  cp_r : rfile g jp s gl u;
  cp_kind : f_writable fl = true ∧ f_type fl = FD_INODE;
  cp_apart : apart s u v;
  cp_cin : contents s u = cin;
  cp_inp : inp = drop (Z.to_nat (f_off gl)) cin;
  cp_out : f_off fl = Z.of_nat (off + length out);
  cp_contents : contents s v = splice off out c;
  cp_room : Z.of_nat (off + cap) ≤ MAXFILE * BSIZE;
  cp_blocks : (nb (size v `max` (off + cap)) + nblk off cap `min` 4 + 1 ≤ supply s v + nb (size v))%nat }.
Definition redirected (inp out : list Z) (s : kernel) : Prop := ∃ fl gl v u, copying inp out s fl gl v u.

Lemma copying_write inp out s bs fl gl v u (Q : Z → kernel → Prop) :
  copying inp out s fl gl v u → (length out + length bs ≤ cap)%nat →
  (∀ s', redirected inp (out ++ bs) s' → Q (Z.of_nat (length bs)) s') → wp (filewrite f bs (Z.of_nat (length bs))) Q s.
Proof.
  intros [W R [Kw Kt] A Ec Ei Eo Ect Hroom Hb] Hcap HQ. change (MAXFILE * BSIZE) with 71680 in *.
  pose proof (wf_off _ _ _ _ _ _ _ W) as Ho. pose proof (length_contents s v ltac:(lia)) as Hlc.
  unfold filewrite. apply wp_bind. eapply wp_get_file; [apply W|]. rewrite Kw, Kt. cbn [negb]. apply wp_bind.
  pose proof (wp_filewrite_loop i p f ip bs (length bs) s fl v 0 (nblk off cap `min` 4 + 1)) as Hloop.
  cbv zeta in Hloop. rewrite Nat.sub_0_r, Eo, Nat2Z.id in Hloop. rewrite Nat2Z.id. apply Hloop; clear Hloop; [done|lia|lia|change (MAXFILE * BSIZE) with 71680; lia| | |].
  { assert (nblk (off + length out) (length bs) ≤ nblk off cap)%nat; [|lia].
    pose proof (nblk_mono off (length out + length bs) cap ltac:(lia)). destruct (decide (length out = 0)%nat) as [E0|E0].
    - rewrite E0 in *. rewrite Nat.add_0_r. simpl in *. lia.
    - pose proof (nblk_tail off (length out) (length out + length bs) ltac:(lia) ltac:(lia)) as Ht.
      replace (length out + length bs - length out)%nat with (length bs) in Ht by lia. lia. }
  { pose proof (nb_mono (size v `max` (off + length out + length bs)) (size v `max` (off + cap)) ltac:(lia)). lia. }
  rewrite drop_0. intros s' v' W' St Ft. rewrite Z.eqb_refl. apply wp_ret, HQ.
  destruct (stored_other ip s v _ _ s' v' u St (rf_ok _ _ _ _ _ R) A) as (FO' & Ec' & A').
  pose proof (sd_size _ _ _ _ _ _ _ St) as Esz. pose proof (sd_supply _ _ _ _ _ _ _ St) as Hsu.
  eexists _, gl, v', u. split; try done.
  - destruct R. split; try done.
    + rewrite Ft, list_lookup_insert_ne by (by intros ->; destruct Hfg). done.
    + rewrite (sd_slots _ _ _ _ _ _ _ St), list_lookup_insert_ne by (by intros ->; destruct Hfg). done.
  - congruence.
  - cbn [f_off set_f_off]. rewrite length_app. lia.
  - rewrite (sd_contents _ _ _ _ _ _ _ St), Ect. symmetry. apply splice_app.
    rewrite Ect in Hlc. unfold splice in Hlc. rewrite !length_app, length_take, length_drop in Hlc. lia.
  - replace (size v' `max` (off + cap))%nat with (size v `max` (off + cap))%nat by lia. lia.
Qed.

Lemma copying_read inp out s (n : Z) fl gl v u (Q : list Z * Z → kernel → Prop) :
  copying inp out s fl gl v u → 0 ≤ n < 2 ^ 31 →
  (∀ s', redirected (drop (Z.to_nat n) inp) out s' →
     Q (take (Z.to_nat n) inp, Z.of_nat (length (take (Z.to_nat n) inp))) s') → wp (fileread g n) Q s.
Proof.
  intros [W R K A Ec Ei Eo Ect Hroom Hb] Hn HQ. pose proof (wf_settled _ _ _ _ _ _ _ W) as Se.
  eapply (wp_fileread i p g jp); [by apply settled_quiet|apply W|exact R|done|]. rewrite Ec.
  change (slice (Z.to_nat (f_off gl)) (Z.to_nat n) cin) with (take (Z.to_nat n) (drop (Z.to_nat (f_off gl)) cin)). rewrite <- Ei.
  cbv zeta. set (bs := take (Z.to_nat n) inp) in *. intros s' Q' V I' Ft. apply HQ. clear HQ.
  pose proof R as [Rf Rk Rs Ri Ro Rof]. pose proof (fo_size _ _ Ro) as Hsz. pose proof (length_contents s u ltac:(lia)) as Hlc. rewrite Ec in Hlc.
  set (s0 := set_k_ftable (k_ftable s) s') in *. assert (hview s s') as Hv by (destruct (iview_hview _ _ V); by split).
  assert (settled i p s') as Se'.
  { assert (s' = set_k_ftable (k_ftable s') s0) as -> by (by destruct s').
    apply settled_ftable. eapply settled_iview; [exact Se|by apply quiet_ftable|exact V]. }
  assert (Z.of_nat (length bs) = Z.min n (i_size u - f_off gl)) as Hbl.
  { unfold bs. rewrite Ei, length_take, length_drop. lia. }
  assert (drop (Z.to_nat n) inp = drop (Z.to_nat (f_off gl + Z.of_nat (length bs))) cin) as Erest.
  { rewrite Ei, drop_drop. destruct (decide (n ≤ i_size u - f_off gl)) as [Hle|Hgt].
    - f_equal. lia.
    - rewrite !drop_ge; [done|lia|lia]. }
  assert (fs_ok s') as F' by (by apply (hv_fs_ok s s' Hv), W).
  destruct W as [Ws Wf W1 Wfile Wip Wslot Wi Wok Wiok Wd Wo].
  exists fl, (set_f_off (f_off gl + Z.of_nat (length bs)) gl), v, (unlocked u). split.
  - split; try done.
    + by rewrite (hv_sb _ _ Hv).
    + rewrite Ft, list_lookup_insert_ne by (by intros ->; destruct Hfg). done.
    + rewrite I', list_lookup_insert_ne by (by intros ->; destruct Hfg). done.
    + by apply (hv_file_ok s s' Hv Wf).
    + by apply (hv_inode_ok s s' Hv).
    + by apply (hv_ondisk s s' Hv Wf).
  - split; try done.
    + rewrite Ft. apply list_lookup_insert_eq. by eapply lookup_lt_Some.
    + rewrite I'. apply list_lookup_insert_eq. by eapply lookup_lt_Some.
    + by destruct Ri as (? & ? & ? & ?).
    + by apply file_ok_lock, (hv_file_ok s s' Hv Wf).
    + cbn [f_off set_f_off]. change (i_size (unlocked u)) with (i_size u). lia.
  - done.
  - intros q r Hq Hr. change (blk s' u q ≠ 0 → blk s' v r ≠ blk s' u q).
    rewrite !(hv_blk s s' Hv) by (apply Ro || apply Wok). by apply A.
  - change (contents s' u = cin). by rewrite (hv_contents s s' Hv u Ro).
  - exact Erest.
  - done.
  - by rewrite (hv_contents s s' Hv v Wok).
  - done.
  - by rewrite (hv_supply s s' Hv Wf).
Qed.

(** The kernel keeps the promises a filter relies on. *)
#[export] Instance redirect_full : FullReads 0 redirected.
Proof.
  intros inp out s n (fl & gl & v & u & C) Hn. cbn [Sys.read kernel_io]. apply wp_bind.
  change 0 with (Z.of_nat 0). eapply wp_fd_file; [apply (st_run _ _ _ _ (se_st _ _ _ (wf_settled _ _ _ _ _ _ _ (cp_w _ _ _ _ _ _ _ C))))|unfold NOFILE; lia|exact Hp0|].
  eapply copying_read; [exact C|lia|]. intros s' Hs. simpl. done.
Qed.
#[export] Instance redirect_streams : Streams 0 cap redirected.
Proof.
  split.
  - intros inp out s n Hi Hn. eapply wp_mono; [apply (full_read inp out s n Hi Hn)|]. intros r s' (E1 & E2 & Hs).
    exists (drop (Z.to_nat n) inp). rewrite E1, take_drop. split; [done|]. rewrite E2, E1. split; [done|]. split; [rewrite length_take; lia|].
    split; [|done]. destruct inp; [done|]. destruct (Z.to_nat n) eqn:En; [lia|]. done.
  - intros inp out s bs (fl & gl & v & u & C) Hcap. cbn [Sys.write kernel_io]. apply wp_bind. change 1 with (Z.of_nat 1).
    eapply wp_fd_file; [apply (st_run _ _ _ _ (se_st _ _ _ (wf_settled _ _ _ _ _ _ _ (cp_w _ _ _ _ _ _ _ C))))|unfold NOFILE; lia|exact Hp1|].
    eapply copying_write; [exact C|done|]. intros s' Hs. done.
Qed.
End Pair.

(** C7. [cat] with its input and output redirected to two disk files, run on the
    kernel: every [read] is a [fileread] of the kernel and every [write] a
    [filewrite] with its transactions.  The output file receives the rest of the
    input file at its offset, all on disk when [cat] returns; the input file is
    unchanged, its offset at its end; no transaction is left open.  [cat] ends
    whatever the number of reads and writes. *)
Theorem cat_redirected `{WaitBound} `{LoopBound} (i : nat) (p : proc) (f ip g jp : nat) (s : kernel)
    (fl gl : file) (v u : inode) :
  let off := Z.to_nat (f_off fl) in let inp := drop (Z.to_nat (f_off gl)) (contents s u) in
  p_ofile p !! 0%nat = Some (Some g) → p_ofile p !! 1%nat = Some (Some f) → f ≠ g ∧ ip ≠ jp →
  wfile i p f ip s fl v → rfile g jp s gl u → f_writable fl = true ∧ f_type fl = FD_INODE → apart s u v →
  (length inp ≤ loop_bound)%nat → Z.of_nat (off + length inp) ≤ MAXFILE * BSIZE →
  (nb (Z.to_nat (i_size v) `max` (off + length inp)) + nblk off (length inp) `min` 4 + 1 ≤ nfree s + nb (Z.to_nat (i_size v)))%nat →
  wp (cat 0) (λ _ s', ∃ fl' gl' v' u', wfile i p f ip s' fl' v' ∧ rfile g jp s' gl' u' ∧
    contents s' v' = splice off inp (contents s v) ∧ f_off fl' = Z.of_nat (off + length inp) ∧
    contents s' u' = contents s u ∧ drop (Z.to_nat (f_off gl')) (contents s u) = [] ∧
    (∀ m, 0 ≤ m < k_disksize s' → k_disk s' !! m = Some (lblk s' m))) s.
Proof.
  intros off inp Hp0 Hp1 Hfg W R K A Hb Hmax Hnb. pose proof (wf_off _ _ _ _ _ _ _ W) as Ho.
  pose proof (redirect_streams i p f ip g jp Hp0 Hp1 Hfg off (contents s v) (contents s u) (length inp)) as Hst.
  unfold cat. apply wp_bind.
  eapply (wp_cat_loop 0 (length inp) (redirected i p f ip g jp off (contents s v) (contents s u) (length inp)) loop_bound inp []);
    [|simpl; lia|done|].
  - exists fl, gl, v, u. split; try done.
    + simpl. lia.
    + by rewrite splice_nil.
    + unfold supply. lia.
  - intros s' (fl' & gl' & v' & u' & [C1 C2 C3 C4 C5 C6 C7 C8 C9 C10]). cbn [Z.ltb Z.compare]. apply wp_ret.
    simpl app in *. exists fl', gl', v', u'. split_and!; try done. intros m. apply (settled_disk i p), C1.
Qed.

(** ** The demonstration machine with both files open *)

Definition demo_catproc : proc := set_p_ofile (<[0%nat := Some 1%nat]> (<[1%nat := Some 0%nat]> (replicate NOFILE None))) demo_proc.
Definition demo_rootopen : inode := set_i_lock (mkSleeplock false 0) demo_rootnode.
Definition demo_catfile : file := mkFile FD_INODE 1 true false 0 (Some 1%nat) 0.
Definition demo_cat : kernel :=
  set_k_log (mkLog 2 30 0 false 1 0 (replicate (Z.to_nat LOGSIZE) 0))
    (set_k_ftable (<[0%nat := demo_openfile]> (<[1%nat := demo_catfile]> (k_ftable kernel0)))
      (set_k_icache (<[0%nat := demo_closed]> (<[1%nat := demo_rootopen]> demo_icache))
        (set_k_ptable (<[0%nat := demo_catproc]> (k_ptable demo_fs)) demo_fs))).

Lemma demo_cat_view : hview demo_fs demo_cat.
Proof. destruct demo_fs_boot as (_ & _ & _ & _ & El & _). by split; rewrite ?El. Qed.
Lemma demo_cat_settled : settled 0 demo_catproc demo_cat.
Proof.
  destruct demo_fs_boot as (Hs & Hd & Ed & Es & El & _). destruct Hs as [B R A Lk T Hl Hq]. split; try done.
  - split; try done.
    + destruct B as [B1 B2 B3 B4]. split; try done. intros j b Hj Hb. by destruct (B2 j b Hj Hb).
    + split; [apply R|]. simpl. apply list_lookup_insert_eq. eapply lookup_lt_Some, R.
  - split; unfold home_block; change (k_disksize demo_cat) with (k_disksize demo_fs); rewrite ?Es; simpl; try done; try lia.
    intros b Hb%elem_of_nil. done.
Qed.
Lemma demo_cat_files :
  wfile 0 demo_catproc 0 0 demo_cat demo_openfile demo_closed ∧ rfile 1 1 demo_cat demo_catfile demo_rootopen ∧
  apart demo_cat demo_rootopen demo_closed.
Proof.
  pose proof demo_cat_view as V. destruct demo_fs_boot as (_ & _ & _ & _ & _ & Esb & _). split; [|split].
  - split; try done.
    + apply demo_cat_settled.
    + apply (hv_fs_ok demo_fs); [exact V|apply demo_fs_ok].
    + change (k_sb demo_cat) with (k_sb demo_fs). by rewrite Esb.
    + apply (hv_file_ok demo_fs demo_cat V demo_fs_ok), file_ok_lock, demo_file_ok.
    + apply (hv_inode_ok demo_fs demo_cat V), inode_ok_lock, demo_inode_ok.
    + apply (hv_ondisk demo_fs demo_cat V demo_fs_ok); [apply inode_ok_lock, demo_inode_ok|].
      change (dinode_at demo_tree 2 = demo_file). apply demo_tree_inodes.
  - split; try done. apply (hv_file_ok demo_fs demo_cat V demo_fs_ok), file_ok_lock, demo_dir_ok.
  - intros q r Hq Hr.
    unfold demo_rootopen, demo_closed. rewrite !blk_lock.
    rewrite !(hv_blk _ _ V) by (apply demo_dir_ok || apply demo_file_ok). rewrite demo_root_blk, demo_blk by done.
    repeat case_decide; done.
Qed.

Lemma cat_redirected_witness :
  wp (cat (S := kernel) (H := kernel_io (H := 0%nat)) (H0 := 100%nat) 0)
    (λ _ s', ∃ v', contents s' v' = splice 598 (take 48 (demo_fsblock 34)) (contents demo_fs demo_fnode)) demo_cat.
Proof.
  destruct demo_cat_files as (W & R & A). pose proof demo_cat_view as V.
  assert (contents demo_cat demo_rootopen = take 48 (demo_fsblock 34)) as Er.
  { unfold demo_rootopen. rewrite contents_lock.
    rewrite (hv_contents _ _ V) by apply demo_dir_ok. apply demo_root_contents. }
  assert (contents demo_cat demo_closed = contents demo_fs demo_fnode) as Ec.
  { unfold demo_closed. rewrite contents_lock. apply (hv_contents _ _ V), demo_file_ok. }
  pose proof (cat_redirected (H := 0%nat) (H0 := 100%nat) 0 demo_catproc 0 0 1 1 demo_cat demo_openfile demo_catfile demo_closed demo_rootopen) as Hw.
  cbv zeta in Hw. rewrite Er, Ec in Hw.
  assert (length (drop (Z.to_nat (f_off demo_catfile)) (take 48 (demo_fsblock 34))) = 48%nat) as El by (vm_compute; reflexivity).
  rewrite El in Hw. eapply wp_mono; [apply Hw; clear Hw|].
  - reflexivity.
  - reflexivity.
  - done.
  - exact W.
  - exact R.
  - done.
  - exact A.
  - unfold loop_bound. lia.
  - vm_compute. discriminate.
  - rewrite (hv_nfree _ _ V demo_fs_ok), demo_nfree. vm_compute. lia.
  - intros _ s' (fl' & gl' & v' & u' & _ & _ & E & _). exists v'. exact E.
Defined.
