(* ===== verification/Mkfs.v ===== *)
(** * Mkfs: the program that builds the file system image (mkfs.c)

    mkfs runs on the build machine.  Its state is the image file, a map from
    sector numbers to blocks, and the two counters; [exit(1)] and a failed
    [assert] are panics.  The host is little-endian: an integer in its memory is
    its bytes in the image, and [xshort] and [xint] are the identity on the
    values they are called with ([xshort_id], [xint_id]), so the definitions
    below leave them out.  An input file is its name and the pieces in which
    [read] delivers it; the image file is writable.

    The file ends with [wp_mkfs_main]: the program ends with a complete image
    that holds the directory and the files.  What the kernel makes of it is the
    subject of MkfsBoot. *)

From S2P Require Import Prelude State Strings Console Lock Bio BufSpec Log Inode Fs Txn Blocks FsData Dinode FsFile Dirs Paths.
#[local] Arguments Nat.div : simpl never.
#[local] Arguments Nat.modulo : simpl never.

(** ** The code *)

(** The bytes, in Intel order, as the host reads them. *)
Definition xshort (x : Z) : Z := le_get [u8 x; u8 (Z.shiftr x 8)].
Definition xint (x : Z) : Z := le_get [u8 x; u8 (Z.shiftr x 8); u8 (Z.shiftr x 16); u8 (Z.shiftr x 24)].
Lemma xshort_id x : 0 ≤ x < 2 ^ 16 → xshort x = x.
Proof. intros Hx. unfold xshort, u8. simpl le_get. rewrite !Z.shiftr_div_pow2 by done. change (2 ^ 8) with 256. Z.div_mod_to_equations. lia. Qed.
Lemma xint_id x : 0 ≤ x < 2 ^ 32 → xint x = x.
Proof.
  intros Hx. unfold xint, u8. simpl le_get. rewrite !Z.shiftr_div_pow2 by done. change (2 ^ 8) with 256.
  replace (2 ^ 16) with (256 * 256) by done. replace (2 ^ 24) with (256 * 256 * 256) by done. rewrite <- !Zdiv.Zdiv_Zdiv by lia.
  Z.div_mod_to_equations. lia.
Qed.

Definition NINODES : Z := 200.
Definition nbitmap : Z := FSSIZE / (BSIZE * 8) + 1.
Definition ninodeblocks : Z := NINODES / IPB + 1.
Definition nlog : Z := LOGSIZE.
Definition nmeta : Z := 2 + nlog + ninodeblocks + nbitmap.
Definition nblocks : Z := FSSIZE - nmeta.
Definition mk_sb : superblock :=
  mkSuperblock FSSIZE nblocks NINODES nlog 2 (2 + nlog) (2 + nlog + ninodeblocks).
Definition zeroes : list Z := replicate (Z.to_nat BSIZE) 0.

Record mkfs := mkMkfs { mk_img : gmap Z (list Z); freeinode : Z; freeblock : Z }.

Definition wsect (sec : Z) (buf : list Z) : M mkfs unit := λ m,
  if sec >? FSSIZE then Panic "wsect" else
  Ok tt (mkMkfs (<[sec := buf]> (mk_img m)) (freeinode m) (freeblock m)).
(** Reading behind the end of the image fails. *)
Definition rsect (sec : Z) : M mkfs (list Z) := λ m,
  if sec >? FSSIZE then Panic "rsect" else
  match mk_img m !! sec with Some d => Ok d m | None => Panic "read" end.

Definition winode (inum : Z) (ip : dinode) : M mkfs unit :=
  let bn := IBLOCK inum mk_sb in
  buf ← rsect bn;
  wsect bn (dinode_put (dinode_off inum) ip buf).
Definition rinode (inum : Z) : M mkfs dinode :=
  buf ← rsect (IBLOCK inum mk_sb);
  mret (dinode_get (dinode_off inum) buf).

(** [freeinode++] and [freeblock++] *)
Definition next_inode : M mkfs Z := λ m,
  Ok (freeinode m) (mkMkfs (mk_img m) (u32 (freeinode m + 1)) (freeblock m)).
Definition next_block : M mkfs Z := λ m,
  Ok (freeblock m) (mkMkfs (mk_img m) (freeinode m) (u32 (freeblock m + 1))).

Definition mk_ialloc (type : Z) : M mkfs Z :=
  inum ← next_inode;
  winode inum (mkDinode type 0 0 1 0 (replicate 13 0)) ;;
  mret inum.

Definition mk_balloc (used : Z) : M mkfs unit :=
  if negb (used <? BSIZE * 8) then panic "balloc" else
  wsect (sb_bmapstart mk_sb) (fold_left (λ buf i, bit_set (Z.of_nat i) buf) (seq 0 (Z.to_nat used)) zeroes).

(** [din.addrs[q] = b] *)
Definition with_addr (q : nat) (b : Z) (di : dinode) : dinode :=
  mkDinode (di_type di) (di_major di) (di_minor di) (di_nlink di) (di_size di) (<[q := b]> (di_addrs di)).
(** The block that holds file block [fbn], allocated if it is not there. *)
Definition fblock (din : dinode) (fbn : Z) : M mkfs (dinode * Z) :=
  let addr k := default 0 (di_addrs din !! Z.to_nat k) in
  if fbn <? NDIRECT then
    if addr fbn =? 0 then x ← next_block; mret (with_addr (Z.to_nat fbn) x din, x)
    else mret (din, addr fbn)
  else
    d ← (if addr NDIRECT =? 0 then x ← next_block; mret (with_addr (Z.to_nat NDIRECT) x din) else mret din);
    let ind := default 0 (di_addrs d !! Z.to_nat NDIRECT) in
    let o := Z.to_nat (4 * (fbn - NDIRECT)) in
    indirect ← rsect ind;
    if get32 o indirect =? 0 then
      x ← next_block;
      wsect ind (put32 o x indirect) ;;
      mret (d, x)
    else mret (d, get32 o indirect).

(** The loop of [iappend]: the inode and the offset behind the bytes [p]. *)
Fixpoint iappend_loop (fuel : nat) (din : dinode) (off : Z) (p : list Z) : M mkfs (dinode * Z) :=
  match p with
  | [] => mret (din, off)
  | _ =>
      let fbn := off / BSIZE in
      if negb (fbn <? MAXFILE) then panic "iappend" else
      r ← fblock din fbn;
      let n1 := Z.min (Z.of_nat (length p)) ((fbn + 1) * BSIZE - off) in
      buf ← rsect r.2;
      wsect r.2 (splice (Z.to_nat (off - fbn * BSIZE)) (take (Z.to_nat n1) p) buf) ;;
      match fuel with
      | O => nofuel
      | S fuel' => iappend_loop fuel' r.1 (off + n1) (drop (Z.to_nat n1) p)
      end
  end.
Definition with_size (din : dinode) (n : Z) : dinode :=
  mkDinode (di_type din) (di_major din) (di_minor din) (di_nlink din) n (di_addrs din).
Definition iappend (inum : Z) (p : list Z) : M mkfs unit :=
  din ← rinode inum;
  r ← iappend_loop (length p) din (di_size din) p;
  winode inum (with_size r.1 r.2).

(** The bytes of a directory entry; the name is copied by [strncpy]. *)
Definition dirent (inum : Z) (name : list Z) : list Z :=
  le_put 2 (u16 inum) ++ take DIRSIZ (name ++ replicate DIRSIZ 0).

(** An input file: its name, and the pieces [read] delivers. *)
Abbreviation srcfile := (list Z * list (list Z))%type.
(** The name of an input file in the image. *)
Definition mk_name (arg : list Z) : list Z := if bool_decide (head arg = Some (ch "_")) then tail arg else arg.
Definition mk_file (rootino : Z) (f : srcfile) : M mkfs unit :=
  if bool_decide (SLASH ∈ f.1) then panic "index" else
  inum ← mk_ialloc T_FILE;
  iappend rootino (dirent inum (mk_name f.1)) ;;
  forM f.2 (iappend inum).

Definition sb_block : list Z :=
  put32s [sb_size mk_sb; sb_nblocks mk_sb; sb_ninodes mk_sb; sb_nlog mk_sb; sb_logstart mk_sb; sb_inodestart mk_sb; sb_bmapstart mk_sb] 0 zeroes.

Definition fix_root (rootino : Z) : M mkfs unit :=
  din ← rinode rootino;
  winode rootino (with_size din ((di_size din / BSIZE + 1) * BSIZE)).

Definition mkfs_main (files : list srcfile) : M mkfs unit :=
  modify (λ m, mkMkfs (mk_img m) (freeinode m) nmeta) ;;
  forM (seq 0 (Z.to_nat FSSIZE)) (λ i, wsect (Z.of_nat i) zeroes) ;;
  wsect 1 sb_block ;;
  rootino ← mk_ialloc T_DIR;
  if negb (rootino =? ROOTINO) then panic "rootino" else
  iappend rootino (dirent rootino (str ".")) ;;
  iappend rootino (dirent rootino (str "..")) ;;
  forM files (mk_file rootino) ;;
  fix_root rootino ;;
  used ← gets freeblock;
  mk_balloc used.
Definition mkfs0 : mkfs := mkMkfs ∅ 1 0.

(** ** A file in an image *)

Abbreviation image := (Z → list Z).
Definition iset (b : Z) (d : list Z) (I : image) : image := λ x, if x =? b then d else I x.

(** The block at position [q] of the inode: 12 is the indirect block and [fpos k]
    the position of file block [k], as in the kernel's view of a file. *)
Definition dind (di : dinode) : Z := default 0 (di_addrs di !! 12%nat).
Definition mblk (I : image) (di : dinode) (q : nat) : Z :=
  if decide (q ≤ 12)%nat then default 0 (di_addrs di !! q)
  else if dind di =? 0 then 0 else get32 (4 * (q - 13)) (I (dind di)).

(** [data] is in the file, the positions in [P] are allocated, with blocks below
    [fb], and behind [data] there are zeroes. *)
Record mfile (I : image) (fb : Z) (di : dinode) (data : list Z) (P : nat → Prop) : Prop := {
  mf_addrs : length (di_addrs di) = 13%nat;
  mf_pos : ∀ q, (q < NPOS)%nat → mblk I di q ≠ 0 ↔ P q;
  mf_rng : ∀ q, (q < NPOS)%nat → mblk I di q ≠ 0 → nmeta ≤ mblk I di q < fb;
  mf_inj : ∀ q r, (q < NPOS)%nat → (r < NPOS)%nat → mblk I di q ≠ 0 → mblk I di q = mblk I di r → q = r;
  mf_len : (length data ≤ 512 * 140)%nat;
  mf_data : ∀ x v, data !! x = Some v → P (fpos (x / 512)) ∧ I (mblk I di (fpos (x / 512))) !! (x mod 512)%nat = Some v;
  mf_zero : ∀ x, (length data ≤ x < 512 * 140)%nat → P (fpos (x / 512)) → I (mblk I di (fpos (x / 512))) !! (x mod 512)%nat = Some 0 }.

(** The positions a file of [e] bytes needs. *)
Definition need (e q : nat) : Prop :=
  if decide (q < 12)%nat then (512 * q < e)%nat else if decide (q = 12)%nat then (512 * 12 < e)%nat else (512 * (q - 1) < e)%nat.

Section File.
Implicit Types (I : image) (fb b : Z) (di : dinode) (data bs : list Z) (P : nat → Prop) (q r k x : nat).

Lemma fpos_block x : (x < 512 * 140)%nat → (x / 512 < 140)%nat.
Proof. intros. apply Nat.Div0.div_lt_upper_bound; lia. Qed.
Lemma need_fpos e k : (k < 140)%nat → need e (fpos k) ↔ (512 * k < e)%nat.
Proof. intros Hk. unfold need, fpos. repeat case_decide; lia. Qed.

Lemma mblk_ext I I' di q : (dind di ≠ 0 → I' (dind di) = I (dind di)) → mblk I' di q = mblk I di q.
Proof. intros H. unfold mblk. case_decide; [done|]. destruct (Z.eqb_spec (dind di) 0); [done|]. by rewrite H. Qed.
Lemma mblk_ind I di : mblk I di 12 = dind di.
Proof. done. Qed.

(** Other blocks may change. *)
Lemma mfile_frame I I' fb fb' di data P :
  mfile I fb di data P → fb ≤ fb' → (∀ q, (q < NPOS)%nat → mblk I di q ≠ 0 → I' (mblk I di q) = I (mblk I di q)) → mfile I' fb' di data P.
Proof.
  intros [H1 H2 H3 H4 H5 H6 H7] Hfb Hsame.
  assert (∀ q, mblk I' di q = mblk I di q) as E.
  { intros q. apply mblk_ext. intros Hd. apply (Hsame 12%nat); [unfold NPOS; lia|done]. }
  assert (∀ x, (x < 512 * 140)%nat → P (fpos (x / 512)) → I' (mblk I di (fpos (x / 512))) = I (mblk I di (fpos (x / 512)))) as Hb.
  { intros x Hx HP. pose proof (fpos_lt _ (fpos_block x Hx)) as [Hq _]. apply Hsame; [done|]. by apply H2. }
  split; try done; intros; rewrite ?E in *; auto.
  - pose proof (H3 q ltac:(done) ltac:(done)). lia.
  - destruct (H6 x v) as [HP Hv]; [done|]. split; [done|]. rewrite Hb; [done| |done]. apply lookup_lt_Some in H. lia.
  - rewrite Hb by (done || lia). auto.
Qed.
Lemma mfile_pos I fb di data P P' : mfile I fb di data P → (∀ q, (q < NPOS)%nat → P q ↔ P' q) → mfile I fb di data P'.
Proof.
  intros [H1 H2 H3 H4 H5 H6 H7] HP. split; try done.
  - intros q Hq. rewrite H2 by done. by apply HP.
  - intros x v Hv. destruct (H6 x v Hv) as [Hp Hd]. split; [|done]. apply HP; [|done]. apply fpos_lt, fpos_block. apply lookup_lt_Some in Hv. lia.
  - intros x Hx Hp. apply H7; [done|]. apply HP; [|done]. apply fpos_lt, fpos_block. lia.
Qed.

Lemma get32_zeroes o : get32 o zeroes = 0.
Proof.
  unfold get32. assert (∀ l, Forall (λ x : Z, x = 0) l → le_get l = 0) as H.
  { induction 1 as [|x l -> _ IH]; [done|]. simpl. rewrite IH. done. }
  apply H, Forall_take, Forall_drop. unfold zeroes. apply Forall_replicate. done.
Qed.
Lemma lookup_zeroes x : (x < 512)%nat → zeroes !! x = Some 0.
Proof. intros. apply lookup_replicate_2. unfold BSIZE. lia. Qed.
Lemma mod_lt x : (x mod 512 < 512)%nat.
Proof. apply Nat.mod_upper_bound. lia. Qed.

Lemma mblk_addr I di q fb r : length (di_addrs di) = 13%nat → (q ≤ 12)%nat → mblk I di q = 0 → I fb = zeroes → fb ≠ 0 →
  mblk I (with_addr q fb di) r = if decide (r = q) then fb else mblk I di r.
Proof.
  intros H1 Hq Eq0 Hz Hfb. unfold mblk, dind, with_addr. simpl. destruct (decide (r ≤ 12)%nat) as [Hr12|Hr12].
  - case_decide as Er; [subst; rewrite list_lookup_insert_eq by lia; done|by rewrite list_lookup_insert_ne].
  - rewrite decide_False by lia. destruct (decide (q = 12)%nat) as [->|Hq12].
    + rewrite list_lookup_insert_eq by lia. simpl. rewrite (proj2 (Z.eqb_neq fb 0)) by lia. rewrite Hz, get32_zeroes.
      change (default 0 (di_addrs di !! 12%nat)) with (mblk I di 12). by rewrite Eq0.
    + by rewrite list_lookup_insert_ne by lia.
Qed.
Lemma mblk_indirect I di q fb r : dind di ≠ 0 → (12 < q < NPOS)%nat → (r < NPOS)%nat → length (I (dind di)) = 512%nat → 0 ≤ fb < 2 ^ 32 →
  mblk (iset (dind di) (put32 (4 * (q - 13)) fb (I (dind di))) I) di r = if decide (r = q) then fb else mblk I di r.
Proof.
  intros Hd0 Hq Hr Hlen Hfb. unfold mblk. rewrite (proj2 (Z.eqb_neq _ _) Hd0). unfold iset. rewrite Z.eqb_refl. unfold NPOS in *.
  case_decide as Hr12; [rewrite decide_False by lia; done|].
  case_decide as Er; [subst; apply get32_put32_eq; lia|]. apply get32_put32_ne; lia.
Qed.
(** A block for a direct position, or for the indirect block. *)
Lemma mfile_addr I fb di data P q :
  mfile I fb di data P → (q ≤ 12)%nat → ¬ P q → I fb = zeroes → nmeta ≤ fb →
  mfile I (fb + 1) (with_addr q fb di) data (λ r, P r ∨ r = q).
Proof.
  intros F Hq HnP Hz Hfb. pose proof F as [H1 H2 H3 H4 H5 H6 H7]. set (di' := with_addr q fb di).
  assert (0 < nmeta) as Hnm by done. assert (mblk I di q = 0) as Eq0.
  { destruct (decide (mblk I di q = 0)) as [|Hne]; [done|]. exfalso. apply HnP, H2; [unfold NPOS; lia|done]. }
  assert (∀ r, (r < NPOS)%nat → mblk I di' r = if decide (r = q) then fb else mblk I di r) as E by (intros r _; apply mblk_addr; done || lia).
  assert (∀ x, (x < 512 * 140)%nat → P (fpos (x / 512)) → mblk I di' (fpos (x / 512)) = mblk I di (fpos (x / 512))) as Ex.
  { intros x Hx HP. rewrite E by (apply fpos_lt, fpos_block; lia). rewrite decide_False; [done|]. intros E'. by rewrite E' in HP. }
  split; try done.
  - simpl. by rewrite length_insert.
  - intros r Hr. rewrite E by done. case_decide as Er; [split; [by right|lia]|]. rewrite H2 by done. tauto.
  - intros r Hr. rewrite E by done. case_decide; [lia|]. intros Hne. pose proof (H3 r Hr Hne). lia.
  - intros r r' Hr Hr'. rewrite !E by done. case_decide as E1; case_decide as E2; subst; try done.
    + intros _ Eb. pose proof (H3 r' Hr' ltac:(lia)). lia.
    + intros Hne Eb. pose proof (H3 r Hr Hne). lia.
    + by apply H4.
  - intros x v Hv. destruct (H6 x v Hv) as [HP Hd]. apply lookup_lt_Some in Hv. split; [by left|]. by rewrite Ex by (done || lia).
  - intros x Hx HP. rewrite E by (apply fpos_lt, fpos_block; lia). case_decide as Er; [rewrite Hz; apply lookup_zeroes, mod_lt|].
    destruct HP as [HP|HP]; [by apply H7|done].
Qed.

(** A block for a position in the indirect block. *)
Lemma mfile_indirect I fb di data P q :
  mfile I fb di data P → (12 < q < NPOS)%nat → ¬ P q → P 12%nat → I fb = zeroes → nmeta ≤ fb < 2 ^ 32 → length (I (dind di)) = 512%nat →
  mfile (iset (dind di) (put32 (4 * (q - 13)) fb (I (dind di))) I) (fb + 1) di data (λ r, P r ∨ r = q).
Proof.
  intros F Hq HnP HP12 Hz Hfb Hlen. pose proof F as [H1 H2 H3 H4 H5 H6 H7]. set (I' := iset _ _ _).
  assert (0 < nmeta) as Hnm by done. assert (dind di ≠ 0) as Hd0 by (apply (H2 12%nat); [unfold NPOS; lia|done]).
  pose proof (H3 12%nat ltac:(unfold NPOS; lia) Hd0) as Hdr. rewrite mblk_ind in Hdr.
  assert (I' (dind di) = put32 (4 * (q - 13)) fb (I (dind di))) as Eind by (unfold I', iset; by rewrite Z.eqb_refl).
  assert (∀ b, b ≠ dind di → I' b = I b) as Eo by (intros b Hb; unfold I', iset; by rewrite (proj2 (Z.eqb_neq _ _) Hb)).
  assert (∀ r, (r < NPOS)%nat → mblk I' di r = if decide (r = q) then fb else mblk I di r) as E by (intros r Hr; apply mblk_indirect; done || lia).
  assert (∀ x, (x < 512 * 140)%nat → P (fpos (x / 512)) →
    mblk I' di (fpos (x / 512)) = mblk I di (fpos (x / 512)) ∧ I' (mblk I di (fpos (x / 512))) = I (mblk I di (fpos (x / 512)))) as Ex.
  { intros x Hx HP. pose proof (fpos_lt _ (fpos_block x Hx)) as [Hf Hf12]. split.
    - rewrite E by done. rewrite decide_False; [done|]. intros E'. by rewrite E' in HP.
    - apply Eo. rewrite <- mblk_ind with (I := I). intros E'. apply Hf12, (H4 _ _ Hf); [unfold NPOS; lia|by apply H2|done]. }
  split; try done.
  - intros r Hr. rewrite E by done. case_decide as Er; [split; [by right|lia]|]. rewrite H2 by done. tauto.
  - intros r Hr. rewrite E by done. case_decide; [lia|]. intros Hne. pose proof (H3 r Hr Hne). lia.
  - intros r r' Hr Hr'. rewrite !E by done. case_decide as E1; case_decide as E2; subst; try done.
    + intros _ Eb. pose proof (H3 r' Hr' ltac:(lia)). lia.
    + intros Hne Eb. pose proof (H3 r Hr Hne). lia.
    + by apply H4.
  - intros x v Hv. destruct (H6 x v Hv) as [HP Hd]. apply lookup_lt_Some in Hv. destruct (Ex x ltac:(lia) HP) as [-> ->]. split; [by left|done].
  - intros x Hx HP. destruct (decide (fpos (x / 512) = q)) as [Er|Er].
    + rewrite Er, E, decide_True by (done || lia). rewrite Eo, Hz by lia. apply lookup_zeroes, mod_lt.
    + destruct HP as [HP|HP]; [|done]. destruct (Ex x ltac:(lia) HP) as [-> ->]. by apply H7.
Qed.

(** Bytes at the end. *)
Lemma mfile_write I fb di data P bs :
  let k := (length data / 512)%nat in let o := (length data mod 512)%nat in let b := mblk I di (fpos k) in
  mfile I fb di data P → (length data < 512 * 140)%nat → P (fpos k) → (o + length bs ≤ 512)%nat → length (I b) = 512%nat →
  mfile (iset b (splice o bs (I b)) I) fb di (data ++ bs) P.
Proof.
  intros k o b F Hlt HPk Ho Hlen. pose proof F as [H1 H2 H3 H4 H5 H6 H7]. set (I' := iset _ _ _).
  pose proof (Nat.div_mod (length data) 512 ltac:(lia)) as Ediv. fold k o in Ediv. pose proof (fpos_block _ Hlt) as Hk. fold k in Hk.
  pose proof (fpos_lt k Hk) as [Hkq Hk12].
  assert (I' b = splice o bs (I b)) as Eb by (unfold I', iset; by rewrite Z.eqb_refl).
  assert (∀ c, c ≠ b → I' c = I c) as Eo by (intros c Hc; unfold I', iset; by rewrite (proj2 (Z.eqb_neq _ _) Hc)).
  assert (∀ q, mblk I' di q = mblk I di q) as E.
  { intros q. apply mblk_ext. intros Hd. apply Eo. rewrite <- mblk_ind with (I := I). intros E'. apply Hk12. symmetry. apply (H4 12%nat); [unfold NPOS; lia|done|done|done]. }
  assert (∀ x, (x < 512 * 140)%nat → P (fpos (x / 512)) → (x / 512)%nat ≠ k → I' (mblk I di (fpos (x / 512))) = I (mblk I di (fpos (x / 512)))) as Ene.
  { intros x Hx HP Hne. pose proof (fpos_block x Hx) as Hx'. pose proof (fpos_lt _ Hx') as [Hf _]. apply Eo. intros E'. apply Hne.
    assert (fpos (x / 512) = fpos k) as Ef by (apply H4; [done|done|by apply H2|done]). unfold fpos in Ef. repeat case_decide; lia. }
  split; try done; rewrite ?length_app; try (intros; rewrite ?E in *; auto; fail); [lia| |].
  - intros x v Hv. destruct (decide (x < length data)%nat) as [Hx|Hx].
    + rewrite lookup_app_l in Hv by done. destruct (H6 x v Hv) as [HP Hd]. split; [done|]. rewrite E.
      destruct (decide (x / 512 = k)%nat) as [Ek|Ek]; [|by rewrite Ene by (done || lia)].
      rewrite Ek in Hd |- *. fold b in Hd |- *. rewrite Eb, lookup_splice_lt; [done| |lia].
      pose proof (Nat.div_mod x 512 ltac:(lia)). lia.
    + pose proof (lookup_lt_Some _ _ _ Hv) as Hl. rewrite length_app in Hl. rewrite lookup_app_r in Hv by lia.
      assert (x / 512 = k ∧ x mod 512 = o + (x - length data))%nat as [Ek Em].
      { replace x with (length data + (x - length data))%nat at 1 2 by lia. apply same_chunk. fold o. lia. }
      rewrite Ek. split; [done|]. rewrite E. fold b. rewrite Eb, Em, lookup_splice_in by lia.
      by replace (o + (x - length data) - o)%nat with (x - length data)%nat by lia.
  - intros x Hx HP. rewrite E. destruct (decide (x / 512 = k)%nat) as [Ek|Ek]; [|rewrite Ene by (done || lia); apply H7; [lia|done]].
    pose proof (H7 x ltac:(lia) HP) as Hz. rewrite Ek in Hz |- *. fold b in Hz |- *. rewrite Eb, lookup_splice_ge; [done| |lia].
    pose proof (Nat.div_mod x 512 ltac:(lia)). lia.
Qed.

(** The block the next byte goes to is needed then, and no other is. *)
Lemma need_next e k q : k = (e / 512)%nat → (q < NPOS)%nat → (e < 512 * 140)%nat →
  need (S e) q ↔ need e q ∨ q = fpos k ∨ (e = 512 * 12 ∧ q = 12)%nat.
Proof.
  intros -> Hq He. pose proof (Nat.div_mod e 512 ltac:(lia)) as E. pose proof (mod_lt e) as Hm.
  set (k := (e / 512)%nat) in *. unfold need, fpos, NPOS in *. repeat case_decide; try lia.
Qed.
Lemma need_chunk e n q : (0 < n)%nat → (e mod 512 + n ≤ 512)%nat → need (e + n) q ↔ need (S e) q.
Proof.
  intros Hn Hm. pose proof (Nat.div_mod e 512 ltac:(lia)) as E. set (k := (e / 512)%nat) in *. set (o := (e mod 512)%nat) in *.
  unfold need. repeat case_decide; lia.
Qed.
End File.

(** ** The image under construction *)

Definition img (m : mkfs) : image := λ b, default [] (mk_img m !! b).
Record mk_wf (m : mkfs) : Prop := {
  wf_blk : ∀ b, 0 ≤ b < FSSIZE → ∃ d, mk_img m !! b = Some d ∧ length d = 512%nat;
  wf_fb : nmeta ≤ freeblock m ≤ FSSIZE;
  wf_zero : ∀ b, freeblock m ≤ b < FSSIZE → img m b = zeroes }.
Definition put (b : Z) (d : list Z) (m : mkfs) : mkfs := mkMkfs (<[b := d]> (mk_img m)) (freeinode m) (freeblock m).
Definition bump (m : mkfs) : mkfs := mkMkfs (mk_img m) (freeinode m) (freeblock m + 1).

(** The blocks of a file, and what work on one file may change. *)
Definition owns (I : image) (di : dinode) (b : Z) : Prop := ∃ q, (q < NPOS)%nat ∧ mblk I di q = b ∧ b ≠ 0.
Record mk_grows (m : mkfs) (di : dinode) (m' : mkfs) (di' : dinode) : Prop := {
  gr_ino : freeinode m' = freeinode m;
  gr_fb : freeblock m ≤ freeblock m';
  gr_di : di_type di' = di_type di ∧ di_major di' = di_major di ∧ di_minor di' = di_minor di ∧ di_nlink di' = di_nlink di;
  gr_other : ∀ b, b < freeblock m → ¬ owns (img m) di b → img m' b = img m b;
  gr_own : ∀ b, owns (img m') di' b → owns (img m) di b ∨ freeblock m ≤ b }.

(** How many blocks a file of [e] bytes takes. *)
Definition cost (e : nat) : nat := (nb e + if decide (512 * 12 < e) then 1 else 0)%nat.

Section State.
Implicit Types (m : mkfs) (di : dinode) (b : Z) (d data bs : list Z) (P : nat → Prop) (q k e : nat).

Lemma cost_next e : (cost (S e) = cost e + (if decide (e mod 512 = 0) then 1 else 0) + (if decide (e = 512 * 12) then 1 else 0))%nat.
Proof.
  unfold cost, nb. pose proof (Nat.div_mod e 512 ltac:(lia)) as E. pose proof (mod_lt e) as Hm.
  set (k := (e / 512)%nat) in *. set (o := (e mod 512)%nat) in *.
  assert ((S e + 511) / 512 = S k)%nat as ->.
  { symmetry. apply (Nat.div_unique _ _ _ o); lia. }
  destruct (decide (o = 0)%nat) as [Eo|Eo].
  - assert ((e + 511) / 512 = k)%nat as -> by (symmetry; apply (Nat.div_unique _ _ _ 511); lia). repeat case_decide; lia.
  - assert ((e + 511) / 512 = S k)%nat as -> by (symmetry; apply (Nat.div_unique _ _ _ (o - 1)); lia). repeat case_decide; lia.
Qed.

Lemma img_put b d m c : img (put b d m) c = iset b d (img m) c.
Proof.
  unfold img, put, iset. simpl. destruct (Z.eqb_spec c b) as [->|Hne]; [by rewrite lookup_insert_eq|by rewrite lookup_insert_ne].
Qed.
Lemma img_length m b : mk_wf m → 0 ≤ b < FSSIZE → length (img m b) = 512%nat.
Proof. intros W Hb. destruct (wf_blk m W b Hb) as (d & E & Hd). unfold img. by rewrite E. Qed.
Lemma wp_rsect m b (Q : list Z → mkfs → Prop) : mk_wf m → 0 ≤ b < FSSIZE → Q (img m b) m → wp (rsect b) Q m.
Proof.
  intros W Hb HQ. unfold wp, rsect. rewrite Z.gtb_ltb, (proj2 (Z.ltb_ge _ _)) by lia. destruct (wf_blk m W b Hb) as (d & E & _).
  unfold img in HQ. rewrite E in HQ |- *. done.
Qed.
Lemma wp_wsect m b d (Q : unit → mkfs → Prop) : b ≤ FSSIZE → Q tt (put b d m) → wp (wsect b d) Q m.
Proof. intros Hb HQ. unfold wp, wsect. by rewrite Z.gtb_ltb, (proj2 (Z.ltb_ge _ _)) by lia. Qed.
Lemma wp_next_block m (Q : Z → mkfs → Prop) : mk_wf m → Q (freeblock m) (bump m) → wp next_block Q m.
Proof. intros W HQ. destruct (wf_fb m W). unfold wp, next_block. rewrite u32_small; [done|]. assert (0 < nmeta ∧ FSSIZE = 2000) by done. lia. Qed.
Lemma mk_wf_put m b d : mk_wf m → b < freeblock m → length d = 512%nat → mk_wf (put b d m).
Proof.
  intros [W1 W2 W3] Hb Hd. split; [|done|].
  - intros c Hc. simpl. destruct (decide (c = b)) as [->|Hne]; [rewrite lookup_insert_eq; eauto|rewrite lookup_insert_ne by done; by apply W1].
  - intros c Hc. simpl in Hc. rewrite img_put. unfold iset. rewrite (proj2 (Z.eqb_neq _ _)) by lia. by apply W3.
Qed.
Lemma mk_wf_bump m : mk_wf m → freeblock m < FSSIZE → mk_wf (bump m).
Proof. intros [W1 W2 W3] Hb. split; [done|simpl; lia|]. intros c Hc. simpl in Hc. apply (W3 c). lia. Qed.

Lemma mk_grows_trans m1 di1 m2 di2 m3 di3 : mk_grows m1 di1 m2 di2 → mk_grows m2 di2 m3 di3 → mk_grows m1 di1 m3 di3.
Proof.
  intros [A1 A2 A3 A4 A5] [B1 B2 B3 B4 B5]. split; [congruence|lia|naive_solver congruence| |].
  - intros b Hb Hn. rewrite B4, A4; [done|done|done|lia|]. intros [Ho|Ho]%A5; [done|lia].
  - intros b [Ho|Ho]%B5; [auto|lia].
Qed.

Lemma mk_grows_refl m di : mk_grows m di m di.
Proof. split; try done. by left. Qed.
Lemma mfile_img m m' fb di data P : (∀ b, img m' b = img m b) → mfile (img m) fb di data P → mfile (img m') fb di data P.
Proof. intros E F. eapply mfile_frame; [exact F|lia|]. intros. apply E. Qed.

Lemma mk_grows_step m di m' di' q : freeinode m' = freeinode m → freeblock m' = freeblock m + 1 →
  di_type di' = di_type di ∧ di_major di' = di_major di ∧ di_minor di' = di_minor di ∧ di_nlink di' = di_nlink di →
  (∀ b, b ≠ dind di → img m' b = img m b) → (dind di = 0 → ∀ b, img m' b = img m b) →
  (∀ r, (r < NPOS)%nat → mblk (img m') di' r = if decide (r = q) then freeblock m else mblk (img m) di r) → mk_grows m di m' di'.
Proof.
  intros Hi Hfb Hdi Hb Hb0 Hm. split; [done|lia|done| |].
  - intros b Hlt Hn. destruct (decide (b = dind di)) as [->|]; [|by apply Hb]. destruct (decide (dind di = 0)); [by apply Hb0|].
    exfalso. apply Hn. exists 12%nat. split; [unfold NPOS; lia|done].
  - intros b (r & Hr & E & Hne). rewrite Hm in E by done. case_decide; [right; lia|left; by exists r].
Qed.

(** A fresh block for position [q]: recorded in the inode or in the indirect block. *)
Lemma mk_grows_addr m di data P q :
  mk_wf m → freeblock m < FSSIZE → mfile (img m) (freeblock m) di data P → (q ≤ 12)%nat → ¬ P q →
  mk_wf (bump m) ∧ mfile (img (bump m)) (freeblock (bump m)) (with_addr q (freeblock m) di) data (λ r, P r ∨ r = q) ∧
  mk_grows m di (bump m) (with_addr q (freeblock m) di).
Proof.
  intros W Hfb F Hq HP. destruct (wf_fb m W) as [Hfb1 _]. assert (0 < nmeta) by done. pose proof (wf_zero m W (freeblock m) ltac:(lia)) as Hz.
  split; [by apply mk_wf_bump|]. split; [by apply mfile_addr|]. eapply (mk_grows_step _ _ _ _ q); try done. intros r Hr.
  apply mblk_addr; [apply (mf_addrs _ _ _ _ _ F)|done| |done|lia].
  destruct (decide (mblk (img m) di q = 0)) as [|Hne]; [done|]. exfalso. apply HP, (mf_pos _ _ _ _ _ F); [unfold NPOS; lia|done].
Qed.
Lemma mk_grows_indirect m di data P q :
  let m' := put (dind di) (put32 (4 * (q - 13)) (freeblock m) (img m (dind di))) (bump m) in
  mk_wf m → freeblock m < FSSIZE → mfile (img m) (freeblock m) di data P → (12 < q < NPOS)%nat → ¬ P q → P 12%nat →
  mk_wf m' ∧ mfile (img m') (freeblock m') di data (λ r, P r ∨ r = q) ∧ mk_grows m di m' di.
Proof.
  intros m' W Hfb F Hq HP HP12. destruct (wf_fb m W) as [Hfb1 _]. assert (0 < nmeta ∧ FSSIZE = 2000) as [Hnm HF] by done.
  pose proof (wf_zero m W (freeblock m) ltac:(lia)) as Hz.
  assert (dind di ≠ 0) as Hd0 by (apply (mf_pos _ _ _ _ _ F 12%nat); [unfold NPOS; lia|done]).
  pose proof (mf_rng _ _ _ _ _ F 12%nat ltac:(unfold NPOS; lia) Hd0) as Hr. rewrite mblk_ind in Hr.
  pose proof (img_length m (dind di) W ltac:(lia)) as Hl.
  assert (∀ b, img m' b = iset (dind di) (put32 (4 * (q - 13)) (freeblock m) (img m (dind di))) (img m) b) as E by (intros b; unfold m'; by rewrite img_put).
  split; [apply mk_wf_put; [by apply mk_wf_bump|simpl; lia|by rewrite length_put32 by (unfold NPOS in *; lia)]|]. split.
  - eapply mfile_frame; [apply (mfile_indirect _ _ _ _ _ q F); done || lia|simpl; lia|]. intros. apply E.
  - eapply (mk_grows_step _ _ _ _ q); try done.
    + intros b Hb. rewrite E. unfold iset. by rewrite (proj2 (Z.eqb_neq _ _) Hb).
    + intros r Hr'. rewrite <- (mblk_indirect (img m)) by (done || lia). apply mblk_ext. intros _. apply E.
Qed.

Lemma mfile_at m di data P q : mfile (img m) (freeblock m) di data P → (q < NPOS)%nat → P q → mk_wf m →
  mblk (img m) di q ≠ 0 ∧ 0 ≤ mblk (img m) di q < FSSIZE ∧ mblk (img m) di q < freeblock m.
Proof.
  intros F Hq HP W. assert (mblk (img m) di q ≠ 0) as Hne by (by apply (mf_pos _ _ _ _ _ F)).
  pose proof (mf_rng _ _ _ _ _ F q Hq Hne). destruct (wf_fb m W). assert (0 < nmeta) by done. split; [done|lia].
Qed.

Lemma wp_indirect m di data P k (Q : dinode * Z → mkfs → Prop) :
  let o := Z.to_nat (4 * (Z.of_nat k - NDIRECT)) in
  mk_wf m → mfile (img m) (freeblock m) di data P → (12 ≤ k < 140)%nat → P 12%nat → (¬ P (S k) → freeblock m < FSSIZE) →
  (P (S k) → Q (di, mblk (img m) di (S k)) m) →
  (¬ P (S k) → ∀ m', mk_wf m' → mfile (img m') (freeblock m') di data (λ r, P r ∨ r = S k) → mk_grows m di m' di →
     freeblock m' = freeblock m + 1 → Q (di, mblk (img m') di (S k)) m') →
  wp (indirect ← rsect (dind di); if get32 o indirect =? 0 then x ← next_block; wsect (dind di) (put32 o x indirect) ;; mret (di, x)
      else mret (di, get32 o indirect)) Q m.
Proof.
  intros o W F Hk HP12 Hroom Hold Hnew. assert (o = 4 * (S k - 13))%nat as Eo by (unfold o, NDIRECT; lia).
  destruct (mfile_at m di data P 12 F ltac:(unfold NPOS; lia) HP12 W) as (Hd0 & Hd & Hdf). rewrite mblk_ind in *.
  assert (mblk (img m) di (S k) = get32 o (img m (dind di))) as Ek.
  { unfold mblk. rewrite decide_False by lia. rewrite (proj2 (Z.eqb_neq _ _) Hd0), Eo. done. }
  apply wp_bind, wp_rsect; [done|done|]. rewrite <- Ek. destruct (Z.eqb_spec (mblk (img m) di (S k)) 0) as [E0|E0].
  - assert (¬ P (S k)) as HnP by (intros HP%(mf_pos _ _ _ _ _ F); [done|unfold NPOS; lia]). specialize (Hroom HnP).
    apply wp_bind, wp_next_block; [done|]. apply wp_bind, wp_wsect; [lia|]. apply wp_ret.
    destruct (mk_grows_indirect m di data P (S k) W Hroom F ltac:(unfold NPOS; lia) HnP HP12) as (W' & F' & G). rewrite <- Eo in W', F', G.
    set (m' := put (dind di) _ _) in *. assert (mblk (img m') di (S k) = freeblock m) as E.
    { rewrite (mblk_ext (iset (dind di) (put32 o (freeblock m) (img m (dind di))) (img m)) (img m')) by (intros _; unfold m'; by rewrite img_put).
      destruct (wf_fb m W). assert (0 < nmeta ∧ FSSIZE = 2000) by done. rewrite Eo, mblk_indirect, decide_True by (done || unfold NPOS; lia || apply img_length; done). done. }
    rewrite <- E at 1. by apply Hnew.
  - apply wp_ret, Hold. apply (mf_pos _ _ _ _ _ F); [unfold NPOS; lia|done].
Qed.

(** The block for the next byte. *)
Lemma wp_fblock m di data (Q : dinode * Z → mkfs → Prop) :
  let e := length data in let k := (e / 512)%nat in
  mk_wf m → mfile (img m) (freeblock m) di data (need e) → (e < 512 * 140)%nat →
  freeblock m + Z.of_nat (cost (S e) - cost e) ≤ FSSIZE →
  (∀ m' di', mk_wf m' → mfile (img m') (freeblock m') di' data (need (S e)) → mk_grows m di m' di' →
     freeblock m' = freeblock m + Z.of_nat (cost (S e) - cost e) → Q (di', mblk (img m') di' (fpos k)) m') →
  wp (fblock di (Z.of_nat k)) Q m.
Proof.
  intros e k W F He Hroom HQ. pose proof (fpos_block e He) as Hk. fold k in Hk. pose proof (fpos_lt k Hk) as [Hkq _].
  pose proof (Nat.div_mod e 512 ltac:(lia)) as Ediv. fold k in Ediv. pose proof (cost_next e) as Hcost. pose proof (mod_lt e) as Hmod.
  pose proof (need_fpos e k Hk) as Hneed. pose proof (λ q Hq, need_next e k q eq_refl Hq He) as Hnext.
  unfold fblock. change NDIRECT with 12 in *. destruct (Z.ltb_spec (Z.of_nat k) 12) as [Hlt|Hge].
  - assert (fpos k = k) as Ek by (unfold fpos; rewrite decide_True by lia; done). rewrite Nat2Z.id.
    assert (default 0 (di_addrs di !! k) = mblk (img m) di k) as -> by (unfold mblk; by rewrite decide_True by lia).
    destruct (Z.eqb_spec (mblk (img m) di k) 0) as [E0|E0].
    + assert (¬ need e k) as Hn by (intros H%(mf_pos _ _ _ _ _ F); [done|unfold NPOS; lia]).
      assert (e mod 512 = 0 ∧ e ≠ 512 * 12)%nat as [Em Ene] by (rewrite Ek in Hneed; assert (¬ 512 * k < e)%nat by tauto; lia).
      rewrite (decide_True (P := (e mod 512 = 0)%nat)), (decide_False (P := (e = 512 * 12)%nat)) in Hcost by done.
      apply wp_bind, wp_next_block; [done|]. apply wp_ret.
      destruct (mk_grows_addr m di data (need e) k) as (W' & F' & G); [done|lia|done|lia|done|].
      assert (mblk (img (bump m)) (with_addr k (freeblock m) di) (fpos k) = freeblock m) as Eb.
      { rewrite Ek. unfold mblk. rewrite decide_True by lia. simpl. rewrite list_lookup_insert_eq; [done|]. rewrite (mf_addrs _ _ _ _ _ F). lia. }
      rewrite <- Eb at 2. apply HQ; [done| |done|simpl; lia]. eapply mfile_pos; [exact F'|]. intros q Hq. rewrite Hnext, Ek by done. tauto.
    + assert (need e k) as Hn by (apply (mf_pos _ _ _ _ _ F); [unfold NPOS; lia|done]).
      assert (e mod 512 ≠ 0 ∧ e ≠ 512 * 12)%nat as [Em Ene] by (rewrite Ek in Hneed; assert (512 * k < e)%nat by tauto; lia).
      rewrite (decide_False (P := (e mod 512 = 0)%nat)), (decide_False (P := (e = 512 * 12)%nat)) in Hcost by done.
      apply wp_ret. replace (mblk (img m) di k) with (mblk (img m) di (fpos k)) by (by rewrite Ek). apply HQ; [done| |apply mk_grows_refl|lia].
      eapply mfile_pos; [exact F|]. intros q Hq. rewrite Hnext, Ek by done. split; [tauto|]. intros [?|[->|?]]; tauto.
  - assert (fpos k = S k) as Ek by (unfold fpos; rewrite decide_False by lia; done).
    change (default 0 (di_addrs di !! Z.to_nat 12)) with (dind di). rewrite Ek in Hneed.
    destruct (Z.eqb_spec (dind di) 0) as [E0|E0].
    + assert (¬ need e 12) as Hn by (intros H%(mf_pos _ _ _ _ _ F); [done|unfold NPOS; lia]).
      assert (e = 512 * 12)%nat as Ee by (unfold need in Hn; simpl in Hn; lia). assert (k = 12)%nat as Ek12 by lia.
      rewrite (decide_True (P := (e mod 512 = 0)%nat)), (decide_True (P := (e = 512 * 12)%nat)) in Hcost by (done || lia).
      apply wp_bind, wp_bind, wp_next_block; [done|]. apply wp_ret.
      destruct (mk_grows_addr m di data (need e) 12) as (W1 & F1 & G1); [done|lia|done|lia|done|].
      change (Z.to_nat 12) with 12%nat. set (di1 := with_addr 12 (freeblock m) di) in *. change (default 0 (di_addrs di1 !! 12%nat)) with (dind di1).
      assert (¬ (need e (S k) ∨ S k = 12%nat)) as HnP by (intros [H|H]; [apply Hneed in H; lia|lia]).
      eapply (wp_indirect (bump m) di1 data _ k); [done|exact F1|lia|by right|intros _; simpl; lia|intros HP; by destruct (HnP HP)|].
      intros _ m' W2 F2 G2 Hfb2. rewrite <- Ek. simpl in Hfb2. apply HQ; [done| |by eapply mk_grows_trans|lia].
      eapply mfile_pos; [exact F2|]. intros q Hq. rewrite Hnext, Ek by done. cbv beta. tauto.
    + assert (need e 12) as Hn by (apply (mf_pos _ _ _ _ _ F 12); [unfold NPOS; lia|done]).
      assert (e ≠ 512 * 12)%nat as Ee by (unfold need in Hn; simpl in Hn; lia). apply wp_bind, wp_ret.
      rewrite (decide_False (P := (e = 512 * 12)%nat)) in Hcost by done.
      change (default 0 (di_addrs di !! Z.to_nat 12)) with (dind di).
      assert (¬ need e (S k) → e mod 512 = 0)%nat as Hm0 by (intros H; assert (¬ 512 * k < e)%nat by tauto; lia).
      eapply (wp_indirect m di data _ k); [done|exact F|lia|done| | |].
      * intros HnP. rewrite (decide_True (P := (e mod 512 = 0)%nat)) in Hcost by auto. lia.
      * intros HP. assert (e mod 512 ≠ 0)%nat by (apply Hneed in HP; lia). rewrite (decide_False (P := (e mod 512 = 0)%nat)) in Hcost by done.
        rewrite <- Ek. apply HQ; [done| |apply mk_grows_refl|lia].
        eapply mfile_pos; [exact F|]. intros q Hq. rewrite Hnext, Ek by done. split; [tauto|]. intros [?|[->|[? _]]]; tauto.
      * intros HnP m' W2 F2 G2 Hfb2. rewrite (decide_True (P := (e mod 512 = 0)%nat)) in Hcost by auto. rewrite <- Ek.
        apply HQ; [done| |done|lia]. eapply mfile_pos; [exact F2|]. intros q Hq. rewrite Hnext, Ek by done. cbv beta. tauto.
Qed.

Lemma cost_mono (a b : nat) : (a ≤ b)%nat → (cost a ≤ cost b)%nat.
Proof.
  intros Hab. unfold cost, nb. pose proof (Nat.Div0.div_le_mono (a + 511) (b + 511) 512 ltac:(lia)). repeat case_decide; lia.
Qed.
Lemma cost_chunk e n : (0 < n)%nat → (e mod 512 + n ≤ 512)%nat → cost (e + n) = cost (S e).
Proof.
  intros Hn Hm. pose proof (Nat.div_mod e 512 ltac:(lia)) as E. set (k := (e / 512)%nat) in *. set (o := (e mod 512)%nat) in *.
  unfold cost, nb. assert ((S e + 511) / 512 = S k)%nat as -> by (symmetry; apply (Nat.div_unique _ _ _ o); lia).
  assert ((e + n + 511) / 512 = S k)%nat as -> by (symmetry; apply (Nat.div_unique _ _ _ (o + n - 1)); lia). repeat case_decide; lia.
Qed.

(** Writing to a block of the file. *)
Lemma mk_grows_write m di data P q d :
  mfile (img m) (freeblock m) di data P → (q < NPOS)%nat → q ≠ 12%nat → P q → mk_grows m di (put (mblk (img m) di q) d m) di.
Proof.
  intros F Hq Hq12 HP. pose proof (proj2 (mf_pos _ _ _ _ _ F q Hq) HP) as Hne.
  assert (∀ r, mblk (img (put (mblk (img m) di q) d m)) di r = mblk (img m) di r) as E.
  { intros r. apply mblk_ext. intros Hd. rewrite img_put. unfold iset. rewrite (proj2 (Z.eqb_neq _ _)); [done|]. rewrite <- mblk_ind with (I := img m).
    intros E'. apply Hq12. symmetry. apply (mf_inj _ _ _ _ _ F 12); [unfold NPOS; lia|done|done|done]. }
  split; try done.
  - intros b _ Hn. rewrite img_put. unfold iset. rewrite (proj2 (Z.eqb_neq _ _)); [done|]. intros ->. apply Hn. by exists q.
  - intros b (r & Hr & Eb & Hb). left. exists r. by rewrite <- E.
Qed.

Lemma wp_iappend_loop p fuel m di data (Q : dinode * Z → mkfs → Prop) :
  let e := length data in let e' := (length data + length p)%nat in
  mk_wf m → mfile (img m) (freeblock m) di data (need e) → (e' ≤ 512 * 140)%nat → (length p ≤ fuel)%nat →
  freeblock m + Z.of_nat (cost e' - cost e) ≤ FSSIZE →
  (∀ m' di', mk_wf m' → mfile (img m') (freeblock m') di' (data ++ p) (need e') → mk_grows m di m' di' →
     freeblock m' = freeblock m + Z.of_nat (cost e' - cost e) → Q (di', Z.of_nat e') m') →
  wp (iappend_loop fuel di (Z.of_nat e) p) Q m.
Proof.
  revert p m di data. induction fuel as [|fuel IH]; intros p m di data e e' W F He' Hfuel Hroom HQ.
  { destruct p as [|x p]; [|cbn [length] in Hfuel; lia]. apply wp_ret. replace e' with e in HQ by (unfold e', e; cbn [length]; lia). rewrite app_nil_r in HQ.
    apply HQ; [exact W|exact F|apply mk_grows_refl|lia]. }
  assert (e' = e + length p)%nat as Ee' by reflexivity. clearbody e'.
  destruct p as [|x p0] eqn:Ep; rewrite <- Ep in *.
  { subst p. apply wp_ret. replace e' with e in HQ by (rewrite Ee'; cbn [length]; lia). rewrite app_nil_r in HQ.
    apply HQ; [exact W|exact F|apply mk_grows_refl|lia]. }
  assert (0 < length p)%nat as Hp by (rewrite Ep; cbn [length]; lia). assert (e < 512 * 140)%nat as He by lia.
  pose proof (fpos_block e He) as Hk. set (k := (e / 512)%nat) in *. pose proof (Nat.div_mod e 512 ltac:(lia)) as Ediv. fold k in Ediv. pose proof (mod_lt e) as Hmod.
  set (n := (length p `min` (512 - e mod 512))%nat). assert (0 < n ≤ length p ∧ e mod 512 + n ≤ 512)%nat as [Hn1 Hn2] by lia.
  pose proof (cost_chunk e n ltac:(lia) ltac:(lia)) as Hcn. pose proof (cost_mono e (e + n) ltac:(lia)) as Hc1. pose proof (cost_mono (e + n) e' ltac:(lia)) as Hc2.
  rewrite Ep. cbn [iappend_loop]. rewrite <- Ep.
  assert (Z.of_nat e / BSIZE = Z.of_nat k) as -> by (unfold k, BSIZE; by rewrite Nat2Z.inj_div).
  rewrite (proj2 (Z.ltb_lt _ _)) by (change MAXFILE with 140; lia). cbn [negb].
  assert (Z.min (Z.of_nat (length p)) ((Z.of_nat k + 1) * BSIZE - Z.of_nat e) = Z.of_nat n) as -> by (unfold n, BSIZE; lia).
  assert (Z.to_nat (Z.of_nat e - Z.of_nat k * BSIZE) = e mod 512)%nat as -> by (unfold BSIZE; lia). rewrite Nat2Z.id.
  apply wp_bind. apply (wp_fblock m di data); [exact W|exact F|exact He|fold e; lia|]. fold e k. intros m1 di1 W1 F1 G1 Hfb1. cbn [fst snd].
  assert (need (S e) (fpos k)) as Hneed by (apply need_fpos; lia). pose proof (fpos_lt k Hk) as [Hkq Hk12].
  destruct (mfile_at m1 di1 data _ (fpos k) F1 Hkq Hneed W1) as (Hb0 & Hbr & Hbf). set (b := mblk (img m1) di1 (fpos k)) in *.
  apply wp_bind, wp_rsect; [done|done|]. apply wp_bind, wp_wsect; [lia|].
  assert (length (take n p) = n) as Htk by (rewrite length_take; lia). pose proof (img_length m1 b W1 Hbr) as Hlb.
  set (m2 := put b _ m1). pose proof (mk_grows_write m1 di1 data _ (fpos k) (splice (e mod 512) (take n p) (img m1 b)) F1 Hkq Hk12 Hneed) as G2. fold b m2 in G2.
  assert (mk_wf m2) as W2 by (apply mk_wf_put; [done|done|rewrite length_splice; lia]).
  assert (mfile (img m2) (freeblock m2) di1 (data ++ take n p) (need (e + n))) as F2.
  { eapply mfile_pos; [|intros q Hq; symmetry; apply need_chunk; lia].
    eapply mfile_frame; [apply (mfile_write _ _ _ _ _ (take n p) F1 He Hneed); fold e; [rewrite Htk; lia|exact Hlb]|simpl; lia|].
    intros q Hq _. apply img_put. }
  replace (Z.of_nat e + Z.of_nat n) with (Z.of_nat (length (data ++ take n p))) by (rewrite length_app; lia).
  assert (length (data ++ take n p) = e + n ∧ length (data ++ take n p) + length (drop n p) = e')%nat as [El1 El2] by (rewrite length_app, length_drop; lia).
  apply IH; rewrite ?El2, ?El1; [exact W2|exact F2|exact He'|rewrite length_drop; lia|simpl; lia|].
  intros m3 di3 W3 F3 G3 Hfb3. rewrite <- app_assoc, take_drop in F3. change (freeblock m2) with (freeblock m1) in Hfb3. apply HQ; [exact W3|exact F3| |lia].
  eapply mk_grows_trans; [exact G1|]. eapply mk_grows_trans; [exact G2|exact G3].
Qed.
End State.

(** ** The inode table *)

Definition dino (I : image) (inum : Z) : dinode := dinode_get (dinode_off inum) (I (IBLOCK inum mk_sb)).
(** An inode of the image: a file of type [ty] that holds [data]. *)
Record mk_node (I : image) (fb : Z) (inum ty : Z) (data : list Z) : Prop := {
  nd_type : di_type (dino I inum) = ty;
  nd_rest : di_major (dino I inum) = 0 ∧ di_minor (dino I inum) = 0 ∧ di_nlink (dino I inum) = 1;
  nd_size : di_size (dino I inum) = Z.of_nat (length data);
  nd_file : mfile I fb (dino I inum) data (need (length data)) }.

(** [T] lists the type and the contents of the files 1, 2, .... *)
Abbreviation ftab := (list (Z * list Z)).
Record mk_inv (m : mkfs) (T : ftab) : Prop := {
  mi_wf : mk_wf m;
  mi_count : freeinode m = 1 + Z.of_nat (length T) ∧ freeinode m ≤ NINODES;
  mi_type : Forall (λ f, f.1 = T_DIR ∨ f.1 = T_FILE) T;
  mi_node : ∀ i ty data, T !! i = Some (ty, data) → mk_node (img m) (freeblock m) (Z.of_nat i + 1) ty data;
  mi_disj : ∀ i j b, (i < length T)%nat → (j < length T)%nat →
    owns (img m) (dino (img m) (Z.of_nat i + 1)) b → owns (img m) (dino (img m) (Z.of_nat j + 1)) b → i = j;
  mi_zero : ∀ inum, inum = 0 ∨ freeinode m ≤ inum < NINODES → di_type (dino (img m) inum) = 0;
  mi_sb : img m 1 = sb_block;
  mi_log : ∀ b, 2 ≤ b < 32 → img m b = zeroes }.

Section Inodes.
Implicit Types (m : mkfs) (di : dinode) (T : ftab) (inum : Z) (data p : list Z).

Lemma IBLOCK_mk inum : 0 ≤ inum < NINODES → IBLOCK inum mk_sb = inum / 8 + 32 ∧ 32 ≤ IBLOCK inum mk_sb < 58.
Proof.
  intros Hi. unfold IBLOCK. change (sb_inodestart mk_sb) with 32. change IPB with 8. unfold NINODES in Hi.
  assert (0 ≤ inum / 8 < 25) by (Z.div_mod_to_equations; lia). rewrite u32_small by lia. lia.
Qed.
Lemma dino_off_ne j k : 0 ≤ j < NINODES → 0 ≤ k < NINODES → j ≠ k → IBLOCK j mk_sb = IBLOCK k mk_sb →
  (dinode_off j + 64 ≤ dinode_off k ∨ dinode_off k + 64 ≤ dinode_off j)%nat.
Proof.
  intros Hj Hk Hne. destruct (IBLOCK_mk j Hj) as [-> _], (IBLOCK_mk k Hk) as [-> _]. intros E. unfold dinode_off. change IPB with 8. change DINODESIZE with 64.
  assert (j mod 8 ≠ k mod 8) by (Z.div_mod_to_equations; lia). Z.div_mod_to_equations; lia.
Qed.

Lemma wp_rinode m inum (Q : dinode → mkfs → Prop) : mk_wf m → 0 ≤ inum < NINODES → Q (dino (img m) inum) m → wp (rinode inum) Q m.
Proof.
  intros W Hi HQ. destruct (IBLOCK_mk inum Hi) as [_ Hb]. apply wp_bind, wp_rsect; [done|unfold FSSIZE; lia|]. by apply wp_ret.
Qed.
Lemma wp_winode m inum di (Q : unit → mkfs → Prop) :
  mk_wf m → 0 ≤ inum < NINODES → di_ok di →
  (∀ m', mk_wf m' → freeinode m' = freeinode m → freeblock m' = freeblock m → dino (img m') inum = di →
     (∀ j, 0 ≤ j < NINODES → j ≠ inum → dino (img m') j = dino (img m) j) →
     (∀ b, b < 32 ∨ 58 ≤ b → img m' b = img m b) → Q tt m') → wp (winode inum di) Q m.
Proof.
  intros W Hi Hdi HQ. destruct (IBLOCK_mk inum Hi) as [_ Hb]. set (bn := IBLOCK inum mk_sb) in *. pose proof (do_len di Hdi) as Hlen.
  unfold winode. fold bn. apply wp_bind, wp_rsect; [done|unfold FSSIZE; lia|]. apply wp_wsect; [unfold FSSIZE; lia|].
  pose proof (img_length m bn W ltac:(unfold FSSIZE; lia)) as Hl. pose proof (dinode_off_le inum) as Ho.
  assert (∀ b, img (put bn (dinode_put (dinode_off inum) di (img m bn)) m) b = if b =? bn then dinode_put (dinode_off inum) di (img m bn) else img m b) as E
    by (intros b; apply img_put).
  apply HQ; [|done|done|..].
  - apply mk_wf_put; [done| |rewrite length_dinode_put; lia]. destruct (wf_fb m W). assert (nmeta = 59) by done. lia.
  - unfold dino. fold bn. rewrite E, Z.eqb_refl. apply dinode_get_put; [done|lia].
  - intros j Hj Hne. unfold dino. rewrite E. destruct (Z.eqb_spec (IBLOCK j mk_sb) bn) as [Ej|]; [|done]. rewrite Ej.
    apply dinode_get_other; [done|lia|]. pose proof (dino_off_ne j inum Hj Hi Hne Ej). lia.
  - intros b Hbb. rewrite E. by rewrite (proj2 (Z.eqb_neq _ _)) by lia.
Qed.

Lemma mfile_addrs_ok I fb di data P : mfile I fb di data P → fb ≤ FSSIZE → Forall (λ x, 0 ≤ x < 2 ^ 32) (di_addrs di).
Proof.
  intros F Hfb. apply Forall_lookup. intros q x Hq. pose proof (lookup_lt_Some _ _ _ Hq) as Hl. rewrite (mf_addrs _ _ _ _ _ F) in Hl.
  assert (mblk I di q = x) as E by (unfold mblk; rewrite decide_True by lia; by rewrite Hq).
  destruct (decide (x = 0)) as [->|Hne]; [lia|]. pose proof (mf_rng _ _ _ _ _ F q ltac:(unfold NPOS; lia) ltac:(congruence)) as Hr.
  rewrite E in Hr. assert (0 < nmeta ∧ FSSIZE = 2000) by done. lia.
Qed.
Lemma mfile_with_size I fb di data P n : mfile I fb di data P → mfile I fb (with_size di n) data P.
Proof. intros []. by split. Qed.
Lemma owns_range I fb di data P b : mfile I fb di data P → owns I di b → nmeta ≤ b < fb.
Proof. intros F (q & Hq & <- & Hne). by apply (mf_rng _ _ _ _ _ F). Qed.

(** An inode that work elsewhere leaves alone. *)
Lemma mk_node_other m m' j ty data :
  mk_node (img m) (freeblock m) j ty data → dino (img m') j = dino (img m) j → freeblock m ≤ freeblock m' →
  (∀ b, owns (img m) (dino (img m) j) b → img m' b = img m b) →
  mk_node (img m') (freeblock m') j ty data ∧ ∀ b, owns (img m') (dino (img m') j) b ↔ owns (img m) (dino (img m) j) b.
Proof.
  intros [H1 H2 H3 F] E Hfb Hb.
  assert (∀ q, (q < NPOS)%nat → mblk (img m) (dino (img m) j) q ≠ 0 → img m' (mblk (img m) (dino (img m) j) q) = img m (mblk (img m) (dino (img m) j) q)) as Hs.
  { intros q Hq Hne. apply Hb. by exists q. }
  split; [split; rewrite E; try done; by eapply mfile_frame|]. intros b. rewrite E. unfold owns.
  assert (∀ q, mblk (img m') (dino (img m) j) q = mblk (img m) (dino (img m) j) q) as Em.
  { intros q. apply mblk_ext. intros Hd. apply (Hs 12%nat); [unfold NPOS; lia|done]. }
  by setoid_rewrite Em.
Qed.

Lemma wp_iappend m T i ty data p (Q : unit → mkfs → Prop) :
  let e := length data in let e' := (length data + length p)%nat in
  mk_inv m T → T !! i = Some (ty, data) → (e' ≤ 512 * 140)%nat → freeblock m + Z.of_nat (cost e' - cost e) ≤ FSSIZE →
  (∀ m', mk_inv m' (<[i := (ty, data ++ p)]> T) → freeinode m' = freeinode m →
     freeblock m' = freeblock m + Z.of_nat (cost e' - cost e) → Q tt m') →
  wp (iappend (Z.of_nat i + 1) p) Q m.
Proof.
  intros e e' Inv Hi He' Hroom HQ. pose proof Inv as [W [Hc1 Hc2] Hty Hnode Hdisj Hzero Hsb Hlog]. pose proof (lookup_lt_Some _ _ _ Hi) as Hil.
  pose proof (Hnode i ty data Hi) as Nd. pose proof Nd as [N1 (N2 & N3 & N4) N5 F]. set (di := dino (img m) (Z.of_nat i + 1)) in *.
  assert (0 ≤ Z.of_nat i + 1 < NINODES) as Hinum by lia.
  unfold iappend. apply wp_bind, wp_rinode; [done|done|]. fold di. rewrite N5. apply wp_bind.
  eapply wp_iappend_loop; [exact W|exact F|exact He'|lia|exact Hroom|]. intros m1 di1 W1 F1 G Hfb1. cbn [fst snd].
  destruct G as [G1 G2 (G3 & G4 & G5 & G6) G7 G8]. destruct (wf_fb m W) as [Hfb _]. destruct (wf_fb m1 W1) as [_ Hfb1']. assert (nmeta = 59) as Enm by done.
  assert (∀ b, b < 59 → img m1 b = img m b) as Hlow.
  { intros b Hb. apply G7; [lia|]. intros Ho. pose proof (owns_range _ _ _ _ _ _ F Ho). lia. }
  assert (∀ j, 0 ≤ j < NINODES → dino (img m1) j = dino (img m) j) as Hdino.
  { intros j Hj. destruct (IBLOCK_mk j Hj) as [_ ?]. unfold dino. by rewrite Hlow by lia. }
  apply wp_winode; [exact W1|exact Hinum| |].
  { pose proof (mfile_addrs_ok _ _ _ _ _ F1 Hfb1') as Ha. pose proof (mf_addrs _ _ _ _ _ F1) as Hl.
    assert (is_short ty) as Hsh by (rewrite Forall_forall in Hty; destruct (Hty _ (list_elem_of_lookup_2 _ _ _ Hi)) as [E|E]; simpl in E; rewrite E; by split).
    split; simpl; rewrite ?G3, ?G4, ?G5, ?G6, ?N1, ?N2, ?N3, ?N4; try done. split; [lia|]. unfold e'. lia. }
  intros m2 W2 I2 B2 E2 O2 D2.
  assert (mfile (img m2) (freeblock m2) (with_size di1 (Z.of_nat e')) (data ++ p) (need e')) as F2.
  { eapply mfile_frame; [apply mfile_with_size; exact F1|lia|]. intros q Hq Hne. pose proof (mf_rng _ _ _ _ _ F1 q Hq Hne) as Hr.
    change (mblk (img m1) (with_size di1 (Z.of_nat e')) q) with (mblk (img m1) di1 q). apply D2. lia. }
  assert (∀ b, owns (img m2) (dino (img m2) (Z.of_nat i + 1)) b → owns (img m) di b ∨ freeblock m ≤ b) as Hown.
  { intros b (q & Hq & Eb & Hb). apply G8. exists q. split; [done|]. split; [|done]. rewrite <- Eb, E2. symmetry.
    change (mblk (img m1) di1 q) with (mblk (img m1) (with_size di1 (Z.of_nat e')) q). apply mblk_ext. intros Hd. apply D2.
    pose proof (mf_rng _ _ _ _ _ F1 12%nat ltac:(unfold NPOS; lia) Hd) as Hr. rewrite mblk_ind in Hr. change (dind (with_size di1 (Z.of_nat e'))) with (dind di1). lia. }
  assert (∀ j ty' data', j ≠ i → T !! j = Some (ty', data') →
    mk_node (img m2) (freeblock m2) (Z.of_nat j + 1) ty' data' ∧
    ∀ b, owns (img m2) (dino (img m2) (Z.of_nat j + 1)) b ↔ owns (img m) (dino (img m) (Z.of_nat j + 1)) b) as Hother.
  { intros j ty' data' Hne Hj. pose proof (lookup_lt_Some _ _ _ Hj) as Hjl. pose proof (Hnode j _ _ Hj) as Nj.
    apply mk_node_other; [done| |lia|].
    - rewrite O2 by lia. apply Hdino. lia.
    - intros b Ho. pose proof (owns_range _ _ _ _ _ _ (nd_file _ _ _ _ _ Nj) Ho) as Hr. rewrite D2 by lia. apply G7; [lia|].
      intros Ho'. apply Hne. by apply (Hdisj j i b). }
  apply HQ; [|congruence|rewrite B2; exact Hfb1]. split.
  - exact W2.
  - rewrite length_insert. lia.
  - apply Forall_insert; [done|]. rewrite Forall_forall in Hty. apply (Hty (ty, data)). by eapply list_elem_of_lookup_2.
  - intros j ty' data' Hj. destruct (decide (j = i)) as [->|Hne].
    + rewrite list_lookup_insert_eq in Hj by done. injection Hj as <- <-. split; rewrite E2; simpl; rewrite ?length_app; try done; congruence || auto.
      split_and!; congruence.
    + rewrite list_lookup_insert_ne in Hj by done. by apply Hother.
  - rewrite length_insert. intros j k b Hj Hk Hoj Hok. destruct (lookup_lt_is_Some_2 T j Hj) as [[tj dj] Ej]. destruct (lookup_lt_is_Some_2 T k Hk) as [[tk dk] Ekk].
    assert (∀ l tl dl, l ≠ i → T !! l = Some (tl, dl) → owns (img m2) (dino (img m2) (Z.of_nat l + 1)) b →
      owns (img m2) (dino (img m2) (Z.of_nat i + 1)) b → l = i) as Hx.
    { intros l tl dl Hl El Hol Hoi. apply (Hother l tl dl Hl El) in Hol. pose proof (owns_range _ _ _ _ _ _ (nd_file _ _ _ _ _ (Hnode _ _ _ El)) Hol).
      apply Hown in Hoi as [Hoi|Hoi]; [|lia]. apply (Hdisj l i b); try done. by eapply lookup_lt_Some. }
    destruct (decide (j = i)) as [->|Hji], (decide (k = i)) as [->|Hki]; [done|symmetry; by eapply Hx|by eapply Hx|].
    apply (Hother j tj dj Hji Ej) in Hoj. apply (Hother k tk dk Hki Ekk) in Hok. by apply (Hdisj j k b).
  - intros j Hj. assert (NINODES = 200) by done. rewrite O2, Hdino by lia. apply Hzero. lia.
  - rewrite D2, Hlow by lia. done.
  - intros b Hb. rewrite D2, Hlow by lia. by apply Hlog.
Qed.

Lemma mfile_empty I fb ty : mfile I fb (mkDinode ty 0 0 1 0 (replicate 13 0)) [] (need 0).
Proof.
  assert (∀ q, mblk I (mkDinode ty 0 0 1 0 (replicate 13 0)) q = 0) as E.
  { intros q. unfold mblk. case_decide as Hq; [|done]. cbn [di_addrs]. rewrite lookup_replicate_2 by lia. done. }
  split; intros; rewrite ?E in *; try done.
  - unfold need. split; [done|]. repeat case_decide; lia.
  - apply Nat.le_0_l.
  - exfalso. unfold need in *. revert H0. repeat case_decide; lia.
Qed.
Lemma wp_mk_ialloc m T ty (Q : Z → mkfs → Prop) :
  mk_inv m T → freeinode m < NINODES → ty = T_DIR ∨ ty = T_FILE →
  (∀ m', mk_inv m' (T ++ [(ty, [])]) → freeblock m' = freeblock m → Q (Z.of_nat (length T) + 1) m') → wp (mk_ialloc ty) Q m.
Proof.
  intros [W [Hc1 Hc2] Hty Hnode Hdisj Hzero Hsb Hlog] Hlt Hok HQ. assert (NINODES = 200) as HN by done.
  unfold mk_ialloc. apply wp_bind. unfold wp at 1, next_inode. rewrite u32_small by lia.
  set (m1 := mkMkfs _ _ _). assert (mk_wf m1) as W1 by (by destruct W).
  apply wp_bind, wp_winode; [done|lia| |].
  { split; simpl; try done; [destruct Hok as [->| ->]; by split|]. by repeat constructor. }
  intros m2 W2 I2 B2 E2 O2 D2. apply wp_ret. rewrite Hc1, Z.add_comm. change (freeblock m1) with (freeblock m) in B2. change (img m1) with (img m) in *.
  change (freeinode m1) with (freeinode m + 1) in I2. rewrite Hc1, Z.add_comm in E2. rewrite Hc1, Z.add_comm in O2.
  assert (∀ j ty' data', T !! j = Some (ty', data') →
    mk_node (img m2) (freeblock m2) (Z.of_nat j + 1) ty' data' ∧
    ∀ b, owns (img m2) (dino (img m2) (Z.of_nat j + 1)) b ↔ owns (img m) (dino (img m) (Z.of_nat j + 1)) b) as Hother.
  { intros j ty' data' Hj. pose proof (lookup_lt_Some _ _ _ Hj) as Hjl. pose proof (Hnode j _ _ Hj) as Nj.
    apply mk_node_other; [done|apply O2; lia|lia|]. intros b Ho. pose proof (owns_range _ _ _ _ _ _ (nd_file _ _ _ _ _ Nj) Ho). assert (nmeta = 59) by done. apply D2. lia. }
  assert (∀ b, ¬ owns (img m2) (dino (img m2) (Z.of_nat (length T) + 1)) b) as Hnone.
  { intros b (q & Hq & Eb & Hne). rewrite E2 in Eb. unfold mblk in Eb. case_decide; cbn in Eb; [|congruence].
    do 13 (destruct q as [|q]; [cbn in Eb; congruence|]). lia. }
  apply HQ; [|done]. split.
  - done.
  - rewrite length_app. simpl. lia.
  - apply Forall_app. split; [done|]. by apply Forall_singleton.
  - intros j ty' data' Hj. apply lookup_app_Some in Hj as [Hj|[Hl Hj]]; [by apply Hother|].
    apply list_lookup_singleton_Some in Hj as [Hj [= <- <-]]. replace j with (length T) by lia.
    split; rewrite ?E2; try done. apply mfile_empty.
  - rewrite length_app. simpl. intros j k b Hj Hk Hoj Hok'.
    assert (∀ l, (l < length T + 1)%nat → owns (img m2) (dino (img m2) (Z.of_nat l + 1)) b → (l < length T)%nat) as Hl.
    { intros l Hl Ho. destruct (decide (l = length T)) as [->|]; [by destruct (Hnone b)|lia]. }
    apply Hl in Hj as Hj'; [|done]. apply Hl in Hk as Hk'; [|done].
    destruct (lookup_lt_is_Some_2 T j Hj') as [[tj dj] Ej]. destruct (lookup_lt_is_Some_2 T k Hk') as [[tk dk] Ekk].
    apply (Hother j tj dj Ej) in Hoj. apply (Hother k tk dk Ekk) in Hok'. by apply (Hdisj j k b).
  - intros j Hj. rewrite O2 by lia. apply Hzero. lia.
  - rewrite D2 by lia. done.
  - intros b Hb. rewrite D2 by lia. by apply Hlog.
Qed.
End Inodes.

(** ** The whole program *)

(** The root directory and the files, and the blocks they take. *)
Definition tab (root : list Z) (fs : list (list Z)) : ftab := (T_DIR, root) :: ((λ d, (T_FILE, d)) <$> fs).
Definition used (root : list Z) (fs : list (list Z)) : Z :=
  nmeta + Z.of_nat (cost (length root) + sum_list_with (λ d, cost (length d)) fs).
Record mk_st (m : mkfs) (root : list Z) (fs : list (list Z)) : Prop := {
  ms_inv : mk_inv m (tab root fs);
  ms_used : freeblock m = used root fs }.
(** The entries of files with these names, from inode [k] on. *)
Fixpoint entries (k : nat) (names : list (list Z)) : list Z :=
  match names with [] => [] | name :: names' => dirent (Z.of_nat k) name ++ entries (S k) names' end.
Definition dots : list Z := dirent ROOTINO (str ".") ++ dirent ROOTINO (str "..").

Section Main.
Implicit Types (m : mkfs) (root d p : list Z) (fs : list (list Z)).

Lemma length_dirent inum name : length (dirent inum name) = 16%nat.
Proof. unfold dirent. rewrite length_app, length_le_put, length_take, length_app, length_replicate. unfold DIRSIZ. lia. Qed.
Lemma length_entries k names : length (entries k names) = (16 * length names)%nat.
Proof. revert k. induction names as [|n ns IH]; intros k; [done|]. cbn [entries length]. rewrite length_app, length_dirent, IH. lia. Qed.
Lemma entries_app k ns ns' : entries k (ns ++ ns') = entries k ns ++ entries (k + length ns) ns'.
Proof.
  revert k. induction ns as [|n ns IH]; intros k; cbn [entries app length]; [by rewrite Nat.add_0_r|].
  rewrite IH, <- app_assoc. by replace (S k + length ns)%nat with (k + S (length ns))%nat by lia.
Qed.

Lemma wp_root_append m root fs p (Q : unit → mkfs → Prop) :
  mk_st m root fs → (length root + length p ≤ 512 * 140)%nat → used (root ++ p) fs ≤ FSSIZE →
  (∀ m', mk_st m' (root ++ p) fs → Q tt m') → wp (iappend ROOTINO p) Q m.
Proof.
  intros [Inv Hu] Hlen Hroom HQ. pose proof (cost_mono (length root) (length root + length p) ltac:(lia)) as Hc.
  unfold used in *. rewrite length_app in *. change ROOTINO with (Z.of_nat 0 + 1).
  eapply (wp_iappend m _ 0 T_DIR root p); [exact Inv|done|exact Hlen|lia|]. intros m' Inv' _ Hfb. apply HQ. split; [exact Inv'|].
  unfold used. rewrite length_app. lia.
Qed.
Lemma wp_file_append m root fs d p (Q : unit → mkfs → Prop) :
  mk_st m root (fs ++ [d]) → (length d + length p ≤ 512 * 140)%nat → used root (fs ++ [d ++ p]) ≤ FSSIZE →
  (∀ m', mk_st m' root (fs ++ [d ++ p]) → Q tt m') → wp (iappend (Z.of_nat (length fs) + 2) p) Q m.
Proof.
  intros [Inv Hu] Hlen Hroom HQ. pose proof (cost_mono (length d) (length d + length p) ltac:(lia)) as Hc.
  assert (∀ x, used root (fs ++ [x]) = nmeta + Z.of_nat (cost (length root) + sum_list_with (λ d, cost (length d)) fs + cost (length x))) as Eu.
  { intros x. unfold used. rewrite sum_list_with_app. simpl. lia. }
  rewrite Eu in *. rewrite length_app in *.
  replace (Z.of_nat (length fs) + 2) with (Z.of_nat (S (length fs)) + 1) by lia.
  assert (∀ x, tab root (fs ++ [x]) !! S (length fs) = Some (T_FILE, x)) as Et.
  { intros x. simpl. rewrite list_lookup_fmap, lookup_app_r, Nat.sub_diag by lia. done. }
  eapply (wp_iappend m _ (S (length fs)) T_FILE d p); [exact Inv|apply Et|exact Hlen|lia|]. intros m' Inv' _ Hfb. apply HQ. split; [|rewrite Eu, length_app; lia].
  replace (tab root (fs ++ [d ++ p])) with (<[S (length fs) := (T_FILE, d ++ p)]> (tab root (fs ++ [d]))); [exact Inv'|].
  unfold tab. simpl. f_equal. rewrite !fmap_app, insert_app_r_alt by (rewrite length_fmap; lia). by rewrite length_fmap, Nat.sub_diag.
Qed.
Lemma wp_file_chunks m root fs d ps (Q : unit → mkfs → Prop) :
  mk_st m root (fs ++ [d]) → (length d + length (concat ps) ≤ 512 * 140)%nat → used root (fs ++ [d ++ concat ps]) ≤ FSSIZE →
  (∀ m', mk_st m' root (fs ++ [d ++ concat ps]) → Q tt m') → wp (forM ps (iappend (Z.of_nat (length fs) + 2))) Q m.
Proof.
  revert m d. induction ps as [|p ps IH]; intros m d St Hlen Hroom HQ; cbn [forM concat] in *.
  { apply wp_ret. rewrite app_nil_r in HQ. by apply HQ. }
  rewrite length_app in Hlen. rewrite app_assoc in *. apply wp_bind. eapply wp_file_append; [exact St|lia| |].
  - etrans; [|exact Hroom]. unfold used. rewrite !sum_list_with_app. simpl. pose proof (cost_mono (length (d ++ p)) (length ((d ++ p) ++ concat ps)) ltac:(rewrite (length_app (d ++ p)); lia)). lia.
  - intros m' St'. apply (IH m' (d ++ p)); [exact St'|rewrite length_app; lia|exact Hroom|exact HQ].
Qed.

Definition mk_names (files : list srcfile) : list (list Z) := (λ f : srcfile, mk_name f.1) <$> files.
Definition mk_datas (files : list srcfile) : list (list Z) := (λ f : srcfile, concat f.2) <$> files.

Lemma used_mono root p fs fs' : used root fs ≤ used (root ++ p) (fs ++ fs').
Proof.
  unfold used. rewrite sum_list_with_app, length_app. pose proof (cost_mono (length root) (length root + length p) ltac:(lia)). lia.
Qed.

Lemma wp_mk_file m root fs (f : srcfile) (Q : unit → mkfs → Prop) :
  let root' := root ++ dirent (Z.of_nat (length fs + 2)) (mk_name f.1) in
  mk_st m root fs → SLASH ∉ f.1 → (length fs < 198)%nat → (length root + 16 ≤ 512 * 140)%nat → (length (concat f.2) ≤ 512 * 140)%nat →
  used root' (fs ++ [concat f.2]) ≤ FSSIZE → (∀ m', mk_st m' root' (fs ++ [concat f.2]) → Q tt m') → wp (mk_file ROOTINO f) Q m.
Proof.
  intros root' [Inv Hu] Hs Hn Hlr Hlf Hroom HQ. unfold mk_file. rewrite bool_decide_eq_false_2 by done.
  assert (length (tab root fs) = S (length fs)) as El by (unfold tab; simpl; by rewrite length_fmap).
  apply wp_bind. eapply wp_mk_ialloc; [exact Inv| |by right|].
  { destruct (mi_count _ _ Inv) as [E _]. rewrite E, El. unfold NINODES. lia. }
  rewrite El. intros m1 Inv1 Hfb1. replace (Z.of_nat (S (length fs)) + 1) with (Z.of_nat (length fs + 2)) by lia.
  assert (mk_st m1 root (fs ++ [[]])) as St1.
  { split; [unfold tab in *; by rewrite fmap_app|]. rewrite Hfb1, Hu. unfold used. rewrite sum_list_with_app. cbn [sum_list_with length]. change (cost 0) with 0%nat. lia. }
  apply wp_bind. eapply wp_root_append; [exact St1|rewrite length_dirent; lia| |].
  { fold root'. etrans; [|exact Hroom]. unfold used. rewrite !sum_list_with_app. cbn [sum_list_with length]. change (cost 0) with 0%nat. lia. }
  intros m2 St2. replace (Z.of_nat (length fs + 2)) with (Z.of_nat (length fs) + 2) by lia.
  eapply (wp_file_chunks m2 root' fs []); [exact St2|exact Hlf|exact Hroom|exact HQ].
Qed.

Lemma wp_mk_files m root fs files (Q : unit → mkfs → Prop) :
  let root' := root ++ entries (length fs + 2) (mk_names files) in
  mk_st m root fs → Forall (λ f : srcfile, (SLASH ∉ f.1) ∧ (length (concat f.2) ≤ 512 * 140)%nat) files →
  (length fs + length files ≤ 198)%nat → (length root + 16 * length files ≤ 512 * 140)%nat →
  used root' (fs ++ mk_datas files) ≤ FSSIZE → (∀ m', mk_st m' root' (fs ++ mk_datas files) → Q tt m') →
  wp (forM files (mk_file ROOTINO)) Q m.
Proof.
  revert m root fs. induction files as [|f files IH]; intros m root fs root' St Hf Hn Hl Hroom HQ; cbn [forM].
  { apply wp_ret. unfold root' in *. cbn in HQ. rewrite !app_nil_r in HQ. by apply HQ. }
  apply Forall_cons in Hf as [[Hs Hd] Hf]. cbn [length] in *.
  unfold root', mk_names, mk_datas in *. cbn [fmap list_fmap entries] in *.
  change (list_fmap _ _ (λ f0 : srcfile, mk_name f0.1) files) with (mk_names files) in *.
  change (list_fmap _ _ (λ f0 : srcfile, concat f0.2) files) with (mk_datas files) in *.
  rewrite app_assoc in *. rewrite (cons_middle (concat f.2)) in *. rewrite (app_assoc fs) in *.
  apply wp_bind. eapply wp_mk_file; [exact St|done|lia|lia|exact Hd|etrans; [apply used_mono|exact Hroom]|].
  intros m' St'. eapply IH; [exact St'|exact Hf|rewrite length_app; simpl; lia|rewrite length_app, length_dirent; lia| |].
  all: replace (length (fs ++ [concat f.2]) + 2)%nat with (S (length fs + 2)) by (rewrite length_app; simpl; lia).
  - exact Hroom.
  - exact HQ.
Qed.

(** The finished image. *)
Definition bitmap (n : Z) : list Z := fold_left (λ buf i, bit_set (Z.of_nat i) buf) (seq 0 (Z.to_nat n)) zeroes.
Definition complete (m : mkfs) : Prop := ∀ b, 0 ≤ b < FSSIZE → ∃ d, mk_img m !! b = Some d ∧ length d = 512%nat.
Record mk_image (I : image) (root : list Z) (fs : list (list Z)) : Prop := {
  im_sb : I 1 = sb_block;
  im_log : ∀ b, 2 ≤ b < 32 → I b = zeroes;
  im_bitmap : I (sb_bmapstart mk_sb) = bitmap (used root fs);
  im_used : nmeta ≤ used root fs ≤ FSSIZE;
  im_count : (length fs ≤ 198)%nat;
  im_root : di_type (dino I 1) = T_DIR ∧ di_nlink (dino I 1) = 1 ∧ di_size (dino I 1) = (Z.of_nat (length root) / BSIZE + 1) * BSIZE;
  im_dir : mfile I (used root fs) (dino I 1) root (need (length root));
  im_file : ∀ i d, fs !! i = Some d → mk_node I (used root fs) (Z.of_nat i + 2) T_FILE d;
  im_disj : ∀ i j b, (i ≤ length fs)%nat → (j ≤ length fs)%nat →
    owns I (dino I (Z.of_nat i + 1)) b → owns I (dino I (Z.of_nat j + 1)) b → i = j;
  im_zero : ∀ inum, inum = 0 ∨ Z.of_nat (length fs) + 2 ≤ inum < NINODES → di_type (dino I inum) = 0 }.

Lemma length_bitmap n : length (bitmap n) = 512%nat.
Proof.
  unfold bitmap. assert (∀ l buf, length (fold_left (λ buf i, bit_set (Z.of_nat i) buf) l buf) = length buf) as H.
  { induction l as [|x l IH]; intros buf; [done|]. cbn [fold_left]. rewrite IH. unfold bit_set. apply length_alter. }
  by rewrite H.
Qed.
Lemma get16_zeroes o : get16 o zeroes = 0.
Proof.
  unfold get16. assert (∀ l, Forall (λ x : Z, x = 0) l → le_get l = 0) as H.
  { induction 1 as [|x l -> _ IH]; [done|]. simpl. rewrite IH. done. }
  apply H, Forall_take, Forall_drop. unfold zeroes. apply Forall_replicate. done.
Qed.

(** The empty image. *)
Lemma wp_mk_zero m (Q : unit → mkfs → Prop) :
  freeinode m = 1 → freeblock m = nmeta →
  (∀ m', mk_inv m' [] → freeblock m' = nmeta → Q tt m') →
  wp (forM (seq 0 (Z.to_nat FSSIZE)) (λ i, wsect (Z.of_nat i) zeroes) ;; wsect 1 sb_block) Q m.
Proof.
  intros Hi Hfb HQ. apply wp_bind. eapply wp_mono.
  { apply (wp_forM_seq (λ n m', freeinode m' = 1 ∧ freeblock m' = nmeta ∧ ∀ b, 0 ≤ b < Z.of_nat n → mk_img m' !! b = Some zeroes)).
    - split_and!; [done|done|]. intros b Hb. lia.
    - intros i m' Hlt (E1 & E2 & Hz). apply wp_wsect; [unfold FSSIZE in *; lia|]. split_and!; [done|done|]. intros b Hb. simpl.
      destruct (decide (b = Z.of_nat i)) as [->|Hne]; [by rewrite lookup_insert_eq|]. rewrite lookup_insert_ne by done. apply Hz. lia. }
  intros [] m1 (E1 & E2 & Hz). assert (∀ b, 0 ≤ b < 2000 → mk_img m1 !! b = Some zeroes) as Hz' by (intros b Hb; apply Hz; unfold FSSIZE; lia). clear Hz.
  apply wp_wsect; [unfold FSSIZE; lia|].
  assert (∀ b, 0 ≤ b < 2000 → b ≠ 1 → img (put 1 sb_block m1) b = zeroes) as Hzz.
  { intros b Hb Hne. rewrite img_put. unfold iset. rewrite (proj2 (Z.eqb_neq _ _) Hne). unfold img. by rewrite Hz'. }
  apply HQ; [|done]. split; try done.
  - assert (nmeta = 59) as En by done. split; [|simpl; rewrite E2; by split|].
    + intros b Hb. unfold FSSIZE in Hb. simpl. destruct (decide (b = 1)) as [->|Hne]; [rewrite lookup_insert_eq; by exists sb_block|].
      rewrite lookup_insert_ne by done. rewrite Hz' by done. by exists zeroes.
    + intros b Hb. simpl in Hb. rewrite E2, En in Hb. unfold FSSIZE in Hb. apply Hzz; lia.
  - simpl. rewrite E1. by split.
  - intros j k b Hj. simpl in Hj. lia.
  - intros inum Hin. assert (0 ≤ inum < NINODES) as Hr by (simpl in Hin; rewrite E1 in Hin; unfold NINODES in *; lia).
    destruct (IBLOCK_mk inum Hr) as [_ Hb]. unfold dino. rewrite Hzz by lia. unfold dinode_get. simpl. by rewrite get16_zeroes.
  - by rewrite img_put.
  - intros b Hb. apply Hzz; lia.
Qed.

Lemma mk_st_count m root fs : mk_st m root fs → (length fs ≤ 198)%nat.
Proof.
  intros [Inv _]. destruct (mi_count _ _ Inv) as [E Hc]. unfold tab in E. cbn [length] in E. rewrite length_fmap in E. unfold NINODES in Hc. lia.
Qed.
(** The root's size is rounded up, and the bitmap written. *)
Lemma wp_mk_finish m root fs (Q : unit → mkfs → Prop) :
  mk_st m root fs → (length root ≤ 512 * 140)%nat → (∀ m', complete m' → mk_image (img m') root fs → Q tt m') →
  wp (fix_root ROOTINO ;; u ← gets freeblock; mk_balloc u) Q m.
Proof.
  intros St Hlen HQ. pose proof (mk_st_count _ _ _ St) as Hn. pose proof St as [[W [Hc1 Hc2] _ Hnode Hdisj Hzero Hsb Hlog] Hu].
  assert (nmeta = 59 ∧ NINODES = 200 ∧ FSSIZE = 2000) as (Em & EN & EF) by done.
  pose proof (Hnode O T_DIR root eq_refl) as [N1 (N2 & N3 & N4) N5 F]. change (Z.of_nat 0 + 1) with ROOTINO in *.
  assert (length (tab root fs) = S (length fs)) as El by (unfold tab; cbn [length]; by rewrite length_fmap). rewrite El in *.
  destruct (wf_fb m W) as [Hfb1 Hfb2]. pose proof (mfile_addrs_ok _ _ _ _ _ F Hfb2) as Ha. pose proof (mf_addrs _ _ _ _ _ F) as Hal.
  apply wp_bind. unfold fix_root. apply wp_bind, wp_rinode; [done|by split|]. apply wp_winode; [done|by split| |].
  { split; cbn [di_type di_major di_minor di_nlink di_size di_addrs with_size]; rewrite ?N1, ?N2, ?N3, ?N4, ?N5; try done. unfold BSIZE. split; Z.div_mod_to_equations; lia. }
  intros m1 W1 I1 B1 E1 O1 D1. apply wp_bind, wp_gets. unfold mk_balloc. unfold BSIZE. rewrite (proj2 (Z.ltb_lt _ _)) by lia. simpl negb. cbv iota.
  apply wp_wsect; [done|]. change (sb_bmapstart mk_sb) with 58. fold (bitmap (freeblock m1)). rewrite B1, Hu.
  set (m2 := put 58 _ m1).
  assert (∀ b, b ≠ 58 → img m2 b = img m1 b) as I2 by (intros b Hb; unfold m2; rewrite img_put; unfold iset; by rewrite (proj2 (Z.eqb_neq _ _) Hb)).
  assert (∀ j, 0 ≤ j < NINODES → dino (img m2) j = dino (img m1) j) as Hd2.
  { intros j Hj. destruct (IBLOCK_mk j Hj) as [_ ?]. unfold dino. by rewrite I2 by lia. }
  assert (∀ b, 59 ≤ b → img m2 b = img m b) as I3 by (intros b Hb; rewrite I2, D1 by lia; done).
  assert (∀ i, i ≠ O → (i ≤ length fs)%nat → dino (img m2) (Z.of_nat i + 1) = dino (img m) (Z.of_nat i + 1)) as Hoth.
  { intros i Hi Hl. rewrite Hd2, O1 by (change ROOTINO with 1; lia). done. }
  assert (∀ i b, (i ≤ length fs)%nat → owns (img m2) (dino (img m2) (Z.of_nat i + 1)) b → owns (img m) (dino (img m) (Z.of_nat i + 1)) b) as Hown.
  { intros i b Hi (q & Hq & <- & Hne). destruct (lookup_lt_is_Some_2 (tab root fs) i ltac:(lia)) as [[ty dat] Ei]. pose proof (nd_file _ _ _ _ _ (Hnode _ _ _ Ei)) as Fi.
    exists q. split; [done|]. split; [|done]. assert (mblk (img m2) (dino (img m) (Z.of_nat i + 1)) q = mblk (img m) (dino (img m) (Z.of_nat i + 1)) q) as Eq.
    { apply mblk_ext. intros Hd. apply I3. pose proof (mf_rng _ _ _ _ _ Fi 12%nat ltac:(unfold NPOS; lia) Hd) as Hr. rewrite mblk_ind in Hr. lia. }
    rewrite <- Eq. destruct (decide (i = O)) as [->|Hi0]; [|by rewrite Hoth]. change (Z.of_nat 0 + 1) with ROOTINO. rewrite Hd2, E1 by (by split). done. }
  apply HQ; [|split].
  - intros b Hb. unfold m2, put. cbn [mk_img]. destruct (decide (b = 58)) as [->|Hne].
    + rewrite lookup_insert_eq. eexists. split; [done|]. apply length_bitmap.
    + rewrite lookup_insert_ne by done. by apply (wf_blk m1 W1).
  - rewrite I2, D1 by lia. done.
  - intros b Hb. rewrite I2, D1 by lia. by apply Hlog.
  - unfold m2. by rewrite img_put.
  - rewrite <- Hu. lia.
  - exact Hn.
  - change 1 with ROOTINO. rewrite Hd2, E1 by (by split). cbn [di_type di_nlink di_size with_size]. rewrite N5. done.
  - change 1 with ROOTINO. rewrite Hd2, E1 by (by split). apply mfile_with_size. eapply mfile_frame; [exact F|lia|].
    intros q Hq Hne. pose proof (mf_rng _ _ _ _ _ F q Hq Hne). apply I3. lia.
  - intros i d Hi. pose proof (lookup_lt_Some _ _ _ Hi) as Hil. assert (tab root fs !! S i = Some (T_FILE, d)) as Ht by (simpl; by rewrite list_lookup_fmap, Hi).
    pose proof (Hnode _ _ _ Ht) as Ni. replace (Z.of_nat i + 2) with (Z.of_nat (S i) + 1) by lia. rewrite <- Hu. change (freeblock m) with (freeblock m) in Ni.
    replace (freeblock m) with (freeblock m2) by exact B1. apply (mk_node_other m m2); [done|apply Hoth; lia|change (freeblock m2) with (freeblock m1); lia|].
    intros b Ho. pose proof (owns_range _ _ _ _ _ _ (nd_file _ _ _ _ _ Ni) Ho). apply I3. lia.
  - intros i j b Hi Hj Hoi Hoj. apply (Hdisj i j b); [lia|lia|by apply Hown|by apply Hown].
  - intros j Hj. rewrite Hd2, O1 by (change ROOTINO with 1; lia). apply Hzero. lia.
Qed.

(** What the program is given: at most 198 files of at most 140 blocks, which fit in
    the image together. *)
Definition root_data (files : list srcfile) : list Z := dots ++ entries 2 (mk_names files).
Record mk_input (files : list srcfile) : Prop := {
  in_files : Forall (λ f : srcfile, (SLASH ∉ f.1) ∧ (length (concat f.2) ≤ 512 * 140)%nat) files;
  in_count : (length files ≤ 198)%nat;
  in_room : used (root_data files) (mk_datas files) ≤ FSSIZE }.

Lemma length_root_data files : length (root_data files) = (32 + 16 * length files)%nat.
Proof. unfold root_data, dots. rewrite !length_app, length_entries, !length_dirent. unfold mk_names. rewrite length_fmap. lia. Qed.

Lemma wp_mkfs_main files (Q : unit → mkfs → Prop) :
  mk_input files → (∀ m', complete m' → mk_image (img m') (root_data files) (mk_datas files) → Q tt m') → wp (mkfs_main files) Q mkfs0.
Proof.
  intros [Hf Hn Hroom] HQ. pose proof (length_root_data files) as Hl. unfold mkfs_main.
  assert (∀ p, (∃ p', root_data files = p ++ p') → used p [] ≤ FSSIZE) as Hpre.
  { intros p [p' Ep]. etrans; [|exact Hroom]. rewrite Ep. apply (used_mono p p' []). }
  apply wp_bind. unfold wp at 1, modify. apply wp_assoc, wp_bind.
  apply wp_mk_zero; [done|done|]. intros m1 Inv1 Hfb1.
  apply wp_bind. eapply wp_mk_ialloc; [exact Inv1| |by left|].
  { destruct (mi_count _ _ Inv1) as [E _]. rewrite E. done. }
  intros m2 Inv2 Hfb2. change (Z.of_nat (length (@nil (Z * list Z))) + 1) with ROOTINO. rewrite Z.eqb_refl. simpl negb. cbv iota.
  assert (mk_st m2 [] []) as St2 by (split; [exact Inv2|by rewrite Hfb2, Hfb1]).
  apply wp_bind. eapply wp_root_append; [exact St2|rewrite length_dirent; cbn [length]; lia| |].
  { apply Hpre. unfold root_data, dots. rewrite <- app_assoc. by eexists. }
  intros m3 St3. apply wp_bind. eapply wp_root_append; [exact St3|rewrite app_nil_l, !length_dirent; lia| |].
  { rewrite app_nil_l. apply Hpre. by eexists. }
  rewrite app_nil_l. fold dots. intros m4 St4. apply wp_bind.
  eapply (wp_mk_files m4 dots []); [exact St4|exact Hf|exact Hn| |exact Hroom|].
  { unfold root_data in Hl. rewrite length_app, length_entries in Hl. unfold mk_names in Hl. rewrite length_fmap in Hl. lia. }
  intros m5 St5. apply (wp_mk_finish m5 (root_data files) (mk_datas files) Q St5); [lia|exact HQ].
Qed.
End Main.
