(* ===== verification/MkfsBoot.v ===== *)
(** * MkfsBoot: the kernel on the image of mkfs

    mkfs.c and the kernel share the layout of the disk and no code.  Here the
    kernel's [initlog] runs on a disk with an image mkfs has built: afterwards
    the invariants hold that the theorems on the file system start from, each
    input file is found under its name, and reading it gives its data. *)

From S2P Require Import Prelude State Strings Console Lock Bio BufSpec Log Crash Inode Fs Txn Blocks FsData Dinode FsFile Dirs Paths Mkfs.
#[local] Arguments Nat.div : simpl never.
#[local] Arguments Nat.modulo : simpl never.

(** ** The bitmap *)

Lemma bit_free_zeroes b : bit_free zeroes b = true.
Proof.
  unfold bit_free. assert (default 0 (zeroes !! bit_byte b) = 0) as ->; [|done].
  destruct (zeroes !! bit_byte b) as [x|] eqn:E; [|done]. unfold zeroes in E. by apply lookup_replicate_1 in E as [-> _].
Qed.
Lemma bit_free_bitmap n b : 0 ≤ n ≤ 4096 → 0 ≤ b → bit_free (bitmap n) b = negb (b <? n).
Proof.
  intros Hn Hb. rewrite <- (Z2Nat.id n) at 2 by lia. assert (Z.to_nat n ≤ 512 * 8)%nat as Hk by lia. unfold bitmap. clear Hn.
  induction (Z.to_nat n) as [|k IH]; [cbn [seq fold_left]; rewrite bit_free_zeroes; by rewrite (proj2 (Z.ltb_ge _ _)) by lia|].
  rewrite seq_S, fold_left_app. cbn [fold_left Nat.add]. pose proof (length_bitmap (Z.of_nat k)) as Hl. unfold bitmap in Hl. rewrite Nat2Z.id in Hl.
  rewrite bit_free_set by (rewrite ?Hl; lia). rewrite IH by lia.
  destruct (Z.ltb_spec b (Z.of_nat k)), (Z.ltb_spec b (Z.of_nat (S k))), (Z.eqb_spec b (Z.of_nat k)); try done; lia.
Qed.

(** ** The layout *)

(** The kernel has set up the file system from the superblock; the header of the
    log, block 2, may have been rewritten. *)
Record mk_mounted (I : image) (s : kernel) : Prop := {
  mm_sb : k_sb s = mk_sb;
  mm_size : k_disksize s = FSSIZE;
  mm_log : l_start (k_log s) = 2 ∧ l_size (k_log s) = 30;
  mm_lblk : ∀ b, 0 ≤ b < FSSIZE → b ≠ 2 → lblk s b = I b }.

Section Mounted.
Context (I : image) (s : kernel) (root : list Z) (fs : list (list Z)).
Context (Im : mk_image I root fs) (Mo : mk_mounted I s).

Lemma mk_dinode_at j : 0 ≤ j < NINODES → dinode_at s j = dino I j.
Proof.
  intros Hj. unfold dinode_at, dino. rewrite (mm_sb _ _ Mo). destruct (IBLOCK_mk j Hj) as [_ Hb].
  rewrite (mm_lblk _ _ Mo) by (unfold FSSIZE; lia). done.
Qed.
Lemma BBLOCK_mk b : 0 ≤ b < FSSIZE → BBLOCK b mk_sb = 58.
Proof. intros Hb. unfold BBLOCK. unfold FSSIZE in Hb. change BPB with 4096. rewrite Z.div_small by lia. done. Qed.
Lemma mk_isfree b : 0 ≤ b < FSSIZE → isfree s b = negb (b <? used root fs).
Proof.
  intros Hb. unfold isfree. rewrite (mm_sb _ _ Mo), BBLOCK_mk by done. rewrite (mm_lblk _ _ Mo) by done.
  change 58 with (sb_bmapstart mk_sb). rewrite (im_bitmap _ _ _ Im). unfold FSSIZE in Hb. change BPB with 4096. rewrite Z.mod_small by lia.
  destruct (im_used _ _ _ Im) as [H1 H2]. assert (nmeta = 59 ∧ FSSIZE = 2000) by done. apply bit_free_bitmap; lia.
Qed.
Lemma mk_bmap_blk n : bmap_blk s n → n = 58.
Proof. intros (b & Hb & ->). rewrite (mm_sb _ _ Mo) in *. by apply BBLOCK_mk. Qed.
Lemma mk_inode_blk n : inode_blk s n → 32 ≤ n < 58.
Proof. intros (j & Hj & ->). rewrite (mm_sb _ _ Mo) in *. by apply IBLOCK_mk. Qed.
Lemma mk_home n : home_block s n ↔ 0 ≤ n < FSSIZE ∧ ¬ (2 ≤ n < 32).
Proof. unfold home_block. rewrite (mm_size _ _ Mo). destruct (mm_log _ _ Mo) as [-> ->]. done. Qed.
Lemma mk_data_blk b : 59 ≤ b < FSSIZE → data_blk s b.
Proof.
  intros Hb. unfold data_blk. rewrite mk_home, (mm_sb _ _ Mo). change (sb_size mk_sb) with FSSIZE. split; [lia|]. split; [lia|].
  split; [intros ?%mk_bmap_blk|intros ?%mk_inode_blk]; lia.
Qed.

Lemma mk_fs_ok : fs_ok s.
Proof.
  assert (FSSIZE = 2000 ∧ nmeta = 59) as [EF En] by done. split; rewrite ?(mm_sb _ _ Mo), ?(mm_size _ _ Mo); try done.
  - intros n ->%mk_bmap_blk. apply mk_home. lia.
  - intros n Hn%mk_inode_blk. rewrite mk_home. split; [lia|]. intros ?%mk_bmap_blk. lia.
  - intros b Hb. change (sb_size mk_sb) with FSSIZE in Hb. rewrite mk_isfree by done. destruct (im_used _ _ _ Im).
    destruct (Z.ltb_spec b (used root fs)); [done|]. intros _. apply mk_data_blk. lia.
Qed.

(** ** Files *)

Lemma mk_blk j data P q : 0 ≤ j < NINODES → mfile I (used root fs) (dino I j) data P → blk s (disk_inode s j) q = mblk I (dino I j) q.
Proof.
  intros Hj F. assert (i_addrs (disk_inode s j) = di_addrs (dino I j)) as Ea by (unfold disk_inode; by rewrite mk_dinode_at by done).
  unfold blk, mblk, ind. rewrite Ea. change (default 0 (di_addrs (dino I j) !! 12%nat)) with (dind (dino I j)). case_decide; [done|].
  destruct (Z.eqb_spec (dind (dino I j)) 0) as [|Hne]; [done|]. destruct (im_used _ _ _ Im). assert (nmeta = 59) by done.
  pose proof (mf_rng _ _ _ _ _ F 12%nat ltac:(unfold NPOS; lia) Hne) as Hr. rewrite mblk_ind in Hr. by rewrite (mm_lblk _ _ Mo) by lia.
Qed.
Lemma mk_blocks_ok j data P : 0 ≤ j < NINODES → mfile I (used root fs) (dino I j) data P → blocks_ok s (disk_inode s j).
Proof.
  intros Hj F. destruct (im_used _ _ _ Im). assert (nmeta = 59) by done. split.
  - done.
  - unfold disk_inode. rewrite mk_dinode_at by done. apply (mf_addrs _ _ _ _ _ F).
  - intros q Hq. rewrite (mk_blk j data P) by done. intros Hne. pose proof (mf_rng _ _ _ _ _ F q Hq Hne). split; [apply mk_data_blk; lia|].
    rewrite mk_isfree by lia. by rewrite (proj2 (Z.ltb_lt _ _)) by lia.
  - intros q r Hq Hr. rewrite !(mk_blk j data P) by done. by apply (mf_inj _ _ _ _ _ F).
Qed.
(** The bytes of a file up to [e], which may lie in its last block behind [data]. *)
Lemma mk_contents j data e :
  0 ≤ j < NINODES → mfile I (used root fs) (dino I j) data (need (length data)) → di_size (dino I j) = Z.of_nat e → (length data ≤ e)%nat →
  (∀ k, (512 * k < e → 512 * k < length data)%nat) → (e ≤ 512 * 140)%nat →
  full_to s (disk_inode s j) e ∧ contents s (disk_inode s j) = data ++ replicate (e - length data) 0.
Proof.
  intros Hj F Esz Hle Hk He. destruct (im_used _ _ _ Im). assert (nmeta = 59) as En by done.
  assert (∀ k, (512 * k < e)%nat → need (length data) (fpos k) ∧ mblk I (dino I j) (fpos k) ≠ 0) as Hfull.
  { intros k Hke. assert (k < 140)%nat as Hk140 by lia. pose proof (fpos_lt _ Hk140) as [Hq _].
    assert (need (length data) (fpos k)) as Hnd by (apply need_fpos; auto). split; [done|]. by apply (mf_pos _ _ _ _ _ F). }
  split; [intros k Hke; rewrite (mk_blk j data _) by done; by apply Hfull|].
  unfold contents. replace (i_size (disk_inode s j)) with (Z.of_nat e) by (unfold disk_inode; rewrite mk_dinode_at by done; done). rewrite Nat2Z.id.
  apply list_eq_same_length with e; [rewrite length_app, length_replicate; lia|by rewrite length_fmap, length_seq|].
  intros x a b Hx Ha Hb. rewrite list_lookup_fmap, lookup_seq_lt in Ha by done. injection Ha as <-. cbn [Nat.add]. unfold fbyte.
  assert (512 * (x / 512) < e)%nat as Hxe by (pose proof (Nat.Div0.mul_div_le x 512); lia). destruct (Hfull _ Hxe) as [Hnd Hne].
  pose proof (fpos_lt _ (fpos_block x ltac:(lia))) as [Hq _]. rewrite (mk_blk j data _) by done. pose proof (mf_rng _ _ _ _ _ F _ Hq Hne) as Hr.
  rewrite (mm_lblk _ _ Mo) by lia. apply lookup_app_Some in Hb as [Hb|[Hxl Hb]].
  - destruct (mf_data _ _ _ _ _ F _ _ Hb) as [_ E]. by rewrite E.
  - apply lookup_replicate in Hb as [-> _]. by rewrite (mf_zero _ _ _ _ _ F x) by (done || lia).
Qed.

(** The file with inode number [i + 2]. *)
Lemma mk_file_ok i d : fs !! i = Some d →
  file_ok s (disk_inode s (Z.of_nat i + 2)) ∧ contents s (disk_inode s (Z.of_nat i + 2)) = d.
Proof.
  intros Hi. pose proof (im_file _ _ _ Im i d Hi) as [N1 _ N3 F]. pose proof (im_count _ _ _ Im). pose proof (lookup_lt_Some _ _ _ Hi).
  assert (0 ≤ Z.of_nat i + 2 < NINODES) as Hj by (unfold NINODES; lia). pose proof (mf_len _ _ _ _ _ F) as Hl.
  destruct (mk_contents _ d (length d) Hj F N3 ltac:(lia) ltac:(auto) Hl) as [Hfull Hc]. rewrite Nat.sub_diag, app_nil_r in Hc. split; [|done].
  assert (i_size (disk_inode s (Z.of_nat i + 2)) = Z.of_nat (length d)) as Es by (unfold disk_inode; rewrite mk_dinode_at by done; exact N3).
  split; [by eapply mk_blocks_ok| | |by rewrite Es, Nat2Z.id].
  - unfold disk_inode. rewrite mk_dinode_at by done. change (di_type (dino I (Z.of_nat i + 2)) ≠ T_DEV). by rewrite N1.
  - rewrite Es. change (MAXFILE * BSIZE) with (Z.of_nat 512 * 140). lia.
Qed.

(** ** The root directory *)

Context (names : list (list Z)).
Context (Hroot : root = dots ++ entries 2 names) (Hcount : length names = length fs).
Context (Hnz : Forall (λ w, Forall (λ c, c ≠ 0) w) names) (Hmod : ((2 + length fs) mod 32 ≠ 0)%nat).

(** The entries in the order of their inode numbers; the first two name the root. *)
Definition all_names : list (list Z) := str "." :: str ".." :: names.
Definition slot_inum (c : nat) : Z := if decide (c = 0)%nat then ROOTINO else Z.of_nat c.

Lemma length_root : length root = (16 * (2 + length fs))%nat.
Proof. rewrite Hroot, length_app, length_entries, Hcount. unfold dots. rewrite length_app, !length_dirent. lia. Qed.
Lemma dirent_inum inum w : 0 ≤ inum < 2 ^ 16 → de_inum (dirent inum w) = inum.
Proof.
  intros Hi. unfold de_inum, get16, slice, dirent. rewrite drop_0, take_app_length' by (by rewrite length_le_put).
  rewrite le_get_put; unfold u16; rewrite Z.mod_small by done; [done|exact Hi].
Qed.
Lemma dirent_name inum w : Forall (λ c, c ≠ 0) w → field DIRSIZ (de_name (dirent inum w)) = field DIRSIZ w.
Proof.
  intros Hw. unfold de_name, dirent. rewrite drop_app_length' by (by rewrite length_le_put).
  pose proof (field_strncpy DIRSIZ w [] Hw) as E. rewrite app_nil_r in E. rewrite E. unfold field.
  rewrite <- (app_nil_r (take DIRSIZ w)) at 2. rewrite upto0_app by (by apply Forall_take). by rewrite app_nil_r.
Qed.
Lemma entries_chunk k ns c w : ns !! c = Some w → ∀ r, chunk16 c (entries k ns ++ r) = dirent (Z.of_nat (k + c)) w.
Proof.
  revert k c. induction ns as [|n ns IH]; intros k c Hc r; [done|]. cbn [entries]. rewrite <- app_assoc. unfold chunk16, slice. destruct c as [|c].
  - injection Hc as <-. rewrite drop_0, take_app_length' by (by rewrite length_dirent). by rewrite Nat.add_0_r.
  - replace (16 * S c)%nat with (length (dirent (Z.of_nat k) n) + 16 * c)%nat by (rewrite length_dirent; lia).
    rewrite drop_app_add' by done. specialize (IH (S k) c Hc r). unfold chunk16, slice in IH. rewrite IH. f_equal. lia.
Qed.
Lemma root_chunk c w r : all_names !! c = Some w → chunk16 c (root ++ r) = dirent (slot_inum c) w.
Proof.
  intros Hc. unfold slot_inum. rewrite Hroot. unfold dots. rewrite <- !app_assoc. destruct c as [|[|c]].
  - injection Hc as <-. unfold chunk16, slice. rewrite drop_0. by rewrite take_app_length' by (by rewrite length_dirent).
  - injection Hc as <-. unfold chunk16, slice. rewrite drop_app_length' by (by rewrite length_dirent). by rewrite take_app_length' by (by rewrite length_dirent).
  - rewrite decide_False by done. unfold chunk16, slice. rewrite app_assoc, drop_app_ge by (rewrite length_app, !length_dirent; lia).
    rewrite length_app, !length_dirent. replace (16 * S (S c) - (16 + 16))%nat with (16 * c)%nat by lia.
    pose proof (entries_chunk 2 names c w Hc r) as E. unfold chunk16, slice in E. rewrite E. done.
Qed.
Lemma root_chunk_end c n : (2 + length fs ≤ c)%nat → de_inum (chunk16 c (root ++ replicate n 0)) = 0.
Proof.
  intros Hc. unfold chunk16, slice, de_inum, get16, slice. rewrite drop_app_ge by (rewrite length_root; lia).
  rewrite drop_replicate, take_replicate, drop_replicate, take_replicate.
  assert (∀ x, le_get (replicate x 0) = 0) as E by (induction x as [|x IH]; [done|]; simpl; rewrite IH; done). apply E.
Qed.
Lemma all_names_nz c w : all_names !! c = Some w → Forall (λ c, c ≠ 0) w.
Proof.
  intros Hc. rewrite Forall_lookup in Hnz. destruct c as [|[|c]]; [injection Hc as <-; repeat constructor; done..|]. exact (Hnz c w Hc).
Qed.
Lemma length_all : length all_names = (2 + length fs)%nat.
Proof. unfold all_names. cbn [length]. lia. Qed.
Lemma slot_inum_range c : (c < 2 + length fs)%nat → 1 ≤ slot_inum c < 2 ^ 16 ∧ slot_inum c ≤ Z.of_nat (length fs) + 1.
Proof. intros Hc. pose proof (im_count _ _ _ Im). unfold slot_inum. case_decide; [change ROOTINO with 1; lia|lia]. Qed.

(** The table: what is found is the inode of a slot with that name. *)
Lemma root_find_sound m k w n j q : find_entry m k w (root ++ replicate n 0) = Some (j, q) →
  (q < 2 + length fs)%nat ∧ j = slot_inum q.
Proof.
  revert k. induction m as [|m IH]; intros k; [done|]. cbn [find_entry]. destruct (decide (2 + length fs ≤ k)%nat) as [Hk|Hk].
  { rewrite root_chunk_end by done. apply IH. }
  destruct (lookup_lt_is_Some_2 all_names k) as [x Hx]; [rewrite length_all; lia|]. rewrite (root_chunk k x) by done.
  pose proof (slot_inum_range k ltac:(lia)). rewrite dirent_inum by lia. rewrite (proj2 (Z.eqb_neq _ _)) by lia. case_decide; [|apply IH].
  intros [= <- <-]. split; [lia|done].
Qed.
Lemma root_find m k w c n : NoDup (field DIRSIZ <$> all_names) → all_names !! c = Some w → (k ≤ c < k + m)%nat →
  find_entry m k w (root ++ replicate n 0) = Some (slot_inum c, c).
Proof.
  intros Hnd Hc. revert k. induction m as [|m IH]; intros k Hk; [lia|]. cbn [find_entry]. pose proof (lookup_lt_Some _ _ _ Hc) as Hlt. rewrite length_all in Hlt.
  destruct (lookup_lt_is_Some_2 all_names k) as [x Hx]; [rewrite length_all; lia|]. rewrite (root_chunk k x) by done.
  pose proof (slot_inum_range k ltac:(lia)). rewrite dirent_inum by lia. rewrite (proj2 (Z.eqb_neq _ _)) by lia.
  rewrite dirent_name by (by eapply all_names_nz). case_decide as E.
  - replace k with c; [done|]. eapply (NoDup_lookup _ c k _ Hnd); rewrite list_lookup_fmap; [by rewrite Hc|]. by rewrite Hx, E.
  - apply IH. destruct (decide (c = k)) as [->|]; [|lia]. rewrite Hx in Hc. by injection Hc as ->.
Qed.

(** The size [fix_root] stores. *)
Definition root_size : nat := ((length root / 512 + 1) * 512)%nat.
Lemma root_size_ok : (length root ≤ root_size)%nat ∧ (∀ k, 512 * k < root_size → 512 * k < length root)%nat ∧ (root_size ≤ 512 * 12)%nat.
Proof.
  pose proof (im_count _ _ _ Im) as Hn. pose proof length_root as Hl. unfold root_size.
  assert (length root mod 512 ≠ 0)%nat as Hm.
  { rewrite Hl. change 512%nat with (16 * 32)%nat. rewrite Nat.Div0.mul_mod_distr_l. lia. }
  pose proof (Nat.div_mod_eq (length root) 512) as E. pose proof (Nat.mod_upper_bound (length root) 512 ltac:(lia)). split; [lia|].
  split; [|lia]. intros k Hk. assert (k ≤ length root / 512)%nat by lia. lia.
Qed.
Lemma mk_root_ok : dirfile_ok s (disk_inode s ROOTINO) ∧ contents s (disk_inode s ROOTINO) = root ++ replicate (root_size - length root) 0.
Proof.
  destruct (im_root _ _ _ Im) as (R1 & R2 & R3). pose proof (im_dir _ _ _ Im) as F. change 1 with ROOTINO in *.
  assert (0 ≤ ROOTINO < NINODES) as Hj by done. destruct root_size_ok as (H1 & H2 & H3).
  assert (di_size (dino I ROOTINO) = Z.of_nat root_size) as Es.
  { rewrite R3. unfold root_size, BSIZE. rewrite Nat2Z.inj_mul, Nat2Z.inj_add, Nat2Z.inj_div. done. }
  destruct (mk_contents _ root root_size Hj F Es H1 H2 ltac:(lia)) as [Hfull Hc]. split; [|done].
  assert (dinode_at s ROOTINO = dino I ROOTINO) as Ed by (by apply mk_dinode_at).
  assert (i_size (disk_inode s ROOTINO) = Z.of_nat root_size) as Ei by (unfold disk_inode; rewrite Ed; exact Es).
  assert (i_type (disk_inode s ROOTINO) = T_DIR) as Et by (unfold disk_inode; rewrite Ed; exact R1).
  split; [split|done|].
  - by eapply mk_blocks_ok.
  - by rewrite Et.
  - rewrite Ei. change (MAXFILE * BSIZE) with (Z.of_nat 512 * 140). lia.
  - by rewrite Ei, Nat2Z.id.
  - rewrite Hc, length_app, length_replicate. replace (length root + (root_size - length root))%nat with root_size by lia. unfold root_size.
    replace ((length root / 512 + 1) * 512)%nat with (16 * ((length root / 512 + 1) * 32))%nat by lia.
    generalize ((length root / 512 + 1) * 32)%nat. intros x. rewrite (Nat.mul_comm 16 x), Nat.div_mul by done. lia.
Qed.

(** With a root directory that fills its last block, the size counts a block that
    is not there: the kernel allocates it when it reads the directory. *)
Lemma root_full : ((2 + length fs) mod 32 = 0)%nat →
  ∃ k : nat, 512 * Z.of_nat k < i_size (disk_inode s ROOTINO) ∧ blk s (disk_inode s ROOTINO) (fpos k) = 0.
Proof.
  intros Hz. pose proof (im_count _ _ _ Im) as Hn. pose proof length_root as Hl. exists (length root / 512)%nat.
  assert (length root mod 512 = 0)%nat as Hm by (rewrite Hl; change 512%nat with (16 * 32)%nat; rewrite Nat.Div0.mul_mod_distr_l; lia).
  pose proof (Nat.div_mod_eq (length root) 512) as E. destruct (im_root _ _ _ Im) as (_ & _ & R3). pose proof (im_dir _ _ _ Im) as F.
  assert (0 ≤ ROOTINO < NINODES) as Hj by done. rewrite (mk_blk ROOTINO root _) by done. split.
  - unfold disk_inode. rewrite mk_dinode_at by done. change (512 * Z.of_nat (length root / 512) < di_size (dino I 1)). rewrite R3. unfold BSIZE. lia.
  - assert (length root / 512 < 140)%nat as Hk by lia. pose proof (fpos_lt _ Hk) as [Hq _].
    destruct (decide (mblk I (dino I ROOTINO) (fpos (length root / 512)) = 0)) as [|Hne]; [done|].
    apply (mf_pos _ _ _ _ _ F _ Hq) in Hne. apply need_fpos in Hne; [|done]. lia.
Qed.

Lemma mk_allocated j : allocated s j → j = ROOTINO ∨ ∃ i d, fs !! i = Some d ∧ j = Z.of_nat i + 2.
Proof.
  intros [Hj Ht]. rewrite (mm_sb _ _ Mo) in Hj. change (sb_ninodes mk_sb) with NINODES in Hj. rewrite mk_dinode_at in Ht by done.
  destruct (decide (j = 1)) as [->|H1]; [by left|]. right. destruct (decide (2 ≤ j < Z.of_nat (length fs) + 2)) as [Hr|Hr].
  - destruct (lookup_lt_is_Some_2 fs (Z.to_nat (j - 2)) ltac:(lia)) as [d Hd]. exists (Z.to_nat (j - 2)), d. split; [done|lia].
  - destruct Ht. apply (im_zero _ _ _ Im). lia.
Qed.
Lemma mk_slot_allocated c : (c < 2 + length fs)%nat → allocated s (slot_inum c) ∧ di_nlink (dinode_at s (slot_inum c)) ≠ 0.
Proof.
  intros Hc. pose proof (slot_inum_range c Hc). pose proof (im_count _ _ _ Im).
  assert (0 ≤ slot_inum c < NINODES) as Hj by (unfold NINODES; lia). unfold allocated. rewrite (mm_sb _ _ Mo), mk_dinode_at by done.
  enough (di_type (dino I (slot_inum c)) ≠ 0 ∧ di_nlink (dino I (slot_inum c)) = 1) as [E1 E2] by (rewrite E2; done).
  destruct (decide (slot_inum c = 1)) as [->|Hne]; [destruct (im_root _ _ _ Im) as (R1 & R2 & _); rewrite R1; done|].
  destruct (lookup_lt_is_Some_2 fs (Z.to_nat (slot_inum c - 2)) ltac:(lia)) as [d Hd].
  pose proof (im_file _ _ _ Im _ d Hd) as [N1 (_ & _ & N2) _ _]. replace (Z.of_nat (Z.to_nat (slot_inum c - 2)) + 2) with (slot_inum c) in * by lia.
  rewrite N1. done.
Qed.

Lemma mk_isdir j : allocated s j → isdir s j = true → j = ROOTINO.
Proof.
  intros Ha Hd. destruct (mk_allocated j Ha) as [->|(i & d & Hi & ->)]; [done|]. destruct Ha as [Hj _]. rewrite (mm_sb _ _ Mo) in Hj.
  unfold isdir in Hd. rewrite mk_dinode_at in Hd by exact Hj. by rewrite (nd_type _ _ _ _ _ (im_file _ _ _ Im i d Hi)) in Hd.
Qed.
Lemma mk_tree_ok : tree_ok s.
Proof.
  destruct mk_root_ok as [Hd Hc]. split.
  - intros j Ha Hj. by rewrite (mk_isdir j Ha Hj).
  - intros j w k Ha. unfold tree_entry. destruct (isdir s j) eqn:Hj; [|done]. rewrite (mk_isdir j Ha Hj), Hc. unfold dir_lookup.
    destruct (find_entry _ _ _ _) as [[k' q]|] eqn:E; [|done]. intros [= <-]. apply root_find_sound in E as [Hq ->]. by apply mk_slot_allocated.
Qed.

Lemma mk_resolve i w : NoDup (field DIRSIZ <$> all_names) → names !! i = Some w → resolve s ROOTINO [w] = Some (Z.of_nat i + 2).
Proof.
  intros Hnd Hi. destruct mk_root_ok as [_ Hc]. destruct (im_root _ _ _ Im) as (R1 & _). simpl resolve. unfold tree_entry, isdir.
  rewrite mk_dinode_at by done. change (di_type (dino I ROOTINO)) with (di_type (dino I 1)). rewrite R1. change (T_DIR =? T_DIR) with true. cbv iota. rewrite Hc. unfold dir_lookup.
  pose proof (lookup_lt_Some _ _ _ Hi) as Hlt. rewrite (root_find _ _ w (2 + i)); [simpl; unfold slot_inum; simpl; f_equal; lia|done|exact Hi|].
  rewrite length_app, length_replicate, length_root, Nat.add_0_l. split; [lia|]. eapply Nat.lt_le_trans; [|apply (Nat.div_le_lower_bound _ 16 (2 + length fs)); lia]. lia.
Qed.

(** No block belongs to two files. *)
Lemma mk_unshared j k q r : allocated s j → allocated s k → (q < NPOS)%nat → (r < NPOS)%nat →
  blk s (disk_inode s j) q ≠ 0 → blk s (disk_inode s j) q = blk s (disk_inode s k) r → j = k.
Proof.
  intros Hj Hk Hq Hr Hne E.
  assert (∀ j, allocated s j → ∃ i data P, (i ≤ length fs)%nat ∧ j = Z.of_nat i + 1 ∧ mfile I (used root fs) (dino I j) data P) as Hf.
  { intros l Hl. destruct (mk_allocated l Hl) as [->|(i & d & Hi & ->)].
    - exists O, root, (need (length root)). split; [lia|]. split; [done|]. apply (im_dir _ _ _ Im).
    - exists (S i), d, (need (length d)). pose proof (lookup_lt_Some _ _ _ Hi). split; [lia|]. split; [lia|]. apply (nd_file _ _ _ _ _ (im_file _ _ _ Im i d Hi)). }
  assert (∀ l, allocated s l → 0 ≤ l < NINODES) as Hran by (intros l [Hl _]; by rewrite (mm_sb _ _ Mo) in Hl).
  destruct (Hf j Hj) as (a & da & Pa & Ha & Ea & Fa), (Hf k Hk) as (b & db & Pb & Hb & Eb & Fb).
  rewrite (mk_blk j da Pa) in Hne, E by auto. rewrite (mk_blk k db Pb) in E by auto.
  rewrite Ea, Eb in *. rewrite (im_disj _ _ _ Im a b (mblk I (dino I (Z.of_nat a + 1)) q)); [done|done|done|by exists q|]. exists r. split; [done|]. by split.
Qed.
End Mounted.

(** ** Booting *)

(** A machine that has started on the image: nothing is held, no buffer is dirty,
    and [iinit] has read the superblock. *)
Record mk_machine (m : mkfs) (i : nat) (p : proc) (s : kernel) : Prop := {
  mc_st : st i p [] s;
  mc_clean : ∀ n, ¬ isdirty s n;
  mc_disk : k_disk s = mk_img m;
  mc_size : k_disksize s = FSSIZE;
  mc_sb : k_sb s = sb_decode (lblk s 1);
  mc_log : length (lh_block (k_log s)) = LOGSIZEn }.

Lemma sb_block_decode : sb_decode sb_block = mk_sb.
Proof. vm_compute. reflexivity. Qed.
Lemma bufs_only_sb s s' : bufs_only s s' → k_sb s' = k_sb s.
Proof. by intros (?&?&?&?&->&_). Qed.

Section Boot.
Context `{WaitBound}.

Lemma wp_mk_boot m i p s root fs (Q : unit → kernel → Prop) :
  mk_image (img m) root fs → mk_machine m i p s → (∀ s', mk_mounted (img m) s' → Q tt s') → wp (initlog 1) Q s.
Proof.
  intros Im [Hs Hd Hk Hz Hsb Hl] HQ. assert (FSSIZE = 2000) as EF by done.
  assert (∀ b, 0 ≤ b < FSSIZE → lblk s b = img m b) as Hlb.
  { intros b Hb. rewrite (view_clean i p s b Hs (Hd b)) by lia. unfold view. by rewrite Hk. }
  assert (sb_decode (lblk s 1) = mk_sb) as Esb by (rewrite Hlb, (im_sb _ _ _ Im) by lia; apply sb_block_decode).
  assert (hdr_n (lblk s 2) = 0) as Hh by (rewrite Hlb, (im_log _ _ _ Im) by lia; unfold hdr_n; by rewrite get32_zeroes).
  eapply wp_initlog; [exact Hs|exact Hd|lia|rewrite Esb|].
  - split; cbn -[Z.pow]; try done; [rewrite Hz; by split| |].
    + change (lblk (set_k_log (sb_log mk_sb (k_log s)) s) (s32 2)) with (lblk s 2). rewrite Hh. done.
    + change (lblk (set_k_log (sb_log mk_sb (k_log s)) s) (s32 2)) with (lblk s 2). rewrite hdr_blocks_nil by done. intros b ?%elem_of_nil. done.
  - rewrite Esb. intros s' _ [[lg W1] _ _ W4 _] _ [L1 L2] _. apply HQ. split.
    + rewrite (bufs_only_sb _ _ W1). cbn. by rewrite Hsb.
    + by rewrite (bufs_only_disksize _ _ W1).
    + by rewrite L1, L2.
    + intros b Hb Hne. rewrite W4, <- Hlb by done. apply overlay_notin. unfold recover_writes.
      change (l_start (k_log (set_k_log (sb_log mk_sb (k_log s)) s))) with 2. rewrite hdr_blocks_nil by done. cbn. set_solver.
Qed.
End Boot.

(** Names the kernel can tell apart. *)
Record mk_named (files : list srcfile) : Prop := {
  nm_nz : Forall (λ w, Forall (λ c, c ≠ 0) w) (mk_names files);
  nm_distinct : NoDup (field DIRSIZ <$> all_names (mk_names files)) }.

(** C3. The file systems of mkfs and of the kernel agree.  mkfs ends, for inputs
    that fit, with a complete image.  On a machine started with that image as its
    disk, [initlog] returns, and then the invariants hold that the kernel's file
    system works under (the layout, the bitmap, every directory a table of entries
    for inodes in use), no block belongs to two inodes, every input file is found
    from the root under its name without the leading underscore, and its contents
    are the bytes mkfs was given.  The root may not fill its last block: see
    [root_full]. *)
Theorem mkfs_boots `{WaitBound} (files : list srcfile) (i : nat) (p : proc) :
  mk_input files → mk_named files → ((2 + length files) mod 32 ≠ 0)%nat →
  wp (mkfs_main files) (λ _ m, complete m ∧ ∀ s, mk_machine m i p s →
    wp (initlog 1) (λ _ s', fs_ok s' ∧ tree_ok s' ∧
      (∀ j k q r, allocated s' j → allocated s' k → (q < NPOS)%nat → (r < NPOS)%nat →
         blk s' (disk_inode s' j) q ≠ 0 → blk s' (disk_inode s' j) q = blk s' (disk_inode s' k) r → j = k) ∧
      ∀ n f, files !! n = Some f → ∃ inum, resolve s' ROOTINO [mk_name f.1] = Some inum ∧
        file_ok s' (disk_inode s' inum) ∧ contents s' (disk_inode s' inum) = concat f.2) s) mkfs0.
Proof.
  intros Hin [Hnz Hnd] Hmod. apply wp_mkfs_main; [done|]. intros m Hm Im. split; [done|]. intros s Mc.
  eapply wp_mk_boot; [exact Im|exact Mc|]. intros s' Mo.
  assert (length (mk_names files) = length (mk_datas files) ∧ length (mk_datas files) = length files) as [E1 E2] by (unfold mk_names, mk_datas; by rewrite !length_fmap).
  rewrite <- E2 in Hmod. split; [by eapply mk_fs_ok|]. split; [by eapply mk_tree_ok|]. split; [by eapply mk_unshared|].
  intros n f Hn. exists (Z.of_nat n + 2). split; [eapply mk_resolve; try done; unfold mk_names; by rewrite list_lookup_fmap, Hn|].
  eapply mk_file_ok; [exact Im|exact Mo|]. unfold mk_datas. by rewrite list_lookup_fmap, Hn.
Qed.

(** A machine that boots on an image of mkfs. *)
Definition mk_kernel (m : mkfs) : kernel :=
  set_k_proc (Some 0%nat) (set_k_ptable (<[0%nat := demo_proc]> (k_ptable kernel0))
    (set_k_disk (mk_img m) (set_k_disksize FSSIZE (set_k_log demo_log (set_k_sb mk_sb kernel0))))).
Lemma mk_kernel_machine m : complete m → img m 1 = sb_block → ∃ s, mk_machine m 0 demo_proc s.
Proof.
  intros Hm H1.
  assert (wp binit (λ _ s, ∃ bc, s = set_k_bcache bc (mk_kernel m) ∧ lru bc (rev (seq 0 NBUF)) ∧
    core <$> bc = replicate (S NBUF) (core buf0)) (mk_kernel m)) as (_ & bc & E & Hl & Hc)%wp_run.
  { apply wp_binit; [done|by repeat constructor|]. intros bc Hl Hc. exists bc. split; [done|]. split; [done|]. by rewrite Hc. }
  clear E. exists (set_k_bcache bc (mk_kernel m)).
  destruct (st_boot 0 demo_proc (set_k_bcache bc (mk_kernel m)) (rev (seq 0 NBUF))) as [Hs Hd]; [done|done|exact Hm|done|done|done|].
  split; try done. rewrite (view_clean 0 demo_proc _ 1 Hs (Hd 1)) by done. change (mk_sb = sb_decode (img m 1)). by rewrite H1, sb_block_decode.
Qed.
Definition demo_inputs : list srcfile := [(str "README", [str "xv6 is"; str " here"]); (str "_cat", [str "code"])].
Lemma demo_inputs_ok : mk_input demo_inputs ∧ mk_named demo_inputs.
Proof.
  split; split.
  - constructor; [|constructor; [|constructor]]; (split; [by apply (bool_decide_unpack _); vm_compute|apply Nat.leb_le; vm_compute; reflexivity]).
  - apply Nat.leb_le. reflexivity.
  - apply Z.leb_le. vm_compute. reflexivity.
  - apply (bool_decide_unpack _). vm_compute. done.
  - apply (bool_decide_unpack _). vm_compute. done.
Qed.
Lemma mk_run_boot (c : M mkfs unit) (R : unit → kernel → Prop) :
  wp c (λ _ m, complete m ∧ ∀ s, mk_machine m 0 demo_proc s → wp (initlog (H := 0%nat) 1) R s) mkfs0 → wp c (λ _ m, img m 1 = sb_block) mkfs0 →
  ∃ m s s', c mkfs0 = Ok tt m ∧ k_disk s = mk_img m ∧ initlog (H := 0%nat) 1 s = Ok tt s' ∧ R tt s'.
Proof.
  intros ([] & m & Em & Hm & Hk)%wp_ok ([] & m' & Em' & Hsb)%wp_ok. rewrite Em in Em'. injection Em' as <-.
  destruct (mk_kernel_machine m Hm Hsb) as [s Mc]. pose proof (Hk s Mc) as ([] & s' & Es & HR)%wp_ok.
  exists m, s, s'. split; [exact Em|]. split; [exact (mc_disk _ _ _ _ Mc)|]. by split.
Qed.
Lemma mkfs_boots_witness : ∃ m s s',
  mkfs_main demo_inputs mkfs0 = Ok tt m ∧ k_disk s = mk_img m ∧ initlog (H := 0%nat) 1 s = Ok tt s' ∧ fs_ok s' ∧ tree_ok s' ∧
  ∃ inum, resolve s' ROOTINO [str "cat"] = Some inum ∧ contents s' (disk_inode s' inum) = str "code".
Proof.
  destruct demo_inputs_ok as [Hin Hnm].
  destruct (mk_run_boot _ _ (mkfs_boots (H := 0%nat) demo_inputs 0 demo_proc Hin Hnm ltac:(apply Nat.eqb_neq; vm_compute; reflexivity))) as (m & s & s' & Em & Ek & Es & Hf & Ht & _ & Hr).
  { apply wp_mkfs_main; [exact Hin|]. intros m _ Im. exact (im_sb _ _ _ Im). }
  destruct (Hr 1%nat (str "_cat", [str "code"]) eq_refl) as (inum & H1 & _ & H2).
  exists m, s, s'. split; [exact Em|]. split; [exact Ek|]. split; [exact Es|]. split; [exact Hf|]. split; [exact Ht|].
  exists inum. split; [exact H1|exact H2].
Defined.
