(* ===== verification/Hw.v ===== *)
(** * Hw: the hardware the kernel and the boot loader talk to

    The instructions of x86.h that reach devices.  The devices themselves are a
    parameter: a type [C] of their states with the effect of each access
    ([Hw]).  Code runs in any state that contains one ([HasHw]).  [Ata] and
    [AtaLaws] say what the disk driver and the boot loader rely on in the disk
    controller; [demo_ata] is a controller that behaves so. *)

From S2P Require Import Prelude.

Class Hw (C : Type) := {
  hw_in : Z → C → Z * C;                (* a byte from a port *)
  hw_out : Z → Z → C → C;
  hw_insl : Z → nat → C → list Z * C;   (* 4 n bytes from a port *)
  hw_outsl : Z → list Z → C → C;
  hw_load : Z → C → Z * C;              (* a word of device memory *)
  hw_store : Z → Z → C → C }.

Class HasHw (S C : Type) := { hw : S → C; set_hw : C → S → S }.
Class HasHwLaws (S C : Type) `{HasHw S C} := {
  hw_set : ∀ c s, hw (set_hw c s) = c;
  set_hw_set : ∀ c c' s, set_hw c (set_hw c' s) = set_hw c s;
  set_hw_id : ∀ s, set_hw (hw s) s = s }.

(** Code over a part of the state, run in the whole. *)
Class Within (S T : Type) := { part : S → T; set_part : T → S → S }.
Section Within.
Context {S T : Type} `{Within S T}.
Fixpoint olift {A} (s : S) (o : outcome T A) : outcome S A :=
  match o with
  | Ok a t => Ok a (set_part t s)
  | Panic msg => Panic msg
  | Fault why => Fault why
  | Swtch t r => Swtch (set_part t s) (λ s', olift s' (r (part s')))
  | NoFuel => NoFuel
  end.
Definition lift {A} (m : M T A) : M S A := λ s, olift s (m (part s)).
Lemma wp_within {A} (m : M T A) (Q : A → S → Prop) s : wp m (λ a t, Q a (set_part t s)) (part s) → wp (lift m) Q s.
Proof. unfold wp, lift. by destruct (m (part s)). Qed.
End Within.

(** How often a status register is read before the model gives up. *)
Class PollBound := poll_bound : nat.

Section Io.
Context {S C : Type} `{HasHw S C} `{Hw C}.

Definition inb (port : Z) : M S Z := λ s, let r := hw_in port (hw s) in Ok (u8 r.1) (set_hw r.2 s).
Definition outb (port data : Z) : M S unit := λ s, Ok tt (set_hw (hw_out port (u8 data) (hw s)) s).
Definition insl (port : Z) (cnt : nat) : M S (list Z) := λ s, let r := hw_insl port cnt (hw s) in Ok r.1 (set_hw r.2 s).
Definition outsl (port : Z) (data : list Z) : M S unit := λ s, Ok tt (set_hw (hw_outsl port data (hw s)) s).
(** Device memory. *)
Definition mmio_read (a : Z) : M S Z := λ s, let r := hw_load a (hw s) in Ok (u32 r.1) (set_hw r.2 s).
Definition mmio_write (a v : Z) : M S unit := λ s, Ok tt (set_hw (hw_store a (u32 v) (hw s)) s).

(** [while((r = inb(port)) & mask) != v);] *)
Fixpoint poll (n : nat) (port mask v : Z) : M S Z :=
  r ← inb port;
  if Z.land r mask =? v then mret r else
  match n with O => nofuel | Datatypes.S n' => poll n' port mask v end.
End Io.

(** Bytes in physical memory. *)
Definition mload (a : Z) (n : nat) (m : Z → Z) : list Z := (λ k, m (a + Z.of_nat k)) <$> seq 0 n.
Definition mstore (a : Z) (bs : list Z) (m : Z → Z) : Z → Z :=
  λ x, if (a <=? x) && (x <? a + Z.of_nat (length bs)) then default 0 (bs !! Z.to_nat (x - a)) else m x.

(** ** The disk controller *)

Inductive ata_state := AtaIdle | AtaRead (drv sec : Z) | AtaWrite (drv sec : Z) | AtaWritten.

Class Ata (C : Type) := {
  ata_reg : C → Z → Z;                (* the registers at ports 0x1f2 to 0x1f6 *)
  ata_state_of : C → ata_state;
  ata_sector : C → Z → Z → list Z;    (* drive, sector *)
  ata_wait : C → nat }.               (* status reads until the drive is ready *)

Definition upd_sector (drv sec : Z) (d : list Z) (D : Z → Z → list Z) : Z → Z → list Z :=
  λ v x, if (v =? drv) && (x =? sec) then d else D v x.

Section Laws.
Context {C : Type} `{Hw C} `{Ata C}.

(** What the registers select. *)
Definition ata_lba (c : C) : Z :=
  ata_reg c 0x1f3 + 2 ^ 8 * ata_reg c 0x1f4 + 2 ^ 16 * ata_reg c 0x1f5 + 2 ^ 24 * (ata_reg c 0x1f6 mod 2 ^ 4).
Definition ata_drive (c : C) : Z := ata_reg c 0x1f6 / 2 ^ 4 mod 2.
Definition ata_same (c c' : C) : Prop :=
  ata_state_of c' = ata_state_of c ∧ ∀ drv sec, ata_sector c' drv sec = ata_sector c drv sec.

(** Status reads change nothing but the waiting time; a ready drive stays ready
    while its registers are written.  A command starts when the drive is ready.
    The data of a write are taken at once, and those of a read handed out when
    the drive is ready again. *)
Class AtaLaws `{PollBound} := {
  ata_bound : ∀ c, (ata_wait c ≤ poll_bound)%nat;
  ata_status : ∀ c, let r := hw_in 0x1f7 c in
    ata_same c r.2 ∧ (∀ p, ata_reg r.2 p = ata_reg c p) ∧ 0 ≤ r.1 < 256 ∧
    if decide (ata_wait c = O) then Z.land r.1 0xc0 = 0x40 ∧ Z.land r.1 0x21 = 0 ∧ ata_wait r.2 = O
    else Z.land r.1 0xc0 ≠ 0x40 ∧ (ata_wait r.2 < ata_wait c)%nat;
  ata_out : ∀ c p v, 0x1f2 ≤ p ≤ 0x1f6 ∨ p = 0x3f6 → ata_wait c = O → 0 ≤ v < 256 →
    let c' := hw_out p v c in ata_same c c' ∧ ata_wait c' = O ∧
    ∀ q, 0x1f2 ≤ q ≤ 0x1f6 → ata_reg c' q = if q =? p then v else ata_reg c q;
  ata_read : ∀ c, ata_wait c = O → ata_reg c 0x1f2 = 1 → let c' := hw_out 0x1f7 0x20 c in
    ata_state_of c' = AtaRead (ata_drive c) (ata_lba c) ∧ ∀ drv sec, ata_sector c' drv sec = ata_sector c drv sec;
  ata_write : ∀ c, ata_wait c = O → ata_reg c 0x1f2 = 1 → let c' := hw_out 0x1f7 0x30 c in
    ata_state_of c' = AtaWrite (ata_drive c) (ata_lba c) ∧ ∀ drv sec, ata_sector c' drv sec = ata_sector c drv sec;
  ata_outsl : ∀ c drv sec d, ata_state_of c = AtaWrite drv sec → length d = 512%nat → let c' := hw_outsl 0x1f0 d c in
    ata_state_of c' = AtaWritten ∧ ∀ v x, ata_sector c' v x = upd_sector drv sec d (ata_sector c) v x;
  ata_insl : ∀ c drv sec, ata_state_of c = AtaRead drv sec → ata_wait c = O → let r := hw_insl 0x1f0 128 c in
    r.1 = ata_sector c drv sec ∧ ata_state_of r.2 = AtaIdle ∧ ∀ v x, ata_sector r.2 v x = ata_sector c v x }.
End Laws.

(** ** Weakest preconditions *)

Section Wp.
Context {S C : Type} `{HHas : HasHw S C} `{!HasHwLaws S C} `{HHw : Hw C} `{HAta : Ata C} `{HPoll : PollBound} `{!AtaLaws (C := C)}.

Lemma wp_outb port v (Q : unit → S → Prop) s : Q tt (set_hw (hw_out port (u8 v) (hw s)) s) → wp (outb port v) Q s.
Proof. done. Qed.
Lemma wp_outsl port d (Q : unit → S → Prop) s : Q tt (set_hw (hw_outsl port d (hw s)) s) → wp (outsl port d) Q s.
Proof. done. Qed.
Lemma wp_insl port n (Q : list Z → S → Prop) s :
  Q (hw_insl port n (hw s)).1 (set_hw (hw_insl port n (hw s)).2 s) → wp (insl port n) Q s.
Proof. done. Qed.

(** Polling the status ends with the drive ready, and nothing else changed. *)
Lemma wp_poll n s (Q : Z → S → Prop) :
  (ata_wait (hw s) ≤ n)%nat →
  (∀ r c, ata_same (hw s) c → (∀ p, ata_reg c p = ata_reg (hw s) p) → ata_wait c = O → Z.land r 0x21 = 0 → Q r (set_hw c s)) →
  wp (poll n 0x1f7 0xc0 0x40) Q s.
Proof.
  revert s. induction n as [|n IH]; intros s Hn HQ; cbn [poll]; apply wp_bind; unfold wp at 1, inb;
    pose proof (ata_status (hw s)) as (Hsm & Hreg & Hr & Hst); destruct (hw_in 0x1f7 (hw s)) as [r c]; cbn [fst snd] in *; rewrite (u8_small r) by lia.
  - destruct (decide (ata_wait (hw s) = O)) as [|]; [|lia]. destruct Hst as (E1 & E2 & E3). rewrite E1, Z.eqb_refl. apply wp_ret. by apply HQ.
  - destruct (decide (ata_wait (hw s) = O)) as [|Hne].
    + destruct Hst as (E1 & E2 & E3). rewrite E1, Z.eqb_refl. apply wp_ret. by apply HQ.
    + destruct Hst as [E1 E2]. rewrite (proj2 (Z.eqb_neq _ _) E1). apply IH; [rewrite hw_set; lia|].
      rewrite hw_set. intros r' c' [S1 S2] Hr' Hw' H0. rewrite set_hw_set. destruct Hsm as [S3 S4]. apply HQ; [|intros p; by rewrite Hr', Hreg|done|done].
      split; [congruence|]. intros. by rewrite S2.
Qed.

(** Selecting sector [sec] of drive [drv]: the writes to the registers. *)
Lemma wp_select sec (drv b6 : Z) (k : M S unit) (Q : unit → S → Prop) s :
  0 ≤ sec < 2 ^ 28 → u8 b6 / 2 ^ 4 mod 2 = drv → u8 b6 mod 2 ^ 4 = sec / 2 ^ 24 → ata_wait (hw s) = O →
  (∀ c, ata_same (hw s) c → ata_wait c = O → ata_reg c 0x1f2 = 1 → ata_lba c = sec → ata_drive c = drv → wp k Q (set_hw c s)) →
  wp (outb 0x1f2 1 ;; outb 0x1f3 sec ;; outb 0x1f4 (Z.shiftr sec 8) ;; outb 0x1f5 (Z.shiftr sec 16) ;; outb 0x1f6 b6 ;; k) Q s.
Proof.
  intros Hsec Hdrv Hhi H0 HQ. pose proof (u8_range sec). pose proof (u8_range (Z.shiftr sec 8)). pose proof (u8_range (Z.shiftr sec 16)). pose proof (u8_range b6).
  destruct (ata_out (hw s) 0x1f2 1 ltac:(lia) H0 ltac:(lia)) as ([A1 B1] & W1 & R1). set (c1 := hw_out 0x1f2 1 (hw s)) in *.
  destruct (ata_out c1 0x1f3 (u8 sec) ltac:(lia) W1 ltac:(lia)) as ([A2 B2] & W2 & R2). set (c2 := hw_out 0x1f3 (u8 sec) c1) in *.
  destruct (ata_out c2 0x1f4 (u8 (Z.shiftr sec 8)) ltac:(lia) W2 ltac:(lia)) as ([A3 B3] & W3 & R3). set (c3 := hw_out 0x1f4 (u8 (Z.shiftr sec 8)) c2) in *.
  destruct (ata_out c3 0x1f5 (u8 (Z.shiftr sec 16)) ltac:(lia) W3 ltac:(lia)) as ([A4 B4] & W4 & R4). set (c4 := hw_out 0x1f5 (u8 (Z.shiftr sec 16)) c3) in *.
  destruct (ata_out c4 0x1f6 (u8 b6) ltac:(lia) W4 ltac:(lia)) as ([A5 B5] & W5 & R5). set (c5 := hw_out 0x1f6 (u8 b6) c4) in *.
  do 5 (apply wp_bind, wp_outb; rewrite ?hw_set, ?set_hw_set). change (u8 1) with 1. fold c1 c2 c3 c4 c5.
  apply HQ; [split; [congruence|intros; by rewrite B5, B4, B3, B2, B1]|done|..].
  - by rewrite R5, R4, R3, R2, R1 by lia.
  - unfold ata_lba. rewrite !R5, !R4, !R3, !R2 by lia. cbn [Z.eqb Pos.eqb]. rewrite Hhi. unfold u8. rewrite !Z.shiftr_div_pow2 by lia.
    change (2 ^ 24) with (2 ^ 8 * 2 ^ 8 * 2 ^ 8). change (2 ^ 16) with (2 ^ 8 * 2 ^ 8). rewrite <- !Zdiv.Zdiv_Zdiv by lia. Z.div_mod_to_equations. lia.
  - unfold ata_drive. by rewrite R5 by lia.
Qed.
End Wp.

(** ** A controller that keeps the laws *)

Record demo_ctl := mkCtl { dc_reg : Z → Z; dc_st : ata_state; dc_sec : Z → Z → list Z; dc_busy : bool }.
Definition demo_in (p : Z) (c : demo_ctl) : Z * demo_ctl :=
  if p =? 0x1f7 then (if dc_busy c then 0x80 else 0x50, mkCtl (dc_reg c) (dc_st c) (dc_sec c) false) else (0, c).
Definition demo_lba (c : demo_ctl) : Z := dc_reg c 0x1f3 + 2 ^ 8 * dc_reg c 0x1f4 + 2 ^ 16 * dc_reg c 0x1f5 + 2 ^ 24 * (dc_reg c 0x1f6 mod 2 ^ 4).
Definition demo_drive (c : demo_ctl) : Z := dc_reg c 0x1f6 / 2 ^ 4 mod 2.
Definition demo_out (p v : Z) (c : demo_ctl) : demo_ctl :=
  if (p =? 0x1f7) && (v =? 0x20) then mkCtl (dc_reg c) (AtaRead (demo_drive c) (demo_lba c)) (dc_sec c) true
  else if (p =? 0x1f7) && (v =? 0x30) then mkCtl (dc_reg c) (AtaWrite (demo_drive c) (demo_lba c)) (dc_sec c) true
  else mkCtl (λ q, if q =? p then v else dc_reg c q) (dc_st c) (dc_sec c) (dc_busy c).
Definition demo_insl (p : Z) (n : nat) (c : demo_ctl) : list Z * demo_ctl :=
  match dc_st c with AtaRead drv sec => (dc_sec c drv sec, mkCtl (dc_reg c) AtaIdle (dc_sec c) false) | _ => ([], c) end.
Definition demo_outsl (p : Z) (d : list Z) (c : demo_ctl) : demo_ctl :=
  match dc_st c with AtaWrite drv sec => mkCtl (dc_reg c) AtaWritten (upd_sector drv sec d (dc_sec c)) true | _ => c end.
#[export] Instance demo_hw : Hw demo_ctl := {
  hw_in := demo_in; hw_out := demo_out; hw_insl := demo_insl; hw_outsl := demo_outsl; hw_load _ c := (0, c); hw_store _ _ c := c }.
#[export] Instance demo_ata : Ata demo_ctl := {
  ata_reg := dc_reg; ata_state_of := dc_st; ata_sector := dc_sec; ata_wait c := if dc_busy c then 1%nat else O }.
#[export] Instance demo_ata_laws : AtaLaws (C := demo_ctl) (H1 := 1%nat).
Proof.
  split.
  - intros c. simpl. destruct (dc_busy c); vm_compute; lia.
  - intros c. simpl. unfold demo_in, ata_same. simpl. destruct (dc_busy c); simpl; repeat split; try done; lia.
  - intros c p v Hp Hw Hv. simpl. unfold demo_out, ata_same. rewrite (proj2 (Z.eqb_neq p 0x1f7)) by lia. simpl. by repeat split.
  - intros c Hw Hr. by repeat split.
  - intros c Hw Hr. by repeat split.
  - intros c drv sec d Hs Hd. simpl in *. unfold demo_outsl. rewrite Hs. by repeat split.
  - intros c drv sec Hs Hw. simpl in *. unfold demo_insl. rewrite Hs. by repeat split.
Qed.
