(* ===== verification/Apic.v ===== *)
(** * Apic: the interrupt controllers and the clock (lapic.c, ioapic.c, picirq.c)

    The registers of the local APIC and the I/O APIC are words of device memory;
    the pointer [lapic], set by mp.c, and [ioapicid] are arguments.  The
    theorems say which interrupts the I/O APIC delivers after [ioapicinit] and
    [ioapicenable], and what date [cmostime] returns. *)

From S2P Require Import Prelude State Hw Syscall.

Definition IRQ_ERROR : Z := 19.

(** Registers of the local APIC, as indices into an array of words. *)
Definition ID : Z := 0x0020 / 4.
Definition VER : Z := 0x0030 / 4.
Definition TPR : Z := 0x0080 / 4.
Definition EOI : Z := 0x00B0 / 4.
Definition SVR : Z := 0x00F0 / 4.
Definition ENABLE : Z := 0x00000100.
Definition ESR : Z := 0x0280 / 4.
Definition ICRLO : Z := 0x0300 / 4.
Definition INIT : Z := 0x00000500.
Definition STARTUP : Z := 0x00000600.
Definition DELIVS : Z := 0x00001000.
Definition ASSERT : Z := 0x00004000.
Definition LEVEL : Z := 0x00008000.
Definition BCAST : Z := 0x00080000.
Definition ICRHI : Z := 0x0310 / 4.
Definition TIMER : Z := 0x0320 / 4.
Definition X1 : Z := 0x0000000B.
Definition PERIODIC : Z := 0x00020000.
Definition PCINT : Z := 0x0340 / 4.
Definition LINT0 : Z := 0x0350 / 4.
Definition LINT1 : Z := 0x0360 / 4.
Definition ERROR : Z := 0x0370 / 4.
Definition MASKED : Z := 0x00010000.
Definition TICR : Z := 0x0380 / 4.
Definition TDCR : Z := 0x03E0 / 4.

(** The I/O APIC. *)
Definition IOAPIC : Z := 0xFEC00000.
Definition REG_ID : Z := 0x00.
Definition REG_VER : Z := 0x01.
Definition REG_TABLE : Z := 0x10.
Definition INT_DISABLED : Z := 0x00010000.

Definition CMOS_PORT : Z := 0x70.
Definition CMOS_RETURN : Z := 0x71.
Definition CMOS_STATA : Z := 0x0a.
Definition CMOS_STATB : Z := 0x0b.
Definition CMOS_UIP : Z := Z.shiftl 1 7.
Definition SECS : Z := 0x00.
Definition MINS : Z := 0x02.
Definition HOURS : Z := 0x04.
Definition DAY : Z := 0x07.
Definition MONTH : Z := 0x08.
Definition YEAR : Z := 0x09.

Record rtcdate := mkRtc { second : Z; minute : Z; hour : Z; day : Z; month : Z; year : Z }.
#[export] Instance rtcdate_eq_dec : EqDecision rtcdate.
Proof. solve_decision. Defined.

Section Code.
Context {S C : Type} `{HasHw S C} `{Hw C} `{PollBound}.

(** ** picirq.c *)

Definition picinit : M S unit := outb 0x21 0xFF ;; outb 0xA1 0xFF.

(** ** kshutdown.c *)

Definition kshutdown : M S unit := outb 0x501 0x0.

(** ** ioapic.c *)

Definition ioapicread (reg : Z) : M S Z := mmio_write IOAPIC reg ;; mmio_read (IOAPIC + 16).
Definition ioapicwrite (reg data : Z) : M S unit := mmio_write IOAPIC reg ;; mmio_write (IOAPIC + 16) data.
(** [warn] is the call of [cprintf]. *)
Definition ioapicinit (ioapicid : Z) (warn : M S unit) : M S unit :=
  v ← ioapicread REG_VER;
  let maxintr := Z.land (Z.shiftr v 16) 0xFF in
  i ← ioapicread REG_ID;
  let id := Z.shiftr i 24 in
  when (negb (id =? ioapicid)) warn ;;
  forM (seq 0 (Z.to_nat (maxintr + 1))) (λ i,
    ioapicwrite (REG_TABLE + 2 * Z.of_nat i) (Z.lor INT_DISABLED (T_IRQ0 + Z.of_nat i)) ;;
    ioapicwrite (REG_TABLE + 2 * Z.of_nat i + 1) 0).
Definition ioapicenable (irq cpunum : Z) : M S unit :=
  ioapicwrite (REG_TABLE + 2 * irq) (T_IRQ0 + irq) ;;
  ioapicwrite (REG_TABLE + 2 * irq + 1) (Z.shiftl cpunum 24).

(** ** lapic.c *)

Definition lapicw (lapic index value : Z) : M S unit :=
  mmio_write (lapic + 4 * index) value ;;
  mmio_read (lapic + 4 * ID) ;;
  mret tt.

(** [while(lapic[ICRLO] & DELIVS);] *)
Fixpoint lapic_deliver (n : nat) (lapic : Z) : M S unit :=
  r ← mmio_read (lapic + 4 * ICRLO);
  if Z.land r DELIVS =? 0 then mret tt else
  match n with O => nofuel | Datatypes.S n' => lapic_deliver n' lapic end.

Definition lapicinit (lapic : Z) : M S unit :=
  if lapic =? 0 then mret tt else
  lapicw lapic SVR (Z.lor ENABLE (T_IRQ0 + IRQ_SPURIOUS)) ;;
  lapicw lapic TDCR X1 ;;
  lapicw lapic TIMER (Z.lor PERIODIC (T_IRQ0 + IRQ_TIMER)) ;;
  lapicw lapic TICR 10000000 ;;
  lapicw lapic LINT0 MASKED ;;
  lapicw lapic LINT1 MASKED ;;
  v ← mmio_read (lapic + 4 * VER);
  when (4 <=? Z.land (Z.shiftr v 16) 0xFF) (lapicw lapic PCINT MASKED) ;;
  lapicw lapic ERROR (T_IRQ0 + IRQ_ERROR) ;;
  lapicw lapic ESR 0 ;;
  lapicw lapic ESR 0 ;;
  lapicw lapic EOI 0 ;;
  lapicw lapic ICRHI 0 ;;
  lapicw lapic ICRLO (Z.lor (Z.lor BCAST INIT) LEVEL) ;;
  lapic_deliver poll_bound lapic ;;
  lapicw lapic TPR 0.

Definition lapicid (lapic : Z) : M S Z :=
  if lapic =? 0 then mret 0 else
  v ← mmio_read (lapic + 4 * ID);
  mret (Z.shiftr v 24).

Definition lapiceoi (lapic : Z) : M S unit := if lapic =? 0 then mret tt else lapicw lapic EOI 0.

Definition microdelay (us : Z) : M S unit := mret tt.

(** [wrv k v] is [wrv[k] = v], a store to low memory. *)
Definition lapicstartap (lapic : Z) (wrv : nat → Z → M S unit) (apicid addr : Z) : M S unit :=
  outb CMOS_PORT 0xF ;;
  outb (CMOS_PORT + 1) 0x0A ;;
  wrv 0%nat 0 ;;
  wrv 1%nat (u16 (Z.shiftr addr 4)) ;;
  lapicw lapic ICRHI (Z.shiftl apicid 24) ;;
  lapicw lapic ICRLO (Z.lor (Z.lor INIT LEVEL) ASSERT) ;;
  microdelay 200 ;;
  lapicw lapic ICRLO (Z.lor INIT LEVEL) ;;
  microdelay 100 ;;
  forM (seq 0 2) (λ _,
    lapicw lapic ICRHI (Z.shiftl apicid 24) ;;
    lapicw lapic ICRLO (Z.lor STARTUP (Z.shiftr addr 12)) ;;
    microdelay 200).

Definition cmos_read (reg : Z) : M S Z :=
  outb CMOS_PORT reg ;;
  microdelay 200 ;;
  inb CMOS_RETURN.

Definition fill_rtcdate : M S rtcdate :=
  s ← cmos_read SECS; m ← cmos_read MINS; h ← cmos_read HOURS;
  d ← cmos_read DAY; mo ← cmos_read MONTH; y ← cmos_read YEAR;
  mret (mkRtc s m h d mo y).

(** The loop that reads the date until it has been read twice alike. *)
Fixpoint cmos_stable (n : nat) : M S rtcdate :=
  let again := match n with O => nofuel | Datatypes.S n' => cmos_stable n' end in
  t1 ← fill_rtcdate;
  a ← cmos_read CMOS_STATA;
  if negb (Z.land a CMOS_UIP =? 0) then again else
  t2 ← fill_rtcdate;
  if decide (t1 = t2) then mret t1 else again.

Definition CONV (x : Z) : Z := Z.shiftr x 4 * 10 + Z.land x 0xf.
Definition cmostime : M S rtcdate :=
  sb ← cmos_read CMOS_STATB;
  let bcd := Z.land sb (Z.shiftl 1 2) =? 0 in
  t1 ← cmos_stable poll_bound;
  let t := if bcd then mkRtc (CONV (second t1)) (CONV (minute t1)) (CONV (hour t1)) (CONV (day t1)) (CONV (month t1)) (CONV (year t1)) else t1 in
  mret (mkRtc (second t) (minute t) (hour t) (day t) (month t) (year t + 2000)).
End Code.

(** ** Interrupt routing *)

(** The I/O APIC: a register is selected at [IOAPIC] and accessed 16 bytes on. *)
Class IoapicLaws (C : Type) `{Hw C} := {
  io_sel : C → Z;
  io_reg : C → Z → Z;
  io_select : ∀ c r, 0 ≤ r < 2 ^ 32 → let c' := hw_store IOAPIC r c in io_sel c' = r ∧ ∀ q, io_reg c' q = io_reg c q;
  io_write : ∀ c v, 0 ≤ v < 2 ^ 32 → let c' := hw_store (IOAPIC + 16) v c in ∀ q, io_reg c' q = if q =? io_sel c then v else io_reg c q;
  io_read : ∀ c, let r := hw_load (IOAPIC + 16) c in r.1 = io_reg c (io_sel c) ∧ ∀ q, io_reg r.2 q = io_reg c q }.

Section Routing.
Context {S C : Type} `{HHas : HasHw S C} `{!HasHwLaws S C} `{HHw : Hw C} `{!IoapicLaws C}.
Implicit Types (s : S) (c : C).

(** Interrupt [irq] is masked, or goes to the processor with APIC id [cpu]. *)
Definition int_masked c (irq : Z) : Prop := io_reg c (REG_TABLE + 2 * irq) = Z.lor INT_DISABLED (T_IRQ0 + irq) ∧ io_reg c (REG_TABLE + 2 * irq + 1) = 0.
Definition int_routed c (irq cpu : Z) : Prop := io_reg c (REG_TABLE + 2 * irq) = T_IRQ0 + irq ∧ io_reg c (REG_TABLE + 2 * irq + 1) = Z.shiftl cpu 24.

Lemma wp_ioapicread r s (Q : Z → S → Prop) : 0 ≤ r < 2 ^ 32 →
  (∀ c, (∀ q, io_reg c q = io_reg (hw s) q) → Q (u32 (io_reg (hw s) r)) (set_hw c s)) → wp (ioapicread r) Q s.
Proof.
  intros Hr HQ. unfold ioapicread, mmio_write, mmio_read, wp, mbind, M_bind. simpl. rewrite hw_set, set_hw_set, (u32_small r) by done.
  destruct (io_select (hw s) r Hr) as [E1 E2]. destruct (io_read (hw_store IOAPIC r (hw s))) as [E3 E4]. rewrite E3, E1, E2. apply HQ. intros q. by rewrite E4, E2.
Qed.
Lemma wp_ioapicwrite r v s (Q : unit → S → Prop) : 0 ≤ r < 2 ^ 32 → 0 ≤ v < 2 ^ 32 →
  (∀ c, (∀ q, io_reg c q = if q =? r then v else io_reg (hw s) q) → Q tt (set_hw c s)) → wp (ioapicwrite r v) Q s.
Proof.
  intros Hr Hv HQ. unfold ioapicwrite, mmio_write, wp, mbind, M_bind. simpl. rewrite hw_set, set_hw_set, (u32_small r), (u32_small v) by done.
  destruct (io_select (hw s) r Hr) as [E1 E2]. pose proof (io_write (hw_store IOAPIC r (hw s)) v Hv) as E3. apply HQ. intros q. rewrite E3, E1, E2. done.
Qed.

(** [ioapicenable] routes one interrupt and touches no other. *)
Lemma wp_ioapicenable irq cpu s (Q : unit → S → Prop) : 0 ≤ irq < 256 → 0 ≤ cpu < 256 →
  (∀ c, int_routed c irq cpu → (∀ j, j ≠ irq → (int_masked (hw s) j → int_masked c j) ∧ ∀ k, int_routed (hw s) j k → int_routed c j k) → Q tt (set_hw c s)) →
  wp (ioapicenable irq cpu) Q s.
Proof.
  intros Hi Hc HQ. unfold ioapicenable, REG_TABLE, T_IRQ0 in *. assert (0 ≤ Z.shiftl cpu 24 < 2 ^ 32) by (rewrite Z.shiftl_mul_pow2 by lia; lia).
  apply wp_bind, wp_ioapicwrite; [lia|lia|]. intros c1 E1. apply wp_ioapicwrite; [lia|lia|]. intros c2 E2. rewrite hw_set in E2. rewrite set_hw_set.
  assert (∀ q, io_reg c2 q = if q =? 16 + 2 * irq + 1 then Z.shiftl cpu 24 else if q =? 16 + 2 * irq then 32 + irq else io_reg (hw s) q) as E by (intros q; by rewrite E2, E1).
  apply HQ; unfold int_routed, int_masked, REG_TABLE, T_IRQ0.
  - rewrite !E, Z.eqb_refl. rewrite (proj2 (Z.eqb_neq (16 + 2 * irq) _)) by lia. rewrite Z.eqb_refl. done.
  - intros j Hj. rewrite !E. rewrite (proj2 (Z.eqb_neq (16 + 2 * j) (16 + 2 * irq + 1))), (proj2 (Z.eqb_neq (16 + 2 * j) (16 + 2 * irq))) by lia.
    rewrite (proj2 (Z.eqb_neq (16 + 2 * j + 1) (16 + 2 * irq + 1))), (proj2 (Z.eqb_neq (16 + 2 * j + 1) (16 + 2 * irq))) by lia. done.
Qed.

(** After [ioapicinit] every interrupt of the controller is masked. *)
Lemma wp_ioapicinit id (warn : M S unit) s (Q : unit → S → Prop) :
  let maxintr := Z.land (Z.shiftr (u32 (io_reg (hw s) REG_VER)) 16) 0xFF in
  (∀ s1 (Q1 : unit → S → Prop), (∀ c, (∀ q, io_reg c q = io_reg (hw s1) q) → Q1 tt (set_hw c s1)) → wp warn Q1 s1) →
  (∀ c, (∀ j, 0 ≤ j ≤ maxintr → int_masked c j) → Q tt (set_hw c s)) → wp (ioapicinit id warn) Q s.
Proof.
  intros maxintr Hwarn HQ. unfold ioapicinit. apply wp_bind, wp_ioapicread; [done|]. intros c1 E1. fold maxintr. apply wp_bind, wp_ioapicread; [done|]. intros c2 E2.
  rewrite set_hw_set. rewrite hw_set in E2.
  assert (0 ≤ maxintr < 256) as Hm.
  { unfold maxintr. change 0xFF with (Z.ones 8). rewrite Z.land_ones by lia. apply Z.mod_pos_bound. lia. } clearbody maxintr.
  apply wp_bind. eapply (wp_mono _ (λ _ s', ∃ c, s' = set_hw c s)).
  { destruct (negb _); simpl when; [|apply wp_ret; by exists c2]. apply Hwarn. intros c _. exists c. by rewrite set_hw_set. }
  intros [] s' [c ->]. eapply wp_mono.
  { apply (wp_forM_seq (λ n s', ∃ c, s' = set_hw c s ∧ ∀ j, 0 ≤ j < Z.of_nat n → int_masked c j)); [exists c; split; [done|]; intros; lia|].
    intros k s1 Hk (c3 & -> & Hc3). unfold REG_TABLE, T_IRQ0, INT_DISABLED.
    assert (0 ≤ Z.lor 65536 (32 + Z.of_nat k) < 2 ^ 32) as Hv.
    { split; [apply Z.lor_nonneg; lia|]. destruct (Z.log2_lt_pow2 (Z.lor 65536 (32 + Z.of_nat k)) 32) as [_ H1]; [|apply H1].
      - assert (0 ≤ Z.lor 65536 (32 + Z.of_nat k)) by (apply Z.lor_nonneg; lia). assert (Z.lor 65536 (32 + Z.of_nat k) ≠ 0); [|lia]. rewrite Z.lor_eq_0_iff. lia.
      - rewrite Z.log2_lor by lia. apply Z.max_lub_lt; [done|]. apply Z.log2_lt_pow2; lia. }
    apply wp_bind, wp_ioapicwrite; [lia|done|]. intros c4 E4. apply wp_ioapicwrite; [lia|done|]. intros c5 E5. rewrite hw_set in E4, E5. rewrite !set_hw_set. exists c5. split; [done|].
    intros j Hj. unfold int_masked, REG_TABLE, T_IRQ0, INT_DISABLED in *. rewrite !E5, !E4.
    rewrite (proj2 (Z.eqb_neq (16 + 2 * j) (16 + 2 * Z.of_nat k + 1))), (proj2 (Z.eqb_neq (16 + 2 * j + 1) (16 + 2 * Z.of_nat k))) by lia.
    destruct (decide (j = Z.of_nat k)) as [->|Hne]; [by rewrite !Z.eqb_refl|].
    rewrite (proj2 (Z.eqb_neq (16 + 2 * j) (16 + 2 * Z.of_nat k))), (proj2 (Z.eqb_neq (16 + 2 * j + 1) (16 + 2 * Z.of_nat k + 1))) by lia. apply Hc3. lia. }
  intros [] s' (c3 & -> & Hc3). apply HQ. intros j Hj. apply Hc3. lia.
Qed.
End Routing.

(** ** The date *)

(** The clock: a register is selected at port 0x70 and read at 0x71.  It stands
    still while it is read. *)
Class RtcLaws (C : Type) `{Hw C} := {
  rtc_sel : C → Z;
  rtc_reg : C → Z → Z;
  rtc_byte : ∀ c r, 0 ≤ rtc_reg c r < 256;
  rtc_select : ∀ c r, let c' := hw_out CMOS_PORT r c in rtc_sel c' = r ∧ ∀ q, rtc_reg c' q = rtc_reg c q;
  rtc_read : ∀ c, let r := hw_in CMOS_RETURN c in r.1 = rtc_reg c (rtc_sel c) ∧ ∀ q, rtc_reg r.2 q = rtc_reg c q }.

(** Two decimal digits in a byte. *)
Definition to_bcd (d : Z) : Z := 16 * (d / 10) + d mod 10.
Lemma CONV_bcd d : 0 ≤ d < 100 → CONV (to_bcd d) = d.
Proof.
  intros Hd. unfold CONV, to_bcd. rewrite Z.shiftr_div_pow2 by lia. change 0xf with (Z.ones 4). rewrite Z.land_ones by lia. change (2 ^ 4) with 16.
  Z.div_mod_to_equations. lia.
Qed.

Section Clock.
Context {S C : Type} `{HHas : HasHw S C} `{!HasHwLaws S C} `{HHw : Hw C} `{!RtcLaws C} `{HPoll : PollBound}.
Implicit Types (s : S) (c : C).

Definition rtc_date c : rtcdate := mkRtc (rtc_reg c SECS) (rtc_reg c MINS) (rtc_reg c HOURS) (rtc_reg c DAY) (rtc_reg c MONTH) (rtc_reg c YEAR).
Definition rtc_same s s' : Prop := ∃ c, s' = set_hw c s ∧ ∀ q, rtc_reg c q = rtc_reg (hw s) q.

Lemma rtc_same_trans s1 s2 s3 : rtc_same s1 s2 → rtc_same s2 s3 → rtc_same s1 s3.
Proof. intros (c & -> & E) (c' & -> & E'). exists c'. rewrite hw_set in E'. rewrite set_hw_set. split; [done|]. intros q. by rewrite E', E. Qed.
Lemma wp_cmos_read r s0 s (Q : Z → S → Prop) : 0 ≤ r < 256 → rtc_same s0 s → (∀ s', rtc_same s0 s' → Q (rtc_reg (hw s0) r) s') → wp (cmos_read r) Q s.
Proof.
  intros Hr H0 HQ. unfold cmos_read, microdelay, outb, inb, wp, mbind, M_bind. simpl. rewrite hw_set, set_hw_set, (u8_small r) by done.
  destruct (rtc_select (hw s) r) as [E1 E2]. destruct (rtc_read (hw_out CMOS_PORT r (hw s))) as [E3 E4]. rewrite E3, E1, E2, u8_small by apply rtc_byte.
  assert (rtc_reg (hw s) r = rtc_reg (hw s0) r) as -> by (destruct H0 as (c & -> & E); by rewrite hw_set).
  apply HQ. eapply rtc_same_trans; [exact H0|]. eexists. split; [done|]. intros q. by rewrite E4, E2.
Qed.
Lemma wp_fill_rtcdate s0 s (Q : rtcdate → S → Prop) : rtc_same s0 s → (∀ s', rtc_same s0 s' → Q (rtc_date (hw s0)) s') → wp fill_rtcdate Q s.
Proof.
  intros H0 HQ. unfold fill_rtcdate. do 6 (apply wp_bind; eapply (wp_cmos_read _ s0); [done|eassumption|]; intros ? ?). apply wp_ret. by apply HQ.
Qed.

(** [cmostime] reads the date of a clock in binary-coded decimal. *)
Lemma wp_cmostime s (t : rtcdate) (Q : rtcdate → S → Prop) :
  Z.land (rtc_reg (hw s) CMOS_STATA) CMOS_UIP = 0 → Z.land (rtc_reg (hw s) CMOS_STATB) 4 = 0 →
  Forall (λ x, 0 ≤ x < 100) [second t; minute t; hour t; day t; month t; year t] →
  rtc_date (hw s) = mkRtc (to_bcd (second t)) (to_bcd (minute t)) (to_bcd (hour t)) (to_bcd (day t)) (to_bcd (month t)) (to_bcd (year t)) →
  (∀ s', rtc_same s s' → Q (mkRtc (second t) (minute t) (hour t) (day t) (month t) (year t + 2000)) s') → wp cmostime Q s.
Proof.
  intros Ha Hb Ht Hd HQ. assert (rtc_same s s) as H0 by (exists (hw s); by rewrite set_hw_id).
  unfold cmostime. apply wp_bind. eapply (wp_cmos_read _ s); [done|done|]. intros s1 H1. change (Z.shiftl 1 2) with 4. rewrite Hb, Z.eqb_refl.
  apply wp_bind. assert (∀ n, wp (cmos_stable n) (λ d s', d = rtc_date (hw s) ∧ rtc_same s s') s1) as Hst.
  { intros n. destruct n; cbn [cmos_stable]; (apply wp_bind; eapply (wp_fill_rtcdate s); [done|]; intros s2 H2; apply wp_bind; eapply (wp_cmos_read _ s); [done|done|]; intros s3 H3;
      rewrite Ha, Z.eqb_refl; simpl negb; cbv iota; apply wp_bind; eapply (wp_fill_rtcdate s); [done|]; intros s4 H4; rewrite decide_True by done; apply wp_ret; by split). }
  eapply wp_mono; [apply Hst|]. intros d s2 [-> H2]. rewrite Hd. apply wp_ret. cbn [second minute hour day month year].
  repeat match goal with H : Forall _ (_ :: _) |- _ => apply Forall_cons in H as [? ?] end. rewrite !CONV_bcd by done. by apply HQ.
Qed.
End Clock.
