(* ===== verification/Ide.v ===== *)
(** * Ide: the disk driver (ide.c)

    The driver's own variables stand beside the kernel's; the list of requests
    runs through the [qnext] fields of the buffers.  The controller is the
    hardware of Hw.  The rest of the kernel is modelled over memide.c, the
    memory disk that is linked in its place: the theorems say that the driver
    does to buffers and disk, request by request in the order they were made,
    what memide.c does at once. *)

From S2P Require Import Prelude State Lock Bio Hw Syscall Apic.

(** ** The code *)

Definition IDE_BSY : Z := 0x80.
Definition IDE_DRDY : Z := 0x40.
Definition IDE_DF : Z := 0x20.
Definition IDE_ERR : Z := 0x01.
Definition IDE_CMD_READ : Z := 0x20.
Definition IDE_CMD_WRITE : Z := 0x30.
Definition IDE_CMD_RDMUL : Z := 0xc4.
Definition IDE_CMD_WRMUL : Z := 0xc5.
Definition SECTOR_SIZE : Z := 512.

Record ide (C : Type) := mkIde { ide_k : kernel; idequeue : option nat; havedisk1 : bool; ide_hw : C }.
Arguments mkIde {C}. Arguments ide_k {C}. Arguments idequeue {C}. Arguments havedisk1 {C}. Arguments ide_hw {C}.

#[export] Instance ide_has_hw C : HasHw (ide C) C := {
  hw := ide_hw; set_hw c e := mkIde (ide_k e) (idequeue e) (havedisk1 e) c }.
#[export] Instance ide_has_hw_laws C : HasHwLaws (ide C) C.
Proof. split; try done. by intros []. Qed.

Definition set_k {C} (s : kernel) (e : ide C) : ide C := mkIde s (idequeue e) (havedisk1 e) (ide_hw e).
(** The kernel's functions, called from the driver. *)
#[export] Instance ide_has_k C : Within (ide C) kernel := { part := ide_k; set_part := set_k }.

Section Code.
Context {C : Type} `{Hw C} `{PollBound}.

Definition idewait (checkerr : bool) : M (ide C) Z :=
  r ← poll poll_bound 0x1f7 (Z.lor IDE_BSY IDE_DRDY) IDE_DRDY;
  if checkerr && negb (Z.land r (Z.lor IDE_DF IDE_ERR) =? 0) then mret (-1) else mret 0.

Fixpoint find_disk1 (n : nat) : M (ide C) unit :=
  match n with
  | O => mret tt
  | S n' =>
      r ← inb 0x1f7;
      if negb (r =? 0) then modify (λ e, mkIde (ide_k e) (idequeue e) true (ide_hw e)) else find_disk1 n'
  end.
Definition ide_init (ncpu : Z) : M (ide C) unit :=
  ioapicenable IRQ_IDE (ncpu - 1) ;;
  idewait false ;;
  outb 0x1f6 (Z.lor 0xe0 (Z.shiftl 1 4)) ;;
  find_disk1 1000 ;;
  outb 0x1f6 (Z.lor 0xe0 (Z.shiftl 0 4)).

Definition idestart (bo : option nat) : M (ide C) unit :=
  match bo with
  | None => panic "idestart"
  | Some bi =>
      b ← lift (get_buf bi);
      if FSSIZE <=? b_blockno b then panic "incorrect blockno" else
      let sector_per_block := BSIZE / SECTOR_SIZE in
      let sector := s32 (b_blockno b * sector_per_block) in
      let read_cmd := if sector_per_block =? 1 then IDE_CMD_READ else IDE_CMD_RDMUL in
      let write_cmd := if sector_per_block =? 1 then IDE_CMD_WRITE else IDE_CMD_WRMUL in
      if 7 <? sector_per_block then panic "idestart" else
      idewait false ;;
      outb 0x3f6 0 ;;
      outb 0x1f2 sector_per_block ;;
      outb 0x1f3 (Z.land sector 0xff) ;;
      outb 0x1f4 (Z.land (Z.shiftr sector 8) 0xff) ;;
      outb 0x1f5 (Z.land (Z.shiftr sector 16) 0xff) ;;
      outb 0x1f6 (Z.lor (Z.lor 0xe0 (Z.shiftl (Z.land (b_dev b) 1) 4)) (Z.land (Z.shiftr sector 24) 0x0f)) ;;
      if negb (Z.land (b_flags b) B_DIRTY =? 0) then
        outb 0x1f7 write_cmd ;;
        outsl 0x1f0 (b_data b)
      else outb 0x1f7 read_cmd
  end.

Definition set_queue (q : option nat) : M (ide C) unit := modify (λ e, mkIde (ide_k e) q (havedisk1 e) (ide_hw e)).

Definition ideintr : M (ide C) unit :=
  lift (acquire Lide) ;;
  q ← gets idequeue;
  match q with
  | None => lift (release Lide)
  | Some bi =>
      b ← lift (get_buf bi);
      set_queue (b_qnext b) ;;
      (if Z.land (b_flags b) B_DIRTY =? 0 then
         r ← idewait true;
         when (0 <=? r) (d ← insl 0x1f0 (Z.to_nat (BSIZE / 4)); lift (upd_buf bi (set_b_data d)))
       else mret tt) ;;
      lift (upd_buf bi (λ b, set_b_flags (Z.lor (b_flags b) B_VALID) b)) ;;
      lift (upd_buf bi (λ b, set_b_flags (Z.land (b_flags b) (Z.lnot B_DIRTY)) b)) ;;
      lift (wakeup (ChBuf bi)) ;;
      q ← gets idequeue;
      when (bool_decide (is_Some q)) (idestart q) ;;
      lift (release Lide)
  end.

(** The walk to the end of the queue: [pp] is [&idequeue] or a [&b->qnext]. *)
Definition load_pp (pp : option nat) : M (ide C) (option nat) :=
  match pp with None => gets idequeue | Some bi => b ← lift (get_buf bi); mret (b_qnext b) end.
Definition store_pp (pp : option nat) (v : option nat) : M (ide C) unit :=
  match pp with None => set_queue v | Some bi => lift (upd_buf bi (set_b_qnext v)) end.
Fixpoint queue_end (n : nat) (pp : option nat) : M (ide C) (option nat) :=
  v ← load_pp pp;
  match v with
  | None => mret pp
  | Some bi => match n with O => nofuel | S n' => queue_end n' (Some bi) end
  end.

Context `{WaitBound}.

(** Append the buffer to the queue, and start the disk if necessary.  There are
    [NBUF] buffers, so the queue is no longer. *)
Definition enqueue (bi : nat) : M (ide C) unit :=
  lift (upd_buf bi (set_b_qnext None)) ;;
  pp ← queue_end NBUF None;
  store_pp pp (Some bi) ;;
  q ← gets idequeue;
  when (bool_decide (q = Some bi)) (idestart (Some bi)).

(** Wait for the request to finish. *)
Fixpoint ide_wait (n : nat) (bi : nat) : M (ide C) unit :=
  b ← lift (get_buf bi);
  if Z.land (b_flags b) (Z.lor B_VALID B_DIRTY) =? B_VALID then mret tt else
  match n with
  | O => nofuel
  | S n' => lift (sleep (ChBuf bi) Lide) ;; ide_wait n' bi
  end.

Definition ide_rw (bi : nat) : M (ide C) unit :=
  h ← lift (holdingsleep (SBuf bi));
  if negb h then panic "iderw: buf not locked" else
  b ← lift (get_buf bi);
  if Z.land (b_flags b) (Z.lor B_VALID B_DIRTY) =? B_VALID then panic "iderw: nothing to do" else
  have1 ← gets havedisk1;
  if negb (b_dev b =? 0) && negb have1 then panic "iderw: ide disk 1 not present" else
  lift (acquire Lide) ;;
  enqueue bi ;;
  ide_wait wait_bound bi ;;
  lift (release Lide).
End Code.

(** ** The queue and the disk *)

Definition disk2 := Z → Z → list Z.
Definition is_dirty (b : buf) : bool := negb (Z.land (b_flags b) B_DIRTY =? 0).
Definition is_done (b : buf) : bool := Z.land (b_flags b) (Z.lor B_VALID B_DIRTY) =? B_VALID.
Definition drive (b : buf) : Z := Z.land (b_dev b) 1.

(** What a request does to its buffer and to the disk. *)
Definition served_buf (D : disk2) (b : buf) : buf :=
  set_b_flags (Z.land (Z.lor (b_flags b) B_VALID) (Z.lnot B_DIRTY)) (if is_dirty b then b else set_b_data (D (drive b) (b_blockno b)) b).
Definition served_disk (D : disk2) (b : buf) : disk2 :=
  if is_dirty b then upd_sector (drive b) (b_blockno b) (b_data b) D else D.

(** The list through the [qnext] fields. *)
Fixpoint qchain (bc : list buf) (p : option nat) (q : list nat) : Prop :=
  match q with
  | [] => p = None
  | bi :: q' => p = Some bi ∧ ∃ b, bc !! bi = Some b ∧ qchain bc (b_qnext b) q'
  end.
Record request (bc : list buf) (bi : nat) (b : buf) : Prop := {
  rq_buf : bc !! bi = Some b;
  rq_lt : (bi < NBUF)%nat;
  rq_todo : is_done b = false;
  rq_block : 0 ≤ b_blockno b < FSSIZE;
  rq_data : length (b_data b) = 512%nat }.

Section Inv.
Context {C : Type} `{Ata C}.

(** The controller has been told to carry out the request of [b], the disk being
    [D] before. *)
Definition started (c : C) (D : disk2) (b : buf) : Prop :=
  ata_state_of c = (if is_dirty b then AtaWritten else AtaRead (drive b) (b_blockno b)) ∧
  ∀ v x, ata_sector c v x = served_disk D b v x.

(** [q] are the requests in the queue, [D] the disk before the first of them. *)
Record ide_inv (e : ide C) (q : list nat) (D : disk2) : Prop := {
  iv_chain : qchain (k_bcache (ide_k e)) (idequeue e) q;
  iv_nodup : NoDup q;
  iv_req : ∀ bi, bi ∈ q → ∃ b, request (k_bcache (ide_k e)) bi b;
  iv_hw : match q with
          | [] => ∀ v x, ata_sector (ide_hw e) v x = D v x
          | bi :: _ => ∀ b, k_bcache (ide_k e) !! bi = Some b → started (ide_hw e) D b
          end }.
End Inv.

Section Lift.
Context {C : Type}.
Implicit Types (e : ide C).

Lemma wp_lift {A} (m : K A) (Q : A → ide C → Prop) e :
  wp m (λ a s, Q a (set_k s e)) (ide_k e) → wp (lift m) Q e.
Proof. exact (wp_within m Q e). Qed.
Lemma wp_lget_buf bi b (Q : buf → ide C → Prop) e :
  k_bcache (ide_k e) !! bi = Some b → Q b e → wp (lift (get_buf bi)) Q e.
Proof. intros Hb HQ. apply wp_lift. unfold get_buf. apply wp_bind, wp_gets. rewrite Hb. simpl. unfold wp. simpl. by destruct e. Qed.
Lemma wp_lupd_buf bi f (Q : unit → ide C → Prop) e :
  Q tt (set_k (set_k_bcache (alter f bi (k_bcache (ide_k e))) (ide_k e)) e) → wp (lift (upd_buf bi f)) Q e.
Proof. intros HQ. apply wp_lift, wp_modify, HQ. Qed.
End Lift.

Lemma u8_land x : u8 (Z.land x 0xff) = u8 x.
Proof. change 0xff with (Z.ones 8). rewrite Z.land_ones by lia. unfold u8. rewrite Z.mod_mod by lia. done. Qed.
Lemma drive_cases b : drive b = 0 ∨ drive b = 1.
Proof.
  unfold drive. change (Z.land (b_dev b) 1) with (Z.land (b_dev b) (Z.ones 1)). rewrite Z.land_ones by lia. change (2 ^ 1) with 2.
  pose proof (Z.mod_pos_bound (b_dev b) 2 ltac:(lia)). lia.
Qed.

Section Start.
Context {C : Type} `{HHw : Hw C} `{HAta : Ata C} `{HPoll : PollBound} `{!AtaLaws (C := C)}.
Implicit Types (e : ide C) (D : disk2).

Lemma outb_u8 p v v' : u8 v = u8 v' → outb (S := ide C) p v = outb p v'.
Proof. intros E. unfold outb. by rewrite E. Qed.

Lemma wp_idewait err e (Q : Z → ide C → Prop) :
  (∀ c, ata_same (ide_hw e) c → (∀ p, ata_reg c p = ata_reg (ide_hw e) p) → ata_wait c = O → Q 0 (set_hw c e)) → wp (idewait err) Q e.
Proof.
  intros HQ. unfold idewait. apply wp_bind. change (Z.lor IDE_BSY IDE_DRDY) with 0xc0. change IDE_DRDY with 0x40.
  apply wp_poll; [apply ata_bound|]. intros r c Hs Hr Hw Hf. change (Z.lor IDE_DF IDE_ERR) with 0x21. rewrite Hf. rewrite andb_false_r. apply wp_ret. by apply HQ.
Qed.

(** [idestart] makes the controller carry out the request. *)
Lemma wp_idestart bi b e D (Q : unit → ide C → Prop) :
  request (k_bcache (ide_k e)) bi b → (∀ v x, ata_sector (ide_hw e) v x = D v x) →
  (∀ c, started c D b → Q tt (set_hw c e)) → wp (idestart (Some bi)) Q e.
Proof.
  intros [Hb _ _ Hn Hd] HD HQ. unfold idestart. apply wp_bind. eapply wp_lget_buf; [exact Hb|]. cbv zeta.
  change (BSIZE / SECTOR_SIZE) with 1. rewrite Z.mul_1_r. unfold FSSIZE in *. rewrite (proj2 (Z.leb_gt _ _)) by lia.
  rewrite s32_small by lia. change (7 <? 1) with false. change (1 =? 1) with true. cbv iota.
  apply wp_bind, wp_idewait. intros c1 [Hs1 Hd1] _ Hw1. apply wp_bind, wp_outb. simpl hw.
  destruct (ata_out c1 0x3f6 (u8 0) ltac:(lia) Hw1 (u8_range 0)) as ([Hs2 Hd2] & Hw2 & _). set (c2 := hw_out 0x3f6 (u8 0) c1) in *.
  rewrite (outb_u8 0x1f3 _ _ (u8_land _)), (outb_u8 0x1f4 _ _ (u8_land _)), (outb_u8 0x1f5 _ _ (u8_land _)).
  assert (Z.land (Z.shiftr (b_blockno b) 24) 0x0f = 0) as -> by (rewrite Z.shiftr_div_pow2, Z.div_small by lia; done). rewrite Z.lor_0_r.
  apply (wp_select (b_blockno b) (drive b)); [lia| | |done|].
  - unfold drive. destruct (drive_cases b) as [E|E]; unfold drive in E; rewrite E; done.
  - rewrite (Z.div_small (b_blockno b)) by lia. destruct (drive_cases b) as [E|E]; unfold drive in E; rewrite E; done.
  - intros c3 [Hs3 Hd3] Hw3 Hr3 Hl3 Hv3. simpl in Hs3, Hd3. assert (∀ v x, ata_sector c3 v x = D v x) as Hsec by (intros; by rewrite Hd3, Hd2, Hd1, HD).
    fold (is_dirty b). destruct (is_dirty b) eqn:Edirty.
    + apply wp_bind, wp_outb, wp_outsl. simpl hw. change (u8 IDE_CMD_WRITE) with 0x30. destruct (ata_write c3 Hw3 Hr3) as [Hs4 Hd4].
      destruct (ata_outsl _ _ _ _ Hs4 Hd) as [Hs5 Hd5]. apply (HQ (hw_outsl 0x1f0 (b_data b) (hw_out 0x1f7 0x30 c3))). unfold started, served_disk. rewrite Edirty.
      split; [done|]. intros v x. rewrite Hd5, Hv3, Hl3. unfold upd_sector. case_match; [done|]. by rewrite Hd4.
    + apply wp_outb. simpl hw. change (u8 IDE_CMD_READ) with 0x20. destruct (ata_read c3 Hw3 Hr3) as [Hs4 Hd4].
      apply (HQ (hw_out 0x1f7 0x20 c3)). unfold started, served_disk. rewrite Edirty. split; [by rewrite Hs4, Hv3, Hl3|]. intros v x. by rewrite Hd4.
Qed.
End Start.

(** ** The interrupt *)

Lemma qchain_ext bc bc' p q :
  (∀ bi b, bi ∈ q → bc !! bi = Some b → ∃ b', bc' !! bi = Some b' ∧ b_qnext b' = b_qnext b) → qchain bc p q → qchain bc' p q.
Proof.
  revert p. induction q as [|bi q IH]; intros p Hext; [done|]. intros (-> & b & Hb & Hq). split; [done|].
  destruct (Hext bi b ltac:(set_solver) Hb) as (b' & Hb' & E). exists b'. split; [done|]. rewrite E. apply IH; [|done]. intros; apply Hext; set_solver.
Qed.

Section Intr.
Context {C : Type} `{HHw : Hw C} `{HAta : Ata C} `{HPoll : PollBound} `{!AtaLaws (C := C)}.
Implicit Types (e : ide C) (D : disk2).

Lemma served_alter D b (bc : list buf) (bi : nat) : bc !! bi = Some b →
  alter (λ b, set_b_flags (Z.land (b_flags b) (Z.lnot B_DIRTY)) b) bi (alter (λ b, set_b_flags (Z.lor (b_flags b) B_VALID) b) bi
    (if is_dirty b then bc else alter (set_b_data (D (drive b) (b_blockno b))) bi bc)) = <[bi := served_buf D b]> bc.
Proof.
  intros Hb. unfold served_buf. destruct (is_dirty b).
  - rewrite (list_alter_insert _ _ _ b Hb). rewrite (list_alter_insert _ _ _ (set_b_flags (Z.lor (b_flags b) B_VALID) b)) by (apply list_lookup_insert_eq; by eapply lookup_lt_Some).
    rewrite list_insert_insert_eq. by destruct b.
  - rewrite (list_alter_insert _ _ _ b Hb). pose proof (lookup_lt_Some _ _ _ Hb).
    rewrite (list_alter_insert _ bi (<[bi := _]> bc) _) by (by apply list_lookup_insert_eq). rewrite list_insert_insert_eq.
    rewrite (list_alter_insert _ bi (<[bi := _]> bc) _) by (by apply list_lookup_insert_eq). rewrite list_insert_insert_eq. by destruct b.
Qed.

(** The rest of the queue, once its first request is served and the next started. *)
Lemma inv_served e bi q D b c :
  ide_inv e (bi :: q) D → k_bcache (ide_k e) !! bi = Some b →
  match q with [] => ∀ v x, ata_sector c v x = served_disk D b v x
             | bj :: _ => ∀ b', k_bcache (ide_k e) !! bj = Some b' → started c (served_disk D b) b' end →
  ∀ k', k_bcache k' = <[bi := served_buf D b]> (k_bcache (ide_k e)) →
  ide_inv (mkIde k' (b_qnext b) (havedisk1 e) c) q (served_disk D b).
Proof.
  intros [(_ & b0 & Hb0 & Hch) Hnd Hreq _] Hb Hc k' Ek. rewrite Hb in Hb0. injection Hb0 as <-. apply NoDup_cons in Hnd as [Hni Hnd].
  assert (∀ bj, bj ∈ q → k_bcache k' !! bj = k_bcache (ide_k e) !! bj) as Hsame by (intros bj Hj; rewrite Ek; apply list_lookup_insert_ne; set_solver).
  split; simpl.
  - eapply qchain_ext; [|exact Hch]. intros bj b' Hj Hb'. exists b'. by rewrite Hsame.
  - done.
  - intros bj Hj. destruct (Hreq bj ltac:(set_solver)) as [b' [H1 H2 H3 H4 H5]]. exists b'. split; try done. by rewrite Hsame.
  - destruct q as [|bj q]; [done|]. intros b'. rewrite Hsame by set_solver. apply Hc.
Qed.

Lemma wp_ideintr e bi q D b (Q : unit → ide C → Prop) :
  ide_inv e (bi :: q) D → k_held (ide_k e) = [] → k_bcache (ide_k e) !! bi = Some b →
  (∀ e', ide_inv e' q (served_disk D b) → havedisk1 e' = havedisk1 e →
     ide_k e' = do_wakeup (ChBuf bi) (put_buf bi (served_buf D b) (ide_k e)) → Q tt e') →
  wp ideintr Q e.
Proof.
  intros Inv Hh Hb HQ. pose proof Inv as [(Eq & _) _ Hreq Hhw]. destruct (Hhw b Hb) as [Hst Hsec]. set (k := ide_k e) in *.
  unfold ideintr. apply wp_bind, wp_lift, wp_acquire; [fold k; rewrite Hh; apply not_elem_of_nil|]. fold k. rewrite Hh. set (k1 := set_k_held [Lide] k).
  apply wp_bind, wp_gets. simpl idequeue. rewrite Eq. apply wp_bind. eapply wp_lget_buf; [exact Hb|]. apply wp_bind, wp_modify.
  apply wp_bind. set (b1 := if is_dirty b then k_bcache k else alter (set_b_data (D (drive b) (b_blockno b))) bi (k_bcache k)).
  eapply (wp_mono _ (λ _ e1, ∃ c, e1 = mkIde (set_k_bcache b1 k1) (b_qnext b) (havedisk1 e) c ∧ ∀ v x, ata_sector c v x = served_disk D b v x)).
  { unfold b1, is_dirty in *. destruct (Z.eqb_spec (Z.land (b_flags b) B_DIRTY) 0) as [E|E]; simpl negb; cbv iota.
    - apply wp_bind, wp_idewait. intros c [Hs1 Hd1] _ Hw1. simpl when. apply wp_bind, wp_insl. simpl hw in *. change (Z.to_nat (BSIZE / 4)) with 128%nat.
      simpl negb in Hst. cbv iota in Hst. cbn [ide_hw set_k] in Hs1, Hd1. rewrite Hst in Hs1. destruct (ata_insl c _ _ Hs1 Hw1) as (E1 & _ & E2). apply wp_lupd_buf. exists (hw_insl 0x1f0 128 c).2.
      rewrite E1, Hd1, Hsec. unfold served_disk, is_dirty. rewrite (proj2 (Z.eqb_eq _ _) E). split; [done|].
      intros v x. rewrite E2, Hd1, Hsec. unfold served_disk, is_dirty. rewrite (proj2 (Z.eqb_eq _ _) E). done.
    - apply wp_ret. exists (ide_hw e). split; [by destruct k|done]. }
  intros [] e1 (c & -> & Hc). apply wp_bind, wp_lupd_buf, wp_bind, wp_lupd_buf. simpl ide_k. simpl k_bcache.
  unfold b1. rewrite (served_alter D b _ bi Hb). apply wp_bind, wp_lift, wp_wakeup; [simpl; set_solver|].
  apply wp_bind, wp_gets. simpl idequeue. set (k2 := do_wakeup _ _). apply wp_bind.
  assert (k_bcache k2 = <[bi := served_buf D b]> (k_bcache k)) as E2 by done.
  eapply (wp_mono _ (λ _ e2, ∃ c', e2 = mkIde k2 (b_qnext b) (havedisk1 e) c' ∧ match q with [] => ∀ v x, ata_sector c' v x = served_disk D b v x
    | bj :: _ => ∀ b', k_bcache k !! bj = Some b' → started c' (served_disk D b) b' end)).
  { destruct Inv as [(_ & b0 & Hb0 & Hch) Hnd _ _]. fold k in Hb0. rewrite Hb in Hb0. injection Hb0 as <-. apply NoDup_cons in Hnd as [Hni _].
    destruct q as [|bj q]; simpl in Hch.
    - rewrite Hch. rewrite bool_decide_false by (intros [? ?]; done). apply wp_ret. by exists c.
    - destruct Hch as (-> & _). rewrite bool_decide_true by (by eexists). destruct (Hreq bj ltac:(set_solver)) as [b' [H1 H2 H3 H4 H5]].
      simpl when. eapply (wp_idestart bj b' _ (served_disk D b)); [|exact Hc|].
      + split; try done. simpl ide_k. rewrite E2, list_lookup_insert_ne by set_solver. exact H1.
      + intros c' Hst'. exists c'. split; [done|]. intros b''. fold k in H1. rewrite H1. by intros [= <-]. }
  intros [] e2 (c' & -> & Hq). apply wp_lift. eapply wp_release; [done|apply not_elem_of_nil|]. apply HQ; [|done|].
  - apply (inv_served e bi q D b c' Inv Hb Hq). done.
  - simpl. unfold k2, k1, do_wakeup, put_buf. rewrite <- Hh. by destruct k.
Qed.
End Intr.

(** ** Requests *)

(** [sleep] as an outcome: away in one step, and back with the lock. *)
Lemma sleep_swtch c l i p s :
  running s i p → l ≠ Lptable → k_held s = [l] →
  ∃ s1 r, sleep c l s = Swtch s1 r ∧ asleep c s i p s1 ∧ ∀ s', k_held s' = [Lptable] → r s' = Ok tt (awake i l s').
Proof.
  intros [Hp Ht] Hl Hh. set (p1 := set_p_state SLEEPING (set_p_chan (Some c) p)).
  set (s0 := set_k_held [Lptable] (set_k_ptable (<[i := p1]> (k_ptable s)) s)). pose proof (lookup_lt_Some _ _ _ Ht) as Hlt.
  assert (running s0 i p1) as Hr0 by (split; [done|by apply list_lookup_insert_eq]).
  pose proof (sched_swtch i p1 s0 Hr0 eq_refl ltac:(done)) as Es. unfold sleep.
  rewrite (bind_ok _ _ s (Some i) s) by (unfold myproc, gets; simpl; by rewrite Hp). rewrite bool_decide_false by done. cbn [negb when].
  rewrite (bind_ok _ _ s tt (set_k_held [Lptable] s)).
  2:{ unfold acquire, release, gets, modify, mbind, M_bind. simpl. rewrite Hh. rewrite bool_decide_false by set_solver. simpl.
      rewrite bool_decide_true by set_solver. simpl. rewrite filter_cons_True by done. rewrite filter_cons_False by naive_solver. done. }
  rewrite (bind_ok _ _ _ tt s0) by (unfold upd_proc, modify; simpl; by rewrite (list_alter_insert _ _ _ _ Ht)).
  unfold mbind at 1, M_bind at 1. rewrite Es. simpl obind. eexists _, _. split; [reflexivity|]. split.
  - unfold asleep. simpl. rewrite list_insert_insert_eq. done.
  - intros s' Hh'. unfold upd_proc, acquire, release, gets, modify, mbind, M_bind. simpl. rewrite Hh'. rewrite bool_decide_true by set_solver. simpl.
    unfold awake. rewrite filter_cons_False by naive_solver. done.
Qed.

(** The queue with one more buffer. *)
Lemma qchain_snoc bc p q bl bi b :
  qchain bc p q → NoDup q → bi ∉ q → last q = Some bl → bc !! bi = Some b → b_qnext b = None →
  qchain (alter (set_b_qnext (Some bi)) bl bc) p (q ++ [bi]).
Proof.
  revert p. induction q as [|a q IH]; intros p Hch Hnd Hni Hl Hb Hn; [done|]. destruct Hch as (-> & b' & Hb' & Hch).
  apply NoDup_cons in Hnd as [Ha Hnd]. split; [done|]. destruct q as [|a' q].
  - injection Hl as ->. exists (set_b_qnext (Some bi) b'). rewrite list_lookup_alter_eq, Hb'. split; [done|]. simpl in Hch |- *. split; [done|].
    exists b. rewrite list_lookup_alter_ne by set_solver. done.
  - rewrite last_cons_cons in Hl. exists b'. split; [|apply IH; try done; set_solver]. rewrite list_lookup_alter_ne; [done|].
    intros ->. apply Ha. apply last_Some in Hl as [l ->]. set_solver.
Qed.

(** Buffers that differ in their [qnext] only. *)
Definition requeued (bc bc' : list buf) : Prop :=
  ∀ j, set_b_qnext None <$> bc' !! j = set_b_qnext None <$> bc !! j.
Lemma requeued_lookup bc bc' j b' : requeued bc bc' → bc' !! j = Some b' → ∃ b, bc !! j = Some b ∧ set_b_qnext None b' = set_b_qnext None b.
Proof. intros Hr Hj. specialize (Hr j). rewrite Hj in Hr. simpl in Hr. destruct (bc !! j) as [b|]; [|done]. injection Hr as E. exists b. split; [done|]. by destruct b', b; simplify_eq/=. Qed.
Lemma requeued_sym bc bc' : requeued bc bc' → requeued bc' bc.
Proof. intros Hr j. by rewrite Hr. Qed.
Lemma requeued_alter bc bc' j x : requeued bc bc' → requeued bc (alter (set_b_qnext x) j bc').
Proof.
  intros Hr k. rewrite <- Hr. destruct (decide (j = k)) as [->|Hne]; [|by rewrite list_lookup_alter_ne].
  rewrite list_lookup_alter_eq. by destruct (bc' !! k).
Qed.
Lemma requeued_request bc bc' bi b : requeued bc bc' → request bc bi b → ∃ b', request bc' bi b' ∧ set_b_qnext None b' = set_b_qnext None b.
Proof.
  intros Hr [H1 H2 H3 H4 H5]. destruct (requeued_lookup bc' bc bi b (requeued_sym _ _ Hr) H1) as (b' & Hb' & E). exists b'. split; [|done].
  destruct b, b'; simplify_eq/=. by split.
Qed.

Section Requests.
Context {C : Type} `{HHw : Hw C} `{HAta : Ata C} `{HPoll : PollBound} `{!AtaLaws (C := C)} `{HWait : WaitBound}.
Implicit Types (e : ide C) (D : disk2).

Lemma started_requeued (c : C) D b b' : set_b_qnext None b' = set_b_qnext None b → started c D b → started c D b'.
Proof. intros E. destruct b, b'; simplify_eq/=. done. Qed.

Lemma wp_queue_end_from n q e bi b (Q : option nat → ide C → Prop) :
  k_bcache (ide_k e) !! bi = Some b → qchain (k_bcache (ide_k e)) (b_qnext b) q → (length q ≤ n)%nat →
  Q (last (bi :: q)) e → wp (queue_end n (Some bi)) Q e.
Proof.
  revert bi b q. induction n as [|n IH]; intros bi b q Hb Hq Hn HQ; cbn [queue_end load_pp]; apply wp_bind, wp_bind; (eapply wp_lget_buf; [exact Hb|]); apply wp_ret;
    (destruct q as [|a q]; cbn [qchain] in Hq; [rewrite Hq; by apply wp_ret|]; cbn [length] in Hn); [lia|].
  destruct Hq as (-> & b' & Hb' & Hq). eapply IH; [exact Hb'|exact Hq|lia|]. by rewrite last_cons_cons in HQ.
Qed.
Lemma wp_queue_end n q e (Q : option nat → ide C → Prop) :
  qchain (k_bcache (ide_k e)) (idequeue e) q → (length q ≤ n)%nat → Q (last q) e → wp (queue_end n None) Q e.
Proof.
  intros Hq Hn HQ. destruct n as [|n]; cbn [queue_end load_pp]; apply wp_bind, wp_gets; (destruct q as [|a q]; cbn [qchain] in Hq; [rewrite Hq; by apply wp_ret|]; cbn [length] in Hn); [lia|].
  destruct Hq as (-> & b & Hb & Hq). by eapply wp_queue_end_from; [exact Hb|exact Hq|lia|].
Qed.

Lemma queue_short (q : list nat) n : NoDup q → (∀ x, x ∈ q → (x < n)%nat) → (length q ≤ n)%nat.
Proof.
  intros Hnd Hlt. rewrite <- (length_seq n 0). apply submseteq_length, NoDup_submseteq; [done|]. intros x Hx. apply elem_of_seq. specialize (Hlt x Hx). lia.
Qed.

(** The queue, the requests and the controller, after the buffers were relinked. *)
Lemma inv_requeued e bc' qh c q q' D :
  ide_inv e q D → requeued (k_bcache (ide_k e)) bc' → qchain bc' qh q' → NoDup q' → head q' = head q ∨ q = [] →
  (∀ bi, bi ∈ q' → bi ∈ q ∨ ∃ b, request (k_bcache (ide_k e)) bi b) →
  match q with [] => match q' with [] => False | bi :: _ => ∀ b, bc' !! bi = Some b → started c D b end | _ => c = ide_hw e end →
  ide_inv (mkIde (set_k_bcache bc' (ide_k e)) qh (havedisk1 e) c) q' D.
Proof.
  intros [Hch Hnd Hreq Hhw] Hre Hch' Hnd' Hhd Hin Hc. split; simpl; [done|done| |].
  - intros bi Hbi. destruct (Hin bi Hbi) as [Hq|[b Hb]]; [destruct (Hreq bi Hq) as [b Hb]|]; destruct (requeued_request _ _ _ _ Hre Hb) as (b' & Hb' & _); by exists b'.
  - destruct q as [|a q]; [by destruct q'|]. destruct Hhd as [Hhd|]; [|done]. destruct q' as [|a' q']; [done|]. injection Hhd as ->.
    intros b' Hb'. destruct (requeued_lookup _ _ _ _ Hre Hb') as (b & Hb & E). rewrite Hc. eapply started_requeued; [exact E|]. by apply Hhw.
Qed.

Lemma wp_enqueue e bi q D b (Q : unit → ide C → Prop) :
  ide_inv e q D → request (k_bcache (ide_k e)) bi b → bi ∉ q →
  (∀ bc' qh c, requeued (k_bcache (ide_k e)) bc' → ide_inv (mkIde (set_k_bcache bc' (ide_k e)) qh (havedisk1 e) c) (q ++ [bi]) D →
     Q tt (mkIde (set_k_bcache bc' (ide_k e)) qh (havedisk1 e) c)) → wp (enqueue bi) Q e.
Proof.
  intros Inv Hrq Hni HQ. pose proof Inv as [Hch Hnd Hreq Hhw]. pose proof Hrq as [Hb Hlt Htd Hbk Hdat]. set (bc := k_bcache (ide_k e)) in *.
  set (bc1 := alter (set_b_qnext None) bi bc). assert (requeued bc bc1) as R1 by (by apply requeued_alter).
  assert (bc1 !! bi = Some (set_b_qnext None b)) as Hb1 by (unfold bc1; by rewrite list_lookup_alter_eq, Hb).
  assert (qchain bc1 (idequeue e) q) as Hch1.
  { eapply qchain_ext; [|exact Hch]. intros j b' Hj Hb'. exists b'. unfold bc1. rewrite list_lookup_alter_ne by set_solver. done. }
  assert (length q ≤ NBUF)%nat as Hlen by (apply queue_short; [done|]; intros x Hx; destruct (Hreq x Hx) as [? []]; done).
  unfold enqueue. apply wp_bind, wp_lupd_buf. fold bc bc1. apply wp_bind. eapply wp_queue_end; [exact Hch1|exact Hlen|].
  assert (NoDup (q ++ [bi])) as Hnd' by (apply NoDup_app; split; [done|]; split; [set_solver|apply NoDup_singleton]).
  assert (∀ j, j ∈ q ++ [bi] → j ∈ q ∨ ∃ b, request bc j b) as Hin.
  { intros j [Hj| ->%list_elem_of_singleton]%elem_of_app; [by left|right; by exists b]. }
  destruct (last q) as [bl|] eqn:El.
  - apply wp_bind, wp_lupd_buf, wp_bind, wp_gets. simpl idequeue. simpl ide_k.
    assert (idequeue e ≠ Some bi) as Hne by (destruct q as [|a q]; [done|]; destruct Hch as (-> & _); set_solver).
    rewrite bool_decide_false by done. apply wp_ret.
    assert (requeued bc (alter (set_b_qnext (Some bi)) bl bc1)) as R2 by (by apply requeued_alter).
    apply (HQ (alter (set_b_qnext (Some bi)) bl bc1) (idequeue e) (ide_hw e) R2).
    eapply inv_requeued; [exact Inv|exact R2|by eapply qchain_snoc|done| |exact Hin|by destruct q]. destruct q; [by right|by left].
  - apply last_None in El. subst q. apply wp_bind, wp_modify, wp_bind, wp_gets. simpl idequeue. rewrite bool_decide_true by done. simpl when.
    destruct (requeued_request _ _ _ _ R1 Hrq) as (b' & Hb' & _).
    eapply (wp_idestart bi b' _ D); [exact Hb'|exact Hhw|]. intros c Hc. apply (HQ bc1 (Some bi) c R1).
    eapply inv_requeued; [exact Inv|exact R1| |done|by right|exact Hin|].
    + simpl. split; [done|]. by eexists.
    + simpl. intros b'' Hb''. rewrite (rq_buf _ _ _ Hb') in Hb''. by injection Hb'' as <-.
Qed.

(** ** Waiting *)

Definition driver_same e e' : Prop :=
  k_bcache (ide_k e') = k_bcache (ide_k e) ∧ idequeue e' = idequeue e ∧ havedisk1 e' = havedisk1 e ∧ ide_hw e' = ide_hw e.

Context (i : nat) (pid : Z) (bi : nat).
(** How the process is resumed: nothing is said of the driver. *)
Definition ide_rely e : Prop := resumed i pid (ide_k e) ∧ ∃ b, k_bcache (ide_k e) !! bi = Some b.
(** A segment of [ide_rw], from [e1] to the switch in [e2]: it appends the request
    to the queue, or it leaves the driver alone. *)
Definition ide_segment e0 q D e1 e2 (new : list nat) : Prop :=
  sleeping i (ChBuf bi) (ide_k e2) ∧
  ((new = [bi] ∧ e1 = e0 ∧ ide_inv e2 (q ++ [bi]) D ∧ requeued (k_bcache (ide_k e0)) (k_bcache (ide_k e2))) ∨
   (new = [] ∧ driver_same e1 e2)).
(** How it returns, from the last segment's entry [e1], having appended [acc]. *)
Definition ide_returns (r : unit) e e1 (acc : list nat) : Prop :=
  acc = [bi] ∧ driver_same e1 e ∧ k_held (ide_k e) = [] ∧ ∃ b, k_bcache (ide_k e) !! bi = Some b ∧ is_done b = true.

Lemma asleep_sleeping c s p s1 : running s i p → asleep c s i p s1 → sleeping i c s1.
Proof.
  intros [Hp Ht] ->. split; [done|]. simpl. eexists. split; [apply list_lookup_insert_eq; by eapply lookup_lt_Some|done].
Qed.
Lemma awake_running (en : ide C) : resumed i pid (ide_k en) → ∃ p, running (awake i Lide (ide_k en)) i p ∧ p_pid p = pid.
Proof.
  intros (Hp & _ & p & Ht & _ & Hpid). exists (set_p_chan None p). split; [|done]. split; [done|]. simpl. rewrite list_lookup_alter_eq, Ht. done.
Qed.

Lemma sg_ide_wait (seg : ide C → ide C → list nat → Prop) (k : unit → ide C → ide C → list nat → Prop) n e en acc d p b :
  (∀ en e2 s1, ide_rely en → e2 = set_k s1 en → k_bcache s1 = k_bcache (ide_k en) → sleeping i (ChBuf bi) s1 → seg en e2 []) →
  (∀ en b, ide_rely en → k_bcache (ide_k en) !! bi = Some b → is_done b = true → k tt (set_k (awake i Lide (ide_k en)) en) en (acc ++ d)) →
  running (ide_k e) i p → k_held (ide_k e) = [Lide] → k_bcache (ide_k e) !! bi = Some b → is_done b = false →
  (∀ s1, asleep (ChBuf bi) (ide_k e) i p s1 → seg en (set_k s1 e) d) →
  sg ide_rely seg k en acc (ide_wait n bi e).
Proof.
  intros Hseg Hk. revert e en acc d p b Hk. induction n as [|n IH]; intros e en acc d p b Hk Hr Hh Hb Hdone Hnew; cbn [ide_wait];
    apply sg_bind, wp_sg; (eapply wp_lget_buf; [exact Hb|]); fold (is_done b); rewrite Hdone; [done|].
  apply sg_bind. destruct (sleep_swtch (ChBuf bi) Lide i p (ide_k e) Hr ltac:(done) Hh) as (s1 & r & Es & Ha & Hres).
  unfold lift. change (part e) with (ide_k e). rewrite Es. cbn [olift sg]. exists d. split; [by apply Hnew|]. intros en' Hrely. pose proof Hrely as [Hresd [b' Hb']].
  rewrite Hres by apply Hresd. cbn [olift sg]. destruct (awake_running en' Hresd) as (p' & Hr' & Hpid').
  destruct (is_done b') eqn:Ed.
  - specialize (Hk en' b' Hrely Hb' Ed). destruct n; cbn [ide_wait]; apply sg_bind, wp_sg; (eapply wp_lget_buf; [exact Hb'|]); fold (is_done b'); rewrite Ed; exact Hk.
  - eapply (IH _ en' (acc ++ d) [] p' b'); [|exact Hr'|done|exact Hb'|done|].
    + intros en2 b2 H1 H2 H3. rewrite app_nil_r. by eapply Hk.
    + intros s2 Ha2. apply (Hseg en' _ s2 Hrely); [done| |by eapply asleep_sleeping]. rewrite Ha2. done.
Qed.
End Requests.

(** ** The driver and the memory disk *)

Lemma served_done D b : is_done (served_buf D b) = true.
Proof.
  unfold is_done, served_buf. assert (∀ b' f, b_flags (set_b_flags f b') = f) as E by (by intros []). rewrite E. apply Z.eqb_eq.
  rewrite <- Z.land_assoc. change (Z.land (Z.lnot B_DIRTY) (Z.lor B_VALID B_DIRTY)) with B_VALID.
  apply Z.bits_inj'. intros n _. rewrite Z.land_spec, Z.lor_spec. destruct (Z.testbit (b_flags b) n), (Z.testbit B_VALID n); done.
Qed.

Lemma flags_served f : Z.lor (Z.land f (Z.lnot B_DIRTY)) B_VALID = Z.land (Z.lor f B_VALID) (Z.lnot B_DIRTY).
Proof.
  apply Z.bits_inj'. intros n Hn. rewrite Z.lor_spec, !Z.land_spec, Z.lor_spec, Z.lnot_spec by done.
  assert (Z.testbit B_VALID n = true → Z.testbit B_DIRTY n = false) as E.
  { destruct n as [|n|]; try done. destruct n as [[]|[]|]; done. }
  destruct (Z.testbit f n), (Z.testbit B_VALID n), (Z.testbit B_DIRTY n); try done; by discriminate E.
Qed.

(** The memory disk of [s] is drive 1 of [D]. *)
Definition memdisk (s : kernel) (D : disk2) : Prop := ∀ n, 0 ≤ n < k_disksize s → k_disk s !! n = Some (D 1 n).

(** memide.c serves the request the same way, at once. *)
Lemma wp_memide bi b D i p s :
  running s i p → k_held s = [] → k_bcache s !! bi = Some b → b_lock b = mkSleeplock true (p_pid p) → is_done b = false →
  b_dev b = 1 → 0 ≤ b_blockno b < k_disksize s → memdisk s D →
  wp (iderw bi) (λ _ s', k_bcache s' = <[bi := served_buf D b]> (k_bcache s) ∧ memdisk s' (served_disk D b)) s.
Proof.
  intros Hr Hh Hb Hl Hd Hdev Hn HD. pose proof (lookup_lt_Some _ _ _ Hb) as Hlt. unfold iderw. apply wp_bind. eapply wp_holding_buf; [done..|]. simpl negb. cbv iota.
  apply wp_bind. eapply wp_get_buf; [done|]. change (Z.land (b_flags b) (Z.lor B_VALID B_DIRTY) =? B_VALID) with (is_done b).
  rewrite Hd, Hdev. simpl negb. cbv iota. apply wp_bind, wp_gets. rewrite (proj2 (Z.leb_gt _ _)) by lia. apply wp_bind.
  change (negb (Z.land (b_flags b) B_DIRTY =? 0)) with (is_dirty b). unfold served_buf, served_disk. destruct (is_dirty b) eqn:Ed.
  - apply wp_bind. eapply wp_upd_buf; [done|]. apply wp_modify. eapply wp_upd_buf; [simpl; by apply list_lookup_insert_eq|]. split.
    + simpl. rewrite list_insert_insert_eq. f_equal. destruct b as [f]. unfold set_b_flags. simpl. f_equal. apply flags_served.
    + intros n Hn'. simpl in *. unfold upd_sector, drive. rewrite Hdev. simpl. destruct (Z.eqb_spec n (b_blockno b)) as [->|Hne]; [by rewrite lookup_insert_eq|].
      rewrite lookup_insert_ne by done. by apply HD.
  - apply wp_bind, wp_gets, wp_bind. eapply wp_deref; [by apply HD|]. eapply wp_upd_buf; [done|]. eapply wp_upd_buf; [simpl; by apply list_lookup_insert_eq|].
    split; [|exact HD]. simpl. rewrite list_insert_insert_eq. f_equal. unfold drive. rewrite Hdev. unfold is_dirty in Ed. apply negb_false_iff, Z.eqb_eq in Ed.
    destruct b as [f]. unfold set_b_flags, set_b_data. simpl in *. f_equal. rewrite <- flags_served. f_equal. symmetry.
    apply Z.bits_inj'. intros n Hn'. apply (f_equal (λ z, Z.testbit z n)) in Ed. rewrite Z.land_spec, Z.testbit_0_l in Ed. rewrite Z.land_spec, Z.lnot_spec by done.
    destruct (Z.testbit f n), (Z.testbit B_DIRTY n); done.
Qed.

(** ** The driver's contract *)

(** C14. Under every interleaving [iderw] puts its request at the end of the queue
    exactly once, before it first gives up the CPU, and starts the controller if
    the queue was empty; whenever it is resumed it leaves the driver alone, going
    back to sleep on the buffer while the request is pending, and it returns only
    when the buffer is valid and clean, with all locks released. *)
Theorem ide_rw_queues {C : Type} `{Hw C} `{Ata C} `{PollBound} `{!AtaLaws (C := C)} `{WaitBound}
    (i : nat) (p : proc) (bi : nat) (b : buf) (e : ide C) (q : list nat) (D : disk2) :
  ide_inv e q D → request (k_bcache (ide_k e)) bi b → bi ∉ q → running (ide_k e) i p → k_held (ide_k e) = [] →
  b_lock b = mkSleeplock true (p_pid p) → b_dev b = 0 ∨ havedisk1 e = true →
  sg (ide_rely i (p_pid p) bi) (ide_segment i bi e q D) (ide_returns bi) e [] (ide_rw bi e).
Proof.
  intros Inv Hrq Hni Hr Hh Hl Hdev. pose proof Hrq as [Hb _ Htd _ _]. unfold ide_rw.
  apply sg_bind, wp_sg, wp_lift. eapply wp_holding_buf; [done..|]. simpl negb. cbv iota.
  apply sg_bind, wp_sg. eapply wp_lget_buf; [exact Hb|]. fold (is_done b). rewrite Htd. apply sg_bind, wp_sg, wp_gets.
  assert (negb (b_dev b =? 0) && negb (havedisk1 e) = false) as E by (destruct Hdev as [->| ->]; [done|apply andb_false_r]).
  replace (havedisk1 (set_k (ide_k e) e)) with (havedisk1 e) by done. rewrite E.
  apply sg_bind, wp_sg, wp_lift, wp_acquire; [simpl; rewrite Hh; apply not_elem_of_nil|]. simpl ide_k. rewrite Hh. set (e1 := set_k _ _).
  assert (ide_inv e1 q D) as Inv1 by (by destruct Inv). apply sg_bind, wp_sg. eapply (wp_enqueue e1 bi q D b); [exact Inv1|exact Hrq|exact Hni|].
  intros bc' qh c Hre Inv2. destruct (requeued_request _ _ _ _ Hre Hrq) as (b2 & [Hb2 _ Htd2 _ _] & _).
  apply sg_bind. eapply (sg_ide_wait i (p_pid p) bi _ _ _ _ e [] [bi] p b2); [| |exact Hr|done|exact Hb2|exact Htd2|].
  - intros en e2 s1 _ -> Ek Hsl. split; [exact Hsl|]. right. split; [done|]. by split_and!.
  - intros en b3 [Hres _] Hb3 Hd3. apply wp_sg, wp_lift. eapply wp_release; [done|apply not_elem_of_nil|].
    split; [done|]. split; [by split_and!|]. split; [done|]. by exists b3.
  - intros s1 Ha. split; [eapply (asleep_sleeping i _ (set_k_bcache bc' (ide_k e1)) p); [exact Hr|exact Ha]|]. left. split; [done|]. split; [done|]. rewrite Ha. split; [by destruct Inv2|exact Hre].
Qed.

(** A machine with one buffer, locked by process 0, that is to be read. *)
Definition ide_sectors : disk2 := λ drv sec, replicate 512 (drv + sec).
Definition ide_proc : proc := set_p_state RUNNING (set_p_pid 1 proc0).
Definition ide_buf : buf := mkBuf 0 1 5 (mkSleeplock true 1) 1 0 0 None (replicate 512 0).
Definition ide_kernel : kernel :=
  set_k_proc (Some 0%nat) (set_k_ptable (<[0%nat := ide_proc]> (k_ptable kernel0)) (set_k_bcache (<[0%nat := ide_buf]> (k_bcache kernel0)) kernel0)).
Definition ide_demo (st : ata_state) (q : option nat) : ide demo_ctl := mkIde ide_kernel q true (mkCtl (λ _, 0) st ide_sectors false).
Lemma ide_demo_request : request (k_bcache ide_kernel) 0 ide_buf.
Proof. split; try done. apply Nat.ltb_lt. reflexivity. Qed.
Lemma ide_demo_idle : ide_inv (ide_demo AtaIdle None) [] ide_sectors.
Proof. split; try done; [constructor|]. intros bi Hbi. by apply elem_of_nil in Hbi. Qed.
Lemma ide_demo_busy : ide_inv (ide_demo (AtaRead 1 5) (Some 0%nat)) [0%nat] ide_sectors.
Proof.
  split.
  - split; [done|]. by exists ide_buf.
  - apply NoDup_singleton.
  - intros bi ->%list_elem_of_singleton. exists ide_buf. apply ide_demo_request.
  - intros b [= <-]. done.
Qed.

Lemma ide_rw_queues_witness : let e := ide_demo AtaIdle None in
  sg (ide_rely 0 1 0) (ide_segment (HAta := demo_ata) 0 0 e [] ide_sectors) (ide_returns 0) e [] (ide_rw (H0 := 1%nat) (H1 := 5%nat) 0 e).
Proof.
  exact (ide_rw_queues (H1 := 1%nat) (H2 := 5%nat) 0 ide_proc 0 ide_buf (ide_demo AtaIdle None) [] ide_sectors ide_demo_idle ide_demo_request
    (not_elem_of_nil _) (conj eq_refl eq_refl) eq_refl eq_refl (or_intror eq_refl)).
Defined.


