(* ===== verification/Bootmain.v ===== *)
(** * Bootmain: the boot loader (bootmain.c)

    The state is the physical memory and the hardware.  [entry()] is the end of
    the model: [bootmain] returns the address it jumps to, or [None] when it
    returns to bootasm.S.  The theorem says that the program segments of an ELF
    kernel on the disk are in memory when the kernel is entered. *)

From S2P Require Import Prelude Exec Hw.
#[local] Arguments Nat.div : simpl never.

Definition SECTSIZE : Z := 512.
Record boot (C : Type) := mkBoot { bm_mem : Z → Z; bm_hw : C }.
Arguments mkBoot {C}. Arguments bm_mem {C}. Arguments bm_hw {C}.
#[export] Instance boot_has_hw C : HasHw (boot C) C := { hw := bm_hw; set_hw c s := mkBoot (bm_mem s) c }.
#[export] Instance boot_has_hw_laws C : HasHwLaws (boot C) C.
Proof. split; try done. by intros []. Qed.

Section Code.
Context {C : Type} `{Hw C} `{PollBound}.

Definition load (a : Z) (n : Z) : M (boot C) (list Z) := s ← gets bm_mem; mret (mload a (Z.to_nat n) s).
Definition store (a : Z) (bs : list Z) : M (boot C) unit := modify (λ s, mkBoot (mstore a bs (bm_mem s)) (bm_hw s)).

Definition waitdisk : M (boot C) unit := poll poll_bound 0x1f7 0xc0 0x40 ;; mret tt.

Definition readsect (dst offset : Z) : M (boot C) unit :=
  waitdisk ;;
  outb 0x1f2 1 ;;
  outb 0x1f3 offset ;;
  outb 0x1f4 (Z.shiftr offset 8) ;;
  outb 0x1f5 (Z.shiftr offset 16) ;;
  outb 0x1f6 (Z.lor (Z.shiftr offset 24) 0xe0) ;;
  outb 0x1f7 0x20 ;;
  waitdisk ;;
  d ← insl 0x1f0 (Z.to_nat (SECTSIZE / 4));
  store dst d.

Fixpoint readseg_loop (fuel : nat) (pa epa offset : Z) : M (boot C) unit :=
  if pa <? epa then
    match fuel with
    | O => nofuel
    | S fuel' => readsect pa offset ;; readseg_loop fuel' (pa + SECTSIZE) epa (offset + 1)
    end
  else mret tt.
(** The loop reads [count] bytes and what precedes them in their sector. *)
Definition readseg (pa count offset : Z) : M (boot C) unit :=
  let epa := pa + count in
  let pa' := pa - offset mod SECTSIZE in
  readseg_loop (Z.to_nat ((epa - pa' + SECTSIZE - 1) / SECTSIZE)) pa' epa (offset / SECTSIZE + 1).

(** The loop over the program headers, which are read from memory. *)
Fixpoint load_segments (n : nat) (ph : Z) : M (boot C) unit :=
  match n with
  | O => mret tt
  | S n' =>
      h ← load ph PROGHDRSIZE;
      let pa := get32 12 h in
      let filesz := ph_filesz (proghdr_get h) in
      let memsz := ph_memsz (proghdr_get h) in
      readseg pa filesz (ph_off (proghdr_get h)) ;;
      when (filesz <? memsz) (store (pa + filesz) (replicate (Z.to_nat (memsz - filesz)) 0)) ;;
      load_segments n' (ph + PROGHDRSIZE)
  end.

Definition bootmain : M (boot C) (option Z) :=
  let elf := 0x10000 in
  readseg elf 4096 0 ;;
  h ← load elf ELFHDRSIZE;
  if negb (elf_magic (elfhdr_get h) =? ELF_MAGIC) then mret None else
  load_segments (Z.to_nat (elf_phnum (elfhdr_get h))) (elf + elf_phoff (elfhdr_get h)) ;;
  h ← load elf ELFHDRSIZE;
  mret (Some (elf_entry (elfhdr_get h))).
End Code.

(** ** What it loads *)

Section Spec.
Context {C : Type} `{HHw : Hw C} `{HAta : Ata C} `{HPoll : PollBound} `{!AtaLaws (C := C)}.
Implicit Types (s : boot C) (c : C).

(** Byte [x] of the kernel file, which starts at sector 1 of drive 0. *)
Definition file_byte c (x : Z) : Z := default 0 (ata_sector c 0 (1 + x / 512) !! Z.to_nat (x mod 512)).
Definition disk_full c : Prop := ∀ sec, length (ata_sector c 0 sec) = 512%nat.
Definition same_disk c c' : Prop := ∀ v x, ata_sector c' v x = ata_sector c v x.

Lemma wp_waitdisk s (Q : unit → boot C → Prop) :
  (∀ c, ata_same (bm_hw s) c → ata_wait c = O → Q tt (mkBoot (bm_mem s) c)) → wp waitdisk Q s.
Proof.
  intros HQ. unfold waitdisk. apply wp_bind, wp_poll; [apply ata_bound|]. intros r c Hs _ Hw _. apply wp_ret. by apply HQ.
Qed.
Lemma wp_readsect dst offset s (Q : unit → boot C → Prop) :
  0 ≤ offset < 2 ^ 28 →
  (∀ c, same_disk (bm_hw s) c → Q tt (mkBoot (mstore dst (ata_sector (bm_hw s) 0 offset) (bm_mem s)) c)) → wp (readsect dst offset) Q s.
Proof.
  intros Ho HQ. unfold readsect. apply wp_bind, wp_waitdisk. intros c1 [_ Hd1] Hw1.
  assert (0 ≤ Z.shiftr offset 24 < 16) as Hh by (rewrite Z.shiftr_div_pow2 by lia; Z.div_mod_to_equations; lia).
  assert (Z.shiftr offset 24 = offset / 2 ^ 24) as Esh by (by rewrite Z.shiftr_div_pow2).
  assert (Z.lor (Z.shiftr offset 24) 0xe0 = 0xe0 + Z.shiftr offset 24) as E6.
  { rewrite Z.lor_comm. pose proof (Z.add_lor_land 0xe0 (Z.shiftr offset 24)). enough (Z.land 0xe0 (Z.shiftr offset 24) = 0) by lia. apply Z.bits_inj'. intros n Hn. rewrite Z.land_spec, Z.testbit_0_l.
    destruct (decide (n < 4)) as [Hlt|Hge].
    - assert (n = 0 ∨ n = 1 ∨ n = 2 ∨ n = 3) as [->|[->|[->| ->]]] by lia; done.
    - rewrite (Z.bits_above_log2 (Z.shiftr offset 24)); [apply andb_false_r|lia|]. destruct (decide (Z.shiftr offset 24 = 0)) as [->|]; [simpl; lia|].
      apply Z.log2_lt_pow2; [lia|]. apply Z.lt_le_trans with (2 ^ 4); [lia|]. apply Z.pow_le_mono_r; lia. }
  rewrite E6. eapply (wp_select offset 0); [done| | |done|].
  - rewrite u8_small by lia. Z.div_mod_to_equations. lia.
  - rewrite u8_small, <- Esh by lia. Z.div_mod_to_equations. lia.
  - intros c2 [_ Hd2] Hw2 Hr2 Hl2 Hv2. simpl in Hd2. apply wp_bind, wp_outb. change (u8 0x20) with 0x20. simpl hw.
    destruct (ata_read c2 Hw2 Hr2) as [Hs3 Hd3]. rewrite Hl2, Hv2 in Hs3. set (c3 := hw_out 0x1f7 0x20 c2) in *.
    apply wp_bind, wp_waitdisk. intros c4 [Hs4 Hd4] Hw4. simpl in Hs4, Hd4. rewrite Hs3 in Hs4. change (Z.to_nat (SECTSIZE / 4)) with 128%nat.
    apply wp_bind, wp_insl. simpl hw. destruct (ata_insl c4 _ _ Hs4 Hw4) as (E1 & _ & E2). apply wp_modify. simpl. rewrite E1, Hd4, Hd3, Hd2, Hd1. apply HQ.
    intros v x. by rewrite E2, Hd4, Hd3, Hd2, Hd1.
Qed.

Lemma file_byte_same c c' x : same_disk c c' → file_byte c' x = file_byte c x.
Proof. intros Hs. unfold file_byte. by rewrite Hs. Qed.

(** [readseg_loop] from a sector boundary: the bytes from [pa] to the next sector
    boundary at or behind [epa] are those of the file from [512 * (offset - 1)] on. *)
Lemma wp_readseg_loop fuel pa epa offset s (Q : unit → boot C → Prop) :
  disk_full (bm_hw s) → 1 ≤ offset → offset + Z.of_nat fuel < 2 ^ 28 → epa - pa ≤ 512 * Z.of_nat fuel →
  (∀ m c n, same_disk (bm_hw s) c → 0 ≤ n → epa ≤ pa + 512 * n → (n = 0 ∨ pa + 512 * (n - 1) < epa) →
     (∀ x, m x = if (pa <=? x) && (x <? pa + 512 * n) then file_byte (bm_hw s) (512 * (offset - 1) + (x - pa)) else bm_mem s x) → Q tt (mkBoot m c)) →
  wp (readseg_loop fuel pa epa offset) Q s.
Proof.
  revert pa offset s. induction fuel as [|fuel IH]; intros pa offset s Hf Ho Hb Hfu HQ; cbn [readseg_loop]; destruct (Z.ltb_spec pa epa) as [Hlt|Hge]; try lia.
  1,3: apply wp_ret; specialize (HQ (bm_mem s) (bm_hw s) 0); destruct s as [m c]; apply HQ; try done; [lia|by left|]; intros x;
    destruct (Z.leb_spec pa x), (Z.ltb_spec x (pa + 512 * 0)); simpl; try done; lia.
  apply wp_bind, wp_readsect; [lia|]. intros c1 Hs1. apply IH; simpl; [intros sec; rewrite Hs1; apply Hf|lia|lia|unfold SECTSIZE; lia|].
  intros m c n Hs2 Hn H1 H2 Hm. apply (HQ m c (n + 1)).
  - intros v x. by rewrite Hs2, Hs1.
  - lia.
  - unfold SECTSIZE in *. lia.
  - right. unfold SECTSIZE in *. lia.
  - intros x. rewrite Hm. unfold SECTSIZE, mstore. rewrite Hf. rewrite (file_byte_same _ _ _ Hs1).
    destruct (Z.leb_spec (pa + 512) x), (Z.ltb_spec x (pa + 512 + 512 * n)), (Z.leb_spec pa x), (Z.ltb_spec x (pa + 512 * (n + 1))), (Z.ltb_spec x (pa + Z.of_nat 512)); simpl; try lia; try done.
    + f_equal. lia.
    + unfold file_byte. replace ((512 * (offset - 1) + (x - pa)) / 512) with (offset - 1) by (Z.div_mod_to_equations; lia).
      replace ((512 * (offset - 1) + (x - pa)) mod 512) with (x - pa) by (Z.div_mod_to_equations; lia). by replace (1 + (offset - 1)) with offset by lia.
Qed.

(** What [readseg] writes: from [seg_lo] up to [seg_hi]. *)
Definition seg_lo (pa offset : Z) : Z := pa - offset mod 512.
Definition seg_hi (pa count offset : Z) : Z := seg_lo pa offset + 512 * ((pa + count - seg_lo pa offset + 511) / 512).
Lemma wp_readseg pa count offset s (Q : unit → boot C → Prop) :
  disk_full (bm_hw s) → 0 ≤ count → 0 ≤ offset → offset + count < 2 ^ 32 →
  (∀ m c, same_disk (bm_hw s) c →
     (∀ x, m x = if (seg_lo pa offset <=? x) && (x <? seg_hi pa count offset) then file_byte (bm_hw s) (offset + (x - pa)) else bm_mem s x) → Q tt (mkBoot m c)) →
  wp (readseg pa count offset) Q s.
Proof.
  intros Hf Hc Ho Hb HQ. unfold readseg, SECTSIZE. change (pa - offset mod 512) with (seg_lo pa offset). pose proof (Z.mod_pos_bound offset 512 ltac:(lia)) as Hm.
  assert (0 ≤ (pa + count - seg_lo pa offset + 512 - 1) / 512) as Hd by (apply Z.div_pos; unfold seg_lo; lia).
  apply wp_readseg_loop; [done|Z.div_mod_to_equations; lia|..].
  - rewrite Z2Nat.id by done. unfold seg_lo. Z.div_mod_to_equations. lia.
  - rewrite Z2Nat.id by done. Z.div_mod_to_equations. lia.
  - intros m c n Hs Hn H1 H2 Hx. apply HQ; [done|]. intros x. rewrite Hx. assert (n = (pa + count - seg_lo pa offset + 511) / 512) as En.
    { unfold seg_lo in *. Z.div_mod_to_equations. lia. }
    unfold seg_hi. rewrite <- En. destruct ((seg_lo pa offset <=? x) && (x <? seg_lo pa offset + 512 * n)); [|done]. f_equal. unfold seg_lo. Z.div_mod_to_equations. lia.
Qed.

(** The headers in the file, and the segments they describe. *)
Definition file_bytes c (a : Z) (n : nat) : list Z := (λ k, file_byte c (a + Z.of_nat k)) <$> seq 0 n.
Definition kernel_elf c : elfhdr := elfhdr_get (file_bytes c 0 52).
Definition kernel_ph c (k : nat) : list Z := file_bytes c (elf_phoff (kernel_elf c) + 32 * Z.of_nat k) 32.
Definition seg_pa (h : list Z) : Z := get32 12 h.
Definition seg_off (h : list Z) : Z := ph_off (proghdr_get h).
Definition seg_filesz (h : list Z) : Z := ph_filesz (proghdr_get h).
Definition seg_memsz (h : list Z) : Z := ph_memsz (proghdr_get h).
(** The memory that loading a segment may write. *)
Definition touched (h : list Z) (x : Z) : Prop :=
  seg_lo (seg_pa h) (seg_off h) ≤ x < seg_hi (seg_pa h) (seg_filesz h) (seg_off h) ∨ seg_pa h + seg_filesz h ≤ x < seg_pa h + seg_memsz h.
(** The segment is in memory: its bytes from the file, and zeroes. *)
Definition seg_loaded c (m : Z → Z) (h : list Z) : Prop :=
  (∀ x, seg_pa h ≤ x < seg_pa h + seg_filesz h → m x = file_byte c (seg_off h + (x - seg_pa h))) ∧
  (∀ x, seg_pa h + seg_filesz h ≤ x < seg_pa h + seg_memsz h → m x = 0).
(** The disk holds a kernel whose headers are in its first page and whose segments
    fit: none is loaded over the page with the headers, or over an earlier one. *)
Record kernel_disk c : Prop := {
  kd_full : disk_full c;
  kd_byte : ∀ x, 0 ≤ file_byte c x < 256;
  kd_magic : elf_magic (kernel_elf c) = ELF_MAGIC;
  kd_headers : elf_phoff (kernel_elf c) + 32 * elf_phnum (kernel_elf c) ≤ 4096;
  kd_size : ∀ k, Z.of_nat k < elf_phnum (kernel_elf c) → seg_off (kernel_ph c k) + seg_filesz (kernel_ph c k) < 2 ^ 32;
  kd_scratch : ∀ k x, Z.of_nat k < elf_phnum (kernel_elf c) → touched (kernel_ph c k) x → ¬ (0x10000 ≤ x < 0x11000);
  kd_apart : ∀ j k x, (j < k)%nat → Z.of_nat k < elf_phnum (kernel_elf c) →
    seg_pa (kernel_ph c j) ≤ x < seg_pa (kernel_ph c j) + Z.max (seg_filesz (kernel_ph c j)) (seg_memsz (kernel_ph c j)) → ¬ touched (kernel_ph c k) x }.

Lemma file_bytes_range c a n o w : (∀ x, 0 ≤ file_byte c x < 256) → 0 ≤ le_get (slice o w (file_bytes c a n)).
Proof.
  intros Hb. assert (∀ l, Forall (λ x, 0 ≤ x < 256) l → 0 ≤ le_get l) as H by (induction 1; simpl; lia).
  apply H. unfold slice. apply Forall_take, Forall_drop. unfold file_bytes. apply Forall_fmap, Forall_forall. intros k _. apply Hb.
Qed.
Lemma file_bytes_same c c' a n : same_disk c c' → file_bytes c' a n = file_bytes c a n.
Proof. intros Hs. unfold file_bytes. apply list_fmap_ext. intros _ k _. by apply file_byte_same. Qed.
Lemma mload_file c m a b n : (∀ x, a ≤ x < a + Z.of_nat n → m x = file_byte c (b + (x - a))) → mload a n m = file_bytes c b n.
Proof.
  intros Hm. unfold mload, file_bytes. apply list_fmap_ext. intros k x Hx. apply lookup_seq in Hx as [-> Hk]. rewrite Hm by lia. f_equal. lia.
Qed.

(** One segment. *)
Lemma wp_load_segment c0 h s (Q : unit → boot C → Prop) :
  disk_full c0 → same_disk c0 (bm_hw s) → 0 ≤ seg_filesz h → 0 ≤ seg_off h → seg_off h + seg_filesz h < 2 ^ 32 →
  (∀ m c, same_disk c0 c → seg_loaded c0 m h → (∀ x, ¬ touched h x → m x = bm_mem s x) → Q tt (mkBoot m c)) →
  wp (readseg (seg_pa h) (seg_filesz h) (seg_off h) ;; when (seg_filesz h <? seg_memsz h)
        (store (seg_pa h + seg_filesz h) (replicate (Z.to_nat (seg_memsz h - seg_filesz h)) 0))) Q s.
Proof.
  intros Hf Hs Hfs Ho Hb HQ. apply wp_bind, wp_readseg; [intros sec; rewrite Hs; apply Hf|done..|]. intros m c Hs1 Hm.
  assert (same_disk c0 c) as Hs2 by (intros v x; by rewrite Hs1, Hs). pose proof (Z.mod_pos_bound (seg_off h) 512 ltac:(lia)) as Hmod.
  assert (seg_lo (seg_pa h) (seg_off h) ≤ seg_pa h ∧ seg_pa h + seg_filesz h ≤ seg_hi (seg_pa h) (seg_filesz h) (seg_off h)) as [Hlo Hhi].
  { unfold seg_hi, seg_lo. Z.div_mod_to_equations. lia. }
  assert (∀ x, seg_pa h ≤ x < seg_pa h + seg_filesz h → m x = file_byte c0 (seg_off h + (x - seg_pa h))) as Hin.
  { intros x Hx. rewrite Hm, (proj2 (Z.leb_le _ _)), (proj2 (Z.ltb_lt _ _)) by lia. simpl. by apply file_byte_same. }
  assert (∀ x, ¬ (seg_lo (seg_pa h) (seg_off h) ≤ x < seg_hi (seg_pa h) (seg_filesz h) (seg_off h)) → m x = bm_mem s x) as Hout.
  { intros x Hx. rewrite Hm. destruct (Z.leb_spec (seg_lo (seg_pa h) (seg_off h)) x), (Z.ltb_spec x (seg_hi (seg_pa h) (seg_filesz h) (seg_off h))); simpl; try done. lia. }
  destruct (Z.ltb_spec (seg_filesz h) (seg_memsz h)) as [Hlt|Hge]; simpl when.
  - apply wp_modify. simpl. apply HQ; [done| |].
    + unfold mstore. rewrite length_replicate. split; intros x Hx.
      * rewrite (proj2 (Z.leb_gt _ _)) by lia. by apply Hin.
      * rewrite (proj2 (Z.leb_le _ _)), (proj2 (Z.ltb_lt _ _)) by lia. simpl. rewrite lookup_replicate_2 by lia. done.
    + intros x Hx. unfold mstore. rewrite length_replicate. unfold touched in Hx. destruct (Z.leb_spec (seg_pa h + seg_filesz h) x), (Z.ltb_spec x (seg_pa h + seg_filesz h + Z.of_nat (Z.to_nat (seg_memsz h - seg_filesz h))));
        simpl; try (apply Hout; tauto). exfalso. apply Hx. right. lia.
  - apply wp_ret. apply HQ; [done| |intros x Hx; apply Hout; unfold touched in Hx; tauto]. split; [done|]. intros x Hx. lia.
Qed.

(** The page with the headers. *)
Definition scratch_ok c (m : Z → Z) : Prop := ∀ x, 0x10000 ≤ x < 0x11000 → m x = file_byte c (x - 0x10000).
Lemma scratch_load c m o n : scratch_ok c m → 0 ≤ o → o + Z.of_nat n ≤ 4096 → mload (0x10000 + o) n m = file_bytes c o n.
Proof. intros Hm Ho Hn. apply mload_file. intros x Hx. rewrite Hm by lia. f_equal. lia. Qed.

Lemma wp_load_segments c0 n k s (Q : unit → boot C → Prop) :
  kernel_disk c0 → Z.of_nat (k + n) = elf_phnum (kernel_elf c0) → same_disk c0 (bm_hw s) → scratch_ok c0 (bm_mem s) →
  (∀ j, (j < k)%nat → seg_loaded c0 (bm_mem s) (kernel_ph c0 j)) →
  (∀ m c, same_disk c0 c → scratch_ok c0 m → (∀ j, (j < k + n)%nat → seg_loaded c0 m (kernel_ph c0 j)) → Q tt (mkBoot m c)) →
  wp (load_segments n (0x10000 + elf_phoff (kernel_elf c0) + 32 * Z.of_nat k)) Q s.
Proof.
  intros Kd. pose proof Kd as [Hf Hby _ Hhd Hsz Hsc Hap]. assert (0 ≤ elf_phoff (kernel_elf c0)) as Hpo by (by apply file_bytes_range).
  revert k s. induction n as [|n IH]; intros k s Hk Hs Hm Hld HQ; cbn [load_segments].
  { apply wp_ret. destruct s as [m c]. apply HQ; try done. intros j Hj. apply Hld. lia. }
  set (h := kernel_ph c0 k). assert (mload (0x10000 + elf_phoff (kernel_elf c0) + 32 * Z.of_nat k) 32 (bm_mem s) = h) as Eh.
  { rewrite <- Z.add_assoc. apply scratch_load; [done|lia|lia]. }
  apply wp_bind, wp_bind, wp_gets, wp_ret. change (Z.to_nat PROGHDRSIZE) with 32%nat. rewrite Eh. fold (seg_pa h) (seg_filesz h) (seg_memsz h) (seg_off h).
  apply wp_assoc, wp_bind. apply (wp_load_segment c0); [done|done|by apply file_bytes_range|by apply file_bytes_range|apply Hsz; lia|].
  intros m c Hs1 Hl1 Hkeep.
  replace (0x10000 + elf_phoff (kernel_elf c0) + 32 * Z.of_nat k + PROGHDRSIZE) with (0x10000 + elf_phoff (kernel_elf c0) + 32 * Z.of_nat (S k)) by (unfold PROGHDRSIZE; lia).
  apply IH; [lia|done| | |].
  - intros x Hx. simpl. rewrite Hkeep; [by apply Hm|]. intros Ht. by apply (Hsc k x ltac:(lia) Ht).
  - intros j Hj. destruct (decide (j = k)) as [->|Hne]; [done|]. destruct (Hld j ltac:(lia)) as [L1 L2].
    assert (0 ≤ seg_filesz (kernel_ph c0 j)) as Hfz by (by apply file_bytes_range).
    split; simpl; intros x Hx; (rewrite Hkeep; [auto|apply (Hap j k x ltac:(lia) ltac:(lia)); lia]).
  - intros m' c' H1 H2 H3. apply HQ; [done|done|]. intros j Hj. apply H3. lia.
Qed.
End Spec.


(** A disk with a kernel of one segment: three bytes, and two more of zeroes. *)
Definition demo_head : list Z :=
  take 512 (le_put 4 ELF_MAGIC ++ replicate 20 0 ++ le_put 4 0x10000c ++ le_put 4 52 ++ replicate 12 0 ++ le_put 2 1 ++ replicate 6 0 ++
    le_put 4 1 ++ le_put 4 512 ++ le_put 4 0x80100000 ++ le_put 4 0x100000 ++ le_put 4 3 ++ le_put 4 5 ++ replicate 512 0).
Definition demo_sectors : Z → Z → list Z := λ _ sec,
  if sec =? 1 then demo_head else if sec =? 2 then [7; 8; 9] ++ replicate 509 1 else replicate 512 0.
Definition demo_disk_boot : boot demo_ctl := mkBoot (λ _, 0xff) (mkCtl (λ _, 0) AtaIdle demo_sectors true).
Lemma demo_kernel_disk : kernel_disk (bm_hw demo_disk_boot).
Proof.
  assert (elf_phnum (kernel_elf (bm_hw demo_disk_boot)) = 1 ∧ elf_phoff (kernel_elf (bm_hw demo_disk_boot)) = 52) as [E1 E2] by (vm_compute; by split).
  assert (kernel_ph (bm_hw demo_disk_boot) 0 = le_put 4 1 ++ le_put 4 512 ++ le_put 4 0x80100000 ++ le_put 4 0x100000 ++ le_put 4 3 ++ le_put 4 5 ++ replicate 8 0) as E3
    by (vm_compute; reflexivity).
  split.
  - intros sec. simpl. unfold demo_sectors. repeat case_match; vm_compute; reflexivity.
  - intros x. unfold file_byte. simpl. unfold demo_sectors.
    assert (∀ l i, forallb (λ x, (0 <=? x) && (x <? 256)) l = true → 0 ≤ default 0 (l !! i) < 256) as Hl.
    { intros l i Hl. destruct (l !! i) as [y|] eqn:Ey; simpl; [|lia]. rewrite forallb_forall in Hl. specialize (Hl y). rewrite <- list_elem_of_In in Hl.
      specialize (Hl (list_elem_of_lookup_2 _ _ _ Ey)). lia. }
    repeat case_match; apply Hl; vm_compute; reflexivity.
  - vm_compute. reflexivity.
  - rewrite E1, E2. lia.
  - intros k Hk. rewrite E1 in Hk. assert (k = O) as -> by lia. rewrite E3. vm_compute. reflexivity.
  - intros k x Hk. rewrite E1 in Hk. assert (k = O) as -> by lia. rewrite E3. unfold touched.
    assert (∀ a b c d : Z, a = 0x100000 → b = 0x100200 → c = 0x100003 → d = 0x100005 → a ≤ x < b ∨ c ≤ x < d → ¬ 0x10000 ≤ x < 0x11000) as H by lia.
    apply H; vm_compute; reflexivity.
  - intros j k x Hj Hk. lia.
Qed.
