(* ===== verification/Mp.v ===== *)
(** * Mp: finding the processors (mp.c)

    The tables the firmware left are bytes of physical memory, which these
    functions only read; a pointer is a physical address.  [mpinit] fills in
    the processors, the id of the I/O APIC and the address of the local APIC. *)

From S2P Require Import Prelude State Strings Hw.
#[local] Arguments Nat.div : simpl never.

Definition NCPU : nat := 8.
Definition MPPROC : Z := 0x00.
Definition MPBUS : Z := 0x01.
Definition MPIOAPIC : Z := 0x02.
Definition MPIOINTR : Z := 0x03.
Definition MPLINTR : Z := 0x04.

(** ** The code *)

Abbreviation memory := (Z → Z).

Definition sum (bs : list Z) : Z := u8 (foldl Z.add 0 bs).

(** [struct mp]: 16 bytes. *)
Definition mp_sig (m : memory) (p : Z) : bool := bool_decide (mload p 4 m = str "_MP_").
Definition mp_physaddr (m : memory) (p : Z) : Z := get32 4 (mload p 16 m).
Definition mp_imcrp (m : memory) (p : Z) : Z := m (p + 12).
(** [struct mpconf]: 44 bytes. *)
Definition conf_sig (m : memory) (p : Z) : bool := bool_decide (mload p 4 m = str "PCMP").
Definition conf_length (m : memory) (p : Z) : Z := get16 4 (mload p 44 m).
Definition conf_version (m : memory) (p : Z) : Z := m (p + 6).
Definition conf_lapicaddr (m : memory) (p : Z) : Z := get32 36 (mload p 44 m).

(** [n] steps of 16 bytes. *)
Fixpoint mpsearch1_loop (n : nat) (m : memory) (p : Z) : option Z :=
  match n with
  | O => None
  | S n' => if mp_sig m p && (sum (mload p 16 m) =? 0) then Some p else mpsearch1_loop n' m (p + 16)
  end.
Definition mpsearch1 (m : memory) (a len : Z) : option Z := mpsearch1_loop (Z.to_nat ((len + 15) / 16)) m a.

Definition mpsearch (m : memory) : option Z :=
  let bda := 0x400 in
  let p := Z.shiftl (Z.lor (Z.shiftl (m (bda + 0x0F)) 8) (m (bda + 0x0E))) 4 in
  let found := if negb (p =? 0) then mpsearch1 m p 1024
               else mpsearch1 m (u32 (Z.lor (Z.shiftl (m (bda + 0x14)) 8) (m (bda + 0x13)) * 1024 - 1024)) 1024 in
  match found with Some mp => Some mp | None => mpsearch1 m 0xF0000 0x10000 end.

(** The configuration table and the structure that points to it. *)
Definition mpconfig (m : memory) : option (Z * Z) :=
  match mpsearch m with
  | None => None
  | Some mp =>
      if mp_physaddr m mp =? 0 then None else
      let conf := mp_physaddr m mp in
      if negb (conf_sig m conf) then None else
      if negb (conf_version m conf =? 1) && negb (conf_version m conf =? 4) then None else
      if negb (sum (mload conf (Z.to_nat (conf_length m conf)) m) =? 0) then None else
      Some (conf, mp)
  end.

Record mps (C : Type) := mkMps { mp_cpus : list Z; mp_ioapicid : Z; mp_lapic : Z; mp_hw : C }.
Arguments mkMps {C}. Arguments mp_cpus {C}. Arguments mp_ioapicid {C}. Arguments mp_lapic {C}. Arguments mp_hw {C}.
#[export] Instance mps_has_hw C : HasHw (mps C) C := { hw := mp_hw; set_hw c s := mkMps (mp_cpus s) (mp_ioapicid s) (mp_lapic s) c }.

Section Code.
Context {C : Type} `{Hw C}.

(** [if(ncpu < NCPU) cpus[ncpu++].apicid = id] *)
Definition add_cpu (id : Z) (s : mps C) : mps C :=
  if (length (mp_cpus s) <? NCPU)%nat then mkMps (mp_cpus s ++ [id]) (mp_ioapicid s) (mp_lapic s) (mp_hw s) else s.

(** The loop over the entries; [break] leaves the switch, not the loop. *)
Fixpoint mp_entries (fuel : nat) (m : memory) (p e : Z) (ismp : bool) : M (mps C) bool :=
  if negb (p <? e) then mret ismp else
  match fuel with
  | O => nofuel
  | S fuel' =>
      if m p =? MPPROC then modify (add_cpu (m (p + 1))) ;; mp_entries fuel' m (p + 20) e ismp
      else if m p =? MPIOAPIC then
        modify (λ s, mkMps (mp_cpus s) (m (p + 1)) (mp_lapic s) (mp_hw s)) ;; mp_entries fuel' m (p + 8) e ismp
      else if (m p =? MPBUS) || (m p =? MPIOINTR) || (m p =? MPLINTR) then mp_entries fuel' m (p + 8) e ismp
      else mp_entries fuel' m p e false
  end.

Definition mpinit (fuel : nat) (m : memory) : M (mps C) unit :=
  match mpconfig m with
  | None => panic "Expect to run on an SMP"
  | Some (conf, mp) =>
      modify (λ s, mkMps (mp_cpus s) (mp_ioapicid s) (conf_lapicaddr m conf) (mp_hw s)) ;;
      ismp ← mp_entries fuel m (conf + 44) (conf + conf_length m conf) true;
      if negb ismp then panic "Didn't find a suitable machine" else
      when (negb (mp_imcrp m mp =? 0)) (
        outb 0x22 0x70 ;;
        v ← inb 0x23;
        outb 0x23 (Z.lor v 1))
  end.
End Code.

(** ** Tables *)

Inductive mpentry := EProc (apicid : Z) | EIoapic (apicno : Z) | EOther (type : Z).
Definition entry_size (x : mpentry) : Z := match x with EProc _ => 20 | _ => 8 end.
Definition entry_at (m : memory) (p : Z) (x : mpentry) : Prop :=
  match x with
  | EProc id => m p = MPPROC ∧ m (p + 1) = id
  | EIoapic no => m p = MPIOAPIC ∧ m (p + 1) = no
  | EOther t => m p = t ∧ (t = MPBUS ∨ t = MPIOINTR ∨ t = MPLINTR)
  end.
(** The entries from [p] up to [e]. *)
Fixpoint table (m : memory) (p : Z) (es : list mpentry) (e : Z) : Prop :=
  match es with [] => p = e | x :: es' => entry_at m p x ∧ table m (p + entry_size x) es' e end.
Definition proc_of (x : mpentry) : option Z := match x with EProc id => Some id | _ => None end.
Definition ioapic_of (x : mpentry) : option Z := match x with EIoapic no => Some no | _ => None end.
Definition procs (es : list mpentry) : list Z := omap proc_of es.
Definition ioapics (es : list mpentry) : list Z := omap ioapic_of es.

Lemma table_le m p es e : table m p es e → p ≤ e.
Proof. revert p. induction es as [|x es IH]; intros p; simpl; [lia|]. intros [_ H%IH]. destruct x; simpl in H; lia. Qed.

(** What search and configuration return is what the specification asks for. *)
Definition mp_valid (m : memory) (p : Z) : Prop := mload p 4 m = str "_MP_" ∧ sum (mload p 16 m) = 0.
Lemma mpsearch1_loop_spec n m p :
  match mpsearch1_loop n m p with
  | Some q => ∃ k, (k < n)%nat ∧ q = p + 16 * Z.of_nat k ∧ mp_valid m q ∧ ∀ j, (j < k)%nat → ¬ mp_valid m (p + 16 * Z.of_nat j)
  | None => ∀ j, (j < n)%nat → ¬ mp_valid m (p + 16 * Z.of_nat j)
  end.
Proof.
  revert p. induction n as [|n IH]; intros p; cbn [mpsearch1_loop]; [intros j Hj; lia|].
  unfold mp_sig. destruct (bool_decide (mload p 4 m = str "_MP_") && (sum (mload p 16 m) =? 0)) eqn:E.
  - apply andb_true_iff in E as [E1%bool_decide_eq_true E2%Z.eqb_eq]. exists O. split; [lia|]. split; [lia|]. split; [by split|]. intros j Hj. lia.
  - assert (¬ mp_valid m p) as Hno by (intros [E1 E2]; rewrite E1, E2, bool_decide_eq_true_2 in E by done; done).
    specialize (IH (p + 16)). destruct (mpsearch1_loop n m (p + 16)) as [q|].
    + destruct IH as (k & Hk & -> & Hv & Hj). exists (S k). split; [lia|]. split; [lia|]. split; [done|]. intros j Hlt.
      destruct j as [|j]; [by rewrite Z.add_0_r|]. replace (p + 16 * Z.of_nat (S j)) with (p + 16 + 16 * Z.of_nat j) by lia. apply Hj. lia.
    + intros j Hj. destruct j as [|j]; [by rewrite Z.add_0_r|]. replace (p + 16 * Z.of_nat (S j)) with (p + 16 + 16 * Z.of_nat j) by lia. apply IH. lia.
Qed.
Lemma mpconfig_spec m conf mp : mpconfig m = Some (conf, mp) →
  mp_valid m mp ∧ conf = mp_physaddr m mp ∧ mload conf 4 m = str "PCMP" ∧ (conf_version m conf = 1 ∨ conf_version m conf = 4) ∧
  sum (mload conf (Z.to_nat (conf_length m conf)) m) = 0.
Proof.
  assert (∀ a n q, mpsearch1 m a n = Some q → mp_valid m q) as Hs1.
  { intros a n q E. pose proof (mpsearch1_loop_spec (Z.to_nat ((n + 15) / 16)) m a) as H. unfold mpsearch1 in E. rewrite E in H. by destruct H as (k & _ & _ & Hv & _). }
  unfold mpconfig. destruct (mpsearch m) as [q|] eqn:E; [|done].
  assert (mp_valid m q) as Hv. { unfold mpsearch in E. cbv zeta in E. clear - E Hs1.
    match type of E with match (if ?b then ?x else ?y) with _ => _ end = _ => destruct b end;
      match type of E with match ?x with _ => _ end = _ => destruct x as [r|] eqn:E1 end;
      [injection E as <-; exact (Hs1 _ _ _ E1)|exact (Hs1 _ _ _ E)|injection E as <-; exact (Hs1 _ _ _ E1)|exact (Hs1 _ _ _ E)]. }
  destruct (mp_physaddr m q =? 0) eqn:E0; [done|]. unfold conf_sig.
  destruct (bool_decide (mload (mp_physaddr m q) 4 m = str "PCMP")) eqn:E1; [|done]. apply bool_decide_eq_true in E1. simpl.
  destruct (Z.eqb_spec (conf_version m (mp_physaddr m q)) 1), (Z.eqb_spec (conf_version m (mp_physaddr m q)) 4); simpl; try done;
    (destruct (Z.eqb_spec (sum (mload (mp_physaddr m q) (Z.to_nat (conf_length m (mp_physaddr m q))) m)) 0) as [E2|E2]; simpl; [|done]); intros [= <- <-]; (split; [exact Hv|]; split; [done|]; split; [exact E1|]; split; [(by left) || (by right)|exact E2]).
Qed.

Section Spec.
Context {C : Type} `{Hw C}.
Implicit Types (s : mps C) (m : memory).

Lemma wp_mp_entries fuel m p es e ismp s (Q : bool → mps C → Prop) :
  table m p es e → (length es ≤ fuel)%nat → (length (mp_cpus s) ≤ NCPU)%nat →
  (∀ s', mp_cpus s' = take NCPU (mp_cpus s ++ procs es) → mp_ioapicid s' = default (mp_ioapicid s) (last (ioapics es)) →
     mp_lapic s' = mp_lapic s → Q ismp s') → wp (mp_entries fuel m p e ismp) Q s.
Proof.
  revert fuel p s. induction es as [|x es IH]; intros fuel p s Ht Hfu Hc HQ.
  { simpl in Ht. subst p. assert (mp_entries fuel m e e ismp = mret ismp) as -> by (destruct fuel; cbn [mp_entries]; by rewrite (proj2 (Z.ltb_ge e e)) by lia).
    apply wp_ret, HQ; try done. simpl. by rewrite app_nil_r, take_ge. }
  destruct Ht as [Hx Ht]. pose proof (table_le _ _ _ _ Ht) as Hle. destruct fuel as [|fuel]; [simpl in Hfu; lia|]. simpl in Hfu. cbn [mp_entries].
  assert (p < e) by (destruct x; simpl in Hle; lia). rewrite (proj2 (Z.ltb_lt _ _)) by done. simpl negb. cbv iota. destruct x as [id|no|t]; simpl in Hx, Ht.
  - destruct Hx as [-> ->]. rewrite Z.eqb_refl. apply wp_bind, wp_modify. apply IH; [done|lia|unfold add_cpu; destruct (Nat.ltb_spec (length (mp_cpus s)) NCPU); simpl; [rewrite length_app; simpl; lia|done]|].
    intros s' E1 E2 E3. apply HQ.
    + rewrite E1. unfold add_cpu. destruct (Nat.ltb_spec (length (mp_cpus s)) NCPU); simpl; [by rewrite <- app_assoc|]. by rewrite !take_app_length' by lia.
    + rewrite E2. unfold add_cpu. by case_match.
    + rewrite E3. unfold add_cpu. by case_match.
  - destruct Hx as [-> ->]. apply wp_bind, wp_modify. apply IH; [done|lia|done|]. simpl. intros s' E1 E2 E3. apply HQ; [done| |done]. rewrite E2.
    change (ioapics (EIoapic no :: es)) with (no :: ioapics es). rewrite last_cons. by destruct (last (ioapics es)).
  - destruct Hx as [-> Ht']. assert (t ≠ MPPROC ∧ t ≠ MPIOAPIC ∧ (t =? MPBUS) || (t =? MPIOINTR) || (t =? MPLINTR) = true) as (N1 & N2 & N3) by (destruct Ht' as [->|[->| ->]]; done).
    rewrite (proj2 (Z.eqb_neq _ _) N1), (proj2 (Z.eqb_neq _ _) N2), N3. apply IH; [done|lia|done|done].
Qed.

(** An entry of another type: the loop stays at it for ever. *)
Lemma mp_entries_stuck fuel m p e ismp s :
  p < e → m p ∉ [MPPROC; MPBUS; MPIOAPIC; MPIOINTR; MPLINTR] → mp_entries fuel m p e ismp s = NoFuel.
Proof.
  intros Hp Hm. revert ismp. induction fuel as [|fuel IH]; intros ismp; cbn [mp_entries]; rewrite (proj2 (Z.ltb_lt _ _)) by done; [done|].
  simpl negb. cbv iota. assert (m p ≠ MPPROC ∧ m p ≠ MPIOAPIC ∧ m p ≠ MPBUS ∧ m p ≠ MPIOINTR ∧ m p ≠ MPLINTR) as (N1 & N2 & N3 & N4 & N5) by set_solver.
  rewrite !(proj2 (Z.eqb_neq _ _)) by done. apply IH.
Qed.
Lemma mp_entries_hang fuel m p es p' e ismp s :
  table m p es p' → p' < e → m p' ∉ [MPPROC; MPBUS; MPIOAPIC; MPIOINTR; MPLINTR] → mp_entries fuel m p e ismp s = NoFuel.
Proof.
  intros Ht Hp Hm. revert fuel p s Ht. induction es as [|x es IH]; intros fuel p s Ht.
  { simpl in Ht. subst. by apply mp_entries_stuck. }
  destruct Ht as [Hx Ht]. pose proof (table_le _ _ _ _ Ht) as Hle. assert (p < e) as Hlt by (destruct x; simpl in Hle; lia).
  destruct fuel as [|fuel]; cbn [mp_entries]; rewrite (proj2 (Z.ltb_lt _ _)) by done; [done|]. simpl negb. cbv iota. destruct x as [id|no|t]; simpl in Hx, Ht.
  - destruct Hx as [-> _]. rewrite Z.eqb_refl. unfold mbind, M_bind, modify. simpl. by apply IH.
  - destruct Hx as [-> _]. unfold mbind, M_bind, modify. simpl. by apply IH.
  - destruct Hx as [-> Ht']. assert (t ≠ MPPROC ∧ t ≠ MPIOAPIC ∧ (t =? MPBUS) || (t =? MPIOINTR) || (t =? MPLINTR) = true) as (N1 & N2 & N3) by (destruct Ht' as [->|[->| ->]]; done).
    rewrite (proj2 (Z.eqb_neq _ _) N1), (proj2 (Z.eqb_neq _ _) N2), N3. by apply IH.
Qed.
End Spec.


(** Tables with one processor and one I/O APIC. *)
Definition with_sum (a b : list Z) : list Z := a ++ [u8 (- foldl Z.add 0 (a ++ b))] ++ b.
Definition demo_mp : list Z := with_sum (str "_MP_" ++ le_put 4 0x9fd00 ++ [1; 4]) [0; 0; 0; 0; 0].
Definition demo_conf : list Z := with_sum (str "PCMP" ++ le_put 2 72 ++ [4])
  (replicate 20 0 ++ le_put 4 0 ++ le_put 2 0 ++ le_put 2 2 ++ le_put 4 0xfee00000 ++ replicate 4 0 ++ [0; 3] ++ replicate 18 0 ++ [2; 9] ++ replicate 6 0).
Definition demo_tables : memory := mstore 0x9fc00 demo_mp (mstore 0x9fd00 demo_conf (mstore 0x40e [0xc0; 0x9f] (λ _, 0))).
Definition demo_mps : mps demo_ctl := mkMps [] 0 0 (mkCtl (λ _, 0) AtaIdle (λ _ _, []) false).

