(* ===== verification/Gates.v ===== *)
(** * Gates: segments and the interrupt descriptor table (mmu.h, [seginit], [tvinit])

    A descriptor is a C struct of bit fields, which the compiler packs into eight
    bytes; the processor takes the bytes apart at positions of its own
    ([cpu_base] and the like, from the processor's manual).  The theorem says
    what the tables the kernel loads mean to the processor: which code may enter
    the kernel, and where. *)

From S2P Require Import Prelude State Proc Syscall.

Definition SEG_KCODE : Z := 1.
Definition SEG_KDATA : Z := 2.
Definition SEG_TSS : Z := 5.
Definition NSEGS : nat := 6.
Definition STA_X : Z := 0x8.
Definition STA_W : Z := 0x2.
Definition STA_R : Z := 0x2.
Definition STS_T32A : Z := 0x9.
Definition STS_IG32 : Z := 0xE.
Definition STS_TG32 : Z := 0xF.

Record segdesc := mkSegdesc {
  lim_15_0 : Z; base_15_0 : Z; base_23_16 : Z; sd_type : Z; sd_s : Z; sd_dpl : Z; sd_p : Z;
  lim_19_16 : Z; sd_avl : Z; sd_rsv1 : Z; sd_db : Z; sd_g : Z; base_31_24 : Z }.
Definition segdesc0 : segdesc := mkSegdesc 0 0 0 0 0 0 0 0 0 0 0 0 0.

Definition SEG (type base lim dpl : Z) : segdesc :=
  mkSegdesc (Z.land (Z.shiftr lim 12) 0xffff) (Z.land base 0xffff) (Z.land (Z.shiftr base 16) 0xff) type 1 dpl 1
    (Z.shiftr lim 28) 0 0 1 1 (Z.shiftr base 24).
Definition SEG16 (type base lim dpl : Z) : segdesc :=
  mkSegdesc (Z.land lim 0xffff) (Z.land base 0xffff) (Z.land (Z.shiftr base 16) 0xff) type 1 dpl 1
    (Z.shiftr lim 16) 0 0 1 0 (Z.shiftr base 24).

Record gatedesc := mkGatedesc {
  off_15_0 : Z; gd_cs : Z; gd_args : Z; gd_rsv1 : Z; gd_type : Z; gd_s : Z; gd_dpl : Z; gd_p : Z; off_31_16 : Z }.
Definition SETGATE (istrap : bool) (sel off d : Z) : gatedesc :=
  mkGatedesc (Z.land off 0xffff) sel 0 0 (if istrap then STS_TG32 else STS_IG32) 0 d 1 (Z.shiftr off 16).

(** The table of one processor; the entry of the task state is set by [switchuvm]. *)
Definition seginit (gdt : list segdesc) : list segdesc :=
  <[Z.to_nat SEG_UDATA := SEG STA_W 0 0xffffffff DPL_USER]>
  (<[Z.to_nat SEG_UCODE := SEG (Z.lor STA_X STA_R) 0 0xffffffff DPL_USER]>
  (<[Z.to_nat SEG_KDATA := SEG STA_W 0 0xffffffff 0]>
  (<[Z.to_nat SEG_KCODE := SEG (Z.lor STA_X STA_R) 0 0xffffffff 0]> gdt))).

(** [vectors]: the entry points of vectors.S. *)
Definition tvinit (vectors : nat → Z) (idt : list gatedesc) : list gatedesc :=
  <[Z.to_nat T_SYSCALL := SETGATE true (Z.shiftl SEG_KCODE 3) (vectors (Z.to_nat T_SYSCALL)) DPL_USER]>
  (foldl (λ idt i, <[i := SETGATE false (Z.shiftl SEG_KCODE 3) (vectors i) 0]> idt) idt (seq 0 256)).

(** ** The processor's view *)

(** Bit fields packed from the least significant bit on: values and widths. *)
Fixpoint pack (fs : list (Z * Z)) : Z :=
  match fs with [] => 0 | (v, w) :: fs' => v mod 2 ^ w + 2 ^ w * pack fs' end.
Definition seg_bits (d : segdesc) : Z :=
  pack [(lim_15_0 d, 16); (base_15_0 d, 16); (base_23_16 d, 8); (sd_type d, 4); (sd_s d, 1); (sd_dpl d, 2); (sd_p d, 1);
        (lim_19_16 d, 4); (sd_avl d, 1); (sd_rsv1 d, 1); (sd_db d, 1); (sd_g d, 1); (base_31_24 d, 8)].
Definition gate_bits (g : gatedesc) : Z :=
  pack [(off_15_0 g, 16); (gd_cs g, 16); (gd_args g, 5); (gd_rsv1 g, 3); (gd_type g, 4); (gd_s g, 1); (gd_dpl g, 2); (gd_p g, 1); (off_31_16 g, 16)].

(** Bits [lo] to [lo + w - 1] of a descriptor. *)
Definition bits (x lo w : Z) : Z := x / 2 ^ lo mod 2 ^ w.
Definition cpu_base (x : Z) : Z := bits x 16 24 + 2 ^ 24 * bits x 56 8.
Definition cpu_limit (x : Z) : Z :=
  let l := bits x 0 16 + 2 ^ 16 * bits x 48 4 in if bits x 55 1 =? 1 then 4096 * l + 4095 else l.
Definition cpu_dpl (x : Z) : Z := bits x 45 2.
Definition cpu_present (x : Z) : bool := bits x 47 1 =? 1.
Definition cpu_type (x : Z) : Z := bits x 40 4.
Definition cpu_system (x : Z) : bool := bits x 44 1 =? 0.
Definition cpu_offset (x : Z) : Z := bits x 0 16 + 2 ^ 16 * bits x 48 16.
Definition cpu_selector (x : Z) : Z := bits x 16 16.

(** Code or data that may be used at privilege level [cpl]. *)
Definition flat_code (x dpl : Z) : Prop := cpu_present x = true ∧ cpu_system x = false ∧ cpu_base x = 0 ∧ cpu_limit x = 2 ^ 32 - 1 ∧
  cpu_dpl x = dpl ∧ Z.land (cpu_type x) 8 = 8.
Definition flat_data (x dpl : Z) : Prop := cpu_present x = true ∧ cpu_system x = false ∧ cpu_base x = 0 ∧ cpu_limit x = 2 ^ 32 - 1 ∧
  cpu_dpl x = dpl ∧ Z.land (cpu_type x) 10 = 2.
(** The instruction [int n] at level [cpl] may use the gate. *)
Definition int_allowed (x cpl : Z) : bool := cpu_present x && (cpl <=? cpu_dpl x).
(** The gate turns interrupts off on entry. *)
Definition int_off (x : Z) : bool := cpu_type x =? 0xE.

Section Tables.
Lemma gate_decode istrap sel off d : 0 ≤ off < 2 ^ 32 → 0 ≤ sel < 2 ^ 16 → 0 ≤ d < 4 →
  let x := gate_bits (SETGATE istrap sel off d) in
  cpu_offset x = off ∧ cpu_selector x = sel ∧ cpu_dpl x = d ∧ cpu_present x = true ∧ cpu_system x = true ∧ cpu_type x = if istrap then 0xF else 0xE.
Proof.
  intros Ho Hs Hd x.
  assert (x = off mod 2 ^ 16 + 2 ^ 16 * (sel + 2 ^ 16 * (2 ^ 8 * ((if istrap then 0xF else 0xE) + 2 ^ 4 * (2 * (d + 4 * (1 + 2 * (off / 2 ^ 16)))))))) as ->.
  { unfold x, gate_bits, SETGATE, STS_TG32, STS_IG32. cbn [off_15_0 gd_cs gd_args gd_rsv1 gd_type gd_s gd_dpl gd_p off_31_16 pack].
    change 0xffff with (Z.ones 16). rewrite Z.land_ones, Z.shiftr_div_pow2, Z.mod_mod by lia. rewrite (Z.mod_small sel), (Z.mod_small d) by lia.
    rewrite (Z.mod_small (off / 2 ^ 16)) by (Z.div_mod_to_equations; lia). destruct istrap; change (0 mod 2 ^ 5) with 0; change (0 mod 2 ^ 3) with 0; change (0 mod 2 ^ 1) with 0; change (1 mod 2 ^ 1) with 1;
      [change (15 mod 2 ^ 4) with 15|change (14 mod 2 ^ 4) with 14]; lia. }
  pose proof (Z.mod_pos_bound off (2 ^ 16) ltac:(lia)) as Hlo. pose proof (Z.div_mod off (2 ^ 16) ltac:(lia)) as Eo.
  assert (0 ≤ off / 2 ^ 16 < 2 ^ 16) as Hhi by (Z.div_mod_to_equations; lia).
  generalize dependent (off mod 2 ^ 16). generalize dependent (off / 2 ^ 16). intros hi Hhi lo Hlo Eo. rewrite Eo. clear Eo Ho.
  unfold cpu_offset, cpu_selector, cpu_dpl, cpu_present, cpu_system, cpu_type, bits. destruct istrap; repeat split; try apply Z.eqb_eq; Z.div_mod_to_equations; lia.
Qed.

Lemma tvinit_lookup vectors idt n : length idt = 256%nat → (n < 256)%nat →
  tvinit vectors idt !! n = Some (if decide (n = Z.to_nat T_SYSCALL) then SETGATE true (Z.shiftl SEG_KCODE 3) (vectors n) DPL_USER
                                  else SETGATE false (Z.shiftl SEG_KCODE 3) (vectors n) 0).
Proof.
  intros Hl Hn. unfold tvinit. set (f := λ (idt : list gatedesc) (i : nat), <[i := SETGATE false (Z.shiftl SEG_KCODE 3) (vectors i) 0]> idt).
  assert (∀ k, (k ≤ 256)%nat → length (foldl f idt (seq 0 k)) = 256%nat ∧
    ∀ j, (j < k)%nat → foldl f idt (seq 0 k) !! j = Some (SETGATE false (Z.shiftl SEG_KCODE 3) (vectors j) 0)) as Hk.
  { induction k as [|k IH]; intros Hk; [split; [done|]; intros j Hj; lia|]. destruct (IH ltac:(lia)) as [Hlen Hj]. rewrite seq_S, foldl_app. cbn [foldl Nat.add]. unfold f at 1 3.
    rewrite length_insert. split; [done|]. intros j Hj'. destruct (decide (j = k)) as [->|Hne]; [apply list_lookup_insert_eq; lia|].
    rewrite list_lookup_insert_ne by done. apply Hj. lia. }
  destruct (Hk 256%nat ltac:(lia)) as [Hlen Hj]. case_decide as E.
  - rewrite E. apply list_lookup_insert_eq. rewrite Hlen. unfold T_SYSCALL. lia.
  - rewrite list_lookup_insert_ne by done. by apply Hj.
Qed.
Lemma seginit_lookup gdt : length gdt = NSEGS →
  seginit gdt !! Z.to_nat SEG_KCODE = Some (SEG (Z.lor STA_X STA_R) 0 0xffffffff 0) ∧ seginit gdt !! Z.to_nat SEG_KDATA = Some (SEG STA_W 0 0xffffffff 0) ∧
  seginit gdt !! Z.to_nat SEG_UCODE = Some (SEG (Z.lor STA_X STA_R) 0 0xffffffff DPL_USER) ∧ seginit gdt !! Z.to_nat SEG_UDATA = Some (SEG STA_W 0 0xffffffff DPL_USER).
Proof. intros Hl. do 7 (destruct gdt as [|? gdt]; [done|]). done. Qed.
End Tables.

(** C19. The descriptor tables protect the kernel.  To the processor, every gate
    leads to its own entry point in vectors.S, in a present flat ring-0 code
    segment; a program in ring 3 may use [int n] only for the system call vector;
    entry turns interrupts off except there.  The kernel's segments have
    privilege 0 and the user's privilege 3, each a present, flat segment of code
    or of writable data. *)
Theorem gates_guard (vectors : nat → Z) (idt : list gatedesc) (gdt : list segdesc) :
  length idt = 256%nat → length gdt = NSEGS → (∀ n, (n < 256)%nat → 0 ≤ vectors n < 2 ^ 32) →
  (∀ n, (n < 256)%nat → ∃ g, tvinit vectors idt !! n = Some g ∧ let x := gate_bits g in
     cpu_offset x = vectors n ∧ cpu_selector x = 8 * SEG_KCODE ∧ cpu_present x = true ∧ cpu_system x = true ∧
     int_allowed x 3 = bool_decide (Z.of_nat n = T_SYSCALL) ∧ int_off x = negb (bool_decide (Z.of_nat n = T_SYSCALL))) ∧
  (∃ kc kd uc ud, seginit gdt !! Z.to_nat SEG_KCODE = Some kc ∧ seginit gdt !! Z.to_nat SEG_KDATA = Some kd ∧
     seginit gdt !! Z.to_nat SEG_UCODE = Some uc ∧ seginit gdt !! Z.to_nat SEG_UDATA = Some ud ∧
     flat_code (seg_bits kc) 0 ∧ flat_data (seg_bits kd) 0 ∧ flat_code (seg_bits uc) 3 ∧ flat_data (seg_bits ud) 3).
Proof.
  intros Hi Hg Hv. split.
  - intros n Hn. rewrite (tvinit_lookup vectors idt n Hi Hn). eexists. split; [reflexivity|]. cbv zeta. unfold int_allowed, int_off. case_decide as E.
    + destruct (gate_decode true (Z.shiftl SEG_KCODE 3) (vectors n) DPL_USER (Hv n Hn) ltac:(done) ltac:(done)) as (E1 & E2 & E3 & E4 & E5 & E6).
      rewrite E1, E2, E3, E4, E5, E6. rewrite bool_decide_true by (rewrite E; done). by split_and!.
    + destruct (gate_decode false (Z.shiftl SEG_KCODE 3) (vectors n) 0 (Hv n Hn) ltac:(done) ltac:(done)) as (E1 & E2 & E3 & E4 & E5 & E6).
      rewrite E1, E2, E3, E4, E5, E6. rewrite bool_decide_false by (unfold T_SYSCALL in *; lia). by split_and!.
  - destruct (seginit_lookup gdt Hg) as (E1 & E2 & E3 & E4). do 4 eexists. rewrite E1, E2, E3, E4. do 4 (split; [reflexivity|]).
    split; [|split; [|split]]; vm_compute; by repeat split.
Qed.

Lemma gates_guard_witness : ∃ g, tvinit (λ n, 0x80105000 + Z.of_nat n) (replicate 256 (mkGatedesc 0 0 0 0 0 0 0 0 0)) !! 14%nat = Some g ∧
  cpu_offset (gate_bits g) = 0x8010500e ∧ int_allowed (gate_bits g) 3 = false.
Proof.
  destruct (gates_guard (λ n, 0x80105000 + Z.of_nat n) (replicate 256 (mkGatedesc 0 0 0 0 0 0 0 0 0)) (replicate NSEGS segdesc0) eq_refl eq_refl ltac:(intros n Hn; lia)) as [Hg _].
  destruct (Hg 14%nat ltac:(lia)) as (g & E & E1 & _ & _ & _ & E2 & _). exists g. split; [exact E|]. split; [exact E1|exact E2].
Defined.
