(* ===== verification/Smp.v ===== *)
(** * Smp: starting the other processors ([startothers] and [entrypgdir] of main.c, [mycpu] and [cpuid] of proc.c)

    The boot processor copies entryother.S to low memory, leaves three words
    before it and sends interrupts through its local APIC; each other processor
    then runs that code.  What the others do is a parameter, a step they take
    whenever the boot processor looks at [c->started], that sees the memory
    ([Others]).  [ApLaws] states how a processor answers the start-up interrupt.
    The theorem says which processors start, in which memory. *)

From S2P Require Import Prelude State Kalloc Vm Hw Syscall Apic.

Definition PTE_PS : Z := 0x080.
Definition entrypgdir : list Z :=
  <[Z.to_nat (Z.shiftr KERNBASE 22) := Z.lor (Z.lor (Z.lor 0 PTE_P) PTE_W) PTE_PS]>
  (<[0%nat := Z.lor (Z.lor (Z.lor 0 PTE_P) PTE_W) PTE_PS]> (replicate NPDENTRIES 0)).

(** The kernel, the bytes of memory below it by kernel address, and the devices. *)
Record smp (C : Type) := mkSmp { sm_k : kernel; sm_low : Z → Z; sm_hw : C }.
Arguments mkSmp {C}. Arguments sm_k {C}. Arguments sm_low {C}. Arguments sm_hw {C}.
#[export] Instance smp_has_hw C : HasHw (smp C) C := { hw := sm_hw; set_hw c s := mkSmp (sm_k s) (sm_low s) c }.
#[export] Instance smp_has_hw_laws C : HasHwLaws (smp C) C.
Proof. split; try done. by intros []. Qed.
#[export] Instance smp_has_k C : Within (smp C) kernel := { part := sm_k; set_part k s := mkSmp k (sm_low s) (sm_hw s) }.

(** The other processors: a step of theirs, and [cpus[i].started]. *)
Class Others (C : Type) := { oth_run : (Z → Z) → C → C; oth_started : C → nat → Z }.

(** ** The code *)

(** [lapic]; the fields [apicid] of [cpus], [ncpu] of them. *)
Section Code.
Context {C : Type} `{Hw C} `{Others C} `{PollBound} (lapic : Z) (cpus : list Z).

(** [if_on]: the interrupt flag.  The result is the index in [cpus]. *)
Definition mycpu {S} `{HasHw S C} (if_on : bool) : M S nat :=
  if if_on then panic "mycpu called with interrupts enabled" else
  apicid ← lapicid lapic;
  match list_find (λ a, a = apicid) cpus with
  | Some (i, _) => mret i
  | None => panic "unknown apicid"
  end.
Definition cpuid {S} `{HasHw S C} (if_on : bool) : M S Z := c ← mycpu if_on; mret (Z.of_nat c).

Definition store_low (a : Z) (bs : list Z) : M (smp C) unit := modify (λ s, mkSmp (sm_k s) (mstore a bs (sm_low s)) (sm_hw s)).
(** [wrv[k] = v] of [lapicstartap]. *)
Definition store_wrv (k : nat) (v : Z) : M (smp C) unit := store_low (KERNBASE + 0x467 + 2 * Z.of_nat k) (le_put 2 v).
Definition load_started (c : nat) : M (smp C) Z := λ s,
  let h := oth_run (sm_low s) (sm_hw s) in Ok (oth_started h c) (set_hw h s).
Fixpoint wait_started (n : nat) (c : nat) : M (smp C) unit :=
  v ← load_started c;
  if negb (v =? 0) then mret tt else match n with O => nofuel | S n' => wait_started n' c end.

(** [entryother] is the image of entryother.S; [mpenter] and [pgdir] are the
    addresses of [mpenter] and [entrypgdir].  The page [kalloc] returns is not
    tested. *)
Definition startothers (entryother : list Z) (mpenter pgdir : Z) : M (smp C) unit :=
  code ← lift (P2V 0x7000);
  store_low code entryother ;;
  forM (seq 0 (length cpus)) (λ c,
    me ← mycpu false;
    if decide (c = me) then mret tt else
    stack ← lift kalloc;
    store_low (code - 4) (le_put 4 (u32 (stack + KSTACKSIZE))) ;;
    store_low (code - 8) (le_put 4 mpenter) ;;
    pg ← lift (V2P pgdir);
    store_low (code - 12) (le_put 4 pg) ;;
    apicid ← deref (cpus !! c);
    pa ← lift (V2P code);
    lapicstartap lapic store_wrv apicid pa ;;
    wait_started poll_bound c).
End Code.

(** ** What the processors do *)

(** A processor that started: its APIC id, the address of its first
    instruction, and the memory it saw then. *)
Record start := mkStart { st_id : Z; st_addr : Z; st_mem : Z → Z }.

(** The start-up interrupt, written to the low command word for the processor
    selected in the high one, names a page of memory; within [poll_bound] looks
    of the boot processor the other one runs from there and sets its flag. *)
Class ApLaws (C : Type) `{Hw C} `{Others C} `{PollBound} (lapic : Z) (cpus : list Z) := {
  ap_self : C → Z;
  ap_sel : C → Z;
  ap_pending : C → option (Z * Z);
  ap_log : C → list start;
  ap_delay : C → nat;
  ap_same c c' := ap_self c' = ap_self c ∧ ap_log c' = ap_log c ∧ ∀ i, oth_started c' i = oth_started c i;
  ap_bound : ∀ c, (ap_delay c ≤ poll_bound)%nat;
  ap_id : ∀ c, 0 ≤ ap_self c < 256;
  ap_out : ∀ c p v, p = CMOS_PORT ∨ p = CMOS_PORT + 1 → let c' := hw_out p v c in ap_same c c';
  ap_load : ∀ c, let r := hw_load (lapic + 4 * ID) c in r.1 = Z.shiftl (ap_self c) 24 ∧ ap_same c r.2 ∧
    ap_sel r.2 = ap_sel c ∧ ap_pending r.2 = ap_pending c;
  ap_hi : ∀ c v, 0 ≤ v < 2 ^ 32 → let c' := hw_store (lapic + 4 * ICRHI) v c in ap_same c c' ∧ ap_sel c' = v ∧ ap_pending c' = ap_pending c;
  ap_lo : ∀ c v, 0 ≤ v < 2 ^ 32 → let c' := hw_store (lapic + 4 * ICRLO) v c in ap_same c c' ∧ ap_sel c' = ap_sel c ∧
    ap_pending c' = if Z.land v 0x700 =? 0x600 then Some (Z.shiftr (ap_sel c) 24, Z.land v 0xff) else ap_pending c;
  ap_run : ∀ c m id vec, ap_pending c = Some (id, vec) → let c' := oth_run m c in
    if decide (ap_delay c = O) then
      ap_self c' = ap_self c ∧ ap_log c' = ap_log c ++ [mkStart id (vec * 4096) m] ∧
      ∀ i, oth_started c' i = if decide (cpus !! i = Some id) then 1 else oth_started c i
    else ap_same c c' ∧ ap_pending c' = Some (id, vec) ∧ (ap_delay c' < ap_delay c)%nat }.

Lemma mload_mstore_same a bs m : mload a (length bs) (mstore a bs m) = bs.
Proof.
  apply list_eq. intros i. unfold mload. rewrite list_lookup_fmap. destruct (decide (i < length bs)%nat) as [Hi|Hi].
  - rewrite lookup_seq_lt by done. simpl. unfold mstore. rewrite (proj2 (Z.leb_le _ _)), (proj2 (Z.ltb_lt _ _)) by lia. simpl.
    replace (Z.to_nat _) with i by lia. destruct (lookup_lt_is_Some_2 bs i Hi) as [x ->]. done.
  - rewrite lookup_seq_ge by lia. rewrite lookup_ge_None_2 by lia. done.
Qed.
Lemma mload_mstore_ne a n b bs m : a + Z.of_nat n ≤ b ∨ b + Z.of_nat (length bs) ≤ a → mload a n (mstore b bs m) = mload a n m.
Proof.
  intros Hd. unfold mload. apply list_fmap_ext. intros i k Hk. apply lookup_seq in Hk as [-> Hk]. unfold mstore.
  destruct (b <=? _) eqn:E1; [|done]. destruct (_ <? b + _) eqn:E2; [|done]. apply Z.leb_le in E1. apply Z.ltb_lt in E2. lia.
Qed.

(** The page directory the processors start with maps the first four megabytes
    twice, and nothing else.  [large_page]: how the processor reads an entry
    for a page of four megabytes. *)
Definition large_page (pgdir : list Z) (va : Z) : option Z :=
  pde ← pgdir !! Z.to_nat (Z.shiftr va 22);
  if (Z.land pde PTE_P =? 0) || (Z.land pde PTE_PS =? 0) then None else Some (pde / 2 ^ 22 * 2 ^ 22 + va mod 2 ^ 22).
Lemma entrypgdir_maps va : 0 ≤ va < 2 ^ 32 →
  large_page entrypgdir va =
    if (va <? 2 ^ 22) || (KERNBASE <=? va) && (va <? KERNBASE + 2 ^ 22) then Some (va mod 2 ^ 22) else None.
Proof.
  intros Hva. unfold large_page. rewrite Z.shiftr_div_pow2 by lia. set (k := Z.to_nat (va / 2 ^ 22)).
  assert (Z.of_nat k = va / 2 ^ 22) as Ek by (unfold k; rewrite Z2Nat.id; [done|]; apply Z.div_pos; lia).
  assert (k < 1024)%nat as Hk by (Z.div_mod_to_equations; lia). unfold KERNBASE.
  assert (entrypgdir !! k = Some (if decide (k = 0 ∨ k = 512)%nat then 0x83 else 0)) as ->.
  { unfold entrypgdir. change (Z.to_nat (Z.shiftr KERNBASE 22)) with 512%nat. change (Z.lor _ PTE_PS) with 0x83. change NPDENTRIES with 1024%nat.
    destruct (decide (k = 512%nat)) as [->|H1]; [by rewrite list_lookup_insert_eq by (rewrite length_insert, length_replicate; lia)|].
    rewrite list_lookup_insert_ne by done. destruct (decide (k = 0%nat)) as [->|H2]; [by rewrite list_lookup_insert_eq by (rewrite length_replicate; lia)|].
    rewrite list_lookup_insert_ne by done. rewrite lookup_replicate_2 by done. rewrite decide_False by lia. done. }
  cbn [mbind option_bind]. destruct (Z.ltb_spec va (2 ^ 22)); destruct (Z.leb_spec 2147483648 va); destruct (Z.ltb_spec va (2147483648 + 2 ^ 22));
    destruct (decide _) as [Hd|Hd]; cbn [orb andb]; try done; exfalso; Z.div_mod_to_equations; lia.
Qed.

Section Spec.
Context {C : Type} `{HHw : Hw C} `{HOth : Others C} `{HPoll : PollBound} `{HEnd : KernEnd} (lapic : Z) (cpus : list Z) `{!ApLaws C lapic cpus}.
Implicit Types (s : smp C) (c : C).

Lemma ap_same_refl c : ap_same c c.
Proof. by repeat split. Qed.
Lemma ap_same_trans c1 c2 c3 : ap_same c1 c2 → ap_same c2 c3 → ap_same c1 c3.
Proof. intros (A1 & B1 & D1) (A2 & B2 & D2). split; [congruence|]. split; [congruence|]. intros i. by rewrite D2. Qed.

Lemma wp_icrhi v s (Q : unit → smp C → Prop) : 0 ≤ v < 2 ^ 32 →
  (∀ c, ap_same (hw s) c → ap_sel c = v → ap_pending c = ap_pending (hw s) → Q tt (set_hw c s)) → wp (lapicw lapic ICRHI v) Q s.
Proof.
  intros Hv HQ. unfold lapicw, mmio_write, mmio_read, wp, mbind, M_bind. simpl. rewrite (u32_small v) by done.
  destruct (ap_hi (hw s) v Hv) as (A & B & D). destruct (ap_load (hw_store (lapic + 4 * ICRHI) v (hw s))) as (_ & A' & B' & D').
  apply HQ; [exact (ap_same_trans _ _ _ A A')|exact (eq_trans B' B)|exact (eq_trans D' D)].
Qed.
Lemma wp_icrlo v s (Q : unit → smp C → Prop) : 0 ≤ v < 2 ^ 32 →
  (∀ c, ap_same (hw s) c → ap_sel c = ap_sel (hw s) →
     ap_pending c = (if Z.land v 0x700 =? 0x600 then Some (Z.shiftr (ap_sel (hw s)) 24, Z.land v 0xff) else ap_pending (hw s)) → Q tt (set_hw c s)) →
  wp (lapicw lapic ICRLO v) Q s.
Proof.
  intros Hv HQ. unfold lapicw, mmio_write, mmio_read, wp, mbind, M_bind. simpl. rewrite (u32_small v) by done.
  destruct (ap_lo (hw s) v Hv) as (A & B & D). destruct (ap_load (hw_store (lapic + 4 * ICRLO) v (hw s))) as (_ & A' & B' & D').
  apply HQ; [exact (ap_same_trans _ _ _ A A')|exact (eq_trans B' B)|exact (eq_trans D' D)].
Qed.

(** The boot processor finds itself. *)
Lemma wp_mycpu b s (Q : nat → smp C → Prop) : lapic ≠ 0 → NoDup cpus → cpus !! b = Some (ap_self (hw s)) →
  (∀ c, ap_same (hw s) c → Q b (set_hw c s)) → wp (mycpu lapic cpus false) Q s.
Proof.
  intros Hl Hnd Hb HQ. unfold mycpu, lapicid. rewrite (proj2 (Z.eqb_neq _ _) Hl). destruct (ap_load (hw s)) as (E & A & _). pose proof (ap_id (hw s)) as Hid.
  unfold mmio_read, wp, mbind, M_bind. simpl. change (sm_hw s) with (hw s). rewrite E, u32_small by (rewrite Z.shiftl_mul_pow2 by lia; lia). rewrite Z.shiftr_shiftl_l by lia. rewrite Z.shiftl_0_r.
  destruct (list_find_elem_of (λ a, a = ap_self (hw s)) cpus (ap_self (hw s))) as [[i x] Hf]; [by eapply list_elem_of_lookup_2|done|].
  rewrite Hf. apply list_find_Some in Hf as (Hi & -> & _). rewrite (NoDup_lookup _ _ _ _ Hnd Hi Hb). by apply HQ.
Qed.

(** The start-up sequence leaves a start-up interrupt for page 7 pending. *)
Lemma wp_lapicstartap id s (Q : unit → smp C → Prop) : 0 ≤ id < 256 →
  (∀ c, ap_same (hw s) c → ap_pending c = Some (id, 7) →
     Q tt (mkSmp (sm_k s) (mstore (KERNBASE + 0x469) (le_put 2 0x700) (mstore (KERNBASE + 0x467) (le_put 2 0) (sm_low s))) c)) →
  wp (lapicstartap lapic store_wrv id 0x7000) Q s.
Proof.
  intros Hid HQ. assert (0 ≤ Z.shiftl id 24 < 2 ^ 32) as Hs by (rewrite Z.shiftl_mul_pow2 by lia; lia).
  assert (Z.shiftr (Z.shiftl id 24) 24 = id) as Er by (rewrite Z.shiftr_shiftl_l by lia; apply Z.shiftl_0_r).
  unfold lapicstartap. apply wp_bind, wp_outb, wp_bind, wp_outb, wp_bind, wp_modify, wp_bind, wp_modify. rewrite ?hw_set, ?set_hw_set.
  pose proof (ap_out (hw s) CMOS_PORT (u8 0xF) ltac:(by left)) as A1. set (c1 := hw_out CMOS_PORT (u8 0xF) (hw s)) in *.
  pose proof (ap_out c1 (CMOS_PORT + 1) (u8 0x0A) ltac:(by right)) as A2. set (c2 := hw_out (CMOS_PORT + 1) (u8 0x0A) c1) in *.
  apply wp_bind, wp_icrhi; [done|]. intros c3 A3 B3 _. apply wp_bind, wp_icrlo; [done|]. intros c4 A4 B4 _.
  apply wp_bind, wp_ret, wp_bind, wp_icrlo; [done|]. intros c5 A5 B5 _. apply wp_bind, wp_ret. rewrite !hw_set in *. rewrite !set_hw_set.
  cbn [seq forM]. apply wp_bind, wp_bind, wp_icrhi; [done|]. intros c6 A6 B6 _. apply wp_bind, wp_icrlo; [done|]. intros c7 A7 B7 D7. apply wp_ret.
  apply wp_bind, wp_bind, wp_icrhi; [done|]. intros c8 A8 B8 _. apply wp_bind, wp_icrlo; [done|]. intros c9 A9 B9 D9. apply wp_ret, wp_ret.
  rewrite !hw_set in *. rewrite !set_hw_set. apply HQ; [|rewrite D9, B8; cbn -[Z.shiftr Z.shiftl]; by rewrite Er].
  repeat (eapply ap_same_trans; [eassumption|]). apply ap_same_refl.
Qed.

(** The wait ends when the processor has started. *)
Lemma wp_wait_started n i id vec s (Q : unit → smp C → Prop) :
  ap_pending (hw s) = Some (id, vec) → cpus !! i = Some id → oth_started (hw s) i = 0 → (ap_delay (hw s) ≤ n)%nat →
  (∀ c, ap_self c = ap_self (hw s) → ap_log c = ap_log (hw s) ++ [mkStart id (vec * 4096) (sm_low s)] →
     (∀ j, oth_started c j = if decide (cpus !! j = Some id) then 1 else oth_started (hw s) j) → Q tt (set_hw c s)) →
  wp (wait_started n i) Q s.
Proof.
  intros Hp Hi. revert s Hp. induction n as [|n IH]; intros s Hp H0 Hn HQ; cbn [wait_started]; apply wp_bind; unfold wp at 1, load_started;
    pose proof (ap_run (hw s) (sm_low s) id vec Hp) as Hrun; change (sm_hw s) with (hw s); set (c := oth_run (sm_low s) (hw s)) in *; cbv zeta;
    (destruct (decide (ap_delay (hw s) = O)) as [Hz|Hz]; [destruct Hrun as (A & B & D); rewrite D, decide_True by done; by apply HQ|]); [lia|].
  destruct Hrun as ((A & B & D) & E & F). rewrite D, H0. apply IH; rewrite ?hw_set; [done|by rewrite D|lia|].
  intros c' A' B' D'. apply HQ; [exact (eq_trans A' A)|by rewrite B'; simpl; f_equal|]. intros j. rewrite D'. simpl. by rewrite D.
Qed.

(** What processor [i] finds when it runs entryother.S with the stack at [stack]. *)
Definition start_ok (entryother : list Z) (mpenter pgdir : Z) (ip : nat * Z) (st : start) : Prop :=
  let code := KERNBASE + 0x7000 in
  cpus !! ip.1 = Some (st_id st) ∧ st_addr st = 0x7000 ∧ mload code (length entryother) (st_mem st) = entryother ∧
  le_get (mload (code - 4) 4 (st_mem st)) = ip.2 + KSTACKSIZE ∧ le_get (mload (code - 8) 4 (st_mem st)) = mpenter ∧
  le_get (mload (code - 12) 4 (st_mem st)) = pgdir - KERNBASE.

(** The state after the processors before [k] have been started, with the
    pages of [l] as stacks. *)
Definition others (b k : nat) : list nat := filter (λ i, i ≠ b) (seq 0 k).
Record started_upto (b : nat) (entryother : list Z) (mpenter pgdir : Z) (l : list Z) (s0 : smp C) (k : nat) s : Prop := {
  su_self : ap_self (hw s) = ap_self (hw s0);
  su_code : mload (KERNBASE + 0x7000) (length entryother) (sm_low s) = entryother;
  su_kmem : kmem_ok (sm_k s) (drop (length (others b k)) l);
  su_log : ∃ sts, ap_log (hw s) = ap_log (hw s0) ++ sts ∧ Forall2 (start_ok entryother mpenter pgdir) (zip (others b k) l) sts;
  su_flag : ∀ i, (i < length cpus)%nat → i ≠ b → oth_started (hw s) i = if decide (i < k)%nat then 1 else 0 }.

Lemma others_S b k : others b (S k) = if decide (k = b) then others b k else others b k ++ [k].
Proof.
  unfold others. replace (S k) with (k + 1)%nat by lia. rewrite seq_app, filter_app. simpl. rewrite filter_cons, filter_nil.
  destruct (decide (k = b)); [rewrite decide_False by naive_solver; apply app_nil_r|by rewrite decide_True].
Qed.
Lemma others_length b k : length (others b k) = if decide (b < k)%nat then (k - 1)%nat else k.
Proof.
  induction k as [|k IH]; [done|]. rewrite others_S. destruct (decide (k = b)) as [->|]; rewrite ?length_app, IH; repeat destruct (decide _); simpl; lia.
Qed.

Context (b : nat) (entryother : list Z) (mpenter pgdir : Z) (l : list Z) (s0 : smp C).
Context (Hlapic : lapic ≠ 0) (Hnd : NoDup cpus) (Hids : Forall (λ a, 0 ≤ a < 256) cpus) (Hb : cpus !! b = Some (ap_self (hw s0))).
Context (Hent : 0 ≤ mpenter < 2 ^ 32) (Hpg : KERNBASE ≤ pgdir < 2 ^ 32) (Hl : (length cpus ≤ S (length l))%nat).

(** The words before the code, after all stores of one turn of the loop. *)
Lemma start_words stack m :
  0 ≤ stack < 2 ^ 32 → mload (KERNBASE + 0x7000) (length entryother) m = entryother →
  let code := KERNBASE + 0x7000 in
  let m' := mstore (KERNBASE + 0x469) (le_put 2 0x700) (mstore (KERNBASE + 0x467) (le_put 2 0)
    (mstore (code - 12) (le_put 4 (pgdir - KERNBASE)) (mstore (code - 8) (le_put 4 mpenter) (mstore (code - 4) (le_put 4 stack) m)))) in
  mload code (length entryother) m' = entryother ∧ le_get (mload (code - 4) 4 m') = stack ∧ le_get (mload (code - 8) 4 m') = mpenter ∧
  le_get (mload (code - 12) 4 m') = pgdir - KERNBASE.
Proof.
  intros Hst Hc code m'.
  assert (∀ a v m1, 0 ≤ v < 2 ^ 32 → le_get (mload a 4 (mstore a (le_put 4 v) m1)) = v) as Hget.
  { intros a v m1 Hv. pose proof (mload_mstore_same a (le_put 4 v) m1) as E. rewrite length_le_put in E. rewrite E. by apply le_get_put. }
  unfold m', code, KERNBASE in *. split; [|split; [|split]]; repeat first [rewrite Hget by lia; reflexivity | rewrite mload_mstore_ne by (rewrite length_le_put; lia)]; done.
Qed.

Lemma wp_start_one k s :
  (k < length cpus)%nat → started_upto b entryother mpenter pgdir l s0 k s →
  wp (me ← mycpu lapic cpus false;
      if decide (k = me) then mret tt else
      stack ← lift kalloc;
      store_low (KERNBASE + 0x7000 - 4) (le_put 4 (u32 (stack + KSTACKSIZE))) ;;
      store_low (KERNBASE + 0x7000 - 8) (le_put 4 mpenter) ;;
      pg ← lift (V2P pgdir);
      store_low (KERNBASE + 0x7000 - 12) (le_put 4 pg) ;;
      apicid ← deref (cpus !! k);
      pa ← lift (V2P (KERNBASE + 0x7000));
      lapicstartap lapic store_wrv apicid pa ;;
      wait_started poll_bound k) (λ _, started_upto b entryother mpenter pgdir l s0 (S k)) s.
Proof.
  intros Hk [Hself Hcode Hkm (sts & Hlog & Hsts) Hflag]. apply wp_bind. eapply (wp_mycpu b); [done|done|by rewrite Hself|]. intros c1 (A1 & B1 & D1).
  pose proof (others_length b k) as Hlen. pose proof (lookup_lt_Some _ _ _ Hb) as Hblt.
  destruct (decide (k = b)) as [->|Hkb].
  { apply wp_ret. split; rewrite ?others_S, ?decide_True by done; simpl; [by rewrite A1|done|done|exists sts; by rewrite B1|].
    intros i Hi Hne. rewrite D1, Hflag by done. repeat destruct (decide _); lia. }
  assert (length (others b k) < length l)%nat as Hlt by (rewrite Hlen; destruct (decide _); lia).
  destruct (lookup_lt_is_Some_2 l _ Hlt) as [p Hp]. pose proof (drop_S _ _ _ Hp) as Ed. destruct (lookup_lt_is_Some_2 cpus k Hk) as [id Hid].
  pose proof (Forall_lookup_1 _ _ _ _ Hids Hid) as Hidr. simpl in Hidr.
  apply wp_bind, wp_within. cbn [part smp_has_k]. eapply wp_kalloc; [exact Hkm|]. rewrite Ed. intros next Hnext.
  pose proof Hkm as Hkm'. rewrite Ed in Hkm'. pose proof (kmem_pop _ _ _ _ Hkm' Hnext) as Hkm2. pose proof (km_pages _ _ Hkm') as [(_ & _ & Hpr) _]%Forall_cons. unfold KERNBASE, PHYSTOP in Hpr.
  rewrite u32_small by (unfold KSTACKSIZE; lia). destruct (start_words (p + KSTACKSIZE) (sm_low s) ltac:(unfold KSTACKSIZE; lia) Hcode) as (M0 & M1 & M2 & M3).
  do 2 apply wp_bind, wp_modify. apply wp_bind, wp_within. unfold V2P. rewrite (proj2 (Z.ltb_ge pgdir KERNBASE)) by lia. apply wp_ret, wp_bind, wp_modify.
  apply wp_bind. eapply wp_deref; [exact Hid|]. apply wp_bind, wp_within. unfold V2P. apply wp_ret. change (KERNBASE + 0x7000 - KERNBASE) with 0x7000.
  apply wp_bind, wp_lapicstartap; [done|]. intros c2 (A2 & B2 & D2) Hpend. cbn [hw smp_has_hw sm_hw set_part set_hw sm_k sm_low smp_has_k] in *.
  eapply (wp_wait_started _ k id 7); cbn [hw smp_has_hw sm_hw sm_low]; [done|done| |apply ap_bound|].
  { rewrite D2, D1, Hflag by done. rewrite decide_False by lia. done. }
  intros c3 A3 B3 D3. cbn [set_hw smp_has_hw]. split; cbn [hw smp_has_hw sm_hw sm_low sm_k]; rewrite ?others_S, ?decide_False by done.
  - congruence.
  - exact M0.
  - rewrite length_app. simpl. by replace (_ + 1)%nat with (S (length (others b k))) by lia.
  - exists (sts ++ [mkStart id 0x7000 (mstore (KERNBASE + 0x469) (le_put 2 0x700) (mstore (KERNBASE + 0x467) (le_put 2 0)
      (mstore (KERNBASE + 0x7000 - 12) (le_put 4 (pgdir - KERNBASE)) (mstore (KERNBASE + 0x7000 - 8) (le_put 4 mpenter) (mstore (KERNBASE + 0x7000 - 4) (le_put 4 (p + KSTACKSIZE)) (sm_low s))))))]).
    split; [rewrite B3, B2, B1, Hlog; by rewrite <- app_assoc|]. rewrite zip_with_app_l, Ed. cbn [zip_with]. rewrite zip_with_take_r. apply Forall2_app; [exact Hsts|].
    constructor; [|constructor]. by repeat split.
  - intros i Hi Hne. rewrite D3, D2, D1, Hflag by done. destruct (decide (cpus !! i = Some id)) as [Hii|Hii].
    + rewrite (NoDup_lookup _ _ _ _ Hnd Hii Hid). by rewrite decide_True by lia.
    + assert (i ≠ k) by congruence. repeat destruct (decide _); lia.
Qed.

(** Every processor but the booting one starts once, in the order of [cpus], in
    the copy of entryother.S, with a stack of its own, the entry point and the
    page directory in the words that code reads; [startothers] returns when
    all of them have set their flags. *)
Theorem startothers_starts :
  kmem_ok (sm_k s0) l → (∀ i, oth_started (hw s0) i = 0) →
  wp (startothers lapic cpus entryother mpenter pgdir) (λ _ s, ∃ sts,
    ap_log (hw s) = ap_log (hw s0) ++ sts ∧ Forall2 (start_ok entryother mpenter pgdir) (zip (others b (length cpus)) l) sts ∧
    (∀ i, (i < length cpus)%nat → i ≠ b → oth_started (hw s) i = 1) ∧ kmem_ok (sm_k s) (drop (length cpus - 1) l)) s0.
Proof.
  intros Hkm H0. unfold startothers. apply wp_bind, wp_within. unfold P2V. apply wp_ret. change (u32 (0x7000 + KERNBASE)) with (KERNBASE + 0x7000).
  apply wp_bind, wp_modify. eapply wp_mono; [apply (wp_forM_seq (started_upto b entryother mpenter pgdir l s0))|].
  - split; cbn; [done|apply mload_mstore_same|done|exists []; by rewrite app_nil_r|]. intros i _ _. exact (H0 i).
  - intros k s Hk Hs. exact (wp_start_one k s Hk Hs).
  - intros [] s [_ _ Hk (sts & E & HF) Hfl]. pose proof (lookup_lt_Some _ _ _ Hb) as Hblt. exists sts. split; [done|]. split; [done|].
    split; [intros i Hi Hne; by rewrite (Hfl i Hi Hne), decide_True|]. rewrite others_length, decide_True in Hk by done. exact Hk.
Qed.
End Spec.

(** Three processors that start at once; the first one boots. *)
Record demo_aps := mkAps { da_sel : Z; da_pending : option (Z * Z); da_log : list start; da_started : nat → Z }.
Definition demo_cpus : list Z := [0; 4; 2].
Definition demo_ap_store (a v : Z) (c : demo_aps) : demo_aps :=
  if a =? 0xfee00000 + 4 * ICRHI then mkAps v (da_pending c) (da_log c) (da_started c)
  else if (a =? 0xfee00000 + 4 * ICRLO) && (Z.land v 0x700 =? 0x600) then
    mkAps (da_sel c) (Some (Z.shiftr (da_sel c) 24, Z.land v 0xff)) (da_log c) (da_started c)
  else c.
#[export] Instance demo_ap_hw : Hw demo_aps := {
  hw_in _ c := (0, c); hw_out _ _ c := c; hw_insl _ _ c := ([], c); hw_outsl _ _ c := c; hw_load _ c := (0, c); hw_store := demo_ap_store }.
#[export] Instance demo_others : Others demo_aps := {
  oth_run m c := match da_pending c with
    | Some (id, vec) => mkAps (da_sel c) None (da_log c ++ [mkStart id (vec * 4096) m])
        (λ i, if decide (demo_cpus !! i = Some id) then 1 else da_started c i)
    | None => c end;
  oth_started := da_started }.
#[export] Instance demo_ap_laws : ApLaws demo_aps (H1 := 0%nat) 0xfee00000 demo_cpus.
Proof.
  refine {| ap_self _ := 0; ap_sel := da_sel; ap_pending := da_pending; ap_log := da_log; ap_delay _ := 0%nat |}; try (intros; simpl; by repeat split).
  - intros c v Hv. simpl. unfold demo_ap_store. simpl. destruct (Z.land v 0x700 =? 0x600); by repeat split.
  - intros c m id vec Hp. simpl. rewrite Hp. by repeat split.
Defined.

Definition demo_smp : smp demo_aps := mkSmp demo_kmem (λ _, 0) (mkAps 0 None [] (λ _, 0)).
(** Processors 4 and 2 start at 0x7000, on stacks of their own. *)
Example startothers_demo :
  match startothers (H1 := 0%nat) 0xfee00000 demo_cpus [0xfa; 0x31] 0x80103000 0x8010a000 demo_smp with
  | Ok _ s => map (λ st, (st_id st, st_addr st, mload 0x80007000 2 (st_mem st), le_get (mload 0x80006ffc 4 (st_mem st)))) (da_log (sm_hw s)) =
      [(4, 0x7000, [0xfa; 0x31], 0x80301000); (2, 0x7000, [0xfa; 0x31], 0x80401000)]
  | _ => False
  end.
Proof. vm_compute. reflexivity. Qed.
