(* ===== verification/Progs.v ===== *)
(** * Progs: the programs that exercise the system

    forktest.c, stressfs.c, longRunner.c, priorInv.c, snprintftest.c,
    testflock.c and the programs that read the pseudo devices, as clients of the
    system calls.  For forktest, which checks that [fork] fails cleanly when the
    process table is full, and longRunner, the outcome is proved. *)

From S2P Require Import Prelude State Console Strings Printf Inode Proc Sysfile User Utils.
Import Sys.

Section Programs.
Context {S : Type} `{Os S}.

(** ** forktest.c *)

Definition FORKN : nat := 1000.
(** The program's own [printf]. *)
Definition ft_printf (fd : Z) (s : list Z) : M S unit := _ ← write fd s; mret tt.
(** The number of processes forked, from [k] more attempts; a child exits. *)
Fixpoint fork_loop (k : nat) (n : Z) : M S Z :=
  match k with
  | O => mret n
  | Datatypes.S k' =>
      pid ← fork;
      if pid <? 0 then mret n else
      if pid =? 0 then exit else fork_loop k' (n + 1)
  end.
Fixpoint ft_wait (n : nat) : M S unit :=
  match n with
  | O => mret tt
  | Datatypes.S n' =>
      r ← wait;
      if r <? 0 then ft_printf 1 (str "wait stopped early" ++ [NL]) ;; exit else ft_wait n'
  end.
Definition forktest : M S unit :=
  ft_printf 1 (str "fork test" ++ [NL]) ;;
  n ← fork_loop FORKN 0;
  if n =? Z.of_nat FORKN then ft_printf 1 (str "fork claimed to work N times!" ++ [NL]) ;; exit else
  ft_wait (Z.to_nat n) ;;
  r ← wait;
  if negb (r =? -1) then ft_printf 1 (str "wait got too many" ++ [NL]) ;; exit else
  ft_printf 1 (str "fork test OK" ++ [NL]).
Definition forktest_main : M S unit := forktest ;; exit.

(** ** stressfs.c *)

(** The index at which the loop of forks stops. *)
Fixpoint stress_forks (k : nat) (i : Z) : M S Z :=
  match k with
  | O => mret i
  | Datatypes.S k' => pid ← fork; if 0 <? pid then mret i else stress_forks k' (i + 1)
  end.
Definition stressfs_main : M S unit :=
  let data := replicate 512 (ch "a") in
  printl 1 "stressfs starting" [] ;;
  i ← stress_forks 4 0;
  printl 1 "write %d" [CInt i] ;;
  let path := str "stressfs" ++ [s8 (ch "0" + i)] in
  fd ← open path (Z.lor O_CREATE O_RDWR);
  forM (seq 0 20) (λ _, _ ← write fd data; mret tt) ;;
  _ ← close fd;
  printl 1 "read" [] ;;
  fd ← open path O_RDONLY;
  forM (seq 0 20) (λ _, _ ← read fd 512; mret tt) ;;
  _ ← close fd;
  _ ← wait;
  exit.

(** ** priorInv.c *)

Definition lock_fd : Z := 1.
Definition runHP : M S unit :=
  printl 1 "Starting High Priority Process" [] ;;
  _ ← sleep 500;
  printl 1 "High Priority Process obtained lock %d" [CInt lock_fd] ;;
  _ ← funlock lock_fd;
  exit.
Definition startHP : M S unit :=
  pid ← fork;
  if pid =? 0 then runHP else _ ← nice pid 10; mret tt.
Definition priorInv_main : M S unit :=
  _ ← flock lock_fd;
  printl 1 "Low Priority Process got the lock %d" [CInt lock_fd] ;;
  startHP ;; startHP ;; startHP ;;
  _ ← sleep 10;
  forM (seq 0 6) (λ _, printl 1 "Low priority running..." [] ;; _ ← sleep 50; mret tt) ;;
  printl 1 "Low Priority releases the lock %d" [CInt lock_fd] ;;
  _ ← funlock lock_fd;
  pidOne ← wait;
  pidTwo ← wait;
  printf 1 ([NL] ++ str "%d Processes complete!" ++ [NL]) [CInt pidOne] ;;
  printf 1 ([NL] ++ str "%d Processes complete!" ++ [NL]) [CInt pidTwo] ;;
  printf 1 ([NL] ++ str "Priority Inversion Demonstrated" ++ [NL]) [] ;;
  _ ← wait;
  exit.

(** ** testflock.c *)

Definition testflock_main : M S unit :=
  fd ← open (str "lock") (Z.lor O_CREATE O_RDWR);
  when (0 <=? fd) (
    printl 2 "Trying to get lock" [] ;;
    status ← flock fd;
    if status <? 0 then printl 2 "Error: flock()" [] else
    printl 2 "Got lock" [] ;;
    _ ← sleep 500;
    printl 2 "Unlocking" [] ;;
    _ ← funlock fd;
    mret tt) ;;
  exit.

(** ** testdevhello.c, testdevnull.c, testdevzero.c, testdevticks.c *)

(** [buffer] after a read into it. *)
Definition read_into (buffer : list Z) (r : list Z * Z) : list Z := splice 0 r.1 buffer.
Definition testdev_main (dev error : string) : M S unit :=
  fd ← open (str dev) O_RDONLY;
  (if fd <? 0 then printl 2 error [] else
   r ← read fd 512;
   printl 1 "Read <%s>" [CStr (Some (upto0 (read_into (replicate 512 0) r)))] ;;
   _ ← close fd;
   mret tt) ;;
  exit.
Definition testdevhello_main : M S unit := testdev_main "dev/hello" "Error: Unable to open dhello".
Definition testdevnull_main : M S unit := testdev_main "dev/null" "Error: Unable to open dnull".
Definition testdevzero_main : M S unit := testdev_main "dev/zero" "Error: Cannot open dzero".
Definition testdevticks_main : M S unit :=
  fd ← open (str "dev/ticks") O_RDONLY;
  (if fd <? 0 then printl 2 "Error: Cannot open dticks" [] else
   r ← read fd 512;
   r2 ← read fd 512;
   printl 1 "Read <%s>" [CStr (Some (upto0 (read_into (read_into (replicate 512 0) r) r2)))] ;;
   printl 1 "Characters: %d" [CInt r.2] ;;
   _ ← close fd;
   mret tt) ;;
  exit.

(** ** snprintftest.c *)

(** [snprintf(&buf[off], n, ...)]: the result and [buf]. *)
Definition sn (buf : list Z) (off : Z) (n : Z) (fmt : list Z) (ap : list carg) : M S (Z * list Z) :=
  match snprintf n fmt ap (drop (Z.to_nat off) buf) with
  | Ok r b => mret (r, take (Z.to_nat off) buf ++ b)
  | _ => fault "snprintf"
  end.
(** One call from the start of the buffer, and the printing of it. *)
Definition sn_show (buf : list Z) (n : Z) (fmt : list Z) (ap : list carg) : M S (list Z) :=
  r ← sn buf 0 n fmt ap;
  printf 1 (str "%s") [CStr (Some (upto0 r.2))] ;;
  mret r.2.
Fixpoint sn_args (buf : list Z) (index : Z) (args : list (list Z)) : M S (list Z) :=
  match args with
  | [] => mret buf
  | a :: args' =>
      r ← sn buf index (512 - index) (str "<%s>" ++ [NL]) [CStr (Some a)];
      sn_args r.2 (s32 (index + r.1)) args'
  end.
Definition snprintftest_main (argv : list (list Z)) : M S unit :=
  let argc := Z.of_nat (length argv) in
  let nl := [NL] in
  b ← sn_show (replicate 512 0) 512 (str "Hello, World" ++ nl) [];
  b ← sn_show b 512 (str "%d" ++ nl) [CInt argc];
  b ← sn_show b 512 (str "%x" ++ nl) [CInt argc];
  b ← sn_show b 6 (str "Hello, World" ++ nl) [];
  b ← sn_show b 12 (nl ++ str "0x%x" ++ nl) [CInt 0xcafebabe];
  b ← sn_show b 6 (nl ++ str "0x%x" ++ nl) [CInt 0xcafebabe];
  b ← sn_show b 0 (nl ++ str "0x%x" ++ nl) [CInt 0xdeadbeef];
  b ← sn_show b 512 (nl ++ str "%d" ++ nl) [CInt 0xdeadbeef];
  a0 ← deref (argv !! 0%nat);
  b ← sn_show b 512 (nl ++ str "program is <%s>" ++ nl) [CStr (Some a0)];
  b ← sn_args b 0 (tail argv);
  printf 1 (str "%s") [CStr (Some (upto0 b))] ;;
  forM (seq 1 (length argv - 1)) (λ i, printl 1 "<%d>" [CInt (Z.of_nat i - 3)]) ;;
  forM (seq 1 (length argv - 1)) (λ i, printl 1 "<%x>" [CInt (Z.of_nat i - 3)]) ;;
  exit.
End Programs.

(** ** longRunner.c *)

(** The loops that count [counter] up, an [int]. *)
Definition lr_inner (k : nat) (counter : Z) : Z := Nat.iter k (λ c, s32 (c + 1)) counter.
Definition lr_loop (n : Z) (counter : Z) : Z := Nat.iter (Z.to_nat (n * 4096)) (lr_inner (Z.to_nat (n * 4096))) counter.
Definition longRunner (counter : Z) : Z := lr_loop 1 (lr_loop 2 (lr_loop 3 counter)).

Lemma lr_inner_add k c : 0 ≤ c → c + Z.of_nat k < 2 ^ 31 → lr_inner k c = c + Z.of_nat k.
Proof.
  intros Hc. unfold lr_inner. induction k as [|k IH]; intros Hk; [simpl; lia|]. rewrite Nat.iter_succ, IH by lia. rewrite s32_small; lia.
Qed.
Lemma lr_loop_add n c : 0 ≤ n → 0 ≤ c → c + (n * 4096) * (n * 4096) < 2 ^ 31 → lr_loop n c = c + (n * 4096) * (n * 4096).
Proof.
  intros Hn Hc Hb. unfold lr_loop. set (a := n * 4096) in *.
  assert (∀ k, (k ≤ Z.to_nat a)%nat → Nat.iter k (lr_inner (Z.to_nat a)) c = c + Z.of_nat k * a) as H.
  { induction k as [|k IH]; intros Hk; [simpl; lia|]. rewrite Nat.iter_succ, IH by lia. rewrite lr_inner_add by nia. lia. }
  rewrite H by lia. lia.
Qed.
(** The counter does not overflow. *)
Lemma longRunner_counts : longRunner 0 = 14 * 4096 * 4096.
Proof. unfold longRunner. rewrite (lr_loop_add 3), (lr_loop_add 2), (lr_loop_add 1) by lia. lia. Qed.

(** ** forktest passes *)

(** A system with room for [f] more processes: [fork] takes one, or fails when there
    is none; [wait] gives one back per child, or fails when there is none. *)
Class ForkLaws {S : Type} `{Os S} (I : nat → nat → list Z → S → Prop) : Prop := {
  fl_fork : ∀ c f out s, I c f out s → wp fork (λ r s', match f with O => r = -1 ∧ I c O out s' | Datatypes.S f' => 0 < r ∧ I (Datatypes.S c) f' out s' end) s;
  fl_wait : ∀ c f out s, I c f out s → wp wait (λ r s', match c with O => r = -1 ∧ I O f out s' | Datatypes.S c' => 0 < r ∧ I c' (Datatypes.S f) out s' end) s;
  fl_write : ∀ c f out s bs, I c f out s → wp (write 1 bs) (λ r s', I c f (out ++ bs) s') s }.

Section Forktest.
Context {S : Type} `{Os S} (I : nat → nat → list Z → S → Prop) `{!ForkLaws I}.

Lemma wp_ft_printf c f out bs s (Q : unit → S → Prop) : I c f out s → (∀ s', I c f (out ++ bs) s' → Q tt s') → wp (ft_printf 1 bs) Q s.
Proof. intros Hi HQ. unfold ft_printf. apply wp_bind. eapply wp_mono; [by apply fl_write|]. intros r s' Hi'. apply wp_ret. by apply HQ. Qed.
Lemma wp_fork_loop k n c f out s (Q : Z → S → Prop) : I c f out s → (f < k)%nat →
  (∀ s', I (c + f) O out s' → Q (n + Z.of_nat f) s') → wp (fork_loop k n) Q s.
Proof.
  revert n c f s. induction k as [|k IH]; intros n c f s Hi Hk HQ; [lia|]. cbn [fork_loop]. apply wp_bind. eapply wp_mono; [by apply fl_fork|].
  intros r s' Hr. destruct f as [|f].
  - destruct Hr as [-> Hi']. apply wp_ret. rewrite Z.add_0_r in HQ. apply HQ. by rewrite Nat.add_0_r.
  - destruct Hr as [Hr Hi']. rewrite (proj2 (Z.ltb_ge _ _)), (proj2 (Z.eqb_neq _ _)) by lia. eapply IH; [exact Hi'|lia|]. intros s2 Hi2.
    replace (n + 1 + Z.of_nat f) with (n + Z.of_nat (Datatypes.S f)) by lia. apply HQ. by replace (c + Datatypes.S f)%nat with (Datatypes.S c + f)%nat by lia.
Qed.
Lemma wp_ft_wait n c f out s (Q : unit → S → Prop) : I (n + c) f out s → (∀ s', I c (n + f) out s' → Q tt s') → wp (ft_wait n) Q s.
Proof.
  revert f s. induction n as [|n IH]; intros f s Hi HQ; cbn [ft_wait]; [by apply wp_ret, HQ|]. apply wp_bind. eapply wp_mono; [by apply fl_wait|].
  intros r s' [Hr Hi']. rewrite (proj2 (Z.ltb_ge _ _)) by lia. eapply IH; [exact Hi'|]. intros s2 Hi2. apply HQ.
  by replace (Datatypes.S n + f)%nat with (n + Datatypes.S f)%nat by lia.
Qed.
(** The test passes on every system with fewer than 1000 free processes, and leaves no
    process behind. *)
Lemma forktest_passes f out s : (f < 1000)%nat → I O f out s →
  wp forktest (λ _ s', I O f (out ++ str "fork test" ++ [NL] ++ str "fork test OK" ++ [NL]) s') s.
Proof.
  intros Hf Hi. unfold forktest. apply wp_bind. eapply wp_ft_printf; [exact Hi|]. intros s1 H1. apply wp_bind. eapply wp_fork_loop; [exact H1|unfold FORKN; lia|].
  intros s2 H2. rewrite Z.add_0_l, (proj2 (Z.eqb_neq _ _)) by (unfold FORKN; lia). rewrite Nat2Z.id. apply wp_bind.
  eapply (wp_ft_wait f O); [by rewrite Nat.add_0_r|]. intros s3 H3. rewrite Nat.add_0_r in H3. apply wp_bind. eapply wp_mono; [by apply fl_wait|]. intros r s4 [-> H4]. simpl negb. cbv iota.
  eapply wp_ft_printf; [exact H4|]. intros s5 H5. by rewrite <- !app_assoc in H5.
Qed.
End Forktest.
