(* ===== verification/Usertests.v ===== *)
(** * Usertests: the test suite of the system (usertests.c)

    Each test as a client of the system calls.  A test that fails prints why and
    exits; one that passes returns.  The array [buf] of 8192 bytes, which the
    tests share, is passed along.  The tests that depend on addresses and on the
    machine below the system calls ([sbrktest], [validatetest], [mem], [uio],
    [argptest]) are arguments of [usertests_main]. *)

From S2P Require Import Prelude State Console Strings Printf Inode Proc Sysfile User Utils Progs.
Import Sys.

Definition BUFSIZE : Z := 8192.
Definition echoargv : list (list Z) := [str "echo"; str "ALL"; str "TESTS"; str "PASSED"].
Definition stdout : Z := 1.
(** A name of two characters, [name[0] = a; name[1] = '0' + i]. *)
Definition name2 (a : Ascii.ascii) (i : Z) : list Z := [ch a; ch "0" + i].
Definition rand (randstate : Z) : Z := u32 (randstate * 1664525 + 1013904223).

Section Tests.
Context {S : Type} `{Os S} `{LoopBound}.

(** [if(b){ printf(1, msg); exit(); }] *)
Definition fail_if (b : bool) (msg : list Z) : M S unit := if b then printf 1 msg [] ;; exit else mret tt.
Definition line (msg : string) : list Z := str msg ++ [NL].
(** [if(call < 0) ...], [if(call != v) ...] and [if(call >= 0) ...] *)
Definition must (call : M S Z) (msg : string) : M S unit := r ← call; fail_if (r <? 0) (line msg).
Definition must_be (v : Z) (call : M S Z) (msg : string) : M S unit := r ← call; fail_if (negb (r =? v)) (line msg).
Definition must_not_be (v : Z) (call : M S Z) (msg : string) : M S unit := r ← call; fail_if (r =? v) (line msg).
Definition must_fail (call : M S Z) (msg : string) : M S unit := r ← call; fail_if (0 <=? r) (line msg).
(** A descriptor, or failure. *)
Definition must_open (path : list Z) (mode : Z) (msg : list Z) : M S Z := fd ← open path mode; fail_if (fd <? 0) msg ;; mret fd.
(** The result of a call thrown away. *)
Definition call_ (m : M S Z) : M S unit := _ ← m; mret tt.
Definition say (msg : string) : M S unit := printl 1 msg [].
Definition O_CREATE_RDWR : Z := Z.lor O_CREATE O_RDWR.

(** ** Directories and the inode cache *)

Definition iputtest : M S unit :=
  say "iput test" ;;
  must (mkdir (str "iputdir")) "mkdir failed" ;;
  must (chdir (str "iputdir")) "chdir iputdir failed" ;;
  must (unlink (str "../iputdir")) "unlink ../iputdir failed" ;;
  must (chdir (str "/")) "chdir / failed" ;;
  say "iput test ok".

Definition exitiputtest : M S unit :=
  say "exitiput test" ;;
  pid ← fork;
  fail_if (pid <? 0) (line "fork failed") ;;
  when (pid =? 0) (
    must (mkdir (str "iputdir")) "mkdir failed" ;;
    must (chdir (str "iputdir")) "child chdir failed" ;;
    must (unlink (str "../iputdir")) "unlink ../iputdir failed" ;;
    exit) ;;
  call_ wait ;;
  say "exitiput test ok".

Definition openiputtest : M S unit :=
  say "openiput test" ;;
  must (mkdir (str "oidir")) "mkdir oidir failed" ;;
  pid ← fork;
  fail_if (pid <? 0) (line "fork failed") ;;
  when (pid =? 0) (
    must_fail (open (str "oidir") O_RDWR) "open directory for write succeeded" ;;
    exit) ;;
  call_ (sleep 1) ;;
  must_be 0 (unlink (str "oidir")) "unlink failed" ;;
  call_ wait ;;
  say "openiput test ok".

(** ** Simple files *)

Definition opentest : M S unit :=
  say "open test" ;;
  fd ← must_open (str "echo") 0 (line "open echo failed!");
  call_ (close fd) ;;
  must_fail (open (str "doesnotexist") 0) "open doesnotexist succeeded!" ;;
  say "open test ok".

Definition writetest (buf : list Z) : M S (list Z) :=
  say "small file test" ;;
  fd ← open (str "small") O_CREATE_RDWR;
  (if 0 <=? fd then say "creat small succeeded; ok" else say "error: creat small failed!" ;; exit) ;;
  forM (seq 0 100) (λ i,
    r ← write fd (str "aaaaaaaaaa");
    (if negb (r =? 10) then printl stdout "error: write aa %d new file failed" [CInt (Z.of_nat i)] ;; exit else mret tt) ;;
    r ← write fd (str "bbbbbbbbbb");
    (if negb (r =? 10) then printl stdout "error: write bb %d new file failed" [CInt (Z.of_nat i)] ;; exit else mret tt)) ;;
  say "writes ok" ;;
  call_ (close fd) ;;
  fd ← open (str "small") O_RDONLY;
  (if 0 <=? fd then say "open small succeeded ok" else say "error: open small failed!" ;; exit) ;;
  r ← read fd 2000;
  (if r.2 =? 2000 then say "read succeeded ok" else say "read failed" ;; exit) ;;
  call_ (close fd) ;;
  must (unlink (str "small")) "unlink small failed" ;;
  say "small file test ok" ;;
  mret (read_into buf r).

(** The blocks read back, the first word of each compared with its number. *)
Fixpoint writetest1_read (fuel : nat) (fd n : Z) (buf : list Z) : M S (list Z) :=
  match fuel with
  | O => nofuel
  | Datatypes.S fuel' =>
      r ← read fd 512;
      let buf := read_into buf r in
      if r.2 =? 0 then
        (if n =? MAXFILE - 1 then printf stdout (str "read only %d blocks from big") [CInt n] ;; exit else mret buf)
      else if negb (r.2 =? 512) then printl stdout "read failed %d" [CInt r.2] ;; exit
      else if negb (s32 (get32 0 buf) =? n) then
        printl stdout "read content of block %d is %d" [CInt n; CInt (s32 (get32 0 buf))] ;; exit
      else writetest1_read fuel' fd (n + 1) buf
  end.
Definition writetest1 (buf : list Z) : M S (list Z) :=
  say "big files test" ;;
  fd ← must_open (str "big") O_CREATE_RDWR (line "error: creat big failed!");
  forM (seq 0 (Z.to_nat MAXFILE)) (λ i,
    must_be 512 (write fd (take 512 (put32 0 (Z.of_nat i) buf))) "error: write big file failed") ;;
  call_ (close fd) ;;
  fd ← must_open (str "big") O_RDONLY (line "error: open big failed!");
  buf ← writetest1_read loop_bound fd 0 (put32 0 (MAXFILE - 1) buf);
  call_ (close fd) ;;
  must (unlink (str "big")) "unlink big failed" ;;
  say "big files ok" ;;
  mret buf.

Definition createtest : M S unit :=
  say "many creates, followed by unlink test" ;;
  forM (seq 0 52) (λ i, fd ← open (name2 "a"%char (Z.of_nat i)) O_CREATE_RDWR; call_ (close fd)) ;;
  forM (seq 0 52) (λ i, call_ (unlink (name2 "a"%char (Z.of_nat i)))) ;;
  say "many creates, followed by unlink; ok".

Definition dirtest : M S unit :=
  say "mkdir test" ;;
  must (mkdir (str "dir0")) "mkdir failed" ;;
  must (chdir (str "dir0")) "chdir dir0 failed" ;;
  must (chdir (str "..")) "chdir .. failed" ;;
  must (unlink (str "dir0")) "unlink dir0 failed" ;;
  say "mkdir test ok".

Definition exectest : M S unit :=
  say "exec test" ;;
  must (exec (str "echo") echoargv) "exec echo failed".

(** ** Processes and pipes *)

(** The bytes the child sends: a counter from [sq] on. *)
Definition counter (n : nat) (sq : Z) : list Z := (λ k, u8 (sq + Z.of_nat k)) <$> seq 0 n.
Fixpoint pipe1_send (k : nat) (fd sq : Z) (buf : list Z) : M S unit :=
  match k with
  | O => mret tt
  | Datatypes.S k' =>
      let buf := splice 0 (counter 1033 sq) buf in
      must_be 1033 (write fd (take 1033 buf)) "pipe1 oops 1" ;;
      pipe1_send k' fd (sq + 1033) buf
  end.
(** The total read, or nothing when a byte is wrong, and [buf]. *)
Fixpoint pipe1_recv (fuel : nat) (fd cc sq total : Z) (buf : list Z) : M S (option Z * list Z) :=
  match fuel with
  | O => nofuel
  | Datatypes.S fuel' =>
      r ← read fd cc;
      let buf := read_into buf r in
      if negb (0 <? r.2) then mret (Some total, buf) else
      let n := Z.to_nat r.2 in
      if decide (take n buf = counter n sq) then
        let cc := if BUFSIZE <? cc * 2 then BUFSIZE else cc * 2 in
        pipe1_recv fuel' fd cc (sq + r.2) (total + r.2) buf
      else say "pipe1 oops 2" ;; mret (None, buf)
  end.
Definition pipe1 (buf : list Z) : M S (list Z) :=
  p ← pipe;
  fail_if (negb (p.1 =? 0)) (line "pipe() failed") ;;
  let fds := p.2 in
  pid ← fork;
  if pid =? 0 then
    call_ (close fds.1) ;;
    pipe1_send 5 fds.2 0 buf ;;
    exit
  else if 0 <? pid then
    call_ (close fds.2) ;;
    r ← pipe1_recv loop_bound fds.1 1 0 0 buf;
    match r.1 with
    | None => mret r.2
    | Some total =>
        (if negb (total =? 5 * 1033) then printl 1 "pipe1 oops 3 total %d" [CInt total] ;; exit else mret tt) ;;
        call_ (close fds.1) ;;
        call_ wait ;;
        say "pipe1 ok" ;;
        mret r.2
    end
  else say "fork() failed" ;; exit.

(** [for(;;);] *)
Definition spin {A} : M S A := nofuel.
Definition preempt (buf : list Z) : M S (list Z) :=
  printf 1 (str "preempt: ") [] ;;
  pid1 ← fork;
  when (pid1 =? 0) spin ;;
  pid2 ← fork;
  when (pid2 =? 0) spin ;;
  p ← pipe;
  let pfds := p.2 in
  pid3 ← fork;
  when (pid3 =? 0) (
    call_ (close pfds.1) ;;
    w ← write pfds.2 (str "x");
    when (negb (w =? 1)) (printf 1 (str "preempt write error") []) ;;
    call_ (close pfds.2) ;;
    spin) ;;
  call_ (close pfds.2) ;;
  r ← read pfds.1 BUFSIZE;
  let buf := read_into buf r in
  if negb (r.2 =? 1) then printf 1 (str "preempt read error") [] ;; mret buf else
  call_ (close pfds.1) ;;
  printf 1 (str "kill... ") [] ;;
  call_ (kill pid1) ;; call_ (kill pid2) ;; call_ (kill pid3) ;;
  printf 1 (str "wait... ") [] ;;
  call_ wait ;; call_ wait ;; call_ wait ;;
  say "preempt ok" ;;
  mret buf.

Fixpoint exitwait_loop (k : nat) : M S unit :=
  match k with
  | O => say "exitwait ok"
  | Datatypes.S k' =>
      pid ← fork;
      if pid <? 0 then say "fork failed" else
      if negb (pid =? 0) then w ← wait; (if negb (w =? pid) then say "wait wrong pid" else exitwait_loop k') else exit
  end.
Definition exitwait : M S unit := exitwait_loop 100.

(** [forktest] of the suite. *)
Fixpoint ut_wait (n : nat) : M S unit :=
  match n with O => mret tt | Datatypes.S n' => must wait "wait stopped early" ;; ut_wait n' end.
Definition ut_forktest : M S unit :=
  say "fork test" ;;
  n ← fork_loop 1000 0;
  fail_if (n =? 1000) (line "fork claimed to work 1000 times!") ;;
  ut_wait (Z.to_nat n) ;;
  must_be (-1) wait "wait got too many" ;;
  say "fork test OK".

(** ** Files shared between processes *)

Fixpoint sharedfd_write (k : nat) (fd : Z) (buf : list Z) : M S unit :=
  match k with
  | O => mret tt
  | Datatypes.S k' =>
      w ← write fd buf;
      if negb (w =? 10) then say "fstests: write sharedfd failed" else sharedfd_write k' fd buf
  end.
Definition count_char (c : Z) (bs : list Z) : Z := Z.of_nat (length (filter (λ b, b = c) bs)).
Fixpoint sharedfd_read (fuel : nat) (fd : Z) (buf : list Z) (nc np : Z) : M S (Z * Z) :=
  match fuel with
  | O => nofuel
  | Datatypes.S fuel' =>
      r ← read fd 10;
      let buf := read_into buf r in
      if negb (0 <? r.2) then mret (nc, np) else
      sharedfd_read fuel' fd buf (nc + count_char (ch "c") buf) (np + count_char (ch "p") buf)
  end.
Definition sharedfd : M S unit :=
  say "sharedfd test" ;;
  call_ (unlink (str "sharedfd")) ;;
  fd ← open (str "sharedfd") O_CREATE_RDWR;
  if fd <? 0 then printf 1 (str "fstests: cannot open sharedfd for writing") [] else
  pid ← fork;
  let buf := replicate 10 (if pid =? 0 then ch "c" else ch "p") in
  sharedfd_write 1000 fd buf ;;
  (if pid =? 0 then exit else call_ wait) ;;
  call_ (close fd) ;;
  fd ← open (str "sharedfd") 0;
  if fd <? 0 then say "fstests: cannot open sharedfd for reading" else
  r ← sharedfd_read loop_bound fd buf 0 0;
  call_ (close fd) ;;
  call_ (unlink (str "sharedfd")) ;;
  if (r.1 =? 10000) && (r.2 =? 10000) then say "sharedfd ok"
  else printl 1 "sharedfd oops %d %d" [CInt r.1; CInt r.2] ;; exit.

(** The length of a file of which every byte is [c]. *)
Fixpoint fourfiles_read (fuel : nat) (fd c total : Z) (buf : list Z) : M S (Z * list Z) :=
  match fuel with
  | O => nofuel
  | Datatypes.S fuel' =>
      r ← read fd BUFSIZE;
      let buf := read_into buf r in
      if negb (0 <? r.2) then mret (total, buf) else
      fail_if (negb (forallb (Z.eqb c) (take (Z.to_nat r.2) buf))) (line "wrong char") ;;
      fourfiles_read fuel' fd c (total + r.2) buf
  end.
Definition fourfiles_child (fname : list Z) (pi : Z) (buf : list Z) : M S unit :=
  fd ← must_open fname O_CREATE_RDWR (line "create failed");
  let buf := splice 0 (replicate 512 (ch "0" + pi)) buf in
  forM (seq 0 12) (λ _,
    n ← write fd (take 500 buf);
    if negb (n =? 500) then printl 1 "write failed %d" [CInt n] ;; exit else mret tt) ;;
  exit.
Definition fourfiles_check (i : Z) (buf : list Z) : M S (list Z) :=
  let fname := name2 "f"%char i in
  fd ← open fname 0;
  r ← fourfiles_read loop_bound fd (ch "0" + i) 0 buf;
  call_ (close fd) ;;
  (if negb (r.1 =? 12 * 500) then printl 1 "wrong length %d" [CInt r.1] ;; exit else mret tt) ;;
  call_ (unlink fname) ;;
  mret r.2.
Definition fourfiles (buf : list Z) : M S (list Z) :=
  say "fourfiles test" ;;
  forM (seq 0 4) (λ pi,
    let fname := name2 "f"%char (Z.of_nat pi) in
    call_ (unlink fname) ;;
    pid ← fork;
    fail_if (pid <? 0) (line "fork failed") ;;
    when (pid =? 0) (fourfiles_child fname (Z.of_nat pi) buf)) ;;
  forM (seq 0 4) (λ _, call_ wait) ;;
  buf ← fourfiles_check 0 buf;
  buf ← fourfiles_check 1 buf;
  say "fourfiles ok" ;;
  mret buf.

Definition createdelete_child (pi : Z) : M S unit :=
  let name i := [ch "p" + pi; ch "0" + i] in
  forM (seq 0 20) (λ i,
    let i := Z.of_nat i in
    fd ← must_open (name i) O_CREATE_RDWR (line "create failed");
    call_ (close fd) ;;
    when ((0 <? i) && (i mod 2 =? 0)) (must (unlink (name (i / 2))) "unlink failed")) ;;
  exit.
Definition createdelete : M S unit :=
  say "createdelete test" ;;
  forM (seq 0 4) (λ pi,
    pid ← fork;
    fail_if (pid <? 0) (line "fork failed") ;;
    when (pid =? 0) (createdelete_child (Z.of_nat pi))) ;;
  forM (seq 0 4) (λ _, call_ wait) ;;
  forM (seq 0 20) (λ i, forM (seq 0 4) (λ pi,
    let name := [ch "p" + Z.of_nat pi; ch "0" + Z.of_nat i] in
    fd ← open name 0;
    (if ((i =? 0) || (10 <=? i))%nat && (fd <? 0) then
       printl 1 "oops createdelete %s didn't exist" [CStr (Some name)] ;; exit
     else if ((1 <=? i) && (i <? 10))%nat && (0 <=? fd) then
       printl 1 "oops createdelete %s did exist" [CStr (Some name)] ;; exit
     else mret tt) ;;
    when (0 <=? fd) (call_ (close fd)))) ;;
  forM (seq 0 20) (λ i, forM (seq 0 4) (λ _, call_ (unlink [ch "p" + Z.of_nat i; ch "0" + Z.of_nat i]))) ;;
  say "createdelete ok".

(** The entries of a directory, in turn: [fa] marks the files seen, [n] counts them. *)
Fixpoint concreate_scan (fuel : nat) (fd : Z) (de : list Z) (fa : list bool) (n : Z) : M S Z :=
  match fuel with
  | O => nofuel
  | Datatypes.S fuel' =>
      r ← read fd 16;
      let de := read_into de r in
      if negb (0 <? r.2) then mret n else
      if get16 0 de =? 0 then concreate_scan fuel' fd de fa n else
      let name k := nth k (drop 2 de) 0 in
      if (s8 (name 0%nat) =? ch "C") && (name 2%nat =? 0) then
        let i := s8 (name 1%nat) - ch "0" in
        (if (i <? 0) || (40 <=? i) then printl 1 "concreate weird file %s" [CStr (Some (upto0 (drop 2 de)))] ;; exit else mret tt) ;;
        (if nth (Z.to_nat i) fa false then printl 1 "concreate duplicate file %s" [CStr (Some (upto0 (drop 2 de)))] ;; exit else mret tt) ;;
        concreate_scan fuel' fd de (<[Z.to_nat i := true]> fa) (n + 1)
      else concreate_scan fuel' fd de fa n
  end.
Definition concreate : M S unit :=
  say "concreate test" ;;
  forM (seq 0 40) (λ i,
    let file := name2 "C"%char (Z.of_nat i) in
    call_ (unlink file) ;;
    pid ← fork;
    (if negb (pid =? 0) && (i mod 3 =? 1)%nat then call_ (link (str "C0") file)
     else if (pid =? 0) && (i mod 5 =? 1)%nat then call_ (link (str "C0") file)
     else
       fd ← open file O_CREATE_RDWR;
       (if fd <? 0 then printl 1 "concreate create %s failed" [CStr (Some file)] ;; exit else mret tt) ;;
       call_ (close fd)) ;;
    if pid =? 0 then exit else call_ wait) ;;
  fd ← open (str ".") 0;
  n ← concreate_scan loop_bound fd (replicate 16 0) (replicate 40 false) 0;
  call_ (close fd) ;;
  fail_if (negb (n =? 40)) (line "concreate not enough files in directory listing") ;;
  forM (seq 0 40) (λ i,
    let file := name2 "C"%char (Z.of_nat i) in
    pid ← fork;
    fail_if (pid <? 0) (line "fork failed") ;;
    (if (i mod 3 =? 0)%nat && (pid =? 0) || (i mod 3 =? 1)%nat && negb (pid =? 0)
     then forM (seq 0 4) (λ _, fd ← open file 0; call_ (close fd))
     else forM (seq 0 4) (λ _, call_ (unlink file))) ;;
    if pid =? 0 then exit else call_ wait) ;;
  say "concreate ok".

Fixpoint linkunlink_loop (k : nat) (x : Z) : M S unit :=
  match k with
  | O => mret tt
  | Datatypes.S k' =>
      let x := u32 (x * 1103515245 + 12345) in
      (if x mod 3 =? 0 then fd ← open (str "x") (Z.lor O_RDWR O_CREATE); call_ (close fd)
       else if x mod 3 =? 1 then call_ (link (str "cat") (str "x"))
       else call_ (unlink (str "x"))) ;;
      linkunlink_loop k' x
  end.
Definition linkunlink : M S unit :=
  say "linkunlink test" ;;
  call_ (unlink (str "x")) ;;
  pid ← fork;
  fail_if (pid <? 0) (line "fork failed") ;;
  linkunlink_loop 100 (if negb (pid =? 0) then 1 else 97) ;;
  (if negb (pid =? 0) then call_ wait else exit) ;;
  say "linkunlink ok".

(** ** Links and directories *)

Definition unlinkread (buf : list Z) : M S (list Z) :=
  say "unlinkread test" ;;
  fd ← must_open (str "unlinkread") O_CREATE_RDWR (line "create unlinkread failed");
  call_ (write fd (str "hello")) ;;
  call_ (close fd) ;;
  fd ← must_open (str "unlinkread") O_RDWR (line "open unlinkread failed");
  must_be 0 (unlink (str "unlinkread")) "unlink unlinkread failed" ;;
  fd1 ← open (str "unlinkread") O_CREATE_RDWR;
  call_ (write fd1 (str "yyy")) ;;
  call_ (close fd1) ;;
  r ← read fd BUFSIZE;
  let buf := read_into buf r in
  fail_if (negb (r.2 =? 5)) (str "unlinkread read failed") ;;
  fail_if (negb (nth 0 buf 0 =? ch "h")) (line "unlinkread wrong data") ;;
  must_be 10 (write fd (take 10 buf)) "unlinkread write failed" ;;
  call_ (close fd) ;;
  call_ (unlink (str "unlinkread")) ;;
  say "unlinkread ok" ;;
  mret buf.

Definition linktest (buf : list Z) : M S (list Z) :=
  say "linktest" ;;
  call_ (unlink (str "lf1")) ;;
  call_ (unlink (str "lf2")) ;;
  fd ← must_open (str "lf1") O_CREATE_RDWR (line "create lf1 failed");
  must_be 5 (write fd (str "hello")) "write lf1 failed" ;;
  call_ (close fd) ;;
  must (link (str "lf1") (str "lf2")) "link lf1 lf2 failed" ;;
  call_ (unlink (str "lf1")) ;;
  must_fail (open (str "lf1") 0) "unlinked lf1 but it is still there!" ;;
  fd ← must_open (str "lf2") 0 (line "open lf2 failed");
  r ← read fd BUFSIZE;
  fail_if (negb (r.2 =? 5)) (line "read lf2 failed") ;;
  call_ (close fd) ;;
  must_fail (link (str "lf2") (str "lf2")) "link lf2 lf2 succeeded! oops" ;;
  call_ (unlink (str "lf2")) ;;
  must_fail (link (str "lf2") (str "lf1")) "link non-existant succeeded! oops" ;;
  must_fail (link (str ".") (str "lf1")) "link . lf1 succeeded! oops" ;;
  say "linktest ok" ;;
  mret (read_into buf r).

Definition bigdir_name (i : nat) : list Z := [ch "x"; ch "0" + Z.of_nat (i / 64); ch "0" + Z.of_nat (i mod 64)].
Definition bigdir : M S unit :=
  say "bigdir test" ;;
  call_ (unlink (str "bd")) ;;
  fd ← must_open (str "bd") O_CREATE (line "bigdir create failed");
  call_ (close fd) ;;
  forM (seq 0 500) (λ i, must_be 0 (link (str "bd") (bigdir_name i)) "bigdir link failed") ;;
  call_ (unlink (str "bd")) ;;
  forM (seq 0 500) (λ i, r ← unlink (bigdir_name i); fail_if (negb (r =? 0)) (str "bigdir unlink failed")) ;;
  say "bigdir ok".

Definition subdir (buf : list Z) : M S (list Z) :=
  say "subdir test" ;;
  call_ (unlink (str "ff")) ;;
  must_be 0 (mkdir (str "dd")) "subdir mkdir dd failed" ;;
  fd ← must_open (str "dd/ff") O_CREATE_RDWR (line "create dd/ff failed");
  call_ (write fd (str "ff")) ;;
  call_ (close fd) ;;
  must_fail (unlink (str "dd")) "unlink dd (non-empty dir) succeeded!" ;;
  must_be 0 (mkdir (str "/dd/dd")) "subdir mkdir dd/dd failed" ;;
  fd ← must_open (str "dd/dd/ff") O_CREATE_RDWR (line "create dd/dd/ff failed");
  call_ (write fd (str "FF")) ;;
  call_ (close fd) ;;
  fd ← must_open (str "dd/dd/../ff") 0 (line "open dd/dd/../ff failed");
  r ← read fd BUFSIZE;
  let buf := read_into buf r in
  fail_if (negb (r.2 =? 2) || negb (nth 0 buf 0 =? ch "f")) (line "dd/dd/../ff wrong content") ;;
  call_ (close fd) ;;
  must_be 0 (link (str "dd/dd/ff") (str "dd/dd/ffff")) "link dd/dd/ff dd/dd/ffff failed" ;;
  must_be 0 (unlink (str "dd/dd/ff")) "unlink dd/dd/ff failed" ;;
  must_fail (open (str "dd/dd/ff") O_RDONLY) "open (unlinked) dd/dd/ff succeeded" ;;
  must_be 0 (chdir (str "dd")) "chdir dd failed" ;;
  must_be 0 (chdir (str "dd/../../dd")) "chdir dd/../../dd failed" ;;
  must_be 0 (chdir (str "dd/../../../dd")) "chdir dd/../../dd failed" ;;
  must_be 0 (chdir (str "./..")) "chdir ./.. failed" ;;
  fd ← must_open (str "dd/dd/ffff") 0 (line "open dd/dd/ffff failed");
  r ← read fd BUFSIZE;
  let buf := read_into buf r in
  fail_if (negb (r.2 =? 2)) (line "read dd/dd/ffff wrong len") ;;
  call_ (close fd) ;;
  must_fail (open (str "dd/dd/ff") O_RDONLY) "open (unlinked) dd/dd/ff succeeded!" ;;
  must_fail (open (str "dd/ff/ff") O_CREATE_RDWR) "create dd/ff/ff succeeded!" ;;
  must_fail (open (str "dd/xx/ff") O_CREATE_RDWR) "create dd/xx/ff succeeded!" ;;
  must_fail (open (str "dd") O_CREATE) "create dd succeeded!" ;;
  must_fail (open (str "dd") O_RDWR) "open dd rdwr succeeded!" ;;
  must_fail (open (str "dd") O_WRONLY) "open dd wronly succeeded!" ;;
  must_not_be 0 (link (str "dd/ff/ff") (str "dd/dd/xx")) "link dd/ff/ff dd/dd/xx succeeded!" ;;
  must_not_be 0 (link (str "dd/xx/ff") (str "dd/dd/xx")) "link dd/xx/ff dd/dd/xx succeeded!" ;;
  must_not_be 0 (link (str "dd/ff") (str "dd/dd/ffff")) "link dd/ff dd/dd/ffff succeeded!" ;;
  must_not_be 0 (mkdir (str "dd/ff/ff")) "mkdir dd/ff/ff succeeded!" ;;
  must_not_be 0 (mkdir (str "dd/xx/ff")) "mkdir dd/xx/ff succeeded!" ;;
  must_not_be 0 (mkdir (str "dd/dd/ffff")) "mkdir dd/dd/ffff succeeded!" ;;
  must_not_be 0 (unlink (str "dd/xx/ff")) "unlink dd/xx/ff succeeded!" ;;
  must_not_be 0 (unlink (str "dd/ff/ff")) "unlink dd/ff/ff succeeded!" ;;
  must_not_be 0 (chdir (str "dd/ff")) "chdir dd/ff succeeded!" ;;
  must_not_be 0 (chdir (str "dd/xx")) "chdir dd/xx succeeded!" ;;
  must_be 0 (unlink (str "dd/dd/ffff")) "unlink dd/dd/ff failed" ;;
  must_be 0 (unlink (str "dd/ff")) "unlink dd/ff failed" ;;
  must_not_be 0 (unlink (str "dd")) "unlink non-empty dd succeeded!" ;;
  must (unlink (str "dd/dd")) "unlink dd/dd failed" ;;
  must (unlink (str "dd")) "unlink dd failed" ;;
  say "subdir ok" ;;
  mret buf.

Definition fourteen : M S unit :=
  say "fourteen test" ;;
  must_be 0 (mkdir (str "12345678901234")) "mkdir 12345678901234 failed" ;;
  must_be 0 (mkdir (str "12345678901234/123456789012345")) "mkdir 12345678901234/123456789012345 failed" ;;
  fd ← must_open (str "123456789012345/123456789012345/123456789012345") O_CREATE
         (line "create 123456789012345/123456789012345/123456789012345 failed");
  call_ (close fd) ;;
  fd ← must_open (str "12345678901234/12345678901234/12345678901234") 0
         (line "open 12345678901234/12345678901234/12345678901234 failed");
  call_ (close fd) ;;
  must_not_be 0 (mkdir (str "12345678901234/12345678901234")) "mkdir 12345678901234/12345678901234 succeeded!" ;;
  must_not_be 0 (mkdir (str "123456789012345/12345678901234")) "mkdir 12345678901234/123456789012345 succeeded!" ;;
  say "fourteen ok".

Definition rmdot : M S unit :=
  say "rmdot test" ;;
  must_be 0 (mkdir (str "dots")) "mkdir dots failed" ;;
  must_be 0 (chdir (str "dots")) "chdir dots failed" ;;
  must_not_be 0 (unlink (str ".")) "rm . worked!" ;;
  must_not_be 0 (unlink (str "..")) "rm .. worked!" ;;
  must_be 0 (chdir (str "/")) "chdir / failed" ;;
  must_not_be 0 (unlink (str "dots/.")) "unlink dots/. worked!" ;;
  must_not_be 0 (unlink (str "dots/..")) "unlink dots/.. worked!" ;;
  must_be 0 (unlink (str "dots")) "unlink dots failed!" ;;
  say "rmdot ok".

Definition dirfile : M S unit :=
  say "dir vs file" ;;
  fd ← must_open (str "dirfile") O_CREATE (line "create dirfile failed");
  call_ (close fd) ;;
  must_not_be 0 (chdir (str "dirfile")) "chdir dirfile succeeded!" ;;
  must_fail (open (str "dirfile/xx") 0) "create dirfile/xx succeeded!" ;;
  must_fail (open (str "dirfile/xx") O_CREATE) "create dirfile/xx succeeded!" ;;
  must_not_be 0 (mkdir (str "dirfile/xx")) "mkdir dirfile/xx succeeded!" ;;
  must_not_be 0 (unlink (str "dirfile/xx")) "unlink dirfile/xx succeeded!" ;;
  must_not_be 0 (link (str "README") (str "dirfile/xx")) "link to dirfile/xx succeeded!" ;;
  must_be 0 (unlink (str "dirfile")) "unlink dirfile failed!" ;;
  must_fail (open (str ".") O_RDWR) "open . for writing succeeded!" ;;
  fd ← open (str ".") 0;
  w ← write fd (str "x");
  fail_if (0 <? w) (line "write . succeeded!") ;;
  call_ (close fd) ;;
  say "dir vs file OK".

Definition iref : M S unit :=
  say "empty file name" ;;
  forM (seq 0 51) (λ _,
    must_be 0 (mkdir (str "irefd")) "mkdir irefd failed" ;;
    must_be 0 (chdir (str "irefd")) "chdir irefd failed" ;;
    call_ (mkdir []) ;;
    call_ (link (str "README") []) ;;
    fd ← open [] O_CREATE;
    when (0 <=? fd) (call_ (close fd)) ;;
    fd ← open (str "xx") O_CREATE;
    when (0 <=? fd) (call_ (close fd)) ;;
    call_ (unlink (str "xx"))) ;;
  call_ (chdir (str "/")) ;;
  say "empty file name OK".

(** ** Big files *)

Definition bigwrite (buf : list Z) : M S unit :=
  say "bigwrite test" ;;
  call_ (unlink (str "bigwrite")) ;;
  forM (seq 0 12) (λ k,
    let sz := 499 + 471 * Z.of_nat k in
    fd ← must_open (str "bigwrite") O_CREATE_RDWR (line "cannot create bigwrite");
    forM (seq 0 2) (λ _,
      cc ← write fd (take (Z.to_nat sz) buf);
      if negb (cc =? sz) then printl 1 "write(%d) ret %d" [CInt sz; CInt cc] ;; exit else mret tt) ;;
    call_ (close fd) ;;
    call_ (unlink (str "bigwrite"))) ;;
  say "bigwrite ok".

Fixpoint bigfile_write (k : nat) (i fd : Z) (buf : list Z) : M S (list Z) :=
  match k with
  | O => mret buf
  | Datatypes.S k' =>
      let buf := splice 0 (replicate 600 i) buf in
      must_be 600 (write fd (take 600 buf)) "write bigfile failed" ;;
      bigfile_write k' (i + 1) fd buf
  end.
Fixpoint bigfile_read (fuel : nat) (fd i total : Z) (buf : list Z) : M S (Z * list Z) :=
  match fuel with
  | O => nofuel
  | Datatypes.S fuel' =>
      r ← read fd 300;
      let buf := read_into buf r in
      fail_if (r.2 <? 0) (line "read bigfile failed") ;;
      if r.2 =? 0 then mret (total, buf) else
      fail_if (negb (r.2 =? 300)) (line "short read bigfile") ;;
      fail_if (negb (s8 (nth 0 buf 0) =? i / 2) || negb (s8 (nth 299 buf 0) =? i / 2)) (line "read bigfile wrong data") ;;
      bigfile_read fuel' fd (i + 1) (total + r.2) buf
  end.
Definition bigfile (buf : list Z) : M S (list Z) :=
  say "bigfile test" ;;
  call_ (unlink (str "bigfile")) ;;
  fd ← must_open (str "bigfile") O_CREATE_RDWR (str "cannot create bigfile");
  buf ← bigfile_write 20 0 fd buf;
  call_ (close fd) ;;
  fd ← must_open (str "bigfile") 0 (line "cannot open bigfile");
  r ← bigfile_read loop_bound fd 0 0 buf;
  call_ (close fd) ;;
  fail_if (negb (r.1 =? 20 * 600)) (line "read bigfile wrong total") ;;
  call_ (unlink (str "bigfile")) ;;
  say "bigfile test ok" ;;
  mret r.2.

(** ** Programs *)

(** [uninit]: the array as the program finds it. *)
Definition bsstest (uninit : list Z) : M S unit :=
  say "bss test" ;;
  fail_if (negb (forallb (Z.eqb 0) uninit)) (line "bss test failed") ;;
  say "bss test ok".

Definition bigarg : list Z := str "bigargs test: failed" ++ [NL] ++ replicate 199 (ch " ").
Definition bigargtest : M S unit :=
  call_ (unlink (str "bigarg-ok")) ;;
  pid ← fork;
  (if pid =? 0 then
     say "bigarg test" ;;
     call_ (exec (str "echo") (replicate (Z.to_nat (MAXARG - 1)) bigarg)) ;;
     say "bigarg test ok" ;;
     fd ← open (str "bigarg-ok") O_CREATE;
     call_ (close fd) ;;
     exit
   else fail_if (pid <? 0) (line "bigargtest: fork failed")) ;;
  call_ wait ;;
  fd ← must_open (str "bigarg-ok") 0 (line "bigarg test failed!");
  call_ (close fd) ;;
  call_ (unlink (str "bigarg-ok")).

(** The suite. *)
Definition usertests_main (argptest sbrktest validatetest mem uio : M S unit) (uninit : list Z) : M S unit :=
  let buf := replicate (Z.to_nat BUFSIZE) 0 in
  say "usertests starting" ;;
  must_fail (open (str "usertests.ran") 0) "already ran user tests -- rebuild fs.img" ;;
  fd ← open (str "usertests.ran") O_CREATE;
  call_ (close fd) ;;
  argptest ;;
  createdelete ;;
  linkunlink ;;
  concreate ;;
  buf ← fourfiles buf;
  sharedfd ;;
  bigargtest ;;
  bigwrite buf ;;
  bigargtest ;;
  bsstest uninit ;;
  sbrktest ;;
  validatetest ;;
  opentest ;;
  buf ← writetest buf;
  buf ← writetest1 buf;
  createtest ;;
  openiputtest ;;
  exitiputtest ;;
  iputtest ;;
  mem ;;
  buf ← pipe1 buf;
  buf ← preempt buf;
  exitwait ;;
  rmdot ;;
  fourteen ;;
  buf ← bigfile buf;
  buf ← subdir buf;
  buf ← linktest buf;
  buf ← unlinkread buf;
  dirfile ;;
  iref ;;
  ut_forktest ;;
  bigdir ;;
  uio ;;
  exectest ;;
  exit.
End Tests.
