(* ===== verification/Machine.v ===== *)
(** * Machine: user programs on the whole kernel

    The interface of system calls that user programs are written against, carried
    out by the kernel: the stub of usys.S loads the call's number and traps, and
    [trap] dispatches to the call, which fetches its arguments from the stack and
    the memory of the process.  Programs then run on the kernel from the trap
    down to the disk.

    [suite_passes] runs the file system tests of usertests.c one after the other on
    a disk image that mkfs made, and computes that they pass: what they print is
    what the console shows. *)

From S2P Require Import Prelude State Console Strings Lock Kalloc Vm Pipe Bio Log Inode Devs Fs File Proc Exec Uaccess Sysfile Syscall User Utils Mkfs Progs Usertests.

(** Where the program has its stack, two strings, and its buffers. *)
Definition USTACK : Z := 0x1000.
Definition UPATH : Z := 0x1100.
Definition UPATH2 : Z := 0x1300.
Definition UBUF : Z := 0x2000.

Section Calls.
Context `{WaitBound} `{KernEnd} `{KernData} `{Forkret} `{CpuId}.

(** A call of the stub for [num]: the caller has pushed the arguments and the
    return address; [int $T_SYSCALL] enters [trap] with the registers. *)
Definition stub (num : Z) (args : list Z) : K Z :=
  i ← curproc;
  ustore (USTACK + 4) (flat_map (le_put 4) args) ;;
  p ← get_proc i;
  _ ← trap (set_tf_trapno T_SYSCALL (set_tf_esp USTACK (set_tf_eax num (p_tf p)))) (mkDevin 0 0 [] []);
  p ← get_proc i;
  mret (s32 (tf_eax (p_tf p))).
Definition ustring (a : Z) (cs : list Z) : K unit := ustore a (cs ++ [0]).
Definition stub_path (num : Z) (path : list Z) (args : list Z) : K Z := ustring UPATH path ;; stub num (UPATH :: args).

#[export] Instance machine_io : Sys.Io kernel := {
  Sys.write fd bs := ustore UBUF bs ;; stub 16 [fd; UBUF; Z.of_nat (length bs)];
  Sys.read fd n := r ← stub 5 [fd; UBUF; n]; bs ← uload (Z.to_nat r) UBUF; mret (bs, r) }.

(** The strings of an argument vector, and their addresses. *)
Fixpoint uargs (a : Z) (argv : list (list Z)) : K (list Z) :=
  match argv with
  | [] => mret []
  | w :: argv' => ustring a w ;; l ← uargs (a + Z.of_nat (length w) + 1) argv'; mret (a :: l)
  end.
Definition state_of (c : Z) : procstate :=
  match c with 0 => UNUSED | 1 => EMBRYO | 2 => SLEEPING | 3 => RUNNABLE | 4 => RUNNING | _ => ZOMBIE end.
Definition procInfo_get (d : list Z) : procInfo := mkProcInfo (state_of (get32 0 d)) (get32 4 d) (get32 8 d) (slice 12 16 d).

#[export] Instance machine_os : Sys.Os kernel := {
  Sys.fork := stub 1 [];
  Sys.wait := stub 3 [];
  Sys.pipe := r ← stub 4 [UBUF]; bs ← uload 8 UBUF; mret (r, (get32 0 bs, get32 4 bs));
  Sys.kill pid := stub 6 [pid];
  Sys.exec path argv :=
    l ← uargs (UBUF + 0x100) argv;
    ustore UBUF (flat_map (le_put 4) (l ++ [0])) ;;
    r ← stub_path 7 path [UBUF];
    if r <? 0 then mret r else Sys.exit;
  Sys.fstat fd :=
    r ← stub 8 [fd; UBUF];
    if r <? 0 then mret None else
    d ← uload 20 UBUF;
    mret (Some (mkStat (s16 (get16 0 d)) (s32 (get32 4 d)) (get32 8 d) (s16 (get16 12 d)) (get32 16 d)));
  Sys.chdir path := stub_path 9 path [];
  Sys.dup fd := stub 10 [fd];
  Sys.getpid := stub 11 [];
  Sys.sbrk n := stub 12 [n];
  Sys.sleep n := stub 13 [n];
  Sys.uptime := stub 14 [];
  Sys.open path mode := stub_path 15 path [mode];
  Sys.mknod path major minor := stub_path 17 path [major; minor];
  Sys.unlink path := stub_path 18 path [];
  Sys.link old new := ustring UPATH2 new ;; stub_path 19 old [UPATH2];
  Sys.mkdir path := stub_path 20 path [];
  Sys.close fd := stub 21 [fd];
  Sys.yield := stub 22 [];
  Sys.shutdown := stub 23 [];
  Sys.ps n := r ← stub 24 [n; UBUF]; d ← uload (Z.to_nat (28 * r)) UBUF; mret ((λ k, procInfo_get (drop (28 * k) d)) <$> seq 0 (Z.to_nat r));
  Sys.flock fd := stub 25 [fd];
  Sys.funlock fd := stub 26 [fd];
  Sys.nice pid priority := stub 27 [pid; priority] }.
End Calls.

(** ** A machine *)

Module Run.
#[local] Instance wait0 : WaitBound := 1%nat.
#[local] Instance end0 : KernEnd := 0x80200000.
#[local] Instance data0 : KernData := 0x80108000.
#[local] Instance forkret0 : Forkret := 0x80100000.
#[local] Instance cpu0 : CpuId := 0.
#[local] Instance loop0 : LoopBound := 200%nat.

(** A process of four pages, with a page directory and one page table. *)
Definition page0 : list Z := replicate PGWORDS 0.
Definition uproc : proc := set_p_state RUNNING (set_p_pid 1 (set_p_sz 0x4000 (set_p_pgdir 0x80300000 proc0))).
Definition umem : gmap Z (list Z) :=
  <[0x80300000 := <[0%nat := 0x301007]> page0]>
  (<[0x80301000 := <[0%nat := 0x302007]> (<[1%nat := 0x303007]> (<[2%nat := 0x304007]> (<[3%nat := 0x305007]> page0)))]>
  (<[0x80302000 := page0]> (<[0x80303000 := page0]> (<[0x80304000 := page0]> (<[0x80305000 := page0]> ∅))))).
Definition files : list srcfile := [(str "README", [str "xv6 is here"]); (str "_echo", [str "code"]); (str "_cat", [str "code"])].
Definition machine (m : mkfs) : kernel :=
  set_k_proc (Some 0%nat) (set_k_ptable (<[0%nat := uproc]> (k_ptable kernel0))
    (set_k_mem umem (set_k_cr3 0x300000 (set_k_uart true (set_k_disk (mk_img m) (set_k_disksize FSSIZE kernel0)))))).

(** The set-up of main.c and [forkret] that programs rely on, the current
    directory of the first process, and the console opened as init.c does. *)
Definition start : K unit :=
  binit ;;
  consoleinit ;;
  iinit ROOTDEV ;;
  initlog ROOTDEV ;;
  ip ← namei [SLASH];
  upd_proc 0 (set_p_cwd ip) ;;
  call_ (Sys.mknod (str "console") 1 1) ;;
  call_ (Sys.open (str "console") O_RDWR) ;;
  call_ (Sys.dup 0) ;;
  call_ (Sys.dup 0).

(** What the console shows when [t] has returned. *)
Definition shown (t : K unit) : option (list Z) :=
  match mkfs_main files mkfs0 with
  | Ok _ m => match (start ;; t) (machine m) with Ok _ s => Some (rev (k_output s)) | _ => None end
  | _ => None
  end.

Definition suite : K unit :=
  let buf := replicate (Z.to_nat BUFSIZE) 0 in
  opentest ;;
  iputtest ;;
  dirtest ;;
  rmdot ;;
  fourteen ;;
  buf ← subdir buf;
  buf ← linktest buf;
  buf ← unlinkread buf;
  dirfile.
Definition transcript : list Z := concat (map line
  ["sb: size 2000 nblocks 1941 ninodes 200 nlog 30 logstart 2 inodestart 32 bmap start 58";
   "open test"; "open test ok"; "iput test"; "iput test ok"; "mkdir test"; "mkdir test ok"; "rmdot test"; "rmdot ok";
   "fourteen test"; "fourteen ok"; "subdir test"; "subdir ok"; "linktest"; "linktest ok"; "unlinkread test"; "unlinkread ok";
   "dir vs file"; "dir vs file OK"]%string).
(** The tests pass on the kernel. *)
Example suite_passes : shown suite = Some transcript.
Proof. vm_compute. reflexivity. Qed.

(** The listing of the root directory. *)
Example ls_lists : shown (ls (str ".")) = Some (concat (map line
  ["sb: size 2000 nblocks 1941 ninodes 200 nlog 30 logstart 2 inodestart 32 bmap start 58";
   ".              1 1 512"; "..             1 1 512"; "README         2 2 11"; "echo           2 3 4"; "cat            2 4 4";
   "console        3 5 0"]%string)).
Proof. vm_compute. reflexivity. Qed.
End Run.
